(* ===== verification/_CoqProject ===== *)
-Q . S2P
Prelude.v
PyStr.v
Json.v
PyVal.v
Codec.v
JsonIndent.v
Strkey.v
Sha256.v
MetadataErrors.v
Envelope.v
Receipt.v
Stego.v
VerifierInputs.v
VerifierCache.v
Lineage.v
IssuerKeys.v
Admission.v
Idempotency.v
TxReconcile.v
ProofStore.v
Webhook.v
ChainIndexer.v
JobQueue.v
Quarantine.v
RegisterAuth.v
SessionReplay.v
Register.v
EvidenceStorage.v
StreamingUpload.v
Logging.v
Config.v
MediaRoutes.v
Consent.v
Sampling.v
Regex.v
Redaction.v
AnalyticsEvents.v
AnalyticsMetrics.v
LogProcessor.v
ExportManager.v
AnalyticsEngine.v
AnalyticsRoutes.v
ArtifactNormal.v
ArtifactManifest.v
BrowserManifest.v
C2pa.v
Rfc3161Chain.v
TimeAttestation.v
CaptureAttestation.v
TraceFields.v
Workspace.v
Ddl.v
Migration.v
HttpSecurity.v
ProofRoutes.v
ServiceRoutes.v
Manage.v
