(* ===== verification/Prelude.v ===== *)
(** Harpocrates: the Python backend that registers, embeds and verifies provenance
    proofs of videos on Stellar.

    * The program

    A client embeds a metadata envelope in a video, registers the proof (an event row in
    PostgreSQL and a transaction of the Soroban registry contract) and later verifies a
    video against both.  The backend (src/backend) is a Flask application ([app.py]) over
    a store ([db.py]), with background threads that confirm transactions, index contract
    events, deliver webhooks and purge expired rows, and libraries for the formats it
    exchanges with the contract, the circuits and the clients.

    * The files and what they model

    Shared:
    - [Prelude] (this file): results with exceptions, the hint base [harpo], lists,
      slices, big-endian integers and bit operations;
    - [PyStr], [Json], [PyVal], [Codec], [Sha256]: what the code uses of Python's [str],
      [bytes], [int], [dict], [json], UTF-8, [base64] and [hashlib].  Text is a list of
      code points, a byte string a list of octets; what CPython knows of code points
      above 127 is the class [Unicode], over which every theorem is stated.

    Formats:
    - [Strkey]: [strkey.py], Stellar addresses with their CRC;
    - [Envelope], [MetadataErrors]: [envelope.py], [metadata_errors.py] and
      [error_response] of [errors.py]: the sealed metadata and its error taxonomy;
    - [Stego]: [stego.py], the payload in the border and the low bits of the frames;
    - [Receipt]: [verification_receipt.py];
    - [VerifierInputs]: [verifier_inputs.py], the public-input frames of the circuits;
    - [Quarantine]: [quarantine.py], signatures and declared types of uploads;
    - [C2pa]: [c2pa.py] and its two routes, manifests exported, parsed and corroborated;
    - [Rfc3161Chain], [TimeAttestation]: [rfc3161_chain.py], [time_attestation.py] and the
      route that builds attestations;
    - [CaptureAttestation]: [capture_attestation.py];
    - [TraceFields]: [trace_fields.py], identifiers of requests and sanitized paths;
    - [JsonIndent], [ArtifactNormal], [ArtifactManifest], [BrowserManifest]: indented JSON
      and the artifact tools of src/zk/tools: normal forms of circuit artifacts and
      WebAssembly modules, lock manifests of a tree, the browser bundle.

    State:
    - [ProofStore]: the proof events, cursors, idempotent insertion, legal hold and
      retention of [db.py], with the purge loop of [retention.py];
    - [EvidenceStorage]: blobs, tenant references, key wrapping and collection of [db.py],
      [evidence_storage.py] and [retention.py];
    - [Lineage]: [lineage.py], the lineage table of [db.py] and the registration route;
    - [IssuerKeys]: [issuer_key_transparency.py], the hash-chained key directory;
    - [VerifierCache]: [verifier_cache.py], a bounded cache with expiry;
    - [Admission]: [admission.py], the concurrency limits, as interleaved lock sections;
    - [Idempotency]: [idempotency.py], replay of answered requests;
    - [SessionReplay]: [analytics/session_protection.py], single-use nonces;
    - [Workspace]: [workspace.py], files encrypted in counter mode and their server;
    - [Ddl], [Migration], [Manage]: the data definition statements of PostgreSQL the
      migrations use, [migration.py] with the SQL of the source, and the commands of
      [manage.py] over it and the store.

    Requests:
    - [Config]: [config.py], every setting and its summary;
    - [HttpSecurity]: [http_security.py] and the hooks of [app.py] that use it;
    - [RegisterAuth], [Register]: [register_auth.py] and, of [app.py], the credential
      check and the whole handler of a registration, over [ProofStore];
    - [StreamingUpload], [MediaRoutes]: [streaming_upload.py] and the embedding, extraction
      and upload-session handlers of [app.py];
    - [ProofRoutes]: batch verification, proof history and the Silent Witness routes of
      [app.py], over [ProofStore] and the rows of [ChainIndexer];
    - [ServiceRoutes]: [schema.py], [readiness.py] and the schema, selective-disclosure,
      capture-attestation, metrics and download routes of [app.py].

    Background work:
    - [TxReconcile]: [tx_verification.py], [registration_reconcile.py] and the status
      updates of [db.py];
    - [Webhook]: [webhook.py], over the events of [ProofStore];
    - [ChainIndexer]: [chain_indexer.py] and the indexer tables of [db.py]; it calls the
      insertion of [ProofStore], the queueing of [Webhook] and the address codec;
    - [JobQueue]: the job queue of [db.py], [public_job_view] of [app.py], the file sweep
      of [storage.py] and the loop of [worker.py].

    Logs and analytics (src/backend/analytics):
    - [Logging]: the redaction of [logging_utils.py];
    - [Consent], [Sampling]: consent decisions and deterministic sampling;
    - [Regex], [Redaction]: the regular expressions the package uses, with a relational
      semantics, and the redaction of payloads with them;
    - [AnalyticsEvents], [AnalyticsMetrics], [LogProcessor], [ExportManager]: life of an
      event, metrics, log entries and their bounded export;
    - [AnalyticsEngine], [AnalyticsRoutes]: ingestion over all of these, configuration and
      routes.

    * How code becomes definitions

    A function is a definition of the same name; one that can raise returns a [result],
    and an early return of a handler is the [Err] of an answer.  A table is a list of
    records in id order, a Python dictionary an association list in insertion order, a
    [dataclass] a record.  A statement that runs in one transaction is one function on the
    tables, and transactions take effect one after the other.  Registration, admission,
    webhook dispatch, jobs and confirmations interleave: their steps are a relation and the
    theorems quantify over its runs.  Elsewhere (lineage, evidence, idempotent requests)
    operations run one after the other, and the races the code allows are runs of their own.
    Clocks are arguments.  Code that is not in the repository is a parameter: [Unicode],
    zlib ([Zlib]), [datetime] parsing, Horizon and the Soroban RPC, HTTP, Fernet, AES in
    counter mode ([AesCtr]), what a path names ([Files]), what PostgreSQL casts a value to
    ([Columns]), the proof generator, RSA and ECDSA verification.  What is assumed of it is
    a class of laws ([ZlibLaws], [IsoLaws]) with an instance in a witness.  SHA-256 is computed; injectivity
    is never assumed, instead a theorem ends in "or these two named messages collide".

    * What is shown

    - Round trips: embedded metadata through a lossy codec, envelopes, StrKeys, revocation
      inputs, key-directory events, cursors, C2PA manifests, attestations, trace headers,
      encrypted files, written manifests, posted history.
    - Exact acceptance: what [unpack_envelope], the frame parsers, [classify],
      [isolate_upload], the receipt builder, the certificate chain check, the origin check
      and the digest check of migrations accept, and with which error they refuse.
    - Binding up to collisions: checkpoints, lineage digests, cache keys, signatures,
      pinned artifact trees, attestations.
    - Invariants over all runs: owner of a proof, acyclic lineage, chained log, admission
      limits, final transaction statuses, delivery attempts, life of a job, nonces.
    - Refinement: the cache refines a map, ingestion refines a first-wins map, references
      refine a multiset, interrupted or skipped migrations end where undisturbed ones do.
    - Privacy: redaction of payloads and logs hides what differs only in secrets; paths and
      identifiers that are logged are plain.
    - Termination and completeness: ancestry search, paging, retention, collection.
    - Defects: a theorem for each where the code does not do what it says, listed as
      findings: racing registrations, lineage and idempotent requests, jobs that run twice
      after a shutdown, overdue webhook outcomes, retirement of a compromised key,
      struct-valued history events, the worker loop that leases nothing, revocations that
      batch verification by video does not see, a Silent Witness route that never
      succeeds, drift reported for every database, among others.

    * Fuel and bounds

    Recursion is structural except for: the ancestry search, whose fuel is the depth and
    is proved enough from the number of rows; the purge loop, which takes one instant of
    the clock per pass and is proved to end within one pass more than there are events;
    the UTF-8 decoder, whose fuel is the number of bytes; the JSON parser, whose fuel is
    twice the length of the text; the digits of an integer, whose fuel is its number of
    bits; the sections of a WebAssembly module, whose fuel is the length of the data, which
    is proved enough, and its integers, which take five rounds as in the code; the chunk
    loops of the workspace, whose fuel is one more than the length of the source and is
    proved enough; counting a separator, which drops a character per find.  Integers are
    exact, as in Python; columns of PostgreSQL are bounded where the code depends on it
    ([int4] of [ChainIndexer], [bigint] of [PyStr], [BIGINT_MAX] of [EvidenceStorage]).

    * Not modelled

    FFmpeg and its processes, sockets and multipart streams, the file system but for the
    listings and contents the code depends on, PostgreSQL connections and their retries,
    certificate and ASN.1 libraries, Noir, counters and spans, application set-up, argument
    parsing and printing of the commands, the linters, benchmarks and vector generators
    around external tools (src/devx, src/zk/bench, src/zk/vectors): they are effects, or
    wrap programs that are not in the repository.  The recursion limit of [json.loads]
    is a parameter of the envelope reader ([unpack_with]) and left out elsewhere, as are the
    in-memory stand-ins for tests.  The contracts (Rust), the front
    end and the command line (TypeScript) are other programs. *)
From Stdlib Require Import ZArith Znumtheory Lia.
From stdpp Require Import base decidable strings numbers relations gmap list.

Open Scope Z_scope.

(** * Results: the error monad of the Python code *)

(** A call either returns or raises; [E] is the type of what it raises. *)
Inductive result (E A : Type) : Type :=
  | Ok (a : A)
  | Err (e : E).
Arguments Ok {E A} _.
Arguments Err {E A} _.

#[export] Instance result_ret E : MRet (result E) := λ A a, Ok a.
#[export] Instance result_bind E : MBind (result E) := λ A B f m,
  match m with Ok a => f a | Err e => Err e end.
#[export] Instance result_fmap E : FMap (result E) := λ A B f m,
  match m with Ok a => Ok (f a) | Err e => Err e end.

#[export] Instance result_eq_dec E A `{EqDecision E, EqDecision A} :
  EqDecision (result E A).
Proof. solve_decision. Defined.

(** [if not b: raise e] *)
Definition ensure {E} (b : bool) (e : E) : result E unit :=
  if b then Ok () else Err e.

(** [except]: translate what was raised. *)
Definition map_err {E F A} (f : E → F) (m : result E A) : result F A :=
  match m with Ok a => Ok a | Err e => Err (f e) end.

Definition to_option {E A} (m : result E A) : option A :=
  match m with Ok a => Some a | Err _ => None end.

Definition is_ok {E A} (m : result E A) : bool :=
  match m with Ok _ => true | Err _ => false end.

(** The value of a call that is known to return. *)
Definition from_ok {E A} (d : A) (m : result E A) : A := match m with Ok a => a | Err _ => d end.

Lemma from_ok_spec {E A} (d : A) (m : result E A) : is_ok m = true → m = Ok (from_ok d m).
Proof. by destruct m. Qed.

Fixpoint result_mapM {E A B} (f : A → result E B) (l : list A) : result E (list B) :=
  match l with
  | [] => Ok []
  | x :: l => y ← f x; ys ← result_mapM f l; Ok (y :: ys)
  end.

(** A left fold that stops at the first exception: a [for] loop over state. *)
Fixpoint result_foldl {E A S} (f : S → A → result E S) (l : list A) (s : S) : result E S :=
  match l with
  | [] => Ok s
  | x :: l => s' ← f s x; result_foldl f l s'
  end.

Lemma bind_Ok {E A B} (f : A → result E B) (a : A) : Ok a ≫= f = f a.
Proof. done. Qed.

Lemma bind_Err {E A B} (f : A → result E B) (e : E) : Err e ≫= f = Err e.
Proof. done. Qed.

Lemma bind_ok {E A B} (f : A → result E B) (m : result E A) b :
  m ≫= f = Ok b ↔ ∃ a, m = Ok a ∧ f a = Ok b.
Proof. destruct m; cbn; split; [eauto|naive_solver|done|naive_solver]. Qed.

Lemma bind_err {E A B} (f : A → result E B) (m : result E A) e :
  m ≫= f = Err e ↔ m = Err e ∨ ∃ a, m = Ok a ∧ f a = Err e.
Proof. destruct m; cbn; naive_solver. Qed.

Lemma seq_ok {E B} (m : result E unit) (k : result E B) b :
  (m ;; k) = Ok b ↔ m = Ok () ∧ k = Ok b.
Proof. rewrite bind_ok. split; [intros ([] & ? & ?); auto|intros [? ?]; by exists ()]. Qed.

Lemma ensure_ok {E} (b : bool) (e : E) u : ensure b e = Ok u ↔ b = true.
Proof. destruct b, u; cbn; split; done. Qed.

(** The built-in exceptions the modelled code raises or lets through. *)
Inductive exn : Type :=
  | ValueError (msg : string)
  | TypeError (msg : string)
  | KeyError (key : string)
  | RuntimeError (msg : string)
  | IndexError
  | OverflowError
  | AttributeError
  | AssertionError
  | UnicodeError
  | UnboundLocalError.

#[export] Instance exn_eq_dec : EqDecision exn.
Proof. solve_decision. Defined.

(** * Automation *)

(** Case analysis on the control flow of a monadic definition that is known to
    have returned (or raised): destructs the scrutinee of every bind, [ensure]
    and conditional in the hypotheses, keeping the equations. *)
Ltac result_step :=
  match goal with
  | H : Ok _ = Ok _ |- _ => injection H as H
  | H : Err _ = Err _ |- _ => injection H as H
  | H : Ok _ = Err _ |- _ => discriminate H
  | H : Err _ = Ok _ |- _ => discriminate H
  | H : context [mbind ?f ?m] |- _ =>
      match type of m with
      | result _ _ =>
          let E := fresh "Hbind" in
          destruct m eqn:E; cbn [mbind result_bind] in H
      end
  | H : ensure ?b _ = Ok _ |- _ =>
      let E := fresh "Hens" in
      unfold ensure in H; destruct b eqn:E; [clear H | discriminate H]
  | H : ensure ?b _ = Err _ |- _ =>
      let E := fresh "Hens" in
      unfold ensure in H; destruct b eqn:E; [discriminate H |]
  end.
Ltac result_inv := repeat (result_step; simplify_eq).

(** Turn the boolean tests of the code into the propositions they decide. *)
Ltac bool_step :=
  match goal with
  | H : andb _ _ = true |- _ => apply andb_true_iff in H as [? ?]
  | H : orb _ _ = false |- _ => apply orb_false_iff in H as [? ?]
  | H : negb _ = true |- _ => apply negb_true_iff in H
  | H : negb _ = false |- _ => apply negb_false_iff in H
  | H : bool_decide _ = true |- _ => apply bool_decide_eq_true in H
  | H : bool_decide _ = false |- _ => apply bool_decide_eq_false in H
  | H : (_ =? _) = true |- _ => apply Z.eqb_eq in H
  | H : (_ =? _) = false |- _ => apply Z.eqb_neq in H
  | H : (_ <? _) = true |- _ => apply Z.ltb_lt in H
  | H : (_ <? _) = false |- _ => apply Z.ltb_ge in H
  | H : (_ <=? _) = true |- _ => apply Z.leb_le in H
  | H : (_ <=? _) = false |- _ => apply Z.leb_gt in H
  end.
Ltac bool_inv := repeat bool_step.

(** * Lists *)

(** Python's [len]. *)
Definition zlen {A} (l : list A) : Z := Z.of_nat (length l).

Lemma zlen_app {A} (l k : list A) : zlen (l ++ k) = zlen l + zlen k.
Proof. unfold zlen. rewrite length_app. lia. Qed.

Lemma zlen_nonneg {A} (l : list A) : 0 ≤ zlen l.
Proof. unfold zlen. lia. Qed.

(** Python's [l[i:j]] for indices [0 <= i <= j]. *)
Definition slice {A} (i j : nat) (l : list A) : list A := take (j - i) (drop i l).

Lemma filter_all {A} (P : A → Prop) `{!∀ x, Decision (P x)} (l : list A) :
  Forall P l → filter P l = l.
Proof. induction 1 as [|x l Hx Hl IH]; [done|]. by rewrite filter_cons_True, IH. Qed.

Lemma filter_none {A} (P : A → Prop) `{!∀ x, Decision (P x)} (l : list A) :
  Forall (λ x, ¬ P x) l → filter P l = [].
Proof. induction 1 as [|x l Hx Hl IH]; [done|]. by rewrite filter_cons_False. Qed.

Lemma length_slice {A} (i j : nat) (l : list A) :
  (i ≤ j ≤ length l)%nat → length (slice i j l) = (j - i)%nat.
Proof. intros. unfold slice. rewrite length_take, length_drop. lia. Qed.

Lemma slice_app_exact {A} (a b c : list A) (i j : nat) :
  length a = i → length b = (j - i)%nat → slice i j (a ++ b ++ c) = b.
Proof.
  intros <- Hb. unfold slice. rewrite drop_app_length.
  rewrite <- Hb. apply take_app_length.
Qed.

Lemma Forall_slice {A} (P : A → Prop) i j (l : list A) :
  Forall P l → Forall P (slice i j l).
Proof. intros. by apply Forall_take, Forall_drop. Qed.

Lemma take_drop_slices {A} (n : nat) (l : list A) :
  take n l ++ drop n l = l.
Proof. apply take_drop. Qed.

Lemma list_eq_length_app_inv {A} (a b c d : list A) :
  length a = length c → a ++ b = c ++ d → a = c ∧ b = d.
Proof. intros. by apply app_inj_1. Qed.

Lemma forallb_Forall {A} (f : A → bool) (l : list A) :
  forallb f l = true ↔ Forall (λ x, f x = true) l.
Proof.
  induction l as [|x l IH]; cbn; [by split; [constructor|]|].
  by rewrite andb_true_iff, IH, Forall_cons.
Qed.

Lemma mjoin_cons {A} (l : list A) (ls : list (list A)) : mjoin (l :: ls) = l ++ mjoin ls.
Proof. done. Qed.

(** * Integers at a width *)

Definition byte_ok (b : Z) : Prop := 0 ≤ b < 256.
Definition bytes_ok (l : list Z) : Prop := Forall byte_ok l.

#[export] Instance byte_ok_dec b : Decision (byte_ok b).
Proof. unfold byte_ok. apply _. Defined.
#[export] Instance bytes_ok_dec l : Decision (bytes_ok l).
Proof. unfold bytes_ok. apply _. Defined.

(** [int.from_bytes(l, "big")] *)
Definition int_of_be (l : list Z) : Z := foldl (λ acc b, acc * 256 + b) 0 l.

(** [z.to_bytes(n, "big")] for [0 <= z < 256 ^ n] *)
Fixpoint be_of_int (n : nat) (z : Z) : list Z :=
  match n with
  | O => []
  | S n => z / 256 ^ Z.of_nat n mod 256 :: be_of_int n z
  end.

Lemma int_of_be_acc (l : list Z) (acc : Z) :
  foldl (λ acc b, acc * 256 + b) acc l = acc * 256 ^ zlen l + int_of_be l.
Proof.
  unfold int_of_be, zlen. revert acc. induction l as [|b l IH]; intros acc; cbn [foldl length].
  - rewrite Z.pow_0_r. lia.
  - rewrite IH, (IH (0 * 256 + b)), Nat2Z.inj_succ, Z.pow_succ_r by lia. lia.
Qed.

Lemma int_of_be_cons (b : Z) (l : list Z) :
  int_of_be (b :: l) = b * 256 ^ zlen l + int_of_be l.
Proof. unfold int_of_be at 1. cbn [foldl]. rewrite int_of_be_acc. lia. Qed.

Lemma int_of_be_app (a b : list Z) :
  int_of_be (a ++ b) = int_of_be a * 256 ^ zlen b + int_of_be b.
Proof. unfold int_of_be at 1. rewrite foldl_app, int_of_be_acc. done. Qed.

Lemma int_of_be_bound (l : list Z) :
  bytes_ok l → 0 ≤ int_of_be l < 256 ^ zlen l.
Proof.
  induction 1 as [|b l Hb Hl IH]; [vm_compute; intuition discriminate|].
  rewrite int_of_be_cons. unfold zlen in *. cbn [length].
  rewrite Nat2Z.inj_succ, Z.pow_succ_r by lia. unfold byte_ok in Hb. nia.
Qed.

Lemma length_be_of_int n z : length (be_of_int n z) = n.
Proof. revert z. induction n; intros; cbn; auto. Qed.

Lemma bytes_ok_be_of_int n z : bytes_ok (be_of_int n z).
Proof.
  induction n; constructor; [|done].
  unfold byte_ok. pose proof (Z.mod_pos_bound (z / 256 ^ Z.of_nat n) 256). lia.
Qed.

Lemma int_of_be_of_int_mod n z :
  int_of_be (be_of_int n z) = z mod 256 ^ Z.of_nat n.
Proof.
  induction n as [|n IH]; [by rewrite Z.mod_1_r|].
  cbn [be_of_int]. rewrite int_of_be_cons, IH. unfold zlen. rewrite length_be_of_int.
  rewrite Nat2Z.inj_succ, Z.pow_succ_r by lia.
  rewrite (Z.mul_comm 256), Z.rem_mul_r by lia. lia.
Qed.

Lemma int_of_be_of_int n z :
  0 ≤ z < 256 ^ Z.of_nat n → int_of_be (be_of_int n z) = z.
Proof. intros. rewrite int_of_be_of_int_mod. by apply Z.mod_small. Qed.

Lemma be_of_int_mod n m z :
  (n ≤ m)%nat → be_of_int n (z mod 256 ^ Z.of_nat m) = be_of_int n z.
Proof.
  revert z. induction n as [|n IH]; intros z Hnm; [done|].
  cbn [be_of_int]. f_equal; [|apply IH; lia].
  replace (Z.of_nat m) with (Z.of_nat n + 1 + Z.of_nat (m - n - 1)) by lia.
  rewrite !Z.pow_add_r by lia. rewrite <- Z.mul_assoc, Z.rem_mul_r by lia.
  rewrite (Z.mul_comm (256 ^ Z.of_nat n)), Z.div_add by lia.
  rewrite (Z.div_small (z mod _)) by (apply Z.mod_pos_bound; lia).
  rewrite Z.add_0_l. change (256 ^ 1) with 256.
  rewrite <- Znumtheory.Zmod_div_mod; try lia. apply Z.divide_factor_l.
Qed.

Lemma be_of_int_of_be (l : list Z) :
  bytes_ok l → be_of_int (length l) (int_of_be l) = l.
Proof.
  induction 1 as [|b l Hb Hl IH]; [done|].
  pose proof (int_of_be_bound l Hl) as Hbd. unfold zlen in *.
  cbn [length be_of_int]. rewrite int_of_be_cons. unfold zlen. f_equal.
  - rewrite Z.div_add_l, (Z.div_small (int_of_be l)) by lia.
    rewrite Z.add_0_r. apply Z.mod_small, Hb.
  - rewrite <- (be_of_int_mod (length l) (length l)) by lia.
    rewrite Z.add_comm, Z.mod_add, Z.mod_small by lia. done.
Qed.

Lemma int_of_be_inj (a b : list Z) :
  bytes_ok a → bytes_ok b → length a = length b →
  int_of_be a = int_of_be b → a = b.
Proof.
  intros Ha Hb Hlen Heq.
  rewrite <- (be_of_int_of_be a Ha), <- (be_of_int_of_be b Hb).
  by rewrite Hlen, Heq.
Qed.

Lemma lor_shiftl_add (a b n : Z) :
  0 ≤ n → 0 ≤ b < 2 ^ n → Z.lor (Z.shiftl a n) b = a * 2 ^ n + b.
Proof.
  intros Hn Hb. rewrite <- (Z.shiftl_mul_pow2 a n), <- Z.add_lor_land by done.
  enough (Z.land (Z.shiftl a n) b = 0) as -> by lia.
  apply Z.bits_inj'. intros i Hi. rewrite Z.land_spec, Z.bits_0.
  destruct (Z.lt_ge_cases i n); [by rewrite Z.shiftl_spec_low|].
  destruct (Z.eq_dec b 0) as [->|]; [by rewrite Z.bits_0, andb_false_r|].
  rewrite (Z.bits_above_log2 b), andb_false_r; [done|lia|].
  apply Z.log2_lt_pow2; [lia|]. eapply Z.lt_le_trans; [apply Hb|].
  apply Z.pow_le_mono_r; lia.
Qed.

Lemma land_ones_mod (a n : Z) : 0 ≤ n → Z.land a (2 ^ n - 1) = a mod 2 ^ n.
Proof. intros. rewrite <- Z.land_ones, Z.ones_equiv, <- Z.sub_1_r by done. done. Qed.

(** * Hints *)

Create HintDb harpo.
#[export] Hint Resolve bytes_ok_be_of_int Forall_slice Forall_take Forall_drop : harpo.
#[export] Hint Rewrite @length_slice length_be_of_int @length_app @length_take
  @length_drop @length_replicate using lia : harpo_len.
