(* ===== verification/PyStr.v ===== *)
(** Python text and integers: [str] as a list of code points, [bytes] as a list
    of octets, and the parts of [str], [bytes] and [int] the modelled code calls
    ([upper], [lower], [strip], [split], [encode], [hex], [fromhex], [int(s, base)],
    decimal and hexadecimal formatting).  The Unicode tables CPython consults for
    code points above 127 are the methods of the class [Unicode]; every theorem
    of the development holds for every table. *)
From Stdlib Require Import ZArith Wf_nat Lia.
From stdpp Require Import base decidable strings numbers list.
From S2P Require Import Prelude.

Open Scope Z_scope.

Notation str := (list Z).
Notation bytes := (list Z).

(** A literal of the source. *)
Fixpoint lit (s : string) : str :=
  match s with
  | EmptyString => []
  | String a s => Z.of_N (Ascii.N_of_ascii a) :: lit s
  end.

(** * Characters *)

Class Unicode := {
  (** [chr(c).upper()] for [c >= 128] *)
  upper_tbl : Z → str;
  (** lower casing of [c >= 128] between what precedes it (reversed) and what
      follows it: final sigma is the one context-dependent case *)
  lower_tbl : str → Z → str → str;
  (** [chr(c).isspace()] for [c >= 128] *)
  space_tbl : Z → bool;
  (** the decimal digit value of [c >= 128] *)
  digit_tbl : Z → option Z;
  (** [chr(c).isprintable()] for [c >= 128] *)
  printable_tbl : Z → bool;
}.

(** A table in which no code point above 127 has a case, is a space or a digit. *)
Definition plain_unicode : Unicode := {|
  upper_tbl := λ c, [c]; lower_tbl := λ _ c _, [c];
  space_tbl := λ _, false; digit_tbl := λ _, None; printable_tbl := λ _, true |}.

Definition ascii_upper (c : Z) : Z := if (97 <=? c) && (c <=? 122) then c - 32 else c.
Definition ascii_lower (c : Z) : Z := if (65 <=? c) && (c <=? 90) then c + 32 else c.

Definition is_ascii (c : Z) : bool := (0 <=? c) && (c <? 128).

Section casing.
Context `{Unicode}.

Definition py_upper (s : str) : str :=
  s ≫= λ c, if c <? 128 then [ascii_upper c] else upper_tbl c.

Fixpoint lower_go (before s : str) : str :=
  match s with
  | [] => []
  | c :: s =>
      (if c <? 128 then [ascii_lower c] else lower_tbl before c s) ++ lower_go (c :: before) s
  end.
Definition py_lower (s : str) : str := lower_go [] s.

(** [str.isspace] on one character *)
Definition py_space (c : Z) : bool :=
  if c <? 128 then (9 <=? c) && (c <=? 13) || (28 <=? c) && (c <=? 32) else space_tbl c.
End casing.

Fixpoint drop_while {A} (p : A → bool) (l : list A) : list A :=
  match l with
  | [] => []
  | x :: l' => if p x then drop_while p l' else l
  end.

Definition strip_by (p : Z → bool) (s : str) : str :=
  rev (drop_while p (rev (drop_while p s))).
Definition py_strip `{Unicode} (s : str) : str := strip_by py_space s.

(** [s.startswith(p)] *)
Definition starts_with (p s : str) : bool := bool_decide (take (length p) s = p).

(** [s.split(sep)] for a one-character separator *)
Fixpoint split_on (sep : Z) (s : str) : list str :=
  match s with
  | [] => [[]]
  | c :: s =>
      if c =? sep then [] :: split_on sep s
      else match split_on sep s with
           | [] => [[c]]
           | w :: ws => (c :: w) :: ws
           end
  end.

(** [s.partition(sep)] for a one-character separator: [None] when it is absent *)
Fixpoint partition_on (sep : Z) (s : str) : option (str * str) :=
  match s with
  | [] => None
  | c :: s =>
      if c =? sep then Some ([], s)
      else '(a, b) ← partition_on sep s; Some (c :: a, b)
  end.

(** * Hexadecimal *)

Definition hex_val (c : Z) : option Z :=
  if (48 <=? c) && (c <=? 57) then Some (c - 48)
  else if (97 <=? c) && (c <=? 102) then Some (c - 87)
  else if (65 <=? c) && (c <=? 70) then Some (c - 55)
  else None.

(** [c in "0123456789abcdefABCDEF"] and [c in "0123456789abcdef"] *)
Definition is_hex (c : Z) : bool := bool_decide (is_Some (hex_val c)).
Definition is_lower_hex (c : Z) : bool :=
  (48 <=? c) && (c <=? 57) || (97 <=? c) && (c <=? 102).

Definition hex_digit (d : Z) : Z := if d <? 10 then 48 + d else 87 + d.

(** [b.hex()] *)
Definition bytes_hex (b : bytes) : str := b ≫= λ x, [hex_digit (x / 16); hex_digit (x mod 16)].

(** [bytes.fromhex(s)]: ASCII white space between bytes is skipped. *)
Fixpoint bytes_fromhex (s : str) : option bytes :=
  match s with
  | [] => Some []
  | c :: s' =>
      if (9 <=? c) && (c <=? 13) || (c =? 32) then bytes_fromhex s'
      else match s' with
           | [] => None
           | d :: s'' =>
               h ← hex_val c; l ← hex_val d;
               t ← bytes_fromhex s''; Some (h * 16 + l :: t)
           end
  end.

Lemma hex_val_digit d : 0 ≤ d < 16 → hex_val (hex_digit d) = Some d.
Proof.
  intros. unfold hex_digit, hex_val. destruct (Z.ltb_spec d 10).
  - replace (_ && _) with true by (symmetry; apply andb_true_iff; lia). f_equal; lia.
  - replace (_ && _) with false by (symmetry; apply andb_false_iff; lia).
    replace (_ && _) with true by (symmetry; apply andb_true_iff; lia). f_equal; lia.
Qed.

Lemma hex_digit_range d : 0 ≤ d < 16 → 48 ≤ hex_digit d ≤ 57 ∨ 97 ≤ hex_digit d ≤ 102.
Proof. unfold hex_digit. destruct (Z.ltb_spec d 10); lia. Qed.

Lemma hex_val_range c d : hex_val c = Some d → 0 ≤ d < 16.
Proof. unfold hex_val. intros. repeat case_match; bool_inv; simplify_eq; lia. Qed.

Lemma bytes_hex_cons x b :
  bytes_hex (x :: b) = hex_digit (x / 16) :: hex_digit (x mod 16) :: bytes_hex b.
Proof. done. Qed.

Lemma length_bytes_hex b : length (bytes_hex b) = (2 * length b)%nat.
Proof. induction b as [|x b IH]; [done|]. rewrite bytes_hex_cons. cbn [length]. lia. Qed.

Lemma byte_nibbles x : byte_ok x → 0 ≤ x / 16 < 16 ∧ 0 ≤ x mod 16 < 16.
Proof.
  unfold byte_ok. intros. pose proof (Z.mod_pos_bound x 16).
  split; [|lia]. split; [apply Z.div_pos; lia | apply Z.div_lt_upper_bound; lia].
Qed.

Lemma bytes_fromhex_hex b : bytes_ok b → bytes_fromhex (bytes_hex b) = Some b.
Proof.
  induction 1 as [|x b Hx Hb IH]; [done|].
  rewrite bytes_hex_cons. cbn [bytes_fromhex].
  destruct (byte_nibbles x Hx) as [Hh Hl].
  destruct (hex_digit_range (x / 16) Hh).
  all: replace (_ || _) with false
    by (symmetry; rewrite !orb_false_iff, andb_false_iff; lia).
  all: rewrite !hex_val_digit by done; cbn; rewrite IH; cbn.
  all: repeat f_equal; pose proof (Z.div_mod x 16); lia.
Qed.

Lemma bytes_hex_is_lower b : bytes_ok b → Forall (λ c, is_lower_hex c = true) (bytes_hex b).
Proof.
  assert (∀ d, 0 ≤ d < 16 → is_lower_hex (hex_digit d) = true) as Hd.
  { intros d Hd. unfold is_lower_hex. rewrite orb_true_iff, !andb_true_iff, !Z.leb_le.
    destruct (hex_digit_range d Hd); lia. }
  induction 1 as [|x b Hx Hb IH]; [constructor|]. rewrite bytes_hex_cons.
  destruct (byte_nibbles x Hx). by repeat constructor; auto.
Qed.

Lemma bytes_hex_inj a b :
  bytes_ok a → bytes_ok b → bytes_hex a = bytes_hex b → a = b.
Proof.
  intros Ha Hb Heq. apply bytes_fromhex_hex in Ha, Hb. congruence.
Qed.

Lemma bytes_fromhex_ok s b : bytes_fromhex s = Some b → bytes_ok b.
Proof.
  revert b. induction s as [s IH] using (induction_ltof1 _ (@length _)); unfold ltof in IH.
  intros b. destruct s as [|c s']; cbn; [intros; simplify_eq; constructor|].
  case_match; [apply IH; cbn; lia|].
  destruct s' as [|d s'']; [done|].
  destruct (hex_val c) eqn:Hc, (hex_val d) eqn:Hd; cbn; try done.
  destruct (bytes_fromhex s'') eqn:Ht; cbn; intros; simplify_eq.
  apply hex_val_range in Hc, Hd. constructor; [unfold byte_ok; lia|].
  apply (IH s''); [cbn; lia|done].
Qed.

(** * Positional notation *)

Definition value_of (base : Z) (ds : list Z) : Z := foldl (λ acc d, acc * base + d) 0 ds.

Fixpoint digits_go (base : Z) (fuel : nat) (z : Z) (acc : list Z) : list Z :=
  match fuel with
  | O => acc
  | S fuel => if z <? base then z :: acc else digits_go base fuel (z / base) (z mod base :: acc)
  end.

(** The digits of [z >= 0], most significant first, [[0]] for zero.  The fuel is
    the number of binary digits: a division by [base >= 2] drops at least one. *)
Definition digits (base z : Z) : list Z := digits_go base (S (Z.to_nat (Z.log2 z))) z [].

Lemma value_of_acc base ds acc :
  foldl (λ acc d, acc * base + d) acc ds = acc * base ^ zlen ds + value_of base ds.
Proof.
  unfold value_of, zlen. revert acc. induction ds as [|d ds IH]; intros acc; cbn [foldl length].
  - rewrite Z.pow_0_r. lia.
  - rewrite IH, (IH (0 * base + d)), Nat2Z.inj_succ, Z.pow_succ_r by lia. ring.
Qed.

Lemma value_of_cons base d ds :
  value_of base (d :: ds) = d * base ^ zlen ds + value_of base ds.
Proof. unfold value_of at 1. cbn [foldl]. rewrite value_of_acc. lia. Qed.

Lemma value_of_replicate_0 base n ds :
  value_of base (replicate n 0 ++ ds) = value_of base ds.
Proof. unfold value_of. rewrite foldl_app. f_equal. induction n; [done|]. by cbn. Qed.

Lemma digits_go_spec base fuel z acc :
  2 ≤ base → 0 ≤ z < 2 ^ Z.of_nat fuel →
  value_of base (digits_go base fuel z acc) = z * base ^ zlen acc + value_of base acc.
Proof.
  intros Hb. revert z acc. induction fuel as [|fuel IH]; intros z acc Hz.
  - cbn in Hz. assert (z = 0) as -> by lia. cbn [digits_go]. lia.
  - cbn [digits_go]. destruct (Z.ltb_spec z base); [by rewrite value_of_cons|].
    rewrite Nat2Z.inj_succ, Z.pow_succ_r in Hz by lia.
    rewrite IH.
    + rewrite value_of_cons. unfold zlen. cbn [length].
      rewrite Nat2Z.inj_succ, Z.pow_succ_r by lia. pose proof (Z.div_mod z base). nia.
    + split; [apply Z.div_pos; lia|]. apply Z.div_lt_upper_bound; nia.
Qed.

Lemma log2_fuel z : 0 ≤ z → 0 ≤ z < 2 ^ Z.of_nat (S (Z.to_nat (Z.log2 z))).
Proof.
  intros. split; [done|]. pose proof (Z.log2_nonneg z).
  rewrite Nat2Z.inj_succ, Z2Nat.id by done.
  destruct (Z.eq_dec z 0) as [->|]; [done|]. apply Z.log2_spec. lia.
Qed.

Lemma value_of_digits base z : 2 ≤ base → 0 ≤ z → value_of base (digits base z) = z.
Proof.
  intros. unfold digits. rewrite digits_go_spec by auto using log2_fuel. unfold zlen, value_of. cbn [length foldl]. rewrite Z.pow_0_r. lia.
Qed.

Lemma digits_go_range base fuel z acc :
  2 ≤ base → 0 ≤ z < 2 ^ Z.of_nat fuel → Forall (λ d, 0 ≤ d < base) acc →
  Forall (λ d, 0 ≤ d < base) (digits_go base fuel z acc).
Proof.
  intros Hb. revert z acc. induction fuel as [|fuel IH]; intros z acc Hz Hacc; [done|].
  cbn [digits_go]. destruct (Z.ltb_spec z base); [by constructor; [lia|]|].
  rewrite Nat2Z.inj_succ, Z.pow_succ_r in Hz by lia.
  apply IH.
  - split; [apply Z.div_pos; lia|]. apply Z.div_lt_upper_bound; nia.
  - constructor; [apply Z.mod_pos_bound; lia|done].
Qed.

Lemma digits_range base z :
  2 ≤ base → 0 ≤ z → Forall (λ d, 0 ≤ d < base) (digits base z).
Proof. intros. apply digits_go_range; auto using log2_fuel. Qed.

Lemma digits_go_length base fuel z acc n :
  2 ≤ base → (0 < n)%nat → 0 ≤ z < base ^ Z.of_nat n →
  (length (digits_go base fuel z acc) ≤ length acc + n)%nat.
Proof.
  intros Hb. revert z acc n. induction fuel as [|fuel IH]; intros z acc n Hn Hz; cbn; [lia|].
  destruct (Z.ltb_spec z base); [cbn; lia|].
  destruct n as [|n]; [lia|]. rewrite Nat2Z.inj_succ, Z.pow_succ_r in Hz by lia.
  destruct n as [|n]; [cbn in Hz; lia|].
  etrans; [apply (IH _ _ (S n)); [lia|]|cbn; lia].
  split; [apply Z.div_pos; lia|]. apply Z.div_lt_upper_bound; lia.
Qed.

Lemma length_digits base z n :
  2 ≤ base → (0 < n)%nat → 0 ≤ z < base ^ Z.of_nat n → (length (digits base z) ≤ n)%nat.
Proof. intros. by apply (digits_go_length base _ z [] n). Qed.

Lemma digits_go_nonempty base fuel z acc :
  (0 < fuel)%nat ∨ acc ≠ [] → digits_go base fuel z acc ≠ [].
Proof.
  revert z acc. induction fuel as [|fuel IH]; intros z acc Hne; cbn; [intuition lia|].
  case_match; [done|]. apply IH. by right.
Qed.

Lemma digits_nonempty base z : digits base z ≠ [].
Proof. apply digits_go_nonempty. left. lia. Qed.

(** [str(z)] *)
Definition dec_str (z : Z) : str :=
  if z <? 0 then 45 :: ((λ d, 48 + d) <$> digits 10 (- z)) else (λ d, 48 + d) <$> digits 10 z.

(** [f"{z:064x}"] for [z >= 0] *)
Definition hex_064 (z : Z) : str :=
  let d := hex_digit <$> digits 16 z in replicate (64 - length d) 48 ++ d.

(** * [int(s, base)]

    CPython's [PyLong_FromUnicodeObject]: code points that are spaces or decimal
    digits are mapped to ASCII, then blanks, a sign, an optional [0x] for base 16
    and digits with single underscores between them are read. *)

Definition c_space (c : Z) : bool := (9 <=? c) && (c <=? 13) || (c =? 32).

Definition to_ascii_digits `{Unicode} (s : str) : str :=
  if forallb is_ascii s then s
  else (λ c, if c <? 127 then c
             else if py_space c then 32
             else match digit_tbl c with Some d => 48 + d | None => 63 end) <$> s.

Definition digit_val (base c : Z) : option Z :=
  d ← hex_val c; if d <? base then Some d else None.

(** Reads digits; [us] says that the previous character was an underscore.
    [None] is a doubled or trailing underscore. *)
Fixpoint scan_digits (base : Z) (us : bool) (s : str) (acc : Z) (n : nat) :
    option (Z * nat * str) :=
  match s with
  | [] => if us then None else Some (acc, n, [])
  | c :: s' =>
      if c =? 95 then (if us then None else scan_digits base true s' acc n)
      else match digit_val base c with
           | Some d => scan_digits base false s' (acc * base + d) (S n)
           | None => if us then None else Some (acc, n, s)
           end
  end.

Definition read_sign (s : str) : Z * str :=
  match s with
  | 43 :: s => (1, s)
  | 45 :: s => (-1, s)
  | _ => (1, s)
  end.

Definition read_prefix (base : Z) (s : str) : str :=
  match s with
  | 48 :: x :: s' =>
      if (base =? 16) && ((x =? 120) || (x =? 88))
      then match s' with 95 :: s'' => s'' | _ => s' end else s
  | _ => s
  end.

(** The default of [sys.set_int_max_str_digits]. *)
Definition int_max_str_digits : nat := Z.to_nat 4300.

(** [int(s, base)] for [base] 10 or 16; [None] is [ValueError]. *)
Definition py_int `{Unicode} (base : Z) (s : str) : option Z :=
  let s := drop_while c_space (to_ascii_digits s) in
  let '(sign, s) := read_sign s in
  let s := read_prefix base s in
  if bool_decide (head s = Some 95) then None else
  '(v, n, rest) ← scan_digits base false s 0 0;
  if (n =? 0)%nat then None
  else if (base =? 10) && (int_max_str_digits <? n)%nat then None
  else if forallb c_space rest then Some (sign * v) else None.

(** * UTF-8 *)

(** [None]: a lone surrogate, [UnicodeEncodeError]. *)
Definition utf8_char (c : Z) : option bytes :=
  if c <? 128 then Some [c]
  else if c <? 2048 then Some [192 + c / 64; 128 + c mod 64]
  else if (55296 <=? c) && (c <=? 57343) then None
  else if c <? 65536 then Some [224 + c / 4096; 128 + c / 64 mod 64; 128 + c mod 64]
  else Some [240 + c / 262144; 128 + c / 4096 mod 64; 128 + c / 64 mod 64; 128 + c mod 64].

Definition utf8_encode (s : str) : option bytes := mjoin <$> mapM utf8_char s.

(** * Facts about the notations *)

Lemma value_of_bound base ds :
  2 ≤ base → Forall (λ d, 0 ≤ d < base) ds → 0 ≤ value_of base ds < base ^ zlen ds.
Proof.
  intros Hb. induction 1 as [|d ds Hd Hds IH]; [vm_compute; intuition discriminate|].
  rewrite value_of_cons. unfold zlen in *. cbn [length].
  rewrite Nat2Z.inj_succ, Z.pow_succ_r by lia. nia.
Qed.

Lemma value_of_inj base a b :
  2 ≤ base → Forall (λ d, 0 ≤ d < base) a → Forall (λ d, 0 ≤ d < base) b →
  length a = length b → value_of base a = value_of base b → a = b.
Proof.
  intros Hbase Ha. revert b. induction Ha as [|x a Hx Ha IH]; intros b Hb Hlen Hv.
  - by destruct b.
  - destruct Hb as [|y b Hy Hb]; [done|]. rewrite !value_of_cons in Hv.
    injection Hlen as Hlen. unfold zlen in Hv. rewrite Hlen in Hv.
    pose proof (value_of_bound base a Hbase Ha) as Hba.
    pose proof (value_of_bound base b Hbase Hb) as Hbb.
    unfold zlen in *. rewrite Hlen in Hba.
    assert (x = y) as -> by nia. f_equal. apply IH; auto; lia.
Qed.

Definition nibbles (b : bytes) : list Z := b ≫= λ x, [x / 16; x mod 16].

Lemma bytes_hex_nibbles b : bytes_hex b = hex_digit <$> nibbles b.
Proof. induction b as [|x b IH]; [done|]. rewrite bytes_hex_cons, IH. done. Qed.

Lemma length_nibbles b : length (nibbles b) = (2 * length b)%nat.
Proof. rewrite <- length_bytes_hex, bytes_hex_nibbles. by rewrite length_fmap. Qed.

Lemma nibbles_range b : bytes_ok b → Forall (λ d, 0 ≤ d < 16) (nibbles b).
Proof.
  induction 1 as [|x b Hx Hb IH]; [constructor|]. destruct (byte_nibbles x Hx).
  change (nibbles (x :: b)) with (x / 16 :: x mod 16 :: nibbles b).
  by do 2 (constructor; [lia|]).
Qed.

Lemma value_of_nibbles b : value_of 16 (nibbles b) = int_of_be b.
Proof.
  induction b as [|x b IH]; [done|].
  change (nibbles (x :: b)) with (x / 16 :: x mod 16 :: nibbles b).
  rewrite !value_of_cons, int_of_be_cons, IH. unfold zlen. cbn [length].
  rewrite length_nibbles, Nat2Z.inj_succ, Z.pow_succ_r by lia.
  replace (Z.of_nat (2 * length b)) with (2 * Z.of_nat (length b)) by lia.
  rewrite Z.pow_mul_r by lia. change (16 ^ 2) with 256. pose proof (Z.div_mod x 16). nia.
Qed.

Lemma Forall_replicate_0 base n : 2 ≤ base → Forall (λ d, 0 ≤ d < base) (replicate n 0).
Proof. intros. apply Forall_replicate. lia. Qed.

Lemma hex_064_be z : 0 ≤ z < 2 ^ 256 → hex_064 z = bytes_hex (be_of_int 32 z).
Proof.
  intros Hz. unfold hex_064. rewrite length_fmap, bytes_hex_nibbles.
  assert (length (digits 16 z) ≤ 64)%nat as Hlen.
  { apply length_digits; [lia|lia|]. by change (16 ^ Z.of_nat 64) with (2 ^ 256). }
  rewrite <- (fmap_replicate hex_digit _ 0) by done.
  rewrite <- fmap_app. f_equal. apply (value_of_inj 16); [lia|..].
  - apply Forall_app. split; [apply Forall_replicate_0|apply digits_range]; lia.
  - apply nibbles_range, bytes_ok_be_of_int.
  - rewrite length_app, length_replicate, length_nibbles, length_be_of_int. lia.
  - rewrite value_of_replicate_0, value_of_digits, value_of_nibbles by lia.
    symmetry. apply int_of_be_of_int. by change (256 ^ Z.of_nat 32) with (2 ^ 256).
Qed.

Lemma dec_str_nonneg z : 0 ≤ z → dec_str z = (λ d, 48 + d) <$> digits 10 z.
Proof. intros. unfold dec_str. by destruct (Z.ltb_spec z 0); [lia|]. Qed.

Lemma dec_str_digits z :
  0 ≤ z → Forall (λ c, 48 ≤ c < 58) (dec_str z).
Proof.
  intros. rewrite dec_str_nonneg by done. apply Forall_fmap.
  eapply Forall_impl; [apply (digits_range 10); lia|]. cbn. lia.
Qed.

Lemma dec_str_inj_nonneg a b : 0 ≤ a → 0 ≤ b → dec_str a = dec_str b → a = b.
Proof.
  intros Ha Hb Heq. rewrite !dec_str_nonneg in Heq by done.
  apply list_fmap_eq_inj in Heq; [|intros x y; lia].
  rewrite <- (value_of_digits 10 a), <- (value_of_digits 10 b) by lia. by rewrite Heq.
Qed.

Lemma py_upper_ascii `{Unicode} s :
  Forall (λ c, c < 128) s → py_upper s = ascii_upper <$> s.
Proof.
  unfold py_upper. induction 1 as [|c s Hc Hs IH]; [done|].
  rewrite bind_cons, IH. by destruct (Z.ltb_spec c 128); [|lia].
Qed.

Lemma lower_go_ascii `{Unicode} before s :
  Forall (λ c, c < 128) s → lower_go before s = ascii_lower <$> s.
Proof.
  intros Hs. revert before. induction Hs as [|c s Hc Hs IH]; intros before; [done|].
  cbn. rewrite IH. by destruct (Z.ltb_spec c 128); [|lia].
Qed.

Lemma py_lower_ascii `{Unicode} s :
  Forall (λ c, c < 128) s → py_lower s = ascii_lower <$> s.
Proof. apply lower_go_ascii. Qed.

Lemma drop_while_none {A} (p : A → bool) l :
  Forall (λ x, p x = false) l → drop_while p l = l.
Proof. destruct 1 as [|x l Hx]; [done|]. cbn. by rewrite Hx. Qed.

Lemma strip_by_none p s : Forall (λ c, p c = false) s → strip_by p s = s.
Proof.
  intros. unfold strip_by. rewrite (drop_while_none p s) by done.
  rewrite drop_while_none by (by apply Forall_rev). apply rev_involutive.
Qed.

Lemma utf8_encode_ascii s : Forall (λ c, c < 128) s → utf8_encode s = Some s.
Proof.
  unfold utf8_encode. induction 1 as [|c s Hc Hs IH]; [done|].
  cbn. assert (utf8_char c = Some [c]) as ->.
  { unfold utf8_char. by destruct (Z.ltb_spec c 128); [|lia]. }
  cbn. destruct (mapM utf8_char s); cbn in *; [|done]. by simplify_eq/=.
Qed.

Lemma utf8_encode_cons c s :
  utf8_encode (c :: s) = b ← utf8_char c; bs ← utf8_encode s; Some (b ++ bs).
Proof.
  unfold utf8_encode. cbn. destruct (utf8_char c); cbn; [|done].
  by destruct (mapM utf8_char s).
Qed.

(** * Dynamically typed values

    What a JSON document decodes to and what the "object" parameters of the code
    range over.  A [float] is carried by the observations the code makes of it. *)

Record pyfloat := PyFloat {
  fl_repr : str;            (* repr(x) *)
  fl_json : str;            (* json.dumps(x): repr, with NaN and Infinity *)
  fl_trunc : result exn Z;  (* int(x); raises for nan and the infinities *)
  fl_zero : bool;           (* x == 0.0 *)
}.

Inductive pyval : Type :=
  | PNone
  | PBool (b : bool)
  | PInt (z : Z)
  | PFloat (f : pyfloat)
  | PStr (s : str)
  | PList (l : list pyval)
  | PDict (kvs : list (str * pyval)).

(** [bool(v)] *)
Definition truthy (v : pyval) : bool :=
  match v with
  | PNone => false
  | PBool b => b
  | PInt z => negb (z =? 0)
  | PFloat f => negb (fl_zero f)
  | PStr s => negb (bool_decide (s = []))
  | PList l => match l with [] => false | _ => true end
  | PDict d => match d with [] => false | _ => true end
  end.

(** [d.get(k)]: a Python dict has one entry per key, the association list keeps
    the insertion order. *)
Fixpoint dict_get {A} (k : str) (d : list (str * A)) : option A :=
  match d with
  | [] => None
  | (k', v) :: d => if decide (k = k') then Some v else dict_get k d
  end.

(** [d[k] = v]: in place when the key is there, at the end otherwise. *)
Fixpoint dict_set {A} (k : str) (v : A) (d : list (str * A)) : list (str * A) :=
  match d with
  | [] => [(k, v)]
  | (k', v') :: d => if decide (k = k') then (k, v) :: d else (k', v') :: dict_set k v d
  end.

(** [d.pop(k, None)] *)
Fixpoint dict_del {A} (k : str) (d : list (str * A)) : list (str * A) :=
  match d with
  | [] => []
  | (k', v) :: d => if decide (k = k') then dict_del k d else (k', v) :: dict_del k d
  end.

Definition dict_has {A} (k : str) (d : list (str * A)) : bool :=
  match dict_get k d with Some _ => true | None => false end.

(** [d.get(k)] as a value, [None] when absent *)
Definition get_or_none (k : str) (d : list (str * pyval)) : pyval :=
  default PNone (dict_get k d).

Lemma dict_get_set {A} k k' (v : A) d :
  dict_get k (dict_set k' v d) = if decide (k = k') then Some v else dict_get k d.
Proof.
  induction d as [|[k1 v1] d IH]; cbn; [by case_decide|].
  destruct (decide (k' = k1)) as [->|]; cbn; [by case_decide|].
  rewrite IH. by repeat case_decide; subst.
Qed.

Lemma dict_get_del {A} k k' (d : list (str * A)) :
  dict_get k (dict_del k' d) = if decide (k = k') then None else dict_get k d.
Proof.
  induction d as [|[k1 v1] d IH]; cbn; [by case_decide|].
  destruct (decide (k' = k1)) as [->|]; cbn; rewrite IH; by repeat case_decide; subst.
Qed.

Lemma dict_get_app {A} k (d e : list (str * A)) :
  dict_get k (d ++ e) = match dict_get k d with Some v => Some v | None => dict_get k e end.
Proof. induction d as [|[k' v] d IH]; cbn; [done|]. by case_decide. Qed.

Lemma dict_get_None {A} k (d : list (str * A)) : dict_get k d = None ↔ k ∉ d.*1.
Proof.
  induction d as [|[k' v] d IH]; cbn; [by split; [intros _ ?%elem_of_nil|]|].
  rewrite not_elem_of_cons, <- IH. case_decide; naive_solver.
Qed.

Lemma dict_del_subset {A} k (d : list (str * A)) : dict_del k d `sublist_of` d.
Proof. induction d as [|[k' v] d IH]; cbn; [done|]. case_decide; by constructor. Qed.

Lemma dict_has_spec {A} k (d : list (str * A)) : dict_has k d = true ↔ k ∈ d.*1.
Proof.
  unfold dict_has. destruct (dict_get k d) eqn:E.
  - split; [intros _|done]. apply dec_stable. intros Hn%dict_get_None. congruence.
  - apply dict_get_None in E. by split.
Qed.

Lemma dict_del_keys {A} k (d : list (str * A)) : k ∉ (dict_del k d).*1.
Proof. apply dict_get_None. rewrite dict_get_del. by rewrite decide_True. Qed.

Lemma dict_del_NoDup {A} k (d : list (str * A)) : NoDup d.*1 → NoDup (dict_del k d).*1.
Proof. intros Hnd. eapply sublist_NoDup; [done|]. by apply fmap_sublist, dict_del_subset. Qed.

Lemma dict_set_keys {A} k (v : A) d : (dict_set k v d).*1 = if decide (k ∈ d.*1) then d.*1 else d.*1 ++ [k].
Proof.
  induction d as [|[k' v'] d IH]; cbn.
  - by rewrite decide_False by apply not_elem_of_nil.
  - destruct (decide (k = k')) as [->|Hne]; cbn; [by rewrite decide_True by left|]. rewrite IH.
    destruct (decide (k ∈ d.*1)); [rewrite decide_True by (by right)|rewrite decide_False by (by rewrite not_elem_of_cons)]; done.
Qed.

Lemma dict_set_NoDup {A} k (v : A) d : NoDup d.*1 → NoDup (dict_set k v d).*1.
Proof.
  intros Hnd. rewrite dict_set_keys. case_decide as Hk; [done|]. apply NoDup_app. split; [done|].
  split; [|apply NoDup_singleton]. intros x Hx ->%list_elem_of_singleton. done.
Qed.

Lemma dict_get_elem {A} k (v : A) d : NoDup d.*1 → dict_get k d = Some v ↔ (k, v) ∈ d.
Proof.
  induction d as [|[k' v'] d IH]; cbn; [by rewrite elem_of_nil|]. intros [Hk Hnd]%NoDup_cons.
  rewrite elem_of_cons. case_decide as Hkk.
  - subst k'. split; [intros [= ->]; by left|]. intros [[= ->]|Hin]; [done|].
    destruct Hk. apply list_elem_of_fmap. by exists (k, v).
  - rewrite IH by done. split; [by right|]. intros [[= -> ->]|?]; done.
Qed.

(** * UTF-8 is a prefix code *)

(** A Unicode code point. *)
Definition code_point (c : Z) : Prop := 0 ≤ c < 1114112.

#[export] Instance code_point_dec c : Decision (code_point c).
Proof. unfold code_point. apply _. Defined.

Lemma utf8_char_prefix c c' b b' r r' :
  code_point c → code_point c' → utf8_char c = Some b → utf8_char c' = Some b' →
  b ++ r = b' ++ r' → c = c' ∧ r = r'.
Proof.
  unfold code_point, utf8_char. intros Hc Hc' Hb Hb' Heq.
  repeat case_match; bool_inv; simplify_eq/=; (split; [|congruence || (exfalso; Z.div_mod_to_equations; lia)]);
    Z.div_mod_to_equations; lia.
Qed.

Lemma utf8_encode_inj s s' :
  Forall code_point s → Forall code_point s' → is_Some (utf8_encode s) →
  utf8_encode s = utf8_encode s' → s = s'.
Proof.
  assert (∀ c b, utf8_char c = Some b → b ≠ []) as Hne
    by (unfold utf8_char; intros; repeat case_match; by simplify_eq).
  intros Hs. revert s'. induction Hs as [|c s Hc Hs IH]; intros s' Hs' [e He] Heq.
  - destruct Hs' as [|c' s' Hc' Hs']; [done|]. rewrite utf8_encode_cons in Heq.
    destruct (utf8_char c') as [b|] eqn:Hb; [|done]. cbn in Heq.
    destruct (utf8_encode s') as [bs|]; [|done]. cbn in Heq. apply Hne in Hb.
    by destruct b; simplify_eq/=.
  - rewrite utf8_encode_cons in He, Heq. destruct (utf8_char c) as [b|] eqn:Hb; [|done].
    cbn in He, Heq. destruct (utf8_encode s) as [bs|] eqn:Hbs; [|done].
    destruct Hs' as [|c' s' Hc' Hs'].
    + apply Hne in Hb. by destruct b; simplify_eq/=.
    + rewrite utf8_encode_cons in Heq. destruct (utf8_char c') as [b'|] eqn:Hb'; [|done].
      cbn in Heq. destruct (utf8_encode s') as [bs'|] eqn:Hbs'; [|done]. simplify_eq/=.
      destruct (utf8_char_prefix c c' b b' bs bs') as [-> <-]; auto.
      f_equal. apply IH; eauto.
Qed.

(** The number of bytes of the encoding. *)
Definition utf8_len (s : str) : option Z := zlen <$> utf8_encode s.

Lemma utf8_encode_app s t :
  utf8_encode (s ++ t) = a ← utf8_encode s; b ← utf8_encode t; Some (a ++ b).
Proof.
  induction s as [|c s IH].
  { rewrite app_nil_l. change (utf8_encode []) with (Some ([] : bytes)).
    cbn [mbind option_bind]. by destruct (utf8_encode t). }
  rewrite <- app_comm_cons, !utf8_encode_cons, IH.
  destruct (utf8_char c); cbn; [|done]. destruct (utf8_encode s); cbn; [|done].
  destruct (utf8_encode t); cbn; [|done]. by rewrite app_assoc.
Qed.

(** Text of a given encoded length is determined by any string it starts. *)
Lemma utf8_len_prefix s t r r' n :
  utf8_len s = Some n → utf8_len t = Some n → s ++ r = t ++ r' → s = t ∧ r = r'.
Proof.
  assert (∀ c b, utf8_char c = Some b → 0 < zlen b) as Hpos
    by (unfold utf8_char, zlen; intros; repeat case_match; by simplify_eq/=).
  assert (∀ c x m, utf8_len (c :: x) = Some m → ∃ b k, utf8_char c = Some b ∧ utf8_len x = Some k ∧ m = zlen b + k) as Hcons.
  { intros c x m. unfold utf8_len. rewrite utf8_encode_cons.
    destruct (utf8_char c) as [b|]; cbn; [|done]. destruct (utf8_encode x) as [y|]; cbn; [|done].
    intros [= <-]. exists b, (zlen y). unfold zlen. rewrite length_app. split_and!; [done|done|lia]. }
  assert (∀ x m, utf8_len x = Some m → 0 ≤ m) as Hnn.
  { intros x m. unfold utf8_len. destruct (utf8_encode x); cbn; [|done]. unfold zlen. intros [= <-]. lia. }
  revert t n. induction s as [|c s IH]; intros [|c' t] n Hs Ht Heq; cbn in Heq.
  - done.
  - apply Hcons in Ht as (b & k & Hb & Hk & ->). apply Hpos in Hb. apply Hnn in Hk.
    cbn in Hs. simplify_eq. change (zlen []) with 0 in *. lia.
  - apply Hcons in Hs as (b & k & Hb & Hk & ->). apply Hpos in Hb. apply Hnn in Hk.
    cbn in Ht. simplify_eq. change (zlen []) with 0 in *. lia.
  - injection Heq as <- Heq. apply Hcons in Hs as (b & k & Hb & Hk & ->).
    apply Hcons in Ht as (b' & k' & Hb' & Hk' & Hlen). simplify_eq.
    destruct (IH t k) as [-> ->]; auto. rewrite Hk'. f_equal. lia.
Qed.

(** Two digit strings followed by a non-digit. *)
Lemma digits_sep_inj (p : Z → Prop) (d d' : str) (c c' : Z) (r r' : str) :
  Forall p d → Forall p d' → ¬ p c → ¬ p c' →
  d ++ c :: r = d' ++ c' :: r' → d = d' ∧ c = c' ∧ r = r'.
Proof.
  intros Hd Hd' Hc Hc'. revert d' Hd'.
  induction Hd as [|x d Hx Hd IH]; intros d' [|y d'' Hy Hd''] Heq; cbn in Heq.
  - by injection Heq as -> ->.
  - injection Heq as -> _. done.
  - injection Heq as -> _. done.
  - injection Heq as -> Heq. by destruct (IH d'' Hd'' Heq) as (-> & -> & ->).
Qed.

(** * [int(s, 16)] on hexadecimal digits *)

Lemma scan_hex s acc n :
  Forall (λ c, is_hex c = true) s → ∃ v, scan_digits 16 false s acc n = Some (v, (n + length s)%nat, []).
Proof.
  intros Hs. revert acc n. induction Hs as [|c s Hc Hs IH]; intros acc n; cbn.
  { exists acc. by rewrite Nat.add_0_r. }
  unfold is_hex in Hc. apply bool_decide_eq_true in Hc as [d Hd].
  destruct (Z.eqb_spec c 95) as [->|_]; [done|]. unfold digit_val. rewrite Hd. cbn [mbind option_bind].
  apply hex_val_range in Hd as Hr. rewrite (proj2 (Z.ltb_lt d 16)) by lia.
  destruct (IH (acc * 16 + d) (S n)) as [v Hv]. exists v. rewrite Hv. do 3 f_equal. lia.
Qed.

Lemma is_hex_char c : is_hex c = true → 48 ≤ c ≤ 57 ∨ 65 ≤ c ≤ 70 ∨ 97 ≤ c ≤ 102.
Proof.
  unfold is_hex, hex_val. intros Hc. apply bool_decide_eq_true in Hc as [d Hd].
  repeat case_match; bool_inv; try done; lia.
Qed.

(** Every non-empty text of hexadecimal digits is read. *)
Lemma py_int_hex `{Unicode} s :
  s ≠ [] → Forall (λ c, is_hex c = true) s → is_Some (py_int 16 s).
Proof.
  intros Hne Hs. unfold py_int.
  assert (to_ascii_digits s = s) as ->.
  { unfold to_ascii_digits. replace (forallb is_ascii s) with true; [done|]. symmetry.
    apply forallb_Forall. eapply Forall_impl; [exact Hs|]. cbn. intros c Hc%is_hex_char. unfold is_ascii. lia. }
  rewrite drop_while_none.
  2:{ eapply Forall_impl; [exact Hs|]. cbn. intros c Hc%is_hex_char. unfold c_space. lia. }
  destruct (scan_hex s 0 0 Hs) as [v Hv]. destruct s as [|c s]; [done|].
  apply Forall_cons in Hs as [Hc Hs]. apply is_hex_char in Hc.
  assert (read_sign (c :: s) = (1, c :: s)) as ->.
  { unfold read_sign. destruct c as [|p|p]; try done. repeat (destruct p as [p|p|]; try done); lia. }
  assert (read_prefix 16 (c :: s) = c :: s) as ->.
  { unfold read_prefix. destruct s as [|x s]; [by repeat case_match|].
    apply Forall_cons in Hs as [Hx _]. apply is_hex_char in Hx.
    replace ((16 =? 16) && ((x =? 120) || (x =? 88))) with false by lia. by repeat case_match. }
  rewrite bool_decide_eq_false_2 by (cbn; intros [= ->]; lia). rewrite Hv. cbn. eauto.
Qed.

(** * [int(str(z))] *)

Lemma scan_dec ds acc n :
  Forall (λ d, 0 ≤ d < 10) ds →
  scan_digits 10 false ((λ d, 48 + d) <$> ds) acc n =
    Some (foldl (λ a d, a * 10 + d) acc ds, (n + length ds)%nat, []).
Proof.
  intros Hds. revert acc n. induction Hds as [|d ds Hd Hds IH]; intros acc n.
  { cbn. by rewrite Nat.add_0_r. }
  rewrite fmap_cons. cbn [scan_digits]. rewrite (proj2 (Z.eqb_neq (48 + d) 95)) by lia.
  assert (digit_val 10 (48 + d) = Some d) as ->.
  { unfold digit_val, hex_val. repeat case_match; bool_inv; try lia; cbn;
      rewrite ?(proj2 (Z.ltb_lt _ _)) by lia; try (f_equal; lia). }
  rewrite IH. cbn. do 3 f_equal. lia.
Qed.

(** An id of a [BIGSERIAL] column. *)
Definition bigint (z : Z) : Prop := 1 ≤ z < 2 ^ 63.

Lemma bigint_digits z : bigint z → (length (digits 10 z) ≤ 20)%nat.
Proof. intros [H1 H2]. apply length_digits; [lia|lia|]. change (10 ^ Z.of_nat 20) with 100000000000000000000. lia. Qed.

Lemma py_int_dec `{Unicode} z : bigint z → py_int 10 (dec_str z) = Some z.
Proof.
  intros Hz. pose proof (bigint_digits z Hz) as Hlen. destruct Hz as [H1 _]. unfold py_int.
  pose proof (dec_str_digits z ltac:(lia)) as Hd. pose proof (digits_nonempty 10 z) as Hne.
  pose proof (digits_range 10 z ltac:(lia) ltac:(lia)) as Hr.
  assert (to_ascii_digits (dec_str z) = dec_str z) as ->.
  { unfold to_ascii_digits. replace (forallb is_ascii (dec_str z)) with true; [done|]. symmetry.
    apply forallb_Forall. eapply Forall_impl; [exact Hd|]. cbn. unfold is_ascii. lia. }
  rewrite drop_while_none by (eapply Forall_impl; [exact Hd|]; cbn; unfold c_space; lia).
  rewrite dec_str_nonneg in * by lia. set (ds := digits 10 z) in *.
  pose proof (scan_dec ds 0 0 Hr) as Hs. pose proof (value_of_digits 10 z ltac:(lia) ltac:(lia)) as Hv.
  fold ds in Hv. unfold value_of in Hv. rewrite Hv in Hs.
  clearbody ds. destruct ds as [|d ds]; [done|]. rewrite fmap_cons in *.
  apply Forall_cons in Hr as [Hr0 Hr].
  assert (read_sign (48 + d :: ((λ d, 48 + d) <$> ds)) = (1, 48 + d :: ((λ d, 48 + d) <$> ds))) as ->.
  { unfold read_sign. destruct (48 + d) as [|q|q] eqn:Hq; try done. repeat (destruct q as [q|q|]; try done); lia. }
  assert (∀ l, read_prefix 10 l = l) as Hp.
  { intros l. unfold read_prefix. destruct l as [|x l]; [done|]. destruct x as [|q|q]; try done.
    repeat (destruct q as [q|q|]; try done); destruct l; done. }
  rewrite Hp. rewrite bool_decide_eq_false_2 by (cbn; intros [= ?]; lia). rewrite Hs. cbn [mbind option_bind].
  destruct (int_max_str_digits <? 0 + length (d :: ds))%nat eqn:Hm.
  { apply Nat.ltb_lt in Hm. unfold int_max_str_digits in Hm. lia. }
  cbn. by rewrite Z.mul_1_l.
Qed.
