(* ===== verification/Json.v ===== *)
(** The [json] module as the components use it: [json.dumps] with
    [separators=(",", ":")] and [sort_keys=True] (with and without [ensure_ascii])
    and [json.loads].  The main result is the round trip: loading what was dumped
    gives the value back with its dictionaries in key order, so canonical JSON is
    injective up to key order.  Text of a float is turned into a float by the
    method of [FloatText]; its other observations are carried by [pyfloat]. *)
From Stdlib Require Import ZArith Lia Btauto.
From stdpp Require Import base decidable strings numbers list.
From S2P Require Import Prelude PyStr.

Open Scope Z_scope.

(** * Order of keys *)

(** Python compares strings by code point. *)
Fixpoint str_leb (a b : str) : bool :=
  match a, b with
  | [], _ => true
  | _ :: _, [] => false
  | x :: a, y :: b => if x =? y then str_leb a b else x <? y
  end.

Fixpoint insert_key {A} (p : str * A) (l : list (str * A)) : list (str * A) :=
  match l with
  | [] => [p]
  | q :: l' => if str_leb p.1 q.1 then p :: l else q :: insert_key p l'
  end.

(** [sorted(d.items())]; keys are distinct, so only they are compared. *)
Definition sort_items {A} (l : list (str * A)) : list (str * A) := foldr insert_key [] l.

Lemma drop_while_none_head {A} (p : A → bool) x l : p x = false → drop_while p (x :: l) = x :: l.
Proof. intros Hx. cbn. by rewrite Hx. Qed.

(** * Printing *)

Definition hex4 (c : Z) : str :=
  [hex_digit (c / 4096 mod 16); hex_digit (c / 256 mod 16); hex_digit (c / 16 mod 16); hex_digit (c mod 16)].

Definition u_escape (c : Z) : str := lit "\u" ++ hex4 c.

(** The escapes of [json.encoder]: a backslash before the double quote (code
    point 34) and the backslash, the two-character escapes for the usual control
    characters, [\uXXXX] (a surrogate pair above the basic plane) for the rest:
    every character outside the printable ASCII range with [ensure_ascii], the
    remaining control characters without it. *)
Definition escape_char (ensure_ascii : bool) (c : Z) : str :=
  if c =? 34 then [92; 34]
  else if c =? 92 then [92; 92]
  else if c =? 10 then [92; 110]
  else if c =? 13 then [92; 114]
  else if c =? 9 then [92; 116]
  else if c =? 12 then [92; 102]
  else if c =? 8 then [92; 98]
  else if c <? 32 then u_escape c
  else if ensure_ascii && (126 <? c) then
    if c <? 65536 then u_escape c
    else let n := c - 65536 in u_escape (55296 + n / 1024) ++ u_escape (56320 + n mod 1024)
  else [c].

Definition print_string (ea : bool) (s : str) : str :=
  34 :: (s ≫= escape_char ea) ++ [34].

(** [sep.join(parts)] for a one-character separator *)
Fixpoint join_sep (sep : Z) (parts : list str) : str :=
  match parts with
  | [] => []
  | [p] => p
  | p :: parts => p ++ sep :: join_sep sep parts
  end.

Fixpoint print_value (ea : bool) (v : pyval) : str :=
  match v with
  | PNone => lit "null"
  | PBool true => lit "true"
  | PBool false => lit "false"
  | PInt z => dec_str z
  | PFloat f => fl_json f
  | PStr s => print_string ea s
  | PList l => 91 :: join_sep 44 (map (print_value ea) l) ++ [93]
  | PDict kvs =>
      123 :: join_sep 44 (map (λ p, print_string ea p.1 ++ 58 :: print_value ea p.2) kvs) ++ [125]
  end.

(** [sort_keys=True], at every level. *)
Fixpoint canon (v : pyval) : pyval :=
  match v with
  | PList l => PList (map canon l)
  | PDict kvs => PDict (sort_items (map (λ p, (p.1, canon p.2)) kvs))
  | _ => v
  end.

(** [json.dumps(v, separators=(",", ":"), sort_keys=True, ensure_ascii=ea)] *)
Definition json_dumps (ea : bool) (v : pyval) : str := print_value ea (canon v).

(** * Parsing *)

(** [JSONDecodeError], or the plain [ValueError] of an integer literal with more
    digits than [sys.set_int_max_str_digits] allows. *)
Inductive json_error : Type := JSONDecodeError | IntDigitsError.

Class FloatText := float_of_text : str → pyfloat.

Definition json_space (c : Z) : bool := (c =? 32) || (c =? 9) || (c =? 10) || (c =? 13).
Definition skip_ws (s : str) : str := drop_while json_space s.

Definition hex4_val (s : str) : option (Z * str) :=
  match s with
  | a :: b :: c :: d :: s =>
      x ← hex_val a; y ← hex_val b; z ← hex_val c; w ← hex_val d;
      Some (((x * 16 + y) * 16 + z) * 16 + w, s)
  | _ => None
  end.

Definition simple_escape (c : Z) : option Z :=
  if c =? 34 then Some 34 else if c =? 92 then Some 92 else if c =? 47 then Some 47
  else if c =? 98 then Some 8 else if c =? 102 then Some 12 else if c =? 110 then Some 10
  else if c =? 114 then Some 13 else if c =? 116 then Some 9 else None.

(** One [\u] escape, after the [u]; a high surrogate followed by an escaped low
    one is combined with it. *)
Definition parse_u (s : str) : option (Z * str) :=
  '(u, s1) ← hex4_val s;
  if (55296 <=? u) && (u <=? 56319) then
    match s1 with
    | 92 :: 117 :: s2 =>
        match hex4_val s2 with
        | Some (w, s3) =>
            if (56320 <=? w) && (w <=? 57343)
            then Some (65536 + (u - 55296) * 1024 + (w - 56320), s3) else Some (u, s1)
        | None => None
        end
    | _ => Some (u, s1)
    end
  else Some (u, s1).

(** The characters of a string after its opening quote. *)
Fixpoint parse_chars (fuel : nat) (s : str) (acc : str) : option (str * str) :=
  match fuel with
  | O => None
  | S fuel =>
      match s with
      | [] => None
      | c :: s =>
          if c =? 34 then Some (rev acc, s)
          else if c <? 32 then None
          else if c =? 92 then
            match s with
            | 117 :: s => '(u, s) ← parse_u s; parse_chars fuel s (u :: acc)
            | e :: s => x ← simple_escape e; parse_chars fuel s (x :: acc)
            | [] => None
            end
          else parse_chars fuel s (c :: acc)
      end
  end.

Definition is_digit (c : Z) : bool := (48 <=? c) && (c <=? 57).

Fixpoint span {A} (p : A → bool) (l : list A) : list A * list A :=
  match l with
  | [] => ([], [])
  | x :: l' => if p x then let '(a, b) := span p l' in (x :: a, b) else ([], l)
  end.

(** The fraction and exponent of a number, when they are there. *)
Definition parse_frac (s : str) : str * str :=
  match s with
  | 46 :: s' => match span is_digit s' with ([], _) => ([], s) | (ds, r) => (46 :: ds, r) end
  | _ => ([], s)
  end.
Definition parse_exp (s : str) : str * str :=
  match s with
  | e :: s' =>
      if (e =? 101) || (e =? 69) then
        let '(sg, s'') := match s' with
          | 43 :: x => ([43], x) | 45 :: x => ([45], x) | _ => ([], s') end in
        match span is_digit s'' with ([], _) => ([], s) | (ds, r) => (e :: sg ++ ds, r) end
      else ([], s)
  | [] => ([], s)
  end.

(** [0] or digits without a leading zero. *)
Definition parse_int_part (s : str) : str * str :=
  match s with
  | 48 :: r => ([48], r)
  | _ => span is_digit s
  end.

(** A number after its optional minus sign. *)
Definition parse_unsigned `{FloatText} (neg : bool) (s0 : str) : result json_error (pyval * str) :=
  let '(ip, s1) := parse_int_part s0 in
  match ip with
  | [] => Err JSONDecodeError
  | _ =>
      let '(fr, s2) := parse_frac s1 in
      let '(ex, s3) := parse_exp s2 in
      match fr ++ ex with
      | [] =>
          if (int_max_str_digits <? length ip)%nat then Err IntDigitsError else
          let z := value_of 10 ((λ c, c - 48) <$> ip) in
          Ok (PInt (if neg then - z else z), s3)
      | t => Ok (PFloat (float_of_text ((if neg then [45] else []) ++ ip ++ t)), s3)
      end
  end.

Definition parse_number `{FloatText} (s : str) : result json_error (pyval * str) :=
  match s with
  | 45 :: s' => parse_unsigned true s'
  | _ => parse_unsigned false s
  end.

Definition parse_word `{FloatText} (s : str) : option (pyval * str) :=
  let try_word (w : string) (v : pyval) :=
    if starts_with (lit w) s then Some (v, drop (length (lit w)) s) else None in
  match try_word "null" PNone with Some r => Some r | None =>
  match try_word "true" (PBool true) with Some r => Some r | None =>
  match try_word "false" (PBool false) with Some r => Some r | None =>
  match try_word "NaN" (PFloat (float_of_text (lit "nan"))) with Some r => Some r | None =>
  match try_word "Infinity" (PFloat (float_of_text (lit "inf"))) with Some r => Some r | None =>
  try_word "-Infinity" (PFloat (float_of_text (lit "-inf"))) end end end end end.

Section parser.
Context `{FloatText}.

(** One value; the elements of an array, after a value was expected; the members
    of an object, after a key was expected. *)
Fixpoint parse_value (fuel : nat) (s : str) : result json_error (pyval * str) :=
  match fuel with
  | O => Err JSONDecodeError
  | S fuel =>
      match s with
      | [] => Err JSONDecodeError
      | c :: r =>
          if c =? 34 then
            match parse_chars (S (length r)) r [] with
            | Some (x, r) => Ok (PStr x, r)
            | None => Err JSONDecodeError
            end
          else if c =? 123 then
            match skip_ws r with
            | 125 :: r => Ok (PDict [], r)
            | r => parse_members fuel [] r
            end
          else if c =? 91 then
            match skip_ws r with
            | 93 :: r => Ok (PList [], r)
            | r => parse_elements fuel [] r
            end
          else match parse_word s with
               | Some x => Ok x
               | None => parse_number s
               end
      end
  end
with parse_elements (fuel : nat) (acc : list pyval) (s : str) : result json_error (pyval * str) :=
  match fuel with
  | O => Err JSONDecodeError
  | S fuel =>
      '(v, s) ← parse_value fuel s;
      match skip_ws s with
      | 93 :: r => Ok (PList (rev (v :: acc)), r)
      | 44 :: r => parse_elements fuel (v :: acc) (skip_ws r)
      | _ => Err JSONDecodeError
      end
  end
with parse_members (fuel : nat) (acc : list (str * pyval)) (s : str) :
    result json_error (pyval * str) :=
  match fuel with
  | O => Err JSONDecodeError
  | S fuel =>
      match s with
      | 34 :: r =>
          match parse_chars (S (length r)) r [] with
          | None => Err JSONDecodeError
          | Some (k, s) =>
              match skip_ws s with
              | 58 :: r =>
                  '(v, s) ← parse_value fuel (skip_ws r);
                  let acc := dict_set k v acc in
                  match skip_ws s with
                  | 125 :: r => Ok (PDict acc, r)
                  | 44 :: r => parse_members fuel acc (skip_ws r)
                  | _ => Err JSONDecodeError
                  end
              | _ => Err JSONDecodeError
              end
          end
      | _ => Err JSONDecodeError
      end
  end.

(** [json.loads(s)].  Each call of the parser consumes at least one character for
    every two units of fuel, so twice the length is enough. *)
Definition json_loads (s : str) : result json_error pyval :=
  '(v, r) ← parse_value (S (2 * length s)) (skip_ws s);
  match skip_ws r with
  | [] => Ok v
  | _ => Err JSONDecodeError
  end.
End parser.

(** * Plain values

    The values the round trip is about: no floats, every string made of Unicode
    scalar values, one entry per key, integers within the digit limit. *)

Definition scalar (c : Z) : bool :=
  (0 <=? c) && (c <? 1114112) && negb ((55296 <=? c) && (c <=? 57343)).

Definition small_int (z : Z) : bool := (length (digits 10 (Z.abs z)) <=? int_max_str_digits)%nat.

Fixpoint plain (v : pyval) : bool :=
  match v with
  | PNone | PBool _ => true
  | PInt z => small_int z
  | PFloat _ => false
  | PStr s => forallb scalar s
  | PList l => forallb plain l
  | PDict kvs =>
      forallb (λ p, forallb scalar p.1 && plain p.2) kvs && bool_decide (NoDup kvs.*1)
  end.

(** Induction through lists and dictionaries. *)
Lemma pyval_nested_ind (P : pyval → Prop) :
  P PNone → (∀ b, P (PBool b)) → (∀ z, P (PInt z)) → (∀ f, P (PFloat f)) → (∀ s, P (PStr s)) →
  (∀ l, Forall P l → P (PList l)) → (∀ kvs, Forall (λ p, P p.2) kvs → P (PDict kvs)) →
  ∀ v, P v.
Proof.
  intros HN HB HI HF HS HL HD. fix IH 1. intros [|b|z|f|s|l|kvs].
  1: exact HN. 1: apply HB. 1: apply HI. 1: apply HF. 1: apply HS.
  - apply HL. induction l as [|v l IHl]; constructor; [apply IH|apply IHl].
  - apply HD. induction kvs as [|[k v] kvs IHl]; constructor; [apply IH|apply IHl].
Qed.

(** ** Strings *)

Lemma hex4_roundtrip c r : 0 ≤ c < 65536 → hex4_val (hex4 c ++ r) = Some (c, r).
Proof.
  intros. unfold hex4. cbn [app hex4_val].
  rewrite !hex_val_digit by (apply Z.mod_pos_bound; lia). cbn. do 2 f_equal.
  Z.div_mod_to_equations. lia.
Qed.

Lemma parse_u_plain c r :
  0 ≤ c < 65536 → (55296 <=? c) && (c <=? 56319) = false → parse_u (hex4 c ++ r) = Some (c, r).
Proof. intros ? Hs. unfold parse_u. rewrite hex4_roundtrip by done. cbn. by rewrite Hs. Qed.

Lemma parse_u_pair c r :
  65536 ≤ c < 1114112 →
  parse_u (hex4 (55296 + (c - 65536) / 1024) ++ u_escape (56320 + (c - 65536) mod 1024) ++ r)
  = Some (c, r).
Proof.
  intros Hc. unfold parse_u.
  assert (0 ≤ (c - 65536) / 1024 < 1024) by (Z.div_mod_to_equations; lia).
  assert (0 ≤ (c - 65536) mod 1024 < 1024) by (Z.div_mod_to_equations; lia).
  rewrite hex4_roundtrip by lia. cbn [mbind option_bind].
  replace ((55296 <=? _) && _) with true by lia.
  change (u_escape ?x ++ r) with (92 :: 117 :: hex4 x ++ r). cbv iota beta.
  rewrite hex4_roundtrip by lia. cbv iota beta.
  replace ((56320 <=? _) && _) with true by lia.
  do 2 f_equal. Z.div_mod_to_equations. lia.
Qed.

Lemma parse_chars_plain fuel c s acc :
  32 ≤ c → c ≠ 34 → c ≠ 92 → parse_chars (S fuel) (c :: s) acc = parse_chars fuel s (c :: acc).
Proof.
  intros. cbn. destruct (Z.eqb_spec c 34); [done|]. destruct (Z.ltb_spec c 32); [lia|].
  by destruct (Z.eqb_spec c 92).
Qed.

Lemma parse_chars_u fuel s acc c r :
  parse_u s = Some (c, r) →
  parse_chars (S fuel) (92 :: 117 :: s) acc = parse_chars fuel r (c :: acc).
Proof. intros Hu. cbn. by rewrite Hu. Qed.

Lemma parse_chars_escape ea fuel c s acc :
  scalar c = true →
  parse_chars (S fuel) (escape_char ea c ++ s) acc = parse_chars fuel s (c :: acc).
Proof.
  unfold scalar. intros Hc. bool_inv. unfold escape_char.
  repeat match goal with |- context [if ?a =? ?b then _ else _] =>
    destruct (Z.eqb_spec a b); [by subst|] end.
  destruct (Z.ltb_spec c 32).
  { apply parse_chars_u, parse_u_plain; lia. }
  destruct (ea && (126 <? c)); [|by apply parse_chars_plain].
  destruct (Z.ltb_spec c 65536).
  { apply parse_chars_u, parse_u_plain; lia. }
  rewrite <- app_assoc. apply parse_chars_u, parse_u_pair. lia.
Qed.

Lemma parse_chars_print ea s fuel acc r :
  forallb scalar s = true → (length s < fuel)%nat →
  parse_chars fuel ((s ≫= escape_char ea) ++ 34 :: r) acc = Some (rev acc ++ s, r).
Proof.
  revert fuel acc. induction s as [|c s IH]; intros [|fuel] acc Hs Hf; cbn in Hf; try lia.
  { cbn. by rewrite app_nil_r. }
  cbn in Hs. bool_inv. rewrite bind_cons, <- app_assoc, parse_chars_escape by done.
  rewrite IH by (done || lia). cbn. by rewrite <- app_assoc.
Qed.

Lemma length_escape ea c : (1 ≤ length (escape_char ea c))%nat.
Proof. unfold escape_char. repeat case_match; cbn; lia. Qed.

Lemma length_escapes ea s : (length s ≤ length (s ≫= escape_char ea))%nat.
Proof.
  induction s as [|c s IH]; [cbn; lia|]. rewrite bind_cons, length_app.
  pose proof (length_escape ea c). cbn. lia.
Qed.

(** A printed string, read after its opening quote. *)
Lemma parse_print_string ea s r :
  forallb scalar s = true →
  let t := (s ≫= escape_char ea) ++ 34 :: r in
  parse_chars (S (length t)) t [] = Some (s, r).
Proof.
  intros Hs t. unfold t. rewrite parse_chars_print; [done|done|].
  rewrite length_app. pose proof (length_escapes ea s). lia.
Qed.

(** ** Numbers *)

(** What may follow a value inside a document this module prints. *)
Definition delimited (r : str) : Prop :=
  match r with [] => True | c :: _ => c = 44 ∨ c = 93 ∨ c = 125 ∨ c = 10 end.

Lemma span_digits ds r :
  Forall (λ c, is_digit c = true) ds → delimited r → span is_digit (ds ++ r) = (ds, r).
Proof.
  intros Hds Hr. induction Hds as [|c ds Hc Hds IH].
  - destruct r as [|c r]; [done|]. cbn. by destruct Hr as [->|[->|[->| ->]]].
  - cbn. by rewrite Hc, IH.
Qed.

Lemma no_fraction r : delimited r → parse_frac r = ([], r) ∧ parse_exp r = ([], r).
Proof. destruct r as [|c r]; [done|]. by intros [->|[->|[->| ->]]]. Qed.

(** No leading zero. *)
Lemma digits_leading z d ds :
  0 ≤ z → digits 10 z = d :: ds → d = 0 → ds = [].
Proof.
  intros Hz Hd ->. destruct ds as [|e ds]; [done|exfalso].
  pose proof (digits_range 10 z ltac:(lia) Hz) as Hr. rewrite Hd in Hr.
  apply Forall_cons in Hr as [_ Hr].
  pose proof (value_of_bound 10 (e :: ds) ltac:(lia) Hr) as Hb.
  pose proof (value_of_digits 10 z ltac:(lia) Hz) as Hv.
  rewrite Hd, value_of_cons, Z.mul_0_l, Z.add_0_l in Hv. rewrite Hv in Hb.
  assert (length (digits 10 z) ≤ length (e :: ds))%nat as Hlen.
  { apply length_digits; [lia|cbn; lia|done]. }
  rewrite Hd in Hlen. cbn in Hlen. lia.
Qed.

Lemma int_part_digits z r :
  0 ≤ z → delimited r →
  parse_int_part (((λ d, 48 + d) <$> digits 10 z) ++ r) = ((λ d, 48 + d) <$> digits 10 z, r).
Proof.
  intros Hz Hr. pose proof (digits_range 10 z ltac:(lia) Hz) as Hd.
  pose proof (span_digits ((λ d, 48 + d) <$> digits 10 z) r) as Hspan.
  destruct (digits 10 z) as [|d ds] eqn:Hds; [by apply digits_nonempty in Hds|].
  apply Forall_cons in Hd as [Hd Hds']. destruct (decide (d = 0)) as [->|Hne].
  { by rewrite (digits_leading z 0 ds). }
  rewrite <- Hspan; [|apply Forall_fmap, Forall_cons; split; unfold is_digit; cbn; [lia|]|done].
  2:{ eapply Forall_impl; [exact Hds'|]. cbn. intros. lia. }
  rewrite fmap_cons, <- app_comm_cons. destruct (decide (48 + d = 48)); [lia|].
  destruct (48 + d) as [|p|p]; try done. repeat (destruct p as [p|p|]; try done).
Qed.

Lemma value_of_dec_digits (ds : list Z) : (λ c, c - 48) <$> ((λ d, 48 + d) <$> ds) = ds.
Proof. induction ds as [|d ds IH]; [done|]. cbn. f_equal; [lia|apply IH]. Qed.

Lemma parse_unsigned_print `{FloatText} neg z r :
  0 ≤ z → (length (digits 10 z) ≤ int_max_str_digits)%nat → delimited r →
  parse_unsigned neg (((λ d, 48 + d) <$> digits 10 z) ++ r)
  = Ok (PInt (if neg then - z else z), r).
Proof.
  intros Hz Hlen Hr. pose proof (int_part_digits z r Hz Hr) as Hip.
  destruct (no_fraction r Hr) as [Hfr Hex]. unfold parse_unsigned. rewrite Hip.
  destruct ((λ d, 48 + d) <$> digits 10 z) as [|d ds] eqn:Hds.
  { apply fmap_nil_inv, digits_nonempty in Hds. done. }
  rewrite Hfr, Hex. cbn [app]. rewrite <- Hds, length_fmap, value_of_dec_digits.
  rewrite value_of_digits by lia.
  destruct (Nat.ltb_spec int_max_str_digits (length (digits 10 z))); [lia|done].
Qed.

Lemma parse_number_print `{FloatText} z r :
  small_int z = true → delimited r → parse_number (dec_str z ++ r) = Ok (PInt z, r).
Proof.
  unfold small_int. intros Hsm Hr. apply Nat.leb_le in Hsm.
  unfold dec_str. destruct (Z.ltb_spec z 0) as [Hneg|Hpos].
  - replace (- z) with (Z.abs z) by lia. cbn [app]. unfold parse_number.
    rewrite parse_unsigned_print by (done || lia). by replace (- Z.abs z) with z by lia.
  - rewrite Z.abs_eq in Hsm by done. rewrite <- (parse_unsigned_print false) by done.
    pose proof (digits_range 10 z ltac:(lia) Hpos) as Hd. unfold parse_number.
    pose proof (digits_nonempty 10 z).
    destruct (digits 10 z) as [|d ds]; [done|]. apply Forall_cons in Hd as [Hd _].
    rewrite fmap_cons, <- app_comm_cons.
    destruct (48 + d) as [|p|p] eqn:Hp; try done. repeat (destruct p as [p|p|]; try done). lia.
Qed.

(** ** Values *)

(** The characters a printed value starts with. *)
Definition opens (c : Z) : Prop :=
  c = 34 ∨ c = 91 ∨ c = 123 ∨ c = 110 ∨ c = 116 ∨ c = 102 ∨ c = 45 ∨ 48 ≤ c ≤ 57.

Lemma dec_str_head z : ∃ c t, dec_str z = c :: t ∧ (c = 45 ∨ 48 ≤ c ≤ 57) ∧
  (c = 45 → ∃ d t', t = d :: t' ∧ 48 ≤ d ≤ 57).
Proof.
  unfold dec_str. destruct (Z.ltb_spec z 0) as [Hz|Hz].
  - pose proof (digits_range 10 (- z) ltac:(lia) ltac:(lia)) as Hd.
    pose proof (digits_nonempty 10 (- z)). destruct (digits 10 (- z)) as [|d ds]; [done|].
    apply Forall_cons in Hd as [Hd _]. eexists _, _. split; [done|]. split; [by left|].
    intros _. eexists _, _. split; [done|]. lia.
  - pose proof (digits_range 10 z ltac:(lia) Hz) as Hd.
    pose proof (digits_nonempty 10 z). destruct (digits 10 z) as [|d ds]; [done|].
    apply Forall_cons in Hd as [Hd _]. eexists _, _. split; [done|]. split; [right; lia|lia].
Qed.

Lemma print_value_head ea v : plain v = true → ∃ c t, print_value ea v = c :: t ∧ opens c.
Proof.
  unfold opens. destruct v as [|[]|z|f|s|l|kvs]; cbn; intros; try done;
    try (eexists _, _; split; [done|]; lia).
  destruct (dec_str_head z) as (c & t & -> & ? & _). eexists _, _; split; [done|]. lia.
Qed.

Lemma starts_with_cons a p c s : starts_with (a :: p) (c :: s) = (a =? c) && starts_with p s.
Proof.
  unfold starts_with. cbn. destruct (Z.eqb_spec a c) as [->|Hne]; cbn.
  - apply bool_decide_ext. split; congruence.
  - apply bool_decide_eq_false. congruence.
Qed.

Lemma parse_word_number `{FloatText} z r : parse_word (dec_str z ++ r) = None.
Proof.
  destruct (dec_str_head z) as (c & t & -> & Hc & Hneg). cbn [app]. unfold parse_word.
  cbn [lit]. rewrite !starts_with_cons.
  repeat match goal with |- context [?a =? c] => destruct (Z.eqb_spec a c);
    [first [exfalso; cbn in *; lia|subst c]|cbn [andb]] end; [|done].
  destruct Hneg as (d & t' & -> & Hd); [done|]. cbn [andb app]. rewrite !starts_with_cons.
  match goal with |- context [?a =? d] => destruct (Z.eqb_spec a d) end; [cbn in *; lia|done].
Qed.

Lemma skip_ws_open c s : opens c ∨ c = 44 ∨ c = 58 ∨ c = 93 ∨ c = 125 → skip_ws (c :: s) = c :: s.
Proof. unfold opens. intros. apply drop_while_none_head. unfold json_space. lia. Qed.

Lemma dict_set_fresh {A} k (v : A) d : k ∉ d.*1 → dict_set k v d = d ++ [(k, v)].
Proof.
  induction d as [|[k' v'] d IH]; [done|]. cbn. rewrite not_elem_of_cons. intros [Hne Hin].
  rewrite decide_False by done. by rewrite IH.
Qed.

Section round_trip.
Context `{FloatText} (ea : bool).

(** What the induction carries for one value. *)
Definition reads_back (v : pyval) : Prop :=
  plain v = true → ∀ fuel r, (2 * length (print_value ea v) ≤ fuel)%nat → delimited r →
  parse_value fuel (print_value ea v ++ r) = Ok (v, r).

Definition print_elements (l : list pyval) : str := join_sep 44 (map (print_value ea) l).
Definition print_member (p : str * pyval) : str :=
  print_string ea p.1 ++ 58 :: print_value ea p.2.
Definition print_members (kvs : list (str * pyval)) : str := join_sep 44 (map print_member kvs).

Lemma print_elements_head v l :
  forallb plain (v :: l) = true → ∃ c t, print_elements (v :: l) = c :: t ∧ opens c.
Proof.
  cbn [forallb]. intros [Hv _]%andb_true_iff. destruct (print_value_head ea v Hv) as (c & t & Hw & Hc).
  unfold print_elements. destruct l; cbn; rewrite Hw; eexists _, _; (split; [reflexivity|done]).
Qed.

Lemma parse_elements_print v l acc fuel r :
  Forall reads_back (v :: l) → forallb plain (v :: l) = true →
  (2 * length (print_elements (v :: l)) + 1 ≤ fuel)%nat →
  parse_elements fuel acc (print_elements (v :: l) ++ 93 :: r) = Ok (PList (rev acc ++ v :: l), r).
Proof.
  revert v acc fuel. induction l as [|w l IH]; intros v acc [|fuel] Hall Hpl Hf; try lia;
    apply Forall_cons in Hall as [Hv Hall]; cbn [forallb] in Hpl;
    apply andb_true_iff in Hpl as [Hpv Hpl].
  - change (print_elements [v]) with (print_value ea v) in *. cbn [parse_elements].
    rewrite Hv by (done || lia || by right; left). rewrite bind_Ok, skip_ws_open by lia. done.
  - change (print_elements (v :: w :: l)) with (print_value ea v ++ 44 :: print_elements (w :: l)) in *.
    rewrite length_app in Hf. cbn [length] in Hf. rewrite <- app_assoc. cbn [parse_elements app].
    rewrite Hv by (done || lia || by left). rewrite bind_Ok, skip_ws_open by lia.
    cbv iota beta. destruct (print_elements_head w l Hpl) as (c & t' & Ht' & Hc).
    pose proof (IH w (v :: acc) fuel Hall Hpl ltac:(lia)) as IH'. rewrite Ht' in *.
    cbn [app] in *. rewrite skip_ws_open by auto. rewrite IH'. cbn. by rewrite <- app_assoc.
Qed.

(** One member: the key is new, the value reads back. *)
Lemma parse_member_print k v acc fuel r :
  reads_back v → forallb scalar k = true → plain v = true → k ∉ acc.*1 →
  (2 * length (print_member (k, v)) ≤ fuel)%nat → delimited r →
  parse_members (S fuel) acc (print_member (k, v) ++ r)
  = match skip_ws r with
    | 125 :: r => Ok (PDict (acc ++ [(k, v)]), r)
    | 44 :: r => parse_members fuel (acc ++ [(k, v)]) (skip_ws r)
    | _ => Err JSONDecodeError
    end.
Proof.
  intros Hv Hk Hpv Hnew Hf Hr. unfold print_member in *. cbn [fst snd] in *.
  unfold print_string in *. rewrite length_app in Hf. cbn [length] in Hf.
  rewrite <- app_assoc, <- !app_comm_cons, <- app_assoc. cbn [parse_members app].
  pose proof (parse_print_string ea k (58 :: print_value ea v ++ r) Hk) as Hs. cbv zeta in Hs.
  rewrite Hs, skip_ws_open by lia. cbv iota beta.
  destruct (print_value_head ea v Hpv) as (c & t & Hw & Hc).
  pose proof (Hv Hpv fuel r ltac:(lia) Hr) as Hv'. rewrite Hw in *. cbn [app] in *.
  rewrite skip_ws_open, Hv', bind_Ok, dict_set_fresh by auto. done.
Qed.

Lemma parse_members_print k v kvs acc fuel r :
  Forall (λ p, reads_back p.2) ((k, v) :: kvs) →
  forallb (λ p, forallb scalar p.1 && plain p.2) ((k, v) :: kvs) = true →
  NoDup (acc ++ (k, v) :: kvs).*1 →
  (2 * length (print_members ((k, v) :: kvs)) + 1 ≤ fuel)%nat →
  parse_members fuel acc (print_members ((k, v) :: kvs) ++ 125 :: r)
  = Ok (PDict (acc ++ (k, v) :: kvs), r).
Proof.
  revert k v acc fuel. induction kvs as [|[k' w] kvs IH]; intros k v acc [|fuel] Hall Hpl Hnd Hf;
    try lia; apply Forall_cons in Hall as [Hv Hall]; cbn [forallb fst snd] in Hpl, Hv;
    apply andb_true_iff in Hpl as [Hpv Hpl]; apply andb_true_iff in Hpv as [Hk Hpv];
    assert (k ∉ acc.*1) as Hnew
      by (rewrite fmap_app in Hnd; apply NoDup_app in Hnd as (_ & Hd & _);
          intros Hin; apply (Hd k Hin); left).
  - change (print_members [(k, v)]) with (print_member (k, v)) in *.
    rewrite parse_member_print by (done || lia || by right; right; left).
    by rewrite skip_ws_open by lia.
  - change (print_members ((k, v) :: (k', w) :: kvs))
      with (print_member (k, v) ++ 44 :: print_members ((k', w) :: kvs)) in *.
    rewrite length_app in Hf. cbn [length] in Hf. rewrite <- app_assoc. cbn [app].
    rewrite parse_member_print by (done || lia || by left). rewrite skip_ws_open by lia.
    cbv iota beta. assert (∃ t, print_members ((k', w) :: kvs) = 34 :: t) as [t Ht].
    { unfold print_members, print_member, print_string. destruct kvs; cbn; eauto. }
    pose proof (IH k' w (acc ++ [(k, v)]) fuel Hall Hpl) as IH'.
    rewrite <- app_assoc in IH'. cbn [app] in IH'. specialize (IH' Hnd ltac:(lia)).
    rewrite Ht in *. cbn [app] in *. rewrite skip_ws_open by (left; by left). exact IH'.
Qed.

Lemma not_close {B} (f : str → B) (g : str → B) c t :
  opens c → match c :: t with 93 :: r => f r | r => g r end = g (c :: t).
Proof.
  unfold opens. intros Hc. destruct c as [|p|p]; try done.
  repeat (destruct p as [p|p|]; try done); lia.
Qed.

Lemma parse_print v : reads_back v.
Proof.
  induction v as [|b|z|f|s|l IH|kvs IH] using pyval_nested_ind; intros Hpl [|fuel] r Hf Hr;
    try (destruct (print_value_head ea _ Hpl) as (? & ? & He & _); rewrite He in Hf; cbn in Hf; lia).
  - done.
  - by destruct b.
  - cbn [print_value] in *. destruct (dec_str_head z) as (c & t & Hz & Hc & _).
    pose proof (parse_word_number z r) as Hw. pose proof (parse_number_print z r Hpl Hr) as Hn.
    rewrite Hz in *. cbn [app parse_value] in *.
    repeat match goal with |- context [c =? ?x] => destruct (Z.eqb_spec c x); [lia|] end.
    rewrite Hw. exact Hn.
  - done.
  - cbn [print_value] in *. unfold print_string. rewrite <- app_comm_cons, <- app_assoc.
    cbn [app parse_value Z.eqb Pos.eqb]. pose proof (parse_print_string ea s r Hpl) as Hs.
    cbv zeta in Hs. by rewrite Hs.
  - destruct l as [|v l]; [done|].
    change (print_value ea (PList (v :: l))) with (91 :: print_elements (v :: l) ++ [93]) in *.
    cbn [length] in Hf. rewrite length_app in Hf. rewrite <- app_comm_cons, <- app_assoc.
    cbn [app parse_value Z.eqb Pos.eqb].
    destruct (print_elements_head v l Hpl) as (c & t & Ht & Hc).
    pose proof (parse_elements_print v l [] fuel r IH Hpl ltac:(cbn in *; lia)) as Hpe.
    rewrite Ht in *. cbn [app] in *. rewrite skip_ws_open by auto.
    etrans; [exact (not_close (λ r, Ok (PList [], r)) (parse_elements fuel []) c _ Hc)|exact Hpe].
  - destruct kvs as [|[k v] kvs]; [done|].
    change (print_value ea (PDict ((k, v) :: kvs))) with (123 :: print_members ((k, v) :: kvs) ++ [125]) in *.
    cbn [length] in Hf. rewrite length_app in Hf. rewrite <- app_comm_cons, <- app_assoc.
    cbn [app parse_value Z.eqb Pos.eqb]. cbn [plain] in Hpl. apply andb_true_iff in Hpl as [Hpl Hnd].
    apply bool_decide_eq_true in Hnd.
    pose proof (parse_members_print k v kvs [] fuel r IH Hpl Hnd ltac:(cbn in *; lia)) as Hpm.
    assert (∃ t, print_members ((k, v) :: kvs) = 34 :: t) as [t Ht].
    { unfold print_members, print_member, print_string. destruct kvs; cbn; eauto. }
    rewrite Ht in *. cbn [app] in *. rewrite skip_ws_open by (left; by left). exact Hpm.
Qed.

(** ** Text of a printed value *)

Lemma hex4_scalar c : forallb scalar (hex4 c) = true.
Proof.
  unfold hex4. apply forallb_Forall.
  assert (∀ x, scalar (hex_digit (x mod 16)) = true) as Hd.
  { intros x. assert (0 ≤ x mod 16 < 16) by (apply Z.mod_pos_bound; lia).
    destruct (hex_digit_range (x mod 16)); [done| |]; unfold scalar; lia. }
  by do 4 (constructor; [apply Hd|]).
Qed.

Lemma escape_scalar c : scalar c = true → forallb scalar (escape_char ea c) = true.
Proof.
  intros Hc. unfold escape_char, u_escape.
  repeat case_match; rewrite ?forallb_app, ?hex4_scalar; cbn; rewrite ?Hc; done.
Qed.

Lemma print_string_scalar s : forallb scalar s = true → forallb scalar (print_string ea s) = true.
Proof.
  intros Hs. unfold print_string. cbn [forallb]. rewrite forallb_app.
  enough (forallb scalar (s ≫= escape_char ea) = true) as -> by done.
  induction s as [|c s IH]; [done|]. cbn in Hs. apply andb_true_iff in Hs as [Hc Hs].
  rewrite bind_cons, forallb_app, escape_scalar by done. by apply IH.
Qed.

Lemma join_sep_scalar sep (parts : list str) :
  scalar sep = true → Forall (λ p, forallb scalar p = true) parts →
  forallb scalar (join_sep sep parts) = true.
Proof.
  intros Hsep. induction 1 as [|p parts Hp Hps IH]; [done|]. cbn. destruct parts; [done|].
  rewrite forallb_app, Hp. cbn in *. by rewrite Hsep, IH.
Qed.

Lemma print_value_scalar v : plain v = true → forallb scalar (print_value ea v) = true.
Proof.
  induction v as [|b|z|f|s|l IH|kvs IH] using pyval_nested_ind; intros Hv; cbn [print_value].
  - done.
  - by destruct b.
  - destruct (Z.ltb_spec z 0) as [Hz|Hz]; unfold dec_str.
    + rewrite (proj2 (Z.ltb_lt z 0)) by done. cbn [forallb]. apply forallb_Forall.
      pose proof (dec_str_digits (- z) ltac:(lia)) as Hd. rewrite dec_str_nonneg in Hd by lia.
      eapply Forall_impl; [exact Hd|]. unfold scalar. cbn. intros. lia.
    + apply forallb_Forall. eapply Forall_impl; [exact (dec_str_digits z Hz)|].
      unfold scalar. cbn. intros. lia.
  - done.
  - by apply print_string_scalar.
  - cbn [forallb]. rewrite forallb_app, join_sep_scalar; [done|done|]. cbn in Hv.
    apply Forall_map. apply forallb_Forall in Hv. rewrite Forall_forall in *. auto.
  - cbn [forallb]. rewrite forallb_app, join_sep_scalar; [done|done|]. cbn in Hv.
    apply andb_true_iff in Hv as [Hv _]. apply Forall_map. apply forallb_Forall in Hv.
    rewrite Forall_forall in *. intros p Hp. apply Hv in Hp as Hb.
    apply andb_true_iff in Hb as [Hk Hb].
    rewrite forallb_app, print_string_scalar by done. cbn. by apply (IH p).
Qed.

(** ** Sorting the keys *)

Lemma insert_key_perm {A} (p : str * A) l : insert_key p l ≡ₚ p :: l.
Proof.
  induction l as [|q l IH]; [done|]. cbn. case_match; [done|].
  rewrite IH. apply Permutation_swap.
Qed.

Lemma sort_items_perm {A} (l : list (str * A)) : sort_items l ≡ₚ l.
Proof. induction l as [|p l IH]; [done|]. cbn. rewrite insert_key_perm. by f_equiv. Qed.

Lemma forallb_perm {A} (f : A → bool) l l' : l ≡ₚ l' → forallb f l = forallb f l'.
Proof. induction 1; cbn; [done|congruence|btauto|congruence]. Qed.

Lemma plain_canon v : plain (canon v) = plain v.
Proof.
  induction v as [|b|z|f|s|l IH|kvs IH] using pyval_nested_ind; cbn; auto.
  - induction IH as [|v l Hv _ IH]; cbn; congruence.
  - f_equal.
    + rewrite (forallb_perm _ _ _ (sort_items_perm _)).
      induction IH as [|[k v] l Hv _ IH]; [done|]. cbn in *. by rewrite Hv, IH.
    + apply bool_decide_ext. rewrite sort_items_perm. by rewrite <- list_fmap_compose.
Qed.

Lemma json_loads_print v :
  plain v = true → json_loads (print_value ea v) = Ok v.
Proof.
  intros Hv. unfold json_loads. destruct (print_value_head ea v Hv) as (c & t & Hw & Hc).
  pose proof (parse_print v Hv (S (2 * length (print_value ea v))) [] ltac:(lia) I) as Hp.
  rewrite app_nil_r in Hp. rewrite Hw in *. rewrite skip_ws_open by auto. by rewrite Hp.
Qed.

Lemma json_loads_dumps v :
  plain v = true → json_loads (json_dumps ea v) = Ok (canon v).
Proof. intros. apply json_loads_print. by rewrite plain_canon. Qed.

(** Scalar values have a UTF-8 encoding, and it determines them. *)
Lemma scalar_utf8 s : forallb scalar s = true → is_Some (utf8_encode s).
Proof.
  induction s as [|c s IH]; [done|]. cbn [forallb]. intros [Hc Hs]%andb_true_iff.
  rewrite utf8_encode_cons. destruct (IH Hs) as [b ->].
  unfold scalar in Hc. bool_inv. unfold utf8_char. repeat case_match; bool_inv; try done; lia.
Qed.

Lemma scalar_code_points s : forallb scalar s = true → Forall code_point s.
Proof.
  rewrite forallb_Forall. intros Hs. eapply Forall_impl; [exact Hs|].
  unfold scalar, code_point. cbn. intros. bool_inv. lia.
Qed.

Lemma json_dumps_utf8 v :
  plain v = true → is_Some (utf8_encode (json_dumps ea v)) ∧ Forall code_point (json_dumps ea v).
Proof.
  intros Hv. rewrite <- plain_canon in Hv. apply print_value_scalar in Hv.
  split; [by apply scalar_utf8|by apply scalar_code_points].
Qed.

(** Canonical JSON tells apart any two values that differ by more than the order
    of their keys. *)
Lemma json_dumps_inj v w :
  plain v = true → plain w = true → json_dumps ea v = json_dumps ea w → canon v = canon w.
Proof.
  intros Hv Hw Heq. apply json_loads_dumps in Hv, Hw. rewrite Heq in Hv. congruence.
Qed.

(** The same for the encoded text. *)
Lemma json_bytes_inj v w b :
  plain v = true → plain w = true →
  utf8_encode (json_dumps ea v) = Some b → utf8_encode (json_dumps ea w) = Some b →
  canon v = canon w.
Proof.
  intros Hv Hw Hbv Hbw. apply json_dumps_inj; [done..|].
  apply utf8_encode_inj; [by apply json_dumps_utf8..|congruence].
Qed.
End round_trip.
