(* ===== verification/PyVal.v ===== *)
(** What the components ask of dynamically typed values: [str(v)] (through
    [repr] for containers), [int(v)], membership of a value in a set of strings,
    and the facts about dictionaries that canonical JSON leaves to its users.
    Values are those [json.loads] can return, so their integers are within the
    digit limit of [str]. *)
From Stdlib Require Import ZArith Lia.
From stdpp Require Import base decidable strings numbers list.
From S2P Require Import Prelude PyStr Json.

Open Scope Z_scope.

(** * [repr] and [str] *)

Definition hex_width (n : nat) (c : Z) : str :=
  map (λ i, hex_digit (c / 16 ^ Z.of_nat (n - 1 - i) mod 16)) (seq 0 n).

(** One character of [repr(s)] between quotes [q]. *)
Definition repr_char `{Unicode} (q c : Z) : str :=
  if (c =? q) || (c =? 92) then [92; c]
  else if c =? 9 then [92; 116]
  else if c =? 10 then [92; 110]
  else if c =? 13 then [92; 114]
  else if (c <? 32) || (c =? 127) then [92; 120] ++ hex_width 2 c
  else if c <? 127 then [c]
  else if printable_tbl c then [c]
  else if c <? 256 then [92; 120] ++ hex_width 2 c
  else if c <? 65536 then [92; 117] ++ hex_width 4 c
  else [92; 85] ++ hex_width 8 c.

(** Double quotes are used for a text with single quotes and no double ones. *)
Definition repr_str `{Unicode} (s : str) : str :=
  let q := if bool_decide (39 ∈ s) && negb (bool_decide (34 ∈ s)) then 34 else 39 in
  q :: (s ≫= repr_char q) ++ [q].

(** [", ".join(parts)] *)
Fixpoint join_comma (parts : list str) : str :=
  match parts with
  | [] => []
  | [p] => p
  | p :: parts => p ++ 44 :: 32 :: join_comma parts
  end.

Fixpoint py_repr `{Unicode} (v : pyval) : str :=
  match v with
  | PNone => lit "None"
  | PBool true => lit "True"
  | PBool false => lit "False"
  | PInt z => dec_str z
  | PFloat f => fl_repr f
  | PStr s => repr_str s
  | PList l => 91 :: join_comma (map py_repr l) ++ [93]
  | PDict kvs => 123 :: join_comma (map (λ p, repr_str p.1 ++ 58 :: 32 :: py_repr p.2) kvs) ++ [125]
  end.

Definition py_str `{Unicode} (v : pyval) : str :=
  match v with PStr s => s | _ => py_repr v end.

(** [int(v)] *)
Definition py_to_int `{Unicode} (v : pyval) : result exn Z :=
  match v with
  | PBool b => Ok (if b then 1 else 0)
  | PInt z => Ok z
  | PFloat f => fl_trunc f
  | PStr s => match py_int 10 s with Some z => Ok z | None => Err (ValueError "invalid literal for int()") end
  | PNone | PList _ | PDict _ => Err (TypeError "int() argument")
  end.

(** [v in names] for a set of strings: hashing a list or a dict raises. *)
Definition in_str_set (v : pyval) (names : list str) : result exn bool :=
  match v with
  | PStr s => Ok (bool_decide (s ∈ names))
  | PList _ | PDict _ => Err (TypeError "unhashable type")
  | _ => Ok false
  end.

(** [v in names] for a tuple of strings compares with [==]. *)
Definition in_str_tuple (v : pyval) (names : list str) : bool :=
  match v with PStr s => bool_decide (s ∈ names) | _ => false end.

(** * Text made of scalar values *)

Lemma scalar_ascii c : 0 ≤ c < 128 → scalar c = true.
Proof. unfold scalar. lia. Qed.

Lemma hex_width_scalar n c : forallb scalar (hex_width n c) = true.
Proof.
  apply forallb_Forall, Forall_map, Forall_true. intros i.
  set (d := _ mod 16). assert (0 ≤ d < 16) by (apply Z.mod_pos_bound; lia).
  destruct (hex_digit_range d); [done| |]; apply scalar_ascii; lia.
Qed.

Lemma repr_char_scalar `{Unicode} q c :
  scalar c = true → forallb scalar (repr_char q c) = true.
Proof.
  intros Hc. unfold repr_char.
  repeat case_match; cbn [app forallb]; rewrite ?hex_width_scalar, ?Hc; reflexivity.
Qed.

Lemma repr_str_scalar `{Unicode} s :
  forallb scalar s = true → forallb scalar (repr_str s) = true.
Proof.
  intros Hs. unfold repr_str.
  assert (∀ q, forallb scalar (s ≫= repr_char q) = true) as Hin.
  { intros q. induction s as [|c s IH]; [done|]. cbn in Hs. apply andb_true_iff in Hs as [Hc Hs].
    rewrite bind_cons, forallb_app, repr_char_scalar by done. by apply IH. }
  case_match; cbn [forallb]; by rewrite forallb_app, Hin.
Qed.

Lemma lit_scalar s : forallb scalar (lit s) = true.
Proof.
  induction s as [|a s IH]; [done|]. cbn [lit forallb]. rewrite IH, andb_true_r.
  assert (Ascii.N_of_ascii a < 256)%N by apply Ascii.N_ascii_bounded. unfold scalar. lia.
Qed.

Lemma dec_str_scalar z : forallb scalar (dec_str z) = true.
Proof.
  assert (∀ y, 0 ≤ y → forallb scalar ((λ d, 48 + d) <$> digits 10 y) = true) as Hd.
  { intros y Hy. apply forallb_Forall, Forall_fmap.
    eapply Forall_impl; [apply (digits_range 10); lia|]. cbn. intros. apply scalar_ascii. lia. }
  unfold dec_str. destruct (Z.ltb_spec z 0); [cbn [forallb]; rewrite Hd by lia|rewrite Hd by lia]; done.
Qed.

Lemma join_comma_scalar (parts : list str) :
  Forall (λ p, forallb scalar p = true) parts → forallb scalar (join_comma parts) = true.
Proof.
  induction 1 as [|p parts Hp Hps IH]; [done|]. cbn. destruct parts; [done|].
  rewrite forallb_app, Hp. cbn in *. by rewrite IH.
Qed.

Lemma py_repr_scalar `{Unicode} v : plain v = true → forallb scalar (py_repr v) = true.
Proof.
  induction v as [|b|z|f|s|l IH|kvs IH] using pyval_nested_ind; intros Hv; cbn [py_repr].
  - done.
  - by destruct b.
  - apply dec_str_scalar.
  - done.
  - by apply repr_str_scalar.
  - cbn [forallb]. rewrite forallb_app, join_comma_scalar; [done|]. cbn in Hv.
    apply Forall_map. apply forallb_Forall in Hv. rewrite Forall_forall in *. auto.
  - cbn [forallb]. rewrite forallb_app, join_comma_scalar; [done|]. cbn in Hv.
    apply andb_true_iff in Hv as [Hv _]. apply Forall_map. apply forallb_Forall in Hv.
    revert IH Hv. induction kvs as [|[k v] kvs IHk]; intros IH Hv; [constructor|].
    apply Forall_cons in IH as [IHv IH]. apply Forall_cons in Hv as [[Hk Hv]%andb_true_iff Hvs].
    constructor; [|by apply IHk]. cbn [fst snd] in *. rewrite forallb_app, repr_str_scalar by done.
    cbn. by apply IHv.
Qed.

Lemma py_str_scalar `{Unicode} v : plain v = true → forallb scalar (py_str v) = true.
Proof. intros Hv. destruct v; try done; by apply py_repr_scalar. Qed.

(** * Dictionaries *)

Lemma dict_get_perm {A} k (d d' : list (str * A)) :
  NoDup d.*1 → d ≡ₚ d' → dict_get k d = dict_get k d'.
Proof.
  intros Hnd Hp. revert Hnd. induction Hp as [|[a v] d d' _ IH|[a v] [b w] d|d1 d2 d3 H12 IH1 H23 IH2];
    intros Hnd; cbn in *; [done| | |].
  - apply NoDup_cons in Hnd as [_ Hnd]. by case_decide; [|apply IH].
  - apply NoDup_cons in Hnd as [Hin _]. repeat case_decide; subst; try done.
    exfalso. apply Hin. by left.
  - rewrite IH1 by done. apply IH2. by rewrite <- H12.
Qed.

Lemma dict_get_map {A B} (f : A → B) k (d : list (str * A)) :
  dict_get k (map (λ p, (p.1, f p.2)) d) = f <$> dict_get k d.
Proof. induction d as [|[a v] d IH]; cbn; [done|]. by case_decide. Qed.

Lemma keys_map {A B} (f : A → B) (d : list (str * A)) : (map (λ p, (p.1, f p.2)) d).*1 = d.*1.
Proof. induction d as [|[a v] d IH]; cbn; [done|]. by rewrite IH. Qed.

Lemma canon_dict kvs : canon (PDict kvs) = PDict (sort_items (map (λ p, (p.1, canon p.2)) kvs)).
Proof. done. Qed.

Lemma dict_get_canon k kvs :
  NoDup kvs.*1 →
  dict_get k (sort_items (map (λ p, (p.1, canon p.2)) kvs)) = canon <$> dict_get k kvs.
Proof.
  intros Hnd. rewrite <- dict_get_map. apply dict_get_perm; [|apply sort_items_perm].
  by rewrite sort_items_perm, keys_map.
Qed.

(** Dictionaries with the same canonical form agree at every key. *)
Lemma canon_dict_inj a b k :
  NoDup a.*1 → NoDup b.*1 → canon (PDict a) = canon (PDict b) →
  canon <$> dict_get k a = canon <$> dict_get k b.
Proof.
  intros Ha Hb Heq. cbn in Heq. injection Heq as Heq.
  by rewrite <- !dict_get_canon, Heq by done.
Qed.
