(* ===== verification/Codec.v ===== *)
(** Text and byte codecs of the standard library: strict UTF-8 decoding
    ([bytes.decode("utf-8")]) as the inverse of the encoder of [PyStr], and base64
    ([base64.urlsafe_b64encode], [urlsafe_b64decode], [b64decode(validate=True)])
    after CPython's [binascii]. *)
From Stdlib Require Import ZArith Lia.
From stdpp Require Import base decidable strings numbers list.
From S2P Require Import Prelude PyStr.

Open Scope Z_scope.

(** * UTF-8 decoding *)

Definition cont_byte (b : Z) : bool := (128 <=? b) && (b <? 192).

(** The first character of a byte string and the bytes it takes; [None] on the
    ill-formed sequences: stray or missing continuation bytes, overlong forms,
    surrogates and values above U+10FFFF. *)
Definition utf8_head (l : bytes) : option (Z * nat) :=
  match l with
  | a :: r =>
      if a <? 128 then if 0 <=? a then Some (a, 1%nat) else None
      else if a <? 194 then None
      else if a <? 224 then
        match r with
        | b :: _ => if cont_byte b then Some ((a - 192) * 64 + (b - 128), 2%nat) else None
        | _ => None
        end
      else if a <? 240 then
        match r with
        | b :: c :: _ =>
            let z := (a - 224) * 4096 + (b - 128) * 64 + (c - 128) in
            if cont_byte b && cont_byte c && (2048 <=? z) && negb ((55296 <=? z) && (z <=? 57343))
            then Some (z, 3%nat) else None
        | _ => None
        end
      else
        match r with
        | b :: c :: d :: _ =>
            let z := (a - 240) * 262144 + (b - 128) * 4096 + (c - 128) * 64 + (d - 128) in
            if cont_byte b && cont_byte c && cont_byte d && (65536 <=? z) && (z <? 1114112)
            then Some (z, 4%nat) else None
        | _ => None
        end
  | [] => None
  end.

(** Every character takes a byte, so the length is enough fuel. *)
Fixpoint utf8_decode_go (fuel : nat) (l : bytes) : option str :=
  match l, fuel with
  | [], _ => Some []
  | _, O => None
  | _, S fuel =>
      match utf8_head l with
      | Some (c, n) => cons c <$> utf8_decode_go fuel (drop n l)
      | None => None
      end
  end.

Definition utf8_decode (l : bytes) : option str := utf8_decode_go (length l) l.

Lemma utf8_head_char c b r :
  code_point c → utf8_char c = Some b → utf8_head (b ++ r) = Some (c, length b).
Proof.
  unfold code_point, utf8_char. intros Hc Hb.
  repeat case_match; bool_inv; simplify_eq; cbn [app utf8_head length].
  - rewrite (proj2 (Z.ltb_lt _ _)), (proj2 (Z.leb_le _ _)) by lia. done.
  - assert (194 ≤ 192 + c / 64 < 224 ∧ 128 ≤ 128 + c mod 64 < 192) by (Z.div_mod_to_equations; lia).
    unfold cont_byte. repeat case_match; bool_inv; try lia.
    do 2 f_equal. Z.div_mod_to_equations; lia.
  - assert (224 ≤ 224 + c / 4096 < 240 ∧ 128 ≤ 128 + c / 64 mod 64 < 192 ∧ 128 ≤ 128 + c mod 64 < 192)
      by (Z.div_mod_to_equations; lia).
    assert ((224 + c / 4096 - 224) * 4096 + (128 + c / 64 mod 64 - 128) * 64 + (128 + c mod 64 - 128) = c) as ->
      by (Z.div_mod_to_equations; lia).
    unfold cont_byte. repeat case_match; bool_inv; try lia; try done.
    all: exfalso; repeat match goal with H : _ && _ = false |- _ => apply andb_false_iff in H as [H|H] end; bool_inv; lia.
  - assert (240 ≤ 240 + c / 262144 < 245 ∧ 128 ≤ 128 + c / 4096 mod 64 < 192 ∧ 128 ≤ 128 + c / 64 mod 64 < 192
      ∧ 128 ≤ 128 + c mod 64 < 192) by (Z.div_mod_to_equations; lia).
    assert ((240 + c / 262144 - 240) * 262144 + (128 + c / 4096 mod 64 - 128) * 4096
      + (128 + c / 64 mod 64 - 128) * 64 + (128 + c mod 64 - 128) = c) as -> by (Z.div_mod_to_equations; lia).
    unfold cont_byte. repeat case_match; bool_inv; try lia; try done.
    all: exfalso; repeat match goal with H : _ && _ = false |- _ => apply andb_false_iff in H as [H|H] end; bool_inv; lia.
Qed.

Lemma utf8_char_length c b : utf8_char c = Some b → (1 ≤ length b)%nat.
Proof. unfold utf8_char. intros. repeat case_match; simplify_eq; cbn; lia. Qed.

Lemma utf8_decode_go_encode s b fuel :
  Forall code_point s → utf8_encode s = Some b → (length b ≤ fuel)%nat → utf8_decode_go fuel b = Some s.
Proof.
  intros Hs. revert b fuel. induction Hs as [|c s Hc Hs IH]; intros b fuel Hb Hf.
  - injection Hb as <-. by destruct fuel.
  - rewrite utf8_encode_cons in Hb. destruct (utf8_char c) as [x|] eqn:Hx; [|done]. cbn in Hb.
    destruct (utf8_encode s) as [y|] eqn:Hy; [|done]. cbn in Hb. injection Hb as <-.
    pose proof (utf8_char_length _ _ Hx). rewrite length_app in Hf.
    pose proof (utf8_head_char c x y Hc Hx) as Hh.
    destruct x as [|x0 x]; [cbn in *; lia|]. destruct fuel as [|fuel]; [cbn in *; lia|].
    cbn [app utf8_decode_go]. cbn [app] in Hh. rewrite Hh. rewrite app_comm_cons, drop_app_length.
    rewrite (IH y); [done|done|cbn in *; lia].
Qed.

(** Decoding inverts encoding. *)
Lemma utf8_decode_encode s b :
  Forall code_point s → utf8_encode s = Some b → utf8_decode b = Some s.
Proof. intros Hs Hb. by apply utf8_decode_go_encode. Qed.

(** * Base64 *)

(** The digit of a value in the standard alphabet with [62] and [63] written as given. *)
Definition b64_char (c62 c63 v : Z) : Z :=
  if v <? 26 then 65 + v else if v <? 52 then 71 + v else if v <? 62 then v - 4
  else if v =? 62 then c62 else c63.

Definition b64_val (c : Z) : option Z :=
  if (65 <=? c) && (c <=? 90) then Some (c - 65)
  else if (97 <=? c) && (c <=? 122) then Some (c - 71)
  else if (48 <=? c) && (c <=? 57) then Some (c + 4)
  else if c =? 43 then Some 62 else if c =? 47 then Some 63 else None.

(** [binascii.b2a_base64(l, newline=False)] *)
Fixpoint b2a (digit : Z → Z) (l : bytes) : str :=
  match l with
  | [] => []
  | [a] => [digit (a / 4); digit (a mod 4 * 16); 61; 61]
  | [a; b] => [digit (a / 4); digit (a mod 4 * 16 + b / 16); digit (b mod 16 * 4); 61]
  | a :: b :: c :: l =>
      digit (a / 4) :: digit (a mod 4 * 16 + b / 16) :: digit (b mod 16 * 4 + c / 64) :: digit (c mod 64) ::
      b2a digit l
  end.

(** The loop of [binascii.a2b_base64]: the position in the quad, the bits left over, the
    padding seen in this quad, and whether padding has started.  [None] is
    [binascii.Error]. *)
Fixpoint a2b (strict : bool) (quad_pos leftchar pads : Z) (padding_started : bool) (s : str) : option bytes :=
  match s with
  | [] => if quad_pos =? 0 then Some [] else None
  | c :: r =>
      if c =? 61 then
        if (2 <=? quad_pos) && (4 <=? quad_pos + (pads + 1)) then
          if strict && negb (bool_decide (r = [])) then None else Some []
        else a2b strict quad_pos leftchar (if 2 <=? quad_pos then pads + 1 else pads) true r
      else match b64_val c with
      | None => if strict then None else a2b strict quad_pos leftchar pads padding_started r
      | Some v =>
          if strict && padding_started then None
          else if quad_pos =? 0 then a2b strict 1 v 0 padding_started r
          else if quad_pos =? 1 then
            cons (leftchar * 4 + v / 16) <$> a2b strict 2 (v mod 16) 0 padding_started r
          else if quad_pos =? 2 then
            cons (leftchar * 16 + v / 4) <$> a2b strict 3 (v mod 4) 0 padding_started r
          else cons (leftchar * 64 + v) <$> a2b strict 0 0 0 padding_started r
      end
  end.

(** [base64.b64decode(s, validate=strict)]; strict decoding refuses leading padding. *)
Definition b64decode (strict : bool) (s : str) : option bytes :=
  if strict && bool_decide (head s = Some 61) then None else a2b strict 0 0 0 false s.

(** [base64.urlsafe_b64encode] and [urlsafe_b64decode] *)
Definition urlsafe_b64encode (l : bytes) : str := b2a (b64_char 45 95) l.
Definition urlsafe_b64decode (s : str) : option bytes :=
  b64decode false ((λ c, if c =? 45 then 43 else if c =? 95 then 47 else c) <$> s).

Lemma b64_val_char v : 0 ≤ v < 64 → b64_val (b64_char 43 47 v) = Some v ∧ b64_char 43 47 v ≠ 61.
Proof.
  intros Hv. unfold b64_val, b64_char.
  repeat case_match; bool_inv; split; try lia; try (f_equal; lia);
    repeat match goal with H : _ && _ = false |- _ => apply andb_false_iff in H as [H|H] end; bool_inv; lia.
Qed.

Lemma a2b_digit strict q left p v r : 0 ≤ v < 64 →
  a2b strict q left p false (b64_char 43 47 v :: r) =
    if q =? 0 then a2b strict 1 v 0 false r
    else if q =? 1 then cons (left * 4 + v / 16) <$> a2b strict 2 (v mod 16) 0 false r
    else if q =? 2 then cons (left * 16 + v / 4) <$> a2b strict 3 (v mod 4) 0 false r
    else cons (left * 64 + v) <$> a2b strict 0 0 0 false r.
Proof.
  intros [Hval Hne]%b64_val_char. cbn [a2b]. rewrite (proj2 (Z.eqb_neq _ 61)) by done. rewrite Hval.
  by rewrite andb_false_r.
Qed.

Lemma a2b_pad2 strict left : a2b strict 2 left 0 false [61; 61] = Some [].
Proof. by destruct strict. Qed.
Lemma a2b_pad1 strict left : a2b strict 3 left 0 false [61] = Some [].
Proof. by destruct strict. Qed.
Lemma option_fmap_Some {A B} (f : A → B) x : f <$> Some x = Some (f x).
Proof. done. Qed.

(** Base64 decoding, strict or not, inverts encoding. *)
Lemma a2b_b2a strict l : bytes_ok l → a2b strict 0 0 0 false (b2a (b64_char 43 47) l) = Some l.
Proof.
  induction l as [l IH] using (induction_ltof1 _ (@length Z)). unfold ltof in IH. intros Hl.
  destruct l as [|a [|b [|c l]]]; [done| | |]; unfold bytes_ok in Hl; rewrite !Forall_cons in Hl;
    cbn [b2a]; unfold byte_ok in *.
  - destruct Hl as [Ha _].
    rewrite !a2b_digit by (Z.div_mod_to_equations; lia). cbn [Z.eqb Pos.eqb]. rewrite a2b_pad2, option_fmap_Some.
    do 2 f_equal. Z.div_mod_to_equations; lia.
  - destruct Hl as (Ha & Hb & _).
    rewrite !a2b_digit by (Z.div_mod_to_equations; lia). cbn [Z.eqb Pos.eqb]. rewrite a2b_pad1, !option_fmap_Some.
    f_equal. repeat f_equal; Z.div_mod_to_equations; lia.
  - destruct Hl as (Ha & Hb & Hc & Hl).
    rewrite !a2b_digit by (Z.div_mod_to_equations; lia). cbn [Z.eqb Pos.eqb].
    rewrite IH by (done || (cbn; lia)). rewrite !option_fmap_Some. f_equal.
    repeat f_equal; Z.div_mod_to_equations; lia.
Qed.

Lemma b2a_translate l : bytes_ok l →
  (λ c, if c =? 45 then 43 else if c =? 95 then 47 else c) <$> b2a (b64_char 45 95) l = b2a (b64_char 43 47) l.
Proof.
  assert (∀ v, 0 ≤ v < 64 → (let c := b64_char 45 95 v in if c =? 45 then 43 else if c =? 95 then 47 else c)
    = b64_char 43 47 v) as Ht.
  { intros v Hv. unfold b64_char. cbv zeta. repeat case_match; bool_inv; lia. }
  cbv zeta in Ht.
  induction l as [l IH] using (induction_ltof1 _ (@length Z)). unfold ltof in IH. intros Hl.
  destruct l as [|a [|b [|c l]]]; [done| | |]; unfold bytes_ok in Hl; rewrite !Forall_cons in Hl;
    unfold byte_ok in *; cbn [b2a]; rewrite !fmap_cons.
  - rewrite !Ht by (Z.div_mod_to_equations; lia). done.
  - rewrite !Ht by (Z.div_mod_to_equations; lia). done.
  - destruct Hl as (? & ? & ? & ?). rewrite !Ht by (Z.div_mod_to_equations; lia).
    rewrite IH by (done || (cbn; lia)). done.
Qed.

Lemma urlsafe_roundtrip l : bytes_ok l → urlsafe_b64decode (urlsafe_b64encode l) = Some l.
Proof.
  intros Hl. unfold urlsafe_b64decode, urlsafe_b64encode, b64decode. rewrite b2a_translate by done.
  by apply a2b_b2a.
Qed.

Lemma length_b2a digit l : (length (b2a digit l) mod 4 = 0)%nat.
Proof.
  induction l as [l IH] using (induction_ltof1 _ (@length Z)). unfold ltof in IH.
  destruct l as [|a [|b [|c l]]]; [done..|]. cbn [b2a length].
  specialize (IH l ltac:(cbn; lia)). 
  replace (S (S (S (S (length (b2a digit l)))))) with (length (b2a digit l) + 1 * 4)%nat by lia.
  by rewrite Nat.Div0.mod_add.
Qed.

(** A property of the alphabet and of the padding holds of every encoded text. *)
Lemma Forall_b2a (P : Z → Prop) digit l :
  (∀ v, 0 ≤ v < 64 → P (digit v)) → P 61 → bytes_ok l → Forall P (b2a digit l).
Proof.
  intros Hd Hp. induction l as [l IH] using (induction_ltof1 _ (@length Z)). unfold ltof in IH. intros Hl.
  destruct l as [|a [|b [|c l]]]; [constructor| | |]; unfold bytes_ok in Hl; rewrite !Forall_cons in Hl;
    unfold byte_ok in *; cbn [b2a]; repeat constructor; try done;
    try (apply Hd; destruct_and?; Z.div_mod_to_equations; lia).
  apply IH; [cbn; lia|apply Hl].
Qed.

Lemma b64_ascii l : bytes_ok l → forallb is_ascii (b2a (b64_char 43 47) l) = true.
Proof.
  intros Hl. apply forallb_Forall, Forall_b2a; [|done..].
  intros v Hv. unfold b64_char, is_ascii. repeat case_match; bool_inv; lia.
Qed.

Lemma b64_roundtrip strict l : bytes_ok l → b64decode strict (b2a (b64_char 43 47) l) = Some l.
Proof.
  intros Hl. unfold b64decode. rewrite bool_decide_false, andb_false_r; [by apply a2b_b2a|].
  destruct l as [|a [|b [|c l]]]; [done| | |]; unfold bytes_ok in Hl; rewrite !Forall_cons in Hl; cbn [b2a head];
    intros [= He]; destruct Hl as [Ha _]; unfold byte_ok in Ha;
    eapply (proj2 (b64_val_char (a / 4) ltac:(Z.div_mod_to_equations; lia))); done.
Qed.
