(* ===== verification/JsonIndent.v ===== *)
(** The [json] module as the build tools use it: [json.dumps(v, sort_keys=True, indent=2)].
    Shown: loading what was dumped gives the value back with its dictionaries in key
    order. *)
From Stdlib Require Import ZArith Lia.
From stdpp Require Import base decidable strings numbers list sorting.
From S2P Require Import Prelude PyStr Json Codec.

Open Scope Z_scope.

(** The line break before an item at a depth: [indent=2]. *)
Definition new_line (depth : nat) : str := 10 :: replicate (2 * depth) 32.

(** The items of a container: each on a line of its own, with commas between them. *)
Fixpoint print_lines (depth : nat) (items : list str) : str :=
  match items with
  | [] => []
  | [i] => new_line depth ++ i
  | i :: items => new_line depth ++ i ++ 44 :: print_lines depth items
  end.

Fixpoint print_indented (ea : bool) (depth : nat) (v : pyval) : str :=
  match v with
  | PList ((_ :: _) as l) =>
      91 :: print_lines (S depth) (map (print_indented ea (S depth)) l) ++ new_line depth ++ [93]
  | PDict ((_ :: _) as kvs) =>
      123 :: print_lines (S depth) (map (λ p, print_string ea p.1 ++ 58 :: 32 :: print_indented ea (S depth) p.2) kvs)
      ++ new_line depth ++ [125]
  | _ => print_value ea v
  end.

(** [json.dumps(v, sort_keys=True, indent=2)] *)
Definition json_dumps_indented (v : pyval) : str := print_indented true 0 (canon v).

(** * Reading it back *)

Lemma skip_line depth s : skip_ws (new_line depth ++ s) = skip_ws s.
Proof.
  unfold skip_ws, new_line. cbn [app drop_while json_space Z.eqb Pos.eqb orb].
  induction (2 * depth)%nat as [|n IH]; [done|]. cbn [replicate app drop_while]. exact IH.
Qed.

Lemma new_line_delimited depth s : delimited (new_line depth ++ s).
Proof. unfold new_line. cbn. auto. Qed.

Section round_trip.
Context `{FloatText} (ea : bool).

Lemma print_indented_head depth v : plain v = true → ∃ c t, print_indented ea depth v = c :: t ∧ opens c.
Proof.
  intros Hv. destruct v as [| | | | |[|x l]|[|p kvs]]; try exact (print_value_head ea _ Hv);
    cbn [print_indented]; unfold opens; eexists _, _; (split; [reflexivity|lia]).
Qed.

Definition reads_back_indented (v : pyval) : Prop :=
  plain v = true → ∀ depth fuel r, (2 * length (print_indented ea depth v) ≤ fuel)%nat → delimited r →
  parse_value fuel (print_indented ea depth v ++ r) = Ok (v, r).

Definition print_entry (depth : nat) (p : str * pyval) : str :=
  print_string ea p.1 ++ 58 :: 32 :: print_indented ea depth p.2.

Lemma skip_ws_value depth v r : plain v = true →
  skip_ws (print_indented ea depth v ++ r) = print_indented ea depth v ++ r.
Proof. intros Hv. destruct (print_indented_head depth v Hv) as (c & t & -> & Hc). cbn [app]. apply skip_ws_open. auto. Qed.

Lemma parse_elements_indented d depth v l acc fuel r :
  Forall reads_back_indented (v :: l) → forallb plain (v :: l) = true →
  (2 * length (print_lines depth (map (print_indented ea d) (v :: l))) + 1 ≤ fuel)%nat →
  parse_elements fuel acc (skip_ws (print_lines depth (map (print_indented ea d) (v :: l)) ++ new_line (pred depth) ++ 93 :: r))
  = Ok (PList (rev acc ++ v :: l), r).
Proof.
  revert v acc fuel. induction l as [|w l IH]; intros v acc [|fuel] Hall Hpl Hf; try lia;
    apply Forall_cons in Hall as [Hv Hall]; cbn [forallb] in Hpl; apply andb_true_iff in Hpl as [Hpv Hpl].
  - cbn [map print_lines] in *. rewrite length_app in Hf. rewrite <- app_assoc, skip_line, skip_ws_value by done.
    cbn [parse_elements]. rewrite Hv by (done || lia || apply new_line_delimited).
    rewrite bind_Ok, skip_line, skip_ws_open by lia. done.
  - change (print_lines depth (map (print_indented ea d) (v :: w :: l)))
      with (new_line depth ++ print_indented ea d v ++ 44 :: print_lines depth (map (print_indented ea d) (w :: l))) in *.
    rewrite !length_app in Hf. cbn [length] in Hf. rewrite <- !app_assoc, skip_line, skip_ws_value by done.
    rewrite <- app_comm_cons. cbn [parse_elements].
    rewrite Hv by (done || lia || by left). rewrite bind_Ok, skip_ws_open by lia. cbv iota beta.
    rewrite IH by (done || lia). cbn. by rewrite <- app_assoc.
Qed.

Lemma parse_entry d k v acc fuel r :
  reads_back_indented v → forallb scalar k = true → plain v = true → k ∉ acc.*1 →
  (2 * length (print_entry d (k, v)) ≤ fuel)%nat → delimited r →
  parse_members (S fuel) acc (skip_ws (print_entry d (k, v) ++ r))
  = match skip_ws r with
    | 125 :: r => Ok (PDict (acc ++ [(k, v)]), r)
    | 44 :: r => parse_members fuel (acc ++ [(k, v)]) (skip_ws r)
    | _ => Err JSONDecodeError
    end.
Proof.
  intros Hv Hk Hpv Hnew Hf Hr. unfold print_entry in *. cbn [fst snd] in *.
  unfold print_string in *. rewrite length_app in Hf. cbn [length] in Hf.
  rewrite <- app_assoc, <- !app_comm_cons, <- app_assoc.
  rewrite skip_ws_open by (left; by left). cbn [parse_members app].
  pose proof (parse_print_string ea k (58 :: 32 :: print_indented ea d v ++ r) Hk) as Hs. cbv zeta in Hs.
  rewrite Hs, skip_ws_open by lia. cbv iota beta.
  change (skip_ws (32 :: ?x)) with (skip_ws x). rewrite skip_ws_value by done.
  rewrite Hv, bind_Ok, dict_set_fresh by (done || lia). done.
Qed.

Lemma parse_members_indented d depth k v kvs acc fuel r :
  Forall (λ p, reads_back_indented p.2) ((k, v) :: kvs) →
  forallb (λ p, forallb scalar p.1 && plain p.2) ((k, v) :: kvs) = true →
  NoDup (acc ++ (k, v) :: kvs).*1 →
  (2 * length (print_lines depth (map (print_entry d) ((k, v) :: kvs))) + 1 ≤ fuel)%nat →
  parse_members fuel acc (skip_ws (print_lines depth (map (print_entry d) ((k, v) :: kvs)) ++ new_line (pred depth) ++ 125 :: r))
  = Ok (PDict (acc ++ (k, v) :: kvs), r).
Proof.
  revert k v acc fuel. induction kvs as [|[k' w] kvs IH]; intros k v acc [|fuel] Hall Hpl Hnd Hf;
    try lia; apply Forall_cons in Hall as [Hv Hall]; cbn [forallb fst snd] in Hpl, Hv;
    apply andb_true_iff in Hpl as [Hpv Hpl]; apply andb_true_iff in Hpv as [Hk Hpv];
    assert (k ∉ acc.*1) as Hnew
      by (rewrite fmap_app in Hnd; apply NoDup_app in Hnd as (_ & Hd & _);
          intros Hin; apply (Hd k Hin); left).
  - cbn [map print_lines] in *. rewrite length_app in Hf. rewrite <- app_assoc, skip_line.
    rewrite parse_entry by (done || lia || apply new_line_delimited).
    by rewrite skip_line, skip_ws_open by lia.
  - change (print_lines depth (map (print_entry d) ((k, v) :: (k', w) :: kvs)))
      with (new_line depth ++ print_entry d (k, v) ++ 44 :: print_lines depth (map (print_entry d) ((k', w) :: kvs))) in *.
    rewrite !length_app in Hf. cbn [length] in Hf. rewrite <- !app_assoc, skip_line, <- app_comm_cons.
    rewrite parse_entry by (done || lia || by left). rewrite skip_ws_open by lia. cbv iota beta.
    pose proof (IH k' w (acc ++ [(k, v)]) fuel Hall Hpl) as IH'. rewrite <- app_assoc in IH'. cbn [app] in IH'.
    by rewrite IH' by (done || lia).
Qed.

Lemma first_line d depth l r x xs : l = x :: xs →
  (∃ c t, x = c :: t ∧ opens c) → ∃ c t, skip_ws (print_lines d l ++ new_line depth ++ r) = c :: t ∧ opens c.
Proof.
  intros -> (c & t & -> & Hc). destruct xs; cbn [print_lines]; rewrite <- !app_assoc, skip_line, <- app_comm_cons, skip_ws_open by auto;
    eexists _, _; (split; [reflexivity|done]).
Qed.

Lemma parse_indented v : reads_back_indented v.
Proof.
  induction v as [|b|z|f|s|l IH|kvs IH] using pyval_nested_ind; intros Hpl depth fuel r Hf Hr;
    try (apply parse_print; done).
  - destruct l as [|v l]; [by apply parse_print|]. destruct fuel as [|fuel]; [cbn in Hf; lia|].
    cbn [print_indented] in *. cbn [length] in Hf. rewrite !length_app in Hf.
    rewrite <- app_comm_cons, <- !app_assoc. cbn [parse_value Z.eqb Pos.eqb].
    pose proof (parse_elements_indented (S depth) (S depth) v l [] fuel r IH Hpl ltac:(lia)) as Hp.
    destruct (first_line (S depth) depth (map (print_indented ea (S depth)) (v :: l)) (93 :: r) _ _ eq_refl) as (c & t & Ht & Hc).
    { apply print_indented_head. cbn in Hpl. by apply andb_true_iff in Hpl as [? _]. }
    cbn [pred] in Hp. cbn [app] in *. rewrite Ht in *.
    etrans; [exact (not_close (λ r, Ok (PList [], r)) (parse_elements fuel []) c _ Hc)|exact Hp].
  - destruct kvs as [|[k v] kvs]; [by apply parse_print|]. destruct fuel as [|fuel]; [cbn in Hf; lia|].
    cbn [print_indented] in *. cbn [length] in Hf. rewrite !length_app in Hf.
    rewrite <- app_comm_cons, <- !app_assoc. cbn [parse_value Z.eqb Pos.eqb]. cbn [plain] in Hpl.
    apply andb_true_iff in Hpl as [Hpl Hnd]. apply bool_decide_eq_true in Hnd.
    change (λ p : str * pyval, print_string ea p.1 ++ 58 :: 32 :: print_indented ea (S depth) p.2) with (print_entry (S depth)) in *.
    pose proof (parse_members_indented (S depth) (S depth) k v kvs [] fuel r IH Hpl Hnd ltac:(lia)) as Hp.
    destruct (first_line (S depth) depth (map (print_entry (S depth)) ((k, v) :: kvs)) (125 :: r) _ _ eq_refl) as (c & t & Ht & Hc).
    { unfold print_entry, print_string. cbn [fst app]. eexists _, _. split; [reflexivity|]. unfold opens. lia. }
    cbn [pred] in Hp. cbn [app] in *. rewrite Ht in *. cbn [app] in Hp.
    rewrite <- Hp. unfold opens in Hc. destruct c as [|p|p]; try done; repeat (destruct p as [p|p|]; try done); lia.
Qed.
End round_trip.

(** Loading an indented dump, with a newline after it. *)
Lemma json_loads_indented `{FloatText} v :
  plain v = true → json_loads (json_dumps_indented v ++ [10]) = Ok (canon v).
Proof.
  intros Hv. rewrite <- plain_canon in Hv. unfold json_loads, json_dumps_indented.
  rewrite skip_ws_value by done. rewrite (parse_indented true (canon v)); [done|done| |cbn; auto].
  rewrite length_app. lia.
Qed.

(** * The order of keys *)

Lemma str_leb_refl a : str_leb a a = true.
Proof. induction a as [|x a IH]; [done|]. cbn. by rewrite Z.eqb_refl. Qed.

Lemma str_leb_trans a b c : str_leb a b = true → str_leb b c = true → str_leb a c = true.
Proof.
  revert b c. induction a as [|x a IH]; intros [|y b] [|z c]; cbn; try done.
  destruct (Z.eqb_spec x y) as [->|Hxy]; [destruct (Z.eqb_spec y z); [apply IH|done]|].
  intros Hxy'. apply Z.ltb_lt in Hxy'. destruct (Z.eqb_spec y z) as [->|Hyz].
  - intros _. rewrite (proj2 (Z.eqb_neq x z)) by done. by apply Z.ltb_lt.
  - intros Hyz'. apply Z.ltb_lt in Hyz'. rewrite (proj2 (Z.eqb_neq x z)) by lia. apply Z.ltb_lt. lia.
Qed.

Lemma str_leb_total a b : str_leb a b = false → str_leb b a = true.
Proof.
  revert b. induction a as [|x a IH]; intros [|y b]; cbn; try done.
  destruct (Z.eqb_spec x y) as [->|Hxy]; [rewrite Z.eqb_refl; apply IH|].
  intros Hlt. apply Z.ltb_ge in Hlt. rewrite (proj2 (Z.eqb_neq y x)) by done. apply Z.ltb_lt. lia.
Qed.

Lemma str_leb_antisym a b : str_leb a b = true → str_leb b a = true → a = b.
Proof.
  revert b. induction a as [|x a IH]; intros [|y b]; cbn; try done.
  destruct (Z.eqb_spec x y) as [->|Hxy]; [rewrite Z.eqb_refl; intros; f_equal; auto|].
  rewrite (proj2 (Z.eqb_neq y x)) by done. rewrite !Z.ltb_lt. lia.
Qed.

Definition item_le {A} (p q : str * A) : Prop := str_leb p.1 q.1 = true.

#[export] Instance item_le_trans {A} : Transitive (@item_le A).
Proof. intros p q r. apply str_leb_trans. Qed.

Lemma insert_key_first {A} (p : str * A) l : Forall (item_le p) l → insert_key p l = p :: l.
Proof. intros [|q l' Hq _]; [done|]. cbn. by rewrite Hq. Qed.

Lemma insert_key_sorted {A} (p : str * A) l : StronglySorted item_le l → StronglySorted item_le (insert_key p l).
Proof.
  induction 1 as [|q l Hs IH Hq]; cbn; [by repeat constructor|]. destruct (str_leb p.1 q.1) eqn:Hpq.
  - constructor; [by constructor|]. constructor; [done|]. eapply Forall_impl; [exact Hq|]. intros r. by apply str_leb_trans.
  - constructor; [done|]. rewrite insert_key_perm. constructor; [by apply str_leb_total|done].
Qed.

Lemma sort_items_cons {A} (p : str * A) l : sort_items (p :: l) = insert_key p (sort_items l).
Proof. done. Qed.

Lemma sort_items_sorted {A} (l : list (str * A)) : StronglySorted item_le (sort_items l).
Proof. induction l; [constructor|]. by apply insert_key_sorted. Qed.

Lemma sort_sorted {A} (l : list (str * A)) : StronglySorted item_le l → sort_items l = l.
Proof. induction 1 as [|p l _ IH Hp]; [done|]. rewrite sort_items_cons, IH. by apply insert_key_first. Qed.

(** Keeping some of the keys and sorting can be done in any order. *)
Lemma filter_insert_key {A} (P : str * A → Prop) `{!∀ p, Decision (P p)} p l :
  StronglySorted item_le l → filter P (insert_key p l) = if decide (P p) then insert_key p (filter P l) else filter P l.
Proof.
  induction 1 as [|q l Hs IH Hq]; cbn [insert_key]; [by rewrite filter_cons|]. destruct (str_leb p.1 q.1) eqn:Hpq.
  - rewrite filter_cons. case_decide; [|done]. rewrite insert_key_first; [done|].
    assert (Forall (item_le p) (q :: l)) as Hall.
    { constructor; [done|]. eapply Forall_impl; [exact Hq|]. intros r. by apply str_leb_trans. }
    apply Forall_forall. intros r [_ Hr]%list_elem_of_filter. by eapply Forall_forall in Hall.
  - rewrite !filter_cons, IH. repeat case_decide; [|done..]. cbn [insert_key]. by rewrite Hpq.
Qed.

Lemma filter_sort_items {A} (P : str * A → Prop) `{!∀ p, Decision (P p)} l :
  filter P (sort_items l) = sort_items (filter P l).
Proof.
  induction l as [|p l IH]; [done|]. rewrite sort_items_cons, filter_insert_key by apply sort_items_sorted.
  rewrite IH, filter_cons. by case_decide; rewrite ?sort_items_cons.
Qed.

Lemma map_insert_key {A B} (f : A → B) p l :
  map (λ q, (q.1, f q.2)) (insert_key p l) = insert_key (p.1, f p.2) (map (λ q, (q.1, f q.2)) l).
Proof. induction l as [|q l IH]; [done|]. cbn. case_match; cbn; [done|]. by rewrite IH. Qed.

Lemma map_sort_items {A B} (f : A → B) l :
  map (λ q, (q.1, f q.2)) (sort_items l) = sort_items (map (λ q, (q.1, f q.2)) l).
Proof. induction l as [|q l IH]; [done|]. by rewrite sort_items_cons, map_insert_key, IH. Qed.

Lemma canon_idempotent v : canon (canon v) = canon v.
Proof.
  induction v as [| | | | |l IH|kvs IH] using pyval_nested_ind; try done; cbn; f_equal.
  - rewrite map_map. by apply map_ext_Forall.
  - rewrite map_sort_items, sort_sorted, map_map by apply sort_items_sorted.
    f_equal. apply map_ext_Forall. eapply Forall_impl; [exact IH|]. intros p Hp. cbn. by rewrite Hp.
Qed.

(** * Text of a dump *)

Lemma new_line_scalar depth : forallb scalar (new_line depth) = true.
Proof. unfold new_line. cbn [forallb]. induction (2 * depth)%nat as [|n IH]; [done|]. exact IH. Qed.

Lemma print_lines_scalar depth items :
  Forall (λ i, forallb scalar i = true) items → forallb scalar (print_lines depth items) = true.
Proof.
  induction 1 as [|i items Hi Hs IH]; [done|]. destruct items as [|j items]; cbn [print_lines].
  - by rewrite forallb_app, new_line_scalar.
  - rewrite !forallb_app, new_line_scalar, Hi. cbn [forallb andb]. exact IH.
Qed.

Lemma print_indented_scalar ea depth v : plain v = true → forallb scalar (print_indented ea depth v) = true.
Proof.
  revert depth. induction v as [| | | | |l IH|kvs IH] using pyval_nested_ind; intros depth Hv;
    try (by apply print_value_scalar).
  - destruct l as [|x l]; [done|]. cbn [print_indented]. set (l' := x :: l) in *. cbn [forallb]. rewrite !forallb_app, new_line_scalar.
    rewrite print_lines_scalar; [done|]. apply Forall_map. cbn [plain] in Hv. fold plain in Hv. apply forallb_Forall in Hv.
    rewrite Forall_forall in *. auto.
  - destruct kvs as [|x kvs]; [done|]. cbn [print_indented]. set (l' := x :: kvs) in *. cbn [forallb]. rewrite !forallb_app, new_line_scalar.
    rewrite print_lines_scalar; [done|]. apply Forall_map. cbn [plain] in Hv. apply andb_true_iff in Hv as [Hv _].
    apply forallb_Forall in Hv. rewrite Forall_forall in *. intros p Hp. apply Hv in Hp as Hb. apply andb_true_iff in Hb as [Hk Hb].
    rewrite forallb_app, print_string_scalar by done. cbn [forallb andb]. by apply (IH p).
Qed.

(** The bytes of a dump with a newline after it, and what they are read as. *)
Lemma indented_bytes v : plain v = true → ∃ b, utf8_encode (json_dumps_indented v ++ [10]) = Some b ∧ utf8_decode b = Some (json_dumps_indented v ++ [10]).
Proof.
  intros Hv. assert (forallb scalar (json_dumps_indented v ++ [10]) = true) as Hs.
  { rewrite forallb_app. unfold json_dumps_indented. by rewrite print_indented_scalar by by rewrite plain_canon. }
  destruct (scalar_utf8 _ Hs) as [b Hb]. exists b. split; [done|]. apply utf8_decode_encode; [|done]. by apply scalar_code_points.
Qed.
