(* ===== verification/Strkey.v ===== *)
(** Stellar StrKey validation ([src/backend/strkey.py]): the base32 codec, the
    CRC16-XMODEM checksum, [is_valid_strkey], the two field validators and the
    encoder [make_strkey].

    The bit buffers of [_decode_base32] and [_encode_base32] are Python's
    unbounded integers, so they are [Z] here with no wrap-around; the CRC register
    is masked to 16 bits exactly where the code masks it. *)
From Stdlib Require Import ZArith Lia.
From stdpp Require Import base decidable strings numbers list.
From S2P Require Import Prelude PyStr.

Open Scope Z_scope.

(** * Constants *)

Definition STELLAR_ALPHABET : str := lit "ABCDEFGHIJKLMNOPQRSTUVWXYZ234567".
Definition VERSION_BYTE_ED25519_PUBLIC : Z := Z.shiftl 6 3.
Definition VERSION_BYTE_CONTRACT : Z := Z.shiftl 2 3.
Definition STRKEY_ENCODED_LENGTH : Z := 56.
Definition STRKEY_DECODED_LENGTH : Z := 35.
Definition CRC16_POLY : Z := 4129.      (* 0x1021 *)
Definition CRC16_BIT_MASK : Z := 65535. (* 0xFFFF *)

(** The dictionary [_BASE32_DECODE]: [None] when the character is no key. *)
Definition BASE32_DECODE (c : Z) : option Z :=
  Z.of_nat ∘ fst <$> list_find (λ a, a = c) STELLAR_ALPHABET.

(** * Base32 *)

Record b32_state := B32 {
  b32_result : bytes;
  b32_bits : Z;
  b32_buffer : Z;
  b32_index : nat;
}.

(** One turn of the loop over the characters.  Writing past the end of the
    [bytearray] raises. *)
Definition decode_char (st : b32_state) (ch : Z) : result exn b32_state :=
  match BASE32_DECODE ch with
  | None => Err (ValueError "invalid StrKey character")
  | Some value =>
      let buffer := Z.lor (Z.shiftl (b32_buffer st) 5) value in
      let bits := b32_bits st + 5 in
      if 8 <=? bits then
        let bits := bits - 8 in
        if (b32_index st <? length (b32_result st))%nat then
          Ok (B32 (<[b32_index st := Z.land (Z.shiftr buffer bits) 255]> (b32_result st))
                  bits buffer (S (b32_index st)))
        else Err IndexError
      else Ok (B32 (b32_result st) bits buffer (b32_index st))
  end.

Definition decode_base32 (data : str) : result exn bytes :=
  ensure (zlen data =? STRKEY_ENCODED_LENGTH)
    (ValueError "StrKey must be 56 characters");;
  st ← result_foldl decode_char data
         (B32 (replicate (Z.to_nat STRKEY_DECODED_LENGTH) 0) 0 0 0);
  Ok (b32_result st).

(** The inner [while bits_in_buffer >= 5] of the encoder: the five-bit groups it
    appends and the bits left.  Each turn takes five bits away, so the number of
    bits is enough fuel. *)
Fixpoint flush_groups (fuel : nat) (buffer bits : Z) : list Z * Z :=
  match fuel with
  | O => ([], bits)
  | S fuel =>
      if 5 <=? bits then
        let bits := bits - 5 in
        let '(gs, rest) := flush_groups fuel buffer bits in
        (Z.land (Z.shiftr buffer bits) 31 :: gs, rest)
      else ([], bits)
  end.

(** The loop over the bytes; [_STELLAR_ALPHABET[idx]] is applied to the groups by
    [encode_base32]. *)
Fixpoint encode_groups (data : bytes) (buffer bits : Z) : list Z :=
  match data with
  | [] => if 0 <? bits then [Z.land (Z.shiftl buffer (5 - bits)) 31] else []
  | b :: data =>
      let buffer := Z.lor (Z.shiftl buffer 8) b in
      let bits := bits + 8 in
      let '(gs, bits) := flush_groups (Z.to_nat bits) buffer bits in
      gs ++ encode_groups data buffer bits
  end.

Definition alphabet_at (idx : Z) : Z := nth (Z.to_nat idx) STELLAR_ALPHABET 0.

Definition encode_base32 (data : bytes) : str :=
  alphabet_at <$> encode_groups data 0 0.

(** * CRC16-XMODEM *)

Definition crc_bit (crc : Z) : Z :=
  let crc := Z.shiftl crc 1 in
  if negb (Z.land crc 65536 =? 0) then Z.land (Z.lxor crc CRC16_POLY) CRC16_BIT_MASK else crc.

Definition crc_byte (crc byte_val : Z) : Z :=
  Nat.iter 8 crc_bit (Z.lxor crc (Z.shiftl byte_val 8)).

Definition crc16_xmodem (data : bytes) : Z := foldl crc_byte 0 data.

(** * Validation *)

Section validation.
Context `{Unicode}.

(** [is_valid_strkey] on a string and a version byte (an octet, so that the
    index into the alphabet is in range); a value of any other type is not
    valid, which is the first test of the code. *)
Definition is_valid_strkey (value : str) (expected_version_byte : Z) : bool :=
  if negb (zlen value =? STRKEY_ENCODED_LENGTH) then false else
  let normalised := py_upper value in
  let expected_prefix := alphabet_at (Z.shiftr expected_version_byte 3) in
  if negb (bool_decide (head normalised = Some expected_prefix)) then false else
  match decode_base32 normalised with
  | Err _ => false
  | Ok decoded =>
      let version_byte := nth 0 decoded 0 in
      if negb (version_byte =? expected_version_byte) then false else
      let payload := take 33 decoded in
      let expected_crc := Z.lor (Z.shiftl (nth 33 decoded 0) 8) (nth 34 decoded 0) in
      let computed_crc := crc16_xmodem payload in
      expected_crc =? computed_crc
  end.

(** The common shape of [validate_source_address] and [validate_contract_id]. *)
Definition validate_address (version : Z) (msg : string) (value : pyval) :
    result exn (option str) :=
  match value with
  | PNone => Ok None
  | PStr s =>
      let normalized := py_upper (py_strip s) in
      if is_valid_strkey normalized version then Ok (Some normalized)
      else Err (ValueError msg)
  | _ => Err (ValueError msg)
  end.

Definition validate_source_address (value : pyval) : result exn (option str) :=
  validate_address VERSION_BYTE_ED25519_PUBLIC
    "sourceAddress must be a valid Stellar G-address" value.

Definition validate_contract_id (value : pyval) : result exn (option str) :=
  validate_address VERSION_BYTE_CONTRACT
    "contractId must be a valid Stellar C-contract ID" value.
End validation.

(** * Encoding *)

Definition make_strkey (version_byte : Z) (payload : bytes) : result exn str :=
  ensure (zlen payload =? 32) (ValueError "payload must be 32 bytes");;
  ensure ((0 <=? version_byte) && (version_byte <? 256))
    (ValueError "byte must be in range(0, 256)");;
  let raw := version_byte :: payload in
  let crc := crc16_xmodem raw in
  Ok (encode_base32 (raw ++ [Z.land (Z.shiftr crc 8) 255; Z.land crc 255])).

(** * The base32 codec as positional notation *)

Lemma shiftr_land_31 b n : 0 ≤ n → Z.land (Z.shiftr b n) 31 = b / 2 ^ n mod 32.
Proof. intros. rewrite Z.shiftr_div_pow2 by done. by apply (land_ones_mod _ 5). Qed.

Lemma shiftr_land_255 b n : 0 ≤ n → Z.land (Z.shiftr b n) 255 = b / 2 ^ n mod 256.
Proof. intros. rewrite Z.shiftr_div_pow2 by done. by apply (land_ones_mod _ 8). Qed.

(** Shifting in the next group or byte. *)
Lemma div_pow2_group b n k :
  0 ≤ n → 0 ≤ k → b / 2 ^ (n + k) * 2 ^ k + b / 2 ^ n mod 2 ^ k = b / 2 ^ n.
Proof.
  intros. rewrite Z.pow_add_r, <- Z.div_div by lia.
  pose proof (Z.div_mod (b / 2 ^ n) (2 ^ k)). lia.
Qed.

Lemma flush_groups_spec fuel buffer bits gs rest v :
  0 ≤ bits ≤ Z.of_nat fuel → v = buffer / 2 ^ bits →
  flush_groups fuel buffer bits = (gs, rest) →
  0 ≤ rest < 5 ∧ bits = 5 * zlen gs + rest ∧ Forall (λ d, 0 ≤ d < 32) gs ∧
  foldl (λ acc d, acc * 32 + d) v gs = buffer / 2 ^ rest.
Proof.
  revert bits gs rest v. induction fuel as [|fuel IH]; intros bits gs rest v Hb Hv Hf; cbn in Hf.
  { simplify_eq. assert (rest = 0) as -> by lia. by repeat split; try (cbn; lia). }
  destruct (Z.leb_spec 5 bits).
  - destruct (flush_groups fuel buffer (bits - 5)) as [gs' r'] eqn:E. simplify_eq.
    apply (IH _ _ _ (buffer / 2 ^ (bits - 5))) in E as (Hr & Hlen & Hgs & Hv); [|lia|done].
    rewrite shiftr_land_31 by lia. repeat split; try lia.
    + unfold zlen in *. cbn [length]. lia.
    + constructor; [apply Z.mod_pos_bound; lia|done].
    + cbn [foldl]. rewrite <- Hv. f_equal.
      pose proof (div_pow2_group buffer (bits - 5) 5) as Hg.
      replace (bits - 5 + 5) with bits in Hg by lia. apply Hg; lia.
  - simplify_eq. by repeat split; try (cbn; lia).
Qed.

Lemma lor_shiftl_8 a b : byte_ok b → Z.lor (Z.shiftl a 8) b = a * 256 + b.
Proof. intros Hb. by rewrite lor_shiftl_add. Qed.

(** The groups of the encoder are the base-32 digits of the big-endian integer,
    when the number of bits is a multiple of five. *)
Lemma encode_groups_spec data buffer bits v :
  bytes_ok data → 0 ≤ bits < 5 → v = buffer / 2 ^ bits →
  (bits + 8 * zlen data) mod 5 = 0 →
  Forall (λ d, 0 ≤ d < 32) (encode_groups data buffer bits) ∧
  5 * zlen (encode_groups data buffer bits) = bits + 8 * zlen data ∧
  foldl (λ acc d, acc * 32 + d) v (encode_groups data buffer bits) =
    foldl (λ acc b, acc * 256 + b) buffer data.
Proof.
  intros Hd. revert buffer bits v. induction Hd as [|b data Hb Hd IH]; intros buffer bits v Hbits Hv Hmod.
  - cbn -[Z.mul Z.add] in *. rewrite Z.mul_0_r, Z.add_0_r, Z.mod_small in Hmod by lia. subst bits.
    cbn. rewrite Z.div_1_r in Hv. auto.
  - cbn [encode_groups]. rewrite lor_shiftl_8 by done.
    destruct (flush_groups _ _ _) as [gs rest] eqn:E.
    apply (flush_groups_spec _ _ _ _ _ v) in E as (Hr & Hlen & Hgs & Hval); [|lia|].
    2:{ rewrite Z.pow_add_r, (Z.mul_comm (2 ^ bits)), <- Z.div_div by lia.
        change (2 ^ 8) with 256. rewrite Z.div_add_l, (Z.div_small b) by (unfold byte_ok in *; lia).
        by rewrite Z.add_0_r. }
    unfold zlen in *. cbn [length] in *.
    destruct (IH (buffer * 256 + b) rest ((buffer * 256 + b) / 2 ^ rest)) as (Hg & Hl & Hv2); [lia|done|..].
    { rewrite <- Hmod. replace (bits + 8 * Z.of_nat (S (length data)))
        with (rest + 8 * Z.of_nat (length data) + Z.of_nat (length gs) * 5) by lia.
      by rewrite Z.mod_add. }
    repeat split.
    + by apply Forall_app.
    + rewrite length_app. lia.
    + rewrite foldl_app, Hval, Hv2. done.
Qed.

Lemma encode_groups_value data :
  bytes_ok data → (8 * zlen data) mod 5 = 0 →
  Forall (λ d, 0 ≤ d < 32) (encode_groups data 0 0) ∧
  5 * zlen (encode_groups data 0 0) = 8 * zlen data ∧
  value_of 32 (encode_groups data 0 0) = int_of_be data.
Proof. intros. by apply (encode_groups_spec data 0 0 0). Qed.

Lemma alphabet_decode d : 0 ≤ d < 32 → BASE32_DECODE (alphabet_at d) = Some d.
Proof.
  intros Hd. assert (d ∈ seqZ 0 32) as Hin by (apply elem_of_seqZ; lia). clear Hd. revert d Hin.
  apply Forall_forall. vm_compute. repeat constructor.
Qed.

Lemma BASE32_DECODE_range c d : BASE32_DECODE c = Some d → 0 ≤ d < 32 ∧ c = alphabet_at d.
Proof.
  unfold BASE32_DECODE, alphabet_at. intros ([i x] & (Hi & Hx & _)%list_find_Some & ->)%fmap_Some.
  subst x. unfold compose. cbn [fst]. rewrite Nat2Z.id.
  split; [|symmetry; by apply nth_lookup_Some].
  apply lookup_lt_Some in Hi. cbn in Hi. lia.
Qed.

(** The loop of the decoder: [out] is what it has written so far. *)
Definition dec_inv (n : nat) (vs : list Z) (st : b32_state) (out : bytes) : Prop :=
  b32_result st = out ++ replicate (n - length out) 0 ∧
  b32_index st = length out ∧ (length out ≤ n)%nat ∧
  b32_buffer st = value_of 32 vs ∧ 0 ≤ b32_bits st < 8 ∧
  5 * zlen vs = 8 * zlen out + b32_bits st ∧ bytes_ok out ∧
  int_of_be out = value_of 32 vs / 2 ^ b32_bits st.

Lemma value_of_snoc base vs d : value_of base (vs ++ [d]) = value_of base vs * base + d.
Proof. unfold value_of. by rewrite foldl_app. Qed.

Lemma int_of_be_snoc l b : int_of_be (l ++ [b]) = int_of_be l * 256 + b.
Proof. unfold int_of_be. by rewrite foldl_app. Qed.

Lemma decode_char_ok n vs st out ch v :
  dec_inv n vs st out → BASE32_DECODE ch = Some v → 5 * (zlen vs + 1) ≤ 8 * Z.of_nat n →
  ∃ st' out', decode_char st ch = Ok st' ∧ dec_inv n (vs ++ [v]) st' out'.
Proof.
  intros (Hres & Hidx & Hle & Hbuf & Hbits & Hlen & Hok & Hval) Hch Hroom.
  destruct (BASE32_DECODE_range _ _ Hch) as [Hv _]. unfold decode_char. rewrite Hch, Hbuf.
  rewrite lor_shiftl_add by (cbn; lia). change (2 ^ 5) with 32. rewrite <- value_of_snoc.
  destruct (Z.leb_spec 8 (b32_bits st + 5)) as [H8|H8].
  - assert (length out < n)%nat by (unfold zlen in *; lia).
    rewrite Hres, Hidx. rewrite (proj2 (Nat.ltb_lt _ _))
      by (rewrite length_app, length_replicate; lia).
    eexists _, (out ++ [_]). split; [reflexivity|].
    rewrite shiftr_land_255 by lia.
    unfold dec_inv, zlen in *. cbn. rewrite !length_app. cbn.
    repeat split; try lia.
    + rewrite insert_app_r_alt, Nat.sub_diag by lia.
      destruct (n - length out)%nat as [|m] eqn:E; [lia|]. cbn.
      rewrite <- app_assoc. cbn. do 3 f_equal. lia.
    + apply Forall_app. split; [done|]. constructor; [|done].
      apply Z.mod_pos_bound. lia.
    + rewrite int_of_be_snoc, Hval.
      etrans; [|apply (div_pow2_group _ (b32_bits st + 5 - 8) 8); lia].
      do 2 f_equal. replace (b32_bits st + 5 - 8 + 8) with (b32_bits st + 5) by lia.
      rewrite Z.pow_add_r, (Z.mul_comm (2 ^ _)), <- Z.div_div by lia. change (2 ^ 5) with 32.
      rewrite value_of_snoc, Z.div_add_l, (Z.div_small v) by lia. by rewrite Z.add_0_r.
  - eexists _, out. split; [reflexivity|]. unfold dec_inv, zlen in *. cbn.
    rewrite !length_app. cbn. repeat split; try lia; try done.
    rewrite Hval, Z.pow_add_r, (Z.mul_comm (2 ^ _)), <- Z.div_div by lia. change (2 ^ 5) with 32.
    rewrite value_of_snoc, Z.div_add_l, (Z.div_small v) by lia. by rewrite Z.add_0_r.
Qed.

Lemma decode_loop n vs0 st out data vs :
  dec_inv n vs0 st out → Forall2 (λ ch v, BASE32_DECODE ch = Some v) data vs →
  5 * (zlen vs0 + zlen vs) ≤ 8 * Z.of_nat n →
  ∃ st' out', result_foldl decode_char data st = Ok st' ∧ dec_inv n (vs0 ++ vs) st' out'.
Proof.
  intros Hinv Hall. revert vs0 st out Hinv.
  induction Hall as [|ch v data vs Hch Hall IH]; intros vs0 st out Hinv Hroom.
  - rewrite app_nil_r. eauto.
  - unfold zlen in *. cbn [length] in Hroom.
    destruct (decode_char_ok n vs0 st out ch v) as (st1 & out1 & E1 & Hinv1); [done|done|unfold zlen; lia|].
    cbn. rewrite E1. cbn. destruct (IH _ _ _ Hinv1) as (st2 & out2 & E2 & Hinv2).
    { rewrite length_app. cbn. lia. }
    rewrite <- app_assoc in Hinv2. eauto.
Qed.

(** A 56-character string over the alphabet decodes to the 35 bytes of the same
    integer. *)
Lemma decode_base32_value data vs :
  length data = 56%nat → Forall2 (λ ch v, BASE32_DECODE ch = Some v) data vs →
  ∃ out, decode_base32 data = Ok out ∧ bytes_ok out ∧ length out = 35%nat ∧
    int_of_be out = value_of 32 vs.
Proof.
  intros Hlen Hall. pose proof (Forall2_length _ _ _ Hall) as Hl.
  destruct (decode_loop 35 [] (B32 (replicate 35 0) 0 0 0) [] data vs) as (st & out & E & Hinv); [|done| |].
  { repeat split; cbn; try lia. constructor. }
  { unfold zlen. cbn [length]. lia. }
  destruct Hinv as (Hres & Hidx & Hle & Hbuf & Hbits & Hln & Hok & Hval).
  cbn [app] in *. unfold zlen in Hln.
  assert (length out = 35)%nat as Ho by lia. assert (b32_bits st = 0) as Hb by lia.
  exists out. unfold decode_base32, zlen. rewrite Hlen.
  change (Z.to_nat STRKEY_DECODED_LENGTH) with 35%nat. cbn -[replicate]. rewrite E. cbn.
  rewrite Hres, Ho, app_nil_r. rewrite Hb, Z.div_1_r in Hval. auto.
Qed.

Lemma decode_char_bad st ch : BASE32_DECODE ch = None → ∃ e, decode_char st ch = Err e.
Proof. intros Hn. unfold decode_char. rewrite Hn. eauto. Qed.

Lemma decode_loop_inv st st' data :
  result_foldl decode_char data st = Ok st' →
  ∃ vs, Forall2 (λ ch v, BASE32_DECODE ch = Some v) data vs.
Proof.
  revert st. induction data as [|ch data IH]; intros st E; [by exists []|].
  cbn in E. destruct (BASE32_DECODE ch) as [v|] eqn:Hch.
  - destruct (decode_char st ch); [|done]. apply IH in E as [vs Hvs].
    exists (v :: vs). by constructor.
  - destruct (decode_char_bad st ch Hch) as [e He]. by rewrite He in E.
Qed.

Lemma decode_base32_inv data out :
  decode_base32 data = Ok out →
  length data = 56%nat ∧ bytes_ok out ∧ length out = 35%nat ∧
  ∃ vs, Forall2 (λ ch v, BASE32_DECODE ch = Some v) data vs ∧ int_of_be out = value_of 32 vs.
Proof.
  intros E. pose proof E as E0. unfold decode_base32, ensure in E.
  destruct (zlen data =? STRKEY_ENCODED_LENGTH) eqn:Hl; [|done]. cbn [mbind result_bind] in E.
  destruct (result_foldl _ _ _) eqn:Hloop; [|done]. bool_inv.
  assert (length data = 56)%nat as Hlen by (unfold zlen, STRKEY_ENCODED_LENGTH in *; lia).
  apply decode_loop_inv in Hloop as [vs Hvs].
  destruct (decode_base32_value data vs Hlen Hvs) as (out' & E' & Hok & Ho & Hval).
  rewrite E0 in E'. simplify_eq. eauto 10.
Qed.

(** Encoding 35 bytes and decoding them again. *)
Lemma decode_encode_base32 raw :
  bytes_ok raw → length raw = 35%nat →
  length (encode_base32 raw) = 56%nat ∧ decode_base32 (encode_base32 raw) = Ok raw.
Proof.
  intros Hok Hlen. destruct (encode_groups_value raw Hok) as (Hg & Hl & Hv).
  { unfold zlen. by rewrite Hlen. }
  unfold zlen in Hl. rewrite Hlen in Hl.
  assert (length (encode_base32 raw) = 56%nat) as H56 by (unfold encode_base32; rewrite length_fmap; lia).
  split; [done|].
  destruct (decode_base32_value (encode_base32 raw) (encode_groups raw 0 0)) as (out & -> & Ho & Hol & Hval); [done| |].
  { unfold encode_base32. apply Forall2_fmap_l, Forall_Forall2_diag.
    eapply Forall_impl; [exact Hg|]. apply alphabet_decode. }
  f_equal. apply int_of_be_inj; congruence.
Qed.

(** * The CRC register is linear over GF(2) *)

Definition word16 (c : Z) : Prop := 0 ≤ c < 65536.

Lemma word16_bit c i : word16 c → 16 ≤ i → Z.testbit c i = false.
Proof.
  intros Hc Hi. destruct (Z.eq_dec c 0) as [->|]; [apply Z.bits_0|].
  apply Z.bits_above_log2; [unfold word16 in *; lia|].
  apply Z.log2_lt_pow2; [unfold word16 in *; lia|].
  eapply Z.lt_le_trans; [apply Hc|]. by apply (Z.pow_le_mono_r 2 16).
Qed.

Lemma word16_bits c : 0 ≤ c → (∀ i, 16 ≤ i → Z.testbit c i = false) → word16 c.
Proof.
  intros Hc Hbits. split; [done|]. destruct (Z.eq_dec c 0) as [->|]; [lia|].
  apply (Z.log2_lt_pow2 c 16); [lia|].
  destruct (Z.lt_ge_cases (Z.log2 c) 16) as [|Hge]; [done|].
  specialize (Hbits (Z.log2 c) Hge). rewrite Z.bit_log2 in Hbits; [done|lia].
Qed.

Lemma word16_lxor a b : word16 a → word16 b → word16 (Z.lxor a b).
Proof.
  intros Ha Hb. apply word16_bits.
  - apply Z.lxor_nonneg. unfold word16 in *. lia.
  - intros. by rewrite Z.lxor_spec, !word16_bit.
Qed.

(** One register step, bit by bit. *)
Lemma crc_bit_spec c i :
  word16 c → 0 ≤ i →
  Z.testbit (crc_bit c) i =
    xorb (Z.testbit c (i - 1) && (i <? 16)) (Z.testbit c 15 && Z.testbit CRC16_POLY i).
Proof.
  intros Hc Hi. unfold crc_bit.
  assert (Z.land (Z.shiftl c 1) 65536 = if Z.testbit c 15 then 65536 else 0) as ->.
  { apply Z.bits_inj'. intros j Hj. rewrite Z.land_spec, Z.shiftl_spec by done.
    change 65536 with (2 ^ 16) at 1. rewrite Z.pow2_bits_eqb by done.
    destruct (Z.eqb_spec 16 j) as [<-|Hne].
    - change (16 - 1) with 15. by destruct (Z.testbit c 15).
    - rewrite andb_false_r. destruct (Z.testbit c 15); [|by rewrite Z.bits_0].
      change 65536 with (2 ^ 16). by rewrite Z.pow2_bits_false. }
  destruct (Z.testbit c 15) eqn:H15; cbn [negb Z.eqb andb].
  - rewrite Z.land_spec, Z.lxor_spec, Z.shiftl_spec by done.
    change CRC16_BIT_MASK with (Z.ones 16).
    destruct (Z.ltb_spec i 16).
    + rewrite Z.ones_spec_low by lia. by rewrite !andb_true_r.
    + rewrite Z.ones_spec_high, !andb_false_r by lia. symmetry.
      apply (word16_bit CRC16_POLY); [by unfold word16|done].
  - rewrite Z.shiftl_spec, xorb_false_r by done.
    destruct (Z.ltb_spec i 16); [by rewrite andb_true_r|].
    rewrite andb_false_r. destruct (Z.eq_dec i 16) as [->|]; [done|].
    apply word16_bit; [done|lia].
Qed.

Lemma crc_bit_word16 c : word16 c → word16 (crc_bit c).
Proof.
  intros Hc. apply word16_bits.
  - unfold crc_bit. destruct (negb _); [apply Z.land_nonneg; by right|].
    apply Z.shiftl_nonneg. unfold word16 in *. lia.
  - intros i Hi. rewrite crc_bit_spec by (done || lia).
    rewrite (proj2 (Z.ltb_ge _ _)) by lia.
    rewrite (word16_bit CRC16_POLY) by (done || by unfold word16). by rewrite !andb_false_r.
Qed.

Lemma crc_bit_lxor a b :
  word16 a → word16 b → crc_bit (Z.lxor a b) = Z.lxor (crc_bit a) (crc_bit b).
Proof.
  intros Ha Hb. apply Z.bits_inj'. intros i Hi.
  rewrite Z.lxor_spec, !crc_bit_spec by auto using word16_lxor. rewrite !Z.lxor_spec.
  by destruct (Z.testbit a (i - 1)), (Z.testbit b (i - 1)), (Z.testbit a 15),
    (Z.testbit b 15), (i <? 16), (Z.testbit CRC16_POLY i).
Qed.

Lemma crc_bit_zero c : word16 c → crc_bit c = 0 → c = 0.
Proof.
  intros Hc Hz. assert (∀ i, 0 ≤ i → Z.testbit (crc_bit c) i = false) as Hb
    by (intros; by rewrite Hz, Z.bits_0).
  assert (Z.testbit c 15 = false) as H15.
  { specialize (Hb 0). rewrite crc_bit_spec in Hb by (done || lia).
    rewrite (Z.testbit_neg_r c) in Hb by lia.
    change (Z.testbit CRC16_POLY 0) with true in Hb. cbn [andb xorb] in Hb.
    rewrite andb_true_r in Hb. by apply Hb. }
  apply Z.bits_inj'. intros i Hi. rewrite Z.bits_0.
  destruct (Z.lt_ge_cases i 15).
  - specialize (Hb (i + 1)). rewrite crc_bit_spec, H15 in Hb by (done || lia).
    rewrite (proj2 (Z.ltb_lt _ _)), andb_true_r, xorb_false_r in Hb by lia.
    replace (i + 1 - 1) with i in Hb by lia. apply Hb. lia.
  - destruct (Z.eq_dec i 15) as [->|]; [done|]. apply word16_bit; [done|lia].
Qed.

(** Eight register steps. *)
Definition crc_shift (c : Z) : Z := Nat.iter 8 crc_bit c.

Lemma iter_crc_bit_word16 n c : word16 c → word16 (Nat.iter n crc_bit c).
Proof. intros. induction n; [done|]. rewrite Nat.iter_succ. auto using crc_bit_word16. Qed.

Lemma crc_bit_inj a b : word16 a → word16 b → crc_bit a = crc_bit b → a = b.
Proof.
  intros Ha Hb Heq. apply Z.lxor_eq, crc_bit_zero; [by apply word16_lxor|].
  by rewrite crc_bit_lxor, Heq, Z.lxor_nilpotent.
Qed.

Lemma iter_crc_bit_inj n a b :
  word16 a → word16 b → Nat.iter n crc_bit a = Nat.iter n crc_bit b → a = b.
Proof.
  intros Ha Hb. induction n as [|n IH]; [done|]. rewrite !Nat.iter_succ.
  intros Heq. apply IH, crc_bit_inj; auto using iter_crc_bit_word16.
Qed.

Lemma iter_crc_bit_lxor n a b :
  word16 a → word16 b →
  Nat.iter n crc_bit (Z.lxor a b) = Z.lxor (Nat.iter n crc_bit a) (Nat.iter n crc_bit b).
Proof.
  intros Ha Hb. induction n as [|n IH]; [done|]. rewrite !Nat.iter_succ.
  by rewrite IH, crc_bit_lxor by auto using iter_crc_bit_word16.
Qed.

Lemma word16_byte_high b : byte_ok b → word16 (Z.shiftl b 8).
Proof. unfold byte_ok, word16. intros. rewrite Z.shiftl_mul_pow2 by done. lia. Qed.

Lemma crc_byte_word16 c b : word16 c → byte_ok b → word16 (crc_byte c b).
Proof. intros. apply iter_crc_bit_word16, word16_lxor; auto using word16_byte_high. Qed.

Lemma crc_fold_word16 data c : word16 c → bytes_ok data → word16 (foldl crc_byte c data).
Proof.
  intros Hc Hd. revert c Hc. induction Hd; intros; cbn [foldl]; auto using crc_byte_word16.
Qed.

Lemma crc_fold_state_inj data c c' :
  word16 c → word16 c' → bytes_ok data →
  foldl crc_byte c data = foldl crc_byte c' data → c = c'.
Proof.
  intros Hc Hc' Hd. revert c c' Hc Hc'. induction Hd as [|b data Hb Hd IH]; intros c c' Hc Hc' Heq; [done|].
  cbn [foldl] in Heq. apply IH in Heq; [|by apply crc_byte_word16..].
  apply iter_crc_bit_inj in Heq; [|by apply word16_lxor; auto using word16_byte_high..].
  apply (f_equal (λ x, Z.lxor x (Z.shiftl b 8))) in Heq.
  by rewrite !Z.lxor_assoc, Z.lxor_nilpotent, !Z.lxor_0_r in Heq.
Qed.

(** Over the 256 bytes: a byte in the high half of the register leaves a non-zero
    low half after eight steps unless it was zero, and a byte in the low half
    moves up unchanged. *)
Lemma crc_shift_table b :
  byte_ok b → crc_shift b = Z.shiftl b 8 ∧
    (crc_shift (Z.shiftl b 8) mod 256 = 0 → b = 0).
Proof.
  intros Hb. assert (b ∈ seqZ 0 256) as Hin by (apply elem_of_seqZ; unfold byte_ok in *; lia).
  clear Hb. revert b Hin. apply Forall_forall.
  apply (Forall_impl (λ b, crc_shift b = Z.shiftl b 8 ∧
    ((crc_shift (Z.shiftl b 8) mod 256 =? 0) && negb (b =? 0)) = false)).
  - apply (bool_decide_unpack _). vm_compute. done.
  - intros b [H1 H2]. split; [done|]. intros H3. rewrite H3 in H2.
    by destruct (Z.eqb_spec b 0).
Qed.

Lemma lxor_byte a b : byte_ok a → byte_ok b → byte_ok (Z.lxor a b).
Proof.
  intros Ha Hb. assert (∀ x, byte_ok x ↔ 0 ≤ x ∧ x = Z.land x 255) as Hbyte.
  { intros x. change 255 with (2 ^ 8 - 1). rewrite land_ones_mod by done.
    change (2 ^ 8) with 256. unfold byte_ok.
    split; [intros; rewrite Z.mod_small; lia|].
    intros [? ->]. pose proof (Z.mod_pos_bound x 256). lia. }
  rewrite Hbyte in *. split; [apply Z.lxor_nonneg; lia|].
  destruct Ha as [_ Ha], Hb as [_ Hb]. rewrite Ha, Hb at 1.
  apply Z.bits_inj'. intros i Hi. rewrite !Z.lxor_spec, !Z.land_spec, Z.lxor_spec.
  by destruct (Z.testbit a i), (Z.testbit b i), (Z.testbit 255 i).
Qed.

Lemma crc_byte_shift c b : crc_byte c b = crc_shift (Z.lxor c (Z.shiftl b 8)).
Proof. done. Qed.

Lemma crc_shift_inj a b : word16 a → word16 b → crc_shift a = crc_shift b → a = b.
Proof. apply (iter_crc_bit_inj 8). Qed.

Lemma crc_shift_lxor a b :
  word16 a → word16 b → crc_shift (Z.lxor a b) = Z.lxor (crc_shift a) (crc_shift b).
Proof. apply (iter_crc_bit_lxor 8). Qed.

Lemma crc_shift_0 : crc_shift 0 = 0.
Proof. done. Qed.

#[local] Opaque crc_shift.

(** Two bytes drive the register injectively from any state. *)
Lemma crc_shift_equal_cancel sc sa sa' b b' :
  Z.lxor (Z.lxor sc sa) b = Z.lxor (Z.lxor sc sa') b' → Z.lxor sa sa' = Z.lxor b b'.
Proof.
  intros Heq. apply Z.bits_inj'. intros i Hi. apply (f_equal (λ x, Z.testbit x i)) in Heq.
  rewrite !Z.lxor_spec in *.
  by destruct (Z.testbit sc i), (Z.testbit sa i), (Z.testbit sa' i), (Z.testbit b i),
    (Z.testbit b' i).
Qed.

Lemma foldl_two {A B} (f : A → B → A) c a b : foldl f c [a; b] = f (f c a) b.
Proof. done. Qed.

Lemma crc_two_bytes_inj c a b a' b' :
  word16 c → byte_ok a → byte_ok b → byte_ok a' → byte_ok b' →
  foldl crc_byte c [a; b] = foldl crc_byte c [a'; b'] → a = a' ∧ b = b'.
Proof.
  intros Hc Ha Hb Ha' Hb' Heq. rewrite !foldl_two in Heq.
  rewrite (crc_byte_shift _ b), (crc_byte_shift _ b') in Heq.
  apply crc_shift_inj in Heq; [|apply word16_lxor; auto using crc_byte_word16, word16_byte_high..].
  rewrite !crc_byte_shift, !crc_shift_lxor in Heq by auto using word16_byte_high.
  apply crc_shift_equal_cancel in Heq.
  rewrite <- crc_shift_lxor, <- !Z.shiftl_lxor in Heq by auto using word16_byte_high.
  assert (Z.lxor a a' = 0) as Haa.
  { destruct (crc_shift_table (Z.lxor a a')) as [_ Htab]; [by apply lxor_byte|].
    apply Htab. rewrite Heq, Z.shiftl_mul_pow2 by done. by apply Z.mod_mul. }
  rewrite Haa, Z.shiftl_0_l, crc_shift_0 in Heq.
  apply Z.lxor_eq in Haa. split; [done|]. apply Z.lxor_eq.
  rewrite Z.shiftl_mul_pow2 in Heq by done. lia.
Qed.

(** * Valid keys *)

Lemma be_of_int_app n m z :
  be_of_int (n + m) z = be_of_int n (z / 256 ^ Z.of_nat m) ++ be_of_int m z.
Proof.
  induction n as [|n IH]; [done|]. cbn. f_equal; [|done].
  rewrite Z.div_div, <- Z.pow_add_r by lia. do 3 f_equal. lia.
Qed.

(** Two integers that differ in one five-bit group agree outside two bytes. *)
Lemma group_window a v v' b m :
  0 ≤ m ≤ 275 → 0 ≤ v < 32 → 0 ≤ v' < 32 → 0 ≤ b < 2 ^ m →
  let z := (a * 32 + v) * 2 ^ m + b in
  let z' := (a * 32 + v') * 2 ^ m + b in
  ∃ n q : nat, (n + 2 + q = 35)%nat ∧
    be_of_int n (z / 256 ^ Z.of_nat (2 + q)) = be_of_int n (z' / 256 ^ Z.of_nat (2 + q)) ∧
    be_of_int q z = be_of_int q z'.
Proof.
  intros Hm Hv Hv' Hb z z'. set (qz := Z.min (m / 8) 33).
  assert (0 ≤ qz ≤ 33 ∧ 8 * qz ≤ m ≤ 8 * qz + 11) as Hq.
  { pose proof (Z.div_mod m 8). pose proof (Z.mod_pos_bound m 8). unfold qz. lia. }
  exists (33 - Z.to_nat qz)%nat, (Z.to_nat qz). split; [lia|].
  assert (∀ k, 0 ≤ k → 256 ^ k = 2 ^ (8 * k)) as H256 by (intros; by rewrite Z.pow_mul_r).
  split.
  - f_equal. rewrite H256 by lia.
    replace (8 * Z.of_nat (2 + Z.to_nat qz)) with (m + 5 + (8 * qz + 11 - m)) by lia.
    rewrite Z.pow_add_r, <- !Z.div_div by lia. f_equal.
    assert (∀ w, 0 ≤ w < 32 → ((a * 32 + w) * 2 ^ m + b) / 2 ^ (m + 5) = a) as Hdiv.
    { intros w Hw. rewrite Z.pow_add_r, <- Z.div_div, Z.div_add_l, (Z.div_small b) by lia.
      rewrite Z.add_0_r. change (2 ^ 5) with 32. rewrite Z.div_add_l, (Z.div_small w) by lia. lia. }
    unfold z, z'. by rewrite !Hdiv.
  - rewrite <- (be_of_int_mod _ (Z.to_nat qz) z), <- (be_of_int_mod _ (Z.to_nat qz) z') by lia.
    f_equal. rewrite H256 by lia. replace (8 * Z.of_nat (Z.to_nat qz)) with (8 * qz) by lia.
    assert (∀ w, ((a * 32 + w) * 2 ^ m + b) mod 2 ^ (8 * qz) = b mod 2 ^ (8 * qz)) as Hmod.
    { intros w. replace m with (m - 8 * qz + 8 * qz) by lia.
      rewrite Z.pow_add_r, Z.mul_assoc, Z.add_comm, Z.mod_add by lia. done. }
    unfold z, z'. by rewrite !Hmod.
Qed.

(** A decoded key whose checksum matches drives the register to zero. *)
Lemma checksum_zero d :
  bytes_ok d → length d = 35%nat →
  Z.lor (Z.shiftl (nth 33 d 0) 8) (nth 34 d 0) = crc16_xmodem (take 33 d) →
  foldl crc_byte 0 d = 0.
Proof.
  intros Hok Hlen Heq. destruct (drop 33 d) as [|h [|l []]] eqn:Hd.
  1,2,4: apply (f_equal length) in Hd; rewrite length_drop, Hlen in Hd; done.
  assert (d = take 33 d ++ [h; l]) as Hsplit by (rewrite <- Hd; symmetry; apply take_drop).
  assert (nth 33 d 0 = h ∧ nth 34 d 0 = l) as [Hh Hl].
  { rewrite Hsplit. by rewrite !app_nth2, !length_take, !Hlen by (rewrite length_take, Hlen; lia). }
  rewrite Hh, Hl in Heq. rewrite Hsplit in Hok. apply Forall_app in Hok as [Hp Hhl].
  apply Forall_cons in Hhl as [Hhb Hhl]. apply Forall_cons in Hhl as [Hlb _].
  rewrite Hsplit, foldl_app, foldl_two. fold (crc16_xmodem (take 33 d)).
  rewrite <- Heq, !crc_byte_shift.
  assert (Z.lxor (Z.lor (Z.shiftl h 8) l) (Z.shiftl h 8) = l) as ->.
  { apply Z.bits_inj'. intros i Hi. rewrite Z.lxor_spec, Z.lor_spec.
    destruct (Z.lt_ge_cases i 8).
    - rewrite Z.shiftl_spec_low by done. by destruct (Z.testbit l i).
    - replace (Z.testbit l i) with false; [by destruct (Z.testbit _ i)|].
      symmetry. destruct (Z.eq_dec l 0) as [->|]; [apply Z.bits_0|].
      apply Z.bits_above_log2; [unfold byte_ok in *; lia|].
      assert (Z.log2 l < 8); [|lia]. apply Z.log2_lt_pow2; unfold byte_ok in *; lia. }
  rewrite (proj1 (crc_shift_table l Hlb)), Z.lxor_nilpotent. apply crc_shift_0.
Qed.

Definition in_alphabet (s : str) : Prop := Forall (λ c, c ∈ STELLAR_ALPHABET) s.

Lemma alphabet_upper c : c ∈ STELLAR_ALPHABET → c < 128 ∧ ascii_upper c = c ∧ is_Some (BASE32_DECODE c).
Proof.
  revert c. apply Forall_forall. cbn. repeat constructor; eauto.
Qed.

Lemma py_upper_alphabet `{Unicode} s : in_alphabet s → py_upper s = s.
Proof.
  intros Hs. rewrite py_upper_ascii.
  - induction Hs as [|c s Hc Hs IH]; [done|]. cbn. f_equal; [by apply alphabet_upper|done].
  - eapply Forall_impl; [exact Hs|]. intros c Hc. by apply alphabet_upper.
Qed.

Lemma alphabet_values s :
  in_alphabet s → ∃ vs, Forall2 (λ ch v, BASE32_DECODE ch = Some v) s vs.
Proof.
  induction 1 as [|c s Hc Hs [vs IH]]; [by exists []|].
  apply alphabet_upper in Hc as (_ & _ & [v Hv]). exists (v :: vs). by constructor.
Qed.

(** The tests of [is_valid_strkey] on a normalised string. *)
Lemma is_valid_strkey_inv `{Unicode} s vb :
  is_valid_strkey s vb = true →
  length s = 56%nat ∧
  ∃ d, decode_base32 (py_upper s) = Ok d ∧ bytes_ok d ∧ length d = 35%nat ∧
    nth 0 d 0 = vb ∧ foldl crc_byte 0 d = 0.
Proof.
  unfold is_valid_strkey, zlen, STRKEY_ENCODED_LENGTH. intros Hv.
  destruct (Z.eqb_spec (Z.of_nat (length s)) 56) as [Hlen|]; cbn in Hv; [|done].
  case_bool_decide; cbn in Hv; [|done].
  destruct (decode_base32 (py_upper s)) as [d|] eqn:Hd; [|done].
  destruct (decode_base32_inv _ _ Hd) as (_ & Hok & Hdl & _).
  destruct (Z.eqb_spec (nth 0 d 0) vb) as [Hvb|]; cbn -[nth] in Hv; [|done]. bool_inv.
  split; [lia|]. exists d. repeat split; auto. by apply checksum_zero.
Qed.

Lemma encode_base32_head vb rest :
  byte_ok vb → head (encode_base32 (vb :: rest)) = Some (alphabet_at (Z.shiftr vb 3)).
Proof.
  intros Hvb. unfold encode_base32. cbn [encode_groups]. rewrite lor_shiftl_8 by done.
  replace (0 * 256 + vb) with vb by lia.
  assert (flush_groups (Z.to_nat (0 + 8)) vb (0 + 8) = ([Z.land (Z.shiftr vb 3) 31], 3)) as ->
    by reflexivity.
  rewrite shiftr_land_31, Z.shiftr_div_pow2 by done. cbn [app fmap list_fmap head]. do 2 f_equal.
  apply Z.mod_small. change (2 ^ 3) with 8. unfold byte_ok in Hvb.
  split; [apply Z.div_pos|apply Z.div_lt_upper_bound]; lia.
Qed.

Lemma encode_base32_alphabet data :
  bytes_ok data → (8 * zlen data) mod 5 = 0 → in_alphabet (encode_base32 data).
Proof.
  intros Hok Hmod. destruct (encode_groups_value data Hok Hmod) as (Hg & _ & _).
  unfold in_alphabet, encode_base32. apply Forall_fmap. eapply Forall_impl; [exact Hg|].
  intros d Hd. unfold compose, alphabet_at. apply list_elem_of_In, nth_In. change (length STELLAR_ALPHABET) with 32%nat. cbn beta in Hd. lia.
Qed.

Lemma crc_bytes crc :
  word16 crc → byte_ok (Z.land (Z.shiftr crc 8) 255) ∧ byte_ok (Z.land crc 255) ∧
    Z.lor (Z.shiftl (Z.land (Z.shiftr crc 8) 255) 8) (Z.land crc 255) = crc.
Proof.
  intros Hc. assert (byte_ok (Z.land crc 255)) as Hlow.
  { change 255 with (2 ^ 8 - 1). rewrite land_ones_mod by done. by apply Z.mod_pos_bound. }
  rewrite lor_shiftl_8 by done. change (Z.land crc 255) with (Z.land crc (2 ^ 8 - 1)) in *.
  rewrite shiftr_land_255, land_ones_mod in * by done. unfold word16, byte_ok in *.
  change (2 ^ 8) with 256 in *. pose proof (Z.div_mod crc 256).
  rewrite (Z.mod_small (crc / 256)); [|split; [apply Z.div_pos|apply Z.div_lt_upper_bound]; lia].
  split; [|lia]. split; [apply Z.div_pos|apply Z.div_lt_upper_bound]; lia.
Qed.

(** Round trip of the StrKey codec: for every version byte and 32-byte payload,
    [make_strkey] returns a 56-character key that [_decode_base32] decodes to the
    version byte, the payload and the two checksum bytes, and that
    [is_valid_strkey] accepts for that version byte. *)
Theorem make_strkey_valid `{Unicode} vb payload :
  byte_ok vb → bytes_ok payload → length payload = 32%nat →
  ∃ s, make_strkey vb payload = Ok s ∧ length s = 56%nat ∧
    (∃ hi lo, decode_base32 s = Ok (vb :: payload ++ [hi; lo])) ∧
    is_valid_strkey s vb = true.
Proof.
  intros Hvb Hp Hlen. unfold make_strkey, zlen. rewrite Hlen.
  replace (_ && _) with true by (symmetry; rewrite andb_true_iff; unfold byte_ok in *; lia).
  cbn [ensure mbind result_bind Z.eqb Pos.eqb Z.of_nat Pos.of_succ_nat Pos.succ].
  set (crc := crc16_xmodem (vb :: payload)).
  assert (word16 crc) as Hcrc by (apply crc_fold_word16; [done|by constructor]).
  destruct (crc_bytes crc Hcrc) as (Hhi & Hlo & Hjoin).
  set (hi := Z.land (Z.shiftr crc 8) 255) in *. set (lo := Z.land crc 255) in *.
  set (raw := (vb :: payload) ++ [hi; lo]).
  assert (bytes_ok raw) as Hraw by (apply Forall_app; split; [by constructor|by do 2 (constructor; [done|])]).
  assert (length raw = 35%nat) as Hrl by (unfold raw; rewrite length_app; cbn; lia).
  destruct (decode_encode_base32 raw Hraw Hrl) as [H56 Hdec].
  eexists. split; [reflexivity|]. split; [done|]. split; [eauto|].
  unfold is_valid_strkey, zlen. rewrite H56. cbn [negb Z.eqb].
  rewrite py_upper_alphabet by (apply encode_base32_alphabet; [done|unfold zlen; by rewrite Hrl]).
  rewrite Hdec. change (encode_base32 raw) with (encode_base32 (vb :: payload ++ [hi; lo])).
  rewrite encode_base32_head, bool_decide_true by done. cbn [negb].
  change (nth 0 raw 0) with vb. rewrite Z.eqb_refl. cbn [negb].
  assert (take 33 raw = vb :: payload) as -> by (apply take_app_length'; cbn; lia).
  assert (nth 33 raw 0 = hi ∧ nth 34 raw 0 = lo) as [-> ->].
  { unfold raw. by rewrite !app_nth2; cbn [length]; rewrite ?Hlen; try lia. }
  fold crc. rewrite Hjoin. by rewrite !Z.eqb_refl.
Qed.

Lemma decode_changed_char A c c' B d d' :
  decode_base32 (A ++ c :: B) = Ok d → decode_base32 (A ++ c' :: B) = Ok d' → c ≠ c' →
  ∃ P M M' S, d = P ++ M ++ S ∧ d' = P ++ M' ++ S ∧ length M = 2%nat ∧ length M' = 2%nat ∧ M ≠ M'.
Proof.
  intros (Hl & Hok & Hdl & vs & Hvs & Hval)%decode_base32_inv
    (_ & Hok' & Hdl' & vs' & Hvs' & Hval')%decode_base32_inv Hne.
  apply Forall2_app_inv_l in Hvs as (va & vb & HA & HB & ->).
  apply Forall2_app_inv_l in Hvs' as (va' & vb' & HA' & HB' & ->).
  apply Forall2_cons_inv_l in HB as (v & vB & Hv & HB & ->).
  apply Forall2_cons_inv_l in HB' as (v' & vB' & Hv' & HB' & ->).
  assert (∀ l k k', Forall2 (λ ch v, BASE32_DECODE ch = Some v) l k →
    Forall2 (λ ch v, BASE32_DECODE ch = Some v) l k' → k = k') as Hfun.
  { clear. intros l k k' Hk. revert k'. induction Hk; intros k' Hk'; inversion Hk'; simplify_eq; f_equal; auto. }
  rewrite (Hfun _ _ _ HA' HA), (Hfun _ _ _ HB' HB) in Hval'. clear Hfun HA' HB'.
  destruct (BASE32_DECODE_range _ _ Hv) as [Hvr Hc], (BASE32_DECODE_range _ _ Hv') as [Hvr' Hc'].
  assert (Forall (λ d, 0 ≤ d < 32) vB) as HvB.
  { clear -HB. induction HB as [|x y l k Hx HB IH]; [constructor|].
    constructor; [by destruct (BASE32_DECODE_range _ _ Hx)|done]. }
  pose proof (value_of_bound 32 vB ltac:(lia) HvB) as Hb. unfold zlen in Hb.
  assert (∀ k, 0 ≤ k → 32 ^ k = 2 ^ (5 * k)) as H32 by (intros; by rewrite Z.pow_mul_r).
  rewrite H32 in Hb by lia.
  assert (∀ w, value_of 32 (va ++ w :: vB) =
    (value_of 32 va * 32 + w) * 2 ^ (5 * Z.of_nat (length vB)) + value_of 32 vB) as Hsplit.
  { intros w. replace (va ++ w :: vB) with ((va ++ [w]) ++ vB) by (by rewrite <- app_assoc).
    unfold value_of at 1. rewrite foldl_app, value_of_acc. fold (value_of 32 (va ++ [w])).
    rewrite value_of_snoc. unfold zlen. by rewrite H32 by lia. }
  rewrite Hsplit in Hval, Hval'.
  rewrite length_app in Hl. cbn in Hl. apply Forall2_length in HB.
  destruct (group_window (value_of 32 va) v v' (value_of 32 vB) (5 * Z.of_nat (length vB)))
    as (n & q & Hn & Hhigh & Hlow); [lia|done|done|done|].
  rewrite <- Hval, <- Hval' in Hhigh, Hlow.
  exists (be_of_int n (int_of_be d / 256 ^ Z.of_nat (2 + q))),
    (be_of_int 2 (int_of_be d / 256 ^ Z.of_nat q)),
    (be_of_int 2 (int_of_be d' / 256 ^ Z.of_nat q)), (be_of_int q (int_of_be d)).
  assert (d = be_of_int (n + (2 + q)) (int_of_be d)) as Hd.
  { rewrite <- (be_of_int_of_be d Hok) at 1. f_equal. lia. }
  assert (d' = be_of_int (n + (2 + q)) (int_of_be d')) as Hd'.
  { rewrite <- (be_of_int_of_be d' Hok') at 1. f_equal. lia. }
  rewrite (be_of_int_app n), (be_of_int_app 2) in Hd, Hd'. rewrite <- Hhigh, <- Hlow in Hd'.
  split_and!; [done|done|apply length_be_of_int|apply length_be_of_int|].
  intros HM. rewrite HM, <- Hd' in Hd. rewrite Hd, Hval' in Hval.
  assert (v = v') by nia. congruence.
Qed.

(** The checksum detects every single-character error: replacing one character
    of a valid key by a different character of the alphabet never gives a key that
    is valid for any version byte. *)
Theorem single_character_error_detected `{Unicode} A c c' B vb vb' :
  in_alphabet (A ++ c :: B) → c' ∈ STELLAR_ALPHABET → c' ≠ c →
  is_valid_strkey (A ++ c :: B) vb = true →
  is_valid_strkey (A ++ c' :: B) vb' = false.
Proof.
  intros Hs Hc' Hne Hvalid. apply not_true_is_false. intros Hvalid'.
  assert (in_alphabet (A ++ c' :: B)) as Hs'.
  { apply Forall_app in Hs as [HA HB]. apply Forall_cons in HB as [_ HB].
    apply Forall_app. split; [done|by constructor]. }
  apply is_valid_strkey_inv in Hvalid as (_ & d & Hd & Hok & _ & _ & Hz).
  apply is_valid_strkey_inv in Hvalid' as (_ & d' & Hd' & Hok' & _ & _ & Hz').
  rewrite py_upper_alphabet in Hd, Hd' by done.
  destruct (decode_changed_char _ _ _ _ _ _ Hd Hd') as (P & M & M' & S & -> & -> & HM & HM' & Hneq);
    [congruence|].
  apply Forall_app in Hok as [HP Hok]. apply Forall_app in Hok as [HbM HS].
  apply Forall_app in Hok' as [_ Hok']. apply Forall_app in Hok' as [HbM' _].
  rewrite !foldl_app in Hz, Hz'. set (st := foldl crc_byte 0 P) in *.
  assert (word16 st) as Hst by (by apply crc_fold_word16).
  rewrite <- Hz' in Hz. apply crc_fold_state_inj in Hz; [|by apply crc_fold_word16..|done].
  destruct M as [|a [|b []]]; [done|done| |done]. destruct M' as [|a' [|b' []]]; [done|done| |done].
  apply Forall_cons in HbM as [? HbM]. apply Forall_cons in HbM as [? _].
  apply Forall_cons in HbM' as [? HbM']. apply Forall_cons in HbM' as [? _].
  apply crc_two_bytes_inj in Hz as [-> ->]; done.
Qed.

(** The deployed addresses that README.md lists. *)
Definition readme_admin : str := lit "GDVRSXIO4SK2KSMUKJTQHMDDHBBFC7NGZZ6WLVOPKAG47GYPYAZCZR7G".
Definition readme_issuer : str := lit "GAJ3GSKWOCTI2B3ZQRTB7TWYYIX734VJLNGOMSIQSAGRMIGX6SSVMIB4".
Definition readme_registry : str := lit "CCKTQNMBLXZXMWVR2WG4HDDUI3QGJU5LV5NTLFPCB72UITWE5TEDK7BT".

(** The key decodes, its version byte is right and its checksum bytes are the CRC
    with the low byte first, which is the order of the StrKey format. *)
Definition checksum_low_byte_first (s : str) (vb : Z) : bool :=
  match decode_base32 s with
  | Ok d => (nth 0 d 0 =? vb) &&
            (nth 33 d 0 + 256 * nth 34 d 0 =? crc16_xmodem (take 33 d))
  | Err _ => false
  end.

(** The checksum is read high byte first, so the addresses the project is
    deployed under are rejected: the admin, issuer and registry addresses of
    README.md decode with the right version byte and the CRC of their first 33
    bytes stored low byte first, and [validate_source_address] and
    [validate_contract_id] raise on them. *)
Theorem readme_addresses_rejected `{Unicode} :
  checksum_low_byte_first readme_admin VERSION_BYTE_ED25519_PUBLIC = true ∧
  checksum_low_byte_first readme_issuer VERSION_BYTE_ED25519_PUBLIC = true ∧
  checksum_low_byte_first readme_registry VERSION_BYTE_CONTRACT = true ∧
  is_ok (validate_source_address (PStr readme_admin)) = false ∧
  is_ok (validate_source_address (PStr readme_issuer)) = false ∧
  is_ok (validate_contract_id (PStr readme_registry)) = false.
Proof. vm_compute. auto 10. Qed.

Lemma make_strkey_valid_witness :
  ∃ s, make_strkey VERSION_BYTE_CONTRACT (replicate 32 7) = Ok s ∧ length s = 56%nat ∧
    (∃ hi lo, decode_base32 s = Ok (VERSION_BYTE_CONTRACT :: replicate 32 7 ++ [hi; lo])) ∧
    @is_valid_strkey plain_unicode s VERSION_BYTE_CONTRACT = true.
Proof.
  apply (@make_strkey_valid plain_unicode).
  - vm_compute. intuition discriminate.
  - apply Forall_replicate. vm_compute. intuition discriminate.
  - reflexivity.
Defined.

(** The key of the all-zero account, and the same key with its third character
    changed. *)
Lemma single_character_error_detected_witness :
  @is_valid_strkey plain_unicode
    (lit "GA" ++ 65 :: lit "AAAAAAAAAAAAAAAAAAAAAAAAAAAAAAAAAAAAAAAAAAAAAAAAABZKY") 48 = true ∧
  @is_valid_strkey plain_unicode
    (lit "GA" ++ 66 :: lit "AAAAAAAAAAAAAAAAAAAAAAAAAAAAAAAAAAAAAAAAAAAAAAAAABZKY") 48 = false.
Proof.
  assert (@is_valid_strkey plain_unicode
    (lit "GA" ++ 65 :: lit "AAAAAAAAAAAAAAAAAAAAAAAAAAAAAAAAAAAAAAAAAAAAAAAAABZKY") 48 = true) as Hv
    by (vm_compute; reflexivity).
  split; [exact Hv|].
  apply (@single_character_error_detected plain_unicode (lit "GA") 65 66
    (lit "AAAAAAAAAAAAAAAAAAAAAAAAAAAAAAAAAAAAAAAAAAAAAAAAABZKY") 48 48).
  - apply (bool_decide_unpack _). vm_compute. exact I.
  - apply (bool_decide_unpack _). vm_compute. exact I.
  - discriminate.
  - exact Hv.
Defined.
