(* ===== verification/Sha256.v ===== *)
(** SHA-256 ([hashlib.sha256]), the digest every component keys its records with:
    FIPS 180-4 over octet lists, on 32-bit words as [Z] with the wrap-around of
    each addition written out.  It is executable, so concrete digests evaluate;
    the theorems of the development use only that a digest is 32 octets. *)
From Stdlib Require Import ZArith Lia.
From stdpp Require Import base decidable strings numbers list.
From S2P Require Import Prelude PyStr.

Open Scope Z_scope.

Definition w32 (z : Z) : Z := z mod 4294967296.
Definition add32 (a b : Z) : Z := w32 (a + b).
Definition rotr32 (n x : Z) : Z := Z.lor (Z.shiftr x n) (w32 (Z.shiftl x (32 - n))).
Definition not32 (x : Z) : Z := Z.lxor x 4294967295.

Definition sha_K : list Z :=
 [1116352408; 1899447441; 3049323471; 3921009573; 961987163; 1508970993; 2453635748;
   2870763221; 3624381080; 310598401; 607225278; 1426881987; 1925078388; 2162078206;
   2614888103; 3248222580; 3835390401; 4022224774; 264347078; 604807628; 770255983;
   1249150122; 1555081692; 1996064986; 2554220882; 2821834349; 2952996808; 3210313671;
   3336571891; 3584528711; 113926993; 338241895; 666307205; 773529912; 1294757372;
   1396182291; 1695183700; 1986661051; 2177026350; 2456956037; 2730485921; 2820302411;
   3259730800; 3345764771; 3516065817; 3600352804; 4094571909; 275423344; 430227734;
   506948616; 659060556; 883997877; 958139571; 1322822218; 1537002063; 1747873779;
   1955562222; 2024104815; 2227730452; 2361852424; 2428436474; 2756734187; 3204031479;
   3329325298].

Definition sha_H0 : list Z :=
 [1779033703; 3144134277; 1013904242; 2773480762; 1359893119; 2600822924; 528734635;
   1541459225].

Definition small_sigma0 (x : Z) : Z := Z.lxor (rotr32 7 x) (Z.lxor (rotr32 18 x) (Z.shiftr x 3)).
Definition small_sigma1 (x : Z) : Z := Z.lxor (rotr32 17 x) (Z.lxor (rotr32 19 x) (Z.shiftr x 10)).
Definition big_sigma0 (x : Z) : Z := Z.lxor (rotr32 2 x) (Z.lxor (rotr32 13 x) (rotr32 22 x)).
Definition big_sigma1 (x : Z) : Z := Z.lxor (rotr32 6 x) (Z.lxor (rotr32 11 x) (rotr32 25 x)).

(** One [1] bit, zeros up to 56 modulo 64 octets, the length in bits. *)
Definition sha_pad (m : bytes) : bytes :=
  m ++ 128 :: replicate (Z.to_nat ((55 - zlen m) mod 64)) 0 ++ be_of_int 8 (8 * zlen m).

Fixpoint chunks {A} (n fuel : nat) (l : list A) : list (list A) :=
  match fuel, l with
  | O, _ | _, [] => []
  | S fuel, _ => take n l :: chunks n fuel (drop n l)
  end.

(** The message schedule, latest word first: 48 more words after the 16 of the block. *)
Fixpoint sha_extend (n : nat) (w : list Z) : list Z :=
  match n with
  | O => w
  | S n =>
      let w' := add32 (add32 (small_sigma1 (nth 1 w 0)) (nth 6 w 0))
                      (add32 (small_sigma0 (nth 14 w 0)) (nth 15 w 0)) in
      sha_extend n (w' :: w)
  end.

Definition sha_round (st : list Z) (kw : Z * Z) : list Z :=
  match st with
  | [a; b; c; d; e; f; g; h] =>
      let ch := Z.lxor (Z.land e f) (Z.land (not32 e) g) in
      let t1 := add32 (add32 (add32 h (big_sigma1 e)) (add32 ch kw.1)) kw.2 in
      let maj := Z.lxor (Z.land a b) (Z.lxor (Z.land a c) (Z.land b c)) in
      let t2 := add32 (big_sigma0 a) maj in
      [add32 t1 t2; a; b; c; add32 d t1; e; f; g]
  | _ => st
  end.

Definition sha_block (st : list Z) (block : bytes) : list Z :=
  let w := rev (sha_extend 48 (rev (int_of_be <$> chunks 4 16 block))) in
  zip_with add32 st (foldl sha_round st (zip sha_K w)).

Definition sha256 (m : bytes) : bytes :=
  let p := sha_pad m in
  foldl sha_block sha_H0 (chunks 64 (length p) p) ≫= be_of_int 4.

(** [hashlib.sha256(m).hexdigest()] *)
Definition sha256_hex (m : bytes) : str := bytes_hex (sha256 m).

(** The digest of "abc" (FIPS 180-4, appendix B.1). *)
Example sha256_abc :
  sha256_hex (lit "abc") =
  lit "ba7816bf8f01cfea414140de5dae2223b00361a396177a9cb410ff61f20015ad".
Proof. vm_compute. reflexivity. Qed.

Lemma sha_round_length st kw : length (sha_round st kw) = length st.
Proof. unfold sha_round. by repeat case_match. Qed.

Lemma sha_block_length st b : length st = 8%nat → length (sha_block st b) = 8%nat.
Proof.
  intros Hst. unfold sha_block. rewrite length_zip_with.
  enough (∀ l s, length (foldl sha_round s l) = length s) as -> by lia.
  induction l as [|x l IH]; intros s; cbn [foldl]; [done|]. by rewrite IH, sha_round_length.
Qed.

Lemma sha_blocks_length bs st : length st = 8%nat → length (foldl sha_block st bs) = 8%nat.
Proof. revert st. induction bs; intros; cbn [foldl]; auto using sha_block_length. Qed.

Lemma length_bind_be4 l : length (l ≫= be_of_int 4) = (4 * length l)%nat.
Proof. induction l as [|x l IH]; [done|]. rewrite bind_cons, length_app, IH, length_be_of_int. cbn [length]. lia. Qed.

Lemma length_sha256 m : length (sha256 m) = 32%nat.
Proof. unfold sha256. by rewrite length_bind_be4, sha_blocks_length. Qed.

Lemma bytes_ok_sha256 m : bytes_ok (sha256 m).
Proof.
  unfold sha256. generalize (foldl sha_block sha_H0 (chunks 64 (length (sha_pad m)) (sha_pad m))).
  intros l. induction l as [|x l IH]; [constructor|]. rewrite bind_cons.
  apply Forall_app. split; [apply bytes_ok_be_of_int|done].
Qed.

Lemma length_sha256_hex m : length (sha256_hex m) = 64%nat.
Proof. unfold sha256_hex. by rewrite length_bytes_hex, length_sha256. Qed.

Lemma sha256_hex_lower m : Forall (λ c, is_lower_hex c = true) (sha256_hex m).
Proof. apply bytes_hex_is_lower, bytes_ok_sha256. Qed.

#[export] Hint Resolve bytes_ok_sha256 length_sha256 length_sha256_hex sha256_hex_lower : harpo.
#[global] Opaque sha256.

(** Two different messages with the same digest. *)
Definition sha256_collision (m m' : bytes) : Prop := m ≠ m' ∧ sha256 m = sha256 m'.

Lemma sha256_hex_eq m m' : sha256_hex m = sha256_hex m' → m = m' ∨ sha256_collision m m'.
Proof.
  intros Heq. destruct (decide (m = m')); [by left|right; split; [done|]].
  apply bytes_hex_inj; [apply bytes_ok_sha256..|exact Heq].
Qed.
