(* ===== verification/MetadataErrors.v ===== *)
(** The metadata error taxonomy ([backend/metadata_errors.py]) and the error body it is
    serialized to ([errors.error_response]).  An exception is what the handlers see of
    it: a [MetadataError], or any other exception through its text. *)
From Stdlib Require Import ZArith Lia.
From stdpp Require Import base decidable strings numbers list.
From S2P Require Import Prelude PyStr Json.

Open Scope Z_scope.

#[local] Arguments lit _ : simpl never.

(** * Codes *)

Inductive metadata_code : Type :=
  | METADATA_MALFORMED | METADATA_MISSING_FIELD | METADATA_INVALID_FIELD
  | METADATA_UNSUPPORTED_VERSION | METADATA_OVERSIZED | METADATA_EXPIRED
  | METADATA_REVOKED | METADATA_DEPENDENCY_FAILURE.

#[export] Instance metadata_code_eq_dec : EqDecision metadata_code.
Proof. solve_decision. Defined.

Definition ALL_CODES : list metadata_code :=
  [METADATA_MALFORMED; METADATA_MISSING_FIELD; METADATA_INVALID_FIELD; METADATA_UNSUPPORTED_VERSION;
   METADATA_OVERSIZED; METADATA_EXPIRED; METADATA_REVOKED; METADATA_DEPENDENCY_FAILURE].

Definition code_text (c : metadata_code) : str :=
  lit match c with
  | METADATA_MALFORMED => "METADATA_MALFORMED"
  | METADATA_MISSING_FIELD => "METADATA_MISSING_FIELD"
  | METADATA_INVALID_FIELD => "METADATA_INVALID_FIELD"
  | METADATA_UNSUPPORTED_VERSION => "METADATA_UNSUPPORTED_VERSION"
  | METADATA_OVERSIZED => "METADATA_OVERSIZED"
  | METADATA_EXPIRED => "METADATA_EXPIRED"
  | METADATA_REVOKED => "METADATA_REVOKED"
  | METADATA_DEPENDENCY_FAILURE => "METADATA_DEPENDENCY_FAILURE"
  end.

(** [_ERROR_STATUS] and [_DEFAULT_MESSAGES] *)
Definition ERROR_STATUS (c : metadata_code) : Z :=
  match c with
  | METADATA_OVERSIZED => 413
  | METADATA_REVOKED => 403
  | METADATA_DEPENDENCY_FAILURE => 503
  | _ => 400
  end.

Definition DEFAULT_MESSAGES (c : metadata_code) : str :=
  lit match c with
  | METADATA_MALFORMED => "metadata must be a JSON object"
  | METADATA_MISSING_FIELD => "metadata is missing a required field"
  | METADATA_INVALID_FIELD => "metadata contains an invalid field value"
  | METADATA_UNSUPPORTED_VERSION => "metadata version is not supported"
  | METADATA_OVERSIZED => "metadata payload exceeds the allowed size limit"
  | METADATA_EXPIRED => "metadata artifact is expired"
  | METADATA_REVOKED => "metadata artifact has been revoked"
  | METADATA_DEPENDENCY_FAILURE => "a metadata dependency is unavailable"
  end.

(** The code a text names. *)
Definition code_of_text (s : str) : option metadata_code :=
  snd <$> list_find (λ c, code_text c = s) ALL_CODES.

Definition is_known_code (code : pyval) : bool :=
  match code with PStr s => bool_decide (is_Some (code_of_text s)) | _ => false end.

Definition error_status (code : str) : result exn Z :=
  match code_of_text code with
  | Some c => Ok (ERROR_STATUS c)
  | None => Err (ValueError "unknown metadata error code")
  end.

Definition default_message (code : str) : result exn str :=
  match code_of_text code with
  | Some c => Ok (DEFAULT_MESSAGES c)
  | None => Err (ValueError "unknown metadata error code")
  end.

(** [taxonomy]: in the order of the code texts. *)
Definition taxonomy : list (str * Z * str) :=
  map (λ p, (p.1, ERROR_STATUS p.2, DEFAULT_MESSAGES p.2))
    (sort_items (map (λ c, (code_text c, c)) ALL_CODES)).

(** * The exception *)

Record MetadataError := MkMetadataError {
  me_code : metadata_code;
  me_status : Z;
  me_field : option str;
  me_message : str;
}.

#[export] Instance MetadataError_eq_dec : EqDecision MetadataError.
Proof. solve_decision. Defined.

(** [MetadataError(code, message, field=field)]: an absent or empty message is the
    default one. *)
Definition metadata_error (c : metadata_code) (message field : option str) : MetadataError :=
  MkMetadataError c (ERROR_STATUS c) field
    match message with Some ((_ :: _) as m) => m | _ => DEFAULT_MESSAGES c end.

Definition as_payload (e : MetadataError) : list (str * pyval) :=
  [(lit "code", PStr (code_text (me_code e))); (lit "message", PStr (me_message e))] ++
  match me_field e with Some ((_ :: _) as f) => [(lit "field", PStr f)] | _ => [] end.

(** * Classification of other exceptions *)

(** [needle in text] *)
Fixpoint contains (needle text : str) : bool :=
  starts_with needle text || match text with [] => false | _ :: t => contains needle t end.

Definition CLASSIFY_RULES : list (metadata_code * list str) :=
  [(METADATA_OVERSIZED, map lit ["exceeds the"; "too large"; "size limit"; "capacity"]);
   (METADATA_UNSUPPORTED_VERSION,
     map lit ["unsupported metadata version"; "unsupported version"; "unknown version"]);
   (METADATA_MISSING_FIELD, map lit ["missing required field"; "is required"; "missing field"]);
   (METADATA_MALFORMED, map lit ["must be a json object"; "valid json"; "not a json"; "must be an object"]);
   (METADATA_EXPIRED, map lit ["expired"; "outside its validity"; "validity window"]);
   (METADATA_REVOKED, map lit ["revoked"; "revocation"]);
   (METADATA_DEPENDENCY_FAILURE, map lit ["dependency"; "unavailable"; "timed out"; "timeout"; "upstream"])].

Fixpoint first_rule (rules : list (metadata_code * list str)) (text : str) : metadata_code :=
  match rules with
  | [] => METADATA_INVALID_FIELD
  | (c, needles) :: rules => if existsb (λ n, contains n text) needles then c else first_rule rules text
  end.

Section classify.
Context `{Unicode}.

(** [text] is [str(exc)]. *)
Definition classify_validation_error (text : str) : MetadataError :=
  metadata_error (first_rule CLASSIFY_RULES (py_lower text)) None None.

(** What the handlers are given. *)
Inductive raised : Type :=
  | RaisedMetadata (e : MetadataError)
  | RaisedOther (text : str).

Definition as_metadata_error (x : raised) : MetadataError :=
  match x with RaisedMetadata e => e | RaisedOther text => classify_validation_error text end.

(** [errors.error_response]: the body and the status. *)
Definition error_response (request_id code message : str) (status : Z) (field : option str) : pyval * Z :=
  (PDict [(lit "ok", PBool false);
    (lit "error", PDict (
      [(lit "code", PStr code); (lit "message", PStr message); (lit "request_id", PStr request_id)] ++
      match field with Some ((_ :: _) as f) => [(lit "field", PStr f)] | _ => [] end))], status).

Definition metadata_error_response (request_id : str) (x : raised) : pyval * Z :=
  let e := as_metadata_error x in
  error_response request_id (code_text (me_code e)) (me_message e) (me_status e) (me_field e).
End classify.

(** * Facts *)

Lemma code_of_text_code c : code_of_text (code_text c) = Some c.
Proof. by destruct c; vm_compute. Qed.

Lemma contains_spec needle text : contains needle text = true ↔ ∃ a b, text = a ++ needle ++ b.
Proof.
  induction text as [|c text IH]; cbn; rewrite ?orb_true_iff, ?IH; unfold starts_with;
    rewrite bool_decide_eq_true; split.
  - intros [Ht|]; [|done]. exists [], []. rewrite take_nil in Ht. by rewrite <- Ht.
  - intros (a & b & Ht). left. symmetry in Ht. apply app_nil in Ht as [-> Ht]. by apply app_nil in Ht as [-> ->].
  - intros [Ht|(a & b & ->)]; [|by exists (c :: a), b].
    exists [], (drop (length needle) (c :: text)). cbn [app]. rewrite <- Ht at 1. by rewrite take_drop.
  - intros (a & b & Ht). destruct a as [|x a]; cbn in Ht.
    + left. rewrite Ht. by rewrite take_app_length.
    + injection Ht as -> ->. right. by exists a, b.
Qed.

(** A needle that ends in a character a suffix lacks is not found across it. *)
Lemma contains_app_suffix needle l text suffix :
  l ∉ suffix → contains (needle ++ [l]) (text ++ suffix) = true → contains (needle ++ [l]) text = true.
Proof.
  intros Hl (a & b & Heq)%contains_spec. apply contains_spec. rewrite app_assoc in Heq.
  apply app_eq_inv in Heq as [(k & -> & _)|(k & Hk & ->)].
  { exists a, k. by rewrite <- app_assoc. }
  destruct k as [|x k _] using rev_ind.
  - rewrite app_nil_r in Hk. exists a, []. by rewrite <- Hk, app_nil_r.
  - rewrite !app_assoc in Hk. apply app_inj_tail in Hk as [_ <-]. exfalso. apply Hl.
    rewrite !elem_of_app. left. right. by left.
Qed.
