(* ===== verification/Envelope.v ===== *)
(** The metadata envelope hidden in a video ([backend/envelope.py]): validation of the
    metadata, [pack_envelope] and [unpack_envelope].  The zlib library and
    [datetime.fromisoformat] are the methods of [Zlib] and [IsoTime]; instants are
    seconds.  A metadata dictionary holds JSON values.

    Shown: unpacking what was packed gives the canonical metadata back, whatever bytes
    follow it; what is accepted is exactly a sealed body with the right size, checksum
    and valid metadata, and exactly two exceptions escape, that of an over-long integer
    literal and that of a text nested too deeply for the stack; the errors carry static text only and agree with the classifier
    of [MetadataErrors]. *)
From Stdlib Require Import ZArith Lia.
From stdpp Require Import base decidable strings numbers list.
From S2P Require Import Prelude PyStr Json PyVal Codec Sha256 MetadataErrors.

Open Scope Z_scope.

#[local] Arguments lit _ : simpl never.

(** * The libraries *)

(** What a [decompressobj] shows after one [decompress(body, max_length)]. *)
Record inflate_result := Inflated {
  inflated : bytes;
  unconsumed_tail : bytes;
  eof : bool;
  unused_data : bytes;
}.

Class Zlib := {
  (** [zlib.compress(data, level=9)] *)
  zlib_compress : bytes → bytes;
  (** [None]: [zlib.error] *)
  zlib_decompress : bytes → Z → option inflate_result;
}.

(** The documented behaviour the codec relies on: a compressed member is a byte string
    that decompresses to its data, completely when the data is shorter than
    [max_length]. *)
Class ZlibLaws `{Zlib} : Prop := {
  zlib_roundtrip m n : bytes_ok m → zlen m < n → zlib_decompress (zlib_compress m) n = Some (Inflated m [] true []);
  zlib_compress_bytes m : bytes_ok m → bytes_ok (zlib_compress m);
}.

(** [datetime.fromisoformat]: [None] raises [ValueError]; [Some None] has no time zone. *)
Class IsoTime := fromisoformat : str → option (option Z).

(** * Constants *)

Definition MAGIC_V1 : bytes := lit "HRPSTG1".
Definition MAGIC_V2 : bytes := lit "HRPSTG2".
Definition MAX_PAYLOAD_BYTES : Z := 64 * 1024.
Definition MAX_DECOMPRESSED_BYTES : Z := MAX_PAYLOAD_BYTES.
Definition ALLOWED_TIERS : list str := [lit "silent"; lit "source"; lit "seal"].

(** What the functions raise: a [MetadataError] (which is a [ValueError]) or another
    exception. *)
Inductive envelope_exn : Type :=
  | Meta (e : MetadataError)
  | Other (e : exn).

Definition meta {A} (c : metadata_code) (message : string) (field : option string) : result envelope_exn A :=
  Err (Meta (metadata_error c (Some (lit message)) (lit <$> field))).

(** * Canonical JSON *)

Definition canonical_json (metadata : pyval) : result exn bytes :=
  match utf8_encode (json_dumps true metadata) with Some b => Ok b | None => Err UnicodeError end.

Definition canonical_metadata_hash (metadata : pyval) : result exn str :=
  b ← canonical_json metadata; Ok (sha256_hex b).

(** [_HEX_32_PATTERN.fullmatch] *)
Definition is_hex_32 (value : pyval) : bool :=
  match value with PStr s => (zlen s =? 64) && forallb is_hex s | _ => false end.

(** * Validation *)

Section validation.
Context `{Unicode} `{IsoTime}.
Variable now : Z.

(** [value.strip().replace("Z", "+00:00").replace("z", "+00:00")] *)
Definition replace_char (c : Z) (by_ : str) (s : str) : str := s ≫= λ x, if x =? c then by_ else [x].
Definition normal_timestamp (s : str) : str :=
  replace_char 122 (lit "+00:00") (replace_char 90 (lit "+00:00") (py_strip s)).

Definition validate_timestamp (value : pyval) : result envelope_exn unit :=
  match value with
  | PStr s =>
      if bool_decide (py_strip s = []) then
        meta METADATA_INVALID_FIELD "metadata timestamp must be a string" (Some "timestamp")
      else match fromisoformat (normal_timestamp s) with
      | None => meta METADATA_INVALID_FIELD
                  "metadata timestamp must be a timezone-aware ISO-8601 string" (Some "timestamp")
      | Some None => meta METADATA_INVALID_FIELD "metadata timestamp must be timezone-aware" (Some "timestamp")
      | Some (Some dt) =>
          if now + 300 <? dt then
            meta METADATA_INVALID_FIELD "metadata timestamp is unreasonably far in the future" (Some "timestamp")
          else Ok tt
      end
  | _ => meta METADATA_INVALID_FIELD "metadata timestamp must be a string" (Some "timestamp")
  end.

Definition required : list str := map lit ["protocol"; "version"; "tier"; "sourceHash"; "proofId"; "timestamp"].

(** [sorted(required - set(metadata.keys()))] *)
Definition missing_fields (d : list (str * pyval)) : list str :=
  (sort_items (map (λ f, (f, tt)) (filter (λ f, dict_has f d = false) required))).*1.

Definition check_tier (v : pyval) : result envelope_exn unit :=
  match in_str_set v ALLOWED_TIERS with
  | Err e => Err (Other e)
  | Ok true => Ok tt
  | Ok false => meta METADATA_INVALID_FIELD "metadata tier is invalid" (Some "tier")
  end.

Definition check_fields (d : list (str * pyval)) : result envelope_exn unit :=
  match missing_fields d with
  | field :: _ =>
      Err (Meta (metadata_error METADATA_MISSING_FIELD
        (Some (lit "metadata missing required field: " ++ field)) (Some field)))
  | [] =>
      match get_or_none (lit "protocol") d with
      | PStr p =>
          if bool_decide (p = lit "harpocrates") then Ok tt
          else meta METADATA_INVALID_FIELD "metadata protocol must be harpocrates" (Some "protocol")
      | _ => meta METADATA_INVALID_FIELD "metadata protocol must be harpocrates" (Some "protocol")
      end;;
      check_tier (get_or_none (lit "tier") d);;
      (if is_hex_32 (get_or_none (lit "sourceHash") d) then Ok tt
       else meta METADATA_INVALID_FIELD "metadata sourceHash must be a 32-byte hex string" (Some "sourceHash"));;
      (if is_hex_32 (get_or_none (lit "proofId") d) then Ok tt
       else meta METADATA_INVALID_FIELD "metadata proofId must be a 32-byte hex string" (Some "proofId"));;
      validate_timestamp (get_or_none (lit "timestamp") d)
  end.

Definition validate_base_fields (metadata : pyval) : result envelope_exn unit :=
  match metadata with
  | PDict d => check_fields d
  | _ => meta METADATA_MALFORMED "metadata must be a JSON object" None
  end.

Definition validate_v1 (metadata : pyval) : result envelope_exn unit :=
  validate_base_fields metadata;;
  match metadata with
  | PDict d =>
      match get_or_none (lit "version") d with
      | PInt 1 => Ok tt
      | _ => meta METADATA_INVALID_FIELD "metadata version must be 1" (Some "version")
      end
  | _ => meta METADATA_MALFORMED "metadata must be a JSON object" None
  end.

(** Returns the dictionary, with its version raised to 2. *)
Definition validate_v2 (metadata : pyval) : result envelope_exn pyval :=
  match metadata with
  | PDict d =>
      validate_base_fields metadata;;
      match default (PInt 1) (dict_get (lit "version") d) with
      | PInt v => Ok (PDict (if v <? 2 then dict_set (lit "version") (PInt 2) d else d))
      | _ => meta METADATA_INVALID_FIELD "metadata version must be an integer" (Some "version")
      end
  | _ => meta METADATA_MALFORMED "metadata must be a JSON object" None
  end.
End validation.

(** * Packing and unpacking *)

Section codec.
Context `{Unicode} `{IsoTime} `{Zlib} `{FloatText}.
Variable now : Z.

Definition oversized {A} : result envelope_exn A :=
  meta METADATA_OVERSIZED "metadata payload exceeds the 64 KiB steganography limit" None.

(** [magic + struct.pack(">I", len(body)) + checksum + body] *)
Definition seal (magic body : bytes) : bytes := magic ++ be_of_int 4 (zlen body) ++ sha256 body ++ body.

(** The validated metadata and the magic of an envelope version. *)
Definition select_version (metadata : list (str * pyval)) (version : Z) : result envelope_exn (pyval * bytes) :=
  if version =? 1 then validate_v1 now (PDict metadata);; Ok (PDict metadata, MAGIC_V1)
  else if version =? 2 then m ← validate_v2 now (PDict metadata); Ok (m, MAGIC_V2)
  else Err (Meta (metadata_error METADATA_UNSUPPORTED_VERSION
    (Some (lit "unsupported metadata version " ++ dec_str version)) None)).

Definition pack_envelope (metadata : list (str * pyval)) (version : Z) : result envelope_exn bytes :=
  '(m, magic) ← select_version metadata version;
  canonical ← map_err Other (canonical_json m);
  if MAX_DECOMPRESSED_BYTES <? zlen canonical then oversized else
  let body := zlib_compress canonical in
  if MAX_PAYLOAD_BYTES <? zlen body then oversized else Ok (seal magic body).

Definition decompress_metadata (body : bytes) : option bytes :=
  match zlib_decompress body (MAX_DECOMPRESSED_BYTES + 1) with
  | None => None
  | Some r =>
      if MAX_DECOMPRESSED_BYTES <? zlen (inflated r) then None
      else match unconsumed_tail r with
      | _ :: _ => None
      | [] => if negb (eof r) then None else
              match unused_data r with _ :: _ => None | [] => Some (inflated r) end
      end
  end.

(** The two exceptions of [json.loads] that are not caught: [RecursionError], a subclass of
    [RuntimeError], and the plain [ValueError] of an over-long integer literal. *)
Definition RecursionError : exn := RuntimeError "maximum recursion depth exceeded".
Definition IntLengthError : exn := ValueError "Exceeds the limit for integer string conversion".

(** [json.loads(inflated.decode("utf-8"))]: the caught decoding errors give [None].
    [overflows] are the texts nested too deeply for the stack of the interpreter. *)
Definition load_metadata (overflows : str → bool) (text : bytes) : result exn (option pyval) :=
  match utf8_decode text with
  | None => Ok None
  | Some s =>
      if overflows s then Err RecursionError else
      match json_loads s with
      | Ok v => Ok (Some v)
      | Err JSONDecodeError => Ok None
      | Err IntDigitsError => Err IntLengthError
      end
  end.

(** The validation by magic; both kinds of error it can raise are caught. *)
Definition validate_by_magic (magic : bytes) (value : pyval) : option pyval :=
  if bool_decide (magic = MAGIC_V1) then
    match validate_v1 now value with Ok _ => Some value | Err _ => None end
  else to_option (validate_v2 now value).

(** [unpack_envelope] in an interpreter that runs out of stack on the texts of [overflows]. *)
Definition unpack_with (overflows : str → bool) (data : bytes) : result exn (option pyval) :=
  if zlen data <? 7 + 4 + 32 then Ok None else
  let magic := slice 0 7 data in
  if negb (bool_decide (magic = MAGIC_V1 ∨ magic = MAGIC_V2)) then Ok None else
  let size := int_of_be (slice 7 11 data) in
  if MAX_PAYLOAD_BYTES <? size then Ok None else
  let body_end := 43 + size in
  if zlen data <? body_end then Ok None else
  let checksum := slice 11 43 data in
  let body := slice 43 (Z.to_nat body_end) data in
  if negb (bool_decide (sha256 body = checksum)) then Ok None else
  match decompress_metadata body with
  | None => Ok None
  | Some text =>
      value ← load_metadata overflows text;
      Ok match value with
         | Some ((PDict _) as v) => validate_by_magic magic v
         | _ => None
         end
  end.

(** [unpack_envelope] where the stack suffices. *)
Definition unpack_envelope : bytes → result exn (option pyval) := unpack_with (λ _, false).
End codec.

(** * What validation accepts *)

Definition hex_text (s : str) : Prop := zlen s = 64 ∧ Forall (λ c, is_hex c = true) s.

(** Metadata as the protocol wants it. *)
Record well_formed `{Unicode} `{IsoTime} (now : Z) (d : list (str * pyval)) : Prop := {
  wf_protocol : dict_get (lit "protocol") d = Some (PStr (lit "harpocrates"));
  wf_tier : ∃ t, dict_get (lit "tier") d = Some (PStr t) ∧ t ∈ ALLOWED_TIERS;
  wf_source : ∃ s, dict_get (lit "sourceHash") d = Some (PStr s) ∧ hex_text s;
  wf_proof : ∃ s, dict_get (lit "proofId") d = Some (PStr s) ∧ hex_text s;
  wf_time : ∃ s t, dict_get (lit "timestamp") d = Some (PStr s) ∧ py_strip s ≠ [] ∧
    fromisoformat (normal_timestamp s) = Some (Some t) ∧ t ≤ now + 300;
  wf_version : is_Some (dict_get (lit "version") d);
}.

Section validation_facts.
Context `{Unicode} `{IsoTime}.

Lemma dict_has_get {A} k (d : list (str * A)) : dict_has k d = true ↔ is_Some (dict_get k d).
Proof. unfold dict_has. destruct (dict_get k d); naive_solver. Qed.

Lemma missing_fields_nil d : missing_fields d = [] ↔ Forall (λ f, is_Some (dict_get f d)) required.
Proof.
  unfold missing_fields. set (l := filter _ required).
  transitivity (l = []).
  - split; intros Hl; [|by rewrite Hl]. apply fmap_nil_inv in Hl.
    pose proof (sort_items_perm (map (λ f : str, (f, tt)) l)) as Hp. rewrite Hl in Hp.
    apply Permutation_nil_l in Hp. symmetry in Hp. by apply map_eq_nil in Hp.
  - subst l. rewrite Forall_forall. split.
    + intros Hl f Hf. apply dict_has_get. destruct (dict_has f d) eqn:Hd; [done|].
      assert (f ∈ filter (λ f, dict_has f d = false) required) as Hin by (by apply list_elem_of_filter).
      rewrite Hl in Hin. by apply elem_of_nil in Hin.
    + intros Hall. destruct (filter _ required) as [|f l] eqn:Hl; [done|].
      assert (f ∈ filter (λ f, dict_has f d = false) required) as Hin by (rewrite Hl; by left).
      apply list_elem_of_filter in Hin as [Hf Hin]. apply Hall, dict_has_get in Hin. congruence.
Qed.

Lemma is_hex_32_spec v : is_hex_32 v = true ↔ ∃ s, v = PStr s ∧ hex_text s.
Proof.
  unfold hex_text. destruct v; cbn; try (split; [done|intros (? & ? & _); done]).
  rewrite andb_true_iff, Z.eqb_eq, forallb_Forall. naive_solver.
Qed.

Lemma validate_timestamp_ok now v u :
  validate_timestamp now v = Ok u ↔ ∃ s t, v = PStr s ∧ py_strip s ≠ [] ∧
    fromisoformat (normal_timestamp s) = Some (Some t) ∧ t ≤ now + 300.
Proof.
  destruct u. unfold validate_timestamp, meta. destruct v as [| | | |s| |]; try naive_solver.
  destruct (bool_decide (py_strip s = [])) eqn:Hs; bool_inv; [naive_solver|].
  destruct (fromisoformat (normal_timestamp s)) as [[t|]|] eqn:Ht; [|naive_solver..].
  destruct (Z.ltb_spec (now + 300) t); [|naive_solver].
  split; [done|]. intros (s' & t' & [= <-] & _ & Ht' & ?). simplify_eq. lia.
Qed.

Lemma get_or_none_str k (d : list (str * pyval)) s : get_or_none k d = PStr s ↔ dict_get k d = Some (PStr s).
Proof. unfold get_or_none. destruct (dict_get k d) as [v|]; cbn; naive_solver. Qed.

Lemma check_fields_ok now d u : check_fields now d = Ok u ↔ well_formed now d.
Proof.
  destruct u. unfold check_fields. destruct (missing_fields d) as [|f fs] eqn:Hm.
  2:{ split; [done|]. intros [Hp (t & Ht & _) (s & Hs & _) (p & Hpr & _) (ts & tv & Hts & _) Hv].
      assert (missing_fields d = []) as Hn; [|congruence]. apply missing_fields_nil. unfold required. cbn [map].
      repeat constructor; eauto. }
  apply missing_fields_nil in Hm. unfold required in Hm. cbn [map] in Hm.
  rewrite !Forall_cons in Hm. destruct Hm as (_ & Hv & _). split.
  - intros (? & Hp & (? & Ht & (? & Hs & (? & Hpr & Hts)%bind_ok)%bind_ok)%bind_ok)%bind_ok.
    split; [| | | | |done].
    + destruct (get_or_none (lit "protocol") d) as [| | | |p| |] eqn:Hg; try done.
      destruct (bool_decide (p = _)) eqn:Hb; [|done]. bool_inv. subst. by apply get_or_none_str.
    + unfold check_tier in Ht. destruct (get_or_none (lit "tier") d) as [| | | |t| |] eqn:Hg; try done.
      cbn in Ht. destruct (bool_decide (t ∈ _)) eqn:Hb; [|done]. bool_inv. exists t. by rewrite <- get_or_none_str.
    + destruct (is_hex_32 (get_or_none (lit "sourceHash") d)) eqn:Hb; [|done].
      apply is_hex_32_spec in Hb as (s & Hb & ?). exists s. by rewrite <- get_or_none_str.
    + destruct (is_hex_32 (get_or_none (lit "proofId") d)) eqn:Hb; [|done].
      apply is_hex_32_spec in Hb as (s & Hb & ?). exists s. by rewrite <- get_or_none_str.
    + apply validate_timestamp_ok in Hts as (s & t & Hs' & ?). exists s, t. by rewrite <- get_or_none_str.
  - intros [Hp (t & Ht & Hin) (s & Hs & Hsx) (p & Hpr & Hpx) (ts & tv & Hts & Htv) _].
    rewrite <- get_or_none_str in Hp, Ht, Hs, Hpr, Hts. rewrite Hp, Ht, Hs, Hpr, Hts.
    rewrite bool_decide_eq_true_2 by done. rewrite bind_Ok.
    unfold check_tier. cbn [in_str_set]. rewrite bool_decide_eq_true_2 by done. rewrite bind_Ok.
    rewrite (proj2 (is_hex_32_spec (PStr s))), bind_Ok by eauto.
    rewrite (proj2 (is_hex_32_spec (PStr p))), bind_Ok by eauto.
    apply validate_timestamp_ok. naive_solver.
Qed.

Lemma validate_v1_ok now d u :
  validate_v1 now (PDict d) = Ok u ↔ well_formed now d ∧ dict_get (lit "version") d = Some (PInt 1).
Proof.
  destruct u. unfold validate_v1. cbn [validate_base_fields]. split.
  - intros (? & Hw & Hv)%bind_ok. apply check_fields_ok in Hw. split; [done|].
    destruct Hw as [_ _ _ _ _ [v Hg]]. unfold get_or_none in Hv. rewrite Hg in *. cbn in Hv.
    by repeat case_match; simplify_eq.
  - intros [Hw Hg]. rewrite (proj2 (check_fields_ok now d tt) Hw), bind_Ok. unfold get_or_none. by rewrite Hg.
Qed.

(** The version of metadata in a version 2 envelope. *)
Definition upgrade (d : list (str * pyval)) (v : Z) : list (str * pyval) :=
  if v <? 2 then dict_set (lit "version") (PInt 2) d else d.

Lemma validate_v2_ok now d m :
  validate_v2 now (PDict d) = Ok m ↔
  well_formed now d ∧ ∃ v, dict_get (lit "version") d = Some (PInt v) ∧ m = PDict (upgrade d v).
Proof.
  unfold validate_v2. cbn [validate_base_fields]. split.
  - intros (? & Hw & Hv)%bind_ok. apply check_fields_ok in Hw. split; [done|].
    destruct Hw as [_ _ _ _ _ [v Hg]]. rewrite Hg in *. cbn in Hv.
    destruct v as [| |v| | | |]; try done. exists v. by simplify_eq.
  - intros [Hw (v & Hg & ->)]. rewrite (proj2 (check_fields_ok now d tt) Hw), bind_Ok. by rewrite Hg.
Qed.

(** Well-formedness reads six fields only, and allows more as time passes. *)
Lemma well_formed_canon now now' d :
  NoDup d.*1 → now ≤ now' → well_formed now d →
  well_formed now' (sort_items (map (λ p, (p.1, canon p.2)) d)).
Proof.
  intros Hnd Hle [Hp (t & Ht & Hin) (s & Hs & Hsx) (p & Hpr & Hpx) (ts & tv & Hts & Hne & Hiso & Hb) [v Hv]].
  split.
  - by rewrite dict_get_canon, Hp.
  - exists t. by rewrite dict_get_canon, Ht.
  - exists s. by rewrite dict_get_canon, Hs.
  - exists p. by rewrite dict_get_canon, Hpr.
  - exists ts, tv. rewrite dict_get_canon, Hts by done. split_and!; [done..|lia].
  - rewrite dict_get_canon, Hv by done. eauto.
Qed.

Lemma well_formed_upgrade now d v : well_formed now d → well_formed now (upgrade d v).
Proof.
  unfold upgrade. destruct (v <? 2); [|done].
  assert (∀ k, k ≠ lit "version" → dict_get k (dict_set (lit "version") (PInt 2) d) = dict_get k d) as Hk
    by (intros k Hk; rewrite dict_get_set; by rewrite decide_False).
  intros [Hp (t & Ht & Hin) (s & Hs & Hsx) (p & Hpr & Hpx) (ts & tv & Hts & Hne & Hiso & Hb) _].
  split; [| | | | |rewrite dict_get_set, decide_True by done; eauto].
  all: rewrite Hk by (vm_compute; discriminate); eauto 7.
Qed.
End validation_facts.

(** * Layout *)

Section codec_facts.
Context `{Unicode} `{IsoTime} `{Zlib} `{FloatText}.

Definition is_magic (m : bytes) : Prop := m = MAGIC_V1 ∨ m = MAGIC_V2.

Lemma length_magic m : is_magic m → length m = 7%nat.
Proof. by intros [->| ->]. Qed.

(** What [unpack_with] makes of a body whose size and checksum were right. *)
Definition open_body (overflows : str → bool) (now : Z) (magic body : bytes) : result exn (option pyval) :=
  match decompress_metadata body with
  | None => Ok None
  | Some text =>
      value ← load_metadata overflows text;
      Ok match value with Some ((PDict _) as v) => validate_by_magic now magic v | _ => None end
  end.

Lemma length_seal magic body :
  is_magic magic → length (seal magic body) = (43 + length body)%nat.
Proof.
  intros Hm%length_magic. unfold seal. rewrite !length_app, length_be_of_int, length_sha256, Hm. lia.
Qed.

(** A sealed body opens, whatever follows it. *)
Lemma unpack_seal overflows now magic body rest :
  is_magic magic → zlen body ≤ MAX_PAYLOAD_BYTES →
  unpack_with now overflows (seal magic body ++ rest) = open_body overflows now magic body.
Proof.
  intros Hm Hb. pose proof (length_magic _ Hm) as Hl. unfold MAX_PAYLOAD_BYTES in *. unfold unpack_with.
  assert (zlen (seal magic body ++ rest) = 43 + zlen body + zlen rest) as Hlen
    by (unfold zlen; rewrite length_app, length_seal by done; lia).
  assert (0 ≤ zlen body ∧ 0 ≤ zlen rest) as [Hb0 Hr0] by (unfold zlen; lia). rewrite Hlen.
  assert (slice 0 7 (seal magic body ++ rest) = magic) as ->
    by (unfold seal; rewrite <- app_assoc; by apply (slice_app_exact [])).
  assert (slice 7 11 (seal magic body ++ rest) = be_of_int 4 (zlen body)) as ->.
  { unfold seal. rewrite <- !app_assoc. by apply slice_app_exact; [|rewrite length_be_of_int]. }
  assert (slice 11 43 (seal magic body ++ rest) = sha256 body) as ->.
  { unfold seal. rewrite <- !app_assoc. rewrite (app_assoc magic). apply slice_app_exact.
    - by rewrite length_app, length_be_of_int, Hl.
    - by rewrite length_sha256. }
  rewrite int_of_be_of_int by (cbn; lia).
  assert (slice 43 (Z.to_nat (43 + zlen body)) (seal magic body ++ rest) = body) as ->.
  { unfold seal. rewrite <- !app_assoc. rewrite (app_assoc magic), (app_assoc (magic ++ _)). apply slice_app_exact.
    - by rewrite !length_app, length_be_of_int, length_sha256, Hl.
    - unfold zlen. lia. }
  rewrite (bool_decide_eq_true_2 (_ ∨ _)), (bool_decide_eq_true_2 (sha256 body = _)) by done.
  unfold MAX_PAYLOAD_BYTES. repeat (rewrite (proj2 (Z.ltb_ge _ _)) by lia). done.
Qed.

(** Anything else is turned down. *)
Lemma unpack_inv overflows now data :
  bytes_ok data → unpack_with now overflows data ≠ Ok None →
  ∃ magic body rest, is_magic magic ∧ zlen body ≤ MAX_PAYLOAD_BYTES ∧ data = seal magic body ++ rest.
Proof.
  intros Hd Hne. unfold unpack_with in Hne.
  destruct (Z.ltb_spec (zlen data) (7 + 4 + 32)) as [|Hlen]; [done|].
  destruct (bool_decide (_ ∨ _)) eqn:Hm; cbn [negb] in Hne; [|done]. apply bool_decide_eq_true in Hm.
  set (size := int_of_be (slice 7 11 data)) in *.
  destruct (Z.ltb_spec MAX_PAYLOAD_BYTES size) as [|Hs]; [done|].
  destruct (Z.ltb_spec (zlen data) (43 + size)) as [|He]; [done|].
  destruct (bool_decide (sha256 _ = _)) eqn:Hc; cbn [negb] in Hne; [|done]. apply bool_decide_eq_true in Hc. clear Hne.
  set (body := slice 43 (Z.to_nat (43 + size)) data) in *.
  assert (bytes_ok (slice 7 11 data)) as Hsz by (by apply Forall_slice).
  assert (length (slice 7 11 data) = 4%nat) as H4 by (rewrite length_slice; unfold zlen in *; lia).
  pose proof (int_of_be_bound _ Hsz) as Hsize. unfold zlen in Hsize. rewrite H4 in Hsize. fold size in Hsize.
  assert (zlen body = size) as Hbl by (unfold zlen, body in *; rewrite length_slice by lia; lia).
  exists (slice 0 7 data), body, (drop (Z.to_nat (43 + size)) data).
  split_and!; [done|lia|]. unfold seal. rewrite Hc, Hbl.
  assert (be_of_int 4 size = slice 7 11 data) as ->.
  { unfold size. pose proof (be_of_int_of_be _ Hsz) as Hbe.
    by rewrite H4 in Hbe. }
  unfold body, slice. rewrite drop_0, <- !app_assoc.
  rewrite <- (take_drop 7 data) at 1. f_equal. rewrite <- (take_drop (11 - 7) (drop 7 data)) at 1. f_equal.
  rewrite drop_drop. rewrite <- (take_drop (43 - 11) (drop (7 + (11 - 7)) data)) at 1. f_equal.
  rewrite drop_drop. rewrite <- (take_drop (Z.to_nat (43 + size) - 43) (drop _ data)) at 1. f_equal.
  rewrite drop_drop. f_equal. lia.
Qed.
End codec_facts.

(** * Round trip *)

(** The dictionary an envelope of a version carries. *)
Definition stored (d : list (str * pyval)) (version : Z) : list (str * pyval) :=
  match dict_get (lit "version") d with
  | Some (PInt v) => if version =? 2 then upgrade d v else d
  | _ => d
  end.

(** The metadata an envelope version takes. *)
Definition packable `{Unicode} `{IsoTime} (now : Z) (d : list (str * pyval)) (version : Z) : Prop :=
  well_formed now d ∧ ∃ v, dict_get (lit "version") d = Some (PInt v) ∧ (version = 1 ∧ v = 1 ∨ version = 2).

Lemma plain_dict_set k v d :
  is_Some (dict_get k d) → plain v = true → plain (PDict d) = true → plain (PDict (dict_set k v d)) = true.
Proof.
  intros Hk Hv. cbn [plain]. rewrite !andb_true_iff, !bool_decide_eq_true.
  assert ((dict_set k v d).*1 = d.*1) as ->.
  { induction d as [|[k' v'] d IH]; cbn in *; [by destruct Hk|]. case_decide; [by subst|]. cbn. by rewrite IH. }
  intros [Hd Hnd]. split; [|done]. clear Hnd. induction d as [|[k' v'] d IH]; cbn in *; [by destruct Hk|].
  apply andb_true_iff in Hd as [Hkv Hd]. case_decide; cbn.
  - subst. apply andb_true_iff in Hkv as [-> _]. by rewrite Hv, Hd.
  - rewrite Hkv. cbn. by apply IH.
Qed.

Lemma plain_stored `{Unicode} `{IsoTime} d version :
  plain (PDict d) = true → plain (PDict (stored d version)) = true.
Proof.
  intros Hp. unfold stored, upgrade. destruct (dict_get (lit "version") d) as [[| |v| | | |]|] eqn:Hv; try done.
  destruct (version =? 2); [|done]. destruct (v <? 2); [|done].
  apply plain_dict_set; [rewrite Hv; by eexists|by vm_compute|done].
Qed.

Lemma plain_nodup d : plain (PDict d) = true → NoDup d.*1.
Proof. cbn [plain]. rewrite andb_true_iff, bool_decide_eq_true. tauto. Qed.

Lemma canonical_json_ok v : plain v = true →
  ∃ b, canonical_json v = Ok b ∧ utf8_encode (json_dumps true v) = Some b.
Proof. intros [[b Hb] _]%(json_dumps_utf8 true). unfold canonical_json. rewrite Hb. eauto. Qed.

Section roundtrip.
Context `{Unicode} `{IsoTime} `{Zlib} `{!ZlibLaws} `{FloatText}.

Lemma select_version_packable now d version :
  packable now d version →
  select_version now d version = Ok (PDict (stored d version), if version =? 1 then MAGIC_V1 else MAGIC_V2).
Proof.
  intros [Hw (v & Hv & [[-> ->]| ->])]; unfold select_version, stored; rewrite Hv; cbn [Z.eqb Pos.eqb].
  - rewrite (proj2 (validate_v1_ok now d tt)) by done. by rewrite bind_Ok.
  - rewrite (proj2 (validate_v2_ok now d (PDict (upgrade d v)))) by eauto. by rewrite bind_Ok.
Qed.

Lemma load_canonical v b :
  plain v = true → utf8_encode (json_dumps true v) = Some b → load_metadata (λ _, false) b = Ok (Some (canon v)).
Proof.
  intros Hp Hb. unfold load_metadata. apply (json_dumps_utf8 true) in Hp as Hs.
  rewrite (utf8_decode_encode _ _ (proj2 Hs) Hb). by rewrite json_loads_dumps.
Qed.

Lemma utf8_bytes_ok s b : Forall code_point s → utf8_encode s = Some b → bytes_ok b.
Proof.
  intros Hs. revert b. induction Hs as [|c s Hc Hs IH]; intros b Hb; [injection Hb as <-; constructor|].
  rewrite utf8_encode_cons in Hb. destruct (utf8_char c) as [x|] eqn:Hx; [|done]. cbn in Hb.
  destruct (utf8_encode s) as [y|]; [|done]. cbn in Hb. injection Hb as <-. apply Forall_app. split; [|by apply IH].
  unfold code_point, utf8_char in *. repeat case_match; bool_inv; simplify_eq;
    repeat constructor; unfold byte_ok; Z.div_mod_to_equations; lia.
Qed.

Lemma decompress_compress m :
  bytes_ok m → zlen m ≤ MAX_DECOMPRESSED_BYTES → decompress_metadata (zlib_compress m) = Some m.
Proof.
  intros Hok Hm. unfold decompress_metadata. rewrite zlib_roundtrip by (done || lia). cbn.
  by destruct (Z.ltb_spec MAX_DECOMPRESSED_BYTES (zlen m)); [lia|].
Qed.

(** The metadata that comes out is valid again. *)
Lemma validate_stored now now' d version :
  plain (PDict d) = true → now ≤ now' → packable now d version →
  validate_by_magic now' (if version =? 1 then MAGIC_V1 else MAGIC_V2) (canon (PDict (stored d version)))
  = Some (canon (PDict (stored d version))).
Proof.
  intros Hp Hle [Hw (v & Hv & Hver)]. pose proof (plain_nodup _ (plain_stored d version Hp)) as Hnd.
  rewrite canon_dict. unfold validate_by_magic.
  assert (well_formed now (stored d version)) as Hws.
  { unfold stored. rewrite Hv. destruct (version =? 2); [by apply well_formed_upgrade|done]. }
  apply (well_formed_canon _ now') in Hws; [|done..].
  pose proof (dict_get_canon (lit "version") _ Hnd) as Hvc. destruct Hver as [[-> ->]| ->].
  - rewrite bool_decide_eq_true_2 by done. unfold stored in *. rewrite Hv in *. cbn [Z.eqb Pos.eqb] in *.
    rewrite Hv in Hvc. by rewrite (proj2 (validate_v1_ok now' _ tt)).
  - rewrite bool_decide_eq_false_2 by (vm_compute; discriminate). unfold stored in *. rewrite Hv in *.
    cbn [Z.eqb Pos.eqb] in *.
    assert (∃ n, 2 ≤ n ∧ dict_get (lit "version") (upgrade d v) = Some (PInt n)) as (n & Hn & Hg).
    { unfold upgrade. destruct (Z.ltb_spec v 2); [exists 2|by exists v].
      split; [lia|]. rewrite dict_get_set. by rewrite decide_True. }
    rewrite Hg in Hvc. set (c := sort_items _) in *.
    rewrite (proj2 (validate_v2_ok now' c (PDict (upgrade c n)))) by eauto.
    cbn. unfold upgrade at 1. by destruct (Z.ltb_spec n 2); [lia|].
Qed.

(** The envelope of packable metadata: a sealed body, or one of the size limits. *)
Lemma pack_packable now d version :
  plain (PDict d) = true → packable now d version →
  ∃ canonical, canonical_json (PDict (stored d version)) = Ok canonical ∧ bytes_ok canonical ∧
    utf8_encode (json_dumps true (PDict (stored d version))) = Some canonical ∧
    pack_envelope now d version =
      if (MAX_DECOMPRESSED_BYTES <? zlen canonical) || (MAX_PAYLOAD_BYTES <? zlen (zlib_compress canonical)) then oversized
      else Ok (seal (if version =? 1 then MAGIC_V1 else MAGIC_V2) (zlib_compress canonical)).
Proof.
  intros Hp Hpk. unfold pack_envelope. rewrite select_version_packable, bind_Ok by done.
  pose proof (plain_stored d version Hp) as Hps.
  destruct (canonical_json_ok _ Hps) as (b & Hb & Henc). exists b. rewrite Hb. cbn [map_err]. rewrite bind_Ok.
  split_and!; [done|by eapply utf8_bytes_ok; [apply json_dumps_utf8|exact Henc]|done|].
  by destruct (MAX_DECOMPRESSED_BYTES <? zlen b), (MAX_PAYLOAD_BYTES <? zlen (zlib_compress b)).
Qed.

(** What was packed is a sealed byte string that unpacks to the canonical metadata. *)
Lemma unpack_packed now now' d version data :
  plain (PDict d) = true → packable now d version → now ≤ now' → pack_envelope now d version = Ok data →
  (∃ magic body, is_magic magic ∧ zlen body ≤ MAX_PAYLOAD_BYTES ∧ data = seal magic body ∧ bytes_ok data) ∧
  ∀ rest, unpack_envelope now' (data ++ rest) = Ok (Some (canon (PDict (stored d version)))).
Proof.
  intros Hp Hpk Hle Hpack. destruct (pack_packable now d version Hp Hpk) as (b & _ & Hbo & Henc & Hd).
  rewrite Hpack in Hd. destruct (Z.ltb_spec MAX_DECOMPRESSED_BYTES (zlen b)); [done|].
  destruct (Z.ltb_spec MAX_PAYLOAD_BYTES (zlen (zlib_compress b))); [done|]. cbn in Hd. injection Hd as ->.
  assert (is_magic (if version =? 1 then MAGIC_V1 else MAGIC_V2)) as Hm by (unfold is_magic; case_match; auto). split.
  - eexists _, _. split_and!; [exact Hm| |done|]; [done|]. unfold seal, bytes_ok. rewrite !Forall_app.
    split_and!; [|apply bytes_ok_be_of_int|apply bytes_ok_sha256|by apply zlib_compress_bytes].
    destruct Hm as [-> | ->]; apply (bool_decide_eq_true_1 _); by vm_compute.
  - intros rest. unfold unpack_envelope. rewrite unpack_seal by done. unfold open_body. rewrite decompress_compress by done.
    rewrite (load_canonical _ _ (plain_stored d version Hp) Henc), bind_Ok. f_equal. rewrite canon_dict, <- canon_dict.
    by apply (validate_stored now).
Qed.

(** C3. Round trip of the envelope: for valid plain metadata, packing fails only with
    [METADATA_OVERSIZED] and only when the canonical JSON or its compression is over 64
    KiB; otherwise unpacking the envelope, at that time or later and whatever bytes follow
    it, returns the metadata with keys in order and, in version 2, its version raised
    to 2. *)
Theorem envelope_roundtrip now now' d version rest :
  plain (PDict d) = true → packable now d version → now ≤ now' →
  match pack_envelope now d version with
  | Ok data => unpack_envelope now' (data ++ rest) = Ok (Some (canon (PDict (stored d version))))
  | Err e =>
      e = Meta (metadata_error METADATA_OVERSIZED
        (Some (lit "metadata payload exceeds the 64 KiB steganography limit")) None) ∧
      ∃ canonical, canonical_json (PDict (stored d version)) = Ok canonical ∧
        (MAX_DECOMPRESSED_BYTES < zlen canonical ∨ MAX_PAYLOAD_BYTES < zlen (zlib_compress canonical))
  end.
Proof.
  intros Hp Hpk Hle. destruct (pack_envelope now d version) as [data|e] eqn:Hpack.
  - by apply (unpack_packed now now' d version data).
  - destruct (pack_packable now d version Hp Hpk) as (b & Hb & _ & _ & Hd). rewrite Hpack in Hd.
    destruct (Z.ltb_spec MAX_DECOMPRESSED_BYTES (zlen b)), (Z.ltb_spec MAX_PAYLOAD_BYTES (zlen (zlib_compress b)));
      cbn in Hd; try done; injection Hd as ->; (split; [done|]); eauto.
Qed.
End roundtrip.

(** * What is accepted *)

Section accept.
Context `{Unicode} `{IsoTime} `{Zlib} `{FloatText}.

Lemma validate_by_magic_some now magic d v :
  is_magic magic →
  validate_by_magic now magic (PDict d) = Some v ↔
  well_formed now d ∧
    (magic = MAGIC_V1 ∧ dict_get (lit "version") d = Some (PInt 1) ∧ v = PDict d ∨
     magic = MAGIC_V2 ∧ ∃ n, dict_get (lit "version") d = Some (PInt n) ∧ v = PDict (upgrade d n)).
Proof.
  assert (MAGIC_V2 ≠ MAGIC_V1) as Hne by (vm_compute; discriminate).
  intros [->| ->]; unfold validate_by_magic.
  - rewrite bool_decide_eq_true_2 by done. destruct (validate_v1 now (PDict d)) as [u|] eqn:Hv.
    + apply validate_v1_ok in Hv as [Hw Hg]. naive_solver.
    + split; [done|]. intros [Hw [(_ & Hg & _)|(? & _)]]; [|naive_solver].
      assert (validate_v1 now (PDict d) = Ok tt) by (by apply validate_v1_ok). congruence.
  - rewrite bool_decide_eq_false_2 by done. destruct (validate_v2 now (PDict d)) as [m|] eqn:Hv; cbn.
    + apply validate_v2_ok in Hv as [Hw (n & Hg & ->)]. naive_solver.
    + split; [done|]. intros [Hw [(? & _)|(_ & n & Hg & _)]]; [naive_solver|].
      assert (validate_v2 now (PDict d) = Ok (PDict (upgrade d n))) by (apply validate_v2_ok; eauto). congruence.
Qed.

Lemma open_body_some overflows now magic body v :
  open_body overflows now magic body = Ok (Some v) ↔
  ∃ text s d, decompress_metadata body = Some text ∧ utf8_decode text = Some s ∧ overflows s = false ∧
    json_loads s = Ok (PDict d) ∧ validate_by_magic now magic (PDict d) = Some v.
Proof.
  unfold open_body, load_metadata. destruct (decompress_metadata body) as [text|]; [|naive_solver].
  destruct (utf8_decode text) as [s|] eqn:Hs; [|naive_solver].
  destruct (overflows s) eqn:Hov; [split; [done|]; intros (? & ? & d & [= <-] & ? & ? & _); congruence|].
  destruct (json_loads s) as [w|err] eqn:Hl.
  2:{ split; [by destruct err|]. intros (? & ? & d & [= <-] & ? & _ & ? & _). congruence. }
  rewrite bind_Ok. split.
  - intros [= Hv]. destruct w as [| | | | | |d]; try done. by exists text, s, d.
  - intros (? & s' & d & [= <-] & Hs' & _ & Hl' & Hd). assert (s' = s) as -> by congruence.
    assert (w = PDict d) as -> by congruence. by rewrite Hd.
Qed.

Lemma open_body_err overflows now magic body e :
  open_body overflows now magic body = Err e ↔
  ∃ text s, decompress_metadata body = Some text ∧ utf8_decode text = Some s ∧
    (overflows s = true ∧ e = RecursionError ∨ overflows s = false ∧ json_loads s = Err IntDigitsError ∧ e = IntLengthError).
Proof.
  unfold open_body, load_metadata. destruct (decompress_metadata body) as [text|]; [|naive_solver].
  destruct (utf8_decode text) as [s|] eqn:Hs; [|naive_solver]. destruct (overflows s) eqn:Hov.
  - split; [intros [= <-]; exists text, s; auto|]. intros (? & s' & [= <-] & ? & [[_ ->]|[? _]]); [done|congruence].
  - destruct (json_loads s) as [w|[]] eqn:Hl; (split; [intros [= <-]|intros (? & s' & [= <-] & ? & [[? _]|(_ & ? & ->)]); try congruence]).
    + exists text, s. split_and!; [done|done|by right].
    + done.
Qed.

(** C4. What [unpack_envelope] does with whatever bytes, and whatever nesting the stack of the
    interpreter cannot hold ([overflows]).  It accepts exactly one of the two magics, the
    big-endian size of the body, its SHA-256 and the body, followed by anything, where the body
    inflates completely within 64 KiB to the JSON of well-formed metadata of a version the magic
    allows, which is returned (with a version below 2 raised in a version 2 envelope), when the
    stack holds the text.  It raises exactly for sealed bodies within the size limit that inflate
    to UTF-8 text on which [json.loads] overflows the stack ([RecursionError]) or meets an integer
    literal of more than 4300 digits ([ValueError]).  Anything else is [None]. *)
Theorem unpack_accepts_iff overflows now data :
  bytes_ok data →
  (∀ v, unpack_with now overflows data = Ok (Some v) ↔
    ∃ magic body rest text s d,
      is_magic magic ∧ zlen body ≤ MAX_PAYLOAD_BYTES ∧ data = seal magic body ++ rest ∧
      decompress_metadata body = Some text ∧ utf8_decode text = Some s ∧ overflows s = false ∧ json_loads s = Ok (PDict d) ∧
      well_formed now d ∧
      (magic = MAGIC_V1 ∧ dict_get (lit "version") d = Some (PInt 1) ∧ v = PDict d ∨
       magic = MAGIC_V2 ∧ ∃ n, dict_get (lit "version") d = Some (PInt n) ∧ v = PDict (upgrade d n))) ∧
  (∀ e, unpack_with now overflows data = Err e ↔
    ∃ magic body rest text s, is_magic magic ∧ zlen body ≤ MAX_PAYLOAD_BYTES ∧ data = seal magic body ++ rest ∧
      decompress_metadata body = Some text ∧ utf8_decode text = Some s ∧
      (overflows s = true ∧ e = RecursionError ∨
       overflows s = false ∧ json_loads s = Err IntDigitsError ∧ e = IntLengthError)).
Proof.
  intros Hd. split.
  - intros v. split.
    + intros Hv. destruct (unpack_inv overflows now data Hd) as (magic & body & rest & Hm & Hb & ->); [congruence|].
      rewrite unpack_seal in Hv by done. apply open_body_some in Hv as (text & s & d & ? & ? & ? & ? & Hv).
      apply validate_by_magic_some in Hv as [? ?]; [|done]. exists magic, body, rest, text, s, d. done.
    + intros (magic & body & rest & text & s & d & Hm & Hb & -> & ? & ? & ? & ? & Hw & Hv).
      rewrite unpack_seal by done. apply open_body_some. exists text, s, d. split_and!; [done..|].
      by apply validate_by_magic_some.
  - intros e. split.
    + intros He. destruct (unpack_inv overflows now data Hd) as (magic & body & rest & Hm & Hb & ->); [congruence|].
      rewrite unpack_seal in He by done. apply open_body_err in He as (text & s & ?).
      exists magic, body, rest, text, s. done.
    + intros (magic & body & rest & text & s & Hm & Hb & -> & Ht). rewrite unpack_seal by done. apply open_body_err. eauto.
Qed.

(** * Errors *)

(** Every error of the envelope, by its static text. *)
Definition field_error (message field : string) : MetadataError :=
  metadata_error METADATA_INVALID_FIELD (Some (lit message)) (Some (lit field)).
Definition fixed_errors : list MetadataError :=
  metadata_error METADATA_MALFORMED (Some (lit "metadata must be a JSON object")) None ::
  metadata_error METADATA_OVERSIZED (Some (lit "metadata payload exceeds the 64 KiB steganography limit")) None ::
  [field_error "metadata timestamp must be a string" "timestamp";
   field_error "metadata timestamp must be a timezone-aware ISO-8601 string" "timestamp";
   field_error "metadata timestamp must be timezone-aware" "timestamp";
   field_error "metadata timestamp is unreasonably far in the future" "timestamp";
   field_error "metadata protocol must be harpocrates" "protocol";
   field_error "metadata tier is invalid" "tier";
   field_error "metadata sourceHash must be a 32-byte hex string" "sourceHash";
   field_error "metadata proofId must be a 32-byte hex string" "proofId";
   field_error "metadata version must be 1" "version";
   field_error "metadata version must be an integer" "version"].
Definition missing_error (f : str) : MetadataError :=
  metadata_error METADATA_MISSING_FIELD (Some (lit "metadata missing required field: " ++ f)) (Some f).
Definition static_errors : list MetadataError := fixed_errors ++ (missing_error <$> required).

Definition version_error (version : Z) : MetadataError :=
  metadata_error METADATA_UNSUPPORTED_VERSION (Some (lit "unsupported metadata version " ++ dec_str version)) None.

Ltac static_case := apply (bool_decide_eq_true_1 _); vm_compute; reflexivity.

Lemma missing_fields_required d f fs : missing_fields d = f :: fs → f ∈ required.
Proof.
  unfold missing_fields. set (l := filter _ required). intros Hl.
  assert (f ∈ (sort_items (map (λ f : str, (f, tt)) l)).*1) as Hin by (rewrite Hl; by left).
  rewrite sort_items_perm in Hin. apply list_elem_of_fmap in Hin as ([g []] & -> & Hg).
  apply list_elem_of_In, in_map_iff in Hg as (h & [= <-] & Hh). apply list_elem_of_In in Hh.
  by apply list_elem_of_filter in Hh as [_ ?].
Qed.

Lemma check_fields_static now d e : check_fields now d = Err (Meta e) → e ∈ static_errors.
Proof.
  unfold check_fields. destruct (missing_fields d) as [|f fs] eqn:Hm.
  2:{ intros [= <-]. apply missing_fields_required in Hm. apply elem_of_app. right.
      apply list_elem_of_fmap. by exists f. }
  unfold check_tier, validate_timestamp, meta.
  intros [Hp|(_ & _ & [Ht|(_ & _ & [Hs|(_ & _ & [Hr|(_ & _ & Hts)]%bind_err)]%bind_err)]%bind_err)]%bind_err.
  - repeat case_match; simplify_eq; static_case.
  - repeat case_match; simplify_eq; static_case.
  - repeat case_match; simplify_eq; static_case.
  - repeat case_match; simplify_eq; static_case.
  - repeat case_match; simplify_eq; static_case.
Qed.

Lemma pack_errors now d version e :
  pack_envelope now d version = Err (Meta e) → e ∈ version_error version :: static_errors.
Proof.
  unfold pack_envelope. intros [Hs|((m & magic) & Hs & Hp)]%bind_err.
  - unfold select_version, validate_v1, validate_v2 in Hs. cbn [validate_base_fields] in Hs.
    destruct (version =? 1); [|destruct (version =? 2)].
    + apply bind_err in Hs as [[Hc|(_ & _ & Hv)]%bind_err|(? & ? & ?)]; [| |done]; right.
      * by eapply check_fields_static.
      * unfold meta in Hv. repeat case_match; simplify_eq; static_case.
    + apply bind_err in Hs as [[Hc|(_ & _ & Hv)]%bind_err|(? & ? & ?)]; [| |done]; right.
      * by eapply check_fields_static.
      * unfold meta in Hv. repeat case_match; simplify_eq; static_case.
    + injection Hs as <-. by left.
  - right. apply bind_err in Hp as [Hc|(b & _ & Hp)].
    + by destruct (canonical_json m).
    + unfold oversized, meta in Hp. repeat case_match; simplify_eq; static_case.
Qed.

Lemma dec_str_chars z : Forall (λ c, c = 45 ∨ 48 ≤ c ≤ 57) (dec_str z).
Proof.
  unfold dec_str. assert (∀ y, 0 ≤ y → Forall (λ c, c = 45 ∨ 48 ≤ c ≤ 57) ((λ d, 48 + d) <$> digits 10 y)) as Hd.
  { intros y Hy. apply Forall_fmap. eapply Forall_impl; [apply (digits_range 10); lia|]. cbn. intros. lia. }
  destruct (Z.ltb_spec z 0); [constructor; [by left|]|]; apply Hd; lia.
Qed.

(** The classifier gives every error of the envelope its own code back. *)
Lemma classify_static e : e ∈ static_errors → me_code (classify_validation_error (me_message e)) = me_code e.
Proof.
  assert (forallb (λ e, forallb (λ c, c <? 128) (me_message e) &&
    bool_decide (first_rule CLASSIFY_RULES (ascii_lower <$> me_message e) = me_code e)) static_errors = true) as Hall
    by (vm_compute; reflexivity).
  apply forallb_Forall in Hall. rewrite Forall_forall in Hall. intros [Ha Hc]%Hall%andb_true_iff.
  apply bool_decide_eq_true in Hc. unfold classify_validation_error. cbn.
  rewrite py_lower_ascii; [done|]. apply forallb_Forall in Ha. eapply Forall_impl; [exact Ha|].
  cbn. intros. by apply Z.ltb_lt.
Qed.

Lemma classify_version version :
  me_code (classify_validation_error (me_message (version_error version))) = METADATA_UNSUPPORTED_VERSION.
Proof.
  pose proof (dec_str_chars version) as Hd. unfold version_error. set (dv := dec_str version) in *. clearbody dv.
  assert (me_message (metadata_error METADATA_UNSUPPORTED_VERSION (Some (lit "unsupported metadata version " ++ dv)) None)
    = lit "unsupported metadata version " ++ dv) as -> by done.
  unfold classify_validation_error. cbn [metadata_error me_code].
  rewrite py_lower_ascii, fmap_app by (apply Forall_app; split;
    [by apply (bool_decide_eq_true_1 _); vm_compute|eapply Forall_impl; [exact Hd|cbn; lia]]).
  assert (ascii_lower <$> dv = dv) as ->.
  { clear -Hd. induction Hd as [|c dv Hc Hd IH]; [done|]. rewrite fmap_cons, IH. f_equal. unfold ascii_lower.
    destruct (Z.leb_spec 65 c); [lia|done]. }
  assert (∀ needle l, 58 ≤ l → contains (needle ++ [l]) (ascii_lower <$> lit "unsupported metadata version ") = false →
    contains (needle ++ [l]) ((ascii_lower <$> lit "unsupported metadata version ") ++ dv) = false) as Hno.
  { intros needle l Hl Hf. apply not_true_iff_false. intros Hc. apply contains_app_suffix in Hc; [congruence|].
    intros Hin. rewrite Forall_forall in Hd. apply Hd in Hin. lia. }
  assert (contains (lit "unsupported metadata version") ((ascii_lower <$> lit "unsupported metadata version ") ++ dv) = true) as Hyes.
  { apply contains_spec. exists [], (32 :: dv). done. }
  set (text := _ ++ dv) in *. unfold CLASSIFY_RULES. cbn [first_rule map existsb]. rewrite Hyes.
  assert (contains (lit "exceeds the") text = false) as -> by (by apply (Hno (lit "exceeds th") 101)).
  assert (contains (lit "too large") text = false) as -> by (by apply (Hno (lit "too larg") 101)).
  assert (contains (lit "size limit") text = false) as -> by (by apply (Hno (lit "size limi") 116)).
  assert (contains (lit "capacity") text = false) as -> by (by apply (Hno (lit "capacit") 121)).
  done.
Qed.

(** The errors of packing are static: the code, message, field name and status of an
    error depend on no metadata value (only an unsupported envelope version is named), the
    response built from it is that of its taxonomy entry, and if it is demoted to a plain
    [ValueError] with the same text, the classifier finds the same code. *)
Theorem pack_errors_static now d version e rid :
  pack_envelope now d version = Err (Meta e) →
  e ∈ version_error version :: static_errors ∧ me_status e = ERROR_STATUS (me_code e) ∧
  me_code (as_metadata_error (RaisedOther (me_message e))) = me_code e ∧
  metadata_error_response rid (RaisedMetadata e) =
    error_response rid (code_text (me_code e)) (me_message e) (ERROR_STATUS (me_code e)) (me_field e).
Proof.
  intros He%pack_errors.
  assert (me_status e = ERROR_STATUS (me_code e)) as Hst.
  { apply elem_of_cons in He as [->|He]; [done|]. apply elem_of_app in He as [He|He].
    - revert e He. apply Forall_forall. apply (bool_decide_eq_true_1 _). by vm_compute.
    - apply list_elem_of_fmap in He as (f & -> & _). done. }
  split_and!; [done|done| |unfold metadata_error_response; cbn; by rewrite Hst].
  apply elem_of_cons in He as [->|He]; [apply classify_version|by apply classify_static].
Qed.
End accept.

(** * Witnesses *)

#[local] Instance sample_unicode : Unicode := plain_unicode.
#[local] Instance sample_floats : FloatText := λ s, PyFloat s s (Err OverflowError) false.
#[local] Instance sample_time : IsoTime :=
  λ s, if bool_decide (s = lit "2026-01-01T00:00:00+00:00") then Some (Some 1767225600) else None.

(** A codec that stores its data. *)
#[local] Instance sample_zlib : Zlib := {|
  zlib_compress m := m;
  zlib_decompress b n :=
    if zlen b <? n then Some (Inflated b [] true [])
    else Some (Inflated (take (Z.to_nat n) b) (drop (Z.to_nat n) b) false []) |}.

#[local] Instance sample_zlib_laws : ZlibLaws.
Proof. split; [|done]. intros m n _ Hm. cbn. by rewrite (proj2 (Z.ltb_lt _ _) Hm). Qed.

Definition sample_metadata : list (str * pyval) :=
  [(lit "version", PInt 1); (lit "protocol", PStr (lit "harpocrates")); (lit "tier", PStr (lit "seal"));
   (lit "sourceHash", PStr (replicate 64 97)); (lit "proofId", PStr (replicate 64 48));
   (lit "timestamp", PStr (lit "2026-01-01T00:00:00Z"))].

Lemma sample_well_formed : well_formed 1767225600 sample_metadata.
Proof. by apply (check_fields_ok _ _ tt); vm_compute. Qed.

Lemma envelope_roundtrip_witness :
  is_ok (pack_envelope 1767225600 sample_metadata 2) = true ∧
  match pack_envelope 1767225600 sample_metadata 2 with
  | Ok data => unpack_envelope 1767225700 (data ++ [1; 2]) = Ok (Some (canon (PDict (stored sample_metadata 2))))
  | Err e =>
      e = Meta (metadata_error METADATA_OVERSIZED
        (Some (lit "metadata payload exceeds the 64 KiB steganography limit")) None) ∧
      ∃ canonical, canonical_json (PDict (stored sample_metadata 2)) = Ok canonical ∧
        (MAX_DECOMPRESSED_BYTES < zlen canonical ∨ MAX_PAYLOAD_BYTES < zlen (zlib_compress canonical))
  end.
Proof.
  split; [vm_compute; reflexivity|].
  apply (envelope_roundtrip 1767225600 1767225700 sample_metadata 2 [1; 2]).
  - vm_compute. reflexivity.
  - split; [exact sample_well_formed|]. exists 1. split; [vm_compute; reflexivity|by right].
  - lia.
Defined.

(** A sealed body that is not metadata. *)
Definition sample_data : bytes := seal MAGIC_V2 [91; 93].

Lemma sample_data_ok : bytes_ok sample_data.
Proof.
  unfold sample_data, seal, bytes_ok. rewrite !Forall_app.
  split_and!; [|apply bytes_ok_be_of_int|apply bytes_ok_sha256|];
    apply (bool_decide_eq_true_1 _); vm_compute; reflexivity.
Qed.

Lemma unpack_accepts_iff_witness :
  bytes_ok sample_data ∧
  (∀ e, unpack_with 0 (λ s, bool_decide (s = lit "[]")) sample_data = Err e ↔
    ∃ magic body rest text s, is_magic magic ∧ zlen body ≤ MAX_PAYLOAD_BYTES ∧ sample_data = seal magic body ++ rest ∧
      decompress_metadata body = Some text ∧ utf8_decode text = Some s ∧
      (bool_decide (s = lit "[]") = true ∧ e = RecursionError ∨
       bool_decide (s = lit "[]") = false ∧ json_loads s = Err IntDigitsError ∧ e = IntLengthError)).
Proof.
  split; [apply sample_data_ok|]. apply (unpack_accepts_iff (λ s, bool_decide (s = lit "[]")) 0 sample_data). apply sample_data_ok.
Defined.

Lemma pack_errors_static_witness :
  let e := missing_error (lit "proofId") in
  pack_envelope 0 [] 2 = Err (Meta e) ∧
  (e ∈ version_error 2 :: static_errors ∧ me_status e = ERROR_STATUS (me_code e) ∧
   me_code (as_metadata_error (RaisedOther (me_message e))) = me_code e ∧
   metadata_error_response (lit "r") (RaisedMetadata e) =
     error_response (lit "r") (code_text (me_code e)) (me_message e) (ERROR_STATUS (me_code e)) (me_field e)).
Proof.
  split; [vm_compute; reflexivity|].
  apply (pack_errors_static 0 [] 2 (missing_error (lit "proofId")) (lit "r")). vm_compute. reflexivity.
Defined.
