(* ===== verification/Receipt.v ===== *)
(** The verification-receipt input ([backend/verification_receipt.py]).  A receipt is
    emitted only for a complete context; the time is a parameter.  Shown: exactly which
    contexts give a receipt and which fields it carries, and that a 32-byte hash is
    checked by what [int(value, 16)] reads, so a 64-character text with a [0x] prefix
    passes for one. *)
From Stdlib Require Import ZArith Lia.
From stdpp Require Import base decidable strings numbers list.
From S2P Require Import Prelude PyStr PyVal.

Open Scope Z_scope.

#[local] Arguments lit _ : simpl never.

Inductive receipt_result : Type := verified | unverified.

Record VerificationReceiptInput := MkReceipt {
  rc_result : receipt_result;
  verifiedAt : str;
  rc_proofId : str;
  rc_videoHash : str;
  rc_metadataHash : str;
  rc_tier : pyval;
  networkPassphrase : str;
  contractId : str;
  ledgerSequence : option Z;
  transactionHash : option str;
  circuitVersion : str;
  verifierVersion : str;
}.

(** A rejected field; the message names the field and what it must be. *)
Inductive receipt_error : Type :=
  | NotText (field : string) | NotHex32 (field : string) | NotCount (field : string) | NotChoice (field : string).

Section receipt.
Context `{Unicode}.

Definition text (value : pyval) (field : string) : result receipt_error str :=
  match value with
  | PStr s => if bool_decide (py_strip s = []) then Err (NotText field) else Ok s
  | _ => Err (NotText field)
  end.

Definition hex32 (value : pyval) (field : string) : result receipt_error str :=
  match value with
  | PStr s =>
      if negb (zlen s =? 64) then Err (NotHex32 field)
      else match py_int 16 s with None => Err (NotHex32 field) | Some _ => Ok (py_lower s) end
  | _ => Err (NotHex32 field)
  end.

Definition optional_hex32 (value : pyval) (field : string) : result receipt_error (option str) :=
  match value with PNone => Ok None | _ => s ← hex32 value field; Ok (Some s) end.

Definition optional_int (value : pyval) (field : string) : result receipt_error (option Z) :=
  match value with
  | PNone => Ok None
  | PInt z => if z <? 0 then Err (NotCount field) else Ok (Some z)
  | _ => Err (NotCount field)
  end.

Definition choice (value : pyval) (field : string) (choices : list str) : result receipt_error pyval :=
  if in_str_tuple value choices then Ok value else Err (NotChoice field).

Definition RECEIPT_TIERS : list str := [lit "silent"; lit "source"; lit "seal"].

(** The fields are evaluated in the order of the dictionary display. *)
Definition build_verification_receipt (now : str) (context : list (str * pyval)) (res : receipt_result) :
    result receipt_error VerificationReceiptInput :=
  let get k := get_or_none (lit k) context in
  proof_id ← hex32 (get "proofId") "proofId";
  video ← hex32 (get "videoHash") "videoHash";
  metadata ← hex32 (get "metadataHash") "metadataHash";
  tier ← choice (get "tier") "tier" RECEIPT_TIERS;
  passphrase ← text (get "networkPassphrase") "networkPassphrase";
  contract ← text (get "contractId") "contractId";
  ledger ← optional_int (get "ledgerSequence") "ledgerSequence";
  tx ← optional_hex32 (get "transactionHash") "transactionHash";
  circuit ← text (get "circuitVersion") "circuitVersion";
  verifier ← text (get "verifierVersion") "verifierVersion";
  Ok (MkReceipt res now proof_id video metadata tier passphrase contract ledger tx circuit verifier).

(** * What a receipt says *)

(** The hashes of a context: 64 characters that [int(_, 16)] reads. *)
Definition hash_like (s : str) : Prop := zlen s = 64 ∧ is_Some (py_int 16 s).
Definition filled (s : str) : Prop := py_strip s ≠ [].

(** The context as the receipt needs it. *)
Record complete_context (context : list (str * pyval)) (r : VerificationReceiptInput) : Prop := {
  cc_proof : ∃ s, dict_get (lit "proofId") context = Some (PStr s) ∧ hash_like s ∧ rc_proofId r = py_lower s;
  cc_video : ∃ s, dict_get (lit "videoHash") context = Some (PStr s) ∧ hash_like s ∧ rc_videoHash r = py_lower s;
  cc_metadata : ∃ s, dict_get (lit "metadataHash") context = Some (PStr s) ∧ hash_like s ∧ rc_metadataHash r = py_lower s;
  cc_tier : ∃ s, dict_get (lit "tier") context = Some (PStr s) ∧ s ∈ RECEIPT_TIERS ∧ rc_tier r = PStr s;
  cc_passphrase : dict_get (lit "networkPassphrase") context = Some (PStr (networkPassphrase r)) ∧ filled (networkPassphrase r);
  cc_contract : dict_get (lit "contractId") context = Some (PStr (contractId r)) ∧ filled (contractId r);
  cc_ledger : match ledgerSequence r with
    | None => get_or_none (lit "ledgerSequence") context = PNone
    | Some z => dict_get (lit "ledgerSequence") context = Some (PInt z) ∧ 0 ≤ z end;
  cc_tx : match transactionHash r with
    | None => get_or_none (lit "transactionHash") context = PNone
    | Some h => ∃ s, dict_get (lit "transactionHash") context = Some (PStr s) ∧ hash_like s ∧ h = py_lower s end;
  cc_circuit : dict_get (lit "circuitVersion") context = Some (PStr (circuitVersion r)) ∧ filled (circuitVersion r);
  cc_verifier : dict_get (lit "verifierVersion") context = Some (PStr (verifierVersion r)) ∧ filled (verifierVersion r);
}.

Lemma get_str k (d : list (str * pyval)) s : get_or_none k d = PStr s ↔ dict_get k d = Some (PStr s).
Proof. unfold get_or_none. destruct (dict_get k d) as [v|]; cbn; naive_solver. Qed.

Lemma text_ok k d f t : text (get_or_none k d) f = Ok t ↔ dict_get k d = Some (PStr t) ∧ filled t.
Proof.
  rewrite <- get_str. unfold text, filled. destruct (get_or_none k d) as [| | | |s| |]; try naive_solver.
  destruct (bool_decide (py_strip s = [])) eqn:Hs; bool_inv; naive_solver.
Qed.

Lemma hex32_ok k d f t :
  hex32 (get_or_none k d) f = Ok t ↔ ∃ s, dict_get k d = Some (PStr s) ∧ hash_like s ∧ t = py_lower s.
Proof.
  setoid_rewrite <- get_str. unfold hex32, hash_like. destruct (get_or_none k d) as [| | | |s| |]; try naive_solver.
  destruct (Z.eqb_spec (zlen s) 64); [|naive_solver]. cbn [negb].
  destruct (py_int 16 s) eqn:Hi; [|split; [done|]; intros (s' & [= <-] & [_ Hs] & _); rewrite Hi in Hs; by destruct Hs].
  split; [intros [= <-]; exists s; rewrite Hi; eauto 6|]. intros (s' & [= <-] & _ & ->). done.
Qed.

Lemma optional_hex32_ok k d f o :
  optional_hex32 (get_or_none k d) f = Ok o ↔
  match o with
  | None => get_or_none k d = PNone
  | Some h => ∃ s, dict_get k d = Some (PStr s) ∧ hash_like s ∧ h = py_lower s
  end.
Proof.
  unfold optional_hex32. destruct (get_or_none k d) eqn:Hg.
  { destruct o; [|done]. split; [done|]. intros (s & Hs & _). apply get_str in Hs. congruence. }
  all: rewrite <- Hg; destruct o as [h|];
    [rewrite <- (hex32_ok k d f h); destruct (hex32 (get_or_none k d) f); naive_solver
    |split; [destruct (hex32 (get_or_none k d) f); done|congruence]].
Qed.

Lemma optional_int_ok k d f o :
  optional_int (get_or_none k d) f = Ok o ↔
  match o with None => get_or_none k d = PNone | Some z => dict_get k d = Some (PInt z) ∧ 0 ≤ z end.
Proof.
  unfold optional_int, get_or_none. destruct (dict_get k d) as [v|]; cbn; [|destruct o; naive_solver].
  destruct v as [| |z| | | |]; try (destruct o; naive_solver).
  destruct (Z.ltb_spec z 0); destruct o as [y|]; split; try done.
  - intros [[= ->] ?]. lia.
  - by intros [= ->].
  - by intros [[= ->] _].
Qed.

Lemma choice_ok k d f cs v :
  choice (get_or_none k d) f cs = Ok v ↔ ∃ s, dict_get k d = Some (PStr s) ∧ s ∈ cs ∧ v = PStr s.
Proof.
  setoid_rewrite <- get_str. unfold choice, in_str_tuple. destruct (get_or_none k d) as [| | | |s| |]; try naive_solver.
  destruct (bool_decide (s ∈ cs)) eqn:Hs; bool_inv; naive_solver.
Qed.

Lemma build_receipt_ok now context res r :
  build_verification_receipt now context res = Ok r ↔
  rc_result r = res ∧ verifiedAt r = now ∧ complete_context context r.
Proof.
  unfold build_verification_receipt. split.
  - intros (p & Hp & (v & Hv & (m & Hm & (t & Ht & (n & Hn & (c & Hc & (l & Hl & (x & Hx & (ci & Hci & (ve & Hve &
      [= <-])%bind_ok)%bind_ok)%bind_ok)%bind_ok)%bind_ok)%bind_ok)%bind_ok)%bind_ok)%bind_ok)%bind_ok.
    split_and!; [done..|]. split; cbn.
    + by apply hex32_ok in Hp.
    + by apply hex32_ok in Hv.
    + by apply hex32_ok in Hm.
    + by apply choice_ok in Ht.
    + by apply text_ok in Hn.
    + by apply text_ok in Hc.
    + by apply optional_int_ok in Hl.
    + by apply optional_hex32_ok in Hx.
    + by apply text_ok in Hci.
    + by apply text_ok in Hve.
  - destruct r as [re va p v m t n c l x ci ve]. cbn. intros (-> & -> & [Hp Hv Hm Ht Hn Hc Hl Hx Hci Hve]). cbn in *.
    rewrite (proj2 (hex32_ok (lit "proofId") context "proofId" p)), bind_Ok by done.
    rewrite (proj2 (hex32_ok (lit "videoHash") context "videoHash" v)), bind_Ok by done.
    rewrite (proj2 (hex32_ok (lit "metadataHash") context "metadataHash" m)), bind_Ok by done.
    rewrite (proj2 (choice_ok (lit "tier") context "tier" RECEIPT_TIERS t)), bind_Ok by done.
    rewrite (proj2 (text_ok (lit "networkPassphrase") context "networkPassphrase" n)), bind_Ok by done.
    rewrite (proj2 (text_ok (lit "contractId") context "contractId" c)), bind_Ok by done.
    rewrite (proj2 (optional_int_ok (lit "ledgerSequence") context "ledgerSequence" l)), bind_Ok by done.
    rewrite (proj2 (optional_hex32_ok (lit "transactionHash") context "transactionHash" x)), bind_Ok by done.
    rewrite (proj2 (text_ok (lit "circuitVersion") context "circuitVersion" ci)), bind_Ok by done.
    by rewrite (proj2 (text_ok (lit "verifierVersion") context "verifierVersion" ve)), bind_Ok by done.
Qed.

Lemma prefixed_hash_like s :
  zlen s = 62 → Forall (λ c, is_hex c = true) s → hash_like (lit "0x" ++ s).
Proof.
  intros Hl Hs. split; [unfold zlen in *; rewrite length_app; change (length (lit "0x")) with 2%nat; lia|].
  change (lit "0x" ++ s) with (48 :: 120 :: s). destruct (scan_hex s 0 0 Hs) as [v Hv]. unfold py_int.
  assert (to_ascii_digits (48 :: 120 :: s) = 48 :: 120 :: s) as ->.
  { unfold to_ascii_digits. replace (forallb is_ascii (48 :: 120 :: s)) with true; [done|]. symmetry. cbn.
    apply forallb_Forall. eapply Forall_impl; [exact Hs|]. cbn. intros c Hc%is_hex_char. unfold is_ascii. lia. }
  assert (read_prefix 16 (48 :: 120 :: s) = s) as Hpre.
  { destruct s as [|c s]; [done|]. apply Forall_cons in Hs as [Hc _]. apply is_hex_char in Hc. cbn.
    destruct c as [|p|p]; try done. repeat (destruct p as [p|p|]; try done); lia. }
  change (drop_while c_space (48 :: 120 :: s)) with (48 :: 120 :: s).
  change (read_sign (48 :: 120 :: s)) with (1, 48 :: 120 :: s). cbv beta iota zeta. rewrite Hpre, Hv.
  destruct s as [|c s]; [done|]. apply Forall_cons in Hs as [Hc _]. apply is_hex_char in Hc.
  rewrite bool_decide_eq_false_2 by (cbn; intros [= ->]; lia). cbn. eauto.
Qed.

(** A receipt is built exactly from a complete context: three hashes, a known tier,
    four non-blank texts, and a ledger and transaction hash that are absent or valid; its
    fields are those of the context with the hashes in lower case.  A hash is whatever
    64 characters [int(_, 16)] reads, so [0x] and 62 digits pass for a 32-byte hash. *)
Theorem receipt_complete_context now context res :
  (∀ r, build_verification_receipt now context res = Ok r ↔
    rc_result r = res ∧ verifiedAt r = now ∧ complete_context context r) ∧
  (∀ s, zlen s = 62 → Forall (λ c, is_hex c = true) s → hash_like (lit "0x" ++ s)).
Proof. split; [intros r; apply build_receipt_ok|apply prefixed_hash_like]. Qed.
End receipt.
