(* ===== verification/Stego.v ===== *)
(** The carrier of the envelope ([backend/stego.py]): the bits of a payload as coloured
    blocks along the border of the frames, and once more in the low bits of the samples.
    A frame is what FFmpeg delivers as [rgb24]: its samples row by row, three to a pixel.
    FFmpeg is a parameter: the frames it decodes are an argument, and between embedding
    and extraction stands any list of frames within a distance of those written.

    The function that embeds is the one at the head of the module; a second definition of
    the same name replaces it and calls functions that exist nowhere.

    Shown: metadata that fits the border is recovered although every sample may be off by
    up to 23 levels, in frames of at least ten by ten pixels. *)
From Stdlib Require Import ZArith Lia.
From stdpp Require Import base decidable strings numbers list sorting.
From S2P Require Import Prelude PyStr Json PyVal Codec Sha256 MetadataErrors Envelope.

Open Scope Z_scope.

#[local] Arguments lit _ : simpl never.

Notation frame := (list Z).

Definition BORDER_BLOCK : Z := 6.
Definition BORDER_STRIDE : Z := 2.

(** [VideoInfo] without the frame rate, which is handed to the encoder. *)
Record VideoInfo := MkVideoInfo { width : Z; height : Z; frame_count : option Z }.

(** * Bits *)

Definition byte_bits (b : Z) : list Z := (λ s, Z.land (Z.shiftr b s) 1) <$> [7; 6; 5; 4; 3; 2; 1; 0].
Definition bytes_to_bits (data : bytes) : list Z := data ≫= byte_bits.

Definition bits_byte (bits : list Z) : Z := foldl (λ value bit, Z.lor (Z.shiftl value 1) bit) 0 bits.

(** Whole groups of eight; the rest is dropped. *)
Fixpoint bits_to_bytes (bits : list Z) : bytes :=
  match bits with
  | b7 :: b6 :: b5 :: b4 :: b3 :: b2 :: b1 :: b0 :: bits =>
      bits_byte [b7; b6; b5; b4; b3; b2; b1; b0] :: bits_to_bytes bits
  | _ => []
  end.

(** * The border *)

(** [range(a, b, step)] for a step that is not zero *)
Definition py_range (a b step : Z) : list Z :=
  (λ i, a + step * i) <$> seqZ 0 (if 0 <? step then (b - a + step - 1) / step else (a - b - step - 1) / (- step)).

(** The centres of the blocks as row and column. *)
Definition border_positions (width height : Z) : list (Z * Z) :=
  ((λ x, (BORDER_STRIDE, x)) <$> py_range 0 width BORDER_BLOCK) ++
  ((λ y, (y, width - BORDER_STRIDE - 1)) <$> py_range BORDER_BLOCK height BORDER_BLOCK) ++
  ((λ x, (height - BORDER_STRIDE - 1, x)) <$> py_range (width - BORDER_BLOCK) (-1) (- BORDER_BLOCK)) ++
  ((λ y, (y, BORDER_STRIDE)) <$> py_range (height - BORDER_BLOCK) (BORDER_BLOCK - 1) (- BORDER_BLOCK)).

Definition border_capacity (width height : Z) : Z := zlen (border_positions width height).

(** The block around a position, cut at the edges of the frame: [y0], [y1], [x0], [x1]. *)
Definition block (width height : Z) (p : Z * Z) : Z * Z * Z * Z :=
  (Z.max 0 (p.1 - BORDER_STRIDE), Z.min height (p.1 + BORDER_STRIDE + 1),
   Z.max 0 (p.2 - BORDER_STRIDE), Z.min width (p.2 + BORDER_STRIDE + 1)).

Definition in_block (width height : Z) (p : Z * Z) (y x : Z) : bool :=
  let '(y0, y1, x0, x1) := block width height p in
  (y0 <=? y) && (y <? y1) && (x0 <=? x) && (x <? x1).

(** [frame[y0:y1, x0:x1, :] = color] *)
Definition paint (width height : Z) (p : Z * Z) (color : Z) (f : frame) : frame :=
  imap (λ i v, let q := Z.of_nat i / 3 in if in_block width height p (q / width) (q mod width) then color else v) f.

Definition color_of (bit : Z) : Z := if bit =? 0 then 17 else 238.

Fixpoint embed_positions (width height : Z) (ps : list (Z * Z)) (bits : list Z) (f : frame) (cursor : nat) :
    frame * nat :=
  match ps with
  | [] => (f, cursor)
  | p :: ps =>
      match bits !! cursor with
      | None => (f, cursor)
      | Some bit => embed_positions width height ps bits (paint width height p (color_of bit) f) (S cursor)
      end
  end.

Definition embed_border_bits (width height : Z) (f : frame) (bits : list Z) (cursor : nat) : frame * nat :=
  embed_positions width height (border_positions width height) bits f cursor.

(** [(flat[:limit] & 0xFE) | bits[:limit]] *)
Definition embed_lsb_bits (f : frame) (bits : list Z) : frame :=
  imap (λ i v, match bits !! i with Some bit => Z.lor (Z.land v 254) bit | None => v end) f.

(** [frame[y, x, c]] *)
Definition sample (width : Z) (f : frame) (y x c : Z) : Z := default 0 (f !! Z.to_nat ((y * width + x) * 3 + c)).

Definition range_of (a b : Z) : list Z := seqZ a (b - a).

(** [frame[y0:y1, x0:x1, :]] *)
Definition block_samples (width height : Z) (f : frame) (p : Z * Z) : list Z :=
  let '(y0, y1, x0, x1) := block width height p in
  range_of y0 y1 ≫= λ y, range_of x0 x1 ≫= λ x, sample width f y x <$> [0; 1; 2].

Definition sum_of (l : list Z) : Z := foldr Z.add 0 l.

(** [1 if int(block.mean()) >= 128 else 0]; the quotient is exact enough in a double. *)
Definition border_bit (width height : Z) (f : frame) (p : Z * Z) : Z :=
  let l := block_samples width height f p in if 128 <=? sum_of l / zlen l then 1 else 0.

Definition frame_bits (width height : Z) (f : frame) : list Z :=
  border_bit width height f <$> border_positions width height.

(** * Reading *)

Section extraction.
Context `{Unicode} `{IsoTime} `{Zlib} `{FloatText}.
Variable now : Z.

Definition unpack_progressive (bits : list Z) : result exn (option pyval) :=
  let header_bits := 8 * (7 + 4 + 32) in
  if zlen bits <? header_bits then Ok None else
  let header := bits_to_bytes (take (Z.to_nat header_bits) bits) in
  let magic := slice 0 7 header in
  if negb (bool_decide (magic = MAGIC_V1 ∨ magic = MAGIC_V2)) then Ok None else
  let size := int_of_be (slice 7 11 header) in
  if MAX_PAYLOAD_BYTES <? size then Ok None else
  let total_bits := 8 * (7 + 4 + 32 + size) in
  if zlen bits <? total_bits then Ok None
  else unpack_envelope now (bits_to_bytes (take (Z.to_nat total_bits) bits)).

Definition extract_from_border (frames : list frame) (width height : Z) : result exn (option pyval) :=
  unpack_progressive (frames ≫= frame_bits width height).

(** The low bits, one frame more at a time. *)
Fixpoint extract_from_lsb_go (bits : list Z) (frames : list frame) : result exn (option pyval) :=
  match frames with
  | [] => Ok None
  | f :: frames =>
      let bits := bits ++ ((λ v, Z.land v 1) <$> f) in
      value ← unpack_progressive bits;
      match value with Some v => Ok (Some v) | None => extract_from_lsb_go bits frames end
  end.
Definition extract_from_lsb (frames : list frame) : result exn (option pyval) := extract_from_lsb_go [] frames.

(** The loop over the frames read so far and those to come. *)
Fixpoint extract_go (info : VideoInfo) (seen frames : list frame) : result exn (option pyval) :=
  match frames with
  | [] => extract_from_lsb seen
  | f :: frames =>
      if negb (zlen f =? width info * height info * 3) then extract_from_lsb seen else
      let seen := seen ++ [f] in
      value ← extract_from_border seen (width info) (height info);
      match value with Some v => Ok (Some v) | None => extract_go info seen frames end
  end.

(** [info.frame_count or 240] *)
Definition frame_limit (info : VideoInfo) : Z :=
  match frame_count info with Some n => if n =? 0 then 240 else n | None => 240 end.

(** [_extract_metadata_process] of the frames FFmpeg decodes. *)
Definition extract_metadata_process (info : VideoInfo) (frames : list frame) : result exn (option pyval) :=
  extract_go info [] (take (Z.to_nat (frame_limit info)) frames).

(** * Writing *)

Inductive embed_error : Type :=
  | PackError (e : envelope_exn)
  | CapacityError                 (* ValueError *)
  | PartialFrame                  (* RuntimeError *)
  | VersionNotInt.                (* outside the model *)

(** [info.frame_count or 1] *)
Definition counted_frames (info : VideoInfo) : Z :=
  match frame_count info with Some n => if n =? 0 then 1 else n | None => 1 end.

Definition fits (info : VideoInfo) (nbits : Z) : bool :=
  (nbits <=? border_capacity (width info) (height info) * counted_frames info) ||
  (nbits <=? width info * height info * 3 * counted_frames info).

Fixpoint embed_frames (info : VideoInfo) (bits : list Z) (cursor : nat) (frames : list frame) :
    result embed_error (list frame) :=
  match frames with
  | [] => Ok []
  | f :: frames =>
      if negb (zlen f =? width info * height info * 3) then Err PartialFrame else
      let '(g, cursor) := embed_border_bits (width info) (height info) f bits cursor in
      gs ← embed_frames info bits cursor frames;
      Ok (embed_lsb_bits g bits :: gs)
  end.

(** The first [embed_metadata], up to the frames written to the encoder. *)
Definition embed_metadata (info : VideoInfo) (metadata : list (str * pyval)) (frames : list frame) :
    result embed_error (list frame) :=
  match dict_get (lit "version") metadata with
  | None | Some (PInt _) =>
      let version := match dict_get (lit "version") metadata with Some (PInt v) => v | _ => 2 end in
      payload ← map_err PackError (pack_envelope now metadata version);
      let bits := bytes_to_bits payload in
      if fits info (zlen bits) then embed_frames info bits 0 frames else Err CapacityError
  | Some _ => Err VersionNotInt
  end.
End extraction.

#[local] Arguments in_block _ _ _ _ _ : simpl never.
#[local] Arguments Z.div _ _ : simpl never.
#[local] Arguments Z.modulo _ _ : simpl never.

(** * Bits and bytes *)

Lemma byte_bits_roundtrip b : byte_ok b → bits_byte (byte_bits b) = b.
Proof.
  intros Hb. assert (Forall (λ b, bits_byte (byte_bits b) = b) (seqZ 0 256)) as Hall
    by (apply (bool_decide_eq_true_1 _); vm_compute; reflexivity).
  rewrite Forall_forall in Hall. apply Hall, elem_of_seqZ. unfold byte_ok in Hb. lia.
Qed.

Lemma byte_bits_range b : Forall (λ v, v = 0 ∨ v = 1) (byte_bits b).
Proof.
  unfold byte_bits. apply Forall_fmap, Forall_true. intros s. cbn.
  rewrite (land_ones_mod _ 1) by lia. change (2 ^ 1) with 2. pose proof (Z.mod_pos_bound (Z.shiftr b s) 2 ltac:(lia)). lia.
Qed.

Lemma bytes_to_bits_app a b : bytes_to_bits (a ++ b) = bytes_to_bits a ++ bytes_to_bits b.
Proof. apply bind_app. Qed.

Lemma length_bytes_to_bits l : length (bytes_to_bits l) = (8 * length l)%nat.
Proof.
  induction l as [|b l IH]; [done|]. change (b :: l) with ([b] ++ l). rewrite bytes_to_bits_app, length_app, IH. cbn. lia.
Qed.

Lemma bits_to_bytes_to_bits l : bytes_ok l → bits_to_bytes (bytes_to_bits l) = l.
Proof.
  induction 1 as [|b l Hb Hl IH]; [done|]. change (b :: l) with ([b] ++ l) at 1. rewrite bytes_to_bits_app.
  cbn -[bits_byte Z.land Z.shiftr]. rewrite IH. f_equal. by apply byte_bits_roundtrip.
Qed.

Lemma take_bytes_to_bits n l : (n ≤ length l)%nat → take (8 * n) (bytes_to_bits l) = bytes_to_bits (take n l).
Proof.
  intros Hn. rewrite <- (take_drop n l) at 1. rewrite bytes_to_bits_app. apply take_app_length'.
  rewrite length_bytes_to_bits, length_take. lia.
Qed.

Lemma bytes_to_bits_range l : Forall (λ v, v = 0 ∨ v = 1) (bytes_to_bits l).
Proof. apply Forall_bind, Forall_true. intros b. apply byte_bits_range. Qed.

(** * Painting *)

Section border.
Variables w h : Z.

Definition pixel_in (p : Z * Z) (i : nat) : bool := in_block w h p (Z.of_nat i / 3 / w) (Z.of_nat i / 3 mod w).

Definition paint_all (l : list ((Z * Z) * Z)) (f : frame) : frame :=
  foldl (λ f pb, paint w h pb.1 (color_of pb.2) f) f l.

Lemma paint_all_cons p b l f : paint_all ((p, b) :: l) f = paint_all l (paint w h p (color_of b) f).
Proof. done. Qed.

(** The loop with its [break] paints the positions that have a bit. *)
Lemma embed_positions_paint ps bits f cursor :
  embed_positions w h ps bits f cursor =
    (paint_all (zip ps (drop cursor bits)) f, (cursor + Nat.min (length ps) (length (drop cursor bits)))%nat).
Proof.
  revert f cursor. induction ps as [|p ps IH]; intros f cursor; [cbn; by rewrite Nat.add_0_r|]. cbn [embed_positions].
  destruct (bits !! cursor) as [b|] eqn:Hb.
  - rewrite IH, (drop_S bits b cursor Hb). cbn [zip zip_with length]. rewrite paint_all_cons. f_equal. lia.
  - apply lookup_ge_None in Hb. rewrite drop_ge by done. cbn. by rewrite Nat.add_0_r.
Qed.

Lemma length_paint_all l f : length (paint_all l f) = length f.
Proof. revert f. induction l as [|[p b] l IH]; intros f; [done|]. rewrite paint_all_cons, IH. apply length_imap. Qed.

(** A pixel shows the last block that covers it. *)
Lemma paint_all_last l1 p b l2 f i :
  (i < length f)%nat → pixel_in p i = true → Forall (λ qb, pixel_in qb.1 i = false) l2 →
  paint_all (l1 ++ (p, b) :: l2) f !! i = Some (color_of b).
Proof.
  intros Hi Hp Hl2. unfold paint_all. rewrite foldl_app. cbn [foldl fst snd]. fold (paint_all l1 f).
  assert (paint w h p (color_of b) (paint_all l1 f) !! i = Some (color_of b)) as Hg.
  { unfold paint. rewrite list_lookup_imap.
    destruct (lookup_lt_is_Some_2 (paint_all l1 f) i) as [v ->]; [by rewrite length_paint_all|].
    cbn. unfold pixel_in in Hp. by rewrite Hp. }
  revert Hg. generalize (paint w h p (color_of b) (paint_all l1 f)) as g.
  induction Hl2 as [|[q c] l2 Hq Hl2 IH]; intros g Hg; [done|]. cbn. apply IH. unfold paint.
  rewrite list_lookup_imap, Hg. cbn. unfold pixel_in in Hq. cbn in Hq. by rewrite Hq.
Qed.

Lemma paint_all_range l f : Forall (λ v, 0 ≤ v ≤ 255) f → Forall (λ v, 0 ≤ v ≤ 255) (paint_all l f).
Proof.
  revert f. induction l as [|[p b] l IH]; intros f Hf; [done|]. rewrite paint_all_cons. apply IH. unfold paint.
  rewrite Forall_lookup in *. intros i v. rewrite list_lookup_imap. destruct (f !! i) as [u|] eqn:Hu; [|done].
  cbn. intros [= <-]. specialize (Hf i u Hu). unfold color_of. repeat case_match; cbn in *; lia.
Qed.

(** * Where blocks overlap *)

Inductive side : Type := Top | Right | Bottom | Left.

Definition sides : list (side * (Z * Z)) :=
  ((λ x, (Top, (2, x))) <$> py_range 0 w 6) ++
  ((λ y, (Right, (y, w - 2 - 1))) <$> py_range 6 h 6) ++
  ((λ x, (Bottom, (h - 2 - 1, x))) <$> py_range (w - 6) (-1) (-6)) ++
  ((λ y, (Left, (y, 2))) <$> py_range (h - 6) (6 - 1) (-6)).

Lemma sides_positions : sides.*2 = border_positions w h.
Proof. unfold sides, border_positions. rewrite !fmap_app, <- !list_fmap_compose. done. Qed.

(** The part of a block that later blocks may cover: two of its five rows or columns. *)
Definition exposed (s : side) (p : Z * Z) (y x : Z) : bool :=
  let '(y0, _, x0, _) := block w h p in
  match s with
  | Top => y0 + 3 <=? y
  | Right => x <=? x0 + 1
  | Bottom | Left => y <=? y0 + 1
  end.

Definition clear (sp sq : side * (Z * Z)) : Prop :=
  ∀ y x, in_block w h sp.2 y x = true → exposed sp.1 sp.2 y x = false → in_block w h sq.2 y x = false.

Lemma elem_of_range a b s v : v ∈ py_range a b s → ∃ i, 0 ≤ i ∧ v = a + s * i ∧ (0 < s → v < b) ∧ (s < 0 → b < v).
Proof.
  unfold py_range. intros (i & -> & Hi)%list_elem_of_fmap. apply elem_of_seqZ in Hi. exists i.
  split; [lia|]. split; [done|]. destruct (Z.ltb_spec 0 s).
  - split; [|lia]. intros _. pose proof (Z.mul_div_le (b - a + s - 1) s ltac:(lia)). nia.
  - split; [lia|]. intros Hs. pose proof (Z.mul_div_le (a - b - s - 1) (- s) ltac:(lia)). nia.
Qed.

Lemma range_sorted a b s (R : Z → Z → Prop) :
  (∀ i j, 0 ≤ i < j → R (a + s * i) (a + s * j)) → StronglySorted R (py_range a b s).
Proof.
  intros HR. unfold py_range. set (n := if 0 <? s then _ else _). clearbody n.
  assert (∀ m, 0 ≤ m → StronglySorted R ((λ i, a + s * i) <$> seqZ m n)) as Hm; [|by apply Hm].
  intros m Hm. unfold seqZ. generalize (Z.to_nat n) as k. intros k. rewrite <- list_fmap_compose.
  generalize 0%nat as o. induction k as [|k IH]; intros o; [constructor|]. cbn. constructor; [apply IH|].
  apply Forall_fmap, Forall_forall. intros j Hj%elem_of_seq. cbn. apply HR. lia.
Qed.

Lemma sorted_of_fmap {A B} (f : A → B) (R : B → B → Prop) l :
  StronglySorted (λ a b, R (f a) (f b)) l → StronglySorted R (f <$> l).
Proof.
  induction 1 as [|x l Hl IH Hx]; [constructor|]. cbn. constructor; [done|]. by apply Forall_fmap.
Qed.

Hypotheses (Hw : 10 ≤ w) (Hh : 10 ≤ h).

Ltac geometry := unfold clear, exposed, in_block, block, BORDER_STRIDE; cbn [fst snd]; intros; bool_inv; lia.

(** No later block covers the rest of an earlier one. *)
Lemma sides_clear : StronglySorted clear sides.
Proof.
  unfold sides. repeat apply StronglySorted_app_2.
  2,4,6,7: apply sorted_of_fmap, range_sorted; intros; geometry.
  all: intros s1 s2 H1 H2; repeat (apply elem_of_app in H2 as [H2|H2]);
    apply list_elem_of_fmap in H1 as (u & -> & Hu%elem_of_range), H2 as (v & -> & Hv%elem_of_range);
    destruct Hu as (i & ? & -> & ? & ?), Hv as (j & ? & -> & ? & ?); geometry.
Qed.

(** The shape of a block: five rows or five columns. *)
Lemma sides_shape s p : (s, p) ∈ sides →
  let '(y0, y1, x0, x1) := block w h p in
  0 ≤ y0 ∧ y1 ≤ h ∧ 0 ≤ x0 ∧ x1 ≤ w ∧
  match s with Right => x1 = x0 + 5 ∧ y0 < y1 | _ => y1 = y0 + 5 ∧ x0 < x1 end.
Proof.
  unfold sides. intros Hp. repeat (apply elem_of_app in Hp as [Hp|Hp]);
    apply list_elem_of_fmap in Hp as (u & [= -> ->] & Hu%elem_of_range);
    destruct Hu as (i & ? & -> & ? & ?); unfold block, BORDER_STRIDE; cbn [fst snd]; lia.
Qed.

(** * Sums over a block *)

Lemma sum_of_app a b : sum_of (a ++ b) = sum_of a + sum_of b.
Proof. induction a as [|x a IH]; cbn; [done|]. unfold sum_of in *. lia. Qed.

Lemma sum_bind_bounds {A} (f : A → list Z) (l : list A) lo hi n :
  (∀ x, x ∈ l → lo ≤ sum_of (f x) ≤ hi ∧ zlen (f x) = n) →
  lo * zlen l ≤ sum_of (l ≫= f) ≤ hi * zlen l ∧ zlen (l ≫= f) = n * zlen l.
Proof.
  unfold zlen. induction l as [|x l IH]; intros Hf; [cbn; lia|]. cbn [mbind list_bind]. fold (mbind f l).
  rewrite sum_of_app, length_app. destruct (Hf x ltac:(by left)) as [Hb Hn].
  destruct IH as [Hb' Hn']; [intros y Hy; apply Hf; by right|]. cbn [length]. lia.
Qed.

Lemma zlen_range a b : a ≤ b → zlen (range_of a b) = b - a.
Proof. intros. unfold zlen, range_of. rewrite length_seqZ. lia. Qed.

Lemma range_five a : range_of a (a + 5) = [a; a + 1; a + 2; a + 3; a + 4].
Proof.
  unfold range_of. replace (a + 5 - a) with 5 by lia. unfold seqZ. cbn.
  repeat (apply (f_equal2 cons); [lia|]). done.
Qed.

(** The samples of a pixel and of a row. *)
Definition pixel_samples (g : frame) (y x : Z) : list Z := sample w g y x <$> [0; 1; 2].
Definition row_samples (g : frame) (x0 x1 y : Z) : list Z := range_of x0 x1 ≫= pixel_samples g y.

Definition within (g : frame) (lo hi y x : Z) : Prop := ∀ c, 0 ≤ c < 3 → lo ≤ sample w g y x c ≤ hi.

Lemma pixel_sum g lo hi y x : within g lo hi y x →
  3 * lo ≤ sum_of (pixel_samples g y x) ≤ 3 * hi ∧ zlen (pixel_samples g y x) = 3.
Proof.
  intros Hc. pose proof (Hc 0 ltac:(lia)). pose proof (Hc 1 ltac:(lia)). pose proof (Hc 2 ltac:(lia)).
  unfold pixel_samples, sum_of, zlen. cbn [fmap list_fmap foldr length]. lia.
Qed.

Lemma row_sum g lo hi x0 x1 y : x0 ≤ x1 → (∀ x, x0 ≤ x < x1 → within g lo hi y x) →
  3 * lo * (x1 - x0) ≤ sum_of (row_samples g x0 x1 y) ≤ 3 * hi * (x1 - x0) ∧
  zlen (row_samples g x0 x1 y) = 3 * (x1 - x0).
Proof.
  intros Hx Hg. rewrite <- (zlen_range x0 x1) by done. apply sum_bind_bounds. intros x Hin.
  apply pixel_sum, Hg. unfold range_of in Hin. apply elem_of_seqZ in Hin. lia.
Qed.

(** Three of five rows, or three of five pixels of each row, lie in a band: so does most
    of the sum. *)
Lemma rows_sum g lo hi x0 x1 y0 (bad : Z → bool) :
  x0 ≤ x1 → 0 ≤ lo ≤ hi → hi ≤ 255 →
  (∀ y x, y0 ≤ y < y0 + 5 → x0 ≤ x < x1 → within g 0 255 y x ∧ (bad y = false → within g lo hi y x)) →
  (bad y0 = false ∧ bad (y0 + 1) = false ∧ bad (y0 + 2) = false) ∨
  (bad (y0 + 2) = false ∧ bad (y0 + 3) = false ∧ bad (y0 + 4) = false) →
  let l := range_of y0 (y0 + 5) ≫= row_samples g x0 x1 in
  zlen l = 15 * (x1 - x0) ∧ 9 * lo * (x1 - x0) ≤ sum_of l ≤ (9 * hi + 6 * 255) * (x1 - x0).
Proof.
  intros Hx Hlo Hhi Hg Hbad l.
  assert (∀ y, y0 ≤ y < y0 + 5 →
    0 ≤ sum_of (row_samples g x0 x1 y) ≤ 3 * 255 * (x1 - x0) ∧ zlen (row_samples g x0 x1 y) = 3 * (x1 - x0) ∧
    (bad y = false → 3 * lo * (x1 - x0) ≤ sum_of (row_samples g x0 x1 y) ≤ 3 * hi * (x1 - x0))) as Hr.
  { intros y Hy. destruct (row_sum g 0 255 x0 x1 y Hx) as [Hb Hl]; [intros x Hxx; by apply Hg|].
    split; [lia|]. split; [done|]. intros Hby. apply row_sum; [done|]. intros x Hxx. by apply Hg. }
  subst l. rewrite range_five. cbn [mbind list_bind]. rewrite app_nil_r, !sum_of_app. unfold zlen in *.
  rewrite !length_app.
  pose proof (Hr y0 ltac:(lia)) as (A0 & L0 & R0). pose proof (Hr (y0 + 1) ltac:(lia)) as (A1 & L1 & R1).
  pose proof (Hr (y0 + 2) ltac:(lia)) as (A2 & L2 & R2). pose proof (Hr (y0 + 3) ltac:(lia)) as (A3 & L3 & R3).
  pose proof (Hr (y0 + 4) ltac:(lia)) as (A4 & L4 & R4).
  destruct Hbad as [(B1 & B2 & B3)|(B1 & B2 & B3)];
    [specialize (R0 B1); specialize (R1 B2); specialize (R2 B3)|specialize (R2 B1); specialize (R3 B2); specialize (R4 B3)];
    lia.
Qed.

Lemma columns_sum g lo hi x0 y0 y1 :
  y0 ≤ y1 → 0 ≤ lo ≤ hi → hi ≤ 255 →
  (∀ y x, y0 ≤ y < y1 → x0 ≤ x < x0 + 5 → within g 0 255 y x ∧ (x0 + 2 ≤ x → within g lo hi y x)) →
  let l := range_of y0 y1 ≫= row_samples g x0 (x0 + 5) in
  zlen l = 15 * (y1 - y0) ∧ 9 * lo * (y1 - y0) ≤ sum_of l ≤ (9 * hi + 6 * 255) * (y1 - y0).
Proof.
  intros Hy Hlo Hhi Hg l. rewrite <- (zlen_range y0 y1) by done. subst l.
  assert (∀ y, y ∈ range_of y0 y1 → 9 * lo ≤ sum_of (row_samples g x0 (x0 + 5) y) ≤ 9 * hi + 6 * 255 ∧
    zlen (row_samples g x0 (x0 + 5) y) = 15) as Hr.
  { intros y Hin. unfold range_of in Hin. apply elem_of_seqZ in Hin. unfold row_samples. rewrite range_five.
    cbn [mbind list_bind]. rewrite app_nil_r, !sum_of_app. unfold zlen. rewrite !length_app.
    assert (∀ x, x0 ≤ x < x0 + 5 → 0 ≤ sum_of (pixel_samples g y x) ≤ 765 ∧ zlen (pixel_samples g y x) = 3 ∧
      (x0 + 2 ≤ x → 3 * lo ≤ sum_of (pixel_samples g y x) ≤ 3 * hi)) as Hp.
    { intros x Hx. destruct (Hg y x ltac:(lia) Hx) as [Ha Hb]. destruct (pixel_sum g 0 255 y x Ha).
      split; [lia|]. split; [done|]. intros Hxx. by apply pixel_sum, Hb. }
    pose proof (Hp x0 ltac:(lia)). pose proof (Hp (x0 + 1) ltac:(lia)). pose proof (Hp (x0 + 2) ltac:(lia)).
    pose proof (Hp (x0 + 3) ltac:(lia)). pose proof (Hp (x0 + 4) ltac:(lia)). unfold zlen in *. lia. }
  destruct (sum_bind_bounds _ _ _ _ _ Hr) as [Hb Hl]. lia.
Qed.

(** A block whose pixels lie in a band where they are not exposed. *)
Lemma block_sum g s p lo hi : (s, p) ∈ sides → 0 ≤ lo ≤ hi → hi ≤ 255 →
  (∀ y x, in_block w h p y x = true →
     within g 0 255 y x ∧ (exposed s p y x = false → within g lo hi y x)) →
  let l := block_samples w h g p in
  0 < zlen l ∧ 3 * lo * zlen l ≤ 5 * sum_of l ≤ (3 * hi + 2 * 255) * zlen l.
Proof.
  intros Hsp Hlo Hhi Hg. pose proof (sides_shape s p Hsp) as Hsh. unfold block_samples, exposed, in_block in *.
  destruct (block w h p) as [[[y0 y1] x0] x1]. destruct Hsh as (Hy0 & Hy1 & Hx0 & Hx1 & Hs). cbv zeta.
  change (λ y, range_of x0 x1 ≫= λ x, sample w g y x <$> [0; 1; 2]) with (row_samples g x0 x1).
  assert (∀ y x, y0 ≤ y < y1 → x0 ≤ x < x1 → (y0 <=? y) && (y <? y1) && (x0 <=? x) && (x <? x1) = true) as Hin by lia.
  destruct s; destruct Hs as [-> Hlt].
  - destruct (rows_sum g lo hi x0 x1 y0 (λ y, y0 + 3 <=? y)) as [Hl Hb]; [lia..| |lia|].
    + intros y x Hy Hx. by apply Hg, Hin.
    + rewrite Hl. nia.
  - destruct (columns_sum g lo hi x0 y0 y1) as [Hl Hb]; [lia..| |].
    + intros y x Hy Hx. destruct (Hg y x (Hin y x Hy Hx)) as [Ha Hn]. split; [done|]. intros. apply Hn. lia.
    + rewrite Hl. nia.
  - destruct (rows_sum g lo hi x0 x1 y0 (λ y, y <=? y0 + 1)) as [Hl Hb]; [lia..| |lia|].
    + intros y x Hy Hx. by apply Hg, Hin.
    + rewrite Hl. nia.
  - destruct (rows_sum g lo hi x0 x1 y0 (λ y, y <=? y0 + 1)) as [Hl Hb]; [lia..| |lia|].
    + intros y x Hy Hx. by apply Hg, Hin.
    + rewrite Hl. nia.
Qed.

(** * Decoding a frame that was altered *)

(** A sample after encoding and decoding. *)
Definition near (a b : Z) : Prop := Z.abs (a - b) ≤ 23 ∧ 0 ≤ b ≤ 255.

Definition is_bit (b : Z) : Prop := b = 0 ∨ b = 1.

Lemma index_pixel y x c : 0 ≤ y < h → 0 ≤ x < w → 0 ≤ c < 3 →
  let i := Z.to_nat ((y * w + x) * 3 + c) in
  (i < Z.to_nat (w * h * 3))%nat ∧ Z.of_nat i / 3 / w = y ∧ Z.of_nat i / 3 mod w = x.
Proof.
  intros Hy Hx Hc i. assert (y * w + x < h * w) by nia. subst i. rewrite Z2Nat.id by nia.
  replace (((y * w + x) * 3 + c) / 3) with (y * w + x) by (apply (Z.div_unique _ _ _ c); lia).
  split; [lia|]. split; [symmetry; apply (Z.div_unique _ _ _ x); lia|symmetry; apply (Z.mod_unique _ _ y); lia].
Qed.

Lemma lsb_color b i bits v : is_bit b → Forall is_bit bits → v = color_of b →
  match bits !! i with Some bit => Z.lor (Z.land v 254) bit | None => v end ∈ [color_of b; color_of b + 1; color_of b - 1].
Proof.
  intros Hb Hbits ->. destruct (bits !! i) as [u|] eqn:Hu; [|by left].
  rewrite Forall_lookup in Hbits. specialize (Hbits i u Hu).
  destruct Hb as [-> | ->], Hbits as [-> | ->]; apply (bool_decide_eq_true_1 _); vm_compute; reflexivity.
Qed.

Lemma zip_split {A B} (l : list A) (m : list B) k x y : l !! k = Some x → m !! k = Some y →
  zip l m = zip (take k l) (take k m) ++ (x, y) :: zip (drop (S k) l) (drop (S k) m).
Proof.
  revert l m. induction k as [|k IH]; intros [|u l] [|v m] Hl Hm; simplify_eq/=; [by rewrite !drop_0|]. f_equal. by apply IH.
Qed.

Lemma Forall_zip_fst {A B} (P : A → Prop) (l : list A) (m : list B) :
  Forall P l → Forall (λ ab, P ab.1) (zip l m).
Proof. intros Hl. revert m. induction Hl as [|x l Hx Hl IH]; intros [|y m]; constructor; [done|apply IH]. Qed.

Lemma in_block_inside p y x : in_block w h p y x = true → 0 ≤ y < h ∧ 0 ≤ x < w.
Proof. unfold in_block, block. intros. bool_inv. lia. Qed.

(** What later blocks leave of a block. *)
Lemma later_clear k s p y x : sides !! k = Some (s, p) → in_block w h p y x = true → exposed s p y x = false →
  Forall (λ q, in_block w h q y x = false) (drop (S k) (border_positions w h)).
Proof.
  intros Hk Hin Hex. rewrite <- sides_positions, <- fmap_drop. apply Forall_fmap.
  pose proof sides_clear as Hs. rewrite <- (take_drop_middle sides k (s, p) Hk) in Hs.
  apply StronglySorted_app_1_r, StronglySorted_cons in Hs as [Hs _].
  eapply Forall_impl; [exact Hs|]. intros q Hq. by apply (Hq y x).
Qed.

(** The band of the samples of a bit. *)
Definition band_lo (b : Z) : Z := if b =? 0 then 0 else 214.
Definition band_hi (b : Z) : Z := if b =? 0 then 41 else 255.

Section decode.
Variables (bs bits : list Z) (f g : frame).
Hypotheses (Hbits : Forall is_bit bits) (Hf : zlen f = w * h * 3).
Hypothesis Hg : Forall2 near (embed_lsb_bits (paint_all (zip (border_positions w h) bs) f) bits) g.

Lemma clear_sample k s p b y x :
  sides !! k = Some (s, p) → bs !! k = Some b → is_bit b →
  in_block w h p y x = true → exposed s p y x = false → within g (band_lo b) (band_hi b) y x.
Proof.
  intros Hk Hbs Hb Hyx Hex c Hc. destruct (in_block_inside p y x Hyx) as [Hy Hx].
  destruct (index_pixel y x c Hy Hx Hc) as (Hi & Hiy & Hix). unfold sample. set (i := Z.to_nat _) in *.
  assert (paint_all (zip (border_positions w h) bs) f !! i = Some (color_of b)) as Hp.
  { rewrite (zip_split _ _ k p b) by (done || by rewrite <- sides_positions, list_lookup_fmap, Hk).
    apply paint_all_last; [unfold zlen in Hf; lia|unfold pixel_in; by rewrite Hiy, Hix|].
    unfold pixel_in. rewrite Hiy, Hix. apply (Forall_zip_fst (λ q, in_block w h q y x = false)). by eapply later_clear. }
  assert (embed_lsb_bits (paint_all (zip (border_positions w h) bs) f) bits !! i =
    Some match bits !! i with Some bit => Z.lor (Z.land (color_of b) 254) bit | None => color_of b end) as Hl
    by (unfold embed_lsb_bits; by rewrite list_lookup_imap, Hp).
  destruct (Forall2_lookup_l _ _ _ _ _ Hg Hl) as (v & -> & Hn). cbn [default].
  pose proof (lsb_color b i bits _ Hb Hbits eq_refl) as Hc3. destruct Hn as [Hn Hr].
  rewrite !elem_of_cons, elem_of_nil in Hc3. unfold color_of, band_lo, band_hi in *. destruct Hb as [-> | ->]; cbn in *; lia.
Qed.

(** A bit of the border is read back. *)
Lemma border_bit_decodes k s p b :
  sides !! k = Some (s, p) → bs !! k = Some b → is_bit b → border_bit w h g p = b.
Proof.
  intros Hk Hbs Hb.
  assert (0 ≤ band_lo b ≤ band_hi b ∧ band_hi b ≤ 255) as [Hlo Hhi] by (unfold band_lo, band_hi; case_match; lia).
  destruct (block_sum g s p (band_lo b) (band_hi b) (list_elem_of_lookup_2 _ _ _ Hk) Hlo Hhi) as [Hpos Hsum].
  { intros y x Hyx. split; [|by eapply clear_sample]. intros c Hc. unfold sample.
    destruct (g !! _) as [v|] eqn:Hv; [|cbn; lia]. destruct (Forall2_lookup_r _ _ _ _ _ Hg Hv) as (u & _ & Hn). apply Hn. }
  unfold border_bit. set (l := block_samples w h g p) in *. clearbody l. destruct Hb as [-> | ->]; cbn in Hsum.
  - rewrite (proj2 (Z.leb_gt _ _)); [done|]. apply Z.div_lt_upper_bound; lia.
  - rewrite (proj2 (Z.leb_le _ _)); [done|]. apply Z.div_le_lower_bound; lia.
Qed.

(** The border of a frame gives back the bits painted on it. *)
Lemma frame_bits_decode : Forall is_bit bs →
  take (length bs) (frame_bits w h g) = take (length (border_positions w h)) bs.
Proof.
  intros Hbs. apply list_eq. intros k. unfold frame_bits. rewrite <- sides_positions, length_fmap.
  destruct (decide (k < length bs ∧ k < length sides)%nat) as [[H1 H2]|Hn].
  - rewrite !lookup_take_lt by done. apply lookup_lt_is_Some_2 in H1 as [b Hb], H2 as [[s p] Hp].
    rewrite !list_lookup_fmap, Hp, Hb. cbn. f_equal. eapply border_bit_decodes; [done..|].
    rewrite Forall_lookup in Hbs. by eapply Hbs.
  - rewrite !(proj2 (lookup_ge_None _ k)); [done| |]; rewrite length_take, ?length_fmap; lia.
Qed.
End decode.
End border.

(** * The frames of a video *)

(** What was read so far agrees with what was written. *)
Definition agree (read written : list Z) : Prop := take (length written) read = take (length read) written.

Lemma agree_take n read written : agree read written → (n ≤ length read)%nat → (n ≤ length written)%nat →
  take n read = take n written.
Proof.
  intros Ha Hr Hw. apply (f_equal (take n)) in Ha. rewrite !take_take, !Nat.min_l in Ha by done. exact Ha.
Qed.

Lemma agree_step a r b : take (length b) a = take (length a) b →
  agree r (drop (Nat.min (length a) (length b)) b) → agree (a ++ r) b.
Proof.
  unfold agree. intros Ha Hr. rewrite length_app. destruct (decide (length b ≤ length a)%nat) as [Hle|Hgt].
  - rewrite take_app_le by done. rewrite Ha. by rewrite !take_ge by lia.
  - rewrite Nat.min_l in Hr by lia. rewrite take_ge in Ha by lia. rewrite length_drop in Hr.
    rewrite take_app_ge, Hr by lia. rewrite Ha at 1. apply take_take_drop.
Qed.

Lemma length_frame_bits w h g : length (frame_bits w h g) = length (border_positions w h).
Proof. apply length_fmap. Qed.

Lemma length_frames_bits w h (l : list frame) :
  length (l ≫= frame_bits w h) = (length (border_positions w h) * length l)%nat.
Proof.
  induction l as [|g l IH]; [cbn; lia|]. cbn [mbind list_bind]. rewrite length_app, length_frame_bits. fold (mbind (frame_bits w h) l).
  rewrite IH. cbn. lia.
Qed.

Section video.
Variable info : VideoInfo.
Hypotheses (Hw : 10 ≤ width info) (Hh : 10 ≤ height info).
Variable bits : list Z.
Hypothesis Hbits : Forall is_bit bits.

Lemma embed_frames_take cursor frames out k :
  embed_frames info bits cursor frames = Ok out → embed_frames info bits cursor (take k frames) = Ok (take k out).
Proof.
  revert cursor out k. induction frames as [|f frames IH]; intros cursor out k He.
  { cbn in He. injection He as <-. by rewrite !take_nil. }
  destruct k as [|k]; [done|]. cbn in *. destruct (negb _); [done|]. destruct (embed_border_bits _ _ _ _ _) as [g c].
  apply bind_ok in He as (gs & Hgs & [= <-]). rewrite (IH _ _ k Hgs), bind_Ok. done.
Qed.

(** The bits on the border of the altered frames are those written. *)
Lemma frames_agree cursor frames out decoded :
  embed_frames info bits cursor frames = Ok out → Forall2 (Forall2 near) out decoded →
  agree (decoded ≫= frame_bits (width info) (height info)) (drop cursor bits).
Proof.
  revert cursor out decoded. induction frames as [|f frames IH]; intros cursor out decoded He Hd.
  { cbn in He. injection He as <-. apply Forall2_nil_inv_l in Hd as ->. unfold agree. cbn. by rewrite take_nil. }
  cbn in He. destruct (Z.eqb_spec (zlen f) (width info * height info * 3)) as [Hf|]; [|done]. cbn in He.
  unfold embed_border_bits in He. rewrite embed_positions_paint in He.
  apply bind_ok in He as (gs & Hgs & [= <-]). apply Forall2_cons_inv_l in Hd as (d & ds & Hd & Hds & ->).
  cbn [mbind list_bind]. fold (mbind (frame_bits (width info) (height info)) ds). apply agree_step.
  - rewrite length_frame_bits. eapply frame_bits_decode; [done|done|exact Hbits|exact Hf|exact Hd|by apply Forall_drop].
  - rewrite length_frame_bits, drop_drop. by eapply IH.
Qed.

Lemma frames_length cursor frames out decoded :
  embed_frames info bits cursor frames = Ok out → Forall2 (Forall2 near) out decoded →
  Forall (λ g, zlen g = width info * height info * 3) decoded.
Proof.
  revert cursor out decoded. induction frames as [|f frames IH]; intros cursor out decoded He Hd.
  { cbn in He. injection He as <-. by apply Forall2_nil_inv_l in Hd as ->. }
  cbn in He. destruct (Z.eqb_spec (zlen f) (width info * height info * 3)) as [Hf|]; [|done]. cbn in He.
  unfold embed_border_bits in He. rewrite embed_positions_paint in He.
  apply bind_ok in He as (gs & Hgs & [= <-]). apply Forall2_cons_inv_l in Hd as (d & ds & Hd & Hds & ->).
  constructor; [|by eapply IH]. apply Forall2_length in Hd. unfold embed_lsb_bits in Hd.
  rewrite length_imap, length_paint_all in Hd. unfold zlen in *. lia.
Qed.
End video.

Section reading.
Context `{Unicode} `{IsoTime} `{Zlib} `{FloatText}.

(** Bits that agree with those of a sealed envelope are turned down while they are too
    few, and then opened. *)
Lemma unpack_progressive_agree now magic body read :
  is_magic magic → zlen body ≤ MAX_PAYLOAD_BYTES → bytes_ok (seal magic body) →
  agree read (bytes_to_bits (seal magic body)) →
  unpack_progressive now read =
    if decide (length read < length (bytes_to_bits (seal magic body)))%nat then Ok None
    else unpack_envelope now (seal magic body).
Proof.
  intros Hm Hs Hb Ha. pose proof (length_magic _ Hm) as Hl. set (payload := seal magic body) in *.
  assert (length payload = 43 + length body)%nat as Hpl by by apply length_seal.
  assert (∀ n, (n ≤ length payload)%nat → (8 * n ≤ length read)%nat →
    bits_to_bytes (take (8 * n) read) = take n payload) as Hbytes.
  { intros n Hn Hr. rewrite (agree_take _ _ _ Ha) by (done || rewrite length_bytes_to_bits; lia).
    rewrite take_bytes_to_bits by done. apply bits_to_bytes_to_bits. by apply Forall_take. }
  rewrite length_bytes_to_bits, Hpl. unfold unpack_progressive.
  destruct (Z.ltb_spec (zlen read) (8 * (7 + 4 + 32))) as [Hshort|Hlong]; [rewrite decide_True by (unfold zlen in *; lia); done|].
  change (Z.to_nat (8 * (7 + 4 + 32))) with (8 * 43)%nat. rewrite Hbytes by (unfold zlen in *; lia).
  assert (take 43 payload = magic ++ be_of_int 4 (zlen body) ++ sha256 body) as Hhead.
  { unfold payload, seal. rewrite !app_assoc. apply take_app_length'.
    by rewrite !length_app, length_be_of_int, length_sha256, Hl. }
  rewrite Hhead. assert (slice 0 7 (magic ++ be_of_int 4 (zlen body) ++ sha256 body) = magic) as ->
    by by apply (slice_app_exact []).
  assert (slice 7 11 (magic ++ be_of_int 4 (zlen body) ++ sha256 body) = be_of_int 4 (zlen body)) as ->
    by (by apply slice_app_exact; [|rewrite length_be_of_int]).
  unfold MAX_PAYLOAD_BYTES in *. rewrite int_of_be_of_int by (cbn; unfold zlen in *; lia).
  rewrite (bool_decide_eq_true_2 (_ ∨ _)) by done. cbn [negb].
  rewrite (proj2 (Z.ltb_ge (64 * 1024) _)) by lia.
  replace (Z.to_nat (8 * (7 + 4 + 32 + zlen body))) with (8 * length payload)%nat by (unfold zlen; lia).
  case_decide as Hd.
  - by rewrite (proj2 (Z.ltb_lt _ _)) by (unfold zlen; lia).
  - rewrite (proj2 (Z.ltb_ge _ _)) by (unfold zlen; lia). by rewrite Hbytes, take_ge by lia.
Qed.

(** The loop stops at the frame that completes the envelope. *)
Lemma extract_go_finds now info magic body v seen rest :
  is_magic magic → zlen body ≤ MAX_PAYLOAD_BYTES → bytes_ok (seal magic body) →
  unpack_envelope now (seal magic body) = Ok (Some v) →
  Forall (λ g, zlen g = width info * height info * 3) rest →
  (∀ k, agree (take k (seen ++ rest) ≫= frame_bits (width info) (height info)) (bytes_to_bits (seal magic body))) →
  (length (seen ≫= frame_bits (width info) (height info)) < length (bytes_to_bits (seal magic body)) ≤
     length ((seen ++ rest) ≫= frame_bits (width info) (height info)))%nat →
  extract_go now info seen rest = Ok (Some v).
Proof.
  intros Hm Hs Hb Hv Hr. revert seen. induction Hr as [|g rest Hg Hr IH]; intros seen Ha Hlen.
  { rewrite app_nil_r in Hlen. lia. }
  cbn [extract_go]. rewrite Hg, Z.eqb_refl. cbn [negb]. unfold extract_from_border.
  change (g :: rest) with ([g] ++ rest) in *. rewrite app_assoc in Hlen. setoid_rewrite (app_assoc seen [g] rest) in Ha.
  assert (agree ((seen ++ [g]) ≫= frame_bits (width info) (height info)) (bytes_to_bits (seal magic body))) as Hag.
  { specialize (Ha (length (seen ++ [g]))). by rewrite take_app_length in Ha. }
  rewrite (unpack_progressive_agree now magic body) by done.
  case_decide as Hd; [|by rewrite Hv, bind_Ok]. rewrite bind_Ok. apply IH; [done|]. lia.
Qed.

(** C1. The metadata survives the video codec: in a video of at least ten by ten pixels,
    valid metadata whose envelope fits the border of the frames read back is extracted
    from any video of the same size whose samples are within 23 levels of the frames
    written (and within a byte), at any later time; it comes back in canonical form. *)
Theorem embedded_metadata_survives `{!ZlibLaws} now now' info d version frames out decoded :
  10 ≤ width info → 10 ≤ height info →
  plain (PDict d) = true → dict_get (lit "version") d = Some (PInt version) → packable now d version → now ≤ now' →
  embed_metadata now info d frames = Ok out →
  Forall2 (Forall2 near) out decoded →
  (∀ payload, pack_envelope now d version = Ok payload →
     8 * zlen payload ≤ border_capacity (width info) (height info) * zlen (take (Z.to_nat (frame_limit info)) decoded)) →
  extract_metadata_process now' info decoded = Ok (Some (canon (PDict (stored d version)))).
Proof.
  intros Hw Hh Hp Hver Hpk Hle He Hd Hfit. unfold embed_metadata in He. rewrite Hver in He.
  destruct (pack_envelope now d version) as [payload|e] eqn:Hpack; [|done]. cbn [map_err] in He. rewrite bind_Ok in He.
  destruct (fits info _); [|done]. specialize (Hfit payload eq_refl).
  destruct (unpack_packed now now' d version payload Hp Hpk Hle Hpack) as [(magic & body & Hm & Hs & -> & Hb) Hu].
  specialize (Hu []). rewrite app_nil_r in Hu. unfold extract_metadata_process.
  set (bits := bytes_to_bits (seal magic body)) in *.
  assert (Forall is_bit bits) as Hbits by apply bytes_to_bits_range.
  eapply extract_go_finds; [done..| | |].
  - apply Forall_take. by eapply frames_length.
  - intros k. cbn [app]. rewrite take_take. set (n := Nat.min _ _).
    apply (frames_agree info Hw Hh bits Hbits 0 (take n frames) (take n out)); [by apply embed_frames_take|by apply Forall2_take].
  - cbn [app mbind list_bind length]. rewrite length_frames_bits. subst bits. rewrite length_bytes_to_bits, length_seal by done.
    unfold border_capacity, zlen in Hfit. rewrite length_seal in Hfit by done. lia.
Qed.
End reading.

(** * The low bits *)

Lemma low_bits f bits : Forall is_bit bits → (length f ≤ length bits)%nat →
  (λ v, Z.land v 1) <$> embed_lsb_bits f bits = take (length f) bits.
Proof.
  intros Hb Hl. apply list_eq. intros i. unfold embed_lsb_bits. rewrite list_lookup_fmap, list_lookup_imap.
  destruct (f !! i) as [v|] eqn:Hv; cbn.
  - apply lookup_lt_Some in Hv. rewrite lookup_take_lt by done.
    destruct (lookup_lt_is_Some_2 bits i) as [b Hi]; [lia|]. rewrite Hi. f_equal.
    rewrite Z.land_lor_distr_l, <- Z.land_assoc. change (Z.land 254 1) with 0. rewrite Z.land_0_r.
    rewrite Forall_lookup in Hb. by destruct (Hb i b Hi) as [-> | ->].
  - apply lookup_ge_None in Hv. by rewrite lookup_take_ge.
Qed.

(** The low bits of every frame carry the head of the payload again: when it is longer
    than one frame, the frames together do not hold it, although [fits] counts them all. *)
Lemma low_bits_repeat info bits cursor frames out :
  Forall is_bit bits → width info * height info * 3 ≤ zlen bits →
  embed_frames info bits cursor frames = Ok out →
  out ≫= fmap (λ v, Z.land v 1) =
    mjoin (replicate (length frames) (take (Z.to_nat (width info * height info * 3)) bits)).
Proof.
  intros Hb Hl. revert cursor out. induction frames as [|f frames IH]; intros cursor out He.
  { cbn in He. by injection He as <-. }
  cbn in He. destruct (Z.eqb_spec (zlen f) (width info * height info * 3)) as [Hf|]; [|done]. cbn in He.
  unfold embed_border_bits in He. rewrite embed_positions_paint in He. apply bind_ok in He as (gs & Hgs & [= <-]).
  cbn [mbind list_bind length replicate mjoin list_join]. f_equal; [|by eapply IH].
  rewrite low_bits; [|done|rewrite length_paint_all; unfold zlen in *; lia].
  rewrite length_paint_all. f_equal. unfold zlen in Hf. lia.
Qed.

(** * A concrete video *)

Lemma lsb_range f bits : Forall (λ v, 0 ≤ v ≤ 255) f → Forall is_bit bits →
  Forall (λ v, 0 ≤ v ≤ 255) (embed_lsb_bits f bits).
Proof.
  intros Hf Hb.
  assert (Forall (λ v, 0 ≤ Z.lor (Z.land v 254) 0 ≤ 255 ∧ 0 ≤ Z.lor (Z.land v 254) 1 ≤ 255) (seqZ 0 256)) as Hc
    by (apply (bool_decide_eq_true_1 _); vm_compute; reflexivity).
  rewrite Forall_forall in Hc. rewrite Forall_lookup in Hf, Hb |- *. intros i v.
  unfold embed_lsb_bits. rewrite list_lookup_imap. destruct (f !! i) as [u|] eqn:Hu; [|done]. cbn.
  specialize (Hf i u Hu). destruct (bits !! i) as [b|] eqn:Hbi; intros [= <-]; [|done].
  specialize (Hc u ltac:(apply elem_of_seqZ; lia)). destruct (Hb i b Hbi) as [-> | ->]; tauto.
Qed.

Lemma near_refl f : Forall (λ v, 0 ≤ v ≤ 255) f → Forall2 near f f.
Proof. induction 1; constructor; [|done]. unfold near. lia. Qed.

(** Frames of the right size are written, with samples that are bytes. *)
Lemma embed_frames_ok info bits cursor frames :
  Forall (λ f, zlen f = width info * height info * 3 ∧ Forall (λ v, 0 ≤ v ≤ 255) f) frames → Forall is_bit bits →
  ∃ out, embed_frames info bits cursor frames = Ok out ∧ length out = length frames ∧ Forall2 (Forall2 near) out out.
Proof.
  intros Hf Hb. revert cursor. induction Hf as [|f frames [Hf Hr] Hfs IH]; intros cursor; [by exists []|].
  cbn. rewrite Hf, Z.eqb_refl. cbn. unfold embed_border_bits. rewrite embed_positions_paint.
  match goal with |- context [embed_frames info bits ?c frames] => destruct (IH c) as (out & -> & Hl & Ho) end.
  rewrite bind_Ok. eexists. split; [done|]. split; [cbn; by rewrite Hl|]. constructor; [|done].
  by apply near_refl, lsb_range, Hb; apply paint_all_range.
Qed.

(** Black frames, enough of them for any envelope. *)
Definition sample_info : VideoInfo := MkVideoInfo 10 10 (Some 131158).
Definition sample_video : list frame := replicate (Z.to_nat 131158) (replicate 300 0).

#[local] Existing Instances sample_unicode sample_floats sample_time sample_zlib sample_zlib_laws.

Lemma sample_packable : packable 1767225600 sample_metadata 1.
Proof. split; [exact sample_well_formed|]. exists 1. split; [by vm_compute|by left]. Qed.

Lemma sample_pack : ∃ payload, pack_envelope 1767225600 sample_metadata 1 = Ok payload ∧ zlen payload ≤ 65579.
Proof.
  destruct (pack_packable 1767225600 sample_metadata 1) as (b & Hb & _ & _ & Hp); [by vm_compute|exact sample_packable|].
  assert (zlen b ≤ 1000) as Hl.
  { assert (zlen (from_ok [] (canonical_json (PDict (stored sample_metadata 1)))) <= 1000) as Hc by (by vm_compute).
    by rewrite Hb in Hc. }
  change (zlib_compress b) with b in Hp. unfold MAX_DECOMPRESSED_BYTES, MAX_PAYLOAD_BYTES in Hp.
  rewrite !(proj2 (Z.ltb_ge _ _)) in Hp by lia. cbn [orb Z.eqb Pos.eqb] in Hp. eexists. split; [exact Hp|].
  unfold zlen in *. rewrite length_seal by by left. lia.
Qed.

Lemma sample_embed :
  ∃ out, embed_metadata 1767225600 sample_info sample_metadata sample_video = Ok out ∧
    zlen out = 131158 ∧ Forall2 (Forall2 near) out out.
Proof.
  destruct sample_pack as (payload & Hp & Hl). unfold embed_metadata.
  assert (dict_get (lit "version") sample_metadata = Some (PInt 1)) as -> by (by vm_compute).
  rewrite Hp. cbn [map_err]. rewrite bind_Ok. unfold fits.
  assert (border_capacity (width sample_info) (height sample_info) = 4) as -> by (by vm_compute).
  change (counted_frames sample_info) with 131158.
  assert (zlen (bytes_to_bits payload) <= 4 * 131158) as Hbits
    by (unfold zlen in *; rewrite length_bytes_to_bits; lia).
  rewrite (proj2 (Z.leb_le _ _) Hbits). cbn [orb].
  destruct (embed_frames_ok sample_info (bytes_to_bits payload) 0 sample_video) as (out & Ho & Hlen & Hn).
  - apply Forall_replicate. split; [by vm_compute|]. apply Forall_replicate. lia.
  - apply bytes_to_bits_range.
  - exists out. split; [exact Ho|]. split; [|done]. unfold zlen. rewrite Hlen. unfold sample_video.
    rewrite length_replicate. lia.
Qed.

Lemma embedded_metadata_survives_witness :
  ∃ out, embed_metadata 1767225600 sample_info sample_metadata sample_video = Ok out ∧
    extract_metadata_process 1767225700 sample_info out = Ok (Some (canon (PDict (stored sample_metadata 1)))).
Proof.
  destruct sample_embed as (out & Ho & Hl & Hn). exists out. split; [exact Ho|].
  apply (embedded_metadata_survives 1767225600 1767225700 sample_info sample_metadata 1 sample_video out out).
  - cbn. lia.
  - cbn. lia.
  - vm_compute. reflexivity.
  - vm_compute. reflexivity.
  - exact sample_packable.
  - lia.
  - exact Ho.
  - exact Hn.
  - intros payload Hp. destruct sample_pack as (payload' & Hp' & Hs). rewrite Hp in Hp'. injection Hp' as <-.
    assert (border_capacity (width sample_info) (height sample_info) = 4) as -> by (by vm_compute).
    change (frame_limit sample_info) with 131158. rewrite take_ge by (unfold zlen in Hl; lia). lia.
Defined.
