(* ===== verification/VerifierInputs.v ===== *)
(** The verifier-input codec ([src/backend/verifier_inputs.py], codecs [hpx-vi/1]
    and [hpx-vi/2]): hexadecimal decoding under a size ceiling, the canonical
    BN254 field encoding, the three public-input schemas and the conformance entry
    point [classify].  Every rejection is a [VerifierInputError] value carrying the
    reject code and the field name, in the check order of the code. *)
From Stdlib Require Import ZArith Lia.
From stdpp Require Import base decidable strings numbers list.
From S2P Require Import Prelude PyStr Sha256.

Open Scope Z_scope.

(** * Constants *)

Definition FIELD_LEN : nat := 32.
Definition SILENT_WITNESS_FIELD_COUNT : nat := 5.
Definition REVOCATION_FIELD_COUNT : nat := 4.
Definition SILENT_WITNESS_PUBLIC_INPUTS_LEN : nat := FIELD_LEN * SILENT_WITNESS_FIELD_COUNT.
Definition REVOCATION_PUBLIC_INPUTS_LEN : nat := FIELD_LEN * REVOCATION_FIELD_COUNT.
Definition SILENT_WITNESS_V2_FIELD_COUNT : nat := 8.
Definition SILENT_WITNESS_V2_PUBLIC_INPUTS_LEN : nat := FIELD_LEN * SILENT_WITNESS_V2_FIELD_COUNT.
Definition EXPECTED_CIRCUIT_VERSION : Z := 2.
Definition MIN_PROOF_BYTES : Z := 64.
Definition MAX_PROOF_BYTES : Z := 65536.
Definition MIN_AGGREGATION_SIZE : Z := 1.
Definition MAX_AGGREGATION_SIZE : Z := 8.
Definition MAX_HEX_CHARS : Z := 2 * (MAX_PROOF_BYTES + 1024).
Definition BN254_SCALAR_FIELD_MODULUS : Z :=
  21888242871839275222246405745257275088548364400416034343698204186575808495617.
Definition REVOCATION_DOMAIN_SEPARATOR : bytes :=
  replicate 7 0 ++ lit "HARPOCRATES_REVOCATION_V1".
(** A constant written with [bytes.fromhex]. *)
Definition hex_const (s : string) : bytes := default [] (bytes_fromhex (lit s)).
Definition DOMAIN_PROTOCOL_FIELD : bytes :=
  hex_const "261e9f6e39e3c1ae6aca9f29e84c10d59c82d5f4b40c21c1b7e3c01ad571c201".
Definition DOMAIN_VERSION_FIELD : bytes :=
  hex_const "0c89eff4ec8e39a01e9f19547a0cc9dd7fd2a97d79ba4d94fd32e97a1f5ac623".
Definition DOMAIN_NETWORK_FIELD : bytes :=
  hex_const "2a2c3f48ce2e3c2f1e6c89b18d64b5f5c1f88a59a0d9bc82cb61a1e8cb77a50f".
Definition SILENT_WITNESS_DOMAIN_TAG : bytes :=
  sha256 (DOMAIN_PROTOCOL_FIELD ++ DOMAIN_VERSION_FIELD ++ DOMAIN_NETWORK_FIELD).
Definition SCHEMA_SILENT_WITNESS : str := lit "silent_witness/v1".
Definition SCHEMA_REVOCATION_WITNESS : str := lit "revocation_witness/v1".
Definition SCHEMA_SILENT_WITNESS_V2 : str := lit "silent_witness/v2".
Definition MAX_REVOCATION_WITNESS_DEPTH : Z := 16.
Definition ZERO_FIELD : bytes := replicate FIELD_LEN 0.

(** * Errors *)

Inductive RejectCode : Type :=
  | MALFORMED_HEX | LENGTH | PADDING | NON_CANONICAL_FIELD | ZERO_FIELD_CODE
  | DOMAIN_MISMATCH | PROOF_UNDERSIZE | PROOF_OVERSIZE | UNKNOWN_SCHEMA | VERSION_MISMATCH.

#[export] Instance RejectCode_eq_dec : EqDecision RejectCode.
Proof. solve_decision. Defined.

(** [RejectCode.value] *)
Definition code_value (c : RejectCode) : str :=
  match c with
  | MALFORMED_HEX => lit "malformed_hex"
  | LENGTH => lit "length"
  | PADDING => lit "padding"
  | NON_CANONICAL_FIELD => lit "non_canonical_field"
  | ZERO_FIELD_CODE => lit "zero_field"
  | DOMAIN_MISMATCH => lit "domain_mismatch"
  | PROOF_UNDERSIZE => lit "proof_undersize"
  | PROOF_OVERSIZE => lit "proof_oversize"
  | UNKNOWN_SCHEMA => lit "unknown_schema"
  | VERSION_MISMATCH => lit "version_mismatch"
  end.

Record VerifierInputError := VIError { vi_code : RejectCode; vi_field : option str }.

Definition reject {A} (c : RejectCode) (field : string) : result VerifierInputError A :=
  Err (VIError c (Some (lit field))).

(** * Parsed inputs *)

Record SilentWitnessInputs := {
  video_hash : bytes;
  sw_credential_root : bytes;
  sw_nullifier : bytes;
  domain_tag : bytes;
  verifier_scope : option bytes;
  epoch : option bytes;
  circuit_version : option Z;
}.

Record RevocationWitnessInputs := {
  revocation_root : bytes;
  rv_nullifier : bytes;
  domain_separator : bytes;
  rv_credential_root : bytes;
}.

(** * Primitives *)

Section primitives.
Context `{Unicode}.

(** [hmac.compare_digest] returns whether the two byte strings are equal. *)
Definition constant_time_equals (left right : bytes) : bool := bool_decide (left = right).

Definition decode_hex (value : pyval) (field : str) (oversize_code : RejectCode) :
    result VerifierInputError bytes :=
  match value with
  | PStr s =>
      if MAX_HEX_CHARS <? zlen s then Err (VIError oversize_code (Some field))
      else if negb (zlen s mod 2 =? 0) then Err (VIError MALFORMED_HEX (Some field))
      else if negb (forallb is_hex s) then Err (VIError MALFORMED_HEX (Some field))
      else match bytes_fromhex s with
           | Some b => Ok b
           | None => Err (VIError MALFORMED_HEX (Some field))
           end
  | _ => Err (VIError MALFORMED_HEX (Some field))
  end.

Definition parse_field_value (value : pyval) (field : str) : result VerifierInputError Z :=
  match value with
  | PBool _ => Err (VIError MALFORMED_HEX (Some field))
  | PInt z => Ok z
  | PStr s =>
      if bool_decide (s = []) then Err (VIError MALFORMED_HEX (Some field))
      else match (if starts_with (lit "0x") (py_lower s) then py_int 16 s else py_int 10 s) with
           | Some z => Ok z
           | None => Err (VIError MALFORMED_HEX (Some field))
           end
  | _ => Err (VIError MALFORMED_HEX (Some field))
  end.

Definition encode_field_to_bytes32_hex (value : pyval) (field : str) :
    result VerifierInputError str :=
  element ← parse_field_value value field;
  if (element <? 0) || (BN254_SCALAR_FIELD_MODULUS <=? element)
  then Err (VIError NON_CANONICAL_FIELD (Some field))
  else Ok (hex_064 element).

(** The generator of [encode_public_inputs], from index [index] on. *)
Fixpoint encode_public_inputs_from (index : nat) (values : list pyval) (fields : list str) :
    result VerifierInputError str :=
  match values with
  | [] => Ok []
  | v :: values =>
      let name := default (lit "field_" ++ dec_str (Z.of_nat index)) (fields !! index) in
      h ← encode_field_to_bytes32_hex v name;
      t ← encode_public_inputs_from (S index) values fields;
      Ok (h ++ t)
  end.
Definition encode_public_inputs (values : list pyval) (fields : list str) :
    result VerifierInputError str := encode_public_inputs_from 0 values fields.

Definition is_canonical_field (element : bytes) : bool :=
  (length element =? FIELD_LEN)%nat && (int_of_be element <? BN254_SCALAR_FIELD_MODULUS).

Definition check_proof_bounds (proof : bytes) : result VerifierInputError unit :=
  if zlen proof <? MIN_PROOF_BYTES then reject PROOF_UNDERSIZE "proof"
  else if MAX_PROOF_BYTES <? zlen proof then reject PROOF_OVERSIZE "proof"
  else Ok ().

Definition split_fields (public_inputs : bytes) (expected_len count : nat) :
    result VerifierInputError (list bytes) :=
  if negb (length public_inputs =? expected_len)%nat then reject LENGTH "public_inputs"
  else Ok ((λ index, slice (index * FIELD_LEN) (S index * FIELD_LEN) public_inputs) <$> seq 0 count).

(** [zip] stops at the shorter list. *)
Fixpoint require_canonical (fields : list bytes) (names : list string) :
    result VerifierInputError unit :=
  match fields, names with
  | element :: fields, name :: names =>
      if negb (is_canonical_field element) then reject NON_CANONICAL_FIELD name
      else require_canonical fields names
  | _, _ => Ok ()
  end.

Definition require_non_zero (field_value : bytes) (name : string) :
    result VerifierInputError unit :=
  if constant_time_equals field_value ZERO_FIELD then reject ZERO_FIELD_CODE name else Ok ().

Definition require_half_padding (field_value : bytes) (name : string) :
    result VerifierInputError bytes :=
  if negb (constant_time_equals (take 16 field_value) (take 16 ZERO_FIELD))
  then reject PADDING name
  else Ok (drop 16 field_value).

Definition version_of (field_value : bytes) : Z :=
  if negb (bool_decide (take 28 field_value = replicate 28 0)) then 4294967295
  else int_of_be (slice 28 32 field_value).

(** * Schemas *)

Definition SILENT_WITNESS_FIELDS : list string :=
  ["video_hash_hi"; "video_hash_lo"; "credential_root"; "nullifier"; "domain_tag"]%string.
Definition SILENT_WITNESS_V2_FIELDS : list string :=
  ["video_hash_hi"; "video_hash_lo"; "credential_root"; "nullifier"; "verifier_scope";
   "epoch"; "domain_tag"; "circuit_version"]%string.
Definition REVOCATION_FIELDS : list string :=
  ["revocation_root"; "nullifier"; "domain_separator"; "credential_root"]%string.

(** [fields[i]] *)
Definition fld (fields : list bytes) (i : nat) : bytes := nth i fields [].

Definition parse_silent_witness_inputs (public_inputs : bytes) :
    result VerifierInputError SilentWitnessInputs :=
  fields ← split_fields public_inputs SILENT_WITNESS_PUBLIC_INPUTS_LEN SILENT_WITNESS_FIELD_COUNT;
  high ← require_half_padding (fld fields 0) "video_hash_hi";
  low ← require_half_padding (fld fields 1) "video_hash_lo";
  require_canonical (take 4 fields) (take 4 SILENT_WITNESS_FIELDS);;
  require_non_zero (fld fields 2) "credential_root";;
  require_non_zero (fld fields 3) "nullifier";;
  require_non_zero (fld fields 4) "domain_tag";;
  if negb (constant_time_equals (fld fields 4) SILENT_WITNESS_DOMAIN_TAG)
  then reject DOMAIN_MISMATCH "domain_tag"
  else Ok {| video_hash := high ++ low; sw_credential_root := fld fields 2;
             sw_nullifier := fld fields 3; domain_tag := fld fields 4;
             verifier_scope := None; epoch := None; circuit_version := None |}.

Definition parse_silent_witness_v2_inputs (public_inputs : bytes) :
    result VerifierInputError SilentWitnessInputs :=
  fields ← split_fields public_inputs SILENT_WITNESS_V2_PUBLIC_INPUTS_LEN
             SILENT_WITNESS_V2_FIELD_COUNT;
  high ← require_half_padding (fld fields 0) "video_hash_hi";
  low ← require_half_padding (fld fields 1) "video_hash_lo";
  if negb (version_of (fld fields 7) =? EXPECTED_CIRCUIT_VERSION)
  then reject VERSION_MISMATCH "circuit_version" else
  require_canonical (take 6 fields) (take 6 SILENT_WITNESS_V2_FIELDS);;
  require_non_zero (fld fields 2) "credential_root";;
  require_non_zero (fld fields 3) "nullifier";;
  require_non_zero (fld fields 6) "domain_tag";;
  if negb (constant_time_equals (fld fields 6) SILENT_WITNESS_DOMAIN_TAG)
  then reject DOMAIN_MISMATCH "domain_tag"
  else Ok {| video_hash := high ++ low; sw_credential_root := fld fields 2;
             sw_nullifier := fld fields 3; domain_tag := fld fields 6;
             verifier_scope := Some (fld fields 4); epoch := Some (fld fields 5);
             circuit_version := Some EXPECTED_CIRCUIT_VERSION |}.

Definition parse_revocation_witness_inputs (public_inputs : bytes) :
    result VerifierInputError RevocationWitnessInputs :=
  fields ← split_fields public_inputs REVOCATION_PUBLIC_INPUTS_LEN REVOCATION_FIELD_COUNT;
  require_canonical fields REVOCATION_FIELDS;;
  require_non_zero (fld fields 0) "revocation_root";;
  require_non_zero (fld fields 1) "nullifier";;
  require_non_zero (fld fields 3) "credential_root";;
  if negb (constant_time_equals (fld fields 2) REVOCATION_DOMAIN_SEPARATOR)
  then reject DOMAIN_MISMATCH "domain_separator"
  else Ok {| revocation_root := fld fields 0; rv_nullifier := fld fields 1;
             domain_separator := fld fields 2; rv_credential_root := fld fields 3 |}.

Definition parse_public_inputs (schema : str) (public_inputs : bytes) :
    result VerifierInputError (SilentWitnessInputs + RevocationWitnessInputs) :=
  if bool_decide (schema = SCHEMA_SILENT_WITNESS)
  then inl <$> parse_silent_witness_inputs public_inputs
  else if bool_decide (schema = SCHEMA_SILENT_WITNESS_V2)
  then inl <$> parse_silent_witness_v2_inputs public_inputs
  else if bool_decide (schema = SCHEMA_REVOCATION_WITNESS)
  then inr <$> parse_revocation_witness_inputs public_inputs
  else reject UNKNOWN_SCHEMA "schema".

(** * Conformance entry point *)

Definition check_material (schema : str) (public_inputs_hex proof_hex : pyval) :
    result VerifierInputError unit :=
  public_inputs ← decode_hex public_inputs_hex (lit "public_inputs") LENGTH;
  parse_public_inputs schema public_inputs;;
  proof ← decode_hex proof_hex (lit "proof") PROOF_OVERSIZE;
  check_proof_bounds proof.

Definition classify (schema : str) (public_inputs_hex proof_hex : pyval) : option str :=
  match check_material schema public_inputs_hex proof_hex with
  | Err error => Some (code_value (vi_code error))
  | Ok _ => None
  end.

Definition check_revocation_witness_depth (depth : pyval) : result VerifierInputError unit :=
  match depth with
  | PInt d =>
      if d <? 1 then reject LENGTH "depth"
      else if MAX_REVOCATION_WITNESS_DEPTH <? d then reject PROOF_OVERSIZE "depth"
      else Ok ()
  | _ => reject MALFORMED_HEX "depth"
  end.

Definition check_aggregation_batch_size (batch_size : pyval) : result VerifierInputError Z :=
  match batch_size with
  | PInt n =>
      if n <? MIN_AGGREGATION_SIZE then reject LENGTH "batch_size"
      else if MAX_AGGREGATION_SIZE <? n then reject PROOF_OVERSIZE "batch_size"
      else Ok n
  | _ => reject MALFORMED_HEX "batch_size"
  end.
End primitives.

(** * Frames *)

(** [count] fields of 32 bytes. *)
Definition well_sized (count : nat) (fs : list bytes) : Prop :=
  length fs = count ∧ Forall (λ f, length f = FIELD_LEN) fs.

Lemma length_mjoin_fields fs count :
  well_sized count fs → length (mjoin fs) = (FIELD_LEN * count)%nat.
Proof.
  intros [<- Hf]. induction Hf as [|f fs Hlen Hf IH]; [done|].
  cbn [length]. rewrite mjoin_cons, length_app, Hlen, IH. unfold FIELD_LEN. lia.
Qed.

Lemma slices_of_join (pre : bytes) (fs : list bytes) k :
  length pre = (k * FIELD_LEN)%nat → Forall (λ f, length f = FIELD_LEN) fs →
  (λ index, slice (index * FIELD_LEN) (S index * FIELD_LEN) (pre ++ mjoin fs)) <$> seq k (length fs) = fs.
Proof.
  intros Hpre Hf. revert pre k Hpre. induction Hf as [|f fs Hlen Hf IH]; intros pre k Hpre; [done|].
  rewrite mjoin_cons. cbn [length seq fmap list_fmap]. f_equal.
  - apply slice_app_exact; [lia|]. rewrite Hlen. unfold FIELD_LEN. lia.
  - rewrite app_assoc. apply IH. rewrite length_app, Hpre, Hlen. unfold FIELD_LEN. lia.
Qed.

Lemma split_fields_join fs count :
  well_sized count fs → split_fields (mjoin fs) (FIELD_LEN * count) count = Ok fs.
Proof.
  intros Hws. unfold split_fields. rewrite (length_mjoin_fields fs count Hws), Nat.eqb_refl.
  destruct Hws as [<- Hf]. cbn [negb]. f_equal. by apply (slices_of_join [] fs 0).
Qed.

Lemma fields_exist b count :
  length b = (FIELD_LEN * count)%nat → ∃ fs, b = mjoin fs ∧ well_sized count fs.
Proof.
  revert b. induction count as [|count IH]; intros b Hb.
  - rewrite Nat.mul_0_r in Hb. apply nil_length_inv in Hb as ->. exists []. by repeat split.
  - unfold FIELD_LEN in *. destruct (IH (drop 32 b)) as (fs & Hfs & Hl & Hf).
    { rewrite length_drop. lia. }
    exists (take 32 b :: fs). rewrite mjoin_cons, <- Hfs, take_drop. cbn [length].
    split; [done|]. split; [cbn; lia|]. constructor; [rewrite length_take; unfold FIELD_LEN; lia|done].
Qed.

Lemma split_fields_inv b count fs :
  split_fields b (FIELD_LEN * count) count = Ok fs → b = mjoin fs ∧ well_sized count fs.
Proof.
  intros Hs. assert (length b = FIELD_LEN * count)%nat as Hlen.
  { unfold split_fields, reject in Hs. destruct (Nat.eqb_spec (length b) (FIELD_LEN * count)); done. }
  destruct (fields_exist b count Hlen) as (fs' & -> & Hws).
  rewrite split_fields_join in Hs by done. by simplify_eq.
Qed.

Lemma bytes_ok_join (fs : list bytes) : bytes_ok (mjoin fs) ↔ Forall bytes_ok fs.
Proof.
  unfold bytes_ok. induction fs as [|f fs IH]; [by split; constructor|].
  by rewrite mjoin_cons, Forall_app, Forall_cons, IH.
Qed.

(** A 32-byte encoding of a scalar of the field. *)
Definition canonical (f : bytes) : Prop :=
  length f = FIELD_LEN ∧ int_of_be f < BN254_SCALAR_FIELD_MODULUS.

Lemma is_canonical_field_spec f : is_canonical_field f = true ↔ canonical f.
Proof.
  unfold is_canonical_field, canonical. rewrite andb_true_iff, Nat.eqb_eq, Z.ltb_lt. done.
Qed.

Lemma require_canonical_ok fs names :
  (length fs ≤ length names)%nat →
  require_canonical fs names = Ok () ↔ Forall canonical fs.
Proof.
  revert names. induction fs as [|f fs IH]; intros names Hlen; cbn; [by split; [constructor|]|].
  destruct names as [|n names]; [cbn in Hlen; lia|].
  rewrite Forall_cons, <- is_canonical_field_spec.
  destruct (is_canonical_field f); cbn.
  - rewrite IH by (cbn in Hlen; lia). by intuition.
  - unfold reject. split; [done|]. by intros [? _].
Qed.

Lemma require_non_zero_ok f n : require_non_zero f n = Ok () ↔ f ≠ ZERO_FIELD.
Proof.
  unfold require_non_zero, constant_time_equals, reject. by case_bool_decide.
Qed.

Lemma require_half_padding_ok f n low :
  require_half_padding f n = Ok low ↔ f = replicate 16 0 ++ low.
Proof.
  unfold require_half_padding, constant_time_equals, reject.
  change (take 16 ZERO_FIELD) with (replicate 16 0).
  case_bool_decide as Hp; cbn [negb].
  - rewrite <- (take_drop 16 f) at 2. rewrite Hp. split; [by intros [= ->]|].
    intros Heq. apply app_inj_1 in Heq as [_ ->]; done.
  - split; [done|]. intros ->. by rewrite take_app_length' in Hp.
Qed.

(** The frame a parsed [silent_witness/v1] record came from. *)
Definition silent_frame (r : SilentWitnessInputs) : bytes :=
  mjoin [replicate 16 0 ++ take 16 (video_hash r); replicate 16 0 ++ drop 16 (video_hash r);
         sw_credential_root r; sw_nullifier r; domain_tag r].

Definition silent_v1_ok (r : SilentWitnessInputs) : Prop :=
  length (video_hash r) = 32%nat ∧
  canonical (sw_credential_root r) ∧ canonical (sw_nullifier r) ∧
  sw_credential_root r ≠ ZERO_FIELD ∧ sw_nullifier r ≠ ZERO_FIELD ∧
  domain_tag r = SILENT_WITNESS_DOMAIN_TAG ∧
  verifier_scope r = None ∧ epoch r = None ∧ circuit_version r = None.

(** A half is far below the modulus. *)
Lemma half_canonical h :
  bytes_ok h → length h = 16%nat → canonical (replicate 16 0 ++ h).
Proof.
  intros Hok Hlen. split; [by rewrite length_app, length_replicate, Hlen|].
  rewrite int_of_be_app. change (int_of_be (replicate 16 0)) with 0.
  pose proof (int_of_be_bound h Hok) as Hb. unfold zlen in Hb. rewrite Hlen in Hb.
  change (256 ^ Z.of_nat 16) with 340282366920938463463374607431768211456 in Hb.
  unfold BN254_SCALAR_FIELD_MODULUS. lia.
Qed.

Lemma half_canonical_app h :
  bytes_ok (replicate 16 0 ++ h) → length h = 16%nat → canonical (replicate 16 0 ++ h).
Proof. intros [_ Hok]%Forall_app. by apply half_canonical. Qed.

Lemma domain_tag_length : length SILENT_WITNESS_DOMAIN_TAG = FIELD_LEN.
Proof. apply length_sha256. Qed.

#[local] Transparent sha256.
Lemma domain_tag_value :
  SILENT_WITNESS_DOMAIN_TAG ≠ ZERO_FIELD ∧
  BN254_SCALAR_FIELD_MODULUS ≤ int_of_be SILENT_WITNESS_DOMAIN_TAG.
Proof. vm_compute. split; discriminate. Qed.
#[local] Opaque sha256.

Ltac destruct_fields fs :=
  match goal with
  | H : well_sized ?n fs |- _ =>
      let Hl := fresh "Hl" in let Hf := fresh "Hf" in
      destruct H as [Hl Hf]; repeat (destruct fs as [|? fs]; [discriminate Hl|]);
      destruct fs; [|discriminate Hl]; clear Hl; rewrite !Forall_cons in Hf; destruct_and! Hf
  end.

Lemma field_halves (f h : bytes) :
  f = replicate 16 0 ++ h → length f = FIELD_LEN → length h = 16%nat.
Proof. intros -> Hl. rewrite length_app, length_replicate in Hl. unfold FIELD_LEN in Hl. lia. Qed.

Lemma check_tag {A} (f g : bytes) c n (k : A) r :
  (if negb (constant_time_equals f g) then reject c n else Ok k) = Ok r ↔ f = g ∧ k = r.
Proof.
  unfold constant_time_equals, reject. case_bool_decide; cbn; split; naive_solver.
Qed.

(** [parse_silent_witness_inputs] accepts exactly the canonical frames: a byte
    string parses to [r] if and only if it is the 160-byte frame of [r] and [r] has
    a 32-byte video hash, canonical non-zero credential root and nullifier, the
    protocol's domain tag and no v2 field.  In particular parsing is injective. *)
Theorem parse_silent_witness_iff b r :
  bytes_ok b →
  parse_silent_witness_inputs b = Ok r ↔ b = silent_frame r ∧ silent_v1_ok r.
Proof.
  intros Hok. unfold parse_silent_witness_inputs, SILENT_WITNESS_PUBLIC_INPUTS_LEN. split.
  - intros (fs & [-> Hws]%split_fields_inv & Hp)%bind_ok. destruct_fields fs.
    cbn [fld nth take SILENT_WITNESS_FIELDS] in Hp.
    apply bind_ok in Hp as (hi & Hhi%require_half_padding_ok & Hp).
    apply bind_ok in Hp as (lo & Hlo%require_half_padding_ok & Hp).
    rewrite !seq_ok, require_canonical_ok, !require_non_zero_ok, check_tag in Hp by (cbn; lia).
    destruct Hp as (Hc & Hz1 & Hz2 & Hz3 & -> & <-). rewrite !Forall_cons in Hc.
    pose proof (field_halves _ _ Hhi ltac:(done)). pose proof (field_halves _ _ Hlo ltac:(done)).
    unfold silent_frame, silent_v1_ok. cbn. rewrite take_app_length', drop_app_length', length_app by done.
    subst. split; [done|]. destruct_and! Hc. split_and!; auto; lia.
  - intros [-> (Hv & Hc1 & Hc2 & Hz1 & Hz2 & Htag & Hs & He & Hcv)].
    assert (length (take 16 (video_hash r)) = 16%nat ∧ length (drop 16 (video_hash r)) = 16%nat)
      as [Hl1 Hl2] by (rewrite length_take, length_drop; lia).
    unfold silent_frame in *. rewrite bytes_ok_join, !Forall_cons in Hok. destruct_and! Hok.
    rewrite split_fields_join.
    2:{ split; [done|]. rewrite Htag. repeat (apply Forall_cons; split); try apply Forall_nil_2;
        rewrite ?length_app, ?length_replicate, ?Hl1, ?Hl2; auto using domain_tag_length;
        by destruct Hc1, Hc2. }
    cbn [mbind result_bind fld nth take SILENT_WITNESS_FIELDS].
    rewrite !(proj2 (require_half_padding_ok _ _ _) eq_refl). cbn [mbind result_bind].
    rewrite !seq_ok, require_canonical_ok, !require_non_zero_ok, check_tag by (cbn; lia).
    split_and!; [|assumption|assumption|rewrite Htag; apply domain_tag_value|assumption|].
    + by repeat (apply Forall_cons; split); [apply half_canonical_app|apply half_canonical_app| | |].
    + rewrite take_drop. destruct r; cbn in *. by subst.
Qed.

(** The frame of a [revocation_witness/v1] record. *)
Definition revocation_frame (r : RevocationWitnessInputs) : bytes :=
  mjoin [revocation_root r; rv_nullifier r; domain_separator r; rv_credential_root r].

Definition revocation_ok (r : RevocationWitnessInputs) : Prop :=
  canonical (revocation_root r) ∧ canonical (rv_nullifier r) ∧ canonical (rv_credential_root r) ∧
  revocation_root r ≠ ZERO_FIELD ∧ rv_nullifier r ≠ ZERO_FIELD ∧ rv_credential_root r ≠ ZERO_FIELD ∧
  domain_separator r = REVOCATION_DOMAIN_SEPARATOR.

Lemma separator_canonical : canonical REVOCATION_DOMAIN_SEPARATOR.
Proof. by apply is_canonical_field_spec. Qed.

Lemma parse_revocation_iff b r :
  parse_revocation_witness_inputs b = Ok r ↔ b = revocation_frame r ∧ revocation_ok r.
Proof.
  unfold parse_revocation_witness_inputs, REVOCATION_PUBLIC_INPUTS_LEN. split.
  - intros (fs & [-> Hws]%split_fields_inv & Hp)%bind_ok. destruct_fields fs.
    cbn [fld nth] in Hp.
    rewrite !seq_ok, require_canonical_ok, !require_non_zero_ok, check_tag in Hp by (cbn; lia).
    destruct Hp as (Hc & Hz1 & Hz2 & Hz3 & -> & <-). rewrite !Forall_cons in Hc. destruct_and! Hc.
    unfold revocation_frame, revocation_ok. cbn [revocation_root rv_nullifier domain_separator rv_credential_root].
    by split_and!.
  - intros [-> (Hc1 & Hc2 & Hc3 & Hz1 & Hz2 & Hz3 & Hsep)]. unfold revocation_frame.
    rewrite split_fields_join.
    2:{ split; [done|]. rewrite Hsep. repeat (apply Forall_cons; split); try apply Forall_nil_2;
        by destruct Hc1, Hc2, Hc3. }
    cbn [mbind result_bind fld nth].
    rewrite !seq_ok, require_canonical_ok, !require_non_zero_ok, check_tag by (cbn; lia).
    split_and!; [|assumption..|by destruct r].
    repeat (apply Forall_cons; split); try assumption; [|apply Forall_nil_2].
    rewrite Hsep. apply separator_canonical.
Qed.

(** * Encoding *)

Lemma modulus_bound : BN254_SCALAR_FIELD_MODULUS < 2 ^ 256.
Proof. done. Qed.

Lemma encode_field_inv `{Unicode} v name h :
  encode_field_to_bytes32_hex v name = Ok h →
  ∃ z, 0 ≤ z < BN254_SCALAR_FIELD_MODULUS ∧ h = bytes_hex (be_of_int 32 z).
Proof.
  unfold encode_field_to_bytes32_hex. intros (z & _ & Hz)%bind_ok.
  destruct (_ || _) eqn:Hr; [done|]. bool_inv. simplify_eq.
  exists z. split; [lia|]. apply hex_064_be. pose proof modulus_bound. lia.
Qed.

Lemma encode_field_int `{Unicode} z name :
  0 ≤ z < BN254_SCALAR_FIELD_MODULUS →
  encode_field_to_bytes32_hex (PInt z) name = Ok (bytes_hex (be_of_int 32 z)).
Proof.
  intros Hz. unfold encode_field_to_bytes32_hex. cbn [parse_field_value mbind result_bind].
  rewrite (proj2 (Z.ltb_ge _ _)), (proj2 (Z.leb_gt _ _)) by lia. cbn [orb].
  f_equal. apply hex_064_be. pose proof modulus_bound. lia.
Qed.

Lemma canonical_be z : 0 ≤ z < BN254_SCALAR_FIELD_MODULUS → canonical (be_of_int 32 z).
Proof.
  intros Hz. split; [apply length_be_of_int|]. rewrite int_of_be_of_int; [lia|].
  change (256 ^ Z.of_nat 32) with (2 ^ 256). pose proof modulus_bound. lia.
Qed.

Lemma bytes_hex_app a b : bytes_hex (a ++ b) = bytes_hex a ++ bytes_hex b.
Proof. apply bind_app. Qed.

Lemma encode_public_inputs_inv `{Unicode} i values fields h :
  encode_public_inputs_from i values fields = Ok h →
  ∃ fs, h = bytes_hex (mjoin fs) ∧ length fs = length values ∧ Forall canonical fs ∧
    Forall bytes_ok fs.
Proof.
  revert i h. induction values as [|v values IH]; intros i h He; cbn in He.
  - simplify_eq. by exists [].
  - apply bind_ok in He as (h1 & (z & Hz & ->)%encode_field_inv & He).
    apply bind_ok in He as (h2 & (fs & -> & Hl & Hc & Hok)%IH & He). simplify_eq.
    exists (be_of_int 32 z :: fs). rewrite mjoin_cons, bytes_hex_app. cbn [length].
    split_and!; [done|lia|constructor; auto using canonical_be..].
    apply bytes_ok_be_of_int.
Qed.

Lemma is_lower_hex_is_hex c : is_lower_hex c = true → is_hex c = true.
Proof.
  unfold is_lower_hex, is_hex, hex_val. intros Hc. apply bool_decide_eq_true.
  destruct ((48 <=? c) && (c <=? 57)); [eauto|]. cbn in Hc. rewrite Hc. eauto.
Qed.

(** Decoding what [bytes.hex] wrote. *)
Lemma decode_hex_bytes_hex b field code :
  bytes_ok b → 2 * zlen b ≤ MAX_HEX_CHARS →
  decode_hex (PStr (bytes_hex b)) field code = Ok b.
Proof.
  intros Hok Hlen. unfold decode_hex. unfold zlen in *. rewrite length_bytes_hex.
  rewrite (proj2 (Z.ltb_ge _ _)) by lia.
  replace (Z.of_nat (2 * length b) mod 2) with 0
    by (rewrite Nat2Z.inj_mul, Z.mul_comm, Z.mod_mul; lia).
  assert (forallb is_hex (bytes_hex b) = true) as ->.
  { apply forallb_Forall. eapply Forall_impl; [by apply bytes_hex_is_lower|].
    intros c Hc. by rewrite is_lower_hex_is_hex. }
  cbn. by rewrite bytes_fromhex_hex.
Qed.

Lemma decode_hex_ok_bytes v field code b : decode_hex v field code = Ok b → bytes_ok b.
Proof.
  unfold decode_hex. intros. repeat case_match; simplify_eq. by eapply bytes_fromhex_ok.
Qed.

Lemma proof_blob_accepted proof :
  bytes_ok proof → MIN_PROOF_BYTES ≤ zlen proof ≤ MAX_PROOF_BYTES →
  (b ← decode_hex (PStr (bytes_hex proof)) (lit "proof") PROOF_OVERSIZE;
   check_proof_bounds b) = Ok ().
Proof.
  intros Hp Hlen. rewrite decode_hex_bytes_hex.
  - cbn [mbind result_bind]. unfold check_proof_bounds.
    by rewrite (proj2 (Z.ltb_ge _ _)), (proj2 (Z.ltb_ge _ _)) by lia.
  - done.
  - unfold MAX_HEX_CHARS, MAX_PROOF_BYTES in *. lia.
Qed.

(** Round trip through the encoder, the decoder and the parser of
    [revocation_witness/v1]: for any non-zero scalars the encoded public-input
    vector (with the domain separator's value as third element) is accepted by
    [classify] with every proof of an admissible size, and parses back to the
    big-endian encodings of the scalars. *)
Theorem revocation_roundtrip `{Unicode} root nul cred fields proof :
  0 < root < BN254_SCALAR_FIELD_MODULUS → 0 < nul < BN254_SCALAR_FIELD_MODULUS →
  0 < cred < BN254_SCALAR_FIELD_MODULUS →
  bytes_ok proof → MIN_PROOF_BYTES ≤ zlen proof ≤ MAX_PROOF_BYTES →
  ∃ h, encode_public_inputs
         [PInt root; PInt nul; PInt (int_of_be REVOCATION_DOMAIN_SEPARATOR); PInt cred] fields = Ok h ∧
    classify SCHEMA_REVOCATION_WITNESS (PStr h) (PStr (bytes_hex proof)) = None ∧
    ∃ b, decode_hex (PStr h) (lit "public_inputs") LENGTH = Ok b ∧
      parse_revocation_witness_inputs b = Ok {|
        revocation_root := be_of_int 32 root; rv_nullifier := be_of_int 32 nul;
        domain_separator := REVOCATION_DOMAIN_SEPARATOR; rv_credential_root := be_of_int 32 cred |}.
Proof.
  intros Hr Hn Hc Hp Hlen.
  set (sep := REVOCATION_DOMAIN_SEPARATOR).
  set (fs := [be_of_int 32 root; be_of_int 32 nul; sep; be_of_int 32 cred]).
  assert (0 ≤ int_of_be sep < BN254_SCALAR_FIELD_MODULUS) as Hsep by (vm_compute; intuition discriminate).
  assert (be_of_int 32 (int_of_be sep) = sep) as Hsb by (vm_compute; reflexivity).
  assert (bytes_ok (mjoin fs)) as Hok.
  { apply bytes_ok_join. unfold fs. rewrite <- Hsb.
    do 4 (apply Forall_cons; split; [apply bytes_ok_be_of_int|]). apply Forall_nil_2. }
  assert (∀ z, 0 < z < BN254_SCALAR_FIELD_MODULUS → be_of_int 32 z ≠ ZERO_FIELD) as Hnz.
  { intros z Hz Heq. apply (f_equal int_of_be) in Heq. rewrite int_of_be_of_int in Heq.
    - change (int_of_be ZERO_FIELD) with 0 in Heq. lia.
    - change (256 ^ Z.of_nat 32) with (2 ^ 256). pose proof modulus_bound. lia. }
  assert (encode_public_inputs
    [PInt root; PInt nul; PInt (int_of_be sep); PInt cred] fields = Ok (bytes_hex (mjoin fs))) as Henc.
  { unfold encode_public_inputs. cbn [encode_public_inputs_from].
    rewrite !encode_field_int by lia. cbn [mbind result_bind]. rewrite Hsb. unfold fs.
    by rewrite !mjoin_cons, !bytes_hex_app. }
  assert (decode_hex (PStr (bytes_hex (mjoin fs))) (lit "public_inputs") LENGTH = Ok (mjoin fs)) as Hdec.
  { apply decode_hex_bytes_hex; [done|]. unfold zlen. rewrite (length_mjoin_fields fs 4); [done|].
    split; [done|]. repeat (apply Forall_cons; split); try apply Forall_nil_2; try apply length_be_of_int. done. }
  assert (parse_revocation_witness_inputs (mjoin fs) = Ok {|
        revocation_root := be_of_int 32 root; rv_nullifier := be_of_int 32 nul;
        domain_separator := sep; rv_credential_root := be_of_int 32 cred |}) as Hparse.
  { apply parse_revocation_iff. split; [done|]. unfold revocation_ok.
    cbn [revocation_root rv_nullifier domain_separator rv_credential_root].
    split_and!; [apply canonical_be; lia..|by apply Hnz|by apply Hnz|by apply Hnz|reflexivity]. }
  exists (bytes_hex (mjoin fs)). split; [exact Henc|].
  split; [|exists (mjoin fs); split; [exact Hdec|exact Hparse]].
  unfold classify, check_material. rewrite Hdec, bind_Ok.
  change (parse_public_inputs SCHEMA_REVOCATION_WITNESS (mjoin fs))
    with (inr (A := SilentWitnessInputs) <$> parse_revocation_witness_inputs (mjoin fs)).
  rewrite Hparse. cbn [fmap result_fmap]. rewrite bind_Ok.
  by rewrite (proof_blob_accepted proof Hp Hlen).
Qed.

Lemma tag_not_canonical : ¬ canonical SILENT_WITNESS_DOMAIN_TAG.
Proof. intros [_ Hc]. pose proof (proj2 domain_tag_value). lia. Qed.

Lemma field_frame_v1_rejected fs r :
  Forall canonical fs → parse_silent_witness_inputs (mjoin fs) ≠ Ok r.
Proof.
  intros Hc (fs' & [Heq Hws]%split_fields_inv & Hp)%bind_ok.
  assert (Forall (λ f, length f = FIELD_LEN) fs) as Hlen
    by (eapply Forall_impl; [exact Hc|by intros f [? _]]).
  assert (fs = fs') as <-.
  { destruct Hws as [Hl Hf]. clear -Heq Hlen Hf. revert fs' Heq Hf.
    induction Hlen as [|f fs Hl Hlen IH]; intros fs' Heq Hf; destruct Hf as [|f' fs' Hl' Hf]; [done|..].
    - apply (f_equal length) in Heq. rewrite mjoin_cons, length_app, Hl' in Heq. done.
    - apply (f_equal length) in Heq. rewrite mjoin_cons, length_app, Hl in Heq. done.
    - rewrite !mjoin_cons in Heq. apply app_inj_1 in Heq as [-> Heq]; [|congruence].
      f_equal. by apply IH. }
  destruct_fields fs. rewrite !Forall_cons in Hc. destruct_and! Hc. cbn [fld nth] in Hp.
  apply bind_ok in Hp as (hi & _ & Hp). apply bind_ok in Hp as (lo & _ & Hp).
  rewrite !seq_ok, check_tag in Hp. destruct Hp as (_ & _ & _ & _ & -> & _).
  by apply tag_not_canonical.
Qed.

(** The domain tag the codec requires, a SHA-256 digest, is not below the BN254
    modulus: no vector of field elements, and so nothing [encode_public_inputs]
    can write, is ever accepted as [silent_witness/v1] public inputs. *)
Theorem silent_witness_frames_unencodable `{Unicode} values fields h proof_hex :
  encode_public_inputs values fields = Ok h →
  classify SCHEMA_SILENT_WITNESS (PStr h) proof_hex ≠ None.
Proof.
  intros (fs & -> & _ & Hc & Hok)%encode_public_inputs_inv Hcl.
  unfold classify, check_material in Hcl.
  destruct (_ ≫= _) as [u|] eqn:E; [|done].
  apply bind_ok in E as (b & Hb & E). apply bind_ok in E as (p & Hp & _).
  assert (b = mjoin fs) as ->.
  { unfold decode_hex in Hb. rewrite bytes_fromhex_hex in Hb by (by apply bytes_ok_join).
    by repeat case_match; simplify_eq. }
  change (parse_public_inputs SCHEMA_SILENT_WITNESS (mjoin fs))
    with (inl (B := RevocationWitnessInputs) <$> parse_silent_witness_inputs (mjoin fs)) in Hp.
  destruct (parse_silent_witness_inputs (mjoin fs)) eqn:Hparse; [|done].
  by eapply field_frame_v1_rejected.
Qed.

(** Precedence of the version check in [silent_witness/v2]: a frame is rejected
    with [version_mismatch] if and only if it has the right length and half padding
    and its circuit version is not the expected one, whatever its identity fields
    and domain tag are. *)
Theorem v2_version_mismatch_iff fs :
  well_sized 8 fs →
  parse_silent_witness_v2_inputs (mjoin fs) = reject VERSION_MISMATCH "circuit_version" ↔
  take 16 (fld fs 0) = replicate 16 0 ∧ take 16 (fld fs 1) = replicate 16 0 ∧
  version_of (fld fs 7) ≠ EXPECTED_CIRCUIT_VERSION.
Proof.
  intros Hws. unfold parse_silent_witness_v2_inputs, SILENT_WITNESS_V2_PUBLIC_INPUTS_LEN.
  rewrite split_fields_join, bind_Ok by done.
  unfold require_half_padding, constant_time_equals, reject.
  change (take 16 ZERO_FIELD) with (replicate 16 0).
  destruct (bool_decide_reflect (take 16 (fld fs 0) = replicate 16 0)) as [H0|H0];
    cbn [negb]; rewrite ?bind_Ok, ?bind_Err; [|split; [intros [=]|by intros [? _]]].
  destruct (bool_decide_reflect (take 16 (fld fs 1) = replicate 16 0)) as [H1|H1];
    cbn [negb]; rewrite ?bind_Ok, ?bind_Err; [|split; [intros [=]|by intros (_ & ? & _)]].
  destruct (Z.eqb_spec (version_of (fld fs 7)) EXPECTED_CIRCUIT_VERSION) as [Hv|Hv]; cbn [negb];
    [|split; [by auto|done]].
  split; [|by intros (_ & _ & ?)]. intros Herr. exfalso. revert Herr.
  assert (∀ l ns e, require_canonical l ns = Err e → vi_code e = NON_CANONICAL_FIELD) as Hrc.
  { clear. induction l as [|f l IH]; intros [|n ns] e; cbn; try done.
    destruct (is_canonical_field f); cbn; [apply IH|]. unfold reject. by intros [= <-]. }
  destruct (require_canonical _ _) eqn:E; rewrite ?bind_Ok, ?bind_Err.
  2:{ apply Hrc in E. intros [= ->]. done. }
  unfold require_non_zero, constant_time_equals, reject. by repeat case_bool_decide.
Qed.

(** What [classify] accepts: it returns [None] exactly when both hex strings
    decode, the public inputs parse under the schema and the proof has between 64
    and 65,536 bytes. *)
Theorem classify_accepts_iff schema pi_hex proof_hex :
  classify schema pi_hex proof_hex = None ↔
  ∃ pi proof r, decode_hex pi_hex (lit "public_inputs") LENGTH = Ok pi ∧
    parse_public_inputs schema pi = Ok r ∧
    decode_hex proof_hex (lit "proof") PROOF_OVERSIZE = Ok proof ∧
    MIN_PROOF_BYTES ≤ zlen proof ≤ MAX_PROOF_BYTES.
Proof.
  unfold classify. destruct (check_material _ _ _) as [u|e] eqn:E.
  - split; [intros _|done]. unfold check_material in E.
    apply bind_ok in E as (pi & Hpi & E). apply bind_ok in E as (r & Hr & E).
    apply bind_ok in E as (proof & Hproof & E). exists pi, proof, r. split_and!; auto.
    all: unfold check_proof_bounds, reject in E; repeat case_match; bool_inv; done || lia.
  - split; [done|]. intros (pi & proof & r & Hpi & Hr & Hproof & Hlen).
    unfold check_material in E. rewrite Hpi, bind_Ok, Hr, bind_Ok, Hproof, bind_Ok in E.
    unfold check_proof_bounds, reject in E.
    by rewrite (proj2 (Z.ltb_ge _ _)), (proj2 (Z.ltb_ge _ _)) in E by lia.
Qed.

(** * Witnesses *)

Definition sample_silent : SilentWitnessInputs := {|
  video_hash := replicate 32 5; sw_credential_root := be_of_int 32 7;
  sw_nullifier := be_of_int 32 9; domain_tag := SILENT_WITNESS_DOMAIN_TAG;
  verifier_scope := None; epoch := None; circuit_version := None |}.

Lemma parse_silent_witness_iff_witness :
  parse_silent_witness_inputs (silent_frame sample_silent) = Ok sample_silent.
Proof.
  apply parse_silent_witness_iff.
  - unfold silent_frame, sample_silent. cbn [video_hash sw_credential_root sw_nullifier domain_tag].
    apply bytes_ok_join. repeat first [apply Forall_nil_2 | apply Forall_cons; split].
    all: first [apply bytes_ok_sha256 | apply (bool_decide_unpack _); vm_compute; exact I].
  - split; [reflexivity|]. unfold silent_v1_ok, sample_silent, canonical.
    cbn [video_hash sw_credential_root sw_nullifier domain_tag verifier_scope epoch circuit_version].
    split_and!; first [reflexivity | vm_compute; reflexivity | vm_compute; discriminate].
Defined.

Lemma revocation_roundtrip_witness :
  ∃ h, @encode_public_inputs plain_unicode
         [PInt 11; PInt 12; PInt (int_of_be REVOCATION_DOMAIN_SEPARATOR); PInt 13] [] = Ok h ∧
    classify SCHEMA_REVOCATION_WITNESS (PStr h) (PStr (bytes_hex (replicate 64 1))) = None ∧
    ∃ b, decode_hex (PStr h) (lit "public_inputs") LENGTH = Ok b ∧
      parse_revocation_witness_inputs b = Ok {|
        revocation_root := be_of_int 32 11; rv_nullifier := be_of_int 32 12;
        domain_separator := REVOCATION_DOMAIN_SEPARATOR; rv_credential_root := be_of_int 32 13 |}.
Proof.
  apply (@revocation_roundtrip plain_unicode).
  1-3: vm_compute; intuition discriminate.
  - apply (bool_decide_unpack _). vm_compute. exact I.
  - vm_compute. intuition discriminate.
Defined.

Lemma silent_witness_frames_unencodable_witness :
  ∃ h, @encode_public_inputs plain_unicode [PInt 1; PInt 2; PInt 3; PInt 4; PInt 5] [] = Ok h ∧
    classify SCHEMA_SILENT_WITNESS (PStr h) (PStr (bytes_hex (replicate 64 1))) ≠ None.
Proof.
  eexists. split; [vm_compute; reflexivity|].
  apply (@silent_witness_frames_unencodable plain_unicode
    [PInt 1; PInt 2; PInt 3; PInt 4; PInt 5] []). vm_compute. reflexivity.
Defined.

Lemma v2_version_mismatch_iff_witness :
  parse_silent_witness_v2_inputs (mjoin (replicate 8 ZERO_FIELD)) =
    reject VERSION_MISMATCH "circuit_version".
Proof.
  apply (v2_version_mismatch_iff (replicate 8 ZERO_FIELD)).
  - split; [reflexivity|]. apply Forall_replicate. reflexivity.
  - split_and!; [reflexivity|reflexivity|vm_compute; discriminate].
Defined.
