(* ===== verification/VerifierCache.v ===== *)
(** The verifier result cache ([src/backend/verifier_cache.py]): domain-separated
    keys, the bounded insertion-ordered table with its two lifetimes, the reverse
    index by proof id, and the metric counters the methods bump.

    [self._cache] is a Python dict whose insertion order is the recency order, so
    it is an association list, oldest entry first.  [self._proof_keys] is a map to
    sets that are mutated in place through the dictionary; nothing else aliases
    them, so a [gmap] of [gset]s is the same store.  Every method body runs under
    the lock, so a method is one atomic step.  Instants and lifetimes
    ([time.monotonic], seconds as floats in the code, only added and compared) are
    integers of an arbitrary unit. *)
From Stdlib Require Import ZArith Lia.
From stdpp Require Import base decidable strings numbers gmap list.
From S2P Require Import Prelude PyStr Sha256.

Open Scope Z_scope.

(** * Keys *)

Definition CACHE_KEY_DOMAIN_TAG : str := lit "harpocrates:verifier-cache:v1".

(** [f"{len(value.encode('utf-8'))}:{value}"] *)
Definition encode_cache_key_field (value : str) : result exn str :=
  match utf8_encode value with
  | Some encoded => Ok (dec_str (zlen encoded) ++ lit ":" ++ value)
  | None => Err UnicodeError
  end.

Record key_fields := KeyFields {
  kf_domain : str;
  kf_network : str;
  kf_circuit_version : str;
  kf_verifier_version : str;
  kf_proof_hex : str;
  kf_public_inputs_hex : str;
}.

Section keys.
Context `{Unicode}.

Definition normalize_hex_field (value : str) : str := py_lower (py_strip value).

Definition key_tuple (f : key_fields) : list str :=
  [CACHE_KEY_DOMAIN_TAG; kf_domain f; kf_network f; kf_circuit_version f; kf_verifier_version f;
   normalize_hex_field (kf_proof_hex f); normalize_hex_field (kf_public_inputs_hex f)].

Definition key_payload (fields : list str) : result exn str :=
  parts ← result_mapM encode_cache_key_field fields; Ok (concat parts).

Definition get_cache_key (f : key_fields) : result exn str :=
  payload ← key_payload (key_tuple f);
  match utf8_encode payload with
  | Some b => Ok (sha256_hex b)
  | None => Err UnicodeError
  end.
End keys.

(** * The cache *)

Record config := Config {
  max_size : Z;
  positive_ttl_seconds : Z;
  negative_ttl_seconds : Z;
}.

Record cache := Cache {
  entries : list (str * (bool * Z));
  proof_keys : gmap str (gset str);
  hits : Z;
  misses : Z;
  evictions : Z;
}.

Definition empty_cache : cache := Cache [] ∅ 0 0 0.

(** [if proof_id:] *)
Definition named (proof_id : option str) : option str :=
  match proof_id with Some (_ :: _) => proof_id | _ => None end.

(** [self._proof_keys.get(proof_id, set()).discard(key)] when a proof id is given. *)
Definition unlink (proof_id : option str) (key : str) (pk : gmap str (gset str)) :
    gmap str (gset str) :=
  match named proof_id with
  | Some pid => alter (λ s, s ∖ {[key]}) pid pk
  | None => pk
  end.

(** The body of [get] under the lock. *)
Definition cache_get (c : cache) (now : Z) (key : str) (proof_id : option str) :
    option bool * cache :=
  match dict_get key (entries c) with
  | Some (r, expires_at) =>
      if now <? expires_at then
        (Some r,
         Cache (dict_del key (entries c) ++ [(key, (r, expires_at))])
               (unlink proof_id key (proof_keys c)) (hits c + 1) (misses c) (evictions c))
      else
        (None, Cache (dict_del key (entries c)) (proof_keys c) (hits c) (misses c + 1) (evictions c))
  | None =>
      (None, Cache (entries c) (proof_keys c) (hits c) (misses c + 1) (evictions c))
  end.

(** The body of [set] under the lock.  Evicting from an empty dict
    ([next(iter({}))], possible only with [max_size <= 0]) raises. *)
Definition cache_set (cfg : config) (c : cache) (now : Z) (key : str) (is_valid : bool)
    (proof_id : option str) : result exn cache :=
  let ttl := if is_valid then positive_ttl_seconds cfg else negative_ttl_seconds cfg in
  let expires_at := now + ttl in
  '(es, pk, ev) ←
    (if dict_has key (entries c) then
       Ok (dict_del key (entries c), unlink proof_id key (proof_keys c), evictions c)
     else if max_size cfg <=? zlen (entries c) then
       match entries c with
       | [] => Err (RuntimeError "StopIteration")
       | _ :: rest => Ok (rest, proof_keys c, evictions c + 1)
       end
     else Ok (entries c, proof_keys c, evictions c));
  let pk := match named proof_id with
            | Some pid => <[pid := {[key]} ∪ default ∅ (pk !! pid)]> pk
            | None => pk
            end in
  Ok (Cache (es ++ [(key, (is_valid, expires_at))]) pk (hits c) (misses c) ev).

Definition cache_invalidate (c : cache) (key : str) (proof_id : option str) : cache :=
  let es := if dict_has key (entries c) then dict_del key (entries c) else entries c in
  let pk :=
    match named proof_id with
    | Some pid =>
        match proof_keys c !! pid with
        | Some keys =>
            if bool_decide (keys = ∅) then proof_keys c
            else if bool_decide (keys ∖ {[key]} = ∅) then delete pid (proof_keys c)
            else <[pid := keys ∖ {[key]}]> (proof_keys c)
        | None => proof_keys c
        end
    | None => proof_keys c
    end in
  Cache es pk (hits c) (misses c) (evictions c).

Definition cache_invalidate_proof (c : cache) (proof_id : str) : cache :=
  let keys := default ∅ (proof_keys c !! proof_id) in
  Cache (foldr dict_del (entries c) (elements keys)) (delete proof_id (proof_keys c))
        (hits c) (misses c) (evictions c).

Definition cache_clear (c : cache) : cache :=
  Cache [] ∅ (hits c) (misses c) (evictions c).

(** The public methods: the key is derived before the lock is taken. *)
Section methods.
Context `{Unicode} (cfg : config).

Definition VerifierCache_get (c : cache) (now : Z) (f : key_fields) (pid : option str) :
    result exn (option bool * cache) :=
  key ← get_cache_key f; Ok (cache_get c now key pid).

Definition VerifierCache_set (c : cache) (now : Z) (f : key_fields) (valid : bool)
    (pid : option str) : result exn cache :=
  key ← get_cache_key f; cache_set cfg c now key valid pid.

Definition VerifierCache_invalidate (c : cache) (f : key_fields) (pid : option str) :
    result exn cache :=
  key ← get_cache_key f; Ok (cache_invalidate c key pid).
End methods.

(** * Facts about keys *)

Lemma encode_cache_key_field_inv v s :
  encode_cache_key_field v = Ok s →
  ∃ n, utf8_len v = Some n ∧ 0 ≤ n ∧ s = dec_str n ++ 58 :: v.
Proof.
  unfold encode_cache_key_field, utf8_len. destruct (utf8_encode v) as [b|]; [|done].
  intros [= <-]. exists (zlen b). split_and!; [done|unfold zlen; lia|done].
Qed.

Lemma key_field_prefix v v' s s' r r' :
  encode_cache_key_field v = Ok s → encode_cache_key_field v' = Ok s' →
  s ++ r = s' ++ r' → v = v' ∧ r = r'.
Proof.
  intros (n & Hn & Hp & ->)%encode_cache_key_field_inv (n' & Hn' & Hp' & ->)%encode_cache_key_field_inv Heq.
  rewrite <- !app_assoc in Heq. cbn in Heq.
  apply (digits_sep_inj (λ c, 48 ≤ c < 58)) in Heq as (Hd & _ & Heq); auto using dec_str_digits; try lia.
  apply dec_str_inj_nonneg in Hd as <-; [|done..]. by eapply utf8_len_prefix.
Qed.

(** Length prefixes make the framing unambiguous. *)
Lemma key_payload_inj fs fs' p :
  length fs = length fs' → key_payload fs = Ok p → key_payload fs' = Ok p → fs = fs'.
Proof.
  unfold key_payload. revert fs' p. induction fs as [|v fs IH]; intros [|v' fs'] p Hlen Hp Hp'; try done.
  cbn [result_mapM] in Hp, Hp'.
  destruct (encode_cache_key_field v) as [s|] eqn:Hs; [|done].
  destruct (encode_cache_key_field v') as [s'|] eqn:Hs'; [|done].
  rewrite bind_Ok in Hp, Hp'.
  destruct (result_mapM encode_cache_key_field fs) as [ss|] eqn:Hss; [|done].
  destruct (result_mapM encode_cache_key_field fs') as [ss'|] eqn:Hss'; [|done].
  rewrite !bind_Ok in Hp, Hp'. cbn [concat] in Hp, Hp'.
  injection Hp as Hp. injection Hp' as Hp'. rewrite <- Hp' in Hp.
  destruct (key_field_prefix _ _ _ _ _ _ Hs Hs' Hp) as [-> Hr]. f_equal.
  apply (IH fs' (concat ss)); [by injection Hlen|by rewrite ?Hss|].
  rewrite ?Hss'. cbn. by rewrite Hr.
Qed.

(** * Facts about the ordered table *)

Lemma dict_del_length {A} k (d : list (str * A)) :
  (length (dict_del k d) ≤ length d)%nat ∧
  (k ∈ d.*1 → length (dict_del k d) < length d)%nat.
Proof.
  split; [apply sublist_length, dict_del_subset|].
  induction d as [|[k' v] d IH]; cbn; [by intros ?%elem_of_nil|].
  intros [->|Hin]%elem_of_cons.
  - rewrite decide_True by done. pose proof (sublist_length _ _ (dict_del_subset k' d)). lia.
  - case_decide; cbn; [pose proof (sublist_length _ _ (dict_del_subset k d)); lia|].
    specialize (IH Hin). lia.
Qed.

Lemma foldr_dict_del_get {A} k ks (d : list (str * A)) :
  dict_get k (foldr dict_del d ks) = if decide (k ∈ ks) then None else dict_get k d.
Proof.
  induction ks as [|k' ks IH]; cbn; [by rewrite decide_False by apply not_elem_of_nil|].
  rewrite dict_get_del, IH. repeat case_decide; set_solver.
Qed.

Lemma foldr_dict_del_sublist {A} ks (d : list (str * A)) : foldr dict_del d ks `sublist_of` d.
Proof. induction ks; cbn; [done|]. etrans; [apply dict_del_subset|done]. Qed.

(** * The operations as one transition function *)

Inductive op : Type :=
  | OpGet (now : Z) (key : str) (proof_id : option str)
  | OpSet (now : Z) (key : str) (is_valid : bool) (proof_id : option str)
  | OpInvalidate (key : str) (proof_id : option str)
  | OpInvalidateProof (proof_id : str)
  | OpClear.

Definition step (cfg : config) (c : cache) (o : op) : result exn (option bool * cache) :=
  match o with
  | OpGet now key pid => Ok (cache_get c now key pid)
  | OpSet now key v pid => c' ← cache_set cfg c now key v pid; Ok (None, c')
  | OpInvalidate key pid => Ok (None, cache_invalidate c key pid)
  | OpInvalidateProof pid => Ok (None, cache_invalidate_proof c pid)
  | OpClear => Ok (None, cache_clear c)
  end.

(** A run: the outputs of the operations and the final cache. *)
Fixpoint run (cfg : config) (c : cache) (os : list op) : result exn (list (option bool) * cache) :=
  match os with
  | [] => Ok ([], c)
  | o :: os => '(out, c) ← step cfg c o; '(outs, c) ← run cfg c os; Ok (out :: outs, c)
  end.

(** One entry per key and never more than [max_size] of them. *)
Definition cache_inv (cfg : config) (c : cache) : Prop :=
  NoDup (entries c).*1 ∧ zlen (entries c) ≤ max_size cfg.

Lemma NoDup_snoc_key (d : list (str * (bool * Z))) k v :
  NoDup d.*1 → k ∉ d.*1 → NoDup (d ++ [(k, v)]).*1.
Proof.
  intros Hd Hk. rewrite fmap_app. apply NoDup_app. split_and!; [done| |by apply NoDup_singleton].
  cbn. set_solver.
Qed.

Lemma cache_set_ok cfg c now key v pid :
  1 ≤ max_size cfg → cache_inv cfg c →
  ∃ c', cache_set cfg c now key v pid = Ok c' ∧ cache_inv cfg c'.
Proof.
  intros Hmax [Hnd Hlen]. unfold cache_set, cache_inv, zlen in *.
  destruct (dict_has key (entries c)) eqn:Hhas.
  - apply dict_has_spec in Hhas. eexists. split; [reflexivity|]. cbn. split.
    + apply NoDup_snoc_key; [by apply dict_del_NoDup|apply dict_del_keys].
    + rewrite length_app. cbn. destruct (dict_del_length key (entries c)) as [_ Hl].
      specialize (Hl Hhas). lia.
  - assert (key ∉ (entries c).*1) as Hnot.
    { intros Hin%dict_has_spec. congruence. }
    destruct (Z.leb_spec (max_size cfg) (Z.of_nat (length (entries c)))).
    + destruct (entries c) as [|e rest] eqn:He; [cbn in *; lia|].
      eexists. split; [reflexivity|]. cbn in *. apply NoDup_cons in Hnd as [_ Hnd].
      apply not_elem_of_cons in Hnot as [_ Hnot]. split; [by apply NoDup_snoc_key|].
      rewrite length_app. cbn. lia.
    + eexists. split; [reflexivity|]. cbn. split; [by apply NoDup_snoc_key|].
      rewrite length_app. cbn. lia.
Qed.

Lemma step_inv cfg c o :
  1 ≤ max_size cfg → cache_inv cfg c →
  ∃ out c', step cfg c o = Ok (out, c') ∧ cache_inv cfg c'.
Proof.
  intros Hmax Hinv. pose proof Hinv as [Hnd Hlen]. unfold zlen in *.
  destruct o as [now k pid|now k v pid|k pid|pid|]; cbn [step].
  - unfold cache_get. destruct (dict_get k (entries c)) as [[r e]|] eqn:Hk; [destruct (now <? e)|].
    all: do 2 eexists; split; [reflexivity|]; unfold cache_inv, zlen; cbn.
    + assert (k ∈ (entries c).*1) as Hin by (apply dict_has_spec; unfold dict_has; by rewrite Hk).
      destruct (dict_del_length k (entries c)) as [_ Hl]. specialize (Hl Hin). split.
      * apply NoDup_snoc_key; [by apply dict_del_NoDup|apply dict_del_keys].
      * rewrite length_app. cbn. lia.
    + destruct (dict_del_length k (entries c)). split; [by apply dict_del_NoDup|lia].
    + done.
  - destruct (cache_set_ok cfg c now k v pid Hmax Hinv) as (c' & -> & Hinv'). cbn. eauto.
  - do 2 eexists. split; [reflexivity|]. unfold cache_invalidate, cache_inv, zlen. cbn.
    destruct (dict_has k (entries c)); [|done].
    destruct (dict_del_length k (entries c)). split; [by apply dict_del_NoDup|lia].
  - do 2 eexists. split; [reflexivity|]. unfold cache_inv, zlen. cbn.
    pose proof (foldr_dict_del_sublist (elements (default ∅ (proof_keys c !! pid))) (entries c)) as Hs.
    split; [eapply sublist_NoDup; [done|by apply fmap_sublist]|].
    apply sublist_length in Hs. lia.
  - do 2 eexists. split; [reflexivity|]. unfold cache_inv, zlen. cbn. split; [constructor|lia].
Qed.

(** * Specification: an unbounded store

    The store a client reasons about: every [set] is remembered with its expiry and, when it
    names a proof, linked to that proof; [invalidate] forgets one key, [invalidate_proof] the
    keys linked to a proof, [clear] everything, and nothing is ever evicted.  An answered [get]
    that names a proof ends the link of its key with that proof, as in the code. *)
Record spec_state := Spec { results : gmap str (bool * Z); links : gset (str * str) }.

Definition add_link (pid : option str) (key : str) (l : gset (str * str)) : gset (str * str) :=
  match named pid with Some p => {[(p, key)]} ∪ l | None => l end.
Definition end_link (pid : option str) (key : str) (l : gset (str * str)) : gset (str * str) :=
  match named pid with Some p => l ∖ {[(p, key)]} | None => l end.

Definition spec_step (cfg : config) (m : spec_state) (o : op) (out : option bool) : spec_state :=
  match o with
  | OpSet now key v pid =>
      Spec (<[key := (v, now + if v then positive_ttl_seconds cfg else negative_ttl_seconds cfg)]> (results m))
           (add_link pid key (links m))
  | OpGet _ key pid => Spec (results m) (if out then end_link pid key (links m) else links m)
  | OpInvalidate key pid => Spec (delete key (results m)) (end_link pid key (links m))
  | OpInvalidateProof pid =>
      Spec (filter (λ e, (pid, e.1) ∉ links m) (results m)) (filter (λ l, l.1 ≠ pid) (links m))
  | OpClear => Spec ∅ ∅
  end.

(** The answers the specification allows: only a [get] answers, and only with a
    remembered result that has not expired. *)
Definition spec_allows (m : spec_state) (o : op) (out : option bool) : Prop :=
  match out with
  | None => True
  | Some r => ∃ now key pid e, o = OpGet now key pid ∧ results m !! key = Some (r, e) ∧ now < e
  end.

Fixpoint spec_run (cfg : config) (m : spec_state) (os : list op) (outs : list (option bool)) : Prop :=
  match os, outs with
  | [], [] => True
  | o :: os, out :: outs => spec_allows m o out ∧ spec_run cfg (spec_step cfg m o out) os outs
  | _, _ => False
  end.

(** What the table holds, the specification remembers; the index of the cache is the links. *)
Definition linked (pk : gmap str (gset str)) (l : gset (str * str)) : Prop :=
  ∀ p k, (p, k) ∈ l ↔ k ∈ default ∅ (pk !! p).
Definition sim (c : cache) (m : spec_state) : Prop :=
  (∀ k v, dict_get k (entries c) = Some v → results m !! k = Some v) ∧ linked (proof_keys c) (links m).

Lemma unlink_linked pid key pk l : linked pk l → linked (unlink pid key pk) (end_link pid key l).
Proof.
  unfold linked, unlink, end_link. intros Hl p k. destruct (named pid) as [q|]; [|apply Hl].
  rewrite elem_of_difference, elem_of_singleton, Hl. destruct (decide (q = p)) as [->|Hne].
  - rewrite lookup_alter_eq. destruct (pk !! p); cbn; set_solver.
  - rewrite lookup_alter_ne by done. set_solver.
Qed.

Lemma invalidate_linked c pid key l :
  linked (proof_keys c) l → linked (proof_keys (cache_invalidate c key pid)) (end_link pid key l).
Proof.
  unfold linked, end_link. intros Hl p k. cbn. destruct (named pid) as [q|]; [|apply Hl].
  rewrite elem_of_difference, elem_of_singleton, Hl. destruct (decide (q = p)) as [->|Hne].
  - destruct (proof_keys c !! p) as [keys|] eqn:Hq; [|rewrite Hq; cbn; set_solver].
    repeat case_bool_decide; rewrite ?lookup_insert_eq, ?lookup_delete_eq, ?Hq; cbn; set_solver.
  - destruct (proof_keys c !! q) as [keys|]; repeat case_bool_decide;
      rewrite ?lookup_insert_ne, ?lookup_delete_ne by done; set_solver.
Qed.

Lemma cache_set_linked cfg c now key v pid c' l :
  cache_set cfg c now key v pid = Ok c' → linked (proof_keys c) l → linked (proof_keys c') (add_link pid key l).
Proof.
  unfold cache_set. intros ([[es pk] ev] & He & [= <-])%bind_ok Hl. unfold linked in *. cbn [proof_keys].
  assert (pk = proof_keys c ∨ pk = unlink pid key (proof_keys c)) as Hpk.
  { destruct (dict_has key (entries c)); [injection He; auto|]. case_match; [|injection He; auto].
    destruct (entries c); [done|]. injection He; auto. }
  assert (∀ p k, k ≠ key ∨ named pid ≠ Some p → (p, k) ∈ l ↔ k ∈ default ∅ (pk !! p)) as Hkeep.
  { intros p k Hne. destruct Hpk as [->| ->]; [apply Hl|]. pose proof (unlink_linked pid key _ l Hl p k) as Hu.
    rewrite <- Hu. unfold end_link. destruct (named pid) as [q|]; [|done]. set_solver. }
  intros p k. unfold add_link. destruct (named pid) as [q|] eqn:Hq.
  - rewrite elem_of_union, elem_of_singleton. destruct (decide (q = p)) as [->|Hne].
    + rewrite lookup_insert_eq. cbn. rewrite elem_of_union, elem_of_singleton.
      destruct (decide (k = key)) as [->|]; [naive_solver|]. rewrite <- Hkeep by auto. naive_solver.
    + rewrite lookup_insert_ne by done. rewrite <- Hkeep by (right; congruence). naive_solver.
  - rewrite <- Hkeep by (by right). done.
Qed.

Lemma cache_set_entries cfg c now key v pid c' :
  NoDup (entries c).*1 → cache_set cfg c now key v pid = Ok c' →
  ∃ es, entries c' = es ++ [(key, (v, now + if v then positive_ttl_seconds cfg else negative_ttl_seconds cfg))] ∧
    dict_get key es = None ∧ ∀ k w, dict_get k es = Some w → dict_get k (entries c) = Some w.
Proof.
  intros Hnd E. unfold cache_set in E. apply bind_ok in E as ([[es pk] ev] & He & [= <-]).
  exists es. split; [done|]. destruct (dict_has key (entries c)) eqn:Hhas.
  - injection He as <- _ _. split; [by rewrite dict_get_del, decide_True|].
    intros k w. rewrite dict_get_del. by case_decide.
  - assert (dict_get key (entries c) = None) as Hnone
      by (unfold dict_has in Hhas; by destruct (dict_get key (entries c))).
    case_match; [|by injection He as <- _ _].
    destruct (entries c) as [|[k0 v0] rest]; [done|]. injection He as <- _ _.
    cbn in Hnd, Hnone. apply NoDup_cons in Hnd as [Hk0 _]. case_decide; [done|]. split; [done|].
    intros k w Hk. cbn. case_decide; [|done]. subst. apply dict_get_None in Hk0. congruence.
Qed.

Lemma sim_step cfg c m o out c' :
  NoDup (entries c).*1 → sim c m → step cfg c o = Ok (out, c') →
  spec_allows m o out ∧ sim c' (spec_step cfg m o out).
Proof.
  intros Hnd [Hs Hl] E. destruct o as [now k pid|now k v pid|k pid|pid|]; cbn [step] in E.
  - unfold cache_get in E. destruct (dict_get k (entries c)) as [[r e]|] eqn:Hk.
    + destruct (Z.ltb_spec now e); injection E as <- <-; cbn [spec_step].
      * split; [by exists now, k, pid, e; auto|]. split; [|by apply unlink_linked]. intros k' w. cbn [entries].
        rewrite dict_get_app, dict_get_del. case_decide; subst; cbn.
        { rewrite decide_True by done. intros [= <-]. by apply Hs. }
        case_match; [intros [= <-]; by apply Hs|]. by rewrite decide_False.
      * split; [done|]. split; [|done]. intros k' w. cbn. rewrite dict_get_del. case_decide; [done|]. apply Hs.
    + injection E as <- <-. by repeat split; try apply Hl; auto.
  - apply bind_ok in E as (c1 & E & [= <- <-]). split; [done|]. cbn [spec_step].
    split; [|by eapply cache_set_linked].
    apply cache_set_entries in E as (es & He & Hkey & Hes); [|done].
    intros k' w Hk'. rewrite He, dict_get_app in Hk'. cbn [results]. rewrite lookup_insert.
    destruct (decide (k = k')) as [<-|Hne]; [rewrite Hkey in Hk'; cbn in Hk'|].
    + by rewrite decide_True in Hk'.
    + destruct (dict_get k' es) as [w'|] eqn:Hw; [simplify_eq; by apply Hs, Hes|].
      cbn in Hk'. by rewrite decide_False in Hk'.
  - injection E as <- <-. split; [done|]. split; [|by apply invalidate_linked].
    intros k' w. cbn [entries cache_invalidate spec_step results].
    destruct (dict_has k (entries c)) eqn:Hhas; [rewrite dict_get_del|]; rewrite lookup_delete.
    + repeat case_decide; subst; try done. apply Hs.
    + intros Hk'. case_decide; [|by apply Hs]. subst. unfold dict_has in Hhas. by rewrite Hk' in Hhas.
  - injection E as <- <-. split; [done|]. unfold sim, linked in *. split.
    + intros k' w. cbn. rewrite foldr_dict_del_get. case_decide as Hin; [done|]. intros Hk'.
      apply map_lookup_filter_Some. split; [by apply Hs|]. cbn. rewrite Hl. by rewrite elem_of_elements in Hin.
    + intros p k'. cbn. rewrite elem_of_filter, Hl. cbn.
      destruct (decide (p = pid)) as [->|Hne]; [rewrite lookup_delete_eq; cbn; set_solver|rewrite lookup_delete_ne by done; naive_solver].
  - injection E as <- <-. split; [done|]. split; [done|]. intros p k. cbn. rewrite lookup_empty. cbn. set_solver.
Qed.

Lemma run_sim cfg c m os :
  1 ≤ max_size cfg → cache_inv cfg c → sim c m →
  ∃ outs c', run cfg c os = Ok (outs, c') ∧ cache_inv cfg c' ∧ spec_run cfg m os outs.
Proof.
  intros Hmax. revert c m. induction os as [|o os IH]; intros c m Hinv Hs; cbn [run].
  - exists [], c. by repeat split; try apply Hinv.
  - destruct (step_inv cfg c o Hmax Hinv) as (out & c1 & E & Hinv1). rewrite E. cbn [mbind result_bind].
    destruct (sim_step cfg c m o out c1 (proj1 Hinv) Hs E) as [Hout Hs1].
    destruct (IH c1 _ Hinv1 Hs1) as (outs & c2 & -> & Hinv2 & Houts). cbn.
    exists (out :: outs), c2. by repeat split; try apply Hinv2.
Qed.

(** C27. The cache refines an unbounded store: started empty with [max_size >= 1],
    every sequence of operations runs without raising, keeps one entry per key and
    at most [max_size] entries, and every answer of a [get] is the result last stored
    under that key; it has not expired, and since it was stored there was no [clear], no
    [invalidate] of its key, and no [invalidate_proof] of a proof it was linked to then.
    A [set] links its key to the proof it names; the link ends with an answered [get] or
    an [invalidate] of the key that names the proof, or an [invalidate_proof]: after such
    a [get], [invalidate_proof] does not reach the result.  Eviction can only lose
    answers. *)
Theorem cache_refines_store cfg os :
  1 ≤ max_size cfg →
  ∃ outs c, run cfg empty_cache os = Ok (outs, c) ∧ cache_inv cfg c ∧ spec_run cfg (Spec ∅ ∅) os outs.
Proof.
  intros Hmax. apply run_sim; [done|split; [apply NoDup_nil_2|change (0 ≤ max_size cfg); lia]|]. split; [by intros k v|].
  intros p k. cbn. rewrite lookup_empty. cbn. set_solver.
Qed.

Lemma set_then_get cfg c now key v pid c' now' pid' :
  NoDup (entries c).*1 → cache_set cfg c now key v pid = Ok c' →
  fst (cache_get c' now' key pid') =
    if now' <? now + (if v then positive_ttl_seconds cfg else negative_ttl_seconds cfg)
    then Some v else None.
Proof.
  intros Hnd (es & He & Hkey & _)%cache_set_entries; [|done].
  unfold cache_get. rewrite He, dict_get_app, Hkey. cbn. rewrite decide_True by done.
  by destruct (now' <? _).
Qed.

(** Recency protects an entry: after a [get] that hits [k], storing another key
    never evicts [k] when the cache can hold two entries, whatever it held. *)
Theorem recently_read_survives_set cfg c now k pid r c1 now' key v pid' c2 :
  cache_inv cfg c → 2 ≤ max_size cfg →
  cache_get c now k pid = (Some r, c1) →
  cache_set cfg c1 now' key v pid' = Ok c2 → key ≠ k →
  dict_get k (entries c2) = dict_get k (entries c).
Proof.
  intros [Hnd Hlen] Hmax Hget Hset Hne. unfold cache_get in Hget.
  destruct (dict_get k (entries c)) as [[r' e]|] eqn:Hk; [|done].
  destruct (now <? e); [|done]. injection Hget as <- <-.
  set (es := dict_del k (entries c)) in *.
  unfold cache_set in Hset. cbn [entries proof_keys evictions hits misses] in Hset.
  apply bind_ok in Hset as ([[es' pk] ev] & He & [= <-]). cbn [entries].
  rewrite dict_get_app.
  enough (dict_get k es' = Some (r', e)) as -> by done.
  assert (dict_get k (es ++ [(k, (r', e))]) = Some (r', e)) as Hlast.
  { rewrite dict_get_app. unfold es. rewrite dict_get_del, decide_True by done.
    cbn. by rewrite decide_True. }
  destruct (dict_has key _); [injection He as <- _ _; by rewrite dict_get_del, decide_False|].
  case_match; [|by injection He as <- _ _].
  destruct es as [|[k0 v0] es0] eqn:Hes; cbn in He; injection He as <- _ _.
  - bool_inv. change (max_size cfg ≤ 1) in H. lia.
  - cbn in Hlast. case_decide; [|done]. subst k0.
    assert (k ∉ es.*1) as Hk0 by apply dict_del_keys. rewrite Hes in Hk0. set_solver.
Qed.

(** A read detaches the result from its proof: after [set] and a hitting [get]
    with the same proof id, [invalidate_proof] leaves the result in the cache, so a
    later [get] still answers with it; without the read it is gone. *)
Theorem invalidate_proof_misses_read_results cfg c now key v pid c1 c2 :
  cache_inv cfg c → pid ≠ [] →
  cache_set cfg c now key v (Some pid) = Ok c1 →
  0 < (if v then positive_ttl_seconds cfg else negative_ttl_seconds cfg) →
  cache_get c1 now key (Some pid) = (Some v, c2) →
  fst (cache_get (cache_invalidate_proof c2 pid) now key None) = Some v ∧
  fst (cache_get (cache_invalidate_proof c1 pid) now key None) = None.
Proof.
  intros [Hnd _] Hpid Hset Httl Hget. destruct pid as [|p0 pid]; [done|].
  assert (∃ s, proof_keys c1 !! (p0 :: pid) = Some s ∧ key ∈ s) as (s & Hs & Hin).
  { unfold cache_set in Hset. apply bind_ok in Hset as ([[es pk] ev] & _ & [= <-]). cbn.
    rewrite lookup_insert_eq. eexists. split; [done|]. set_solver. }
  apply cache_set_entries in Hset as (es & He & Hkey & _); [|done].
  set (exp := now + _) in *. assert (now < exp) by (unfold exp; lia).
  unfold cache_get in Hget. rewrite He, dict_get_app, Hkey in Hget. cbn in Hget.
  rewrite decide_True, (proj2 (Z.ltb_lt now exp)) in Hget by done. injection Hget as <-.
  unfold cache_get, cache_invalidate_proof.
  cbn [entries proof_keys unlink named hits misses evictions].
  rewrite !foldr_dict_del_get, lookup_alter_eq, Hs. cbn [fmap option_fmap option_map default].
  rewrite decide_False by set_solver. rewrite (decide_True (P := key ∈ elements s)) by set_solver.
  rewrite dict_get_app, dict_get_del, decide_True by done. cbn.
  rewrite decide_True by done. by rewrite (proj2 (Z.ltb_lt now exp)).
Qed.

Lemma key_payload_code_points fs p :
  Forall (Forall code_point) fs → key_payload fs = Ok p → Forall code_point p.
Proof.
  unfold key_payload. intros Hfs. revert p. induction Hfs as [|v fs Hv Hfs IH]; intros p Hp.
  - cbn in Hp. by simplify_eq.
  - cbn [result_mapM] in Hp. apply bind_ok in Hp as (ps & Hps & [= <-]).
    apply bind_ok in Hps as (s & Hs & Hps). apply bind_ok in Hps as (ss & Hss & [= <-]).
    cbn [concat]. apply encode_cache_key_field_inv in Hs as (n & _ & Hn & ->).
    rewrite <- app_assoc. apply Forall_app. split.
    + eapply Forall_impl; [by apply dec_str_digits|]. unfold code_point. cbn. lia.
    + constructor; [unfold code_point; lia|]. apply Forall_app. split; [done|].
      apply IH. by rewrite Hss.
Qed.

(** Domain separation of the keys: two field tuples get the same cache key only
    if their normalised tuples (tag, domain, network, circuit and verifier version,
    proof, public inputs) are equal, or the two distinct payloads are a collision of
    SHA-256.  Field contents cannot move across field boundaries. *)
Theorem cache_key_separation `{Unicode} f f' k :
  Forall (Forall code_point) (key_tuple f) → Forall (Forall code_point) (key_tuple f') →
  get_cache_key f = Ok k → get_cache_key f' = Ok k →
  ∃ p p' m m', key_payload (key_tuple f) = Ok p ∧ utf8_encode p = Some m ∧
    key_payload (key_tuple f') = Ok p' ∧ utf8_encode p' = Some m' ∧
    (key_tuple f = key_tuple f' ∨ sha256_collision m m').
Proof.
  intros Hf Hf' (p & Hp & Hk)%bind_ok (p' & Hp' & Hk')%bind_ok.
  destruct (utf8_encode p) as [m|] eqn:Hm; [|done]. destruct (utf8_encode p') as [m'|] eqn:Hm'; [|done].
  exists p, p', m, m'. do 4 (split; [done|]).
  destruct (sha256_hex_eq m m') as [<-|Hne]; [congruence|left|by right].
  assert (p = p') as <-.
  { apply utf8_encode_inj; [exact (key_payload_code_points _ _ Hf Hp)|exact (key_payload_code_points _ _ Hf' Hp')|eauto|congruence]. }
  by apply (key_payload_inj _ _ p).
Qed.

(** * Witnesses *)

Definition sample_config : config := Config 2 100 10.

Definition sample_ops : list op :=
  [OpSet 0 [1] true (Some [9]); OpSet 1 [2] false None; OpGet 5 [1] None; OpSet 6 [3] true (Some [8]); OpGet 7 [2] None;
   OpInvalidateProof [9]; OpGet 7 [1] None; OpGet 7 [3] (Some [8]); OpInvalidateProof [8]; OpGet 8 [3] None].

Lemma cache_refines_store_witness :
  ∃ outs c, run sample_config empty_cache sample_ops = Ok (outs, c) ∧ cache_inv sample_config c ∧
    spec_run sample_config (Spec ∅ ∅) sample_ops outs.
Proof. apply cache_refines_store. vm_compute. discriminate. Defined.

(** What the sample run answers. *)
Example sample_ops_answers :
  fst <$> to_option (run sample_config empty_cache sample_ops) =
  Some [None; None; Some true; None; None; None; None; Some true; None; Some true].
Proof. vm_compute. reflexivity. Qed.

(** The cache after storing a valid result for key [[1]]. *)
Definition sample_cache : cache :=
  Cache [([1], (true, 100)); ([2], (false, 11))] {[ [9] := {[ [1] ]} ]} 0 0 0.

Lemma recently_read_survives_set_witness :
  ∃ c1 c2, cache_get sample_cache 5 [1] None = (Some true, c1) ∧
    cache_set sample_config c1 6 [3] true None = Ok c2 ∧
    dict_get [1] (entries c2) = dict_get [1] (entries sample_cache).
Proof.
  do 2 eexists. split; [reflexivity|]. split; [reflexivity|].
  eapply (recently_read_survives_set sample_config sample_cache 5 [1] None true _ 6 [3] true None).
  - split; [apply (bool_decide_unpack _); vm_compute; exact I|vm_compute; discriminate].
  - vm_compute. discriminate.
  - reflexivity.
  - reflexivity.
  - discriminate.
Defined.

Lemma invalidate_proof_misses_read_results_witness :
  ∃ c1 c2, cache_set sample_config empty_cache 0 [1] true (Some [9]) = Ok c1 ∧
    cache_get c1 0 [1] (Some [9]) = (Some true, c2) ∧
    fst (cache_get (cache_invalidate_proof c2 [9]) 0 [1] None) = Some true ∧
    fst (cache_get (cache_invalidate_proof c1 [9]) 0 [1] None) = None.
Proof.
  do 2 eexists. split; [reflexivity|]. split; [reflexivity|].
  eapply (invalidate_proof_misses_read_results sample_config empty_cache 0 [1] true [9]).
  - split; [apply NoDup_nil_2|vm_compute; discriminate].
  - discriminate.
  - reflexivity.
  - reflexivity.
  - reflexivity.
Defined.

Definition sample_fields : key_fields :=
  KeyFields (lit "d") (lit "testnet") (lit "1") (lit "2") (lit " AB ") (lit "cd").

Lemma cache_key_separation_witness :
  ∃ k, @get_cache_key plain_unicode sample_fields = Ok k ∧
    ∃ p p' m m', key_payload (@key_tuple plain_unicode sample_fields) = Ok p ∧ utf8_encode p = Some m ∧
    key_payload (@key_tuple plain_unicode sample_fields) = Ok p' ∧ utf8_encode p' = Some m' ∧
    (@key_tuple plain_unicode sample_fields = @key_tuple plain_unicode sample_fields ∨
     sha256_collision m m').
Proof.
  eexists. split; [reflexivity|].
  eapply (@cache_key_separation plain_unicode sample_fields sample_fields).
  - apply (bool_decide_unpack _). vm_compute. exact I.
  - apply (bool_decide_unpack _). vm_compute. exact I.
  - reflexivity.
  - reflexivity.
Defined.
