(* ===== verification/Lineage.v ===== *)
(** Derivative lineage ([backend/lineage.py] and the registration endpoint of
    [backend/app.py] with its queries of [backend/db.py]): canonical manifests and
    their digest, the ancestry search, the graph checks, and the table of recorded
    lineage events as a state machine.  Shown: the digest binds the normalised
    manifest, the ancestry search decides reachability and terminates, requests
    handled one after the other keep the recorded graph acyclic with one record
    per output; and what the code does not prevent (racing requests, letter case,
    depth). *)
From Stdlib Require Import ZArith Lia.
From stdpp Require Import base decidable strings numbers sets relations list.
From S2P Require Import Prelude PyStr Json PyVal Sha256.

Open Scope Z_scope.

#[local] Arguments lit _ : simpl never.

(** * Manifests *)

Definition SUPPORTED_OPERATIONS : list str :=
  [lit "crop"; lit "transcode"; lit "blur"; lit "redact"; lit "compose"].
Definition MAX_LINEAGE_DEPTH : Z := 4.
Definition MAX_LINEAGE_FANOUT : Z := 4.
Definition MAX_LINEAGE_PAYLOAD_BYTES : Z := 4096.

(** [LineageValidationError] with its message, or another exception. *)
Inductive lineage_error : Type :=
  | LineageValidationError (msg : string)
  | LineageMissingField (field : str)
  | LineageRaised (e : exn).

#[export] Instance lineage_error_eq_dec : EqDecision lineage_error.
Proof. solve_decision. Defined.

(** [_is_hex_32] *)
Definition is_hex_32 (s : str) : bool := (zlen s =? 64) && forallb is_hex s.

Definition required_fields : list str :=
  [lit "operationType"; lit "parametersDigest"; lit "toolIdentity"; lit "toolVersion";
   lit "outputDigest"; lit "network"; lit "actorAddress"].

(** [isinstance(parent, str) and _is_hex_32(parent)] for every parent, in order *)
Fixpoint check_parents (l : list pyval) : result lineage_error (list str) :=
  match l with
  | [] => Ok []
  | PStr p :: l =>
      ensure (is_hex_32 p) (LineageValidationError "parentProofIds must contain 32-byte hex values");;
      ps ← check_parents l; Ok (p :: ps)
  | _ :: _ => Err (LineageValidationError "parentProofIds must contain 32-byte hex values")
  end.

Fixpoint check_required (fields : list str) (m : list (str * pyval)) : result lineage_error unit :=
  match fields with
  | [] => Ok ()
  | f :: fields => if dict_has f m then check_required fields m else Err (LineageMissingField f)
  end.

(** The checked inputs of a manifest: its operation and its parents. *)
Definition check_manifest `{Unicode} (manifest : pyval) :
    result lineage_error (list (str * pyval) * str * list str) :=
  match manifest with
  | PDict m =>
      let operation_type := get_or_none (lit "operationType") m in
      known ← map_err LineageRaised (in_str_set operation_type SUPPORTED_OPERATIONS);
      ensure known (LineageValidationError "Unsupported lineage operation");;
      match get_or_none (lit "parentProofIds") m with
      | PList (p :: ps) =>
          ensure (negb (MAX_LINEAGE_FANOUT <? zlen (p :: ps)))
            (LineageValidationError "lineage fan-out exceeds limit");;
          parents ← check_parents (p :: ps);
          check_required required_fields m;;
          ensure (negb (MAX_LINEAGE_PAYLOAD_BYTES <? zlen (json_dumps true manifest)))
            (LineageValidationError "lineage manifest is too large");;
          Ok (m, py_str operation_type, parents)
      | _ => Err (LineageValidationError "parentProofIds must be a non-empty array")
      end
  | _ => Err (LineageValidationError "lineage manifest must be a JSON object")
  end.

Definition field_str `{Unicode} (k : str) (m : list (str * pyval)) : str :=
  py_str (get_or_none k m).

(** The [normalized] dictionary. *)
Definition normalized `{Unicode} (m : list (str * pyval)) (op : str) (parents : list str) :
    list (str * pyval) :=
  [(lit "protocol", PStr (lit "harpocrates"));
   (lit "version", PInt 2);
   (lit "parentProofIds", PList (map PStr parents));
   (lit "operationType", PStr op);
   (lit "parametersDigest", PStr (field_str (lit "parametersDigest") m));
   (lit "toolIdentity", PStr (field_str (lit "toolIdentity") m));
   (lit "toolVersion", PStr (field_str (lit "toolVersion") m));
   (lit "outputDigest", PStr (field_str (lit "outputDigest") m));
   (lit "network", PStr (field_str (lit "network") m));
   (lit "actorAddress", PStr (field_str (lit "actorAddress") m))].

(** The length check of the source encodes the text, which [ensure_ascii] made
    ASCII, so its length in bytes is its length. *)
Definition canonical_lineage_manifest `{Unicode} (manifest : pyval) : result lineage_error str :=
  '(m, op, parents) ← check_manifest manifest;
  Ok (json_dumps true (PDict (normalized m op parents))).

Definition lineage_manifest_digest `{Unicode} (manifest : pyval) : result lineage_error str :=
  c ← canonical_lineage_manifest manifest; Ok (sha256_hex c).

(** * Ancestry *)

(** A row of the table [lineage_events]. *)
Record lineage_row := LineageRow {
  row_manifest_digest : str;
  row_manifest : pyval;
  row_actor_address : str;
  row_parent_proof_ids : list str;
}.

(** The loop over the parents, given the recursive call; [None] is the recursive
    call running out of fuel. *)
Fixpoint any_parent (rec : str → list str → option (bool * list str))
    (parents : list str) (visited : list str) : option (bool * list str) :=
  match parents with
  | [] => Some (false, visited)
  | p :: parents =>
      match rec p visited with
      | Some (true, visited) => Some (true, visited)
      | Some (false, visited) => any_parent rec parents visited
      | None => None
      end
  end.

(** [_contains_in_ancestry]: the set [visited] is shared by all the calls of one
    search, so it is threaded through; the fuel is the depth of the recursion. *)
Fixpoint contains_in_ancestry (get_lineage_fn : str → option lineage_row) (target : str)
    (fuel : nat) (proof_id : str) (visited : list str) : option (bool * list str) :=
  match fuel with
  | O => None
  | S fuel =>
      if decide (proof_id ∈ visited) then Some (false, visited) else
      let visited := proof_id :: visited in
      if decide (proof_id = target) then Some (true, visited) else
      match get_lineage_fn proof_id with
      | None => Some (false, visited)
      | Some row =>
          any_parent (contains_in_ancestry get_lineage_fn target fuel)
            (row_parent_proof_ids row) visited
      end
  end.

(** The transitive check starts every parent with an empty [visited]. *)
Fixpoint check_ancestors (search : str → option bool) (parents : list str) :
    option (result lineage_error unit) :=
  match parents with
  | [] => Some (Ok ())
  | p :: parents =>
      found ← search p;
      if (found : bool)
      then Some (Err (LineageValidationError "lineage cycle detected: would create circular dependency"))
      else check_ancestors search parents
  end.

(** [validate_lineage_graph]; [None] is out of fuel. *)
Definition validate_lineage_graph (fuel : nat) (parent_proof_ids : list str) (depth : Z)
    (actor_address : str) (output_digest : option str)
    (get_lineage_fn : option (str → option lineage_row)) : option (result lineage_error unit) :=
  if MAX_LINEAGE_DEPTH <? depth then Some (Err (LineageValidationError "lineage depth exceeds limit"))
  else if MAX_LINEAGE_FANOUT <? zlen parent_proof_ids
  then Some (Err (LineageValidationError "lineage fan-out exceeds limit"))
  else if bool_decide (actor_address = [])
  then Some (Err (LineageValidationError "actorAddress is required"))
  else match output_digest with
  | None | Some [] => Some (Ok ())
  | Some o =>
      if bool_decide (o ∈ parent_proof_ids)
      then Some (Err (LineageValidationError "lineage cycle detected: output digest appears in parents"))
      else match get_lineage_fn with
      | None => Some (Ok ())
      | Some get =>
          check_ancestors (λ p, fst <$> contains_in_ancestry get o fuel p []) parent_proof_ids
      end
  end.

(** * The table and its endpoint *)

(** The text of [manifest ->> 'outputDigest'] for the manifests the endpoint stores. *)
Definition row_output (row : lineage_row) : option str :=
  match row_manifest row with
  | PDict m => match dict_get (lit "outputDigest") m with Some (PStr s) => Some s | _ => None end
  | _ => None
  end.

(** The first row with that output; the table keeps one per output (below), so
    the missing [order by] of the query does not matter. *)
Fixpoint find_lineage_by_output_digest (table : list lineage_row) (output_digest : str) :
    option lineage_row :=
  match table with
  | [] => None
  | row :: table =>
      if decide (row_output row = Some output_digest) then Some row
      else find_lineage_by_output_digest table output_digest
  end.

(** [insert ... on conflict (manifest_digest) do nothing returning ...] *)
Definition insert_lineage_event (row : lineage_row) (table : list lineage_row) :
    option (list lineage_row) :=
  if decide (row_manifest_digest row ∈ row_manifest_digest <$> table) then None
  else Some (table ++ [row]).

(** [list_lineage_events], newest first; the identifiers are the positions. *)
Definition list_lineage_events (limit : Z) (table : list lineage_row) : list lineage_row :=
  take (Z.to_nat (Z.max 1 (Z.min limit 100))) (rev table).

Definition find_lineage_by_actor (actor_address : str) (limit : Z) (table : list lineage_row) :
    list lineage_row :=
  take (Z.to_nat (Z.max 1 (Z.min limit 100)))
    (filter (λ row, row_actor_address row = actor_address) (rev table)).

(** [int(value)], then the range [1 .. maximum]. *)
Definition clamp_lineage_limit `{Unicode} (value : pyval) (maximum : Z) : result exn Z :=
  parsed ← py_to_int value;
  if parsed <? 1 then Err (ValueError "limit must be a positive integer") else Ok (Z.min parsed maximum).

(** [is_hex_32] of [app.py]: sixty-four characters that [int(value, 16)] reads. *)
Definition app_is_hex_32 `{Unicode} (v : pyval) : bool :=
  match v with
  | PStr s => (zlen s =? 64) && bool_decide (is_Some (py_int 16 s))
  | _ => false
  end.

(** [[str(parent) for parent in parent_ids]] *)
Definition str_items `{Unicode} (v : pyval) : list str :=
  match v with PList l => map py_str l | _ => [] end.

(** What the endpoint answers: a status with its error message, or the digest. *)
Inductive reply : Type :=
  | Rejected (status : Z) (error : string)
  | RejectedLineage (e : lineage_error)
  | Recorded (manifest_digest : str).

Section endpoint.
Context `{Unicode, FloatText}.

(** The checks of [register_lineage_event] up to the insertion, against the table
    as it is when they run.  [None]: out of fuel; an exception that no handler
    of the endpoint catches is an [Err]. *)
Definition validate_request (fuel : nat) (payload : pyval) (table : list lineage_row) :
    option (result exn (reply + lineage_row)) :=
  match payload with
  | PDict m =>
      let output_digest := get_or_none (lit "outputDigest") m in
      if negb (truthy output_digest) then Some (Ok (inl (Rejected 400 "outputDigest is required")))
      else if negb (app_is_hex_32 output_digest)
      then Some (Ok (inl (Rejected 400 "outputDigest must be a 32-byte hex string")))
      else match canonical_lineage_manifest payload with
      | Err (LineageRaised e) => Some (Err e)
      | Err e => Some (Ok (inl (RejectedLineage e)))
      | Ok canonical =>
          let output_digest := py_str output_digest in
          let parent_ids := str_items (get_or_none (lit "parentProofIds") m) in
          let actor_address := field_str (lit "actorAddress") m in
          checked ← validate_lineage_graph fuel parent_ids 1 actor_address (Some output_digest)
            (Some (find_lineage_by_output_digest table));
          match checked with
          | Err e => Some (Ok (inl (RejectedLineage e)))
          | Ok () =>
              match find_lineage_by_output_digest table output_digest with
              | Some _ => Some (Ok (inl (Rejected 409 "lineage already registered for this output digest")))
              | None =>
                  match json_loads canonical with
                  | Ok manifest =>
                      Some (Ok (inr (LineageRow (sha256_hex canonical) manifest actor_address parent_ids)))
                  | Err _ => Some (Err (ValueError "json.loads"))
                  end
              end
          end
      end
  | _ => Some (Ok (inl (Rejected 400 "JSON body is required")))
  end.

(** The insertion, against the table as it is then. *)
Definition record_request (row : lineage_row) (table : list lineage_row) : reply * list lineage_row :=
  match insert_lineage_event row table with
  | Some table => (Recorded (row_manifest_digest row), table)
  | None => (Rejected 500 "failed to record lineage event", table)
  end.

(** [register_lineage_event] with a database, run without interference. *)
Definition register_lineage_event (fuel : nat) (body_bytes max_json_bytes : Z) (payload : pyval)
    (table : list lineage_row) : option (result exn (reply * list lineage_row)) :=
  if max_json_bytes <? body_bytes
  then Some (Ok (Rejected 413 "JSON payload exceeds size limit", table)) else
  v ← validate_request fuel payload table;
  match v with
  | Ok (inl r) => Some (Ok (r, table))
  | Ok (inr row) => Some (Ok (record_request row table))
  | Err e => Some (Err e)
  end.
End endpoint.

(** * The ancestry search decides reachability *)

(** [y] is a recorded parent of [x]. *)
Definition parent_of (get : str → option lineage_row) (x y : str) : Prop :=
  ∃ row, get x = Some row ∧ y ∈ row_parent_proof_ids row.

Section search.
Context (get : str → option lineage_row) (target : str).
Notation edge := (parent_of get).
Notation search := (contains_in_ancestry get target).

(** What a search that found nothing leaves behind: everything it visited is
    closed under parents. *)
Definition explored (visited visited' : list str) : Prop :=
  visited ⊆ visited' ∧ (target ∈ visited' → target ∈ visited) ∧
  ∀ x y, x ∈ visited' → x ∉ visited → edge x y → y ∈ visited'.

Lemma explored_trans v1 v2 v3 : explored v1 v2 → explored v2 v3 → explored v1 v3.
Proof.
  intros (H1 & H2 & H3) (H4 & H5 & H6). split_and!; [set_solver|auto|].
  intros x y Hx Hn He. destruct (decide (x ∈ v2)); [apply H4; eauto|eauto].
Qed.

Lemma any_parent_false rec parents visited v :
  (∀ p v1 v2, p ∈ parents → rec p v1 = Some (false, v2) → explored v1 v2 ∧ p ∈ v2) →
  any_parent rec parents visited = Some (false, v) →
  explored visited v ∧ parents ⊆ v.
Proof.
  intros Hrec. revert visited. induction parents as [|p parents IH]; intros visited Hv; cbn in Hv.
  { simplify_eq. split; [|set_solver]. split_and!; [done|done|set_solver]. }
  destruct (rec p visited) as [[[] v1]|] eqn:Hp; [done| |done].
  apply Hrec in Hp as [Hex Hin]; [|set_solver].
  destruct (IH ltac:(intros; apply Hrec; [set_solver|done]) v1 Hv) as [Hex' Hin'].
  split; [by eapply explored_trans|]. destruct Hex' as (Hsub & _). set_solver.
Qed.

Lemma any_parent_true rec parents visited v :
  any_parent rec parents visited = Some (true, v) →
  ∃ p v1 v2, p ∈ parents ∧ rec p v1 = Some (true, v2).
Proof.
  revert visited. induction parents as [|p parents IH]; intros visited Hv; cbn in Hv; [done|].
  destruct (rec p visited) as [[[] v1]|] eqn:Hp; [|apply IH in Hv as (q & w1 & w2 & ? & ?)|done].
  - exists p, visited, v1. set_solver.
  - exists q, w1, w2. set_solver.
Qed.

Lemma search_false fuel id visited v :
  search fuel id visited = Some (false, v) → explored visited v ∧ id ∈ v.
Proof.
  revert id visited v. induction fuel as [|fuel IH]; intros id visited v Hv; [done|]. cbn in Hv.
  destruct (decide (id ∈ visited)) as [Hin|Hnin].
  { simplify_eq. split; [|done]. split_and!; [done|done|set_solver]. }
  destruct (decide (id = target)) as [|Hne]; [done|].
  destruct (get id) as [row|] eqn:Hrow.
  - apply any_parent_false in Hv as [(Hsub & Ht & Hcl) Hps]; [|eauto].
    split; [|set_solver]. split_and!; [set_solver|set_solver|].
    intros x y Hx Hnx He. destruct (decide (x = id)) as [->|].
    + destruct He as (row' & ? & ?). simplify_eq. set_solver.
    + apply (Hcl x y); [done|set_solver|done].
  - simplify_eq. split; [|set_solver]. split_and!; [set_solver|set_solver|].
    intros x y Hx Hnx (row & He & _). apply elem_of_cons in Hx as [->|]; [congruence|done].
Qed.

Lemma search_true fuel id visited v :
  search fuel id visited = Some (true, v) → rtc edge id target.
Proof.
  revert id visited v. induction fuel as [|fuel IH]; intros id visited v Hv; [done|]. cbn in Hv.
  destruct (decide (id ∈ visited)); [done|].
  destruct (decide (id = target)) as [->|]; [constructor|].
  destruct (get id) as [row|] eqn:Hrow; [|done].
  apply any_parent_true in Hv as (p & v1 & v2 & Hp & Hr). apply IH in Hr.
  eapply rtc_l; [by exists row|done].
Qed.

Lemma closed_reach (P : str → Prop) x y :
  (∀ a b, P a → edge a b → P b) → P x → rtc edge x y → P y.
Proof. intros Hcl Hx. induction 1; eauto. Qed.

(** ** Termination: every level below a recorded identifier visits one more *)

Definition unvisited (dom visited : list str) : nat :=
  length (filter (λ x, x ∉ visited) dom).

Lemma unvisited_mono dom v v' : v ⊆ v' → (unvisited dom v' ≤ unvisited dom v)%nat.
Proof.
  intros Hsub. unfold unvisited. induction dom as [|x dom IH]; [done|].
  rewrite !filter_cons. repeat case_decide; cbn; try lia. set_solver.
Qed.

Lemma unvisited_visit dom v x :
  x ∈ dom → x ∉ v → (unvisited dom (x :: v) < unvisited dom v)%nat.
Proof.
  intros Hin Hn. unfold unvisited. induction dom as [|y dom IH]; [set_solver|].
  rewrite !filter_cons. pose proof (unvisited_mono dom v (x :: v) ltac:(set_solver)) as Hm.
  unfold unvisited in Hm. apply elem_of_cons in Hin as [->|Hin].
  - rewrite decide_False, decide_True by set_solver. cbn. lia.
  - specialize (IH Hin). repeat case_decide; cbn; try lia. set_solver.
Qed.

Lemma search_visited fuel id visited b v : search fuel id visited = Some (b, v) → visited ⊆ v.
Proof.
  revert id visited b v. induction fuel as [|fuel IH]; intros id visited b v Hv; [done|]. cbn in Hv.
  repeat case_decide; [by simplify_eq|simplify_eq; set_solver|].
  destruct (get id) as [row|]; [|simplify_eq; set_solver].
  assert (∀ ps w w', any_parent (search fuel) ps w = Some (b, w') → w ⊆ w') as Hps.
  { induction ps as [|p ps IHps]; intros w w' Hw; cbn in Hw; [by simplify_eq|].
    destruct (search fuel p w) as [[[] w1]|] eqn:Hp; [| |done]; apply IH in Hp; [by simplify_eq|].
    apply IHps in Hw. set_solver. }
  apply Hps in Hv. set_solver.
Qed.

Lemma search_total dom fuel id visited :
  (∀ x row, get x = Some row → x ∈ dom) → (unvisited dom visited < fuel)%nat →
  is_Some (search fuel id visited).
Proof.
  intros Hdom. revert id visited. induction fuel as [|fuel IH]; intros id visited Hf; [lia|]. cbn.
  repeat case_decide; [done|done|]. destruct (get id) as [row|] eqn:Hrow; [|done].
  pose proof (unvisited_visit dom visited id (Hdom _ _ Hrow) ltac:(done)) as Hlt.
  assert (∀ ps w, (unvisited dom w < fuel)%nat → is_Some (any_parent (search fuel) ps w)) as Hps.
  { induction ps as [|p ps IHps]; intros w Hw; cbn; [done|].
    destruct (IH p w Hw) as [[[] w1] Hp]; rewrite Hp; [done|]. apply IHps.
    apply search_visited in Hp. apply (unvisited_mono dom) in Hp. lia. }
  apply Hps. lia.
Qed.

(** ** The search from an empty [visited] *)

Lemma search_unreachable fuel id v :
  search fuel id [] = Some (false, v) → ¬ rtc edge id target.
Proof.
  intros [(_ & Ht & Hcl) Hin]%search_false Hr.
  assert (target ∈ v) as Htv; [|by apply Ht in Htv; apply elem_of_nil in Htv].
  eapply (closed_reach (λ x, x ∈ v)); [|exact Hin|exact Hr].
  intros a b Ha He. eapply Hcl; eauto. set_solver.
Qed.

Lemma search_spec dom fuel id :
  (∀ x row, get x = Some row → x ∈ dom) → (length dom < fuel)%nat →
  ∃ b, fst <$> search fuel id [] = Some b ∧ (b = true ↔ rtc edge id target).
Proof.
  intros Hdom Hf. destruct (search_total dom fuel id [] Hdom) as [[b v] Hs].
  { unfold unvisited. pose proof (length_filter (λ x, x ∉ []) dom). lia. }
  exists b. rewrite Hs. split; [done|]. destruct b; split; try done.
  - intros _. by eapply search_true.
  - intros Hr. by apply search_unreachable in Hs.
Qed.
End search.

(** * The recorded graph *)

Definition outputs (table : list lineage_row) : list str := omap row_output table.

(** [y] is a parent of the derivative recorded with output [x]. *)
Definition lineage_edge (table : list lineage_row) : str → str → Prop :=
  parent_of (find_lineage_by_output_digest table).

(** One record per output, and nothing is its own ancestor. *)
Definition table_inv (table : list lineage_row) : Prop :=
  NoDup (outputs table) ∧ ∀ x, ¬ tc (lineage_edge table) x x.

Lemma find_output table x row :
  find_lineage_by_output_digest table x = Some row → row ∈ table ∧ row_output row = Some x.
Proof.
  induction table as [|r table IH]; cbn; [done|]. case_decide; intros Hf.
  - simplify_eq. set_solver.
  - apply IH in Hf as []. set_solver.
Qed.

Lemma outputs_cons r table :
  outputs (r :: table) = match row_output r with Some o => o :: outputs table | None => outputs table end.
Proof. done. Qed.

Lemma find_none table x : find_lineage_by_output_digest table x = None ↔ x ∉ outputs table.
Proof.
  induction table as [|r table IH]; [split; [intros _; apply not_elem_of_nil|done]|].
  cbn [find_lineage_by_output_digest]. rewrite outputs_cons. case_decide as Hr.
  - rewrite Hr. split; [done|]. intros Hn. exfalso. apply Hn. left.
  - rewrite IH. destruct (row_output r) as [o|]; [|done]. rewrite not_elem_of_cons.
    split; [intros ?; split; congruence|tauto].
Qed.

Lemma find_app table row x :
  find_lineage_by_output_digest (table ++ [row]) x =
  match find_lineage_by_output_digest table x with
  | Some r => Some r
  | None => if decide (row_output row = Some x) then Some row else None
  end.
Proof.
  induction table as [|r table IH]; cbn; [by destruct (decide (row_output row = Some x))|].
  destruct (decide (row_output r = Some x)); [done|exact IH].
Qed.

Section extend.
Context (table : list lineage_row) (row : lineage_row) (o : str).
Context (Hout : row_output row = Some o) (Hnew : o ∉ outputs table).
Notation edge := (lineage_edge table).
Notation edge' := (lineage_edge (table ++ [row])).

Lemma edge_new_inv x y : edge' x y → edge x y ∨ x = o ∧ y ∈ row_parent_proof_ids row.
Proof.
  unfold lineage_edge, parent_of. rewrite find_app. intros (r & Hr & Hy).
  destruct (find_lineage_by_output_digest table x) as [r'|]; [left; exists r'; split; [reflexivity|congruence]|].
  destruct (decide (row_output row = Some x)) as [Hx|]; [|done].
  injection Hr as <-. right. split; [congruence|done].
Qed.

Lemma path_to_new x : rtc edge' x o → rtc edge x o.
Proof.
  intros Hp. enough (∀ z, rtc edge' x z → z = o → rtc edge x z) as Hz by (by apply Hz).
  clear Hp. intros z. induction 1 as [|x y z Hxy _ IH]; intros Hz; [constructor|].
  apply edge_new_inv in Hxy as [He|[-> _]]; [|subst z; constructor].
  eapply rtc_l; eauto.
Qed.

Lemma cycle_through_new x y :
  tc edge' x y → tc edge x y ∨ (rtc edge' x o ∧ tc edge' o y).
Proof.
  induction 1 as [x y Hxy|x y z Hxy Hyz IH].
  - pose proof Hxy as [He|[-> _]]%edge_new_inv; [left; by constructor|].
    right. split; [constructor|by constructor].
  - pose proof Hxy as [He|[-> _]]%edge_new_inv.
    + destruct IH as [IH|[IH1 IH2]]; [left; by eapply tc_l|right; split; [by eapply rtc_l|done]].
    + right. split; [constructor|by eapply tc_l].
Qed.

Lemma extend_acyclic :
  (∀ x, ¬ tc edge x x) → (∀ p, p ∈ row_parent_proof_ids row → ¬ rtc edge p o) →
  ∀ x, ¬ tc edge' x x.
Proof.
  intros Hac Hps x Hx. apply cycle_through_new in Hx as [Hx|[Hxo Hox]]; [by apply (Hac x)|].
  assert (∃ p, edge' o p ∧ rtc edge' p o) as (p & Hop & Hpo).
  { inversion Hox as [|? y ? ? Hy]; subst; [eauto|].
    exists y. split; [done|]. etrans; [by apply tc_rtc|done]. }
  apply path_to_new in Hpo. apply edge_new_inv in Hop as [(r & Hr & _)|[_ Hin]].
  - apply find_output in Hr as [Hr Ho]. apply Hnew. apply list_elem_of_omap. eauto.
  - by apply (Hps p).
Qed.
End extend.

(** * Accepted manifests *)

Section manifests.
Context `{Unicode}.

Lemma check_parents_ok l ps :
  check_parents l = Ok ps → map py_str l = ps ∧ forallb (forallb scalar) ps = true.
Proof.
  revert ps. induction l as [|v l IH]; intros ps Hl; cbn in Hl; [by simplify_eq|].
  destruct v as [| | | |p| |]; try done.
  apply seq_ok in Hl as [Hp Hl]. apply bind_ok in Hl as (qs & Hq & [= <-]).
  destruct (IH _ Hq) as [<- Hsc]. split; [done|]. cbn. rewrite Hsc, andb_true_r.
  unfold ensure in Hp. destruct (is_hex_32 p) eqn:Hhex; [|done].
  unfold is_hex_32 in Hhex. apply andb_true_iff in Hhex as [_ Hhex].
  apply forallb_Forall. apply forallb_Forall in Hhex. eapply Forall_impl; [exact Hhex|].
  unfold is_hex, hex_val. intros c Hc. apply bool_decide_eq_true in Hc as [d Hd].
  apply scalar_ascii. repeat case_match; bool_inv; try done; lia.
Qed.

Lemma get_or_none_plain k m : plain (PDict m) = true → plain (get_or_none k m) = true.
Proof.
  cbn. intros [Hm _]%andb_true_iff. unfold get_or_none.
  induction m as [|[k' v] m IH]; [done|]. cbn in *. apply andb_true_iff in Hm as [[_ Hv]%andb_true_iff Hm].
  case_decide; [done|by apply IH].
Qed.

(** What the checks establish. *)
Lemma check_manifest_ok v m op ps :
  check_manifest v = Ok (m, op, ps) →
  v = PDict m ∧ op ∈ SUPPORTED_OPERATIONS ∧ op = field_str (lit "operationType") m ∧
  ps = str_items (get_or_none (lit "parentProofIds") m) ∧ ps ≠ [] ∧
  forallb (forallb scalar) ps = true.
Proof.
  unfold check_manifest. destruct v as [| | | | | |d]; try done.
  intros (known & Hk & Hv)%bind_ok. apply seq_ok in Hv as [He Hv].
  unfold ensure in He. destruct known; [|done].
  unfold field_str. destruct (get_or_none (lit "operationType") d) as [| | | |o| |] eqn:Ho; try done.
  cbn in Hk. injection Hk as Hk. apply bool_decide_eq_true in Hk.
  destruct (get_or_none (lit "parentProofIds") d) as [| | | | |l|] eqn:Hp; try done.
  destruct l as [|p l]; [done|]. apply seq_ok in Hv as [_ Hv].
  apply bind_ok in Hv as (qs & Hqs & Hv). apply seq_ok in Hv as [_ Hv]. apply seq_ok in Hv as [_ [= <- <- <-]].
  apply check_parents_ok in Hqs as [<- Hsc]. split_and!; try done; [by rewrite Ho|by rewrite Hp].
Qed.

Lemma supported_scalar op : op ∈ SUPPORTED_OPERATIONS → forallb scalar op = true.
Proof.
  unfold SUPPORTED_OPERATIONS. rewrite !elem_of_cons, elem_of_nil.
  intros [->|[->|[->|[->|[->|[]]]]]]; apply lit_scalar.
Qed.

Lemma normalized_keys m op ps : NoDup (normalized m op ps).*1.
Proof. apply (bool_decide_unpack _). vm_compute. exact I. Qed.

Lemma normalized_plain v m op ps :
  check_manifest v = Ok (m, op, ps) → plain v = true → plain (PDict (normalized m op ps)) = true.
Proof.
  intros (-> & Hop%supported_scalar & _ & _ & _ & Hps)%check_manifest_ok Hv.
  assert (∀ k, forallb scalar (field_str k m) = true) as Hf
    by (intros k; apply py_str_scalar; by apply get_or_none_plain).
  cbn [plain]. apply andb_true_iff. split; [|by apply bool_decide_eq_true, normalized_keys].
  unfold normalized. cbn [forallb fst snd plain]. rewrite !lit_scalar, !Hf, Hop.
  replace (forallb plain (map PStr ps)) with true; [done|].
  symmetry. clear -Hps. induction ps as [|p ps IH]; [done|]. cbn in *.
  apply andb_true_iff in Hps as [-> Hps]. by apply IH.
Qed.

(** The canonical form of a normalised manifest determines it. *)
Lemma normalized_inj m op ps m' op' ps' :
  canon (PDict (normalized m op ps)) = canon (PDict (normalized m' op' ps')) →
  normalized m op ps = normalized m' op' ps'.
Proof.
  intros Heq.
  assert (∀ k, canon <$> dict_get k (normalized m op ps) = canon <$> dict_get k (normalized m' op' ps')) as Hk.
  { intros k. apply canon_dict_inj; [apply normalized_keys..|done]. }
  clear Heq. unfold normalized in *.
  pose proof (Hk (lit "parentProofIds")) as H1. pose proof (Hk (lit "operationType")) as H2.
  pose proof (Hk (lit "parametersDigest")) as H3. pose proof (Hk (lit "toolIdentity")) as H4.
  pose proof (Hk (lit "toolVersion")) as H5. pose proof (Hk (lit "outputDigest")) as H6.
  pose proof (Hk (lit "network")) as H7. pose proof (Hk (lit "actorAddress")) as H8.
  clear Hk. cbn in H1, H2, H3, H4, H5, H6, H7, H8.
  injection H1 as H1. injection H2 as ->. injection H3 as ->. injection H4 as ->.
  injection H5 as ->. injection H6 as ->. injection H7 as ->. injection H8 as ->.
  rewrite !map_map in H1. cbn in H1. change (map PStr ps = map PStr ps') in H1. by rewrite H1.
Qed.
End manifests.

(** * Requests handled one after the other *)

Lemma check_ancestors_ok search ps :
  check_ancestors search ps = Some (Ok ()) → ∀ p, p ∈ ps → search p = Some false.
Proof.
  induction ps as [|q ps IH]; intros Hc p Hp; [by apply elem_of_nil in Hp|]. cbn in Hc.
  destruct (search q) as [[]|] eqn:Hq; try done.
  apply elem_of_cons in Hp as [->|Hp]; [done|by apply IH].
Qed.

Lemma validate_lineage_graph_ok fuel ps depth actor o get :
  o ≠ [] → validate_lineage_graph fuel ps depth actor (Some o) (Some get) = Some (Ok ()) →
  depth ≤ MAX_LINEAGE_DEPTH ∧ zlen ps ≤ MAX_LINEAGE_FANOUT ∧ actor ≠ [] ∧
  ∀ p, p ∈ ps → ¬ rtc (parent_of get) p o.
Proof.
  unfold validate_lineage_graph. intros Hne Hv. destruct o as [|c o]; [done|].
  repeat match type of Hv with (if ?b then _ else _) = _ => destruct b eqn:?; [done|] end.
  bool_inv. split_and!; try done.
  intros p Hp. eapply check_ancestors_ok in Hv; [|exact Hp].
  destruct (contains_in_ancestry get (c :: o) fuel p []) as [[b v]|] eqn:Hs; [|done].
  cbn in Hv. simplify_eq. by eapply search_unreachable.
Qed.

Section requests.
Context `{Unicode, FloatText}.

Lemma app_is_hex_32_str v : app_is_hex_32 v = true → ∃ s, v = PStr s ∧ s ≠ [].
Proof.
  destruct v as [| | | |s| |]; try done. cbn. intros [Hl _]%andb_true_iff. exists s. split; [done|].
  by destruct s.
Qed.

(** A request that passes its checks brings a record whose output is new and is
    not reachable from its parents. *)
Lemma validate_request_row fuel payload table row :
  plain payload = true → validate_request fuel payload table = Some (Ok (inr row)) →
  ∃ o, row_output row = Some o ∧ o ∉ outputs table ∧
    ∀ p, p ∈ row_parent_proof_ids row → ¬ rtc (lineage_edge table) p o.
Proof.
  intros Hpl Hv. destruct payload as [| | | | | |m]; try done. cbn [validate_request] in Hv.
  repeat match type of Hv with (if ?b then _ else _) = _ => destruct b eqn:?; [done|] end.
  bool_inv. destruct (app_is_hex_32_str _ ltac:(eassumption)) as (o & Ho & Hne).
  unfold canonical_lineage_manifest in Hv.
  destruct (check_manifest (PDict m)) as [[[m' op] ps]|[]] eqn:Hc; try done. rewrite bind_Ok in Hv.
  pose proof (normalized_plain _ _ _ _ Hc Hpl) as Hnp.
  apply check_manifest_ok in Hc as (Hm & _ & _ & -> & _). injection Hm as <-.
  rewrite Ho in Hv. cbn [py_str] in Hv.
  destruct (validate_lineage_graph _ _ _ _ _ _) as [[[]|]|] eqn:Hg; try done. cbn [mbind option_bind] in Hv.
  apply validate_lineage_graph_ok in Hg as (_ & _ & _ & Hpar); [|done].
  destruct (find_lineage_by_output_digest table o) eqn:Hf; [done|].
  rewrite json_loads_dumps in Hv by done. rewrite canon_dict in Hv.
  set (cm := sort_items _) in Hv. injection Hv as <-.
  exists o. split_and!; [|by apply find_none|exact Hpar].
  unfold row_output. cbn [row_manifest]. unfold cm.
  rewrite dict_get_canon by apply normalized_keys. cbn. unfold field_str. by rewrite Ho.
Qed.

(** The tables requests without lone surrogates can produce, one at a time. *)
Inductive served (max_json_bytes : Z) : list lineage_row → Prop :=
  | served_empty : served max_json_bytes []
  | served_request table fuel body payload r table' :
      served max_json_bytes table → plain payload = true →
      register_lineage_event fuel body max_json_bytes payload table = Some (Ok (r, table')) →
      served max_json_bytes table'.

Lemma register_preserves fuel body limit payload table r table' :
  plain payload = true → table_inv table →
  register_lineage_event fuel body limit payload table = Some (Ok (r, table')) → table_inv table'.
Proof.
  intros Hpl Hinv Hr. unfold register_lineage_event in Hr. case_match; [by simplify_eq|].
  destruct (validate_request fuel payload table) as [[[r'|row]|]|] eqn:Hv; try done; cbn in Hr;
    simplify_eq; [done|].
  apply validate_request_row in Hv as (o & Ho & Hnew & Hpar); [|done].
  unfold record_request, insert_lineage_event in Hr. case_decide; simplify_eq; [done|].
  destruct Hinv as [Hnd Hac]. split; [|by apply (extend_acyclic table row o)].
  unfold outputs in *. rewrite omap_app. cbn. rewrite Ho. apply NoDup_app. split_and!; [done| |].
  - intros x Hx Hx'. apply list_elem_of_singleton in Hx' as ->. done.
  - apply NoDup_singleton.
Qed.

(** C25. Requests handled one after the other keep the recorded lineage well founded:
    every output has at most one record and no output is its own ancestor,
    whatever the requests ask for. *)
Theorem lineage_acyclic max_json_bytes table :
  served max_json_bytes table →
  NoDup (outputs table) ∧ ∀ x, ¬ tc (lineage_edge table) x x.
Proof.
  induction 1 as [|table fuel body payload r table' _ IH Hpl Hr].
  - split; [constructor|]. intros x Hx. inversion Hx as [? ? (? & Hf & _)|? ? ? (? & Hf & _)]; done.
  - by eapply register_preserves.
Qed.
End requests.

Lemma length_outputs table : (length (outputs table) ≤ length table)%nat.
Proof.
  unfold outputs. induction table as [|r table IH]; [done|]. cbn. case_match; cbn; lia.
Qed.

Lemma find_recorded table x row :
  find_lineage_by_output_digest table x = Some row → x ∈ outputs table.
Proof. intros [Hr Ho]%find_output. apply list_elem_of_omap. eauto. Qed.

(** C26. The ancestry search over a recorded table always terminates, and answers
    [True] exactly when the target can be reached through recorded parents; a
    recursion depth above the number of records is enough. *)
Theorem ancestry_search_decides table target proof_id fuel :
  (length table < fuel)%nat →
  ∃ b, fst <$> contains_in_ancestry (find_lineage_by_output_digest table) target fuel proof_id [] = Some b
    ∧ (b = true ↔ rtc (lineage_edge table) proof_id target).
Proof.
  intros Hf. apply (search_spec _ _ (outputs table)); [apply find_recorded|].
  pose proof (length_outputs table). lia.
Qed.

(** The manifest digest binds what is recorded: two accepted manifests with the
    same digest normalise to the same dictionary (parents in order, operation and
    every field), or their canonical texts are a SHA-256 collision. *)
Theorem lineage_digest_binds `{Unicode, FloatText} v w d :
  plain v = true → plain w = true →
  lineage_manifest_digest v = Ok d → lineage_manifest_digest w = Ok d →
  ∃ m op ps m' op' ps',
    check_manifest v = Ok (m, op, ps) ∧ check_manifest w = Ok (m', op', ps') ∧
    (normalized m op ps = normalized m' op' ps' ∨
     sha256_collision (json_dumps true (PDict (normalized m op ps)))
       (json_dumps true (PDict (normalized m' op' ps')))).
Proof.
  unfold lineage_manifest_digest, canonical_lineage_manifest. intros Hv Hw Hdv Hdw.
  apply bind_ok in Hdv as (c & Hc & [= Hcd]). apply bind_ok in Hdw as (c' & Hc' & [= Hcd']).
  apply bind_ok in Hc as ([[m op] ps] & Hm & [= <-]).
  apply bind_ok in Hc' as ([[m' op'] ps'] & Hm' & [= <-]).
  exists m, op, ps, m', op', ps'. split; [done|]. split; [done|].
  pose proof (normalized_plain _ _ _ _ Hm Hv) as Hp.
  pose proof (normalized_plain _ _ _ _ Hm' Hw) as Hp'.
  destruct (sha256_hex_eq (json_dumps true (PDict (normalized m op ps)))
    (json_dumps true (PDict (normalized m' op' ps')))) as [Heq|]; [congruence|left|by right].
  apply json_dumps_inj in Heq; [|done..]. by apply normalized_inj.
Qed.

(** * Witnesses and what the checks leave open *)

Definition sample_payload (op out parent : string) : pyval :=
  PDict [(lit "operationType", PStr (lit op)); (lit "parentProofIds", PList [PStr (lit parent)]);
         (lit "parametersDigest", PStr (lit "p")); (lit "toolIdentity", PStr (lit "t"));
         (lit "toolVersion", PInt 1); (lit "outputDigest", PStr (lit out));
         (lit "network", PStr (lit "testnet")); (lit "actorAddress", PStr (lit "G"))].

Definition hex_a : string := "aaaaaaaaaaaaaaaaaaaaaaaaaaaaaaaaaaaaaaaaaaaaaaaaaaaaaaaaaaaaaaaa".
Definition hex_b : string := "bbbbbbbbbbbbbbbbbbbbbbbbbbbbbbbbbbbbbbbbbbbbbbbbbbbbbbbbbbbbbbbb".
Definition hex_B : string := "BBBBBBBBBBBBBBBBBBBBBBBBBBBBBBBBBBBBBBBBBBBBBBBBBBBBBBBBBBBBBBBB".

#[local] Instance sample_unicode : Unicode := plain_unicode.
#[local] Instance sample_floats : FloatText := λ s, PyFloat s s (Err OverflowError) false.

#[local] Transparent sha256.


(** Two requests that are both checked before either is recorded (each output
    naming the other as its parent) are both accepted, and the table then holds a
    cycle: the checks and the insertion are not one transaction. *)
Theorem racing_requests_form_cycle :
  ∃ row row' table r r',
    validate_request 2 (sample_payload "crop" hex_a hex_b) [] = Some (Ok (inr row)) ∧
    validate_request 2 (sample_payload "crop" hex_b hex_a) [] = Some (Ok (inr row')) ∧
    record_request row [] = (Recorded r, [row]) ∧
    record_request row' [row] = (Recorded r', table) ∧
    tc (lineage_edge table) (lit hex_a) (lit hex_a).
Proof.
  do 5 eexists. split; [vm_compute; reflexivity|]. split; [vm_compute; reflexivity|].
  split; [vm_compute; reflexivity|]. split; [vm_compute; reflexivity|].
  apply (tc_l _ _ (lit hex_b)); [|apply tc_once]; (eexists; split; [vm_compute; reflexivity|]);
    apply (bool_decide_unpack _); vm_compute; exact I.
Qed.

(** The endpoint after a sequence of requests. *)
Fixpoint serve_all (payloads : list pyval) (table : list lineage_row) : option (list lineage_row) :=
  match payloads with
  | [] => Some table
  | p :: payloads =>
      match register_lineage_event (S (length table)) 0 1 p table with
      | Some (Ok (_, table)) => serve_all payloads table
      | _ => None
      end
  end.

(** Identifiers are compared as text although both letter cases are accepted: the
    derivatives [aa..] of [BB..] and [bb..] of [aa..] are both recorded. *)
Lemma letter_case_hides_cycle :
  ∃ table, serve_all [sample_payload "crop" hex_a hex_B; sample_payload "crop" hex_b hex_a] [] = Some table ∧
    outputs table = [lit hex_a; lit hex_b] ∧
    row_parent_proof_ids <$> table = [[lit hex_B]; [lit hex_a]] ∧ py_lower (lit hex_B) = lit hex_b.
Proof. eexists. split; [vm_compute; reflexivity|]. by vm_compute. Qed.

Lemma lineage_acyclic_witness :
  ∃ table, serve_all [sample_payload "crop" hex_b hex_a] [] = Some table ∧
    length table = 1%nat ∧ NoDup (outputs table) ∧ ∀ x, ¬ tc (lineage_edge table) x x.
Proof.
  eexists. split; [vm_compute; reflexivity|]. split; [reflexivity|].
  apply (lineage_acyclic 1).
  eapply (served_request 1 [] 1 0 (sample_payload "crop" hex_b hex_a)); [apply served_empty|reflexivity|].
  vm_compute. reflexivity.
Defined.

Lemma ancestry_search_decides_witness :
  ∃ b, fst <$> contains_in_ancestry (find_lineage_by_output_digest []) (lit hex_a) 1 (lit hex_b) [] = Some b
    ∧ (b = true ↔ rtc (lineage_edge []) (lit hex_b) (lit hex_a)).
Proof. apply ancestry_search_decides. apply Nat.lt_0_succ. Defined.

Lemma lineage_digest_binds_witness :
  let v := sample_payload "blur" hex_a hex_b in
  ∃ m op ps m' op' ps', check_manifest v = Ok (m, op, ps) ∧ check_manifest v = Ok (m', op', ps') ∧
    (normalized m op ps = normalized m' op' ps' ∨
     sha256_collision (json_dumps true (PDict (normalized m op ps)))
       (json_dumps true (PDict (normalized m' op' ps')))).
Proof.
  intros v. eapply (lineage_digest_binds v v); [reflexivity|reflexivity|vm_compute; reflexivity|vm_compute; reflexivity].
Defined.
