(* ===== verification/IssuerKeys.v ===== *)
(** Issuer key transparency ([backend/issuer_key_transparency.py]): issuer
    manifests, the append-only log of key events with its hash chain, the directory
    rebuilt from it, checkpoints and their consistency checks.  Shown: accepted logs
    are chained and gap free, a checkpoint that verifies pins the log it was made
    from, signatures made while a key was valid survive later events; and where
    the key history can be rewritten. *)
From Stdlib Require Import ZArith Lia.
From stdpp Require Import base decidable strings numbers gmap list.
From S2P Require Import Prelude PyStr Json PyVal Sha256.

Open Scope Z_scope.

#[local] Arguments lit _ : simpl never.

(** * Constants, enumerations, errors *)

Definition PROTOCOL : str := lit "harpocrates-issuer-key-transparency".
Definition VERSION : Z := 1.
Definition SUPPORTED_VERSIONS : list Z := [1].
Definition MAX_ACTIVE_KEYS : Z := 8.
Definition MAX_EVENTS : Z := 10000.
Definition MAX_MANIFEST_BYTES : Z := 8192.
Definition MAX_CHECKPOINT_BYTES : Z := 16384.
Definition DEFAULT_FRESHNESS_SECONDS : Z := 86400.
Definition HIGH_ASSURANCE_FRESHNESS_SECONDS : Z := 3600.

Inductive KeyStatus : Type := ACTIVE | ROTATED | COMPROMISED | RETIRED.
Inductive EventType : Type := ACTIVATION | ROTATION | COMPROMISE | RETIREMENT | CHECKPOINT.

#[export] Instance KeyStatus_eq_dec : EqDecision KeyStatus.
Proof. solve_decision. Defined.
#[export] Instance EventType_eq_dec : EqDecision EventType.
Proof. solve_decision. Defined.

Definition status_value (s : KeyStatus) : str :=
  match s with
  | ACTIVE => lit "active" | ROTATED => lit "rotated"
  | COMPROMISED => lit "compromised" | RETIRED => lit "retired"
  end.
Definition event_value (t : EventType) : str :=
  match t with
  | ACTIVATION => lit "activation" | ROTATION => lit "rotation" | COMPROMISE => lit "compromise"
  | RETIREMENT => lit "retirement" | CHECKPOINT => lit "checkpoint"
  end.

Inductive ikt_error : Type :=
  | TransparencyError (msg : string)
  | NotHex (field : string)
  | FreshnessError (high_assurance : bool)
  | Raised (e : exn).

#[export] Instance ikt_error_eq_dec : EqDecision ikt_error.
Proof. solve_decision. Defined.

(** [KeyStatus(text)] and [EventType(text)] *)
Definition parse_status (s : str) : result ikt_error KeyStatus :=
  match list_find (λ k, status_value k = s) [ACTIVE; ROTATED; COMPROMISED; RETIRED] with
  | Some (_, k) => Ok k
  | None => Err (Raised (ValueError "KeyStatus"))
  end.
Definition parse_event_type (s : str) : result ikt_error EventType :=
  match list_find (λ k, event_value k = s) [ACTIVATION; ROTATION; COMPROMISE; RETIREMENT; CHECKPOINT] with
  | Some (_, k) => Ok k
  | None => Err (Raised (ValueError "EventType"))
  end.

(** * Hashing *)

(** [_canonical_json] *)
Definition canonical_json (obj : pyval) : result ikt_error bytes :=
  match utf8_encode (json_dumps false obj) with
  | Some b => Ok b
  | None => Err (Raised UnicodeError)
  end.

Section hex.
Context `{Unicode}.

(** [_is_hex]: the length, then whatever [int(value, 16)] reads *)
Definition is_hex_len (value : str) (n : Z) : bool :=
  (zlen value =? n) && bool_decide (is_Some (py_int 16 value)).

Definition require_hex (name : string) (value : str) : result ikt_error str :=
  if is_hex_len value 64 then Ok (py_lower value) else Err (NotHex name).
End hex.

(** * Reading dictionaries *)

Section reading.
Context `{Unicode}.

(** [obj[k]] *)
Definition item (k : string) (d : list (str * pyval)) : result ikt_error pyval :=
  match dict_get (lit k) d with Some v => Ok v | None => Err (Raised (KeyError k)) end.

(** [str(obj[k])], [int(obj[k])], [_require_hex(k, str(obj[k]))] *)
Definition str_item (k : string) (d : list (str * pyval)) : result ikt_error str :=
  v ← item k d; Ok (py_str v).
Definition int_item (k : string) (d : list (str * pyval)) : result ikt_error Z :=
  v ← item k d; map_err Raised (py_to_int v).
Definition hex_item (k : string) (d : list (str * pyval)) : result ikt_error str :=
  s ← str_item k d; require_hex k s.

(** [obj.get(k)] when it is text; [obj.get(k) == text] holds for no other value *)
Definition get_or_none_str (k : str) (d : list (str * pyval)) : option str :=
  match get_or_none k d with PStr s => Some s | _ => None end.

(** [f(obj[k]) if obj.get(k) else None] *)
Definition if_truthy {A} (k : string) (d : list (str * pyval)) (f : result ikt_error A) :
    result ikt_error (option A) :=
  if truthy (get_or_none (lit k) d) then x ← f; Ok (Some x) else Ok None.

(** [f(obj[k]) if obj.get(k) is not None else None] *)
Definition if_not_none {A} (k : string) (d : list (str * pyval)) (f : result ikt_error A) :
    result ikt_error (option A) :=
  match get_or_none (lit k) d with PNone => Ok None | _ => x ← f; Ok (Some x) end.

(** [for x in v] *)
Definition py_iter (v : pyval) : result ikt_error (list pyval) :=
  match v with
  | PList l => Ok l
  | PStr s => Ok (map (λ c, PStr [c]) s)
  | PDict d => Ok (map (λ p, PStr p.1) d)
  | _ => Err (Raised (TypeError "object is not iterable"))
  end.
End reading.

(** [d[k] = v] when the optional text is there and not empty *)
Definition opt_text (k : string) (v : option str) : list (str * pyval) :=
  match v with None | Some [] => [] | Some s => [(lit k, PStr s)] end.
Definition opt_int (k : string) (v : option Z) : list (str * pyval) :=
  match v with None => [] | Some z => [(lit k, PInt z)] end.

(** * Keys and manifests *)

Record IssuerKey := MkIssuerKey {
  key_id : str;
  public_key_hash : str;
  algorithm : str;
  valid_from : Z;
  valid_until : option Z;
  key_status : KeyStatus;
}.

Definition key_to_dict (k : IssuerKey) : list (str * pyval) :=
  [(lit "algorithm", PStr (algorithm k)); (lit "keyId", PStr (key_id k));
   (lit "publicKeyHash", PStr (public_key_hash k));
   (lit "status", PStr (status_value (key_status k))); (lit "validFrom", PInt (valid_from k))]
  ++ opt_int "validUntil" (valid_until k).

Definition key_from_dict `{Unicode} (obj : pyval) : result ikt_error IssuerKey :=
  match obj with
  | PDict d =>
      status ← parse_status (py_str (default (PStr (lit "active")) (dict_get (lit "status") d)));
      kid ← str_item "keyId" d;
      pkh ← hex_item "publicKeyHash" d;
      alg ← str_item "algorithm" d;
      vf ← int_item "validFrom" d;
      vu ← if_not_none "validUntil" d (int_item "validUntil" d);
      Ok (MkIssuerKey kid pkh alg vf vu status)
  | _ => Err (Raised AttributeError)
  end.

Record IssuerManifest := MkIssuerManifest {
  m_organization_identity_hash : str;
  m_issuer_address : str;
  m_active_keys : list IssuerKey;
  m_policy_hash : str;
  m_valid_from : Z;
  m_valid_until : option Z;
  m_predecessor : option str;
  m_successor : option str;
  m_signature_hash : option str;
  m_version : Z;
  m_protocol : str;
}.

(** The dictionary without [signatureHash], the part that is hashed. *)
Definition manifest_payload (m : IssuerManifest) : list (str * pyval) :=
  [(lit "activeKeys", PList (map (λ k, PDict (key_to_dict k)) (m_active_keys m)));
   (lit "issuerAddress", PStr (m_issuer_address m));
   (lit "organizationIdentityHash", PStr (m_organization_identity_hash m));
   (lit "policyHash", PStr (m_policy_hash m));
   (lit "protocol", PStr (m_protocol m));
   (lit "validFrom", PInt (m_valid_from m));
   (lit "version", PInt (m_version m))]
  ++ opt_int "validUntil" (m_valid_until m)
  ++ opt_text "predecessorManifestHash" (m_predecessor m)
  ++ opt_text "successorManifestHash" (m_successor m).

Definition manifest_to_dict (m : IssuerManifest) : list (str * pyval) :=
  manifest_payload m ++ opt_text "signatureHash" (m_signature_hash m).

Definition manifest_from_dict `{Unicode} (d : list (str * pyval)) : result ikt_error IssuerManifest :=
  ensure (bool_decide (get_or_none_str (lit "protocol") d = Some PROTOCOL))
    (TransparencyError "unsupported issuer transparency protocol");;
  v ← map_err Raised (py_to_int (default (PInt 0) (dict_get (lit "version") d)));
  ensure (bool_decide (v ∈ SUPPORTED_VERSIONS))
    (TransparencyError "unsupported issuer transparency version");;
  ks ← py_iter (default (PList []) (dict_get (lit "activeKeys") d));
  keys ← result_mapM key_from_dict ks;
  org ← hex_item "organizationIdentityHash" d;
  addr ← str_item "issuerAddress" d;
  pol ← hex_item "policyHash" d;
  vf ← int_item "validFrom" d;
  vu ← if_not_none "validUntil" d (int_item "validUntil" d);
  pred ← if_truthy "predecessorManifestHash" d (hex_item "predecessorManifestHash" d);
  succ ← if_truthy "successorManifestHash" d (hex_item "successorManifestHash" d);
  sig ← if_truthy "signatureHash" d (hex_item "signatureHash" d);
  ver ← int_item "version" d;
  proto ← str_item "protocol" d;
  Ok (MkIssuerManifest org addr keys pol vf vu pred succ sig ver proto).

(** [payload.pop("signatureHash", None)], encoding, and the size checks.  The
    text is returned as its UTF-8 bytes. *)
Definition canonicalize_manifest (m : IssuerManifest) : result ikt_error bytes :=
  encoded ← canonical_json (PDict (dict_del (lit "signatureHash") (manifest_to_dict m)));
  ensure (negb (MAX_MANIFEST_BYTES <? zlen encoded))
    (TransparencyError "issuer manifest exceeds size bound");;
  ensure (negb (MAX_ACTIVE_KEYS <? zlen (m_active_keys m)))
    (TransparencyError "active key count exceeds bound");;
  ensure (negb (bool_decide (m_issuer_address m = []))) (TransparencyError "issuerAddress is required");;
  Ok encoded.

Definition manifest_hash (m : IssuerManifest) : result ikt_error str :=
  c ← canonicalize_manifest m; Ok (sha256_hex c).

(** * Events and the chain head *)

Record DirectoryEvent := MkEvent {
  ev_type : EventType;
  ev_sequence : Z;
  ev_timestamp : Z;
  ev_organization : str;
  ev_key_id : str;
  ev_public_key_hash : str;
  ev_previous : option str;
  ev_related : option str;
  ev_manifest_hash : option str;
  ev_reason_hash : option str;
}.

#[export] Instance DirectoryEvent_eq_dec : EqDecision DirectoryEvent.
Proof. solve_decision. Defined.

Definition event_to_dict (e : DirectoryEvent) : list (str * pyval) :=
  [(lit "eventType", PStr (event_value (ev_type e))); (lit "keyId", PStr (ev_key_id e));
   (lit "organizationIdentityHash", PStr (ev_organization e));
   (lit "publicKeyHash", PStr (ev_public_key_hash e));
   (lit "sequence", PInt (ev_sequence e)); (lit "timestamp", PInt (ev_timestamp e))]
  ++ opt_text "previousEventHash" (ev_previous e)
  ++ opt_text "relatedKeyId" (ev_related e)
  ++ opt_text "manifestHash" (ev_manifest_hash e)
  ++ opt_text "reasonHash" (ev_reason_hash e).

Definition event_from_dict `{Unicode} (d : list (str * pyval)) : result ikt_error DirectoryEvent :=
  tt ← str_item "eventType" d;
  ty ← parse_event_type tt;
  seq ← int_item "sequence" d;
  ts ← int_item "timestamp" d;
  org ← hex_item "organizationIdentityHash" d;
  kid ← str_item "keyId" d;
  pkh ← hex_item "publicKeyHash" d;
  prev ← if_truthy "previousEventHash" d (hex_item "previousEventHash" d);
  rel ← if_truthy "relatedKeyId" d (str_item "relatedKeyId" d);
  mh ← if_truthy "manifestHash" d (hex_item "manifestHash" d);
  rh ← if_truthy "reasonHash" d (hex_item "reasonHash" d);
  Ok (MkEvent ty seq ts org kid pkh prev rel mh rh).

Definition event_hash (e : DirectoryEvent) : result ikt_error str :=
  b ← canonical_json (PDict (event_to_dict e)); Ok (sha256_hex b).

(** One step of the chain: [_sha256_hex((head + event_hash(ev)).encode("utf-8"))];
    both texts are hexadecimal, so the encoding is the text itself. *)
Definition chain_step (head : str) (e : DirectoryEvent) : result ikt_error str :=
  h ← event_hash e; Ok (sha256_hex (head ++ h)).

Definition zero_head : str := replicate 64 48.

Definition compute_tree_head (events : list DirectoryEvent) : result ikt_error str :=
  result_foldl chain_step events zero_head.

(** * Checkpoints *)

Record DirectoryCheckpoint := MkCheckpoint {
  tree_head_hash : str;
  event_count : Z;
  cp_timestamp : Z;
  cp_organization : str;
  cp_manifest_hash : str;
  cp_signature_hash : option str;
  cp_version : Z;
  cp_protocol : str;
}.

Definition checkpoint_to_dict (c : DirectoryCheckpoint) : list (str * pyval) :=
  [(lit "eventCount", PInt (event_count c)); (lit "manifestHash", PStr (cp_manifest_hash c));
   (lit "organizationIdentityHash", PStr (cp_organization c)); (lit "protocol", PStr (cp_protocol c));
   (lit "timestamp", PInt (cp_timestamp c)); (lit "treeHeadHash", PStr (tree_head_hash c));
   (lit "version", PInt (cp_version c))]
  ++ opt_text "signatureHash" (cp_signature_hash c).

Definition checkpoint_from_dict `{Unicode} (d : list (str * pyval)) :
    result ikt_error DirectoryCheckpoint :=
  ensure (bool_decide (get_or_none_str (lit "protocol") d = Some PROTOCOL))
    (TransparencyError "unsupported checkpoint protocol");;
  head ← hex_item "treeHeadHash" d;
  count ← int_item "eventCount" d;
  ts ← int_item "timestamp" d;
  org ← hex_item "organizationIdentityHash" d;
  mh ← hex_item "manifestHash" d;
  sig ← if_truthy "signatureHash" d (hex_item "signatureHash" d);
  ver ← map_err Raised (py_to_int (default (PInt VERSION) (dict_get (lit "version") d)));
  Ok (MkCheckpoint head count ts org mh sig ver
    (py_str (default (PStr PROTOCOL) (dict_get (lit "protocol") d)))).

Definition canonicalize_checkpoint (c : DirectoryCheckpoint) : result ikt_error bytes :=
  encoded ← canonical_json (PDict (dict_del (lit "signatureHash") (checkpoint_to_dict c)));
  ensure (negb (MAX_CHECKPOINT_BYTES <? zlen encoded)) (TransparencyError "checkpoint exceeds size bound");;
  Ok encoded.

Definition checkpoint_hash (c : DirectoryCheckpoint) : result ikt_error str :=
  b ← canonicalize_checkpoint c; Ok (sha256_hex b).

(** * The directory *)

Record IssuerDirectory := MkDirectory {
  d_organization : str;
  d_events : list DirectoryEvent;
  d_keys : gmap str IssuerKey;
  d_current_manifest : option IssuerManifest;
  d_manifests_by_hash : gmap str IssuerManifest;
}.

Definition empty_directory (org : str) : IssuerDirectory := MkDirectory org [] ∅ None ∅.

(** [IssuerKey(..., valid_until=ts, status=s)] copied from [k] *)
Definition close_key (k : IssuerKey) (ts : Z) (s : KeyStatus) : IssuerKey :=
  MkIssuerKey (key_id k) (public_key_hash k) (algorithm k) (valid_from k) (Some ts) s.

(** The checks of the position of the event in the log. *)
Definition check_position (d : IssuerDirectory) (e : DirectoryEvent) : result ikt_error unit :=
  ensure (zlen (d_events d) <? MAX_EVENTS) (TransparencyError "event log exceeds bound");;
  ensure (bool_decide (ev_organization e = d_organization d))
    (TransparencyError "event organizationIdentityHash mismatch");;
  ensure (ev_sequence e =? zlen (d_events d)) (TransparencyError "non-monotonic sequence");;
  match last (d_events d) with
  | None =>
      ensure (bool_decide (ev_previous e = None))
        (TransparencyError "genesis event must not set previousEventHash")
  | Some le =>
      prev ← event_hash le;
      ensure (bool_decide (ev_previous e = Some prev))
        (TransparencyError "broken event chain (previousEventHash mismatch)")
  end.

(** The effect of the event on the keys. *)
Definition apply_event (keys : gmap str IssuerKey) (e : DirectoryEvent) :
    result ikt_error (gmap str IssuerKey) :=
  match ev_type e with
  | ACTIVATION =>
      match keys !! ev_key_id e with
      | Some k =>
          ensure (negb (bool_decide (key_status k = ACTIVE)))
            (TransparencyError "conflicting activation for active key")
      | None => Ok ()
      end;;
      Ok (<[ev_key_id e := MkIssuerKey (ev_key_id e) (ev_public_key_hash e) (lit "ed25519")
             (ev_timestamp e) None ACTIVE]> keys)
  | ROTATION =>
      match ev_related e with
      | None | Some [] => Err (TransparencyError "rotation requires relatedKeyId (predecessor)")
      | Some related =>
          match keys !! related with
          | None => Err (TransparencyError "broken rotation link: unknown predecessor key")
          | Some pred =>
              ensure (negb (bool_decide (key_status pred = COMPROMISED)))
                (TransparencyError "cannot rotate from compromised key without retirement");;
              Ok (<[ev_key_id e := MkIssuerKey (ev_key_id e) (ev_public_key_hash e) (algorithm pred)
                     (ev_timestamp e) None ACTIVE]>
                  (<[related := close_key pred (ev_timestamp e) ROTATED]> keys))
          end
      end
  | COMPROMISE =>
      match keys !! ev_key_id e with
      | None => Err (TransparencyError "compromise of unknown key")
      | Some k => Ok (<[ev_key_id e := close_key k (ev_timestamp e) COMPROMISED]> keys)
      end
  | RETIREMENT =>
      match keys !! ev_key_id e with
      | None => Err (TransparencyError "retirement of unknown key")
      | Some k => Ok (<[ev_key_id e := close_key k (ev_timestamp e) RETIRED]> keys)
      end
  | CHECKPOINT => Ok keys
  end.

Definition append_event (d : IssuerDirectory) (e : DirectoryEvent) : result ikt_error IssuerDirectory :=
  check_position d e;;
  keys ← apply_event (d_keys d) e;
  Ok (MkDirectory (d_organization d) (d_events d ++ [e]) keys (d_current_manifest d)
       (d_manifests_by_hash d)).

(** The earlier manifest with its [successor_manifest_hash] set. *)
Definition link_forward (m : IssuerManifest) (h : str) : IssuerManifest :=
  MkIssuerManifest (m_organization_identity_hash m) (m_issuer_address m) (m_active_keys m)
    (m_policy_hash m) (m_valid_from m) (m_valid_until m) (m_predecessor m) (Some h)
    (m_signature_hash m) (m_version m) (m_protocol m).

Definition publish_manifest (d : IssuerDirectory) (m : IssuerManifest) :
    result ikt_error (str * IssuerDirectory) :=
  ensure (bool_decide (m_organization_identity_hash m = d_organization d))
    (TransparencyError "manifest organizationIdentityHash mismatch");;
  h ← manifest_hash m;
  by_hash ← match d_current_manifest d with
    | None => Ok (d_manifests_by_hash d)
    | Some cur =>
        prev_h ← manifest_hash cur;
        ensure (bool_decide (m_predecessor m = Some prev_h))
          (TransparencyError "broken rotation link: predecessorManifestHash mismatch");;
        Ok (<[prev_h := link_forward cur h]> (d_manifests_by_hash d))
    end;
  Ok (h, MkDirectory (d_organization d) (d_events d) (d_keys d) (Some m) (<[h := m]> by_hash)).

Definition tree_head (d : IssuerDirectory) : result ikt_error str := compute_tree_head (d_events d).

(** [now] is [int(time.time())], read when no timestamp is given. *)
Definition make_checkpoint (d : IssuerDirectory) (now : Z) (timestamp : option Z)
    (signature_hash : option str) : result ikt_error DirectoryCheckpoint :=
  match d_current_manifest d with
  | None => Err (TransparencyError "cannot checkpoint without a published manifest")
  | Some m =>
      head ← tree_head d;
      mh ← manifest_hash m;
      Ok (MkCheckpoint head (zlen (d_events d)) (default now timestamp) (d_organization d) mh
           signature_hash VERSION PROTOCOL)
  end.

Definition rebuild_directory (org : str) (events : list DirectoryEvent)
    (manifests : list IssuerManifest) : result ikt_error IssuerDirectory :=
  d ← result_foldl append_event events (empty_directory org);
  result_foldl (λ d m, '(_, d) ← publish_manifest d m; Ok d) manifests d.

(** * Consistency checks *)

(** [errors.append(msg)] under a condition *)
Definition note (b : bool) (msg : string) : list string := if b then [msg] else [].

(** [l[:n]] for any integer [n] *)
Definition py_prefix {A} (l : list A) (n : Z) : list A :=
  if n <? 0 then take (Z.to_nat (zlen l + n)) l else take (Z.to_nat n) l.

Definition verify_checkpoint_consistency (d : IssuerDirectory) (c : DirectoryCheckpoint) :
    result ikt_error (list string) :=
  let n := zlen (d_events d) in
  e3 ← (if event_count c <? n then
          prefix_head ← compute_tree_head (py_prefix (d_events d) (event_count c));
          Ok (note (negb (bool_decide (tree_head_hash c = prefix_head)))
                "checkpoint tree head diverges from local prefix (split view)")
        else
          head ← tree_head d;
          Ok (note (negb (bool_decide (tree_head_hash c = head)))
                "checkpoint tree head mismatch (split view or tampering)"));
  e4 ← match d_current_manifest d with
       | None => Ok []
       | Some m =>
           local_mh ← manifest_hash m;
           Ok (note ((event_count c =? n) && negb (bool_decide (cp_manifest_hash c = local_mh)))
                 "conflicting manifests at same tree head")
       end;
  Ok (note (negb (bool_decide (cp_organization c = d_organization d))) "organizationIdentityHash mismatch"
      ++ note (n <? event_count c) "checkpoint eventCount exceeds local log (possible split view)"
      ++ e3 ++ e4).

Definition detect_rollback (previously_seen candidate : DirectoryCheckpoint) : list string :=
  note (negb (bool_decide (cp_organization candidate = cp_organization previously_seen)))
    "organizationIdentityHash changed across checkpoints"
  ++ note (event_count candidate <? event_count previously_seen) "checkpoint rollback: eventCount decreased"
  ++ note ((event_count candidate =? event_count previously_seen)
           && negb (bool_decide (tree_head_hash candidate = tree_head_hash previously_seen)))
    "equivocating checkpoints at same eventCount (split view)"
  ++ note ((event_count candidate =? event_count previously_seen)
           && negb (bool_decide (cp_manifest_hash candidate = cp_manifest_hash previously_seen)))
    "conflicting manifests at same eventCount".

(** * Freshness and key validity *)

Record DirectoryCache := MkDirectoryCache {
  cached_checkpoint : DirectoryCheckpoint;
  fetched_at : Z;
  max_age_seconds : Z;
}.

Definition age_seconds (c : DirectoryCache) (now : Z) : Z := Z.max 0 (now - fetched_at c).
Definition is_fresh (c : DirectoryCache) (now : Z) (max_age : option Z) : bool :=
  age_seconds c now <=? default (max_age_seconds c) max_age.

Definition require_fresh_checkpoint (c : DirectoryCache) (high_assurance : bool) (now : Z) :
    result ikt_error DirectoryCheckpoint :=
  let max_age := if high_assurance then HIGH_ASSURANCE_FRESHNESS_SECONDS else max_age_seconds c in
  if is_fresh c now (Some max_age) then Ok (cached_checkpoint c) else Err (FreshnessError high_assurance).

Definition key_valid_for_historical_signature (d : IssuerDirectory) (kid : str) (t : Z) : bool :=
  match d_keys d !! kid with
  | None => false
  | Some k =>
      negb (t <? valid_from k)
      && match valid_until k with None => true | Some u => negb (u <=? t) end
  end.

Definition key_was_compromised_at (d : IssuerDirectory) (kid : str) (at_ : Z) : bool :=
  match d_keys d !! kid with
  | Some k =>
      bool_decide (key_status k = COMPROMISED)
      && match valid_until k with None => false | Some u => u <=? at_ end
  | None => false
  end.

Definition create_activation_event `{Unicode} (org kid pkh : str) (sequence timestamp : Z)
    (previous manifest : option str) : result ikt_error DirectoryEvent :=
  o ← require_hex "organizationIdentityHash" org;
  p ← require_hex "publicKeyHash" pkh;
  Ok (MkEvent ACTIVATION sequence timestamp o kid p previous None manifest None).

Definition create_rotation_event `{Unicode} (org kid pkh predecessor : str) (sequence timestamp : Z)
    (previous : str) (manifest : option str) : result ikt_error DirectoryEvent :=
  o ← require_hex "organizationIdentityHash" org;
  p ← require_hex "publicKeyHash" pkh;
  Ok (MkEvent ROTATION sequence timestamp o kid p (Some previous) (Some predecessor) manifest None).

(** * Canonical events *)

(** [to_dict] does not tell an empty optional text from a missing one. *)
Definition opt_norm (v : option str) : option str :=
  match v with Some [] => None | _ => v end.
Definition event_norm (e : DirectoryEvent) : DirectoryEvent :=
  MkEvent (ev_type e) (ev_sequence e) (ev_timestamp e) (ev_organization e) (ev_key_id e)
    (ev_public_key_hash e) (opt_norm (ev_previous e)) (opt_norm (ev_related e))
    (opt_norm (ev_manifest_hash e)) (opt_norm (ev_reason_hash e)).

(** Text without lone surrogates and integers that can be printed. *)
Definition event_wf (e : DirectoryEvent) : bool := plain (PDict (event_to_dict e)).

Lemma dict_get_opt_text k k' v :
  dict_get (lit k) (opt_text k' v) =
  if decide (lit k = lit k') then PStr <$> opt_norm v else None.
Proof. by destruct v as [[|c s]|]; cbn; case_decide. Qed.

Lemma dict_get_opt_int k k' v :
  dict_get (lit k) (opt_int k' v) = if decide (lit k = lit k') then PInt <$> v else None.
Proof. by destruct v; cbn; case_decide. Qed.

(** Evaluates a lookup in one of the dictionaries above. *)
Ltac dict_compute :=
  rewrite ?dict_get_app, ?dict_get_opt_text, ?dict_get_opt_int; cbn [dict_get];
  repeat match goal with
  | |- context [decide (lit ?a = lit ?b)] =>
      first [rewrite (decide_True (P := lit a = lit b)) by reflexivity
            |rewrite (decide_False (P := lit a = lit b)) by (vm_compute; discriminate)]
  end;
  try (by repeat case_match).

Lemma event_dict_get e :
  let d := event_to_dict e in
  dict_get (lit "eventType") d = Some (PStr (event_value (ev_type e))) ∧
  dict_get (lit "keyId") d = Some (PStr (ev_key_id e)) ∧
  dict_get (lit "organizationIdentityHash") d = Some (PStr (ev_organization e)) ∧
  dict_get (lit "publicKeyHash") d = Some (PStr (ev_public_key_hash e)) ∧
  dict_get (lit "sequence") d = Some (PInt (ev_sequence e)) ∧
  dict_get (lit "timestamp") d = Some (PInt (ev_timestamp e)) ∧
  dict_get (lit "previousEventHash") d = PStr <$> opt_norm (ev_previous e) ∧
  dict_get (lit "relatedKeyId") d = PStr <$> opt_norm (ev_related e) ∧
  dict_get (lit "manifestHash") d = PStr <$> opt_norm (ev_manifest_hash e) ∧
  dict_get (lit "reasonHash") d = PStr <$> opt_norm (ev_reason_hash e).
Proof. cbv zeta. unfold event_to_dict. split_and!; dict_compute. Qed.

Lemma event_value_inj t t' : event_value t = event_value t' → t = t'.
Proof. by destruct t, t'. Qed.

Lemma canon_atom_text (a b : option str) :
  canon <$> (PStr <$> a) = canon <$> (PStr <$> b) → a = b.
Proof. destruct a, b; cbn; congruence. Qed.

Lemma event_wf_nodup e : event_wf e = true → NoDup (event_to_dict e).*1.
Proof. unfold event_wf. cbn [plain]. intros [_ Hnd]%andb_true_iff. by apply bool_decide_eq_true in Hnd. Qed.

(** The canonical form determines the event up to empty optional texts. *)
Lemma event_canon_inj e e' :
  event_wf e = true → event_wf e' = true →
  canon (PDict (event_to_dict e)) = canon (PDict (event_to_dict e')) → event_norm e = event_norm e'.
Proof.
  intros Hw Hw' Heq.
  assert (∀ k, canon <$> dict_get k (event_to_dict e) = canon <$> dict_get k (event_to_dict e')) as Hk.
  { intros k. apply canon_dict_inj; [by apply event_wf_nodup..|done]. }
  pose proof (event_dict_get e) as (A1 & A2 & A3 & A4 & A5 & A6 & A7 & A8 & A9 & A10).
  pose proof (event_dict_get e') as (B1 & B2 & B3 & B4 & B5 & B6 & B7 & B8 & B9 & B10).
  pose proof (Hk (lit "eventType")) as H1. rewrite A1, B1 in H1.
  pose proof (Hk (lit "keyId")) as H2. rewrite A2, B2 in H2.
  pose proof (Hk (lit "organizationIdentityHash")) as H3. rewrite A3, B3 in H3.
  pose proof (Hk (lit "publicKeyHash")) as H4. rewrite A4, B4 in H4.
  pose proof (Hk (lit "sequence")) as H5. rewrite A5, B5 in H5.
  pose proof (Hk (lit "timestamp")) as H6. rewrite A6, B6 in H6.
  pose proof (Hk (lit "previousEventHash")) as H7. rewrite A7, B7 in H7. apply canon_atom_text in H7.
  pose proof (Hk (lit "relatedKeyId")) as H8. rewrite A8, B8 in H8. apply canon_atom_text in H8.
  pose proof (Hk (lit "manifestHash")) as H9. rewrite A9, B9 in H9. apply canon_atom_text in H9.
  pose proof (Hk (lit "reasonHash")) as H10. rewrite A10, B10 in H10. apply canon_atom_text in H10.
  injection H1 as H1%event_value_inj. injection H2 as H2. injection H3 as H3.
  injection H4 as H4. injection H5 as H5. injection H6 as H6. unfold event_norm. congruence.
Qed.

(** * The hash chain *)

(** What the chain hashes: the canonical text of each event, and each head with the
    hash of the next event. *)
Fixpoint chain_messages (head : str) (events : list DirectoryEvent) : list bytes :=
  match events with
  | [] => []
  | e :: events =>
      match canonical_json (PDict (event_to_dict e)) with
      | Ok b => b :: (head ++ sha256_hex b) :: chain_messages (sha256_hex (head ++ sha256_hex b)) events
      | Err _ => []
      end
  end.

(** A collision among the messages of two logs. *)
Definition chain_collision (l l' : list DirectoryEvent) : Prop :=
  ∃ m m', m ∈ chain_messages zero_head l ∧ m' ∈ chain_messages zero_head l' ∧ sha256_collision m m'.

Lemma result_foldl_app {E A S} (f : S → A → result E S) l l' s :
  result_foldl f (l ++ l') s = result_foldl f l s ≫= result_foldl f l'.
Proof.
  revert s. induction l as [|x l IH]; intros s; cbn; [done|].
  destruct (f s x) as [s'|e]; cbn; [apply IH|done].
Qed.

Lemma chain_step_ok head e h :
  chain_step head e = Ok h →
  ∃ b, canonical_json (PDict (event_to_dict e)) = Ok b ∧ h = sha256_hex (head ++ sha256_hex b).
Proof.
  unfold chain_step, event_hash. intros (x & (b & Hb & [= <-])%bind_ok & [= <-])%bind_ok. eauto.
Qed.

(** The messages of a log end with those of its last event. *)
Lemma chain_messages_snoc l e head h b :
  result_foldl chain_step l head = Ok h → canonical_json (PDict (event_to_dict e)) = Ok b →
  chain_messages head (l ++ [e]) = chain_messages head l ++ [b; h ++ sha256_hex b].
Proof.
  revert head. induction l as [|x l IH]; intros head Hh Hb;
    cbn [chain_messages app result_foldl] in *.
  - injection Hh as <-. by rewrite Hb.
  - apply bind_ok in Hh as (h1 & H1 & Hh). apply chain_step_ok in H1 as (b1 & Hb1 & ->).
    rewrite Hb1, <- !app_comm_cons. by rewrite (IH _ Hh Hb).
Qed.

Lemma canonical_event_inj e e' b :
  event_wf e = true → event_wf e' = true →
  canonical_json (PDict (event_to_dict e)) = Ok b →
  canonical_json (PDict (event_to_dict e')) = Ok b → event_norm e = event_norm e'.
Proof.
  unfold canonical_json. intros Hw Hw' Hb Hb'. repeat case_match; try done. simplify_eq.
  apply event_canon_inj; [done..|].
  eapply (@json_bytes_inj (λ s, PyFloat s s (Ok 0) false)); done.
Qed.

Lemma length_zero_head : length zero_head = 64%nat.
Proof. apply length_replicate. Qed.

Lemma head_length l head h :
  length head = 64%nat → result_foldl chain_step l head = Ok h → length h = 64%nat.
Proof.
  revert head. induction l as [|e l IH]; intros head Hl Hh; cbn in Hh; [by simplify_eq|].
  apply bind_ok in Hh as (h1 & H1 & Hh). apply chain_step_ok in H1 as (b & _ & ->).
  eapply IH; [|exact Hh]. apply length_sha256_hex.
Qed.

(** Equal heads of logs of equal length: the logs are the same, or the chain
    contains a collision. *)
Lemma tree_head_inj l l' h :
  length l = length l' → forallb event_wf l = true → forallb event_wf l' = true →
  compute_tree_head l = Ok h → compute_tree_head l' = Ok h →
  event_norm <$> l = event_norm <$> l' ∨ chain_collision l l'.
Proof.
  unfold compute_tree_head. revert l' h. induction l as [|e l IH] using rev_ind; intros l' h Hlen Hw Hw' Hh Hh'.
  { destruct l'; [by left|done]. }
  destruct l' as [|e' l' _] using rev_ind; [rewrite length_app in Hlen; cbn in Hlen; lia|].
  rewrite !length_app in Hlen. cbn in Hlen. rewrite !forallb_app in Hw, Hw'.
  cbn [forallb] in Hw, Hw'. apply andb_true_iff in Hw as [Hw [He _]%andb_true_iff].
  apply andb_true_iff in Hw' as [Hw' [He' _]%andb_true_iff].
  rewrite result_foldl_app in Hh, Hh'.
  apply bind_ok in Hh as (h1 & Hd & Hh). apply bind_ok in Hh' as (h1' & Hd' & Hh').
  cbn in Hh, Hh'. apply bind_ok in Hh as (x & Hx & [= <-]). apply bind_ok in Hh' as (x' & Hx' & [= ->]).
  apply chain_step_ok in Hx as (b & Hb & Hx). apply chain_step_ok in Hx' as (b' & Hb' & Hx').
  pose proof (chain_messages_snoc _ _ _ _ _ Hd Hb) as Hm.
  pose proof (chain_messages_snoc _ _ _ _ _ Hd' Hb') as Hm'.
  unfold chain_collision. rewrite Hm, Hm'.
  rewrite Hx in Hx'. apply sha256_hex_eq in Hx' as [Heq|Hc]; [|right; exists (h1 ++ sha256_hex b), (h1' ++ sha256_hex b'); set_solver].
  apply list_eq_length_app_inv in Heq as [-> Hs].
  2:{ by rewrite (head_length _ _ _ length_zero_head Hd), (head_length _ _ _ length_zero_head Hd'). }
  apply sha256_hex_eq in Hs as [->|Hc]; [|right; exists b, b'; set_solver].
  destruct (IH l' h1' ltac:(lia) ltac:(done) ltac:(done) Hd Hd') as [IHl|(m & m' & Hi & Hi' & Hc)].
  - left. rewrite !fmap_app, IHl, !list_fmap_singleton. f_equal. f_equal.
    by eapply (canonical_event_inj e e' b').
  - right. exists m, m'. set_solver.
Qed.

(** * The log *)

(** What an accepted log looks like. *)
Definition log_ok (org : str) (events : list DirectoryEvent) : Prop :=
  zlen events ≤ MAX_EVENTS ∧
  ∀ i e, events !! i = Some e →
    ev_sequence e = Z.of_nat i ∧ ev_organization e = org ∧
    match i with
    | O => ev_previous e = None
    | S j => ∃ p h, events !! j = Some p ∧ event_hash p = Ok h ∧ ev_previous e = Some h
    end.

Lemma append_event_inv d e d' :
  append_event d e = Ok d' →
  check_position d e = Ok () ∧ ∃ keys, apply_event (d_keys d) e = Ok keys ∧
  d' = MkDirectory (d_organization d) (d_events d ++ [e]) keys (d_current_manifest d) (d_manifests_by_hash d).
Proof. unfold append_event. intros [Hc (keys & Hk & [= <-])%bind_ok]%seq_ok. eauto. Qed.

Lemma append_log_ok d e d' :
  log_ok (d_organization d) (d_events d) → append_event d e = Ok d' →
  d_organization d' = d_organization d ∧ log_ok (d_organization d') (d_events d').
Proof.
  intros [Hlen Hlog] (Hc & keys & _ & ->)%append_event_inv. cbn. split; [done|].
  unfold check_position in Hc. apply seq_ok in Hc as [Hb Hc]. apply seq_ok in Hc as [Ho Hc].
  apply seq_ok in Hc as [Hs Hc]. 
  apply ensure_ok in Hb, Ho, Hs. bool_inv.
  split; [unfold zlen in *; rewrite length_app; cbn; lia|].
  intros i x Hi. apply lookup_app_Some in Hi as [Hi|[Hge Hi]].
  - destruct (Hlog i x Hi) as (? & ? & Hprev). split_and!; [done|done|]. destruct i as [|j]; [done|].
    destruct Hprev as (p & h & Hp & ?). exists p, h. split; [|done].
    rewrite lookup_app_l; [done|]. by apply lookup_lt_Some in Hp.
  - apply list_lookup_singleton_Some in Hi as [Hi <-].
    assert (i = length (d_events d)) as -> by lia. split_and!; [done|done|].
    destruct (last (d_events d)) as [le|] eqn:Hl.
    + apply bind_ok in Hc as (h & Hh & Hc). apply ensure_ok in Hc. bool_inv.
      rewrite last_lookup in Hl. destruct (length (d_events d)) as [|j] eqn:Hj; [|].
      { by apply nil_length_inv in Hj; rewrite Hj in Hl. }
      exists le, h. split_and!; [|done|done]. rewrite lookup_app_l by lia. exact Hl.
    + apply last_None in Hl. rewrite Hl. cbn. apply ensure_ok in Hc. by bool_inv.
Qed.

Lemma publish_events d m h d' :
  publish_manifest d m = Ok (h, d') → d_events d' = d_events d ∧ d_organization d' = d_organization d.
Proof.
  unfold publish_manifest. intros [_ Hd]%seq_ok. apply bind_ok in Hd as (x & _ & Hd).
  by apply bind_ok in Hd as (y & _ & [= <- <-]).
Qed.

Lemma append_all es d d' :
  result_foldl append_event es d = Ok d' →
  d_events d' = d_events d ++ es ∧ d_organization d' = d_organization d ∧
  (log_ok (d_organization d) (d_events d) → log_ok (d_organization d') (d_events d')).
Proof.
  revert d. induction es as [|e es IH]; intros d Hd; cbn in Hd.
  { injection Hd as <-. by rewrite app_nil_r. }
  apply bind_ok in Hd as (d1 & H1 & Hd). destruct (IH d1 Hd) as (-> & Ho & Hl).
  pose proof (append_log_ok d e d1) as Hstep. pose proof (append_event_inv _ _ _ H1) as (_ & keys & _ & Hd1).
  subst d1. cbn in *. rewrite <- app_assoc in *. split_and!; [done|done|]. intros Hlog.
  apply Hl. by apply Hstep.
Qed.

Lemma publish_all ms d d' :
  result_foldl (λ d m, '(_, d) ← publish_manifest d m; Ok d) ms d = Ok d' →
  d_events d' = d_events d ∧ d_organization d' = d_organization d.
Proof.
  revert d. induction ms as [|m ms IH]; intros d Hd; cbn in Hd; [by simplify_eq|].
  apply bind_ok in Hd as (d1 & H1 & Hd). apply bind_ok in H1 as ([h d2] & H2 & [= <-]).
  apply publish_events in H2 as [He Ho]. apply IH in Hd as [-> ->]. by rewrite He, Ho.
Qed.

Lemma note_nil b msg : note b msg = [] ↔ b = false.
Proof. by destruct b. Qed.

(** C24. Rebuilding accepts only well-formed logs: the directory holds exactly the
    given events, at most [MAX_EVENTS] of them, numbered from zero without gaps, all
    of the organisation, the first without a predecessor and every other one carrying
    the hash of the event before it. *)
Theorem rebuilt_log_is_chained org events manifests d :
  rebuild_directory org events manifests = Ok d →
  d_events d = events ∧ log_ok org events.
Proof.
  unfold rebuild_directory. intros (d1 & Ha & Hp)%bind_ok.
  apply append_all in Ha as (He & Ho & Hl). apply publish_all in Hp as [Hpe _].
  cbn in He, Ho. rewrite Hpe, He. split; [done|]. rewrite <- Ho, <- He. apply Hl.
  split; [done|]. intros i e. cbn. by rewrite lookup_nil.
Qed.

(** C23. A checkpoint pins the log: if a checkpoint made from directory [d] verifies
    against [d'] without errors, both are of the same organisation and the log of [d]
    is a prefix of the log of [d'] (events compared as [to_dict] prints them), or the
    two chains contain a SHA-256 collision.  At equal length the manifests have equal
    hashes. *)
Theorem checkpoint_pins_log d d' now ts sig c :
  forallb event_wf (d_events d) = true → forallb event_wf (d_events d') = true →
  make_checkpoint d now ts sig = Ok c →
  verify_checkpoint_consistency d' c = Ok [] →
  let n := length (d_events d) in
  d_organization d = d_organization d' ∧ (n ≤ length (d_events d'))%nat ∧
  (event_norm <$> d_events d = event_norm <$> take n (d_events d') ∨
   chain_collision (d_events d) (take n (d_events d'))) ∧
  (n = length (d_events d') → ∀ m m', d_current_manifest d = Some m → d_current_manifest d' = Some m' →
   manifest_hash m = manifest_hash m').
Proof.
  intros Hw Hw' Hc Hv n. unfold make_checkpoint in Hc.
  destruct (d_current_manifest d) as [m|]; [|done].
  apply bind_ok in Hc as (head & Hh & (mh & Hmh & [= <-])%bind_ok).
  unfold verify_checkpoint_consistency in Hv. cbn [event_count cp_organization tree_head_hash cp_manifest_hash] in Hv.
  apply bind_ok in Hv as (e3 & H3 & (e4 & H4 & [= Hv])%bind_ok).
  apply app_eq_nil in Hv as [Ho Hv]. apply app_eq_nil in Hv as [Hn Hv]. apply app_eq_nil in Hv as [-> ->].
  apply note_nil in Ho, Hn. bool_inv.
  assert (n ≤ length (d_events d'))%nat as Hlen by (unfold n, zlen in *; lia).
  split_and!; [done|done| |].
  - apply (tree_head_inj _ _ head); [rewrite length_take; unfold n in *; lia|done| |done|].
    { apply forallb_Forall, Forall_take, forallb_Forall, Hw'. }
    unfold zlen in H3. destruct (Z.ltb_spec (Z.of_nat (length (d_events d))) (Z.of_nat (length (d_events d')))).
    + apply bind_ok in H3 as (ph & Hph & [= Hnote]). unfold py_prefix in Hph.
      rewrite (proj2 (Z.ltb_ge _ _)), Nat2Z.id in Hph by lia.
      apply note_nil in Hnote. bool_inv. subst head; exact Hph.
    + apply bind_ok in H3 as (ph & Hph & [= Hnote]). unfold tree_head in Hph.
      rewrite take_ge by (unfold n; lia).
      apply note_nil in Hnote. bool_inv. congruence.
  - intros Heq m1 m2 [= <-] Hm2. rewrite Hm2 in H4. apply bind_ok in H4 as (lm & Hlm & [= Hnote]).
    apply note_nil, andb_false_iff in Hnote as [Hb|Hb]; bool_inv.
    + unfold n, zlen in *. lia.
    + congruence.
Qed.

(** * Key history *)

(** The event gives [kid] a new life, with a new [valid_from]. *)
Definition reintroduces (kid : str) (e : DirectoryEvent) : bool :=
  match ev_type e with
  | ACTIVATION | ROTATION => bool_decide (ev_key_id e = kid)
  | _ => false
  end.

(** Validity of a signature time for one key entry. *)
Definition covers (k : IssuerKey) (t : Z) : Prop :=
  valid_from k ≤ t ∧ match valid_until k with None => True | Some u => t < u end.

Lemma key_valid_iff d kid t :
  key_valid_for_historical_signature d kid t = true ↔ ∃ k, d_keys d !! kid = Some k ∧ covers k t.
Proof.
  unfold key_valid_for_historical_signature, covers. destruct (d_keys d !! kid) as [k|]; [|naive_solver].
  rewrite andb_true_iff, negb_true_iff, Z.ltb_ge. split.
  - intros [? Hu]. exists k. split_and!; [done|done|]. destruct (valid_until k); [|done]. bool_inv. lia.
  - intros (k' & [= <-] & ? & Hu). split; [done|]. destruct (valid_until k); [|done].
    apply negb_true_iff, Z.leb_gt. lia.
Qed.

Lemma covers_close k t ts s : covers k t → t < ts → covers (close_key k ts s) t.
Proof. intros [? _] ?. by split. Qed.

Lemma apply_event_covers keys e keys' kid t k :
  apply_event keys e = Ok keys' → t < ev_timestamp e → reintroduces kid e = false →
  keys !! kid = Some k → covers k t → ∃ k', keys' !! kid = Some k' ∧ covers k' t.
Proof.
  unfold apply_event, reintroduces. intros Ha Ht Hre Hk Hc.
  assert (∀ s, covers (close_key k (ev_timestamp e) s) t) as Hclose by (intros; by apply covers_close).
  destruct (ev_type e).
  - apply seq_ok in Ha as [_ [= <-]]. bool_inv. rewrite lookup_insert_ne by done. eauto.
  - destruct (ev_related e) as [[|c r]|]; try done. destruct (keys !! (c :: r)) as [pred|] eqn:Hp; [|done].
    apply seq_ok in Ha as [_ [= <-]]. bool_inv. rewrite lookup_insert_ne by done.
    destruct (decide (kid = c :: r)) as [->|]; [|rewrite lookup_insert_ne by done; eauto].
    rewrite lookup_insert_eq. simplify_eq. eauto.
  - destruct (keys !! ev_key_id e) as [k1|] eqn:Hk1; [|done]. injection Ha as <-.
    destruct (decide (kid = ev_key_id e)) as [->|]; [|rewrite lookup_insert_ne by done; eauto].
    rewrite lookup_insert_eq. simplify_eq. eauto.
  - destruct (keys !! ev_key_id e) as [k1|] eqn:Hk1; [|done]. injection Ha as <-.
    destruct (decide (kid = ev_key_id e)) as [->|]; [|rewrite lookup_insert_ne by done; eauto].
    rewrite lookup_insert_eq. simplify_eq. eauto.
  - simplify_eq. eauto.
Qed.

(** Signatures made while a key was valid stay valid: through any sequence of later
    events (rotation away from the key, retirement, compromise, other keys), unless an
    event introduces the same key identifier again. *)
Theorem historical_signatures_survive es d d' kid t :
  result_foldl append_event es d = Ok d' →
  Forall (λ e, t < ev_timestamp e ∧ reintroduces kid e = false) es →
  key_valid_for_historical_signature d kid t = true →
  key_valid_for_historical_signature d' kid t = true.
Proof.
  intros Hd Hes Hv. revert d Hd Hv. induction Hes as [|e es [Ht Hre] _ IH]; intros d Hd Hv; cbn in Hd.
  { by simplify_eq. }
  apply bind_ok in Hd as (d1 & Ha & Hd). apply (IH d1 Hd).
  apply append_event_inv in Ha as (_ & keys & Ha & ->).
  apply key_valid_iff in Hv as (k & Hk & Hc). apply key_valid_iff. cbn.
  by eapply apply_event_covers.
Qed.

(** Retiring a compromised key erases the compromise: afterwards the key is reported
    as compromised at no time, and signatures made between the compromise and the
    retirement, which were rejected, are accepted. *)
Theorem retirement_clears_compromise d e d' k u t :
  d_keys d !! ev_key_id e = Some k → key_status k = COMPROMISED → valid_until k = Some u →
  append_event d e = Ok d' → ev_type e = RETIREMENT →
  valid_from k ≤ t → u ≤ t → t < ev_timestamp e →
  key_was_compromised_at d (ev_key_id e) t = true ∧
  key_valid_for_historical_signature d (ev_key_id e) t = false ∧
  (∀ t', key_was_compromised_at d' (ev_key_id e) t' = false) ∧
  key_valid_for_historical_signature d' (ev_key_id e) t = true.
Proof.
  intros Hk Hs Hu (_ & keys & Ha & ->)%append_event_inv Hty Hf Hle Hlt.
  unfold apply_event in Ha. rewrite Hty, Hk in Ha. injection Ha as <-.
  unfold key_was_compromised_at, key_valid_for_historical_signature. cbn [d_keys].
  rewrite Hk, lookup_insert_eq. cbn [close_key key_status valid_until valid_from]. rewrite Hs, Hu.
  split_and!; [|..|].
  - apply andb_true_iff. split; [by apply bool_decide_eq_true|by apply Z.leb_le].
  - apply andb_false_iff. right. by apply negb_false_iff, Z.leb_le.
  - done.
  - apply andb_true_iff. split; apply negb_true_iff; [by apply Z.ltb_ge|by apply Z.leb_gt].
Qed.

(** * Superseded manifests *)

Lemma payload_without_signature m :
  dict_del (lit "signatureHash") (manifest_to_dict m) = manifest_payload m.
Proof.
  destruct m as [? ? ? ? ? vu pr su si ? ?]. unfold manifest_to_dict, manifest_payload.
  cbn [m_valid_until m_predecessor m_successor m_signature_hash].
  destruct vu, pr as [[|]|], su as [[|]|], si as [[|]|]; reflexivity.
Qed.

Lemma manifest_hash_ok m h :
  manifest_hash m = Ok h → ∃ b, canonicalize_manifest m = Ok b ∧
  canonical_json (PDict (manifest_payload m)) = Ok b ∧ h = sha256_hex b.
Proof.
  unfold manifest_hash. intros (b & Hb & [= <-])%bind_ok. exists b. split_and!; [done| |done].
  unfold canonicalize_manifest in Hb. rewrite payload_without_signature in Hb.
  apply bind_ok in Hb as (x & Hx & Hb). by repeat (apply seq_ok in Hb as [_ Hb]); simplify_eq.
Qed.

Lemma link_payload m h :
  opt_norm (m_successor m) = None → h ≠ [] →
  manifest_payload (link_forward m h) = manifest_payload m ++ [(lit "successorManifestHash", PStr h)].
Proof.
  intros Hs Hh. unfold manifest_payload. cbn [m_valid_until m_predecessor m_successor link_forward
    m_active_keys m_issuer_address m_organization_identity_hash m_policy_hash m_protocol m_valid_from m_version].
  rewrite <- !app_assoc. do 3 f_equal. destruct (m_successor m) as [[|]|]; try done; by destruct h.
Qed.

Lemma payload_no_successor m :
  opt_norm (m_successor m) = None → dict_get (lit "successorManifestHash") (manifest_payload m) = None.
Proof. intros Hs. unfold manifest_payload. dict_compute. by rewrite Hs. Qed.

Lemma plain_dict_snoc d k v :
  plain (PDict d) = true → forallb scalar k = true → plain v = true → dict_get k d = None →
  plain (PDict (d ++ [(k, v)])) = true.
Proof.
  cbn [plain]. intros [Hd Hnd]%andb_true_iff Hk Hv Hnew. apply andb_true_iff. split.
  - rewrite forallb_app, Hd. cbn. by rewrite Hk, Hv.
  - apply bool_decide_eq_true. apply bool_decide_eq_true in Hnd. rewrite fmap_app.
    apply NoDup_app. split_and!; [done| |apply NoDup_singleton].
    intros x Hx Hin. apply list_elem_of_singleton in Hin as ->. apply dict_get_None in Hnew. done.
Qed.

(** The history kept by [publish_manifest] is not addressed by content: once a
    manifest is superseded, the entry under its hash is a copy with the successor
    filled in, whose canonical text differs; so it hashes to something else, unless
    the two texts are a SHA-256 collision. *)
Theorem superseded_manifest_under_wrong_hash d m h d' cur prev_h :
  plain (PDict (manifest_payload cur)) = true → opt_norm (m_successor cur) = None →
  d_current_manifest d = Some cur → manifest_hash cur = Ok prev_h → prev_h ≠ h →
  publish_manifest d m = Ok (h, d') →
  d_manifests_by_hash d' !! prev_h = Some (link_forward cur h) ∧
  ∀ b b', canonicalize_manifest cur = Ok b → canonicalize_manifest (link_forward cur h) = Ok b' →
    b ≠ b' ∧ (manifest_hash (link_forward cur h) = Ok prev_h → sha256_collision b b').
Proof.
  intros Hpl Hs Hcur Hprev Hne Hpub. unfold publish_manifest in Hpub. rewrite Hcur in Hpub.
  apply seq_ok in Hpub as [_ (h1 & Hh & Hpub)%bind_ok]. rewrite Hprev in Hpub.
  apply bind_ok in Hpub as (bh & Hbh & [= -> <-]). rewrite bind_Ok in Hbh.
  apply seq_ok in Hbh as [_ [= <-]]. cbn. rewrite lookup_insert_ne, lookup_insert_eq by done. split; [done|].
  assert (length h = 64%nat) as Hlen.
  { apply manifest_hash_ok in Hh as (? & _ & _ & ->). apply length_sha256_hex. }
  assert (forallb scalar h = true) as Hhs.
  { apply manifest_hash_ok in Hh as (? & _ & _ & ->). apply forallb_Forall.
    eapply Forall_impl; [apply sha256_hex_lower|]. cbn. unfold is_lower_hex, scalar. intros. lia. }
  intros b b' Hb Hb'.
  assert (manifest_hash (link_forward cur h) = Ok (sha256_hex b')) as Hl by (unfold manifest_hash; by rewrite Hb').
  assert (prev_h = sha256_hex b) as -> by (unfold manifest_hash in Hprev; rewrite Hb in Hprev; by injection Hprev as <-).
  apply manifest_hash_ok in Hprev as (x & Hx & Hj & _). apply manifest_hash_ok in Hl as (x' & Hx' & Hj' & _).
  assert (x = b) as -> by congruence. assert (x' = b') as -> by congruence.
  assert (b ≠ b') as Hbb.
  { intros <-. unfold canonical_json in Hj, Hj'. repeat case_match; try done. simplify_eq.
    assert (h ≠ []) as Hh0 by (by intros ->).
    rewrite link_payload in * by done.
    assert (canon (PDict (manifest_payload cur)) = canon (PDict (manifest_payload cur ++ [(lit "successorManifestHash", PStr h)]))) as Hc.
    { eapply (@json_bytes_inj (λ s, PyFloat s s (Ok 0) false)); [done| |done|done].
      apply plain_dict_snoc; [done|apply lit_scalar|done|by apply payload_no_successor]. }
    apply (f_equal (λ v, match v with PDict l => length l | _ => 0%nat end)) in Hc.
    rewrite !canon_dict in Hc. rewrite !(Permutation_length (sort_items_perm _)), !length_map, length_app in Hc.
    cbn in Hc. lia. }
  split; [done|]. intros Heq. rewrite Hb' in Hx'. unfold manifest_hash in Heq. rewrite Hb' in Heq.
  injection Heq as Heq. destruct (sha256_hex_eq b b') as [|Hc]; [done|done|exact Hc].
Qed.

(** * Events through JSON *)

Definition lower_hex64 (s : str) : bool := (zlen s =? 64) && forallb is_lower_hex s.
Definition opt_ok (p : str → bool) (v : option str) : bool :=
  match v with None => true | Some s => negb (bool_decide (s = [])) && p s end.

(** The events [from_dict] produces from lower-case digests. *)
Definition canonical_event (e : DirectoryEvent) : bool :=
  event_wf e && lower_hex64 (ev_organization e) && lower_hex64 (ev_public_key_hash e)
  && opt_ok lower_hex64 (ev_previous e) && opt_ok (λ _, true) (ev_related e)
  && opt_ok lower_hex64 (ev_manifest_hash e) && opt_ok lower_hex64 (ev_reason_hash e).

Lemma require_hex_lower `{Unicode} name s : lower_hex64 s = true → require_hex name s = Ok s.
Proof.
  unfold lower_hex64. intros [Hl Hs]%andb_true_iff. apply forallb_Forall in Hs.
  unfold require_hex, is_hex_len. rewrite Hl, bool_decide_eq_true_2.
  - f_equal. rewrite py_lower_ascii.
    + clear Hl. induction Hs as [|c s Hc Hs IH]; [done|]. cbn. f_equal; [|exact IH].
      unfold is_lower_hex in Hc. unfold ascii_lower. destruct (Z.leb_spec 65 c), (Z.leb_spec c 90); cbn; lia.
    + eapply Forall_impl; [exact Hs|]. cbn. unfold is_lower_hex. intros. lia.
  - apply py_int_hex; [by intros ->|]. eapply Forall_impl; [exact Hs|]. cbn. unfold is_lower_hex.
    intros c Hc. apply bool_decide_eq_true. unfold hex_val. repeat case_match; eauto; bool_inv; lia.
Qed.

Section event_json.
Context `{Unicode, FloatText}.
Context (e : DirectoryEvent) (d : list (str * pyval)).
Context (Hd : ∀ k, dict_get k d = canon <$> dict_get k (event_to_dict e)).

Lemma str_item_text k s :
  dict_get (lit k) (event_to_dict e) = Some (PStr s) → str_item k d = Ok s.
Proof. intros Hk. unfold str_item, item. by rewrite Hd, Hk. Qed.

Lemma int_item_int k z :
  dict_get (lit k) (event_to_dict e) = Some (PInt z) → int_item k d = Ok z.
Proof. intros Hk. unfold int_item, item. by rewrite Hd, Hk. Qed.

Lemma hex_item_hex k s :
  dict_get (lit k) (event_to_dict e) = Some (PStr s) → lower_hex64 s = true → hex_item k d = Ok s.
Proof.
  intros Hk Hs. unfold hex_item. rewrite (str_item_text k s Hk), bind_Ok. by apply require_hex_lower.
Qed.

Lemma if_truthy_opt k (f : result ikt_error str) (p : str → bool) v :
  dict_get (lit k) (event_to_dict e) = PStr <$> opt_norm v → opt_ok p v = true →
  (∀ s, v = Some s → p s = true → f = Ok s) → if_truthy k d f = Ok v.
Proof.
  intros Hk Hv Hf. unfold if_truthy, get_or_none. rewrite Hd, Hk.
  destruct v as [[|c s]|]; [done| |done]. cbn in Hv. cbn. by rewrite (Hf (c :: s)).
Qed.

Lemma event_from_canonical : canonical_event e = true → event_from_dict d = Ok e.
Proof.
  unfold canonical_event. intros Hc.
  apply andb_true_iff in Hc as [Hc Hrh]. apply andb_true_iff in Hc as [Hc Hmh].
  apply andb_true_iff in Hc as [Hc Hrel]. apply andb_true_iff in Hc as [Hc Hprev].
  apply andb_true_iff in Hc as [Hc Hpk]. apply andb_true_iff in Hc as [_ Horg].
  pose proof (event_dict_get e) as (A1 & A2 & A3 & A4 & A5 & A6 & A7 & A8 & A9 & A10).
  unfold event_from_dict. rewrite (str_item_text _ _ A1), bind_Ok.
  assert (parse_event_type (event_value (ev_type e)) = Ok (ev_type e)) as -> by (by destruct (ev_type e)).
  rewrite bind_Ok, (int_item_int _ _ A5), bind_Ok, (int_item_int _ _ A6), bind_Ok.
  rewrite (hex_item_hex _ _ A3 Horg), bind_Ok, (str_item_text _ _ A2), bind_Ok.
  rewrite (hex_item_hex _ _ A4 Hpk), bind_Ok.
  rewrite (if_truthy_opt _ _ _ _ A7 Hprev), bind_Ok
    by (intros s Hs Hp; apply hex_item_hex; [by rewrite A7, Hs; destruct s|done]).
  rewrite (if_truthy_opt _ _ _ _ A8 Hrel), bind_Ok
    by (intros s Hs _; apply str_item_text; rewrite A8, Hs; rewrite Hs in Hrel; by destruct s).
  rewrite (if_truthy_opt _ _ _ _ A9 Hmh), bind_Ok
    by (intros s Hs Hp; apply hex_item_hex; [by rewrite A9, Hs; destruct s|done]).
  rewrite (if_truthy_opt _ _ _ _ A10 Hrh), bind_Ok
    by (intros s Hs Hp; apply hex_item_hex; [by rewrite A10, Hs; destruct s|done]).
  by destruct e.
Qed.
End event_json.

(** Events survive publication: the canonical JSON of an event with lower-case
    digests loads to a dictionary from which [from_dict] rebuilds the event. *)
Theorem event_json_roundtrip `{Unicode, FloatText} e :
  canonical_event e = true →
  ∃ d, json_loads (json_dumps false (PDict (event_to_dict e))) = Ok (PDict d) ∧
    event_from_dict d = Ok e.
Proof.
  intros Hc. assert (event_wf e = true) as Hw.
  { unfold canonical_event in Hc. do 6 (apply andb_true_iff in Hc as [Hc _]). exact Hc. }
  eexists. split; [rewrite json_loads_dumps by exact Hw; by rewrite canon_dict|].
  apply event_from_canonical; [|done]. intros k. apply dict_get_canon. by apply event_wf_nodup.
Qed.

(** * Witnesses *)

#[local] Instance sample_unicode : Unicode := plain_unicode.
#[local] Instance sample_floats : FloatText := λ s, PyFloat s s (Err OverflowError) false.
#[local] Transparent sha256.

Definition org64 : str := replicate 64 97.
Definition genesis : DirectoryEvent :=
  MkEvent ACTIVATION 0 100 org64 (lit "k1") org64 None None None None.

(** The hash of an event, and an event chained to it. *)
Definition hash_of (e : DirectoryEvent) : str := match event_hash e with Ok h => h | Err _ => [] end.
Definition after (e : DirectoryEvent) (ty : EventType) (ts : Z) (kid : string) (related : option str) : DirectoryEvent :=
  MkEvent ty (ev_sequence e + 1) ts org64 (lit kid) org64 (Some (hash_of e)) related None None.

Definition rotated : DirectoryEvent := Eval vm_compute in after genesis ROTATION 200 "k2" (Some (lit "k1")).
Definition compromised : DirectoryEvent := Eval vm_compute in after genesis COMPROMISE 200 "k1" None.
Definition retired : DirectoryEvent := Eval vm_compute in after compromised RETIREMENT 400 "k1" None.

Definition first_manifest : IssuerManifest :=
  MkIssuerManifest org64 (lit "G") [] org64 0 None None None None 1 PROTOCOL.
Definition second_manifest : IssuerManifest := Eval vm_compute in
  MkIssuerManifest org64 (lit "G") [] org64 1 None
    (match manifest_hash first_manifest with Ok h => Some h | Err _ => None end) None None 1 PROTOCOL.

(** Directories rebuilt from events and manifests, and what they return. *)
Definition dir_of (es : list DirectoryEvent) (ms : list IssuerManifest) : IssuerDirectory :=
  from_ok (empty_directory []) (rebuild_directory org64 es ms).

Definition dir1 : IssuerDirectory := dir_of [genesis] [first_manifest].
Definition dir2 : IssuerDirectory := from_ok dir1 (append_event dir1 rotated).
Definition dir_compromised : IssuerDirectory := dir_of [genesis; compromised] [].
Definition dir_retired : IssuerDirectory := from_ok dir1 (append_event dir_compromised retired).
Definition checkpoint1 : DirectoryCheckpoint :=
  from_ok (MkCheckpoint [] 0 0 [] [] None 0 []) (make_checkpoint dir1 5 None None).
Definition published : str * IssuerDirectory := from_ok ([], dir1) (publish_manifest dir1 second_manifest).
Definition first_hash : str := from_ok [] (manifest_hash first_manifest).

Lemma rebuilt_log_is_chained_witness :
  d_events (dir_of [genesis; rotated] [first_manifest]) = [genesis; rotated] ∧ log_ok org64 [genesis; rotated].
Proof.
  apply (rebuilt_log_is_chained org64 [genesis; rotated] [first_manifest]).
  apply from_ok_spec. vm_compute. reflexivity.
Defined.

Lemma checkpoint_pins_log_witness :
  let n := length (d_events dir1) in
  d_organization dir1 = d_organization dir2 ∧ (n ≤ length (d_events dir2))%nat ∧
  (event_norm <$> d_events dir1 = event_norm <$> take n (d_events dir2) ∨
   chain_collision (d_events dir1) (take n (d_events dir2))) ∧
  (n = length (d_events dir2) → ∀ m m', d_current_manifest dir1 = Some m →
   d_current_manifest dir2 = Some m' → manifest_hash m = manifest_hash m').
Proof.
  apply (checkpoint_pins_log dir1 dir2 5 None None checkpoint1).
  - vm_compute. reflexivity.
  - vm_compute. reflexivity.
  - apply from_ok_spec. vm_compute. reflexivity.
  - vm_compute. reflexivity.
Defined.

Lemma historical_signatures_survive_witness :
  key_valid_for_historical_signature dir2 (lit "k1") 150 = true.
Proof.
  apply (historical_signatures_survive [rotated] dir1 dir2 (lit "k1") 150).
  - cbn [result_foldl]. rewrite (from_ok_spec dir1 (append_event dir1 rotated)); [reflexivity|].
    vm_compute. reflexivity.
  - constructor; [split; [vm_compute; reflexivity|vm_compute; reflexivity]|constructor].
  - vm_compute. reflexivity.
Defined.

Definition key_compromised : IssuerKey := MkIssuerKey (lit "k1") org64 (lit "ed25519") 100 (Some 200) COMPROMISED.

Lemma retirement_clears_compromise_witness :
  key_was_compromised_at dir_compromised (ev_key_id retired) 300 = true ∧
  key_valid_for_historical_signature dir_compromised (ev_key_id retired) 300 = false ∧
  (∀ t', key_was_compromised_at dir_retired (ev_key_id retired) t' = false) ∧
  key_valid_for_historical_signature dir_retired (ev_key_id retired) 300 = true.
Proof.
  apply (retirement_clears_compromise dir_compromised retired dir_retired key_compromised 200 300).
  - vm_compute. reflexivity.
  - reflexivity.
  - reflexivity.
  - apply from_ok_spec. vm_compute. reflexivity.
  - reflexivity.
  - vm_compute. discriminate.
  - vm_compute. discriminate.
  - vm_compute. reflexivity.
Defined.

Lemma superseded_manifest_under_wrong_hash_witness :
  d_manifests_by_hash published.2 !! first_hash = Some (link_forward first_manifest published.1) ∧
  ∀ b b', canonicalize_manifest first_manifest = Ok b →
    canonicalize_manifest (link_forward first_manifest published.1) = Ok b' →
    b ≠ b' ∧ (manifest_hash (link_forward first_manifest published.1) = Ok first_hash → sha256_collision b b').
Proof.
  apply (superseded_manifest_under_wrong_hash dir1 second_manifest published.1 published.2 first_manifest first_hash).
  - vm_compute. reflexivity.
  - reflexivity.
  - vm_compute. reflexivity.
  - apply from_ok_spec. vm_compute. reflexivity.
  - apply (bool_decide_unpack _). vm_compute. exact I.
  - rewrite <- surjective_pairing. apply from_ok_spec. vm_compute. reflexivity.
Defined.

Lemma event_json_roundtrip_witness :
  ∃ d, json_loads (json_dumps false (PDict (event_to_dict rotated))) = Ok (PDict d) ∧
    event_from_dict d = Ok rotated.
Proof. apply event_json_roundtrip. vm_compute. reflexivity. Defined.
