(* ===== verification/Admission.v ===== *)
(** Admission control ([backend/admission.py]): the critical sections of
    [AdmissionController.acquire] and [release], the semaphore, and the interleavings
    of any number of requests as a step relation.  Shown: in every reachable state
    the counters agree with the requests in flight, so the concurrency, queue and
    per-identity limits hold, no section fails on a missing counter, and when the
    last request is gone the controller is back in its initial state. *)
From Stdlib Require Import ZArith Lia.
From stdpp Require Import base decidable strings numbers gmap relations list.
From S2P Require Import Prelude PyStr.

Open Scope Z_scope.

(** * The controller *)

Record limits := Limits {
  max_concurrent : Z;
  max_queue : Z;
  max_per_identity : Z;
}.

Record controller := Controller {
  current_queue : Z;
  identity_counts : gmap str Z;
  semaphore : Z;
}.

(** [threading.Semaphore] refuses a negative initial value. *)
Definition init_controller (l : limits) : result exn controller :=
  if max_concurrent l <? 0 then Err (ValueError "semaphore initial value must be >= 0")
  else Ok (Controller 0 ∅ (max_concurrent l)).

Inductive reject_reason : Type := IdentityLimit | QueueFull | TimedOutReason.

#[export] Instance reject_reason_eq_dec : EqDecision reject_reason.
Proof. solve_decision. Defined.

(** [self._identity_counts.get(identity, 0)] *)
Definition count_of (c : controller) (identity : str) : Z := default 0 (identity_counts c !! identity).

Definition incr_identity (identity : str) (c : controller) : gmap str Z :=
  <[identity := count_of c identity + 1]> (identity_counts c).

(** [self._identity_counts[identity] -= 1], and the entry goes away at zero. *)
Definition decr_identity (identity : str) (counts : gmap str Z) : result exn (gmap str Z) :=
  match counts !! identity with
  | None => Err (KeyError "identity")
  | Some n => Ok (if n - 1 =? 0 then delete identity counts else <[identity := n - 1]> counts)
  end.

(** What the first critical section of [acquire] decides. *)
Inductive entry : Type :=
  | Entered
  | Queued
  | Refused (r : reject_reason).

(** The first [with self._lock] block of [acquire], with the non-blocking
    [self._semaphore.acquire(blocking=False)] inside it. *)
Definition acquire_enter (l : limits) (identity : str) (c : controller) : entry * controller :=
  if max_per_identity l <=? count_of c identity then (Refused IdentityLimit, c)
  else if 0 <? semaphore c then
    (Entered, Controller (current_queue c) (incr_identity identity c) (semaphore c - 1))
  else if max_queue l <=? current_queue c then (Refused QueueFull, c)
  else (Queued, Controller (current_queue c + 1) (incr_identity identity c) (semaphore c)).

(** [self._semaphore.acquire(timeout=...)] that succeeds: [None] while no slot is free. *)
Definition semaphore_take (c : controller) : option controller :=
  if 0 <? semaphore c then Some (Controller (current_queue c) (identity_counts c) (semaphore c - 1))
  else None.

(** The second [with self._lock] block of [acquire]. *)
Definition acquire_leave (identity : str) (acquired : bool) (c : controller) : result exn controller :=
  let queue := current_queue c - 1 in
  if acquired then Ok (Controller queue (identity_counts c) (semaphore c))
  else counts ← decr_identity identity (identity_counts c); Ok (Controller queue counts (semaphore c)).

(** The locked block of [release], then [self._semaphore.release()]. *)
Definition release_enter (identity : str) (c : controller) : result exn controller :=
  counts ← decr_identity identity (identity_counts c);
  Ok (Controller (current_queue c) counts (semaphore c)).
Definition semaphore_release (c : controller) : controller :=
  Controller (current_queue c) (identity_counts c) (semaphore c + 1).

(** * The decorator *)

(** [_get_client_identity] *)
Definition get_client_identity `{Unicode} (forwarded : option str) (remote_addr : option str) : str :=
  match forwarded with
  | Some ((_ :: _) as f) => py_strip (default [] (head (split_on 44 f)))
  | _ => match remote_addr with Some ((_ :: _) as a) => a | _ => lit "unknown" end
  end.

(** The rejection of [require_capacity]: status and [Retry-After], given
    [int(controller.timeout_seconds * 2)]. *)
Definition reject_status (r : reject_reason) : Z :=
  match r with IdentityLimit => 429 | _ => 503 end.
Definition retry_after (twice_timeout : Z) : Z := if twice_timeout =? 0 then 5 else twice_timeout.

(** * Interleavings *)

(** Where a request stands: before [acquire]; waiting for the semaphore; out of the
    wait with or without a slot, before the second block; in the handler; between
    the locked block of [release] and the release of the semaphore; done. *)
Inductive phase : Type :=
  | Arrived
  | Waiting
  | GotSlot
  | WaitExpired
  | Running
  | Releasing
  | Finished
  | Rejected (r : reject_reason).

#[export] Instance phase_eq_dec : EqDecision phase.
Proof. solve_decision. Defined.

Record request := Request { identity : str; at_phase : phase }.

Record system := System { ctl : controller; requests : list request }.

Definition set_phase (i : nat) (r : request) (p : phase) (rs : list request) : list request :=
  <[i := Request (identity r) p]> rs.

(** Which phase the decision of the first block leads to. *)
Definition entry_phase (e : entry) : phase :=
  match e with Entered => Running | Queued => Waiting | Refused r => Rejected r end.

(** One atomic section of one request.  A section that raises is the step to [None]. *)
Inductive step (l : limits) : system → option system → Prop :=
  | step_arrive c rs id :
      step l (System c rs) (Some (System c (rs ++ [Request id Arrived])))
  | step_enter c rs i r e c' :
      rs !! i = Some r → at_phase r = Arrived → acquire_enter l (identity r) c = (e, c') →
      step l (System c rs) (Some (System c' (set_phase i r (entry_phase e) rs)))
  | step_take c rs i r c' :
      rs !! i = Some r → at_phase r = Waiting → semaphore_take c = Some c' →
      step l (System c rs) (Some (System c' (set_phase i r GotSlot rs)))
  | step_expire c rs i r :
      rs !! i = Some r → at_phase r = Waiting →
      step l (System c rs) (Some (System c (set_phase i r WaitExpired rs)))
  | step_leave_ok c rs i r :
      rs !! i = Some r → at_phase r = GotSlot →
      step l (System c rs)
        ((λ c', System c' (set_phase i r Running rs)) <$> to_option (acquire_leave (identity r) true c))
  | step_leave_timeout c rs i r :
      rs !! i = Some r → at_phase r = WaitExpired →
      step l (System c rs)
        ((λ c', System c' (set_phase i r (Rejected TimedOutReason) rs))
           <$> to_option (acquire_leave (identity r) false c))
  | step_release c rs i r :
      rs !! i = Some r → at_phase r = Running →
      step l (System c rs)
        ((λ c', System c' (set_phase i r Releasing rs)) <$> to_option (release_enter (identity r) c))
  | step_signal c rs i r :
      rs !! i = Some r → at_phase r = Releasing →
      step l (System c rs) (Some (System (semaphore_release c) (set_phase i r Finished rs))).

(** The states reachable from a fresh controller. *)
Inductive reachable (l : limits) : system → Prop :=
  | reach_init c : init_controller l = Ok c → reachable l (System c [])
  | reach_step s s' : reachable l s → step l s (Some s') → reachable l s'.

(** * Requests in flight *)

Definition holds_slot (p : phase) : bool :=
  match p with GotSlot | Running | Releasing => true | _ => false end.
Definition in_queue (p : phase) : bool :=
  match p with Waiting | GotSlot | WaitExpired => true | _ => false end.
Definition is_counted (p : phase) : bool :=
  match p with Waiting | GotSlot | WaitExpired | Running => true | _ => false end.

(** How many requests satisfy [f]. *)
Fixpoint tally (f : request → bool) (rs : list request) : Z :=
  match rs with [] => 0 | r :: rs => Z.b2z (f r) + tally f rs end.

Definition slots_held (rs : list request) : Z := tally (λ r, holds_slot (at_phase r)) rs.
Definition queued (rs : list request) : Z := tally (λ r, in_queue (at_phase r)) rs.
Definition counted (id : str) (rs : list request) : Z :=
  tally (λ r, is_counted (at_phase r) && bool_decide (identity r = id)) rs.
Definition running (rs : list request) : Z := tally (λ r, bool_decide (at_phase r = Running)) rs.

Lemma tally_nonneg f rs : 0 ≤ tally f rs.
Proof. induction rs as [|r rs IH]; cbn; [lia|]. destruct (f r); cbn; lia. Qed.

Lemma tally_app f rs rs' : tally f (rs ++ rs') = tally f rs + tally f rs'.
Proof. induction rs as [|r rs IH]; cbn; [done|]. rewrite IH. lia. Qed.

Lemma tally_insert f rs i r r' :
  rs !! i = Some r → tally f (<[i := r']> rs) = tally f rs - Z.b2z (f r) + Z.b2z (f r').
Proof.
  revert i. induction rs as [|x rs IH]; intros [|i] Hi; try done.
  - cbn in *. simplify_eq. lia.
  - change (tally f (x :: <[i := r']> rs) = tally f (x :: rs) - Z.b2z (f r) + Z.b2z (f r')).
    cbn [tally]. rewrite (IH i) by done. lia.
Qed.

Lemma tally_elem f rs i r : rs !! i = Some r → f r = true → 1 ≤ tally f rs.
Proof.
  revert i. induction rs as [|x rs IH]; intros [|i] Hi Hf; cbn in *; try done.
  - simplify_eq. rewrite Hf. pose proof (tally_nonneg f rs). cbn. lia.
  - specialize (IH i Hi Hf). destruct (f x); cbn; lia.
Qed.

Lemma tally_mono f g rs : (∀ r, f r = true → g r = true) → tally f rs ≤ tally g rs.
Proof.
  intros Hfg. induction rs as [|r rs IH]; cbn; [lia|].
  specialize (Hfg r). destruct (f r), (g r); cbn; try lia.
Qed.

(** * The invariant *)

(** The table of counters holds exactly the positive counts. *)
Definition counts_agree (m : gmap str Z) (rs : list request) : Prop :=
  ∀ id, m !! id = if counted id rs =? 0 then None else Some (counted id rs).

Record inv (l : limits) (s : system) : Prop := Inv {
  inv_slots : semaphore (ctl s) + slots_held (requests s) = max_concurrent l;
  inv_sem : 0 ≤ semaphore (ctl s);
  inv_queue : current_queue (ctl s) = queued (requests s);
  inv_queue_max : queued (requests s) ≤ Z.max 0 (max_queue l);
  inv_counts : counts_agree (identity_counts (ctl s)) (requests s);
  inv_identity_max : ∀ id, counted id (requests s) ≤ Z.max 0 (max_per_identity l);
}.

Lemma count_of_agrees c rs id : counts_agree (identity_counts c) rs → count_of c id = counted id rs.
Proof.
  intros Ha. unfold count_of. rewrite Ha. destruct (Z.eqb_spec (counted id rs) 0) as [->|]; done.
Qed.

(** Moving one request changes the tallies by what its phases weigh. *)
Lemma slots_set i r p rs :
  rs !! i = Some r →
  slots_held (set_phase i r p rs) = slots_held rs - Z.b2z (holds_slot (at_phase r)) + Z.b2z (holds_slot p).
Proof. apply tally_insert. Qed.

Lemma queued_set i r p rs :
  rs !! i = Some r →
  queued (set_phase i r p rs) = queued rs - Z.b2z (in_queue (at_phase r)) + Z.b2z (in_queue p).
Proof. apply tally_insert. Qed.

Lemma counted_set i r p rs id :
  rs !! i = Some r →
  counted id (set_phase i r p rs) = counted id rs
    + (if decide (id = identity r) then Z.b2z (is_counted p) - Z.b2z (is_counted (at_phase r)) else 0).
Proof.
  intros Hi. unfold counted, set_phase. rewrite (tally_insert _ _ _ _ _ Hi). cbn.
  destruct (decide (id = identity r)) as [->|Hne].
  - rewrite bool_decide_eq_true_2 by done. rewrite !andb_true_r. lia.
  - rewrite bool_decide_eq_false_2 by congruence. rewrite !andb_false_r. cbn. lia.
Qed.

Lemma incr_agrees c rs i r p :
  counts_agree (identity_counts c) rs → rs !! i = Some r →
  is_counted (at_phase r) = false → is_counted p = true →
  counts_agree (incr_identity (identity r) c) (set_phase i r p rs).
Proof.
  intros Ha Hi Hr Hp id. unfold incr_identity. rewrite (count_of_agrees _ rs) by done.
  rewrite counted_set, Hr, Hp by done. pose proof (tally_nonneg (λ x, is_counted (at_phase x) && bool_decide (identity x = id)) rs) as Hn.
  change (0 ≤ counted id rs) in Hn. destruct (decide (id = identity r)) as [->|Hne].
  - rewrite lookup_insert_eq. cbn. destruct (Z.eqb_spec (counted (identity r) rs + (1 - 0)) 0); [lia|]. f_equal; lia.
  - rewrite lookup_insert_ne by congruence. rewrite Z.add_0_r. apply Ha.
Qed.

Lemma decr_agrees m rs i r p :
  counts_agree m rs → rs !! i = Some r →
  is_counted (at_phase r) = true → is_counted p = false →
  ∃ m', decr_identity (identity r) m = Ok m' ∧ counts_agree m' (set_phase i r p rs).
Proof.
  intros Ha Hi Hr Hp. unfold decr_identity. rewrite Ha.
  assert (1 ≤ counted (identity r) rs) as Hge.
  { apply (tally_elem _ _ _ _ Hi). by rewrite Hr, bool_decide_eq_true_2. }
  destruct (Z.eqb_spec (counted (identity r) rs) 0); [lia|]. eexists. split; [done|].
  intros id. rewrite counted_set, Hr, Hp by done. destruct (decide (id = identity r)) as [->|Hne]; cbn.
  - replace (counted (identity r) rs + (0 - 1)) with (counted (identity r) rs - 1) by lia.
    destruct (Z.eqb_spec (counted (identity r) rs - 1) 0); [by rewrite lookup_delete_eq|by rewrite lookup_insert_eq].
  - rewrite Z.add_0_r. case_match; [rewrite lookup_delete_ne by done|rewrite lookup_insert_ne by done]; apply Ha.
Qed.

(** A request that stays counted, or stays uncounted, leaves the counters alone. *)
Lemma same_agrees m rs i r p :
  counts_agree m rs → rs !! i = Some r → is_counted (at_phase r) = is_counted p →
  counts_agree m (set_phase i r p rs).
Proof.
  intros Ha Hi Hp id. rewrite counted_set, Hp by done. case_decide; rewrite ?Z.sub_diag, Z.add_0_r; apply Ha.
Qed.

(** * Every section preserves it *)

Ltac weigh := rewrite ?slots_set, ?queued_set by eassumption;
  try match goal with H : at_phase ?r = _ |- context [at_phase ?r] => rewrite H end;
  cbn [holds_slot in_queue Z.b2z].

Lemma identity_bound l rs i r p :
  rs !! i = Some r → (∀ id, counted id rs ≤ Z.max 0 (max_per_identity l)) →
  (is_counted p = true → counted (identity r) rs < max_per_identity l ∨ is_counted (at_phase r) = true) →
  ∀ id, counted id (set_phase i r p rs) ≤ Z.max 0 (max_per_identity l).
Proof.
  intros Hi Hb Hp id. rewrite counted_set by done. specialize (Hb id). case_decide; [subst id|lia].
  destruct (is_counted p), (is_counted (at_phase r)); cbn; lia.
Qed.

Lemma enter_preserves l c rs i r e c' :
  inv l (System c rs) → rs !! i = Some r → at_phase r = Arrived →
  acquire_enter l (identity r) c = (e, c') → inv l (System c' (set_phase i r (entry_phase e) rs)).
Proof.
  intros [Hs H0 Hq Hqm Hc Him] Hi Hp He. cbn [ctl requests] in *. unfold acquire_enter in He.
  rewrite (count_of_agrees c rs) in He by done.
  destruct (Z.leb_spec (max_per_identity l) (counted (identity r) rs)) as [|Hlt].
  { injection He as <- <-. split; cbn [ctl requests entry_phase]; weigh; try lia.
    - apply same_agrees; [done..|by rewrite Hp].
    - by apply identity_bound. }
  destruct (Z.ltb_spec 0 (semaphore c)).
  { injection He as <- <-. split; cbn [ctl requests entry_phase semaphore identity_counts current_queue]; weigh; try lia.
    - apply incr_agrees; [done..|by rewrite Hp|done].
    - apply identity_bound; auto. }
  destruct (Z.leb_spec (max_queue l) (current_queue c)); injection He as <- <-.
  - split; cbn [ctl requests entry_phase]; weigh; try lia.
    + apply same_agrees; [done..|by rewrite Hp].
    + by apply identity_bound.
  - split; cbn [ctl requests entry_phase semaphore identity_counts current_queue]; weigh; try lia.
    + apply incr_agrees; [done..|by rewrite Hp|done].
    + apply identity_bound; auto.
Qed.

(** Sections that only move slots and queue positions. *)
Lemma plain_move_preserves l c rs i r p q' s' :
  inv l (System c rs) → rs !! i = Some r → is_counted (at_phase r) = is_counted p →
  semaphore c - s' = Z.b2z (holds_slot p) - Z.b2z (holds_slot (at_phase r)) → 0 ≤ s' →
  q' - current_queue c = Z.b2z (in_queue p) - Z.b2z (in_queue (at_phase r)) → q' ≤ current_queue c →
  inv l (System (Controller q' (identity_counts c) s') (set_phase i r p rs)).
Proof.
  intros [Hs H0 Hq Hqm Hc Him] Hi Hcnt Hsem Hs' Hque Hle. cbn [ctl requests] in *.
  split; cbn [ctl requests semaphore identity_counts current_queue];
    rewrite ?slots_set, ?queued_set by done; try lia.
  - by apply same_agrees.
  - apply identity_bound; [done..|]. intros Hp. right. by rewrite Hcnt.
Qed.

(** Sections that give a counter back. *)
Lemma drop_preserves l c rs i r p q' :
  inv l (System c rs) → rs !! i = Some r → is_counted (at_phase r) = true → is_counted p = false →
  holds_slot (at_phase r) = holds_slot p →
  q' - current_queue c = Z.b2z (in_queue p) - Z.b2z (in_queue (at_phase r)) → q' ≤ current_queue c →
  ∃ m, decr_identity (identity r) (identity_counts c) = Ok m ∧
    inv l (System (Controller q' m (semaphore c)) (set_phase i r p rs)).
Proof.
  intros [Hs H0 Hq Hqm Hc Him] Hi Hcr Hcp Hh Hque Hle. cbn [ctl requests] in *.
  destruct (decr_agrees _ _ _ _ p Hc Hi Hcr Hcp) as (m & Hm & Hm'). exists m. split; [done|].
  split; cbn [ctl requests semaphore identity_counts current_queue];
    rewrite ?slots_set, ?queued_set, ?Hh by done; try lia; [done|].
  apply identity_bound; [done..|]. by rewrite Hcp.
Qed.

(** No section raises, and every section preserves the invariant. *)
Lemma step_preserves l s o : inv l s → step l s o → ∃ s', o = Some s' ∧ inv l s'.
Proof.
  intros Hinv Hst. destruct Hst as [c rs id|c rs i r e c' Hi Hp He|c rs i r c' Hi Hp Ht|c rs i r Hi Hp|
    c rs i r Hi Hp|c rs i r Hi Hp|c rs i r Hi Hp|c rs i r Hi Hp].
  - eexists. split; [done|]. destruct Hinv as [Hs H0 Hq Hqm Hc Him]. cbn in *.
    assert (∀ f, f (Request id Arrived) = false → tally f (rs ++ [Request id Arrived]) = tally f rs) as Ht.
    { intros f Hf. rewrite tally_app. cbn. rewrite Hf. cbn. lia. }
    split; cbn [ctl requests]; unfold slots_held, queued, counts_agree, counted in *; try (rewrite Ht by done; done).
    + done.
    + intros id'. by rewrite Ht.
    + intros id'. by rewrite Ht.
  - eexists. split; [done|]. by eapply enter_preserves.
  - eexists. split; [done|]. unfold semaphore_take in Ht. destruct (Z.ltb_spec 0 (semaphore c)); simplify_eq.
    apply plain_move_preserves; rewrite ?Hp; cbn; done || lia.
  - eexists. split; [done|]. destruct c as [q m s]. pose proof (inv_sem _ _ Hinv).
    apply (plain_move_preserves l (Controller q m s)); rewrite ?Hp; cbn in *; done || lia.
  - eexists. split; [done|]. pose proof (inv_sem _ _ Hinv).
    apply plain_move_preserves; rewrite ?Hp; cbn in *; done || lia.
  - destruct (drop_preserves l c rs i r (Rejected TimedOutReason) (current_queue c - 1)) as (m & Hm & Hinv');
      rewrite ?Hp; try done; cbn; try lia. rewrite Hm. cbn. eauto.
  - destruct (drop_preserves l c rs i r Releasing (current_queue c)) as (m & Hm & Hinv');
      rewrite ?Hp; try done; cbn; try lia. unfold release_enter. rewrite Hm. cbn. eauto.
  - eexists. split; [done|]. pose proof (inv_sem _ _ Hinv).
    apply plain_move_preserves; rewrite ?Hp; cbn in *; done || lia.
Qed.

Lemma reachable_inv l s : reachable l s → inv l s.
Proof.
  induction 1 as [c Hc|s s' _ IH Hst].
  - unfold init_controller in Hc. destruct (Z.ltb_spec (max_concurrent l) 0); simplify_eq.
    split; cbn; try lia. done.
  - apply (step_preserves _ _ _ IH) in Hst as (s1 & [= <-] & ?). done.
Qed.

(** C11. Admission limits under every interleaving: at any reachable point at most
    [max_concurrent] handlers run, at most [max_queue] requests wait and no identity has
    more than [max_per_identity] requests waiting or running; and no section of
    [acquire] or [release] fails. *)
Theorem admission_limits l s :
  reachable l s →
  running (requests s) ≤ max_concurrent l ∧ queued (requests s) ≤ Z.max 0 (max_queue l) ∧
  (∀ id, counted id (requests s) ≤ Z.max 0 (max_per_identity l)) ∧
  ¬ step l s None.
Proof.
  intros Hr%reachable_inv. pose proof Hr as [Hs H0 Hq Hqm Hc Him]. split_and!; [|done|done|].
  - assert (running (requests s) ≤ slots_held (requests s)); [|lia].
    apply tally_mono. intros r Hr'. apply bool_decide_eq_true in Hr'. by rewrite Hr'.
  - intros Hst. apply (step_preserves _ _ _ Hr) in Hst as (? & ? & _). done.
Qed.

Lemma tally_none f rs : Forall (λ r, f r = false) rs → tally f rs = 0.
Proof. induction 1 as [|r rs Hr _ IH]; cbn; [done|]. by rewrite Hr. Qed.

(** Nothing leaks: once every request has been answered, whatever the order of
    timeouts, rejections and releases was, the controller is as it was created. *)
Theorem admission_quiescent l s :
  reachable l s →
  Forall (λ r, at_phase r = Finished ∨ ∃ why, at_phase r = Rejected why) (requests s) →
  init_controller l = Ok (ctl s).
Proof.
  intros Hr%reachable_inv Hdone. destruct Hr as [Hs H0 Hq Hqm Hc Him]. destruct s as [[q m sem] rs].
  cbn [ctl requests semaphore current_queue identity_counts] in *.
  assert (∀ f, (∀ p, p = Finished ∨ (∃ why, p = Rejected why) → f p = false) →
    Forall (λ r, f (at_phase r) = false) rs) as Hf.
  { intros f Hf. eapply Forall_impl; [exact Hdone|]. cbn. auto. }
  unfold slots_held in Hs. unfold queued in Hq.
  rewrite tally_none in Hs, Hq by (apply Hf; intros p [->|[? ->]]; done).
  assert (m = ∅) as ->.
  { apply map_eq. intros id. rewrite Hc, lookup_empty. unfold counted. rewrite tally_none; [done|].
    eapply Forall_impl; [apply (Hf is_counted); intros p [->|[? ->]]; done|]. by intros r ->. }
  unfold init_controller. destruct (Z.ltb_spec (max_concurrent l) 0); [lia|]. do 2 f_equal; lia.
Qed.

(** * Witnesses *)

Definition two_limits : limits := Limits 1 1 2.

(** A run: the first request of an address is running, the second waits. *)
Lemma sample_reachable :
  reachable two_limits
    (System (Controller 1 {[ [65] := 2 ]} 0) [Request [65] Running; Request [65] Waiting]).
Proof.
  eapply reach_step.
  { eapply reach_step.
    { eapply reach_step.
      { eapply reach_step; [apply (reach_init _ (Controller 0 ∅ 1)); reflexivity|apply (step_arrive _ _ _ [65])]. }
      apply (step_enter _ _ _ 0 (Request [65] Arrived) Entered (Controller 0 {[ [65] := 1 ]} 0)); reflexivity. }
    apply (step_arrive _ _ _ [65]). }
  apply (step_enter _ _ [Request [65] Running; Request [65] Arrived] 1 (Request [65] Arrived) Queued); reflexivity.
Defined.

Lemma admission_limits_witness :
  running [Request [65] Running; Request [65] Waiting] ≤ 1 ∧
  queued [Request [65] Running; Request [65] Waiting] ≤ Z.max 0 1 ∧
  (∀ id, counted id [Request [65] Running; Request [65] Waiting] ≤ Z.max 0 2) ∧
  ¬ step two_limits (System (Controller 1 {[ [65] := 2 ]} 0) [Request [65] Running; Request [65] Waiting]) None.
Proof. apply (admission_limits two_limits _ sample_reachable). Defined.

Lemma admission_quiescent_witness : init_controller two_limits = Ok (Controller 0 ∅ 1).
Proof.
  apply (admission_quiescent two_limits (System (Controller 0 ∅ 1) [])); [|constructor].
  apply reach_init. reflexivity.
Defined.
