(* ===== verification/Idempotency.v ===== *)
(** Idempotent request handling ([backend/idempotency.py]): the table of records,
    the statements that read and write it, replay, the request digest and the
    [idempotent] decorator, both run as a whole and as interleaved statements.
    Shown: a stored answer is replayed exactly, whatever happens in between; and
    the three ways the promise fails: racing requests, non-JSON answers and the
    unescaped separator of the digest.  The JSONB columns give back the JSON value
    that was stored. *)
From Stdlib Require Import ZArith Lia.
From stdpp Require Import base decidable strings numbers relations list.
From S2P Require Import Prelude PyStr Sha256.

Open Scope Z_scope.

#[local] Arguments lit _ : simpl never.

(** * Records *)

Inductive record_status : Type := PENDING | COMPLETED | FAILED.

#[export] Instance record_status_eq_dec : EqDecision record_status.
Proof. solve_decision. Defined.

Record idem_record := IdemRecord {
  rec_id : Z;
  request_digest : str;
  request_type : str;
  expires_at : Z;
  status : record_status;
  response_payload : option pyval;
  error_payload : option pyval;
}.

(** The rows, and the next value of the serial column. *)
Record idem_table := IdemTable { rows : list idem_record; next_id : Z }.

Definition default_expiry (now window_seconds : Z) : Z := now + window_seconds.

Definition matches (digest rtype : str) (r : idem_record) : bool :=
  bool_decide (request_digest r = digest) && bool_decide (request_type r = rtype).

(** [get_idempotency_record] *)
Definition get_idempotency_record (digest rtype : str) (t : idem_table) : option idem_record :=
  head (filter (λ r, matches digest rtype r = true) (rows t)).

(** [insert ... on conflict ... do update set status = idempotency_records.status
    returning id, status]: an existing row is returned unchanged. *)
Definition create_idempotency_record (now : Z) (digest rtype : str) (t : idem_table) :
    (Z * record_status) * idem_table :=
  match get_idempotency_record digest rtype t with
  | Some r => ((rec_id r, status r), t)
  | None =>
      ((next_id t, PENDING),
       IdemTable (rows t ++ [IdemRecord (next_id t) digest rtype (default_expiry now 86400) PENDING None None])
         (next_id t + 1))
  end.

(** [update ... where id = %s] *)
Definition update_row (id : Z) (f : idem_record → idem_record) (t : idem_table) : idem_table :=
  IdemTable ((λ r, if rec_id r =? id then f r else r) <$> rows t) (next_id t).

Definition store_response (id : Z) (payload : pyval) (t : idem_table) : idem_table :=
  update_row id (λ r, IdemRecord (rec_id r) (request_digest r) (request_type r) (expires_at r)
    COMPLETED (Some payload) None) t.

Definition store_error (id : Z) (payload : pyval) (t : idem_table) : idem_table :=
  update_row id (λ r, IdemRecord (rec_id r) (request_digest r) (request_type r) (expires_at r)
    FAILED None (Some payload)) t.

Definition clear_idempotency_record (id : Z) (t : idem_table) : idem_table :=
  IdemTable (filter (λ r, ¬ (rec_id r = id ∧ status r = PENDING)) (rows t)) (next_id t).

(** * Requests and answers *)

(** [b"|".join([method, path, query, body])], hashed *)
Definition digest_message (method path query body : bytes) : bytes :=
  method ++ 124 :: path ++ 124 :: query ++ 124 :: body.
Definition canonical_digest (method path query body : bytes) : str :=
  sha256_hex (digest_message method path query body).

(** What a view returns: a [Response] (with its JSON body, if it has one), a
    dictionary or list, anything else; alone or in a tuple whose second element may
    be an integer status. *)
Inductive flask_data : Type :=
  | RespObj (status_code : Z) (json : option pyval)
  | JsonData (v : pyval)
  | OtherData.

Inductive view_result : Type :=
  | Single (d : flask_data)
  | Tupled (d : flask_data) (second : option Z).

(** [_extract_response_parts] *)
Definition extract_response_parts (result : view_result) : pyval * Z :=
  let '(data, explicit) := match result with Single d => (d, None) | Tupled d s => (d, s) end in
  match data with
  | RespObj code json => (default PNone json, default code explicit)
  | JsonData v => (v, default 200 explicit)
  | OtherData => (PNone, default 200 explicit)
  end.

(** What the client gets: JSON with a status, an empty body, or the view's own
    answer (its status and whether the body is JSON), or the exception. *)
Inductive answer : Type :=
  | Json (body : pyval) (code : Z)
  | EmptyBody (code : Z)
  | RawBody (code : Z)
  | Propagated.

(** The answer a view result stands for. *)
Definition answer_of (result : view_result) : answer :=
  let code := snd (extract_response_parts result) in
  match (match result with Single d => d | Tupled d _ => d end) with
  | RespObj _ (Some v) | JsonData v => Json v code
  | RespObj _ None | OtherData => RawBody code
  end.

(** A stored payload, for the keys the decorator writes. *)
Definition stored_payload (code : Z) (body : pyval) : pyval :=
  PDict [(lit "status", PInt code); (lit "body", body)].

(** [x or y] *)
Definition py_or (x y : pyval) : pyval := if truthy x then x else y.

(** [_replay_stored]; [None] is a status [int] cannot read. *)
Definition replay_stored (st : record_status) (response error : option pyval) : option answer :=
  match st with
  | COMPLETED =>
      let payload := py_or (default PNone response) (PDict []) in
      match payload with
      | PDict d =>
          if dict_has (lit "body") d && dict_has (lit "status") d then
            code ← match py_or (get_or_none (lit "status") d) (PInt 200) with
                   | PInt c => Some c | PBool true => Some 1 | _ => None end;
            match get_or_none (lit "body") d with
            | PNone => Some (EmptyBody code)
            | body => Some (Json body code)
            end
          else Some (Json payload 200)
      | _ => Some (Json payload 200)
      end
  | FAILED =>
      let e := py_or (default PNone error) (PDict [(lit "error", PStr (lit "previous request failed"))]) in
      match e with
      | PDict d =>
          match get_or_none (lit "status") d with
          | PInt code => Some (Json (PDict (dict_del (lit "status") d)) code)
          | PBool b => Some (Json (PDict (dict_del (lit "status") d)) (Z.b2z b))
          | _ => Some (Json e 500)
          end
      | _ => Some (Json e 500)
      end
  | PENDING => Some (Json (PDict [(lit "error", PStr (lit "duplicate request in progress"))]) 409)
  end.

Definition replay_record (r : idem_record) : option answer :=
  replay_stored (status r) (response_payload r) (error_payload r).

(** * The decorator *)

(** What the wrapped view does when it is called. *)
Inductive outcome : Type := Returned (v : view_result) | RaisedExc.

(** The statement after the view: store, clear, or store the failure. *)
Definition finish (id : Z) (o : outcome) (t : idem_table) : idem_table :=
  match o with
  | Returned v =>
      let '(body, code) := extract_response_parts v in
      if (200 <=? code) && (code <? 500) then store_response id (stored_payload code body) t
      else clear_idempotency_record id t
  | RaisedExc =>
      store_error id (PDict [(lit "error", PStr (lit "request processing failed")); (lit "status", PInt 500)]) t
  end.

Definition answer_of_outcome (o : outcome) : answer :=
  match o with Returned v => answer_of v | RaisedExc => Propagated end.

(** [wrapper] without interference: the answer, whether the view ran, the table. *)
Definition wrapper (db_available : bool) (now : Z) (digest rtype : str) (o : outcome) (t : idem_table) :
    option answer * bool * idem_table :=
  if negb db_available then (Some (answer_of_outcome o), true, t) else
  match get_idempotency_record digest rtype t with
  | Some r => (replay_record r, false, t)
  | None =>
      let '((id, st), t) := create_idempotency_record now digest rtype t in
      if negb (bool_decide (st = PENDING)) then
        match get_idempotency_record digest rtype t with
        | Some r => (replay_record r, false, t)
        | None => (replay_stored st None None, false, t)
        end
      else (Some (answer_of_outcome o), true, finish id o t)
  end.

(** A call: digest, type and what the view would do. *)
Record call := Call { c_now : Z; c_digest : str; c_type : str; c_outcome : outcome }.

Definition serve_call (t : idem_table) (c : call) : idem_table :=
  snd (wrapper true (c_now c) (c_digest c) (c_type c) (c_outcome c) t).
Definition serve_calls (cs : list call) (t : idem_table) : idem_table := foldl serve_call t cs.

(** * Interleaved statements *)

(** A request between two statements: before the lookup, after a lookup that found
    nothing, owning a record while the view runs, reading again after losing the
    insertion, answered. *)
Inductive stage : Type :=
  | Looking
  | Inserting
  | Executing (id : Z)
  | Rereading (st : record_status)
  | Answered (a : option answer).

(** One statement of one request. *)
Definition advance (c : call) (s : stage) (t : idem_table) : stage * idem_table :=
  match s with
  | Looking =>
      match get_idempotency_record (c_digest c) (c_type c) t with
      | Some r => (Answered (replay_record r), t)
      | None => (Inserting, t)
      end
  | Inserting =>
      let '((id, st), t) := create_idempotency_record (c_now c) (c_digest c) (c_type c) t in
      (if bool_decide (st = PENDING) then Executing id else Rereading st, t)
  | Executing id => (Answered (Some (answer_of_outcome (c_outcome c))), finish id (c_outcome c) t)
  | Rereading st =>
      match get_idempotency_record (c_digest c) (c_type c) t with
      | Some r => (Answered (replay_record r), t)
      | None => (Answered (replay_stored st None None), t)
      end
  | Answered a => (Answered a, t)
  end.

(** Any request may move next. *)
Inductive interleave : list (call * stage) * idem_table → list (call * stage) * idem_table → Prop :=
  | interleave_step rs i c s s' t t' :
      rs !! i = Some (c, s) → advance c s t = (s', t') →
      interleave (rs, t) (<[i := (c, s')]> rs, t').

(** * The table as a map *)

Definition row_key (r : idem_record) : str * str := (request_digest r, request_type r).

(** The unique constraint and the serial column. *)
Definition table_ok (t : idem_table) : Prop :=
  NoDup (row_key <$> rows t) ∧ Forall (λ r, rec_id r < next_id t) (rows t).

Lemma matches_spec d ty r : matches d ty r = true ↔ row_key r = (d, ty).
Proof.
  unfold matches, row_key. rewrite andb_true_iff, !bool_decide_eq_true. split; [intros [-> ->]; done|].
  by intros [= -> ->].
Qed.

Lemma get_none d ty t :
  get_idempotency_record d ty t = None ↔ (d, ty) ∉ row_key <$> rows t.
Proof.
  unfold get_idempotency_record. split.
  - intros Hh Hin. apply list_elem_of_fmap in Hin as (r & Hk & Hr).
    assert (r ∈ filter (λ r, matches d ty r = true) (rows t)) as Hf.
    { apply list_elem_of_filter. split; [|done]. by apply matches_spec. }
    destruct (filter _ _); [by apply elem_of_nil in Hf|done].
  - intros Hn. destruct (filter _ (rows t)) as [|r l] eqn:Hf; [done|].
    assert (r ∈ filter (λ r, matches d ty r = true) (rows t)) as Hr by (rewrite Hf; left).
    apply list_elem_of_filter in Hr as [Hm Hr]. exfalso. apply Hn. apply list_elem_of_fmap.
    exists r. split; [|done]. symmetry. by apply matches_spec.
Qed.

Lemma filter_absent d ty l :
  (d, ty) ∉ row_key <$> l → filter (λ r, matches d ty r = true) l = [].
Proof.
  induction l as [|r l IH]; [done|]. rewrite fmap_cons, not_elem_of_cons. intros [Hne Hl].
  rewrite filter_cons, decide_False; [by apply IH|]. rewrite matches_spec. congruence.
Qed.

(** The row of a key is found wherever it stands. *)
Lemma get_unique t l1 r l2 :
  table_ok t → rows t = l1 ++ r :: l2 →
  get_idempotency_record (request_digest r) (request_type r) t = Some r.
Proof.
  intros [Hnd _] Hr. unfold get_idempotency_record. rewrite Hr in *.
  rewrite fmap_app, fmap_cons in Hnd. apply NoDup_app in Hnd as (_ & Hd & _).
  rewrite filter_app, filter_absent, filter_cons.
  - by rewrite decide_True by (by apply matches_spec).
  - intros Hin. apply (Hd _ Hin). left.
Qed.

(** What is left of the row a call inserted. *)
Definition inserted_row (id now : Z) (d ty : str) : idem_record :=
  IdemRecord id d ty (default_expiry now 86400) PENDING None None.
Definition left_row (id now : Z) (d ty : str) (o : outcome) : list idem_record :=
  rows (finish id o (IdemTable [inserted_row id now d ty] (id + 1))).

Lemma update_fresh id f l : Forall (λ r, rec_id r < id) l →
  (λ r : idem_record, if rec_id r =? id then f r else r) <$> l = l.
Proof.
  induction 1 as [|r l Hr _ IH]; [done|]. rewrite fmap_cons, IH.
  by destruct (Z.eqb_spec (rec_id r) id); [lia|].
Qed.

Lemma clear_fresh id l : Forall (λ r, rec_id r < id) l →
  filter (λ r, ¬ (rec_id r = id ∧ status r = PENDING)) l = l.
Proof.
  induction 1 as [|r l Hr _ IH]; [done|]. rewrite filter_cons, decide_True, IH; [done|]. lia.
Qed.

(** [finish] touches only the row of its own identifier. *)
Lemma finish_fresh id now d ty o l :
  Forall (λ r, rec_id r < id) l →
  finish id o (IdemTable (l ++ [inserted_row id now d ty]) (id + 1))
  = IdemTable (l ++ left_row id now d ty o) (id + 1).
Proof.
  intros Hl. unfold left_row, finish. destruct o as [v|].
  - destruct (extract_response_parts v) as [body code]. destruct ((200 <=? code) && (code <? 500)).
    + unfold store_response, update_row. cbn [rows next_id]. by rewrite fmap_app, update_fresh.
    + unfold clear_idempotency_record. cbn [rows next_id]. by rewrite filter_app, clear_fresh.
  - unfold store_error, update_row. cbn [rows next_id]. by rewrite fmap_app, update_fresh.
Qed.

Lemma left_row_key id now d ty o r :
  r ∈ left_row id now d ty o → row_key r = (d, ty) ∧ rec_id r = id.
Proof.
  unfold left_row, finish. destruct o as [v|].
  - destruct (extract_response_parts v) as [body code]. case_match.
    + cbn. rewrite Z.eqb_refl. cbn. by intros ->%list_elem_of_singleton.
    + unfold clear_idempotency_record. cbn [rows]. intros [_ Hin]%list_elem_of_filter.
      apply list_elem_of_singleton in Hin as ->. done.
  - cbn. rewrite Z.eqb_refl. cbn. by intros ->%list_elem_of_singleton.
Qed.

Lemma left_row_length id now d ty o : (length (left_row id now d ty o) ≤ 1)%nat.
Proof.
  unfold left_row, finish. destruct o as [v|].
  - destruct (extract_response_parts v) as [body code]. case_match; [cbn; lia|].
    unfold clear_idempotency_record. cbn [rows]. etrans; [apply length_filter|]. cbn. lia.
  - cbn. lia.
Qed.

(** A call either finds its record, or appends at most one row. *)
Lemma wrapper_new now d ty o t :
  table_ok t → get_idempotency_record d ty t = None →
  wrapper true now d ty o t =
    (Some (answer_of_outcome o), true,
     IdemTable (rows t ++ left_row (next_id t) now d ty o) (next_id t + 1)).
Proof.
  intros [_ Hid] Hget. unfold wrapper, create_idempotency_record. cbn [negb]. rewrite !Hget.
  cbn. f_equal. apply finish_fresh. done.
Qed.

Lemma wrapper_ok now d ty o t :
  table_ok t → ∃ l, rows (wrapper true now d ty o t).2 = rows t ++ l ∧ table_ok (wrapper true now d ty o t).2.
Proof.
  intros Hok. destruct (get_idempotency_record d ty t) as [r|] eqn:Hget.
  - exists []. unfold wrapper. cbn [negb]. rewrite Hget. cbn. by rewrite app_nil_r.
  - rewrite wrapper_new by done. cbn [snd rows]. eexists. split; [done|]. destruct Hok as [Hnd Hid].
    split; cbn [rows next_id].
    + rewrite fmap_app. apply NoDup_app. split_and!; [done| |].
      * intros k Hk Hk'. apply list_elem_of_fmap in Hk' as (r & -> & Hr). apply left_row_key in Hr as [Hr _].
        rewrite Hr in Hk. by apply get_none in Hget.
      * pose proof (left_row_length (next_id t) now d ty o). destruct (left_row _ _ _ _ _) as [|r [|]];
          [constructor|apply NoDup_singleton|cbn in *; lia].
    + apply Forall_app. split; [eapply Forall_impl; [exact Hid|]; cbn; lia|].
      apply Forall_forall. intros r Hr. apply left_row_key in Hr as [_ Hr]. lia.
Qed.

Lemma serve_calls_ok cs t :
  table_ok t → ∃ l, rows (serve_calls cs t) = rows t ++ l ∧ table_ok (serve_calls cs t).
Proof.
  revert t. induction cs as [|c cs IH]; intros t Hok; cbn.
  { exists []. by rewrite app_nil_r. }
  unfold serve_call at 2 4. destruct (wrapper_ok (c_now c) (c_digest c) (c_type c) (c_outcome c) t Hok) as (l & Hl & Hok').
  destruct (IH _ Hok') as (l' & Hl' & Hok''). exists (l ++ l'). split; [|done].
  unfold serve_calls in Hl'. rewrite Hl', Hl. by rewrite app_assoc.
Qed.

(** A stored row answers every later call with its key. *)
Lemma stored_row_replayed t r cs now o :
  table_ok t → r ∈ rows t →
  let t' := serve_calls cs t in
  wrapper true now (request_digest r) (request_type r) o t' = (replay_record r, false, t').
Proof.
  intros Hok Hr t'. destruct (serve_calls_ok cs t Hok) as (l & Hl & Hok').
  apply list_elem_of_split in Hr as (l1 & l2 & Hr). unfold wrapper. cbn [negb].
  rewrite (get_unique t' l1 r (l2 ++ l)); [done|done|]. unfold t'. rewrite Hl, Hr, <- app_assoc. done.
Qed.

(** A successful first call leaves its completed row. *)
Lemma first_call_stored now d ty v t body code :
  table_ok t → get_idempotency_record d ty t = None →
  extract_response_parts v = (body, code) → 200 ≤ code < 500 →
  let t1 := (wrapper true now d ty (Returned v) t).2 in
  table_ok t1 ∧ IdemRecord (next_id t) d ty (default_expiry now 86400) COMPLETED
    (Some (stored_payload code body)) None ∈ rows t1.
Proof.
  intros Hok Hget Hv Hc t1. unfold t1. split.
  - by destruct (wrapper_ok now d ty (Returned v) t Hok) as (? & _ & ?).
  - rewrite wrapper_new by done. cbn [snd rows]. apply elem_of_app. right.
    unfold left_row, finish. rewrite Hv.
    rewrite (proj2 (Z.leb_le 200 code)), (proj2 (Z.ltb_lt code 500)) by lia. cbn.
    rewrite Z.eqb_refl. left.
Qed.

Lemma replay_completed code body :
  200 ≤ code →
  replay_stored COMPLETED (Some (stored_payload code body)) None =
    Some (match body with PNone => EmptyBody code | _ => Json body code end).
Proof.
  intros Hc. unfold replay_stored, stored_payload.
  set (d := [(lit "status", PInt code); (lit "body", body)]).
  assert (py_or (default PNone (Some (PDict d))) (PDict []) = PDict d) as -> by done.
  assert (dict_has (lit "body") d && dict_has (lit "status") d = true) as -> by done.
  assert (get_or_none (lit "status") d = PInt code) as -> by done.
  assert (py_or (PInt code) (PInt 200) = PInt code) as ->.
  { unfold py_or. cbn. by destruct (Z.eqb_spec code 0); [lia|]. }
  cbn [mbind option_bind]. assert (get_or_none (lit "body") d = body) as -> by done. by destruct body.
Qed.

(** Exact replay: once a request was answered with JSON and a status from 200 to
    499, every later identical request is answered with the same body and status
    without running the view, whatever other requests were served in between. *)
Theorem answered_request_is_replayed now d ty v t body code cs now' o :
  table_ok t → get_idempotency_record d ty t = None →
  answer_of v = Json body code → body ≠ PNone → 200 ≤ code < 500 →
  let t1 := serve_calls cs (wrapper true now d ty (Returned v) t).2 in
  wrapper true now d ty (Returned v) t = (Some (Json body code), true, (wrapper true now d ty (Returned v) t).2) ∧
  wrapper true now' d ty o t1 = (Some (Json body code), false, t1).
Proof.
  intros Hok Hget Hv Hb Hc t1. split.
  { rewrite wrapper_new by done. unfold answer_of_outcome. by rewrite Hv. }
  assert (extract_response_parts v = (body, code)) as He.
  { unfold answer_of, extract_response_parts in *. destruct v as [[? []| |]|[? []| |] []]; cbn in *; congruence. }
  destruct (first_call_stored now d ty v t body code Hok Hget He Hc) as [Hok1 Hin].
  etrans; [exact (stored_row_replayed _ _ cs now' o Hok1 Hin)|].
  unfold replay_record. cbn [status response_payload error_payload]. rewrite replay_completed by lia.
  by destruct body.
Qed.

(** Answers that are not JSON are lost: the view's answer (a file, say) goes out
    once, and every identical request after that gets an empty body with the same
    status. *)
Theorem non_json_answer_lost now d ty v t code cs now' o :
  table_ok t → get_idempotency_record d ty t = None →
  answer_of v = RawBody code → 200 ≤ code < 500 →
  let t1 := serve_calls cs (wrapper true now d ty (Returned v) t).2 in
  (wrapper true now d ty (Returned v) t).1 = (Some (RawBody code), true) ∧
  wrapper true now' d ty o t1 = (Some (EmptyBody code), false, t1).
Proof.
  intros Hok Hget Hv Hc t1. split.
  { rewrite wrapper_new by done. unfold answer_of_outcome. by rewrite Hv. }
  assert (extract_response_parts v = (PNone, code)) as He.
  { unfold answer_of, extract_response_parts in *. destruct v as [[? []| |]|[? []| |] []]; cbn in *; congruence. }
  destruct (first_call_stored now d ty v t PNone code Hok Hget He Hc) as [Hok1 Hin].
  etrans; [exact (stored_row_replayed _ _ cs now' o Hok1 Hin)|].
  unfold replay_record. cbn [status response_payload error_payload]. by rewrite replay_completed by lia.
Qed.

(** Racing requests both run: if two identical requests look for a record before
    either has inserted one, both end up executing the view, with the same record. *)
Theorem racing_requests_both_execute t c c' :
  table_ok t → c_digest c = c_digest c' → c_type c = c_type c' →
  get_idempotency_record (c_digest c) (c_type c) t = None →
  ∃ t', rtc interleave ([(c, Looking); (c', Looking)], t)
    ([(c, Executing (next_id t)); (c', Executing (next_id t))], t').
Proof.
  intros Hok Hd Ht Hget.
  assert (advance c Looking t = (Inserting, t)) as H1 by (cbn; by rewrite Hget).
  assert (advance c' Looking t = (Inserting, t)) as H2 by (cbn; by rewrite <- Hd, <- Ht, Hget).
  set (r := inserted_row (next_id t) (c_now c) (c_digest c) (c_type c)).
  set (t1 := IdemTable (rows t ++ [r]) (next_id t + 1)).
  assert (advance c Inserting t = (Executing (next_id t), t1)) as H3.
  { cbn. unfold create_idempotency_record. by rewrite Hget. }
  assert (advance c' Inserting t1 = (Executing (next_id t), t1)) as H4.
  { cbn. unfold create_idempotency_record. rewrite <- Hd, <- Ht.
    assert (get_idempotency_record (c_digest c) (c_type c) t1 = Some r) as ->; [|done].
    unfold get_idempotency_record, t1. cbn [rows]. rewrite filter_app, filter_absent by (by apply get_none).
    cbn [app]. rewrite filter_cons, decide_True; [done|]. by apply matches_spec. }
  exists t1.
  eapply rtc_l; [by apply (interleave_step [(c, Looking); (c', Looking)] 0 c Looking _ _ _ eq_refl H1)|].
  eapply rtc_l; [by apply (interleave_step [(c, Inserting); (c', Looking)] 1 c' Looking _ _ _ eq_refl H2)|].
  eapply rtc_l; [by apply (interleave_step [(c, Inserting); (c', Inserting)] 0 c Inserting _ _ _ eq_refl H3)|].
  eapply rtc_l; [by apply (interleave_step [(c, Executing (next_id t)); (c', Inserting)] 1 c' Inserting _ _ _ eq_refl H4)|].
  constructor.
Qed.

(** The digest does not separate its fields: moving the part of a query after a
    bar into the body gives a different request with the same digest. *)
Theorem digest_separator_ambiguous method path q q' body :
  canonical_digest method path (q ++ 124 :: q') body = canonical_digest method path q (q' ++ 124 :: body).
Proof. unfold canonical_digest, digest_message. by rewrite <- !app_assoc, <- app_comm_cons. Qed.

(** * Witnesses *)

Definition empty_table : idem_table := IdemTable [] 1.
Definition ok_view : view_result := Tupled (JsonData (PDict [(lit "ok", PBool true)])) (Some 201).
Definition sample_calls : list call := [Call 5 (lit "other") (lit "register") RaisedExc].

Lemma empty_table_ok : table_ok empty_table.
Proof. split; [constructor|constructor]. Qed.

Lemma answered_request_is_replayed_witness :
  let t1 := serve_calls sample_calls (wrapper true 0 (lit "d") (lit "register") (Returned ok_view) empty_table).2 in
  wrapper true 0 (lit "d") (lit "register") (Returned ok_view) empty_table
    = (Some (Json (PDict [(lit "ok", PBool true)]) 201), true,
       (wrapper true 0 (lit "d") (lit "register") (Returned ok_view) empty_table).2) ∧
  wrapper true 9 (lit "d") (lit "register") RaisedExc t1 = (Some (Json (PDict [(lit "ok", PBool true)]) 201), false, t1).
Proof.
  apply (answered_request_is_replayed 0 (lit "d") (lit "register") ok_view empty_table
    (PDict [(lit "ok", PBool true)]) 201 sample_calls 9 RaisedExc).
  - exact empty_table_ok.
  - reflexivity.
  - reflexivity.
  - discriminate.
  - lia.
Defined.

Lemma non_json_answer_lost_witness :
  let t1 := serve_calls sample_calls (wrapper true 0 (lit "d") (lit "embed") (Returned (Single (RespObj 200 None))) empty_table).2 in
  (wrapper true 0 (lit "d") (lit "embed") (Returned (Single (RespObj 200 None))) empty_table).1 = (Some (RawBody 200), true) ∧
  wrapper true 9 (lit "d") (lit "embed") RaisedExc t1 = (Some (EmptyBody 200), false, t1).
Proof.
  apply (non_json_answer_lost 0 (lit "d") (lit "embed") (Single (RespObj 200 None)) empty_table 200 sample_calls 9 RaisedExc).
  - exact empty_table_ok.
  - reflexivity.
  - reflexivity.
  - lia.
Defined.

Lemma racing_requests_both_execute_witness :
  ∃ t', rtc interleave
    ([(Call 0 (lit "d") (lit "register") (Returned ok_view), Looking);
      (Call 0 (lit "d") (lit "register") (Returned ok_view), Looking)], empty_table)
    ([(Call 0 (lit "d") (lit "register") (Returned ok_view), Executing 1);
      (Call 0 (lit "d") (lit "register") (Returned ok_view), Executing 1)], t').
Proof. apply (racing_requests_both_execute empty_table); [exact empty_table_ok|reflexivity..]. Defined.
