(* ===== verification/TxReconcile.v ===== *)
(** Registration reconciliation ([backend/tx_verification.py],
    [backend/registration_reconcile.py] and the statements of [backend/db.py] they
    use): Horizon lookups with failover, the confirmation policy, and the durable
    [tx_status] of registration rows.  Horizon is a parameter: what a lookup of a URL
    returns.  Shown: what a confirmation rests on, that durable statuses only move
    from pending to terminal, and that a lookup made too early is final. *)
From Stdlib Require Import ZArith Lia.
From stdpp Require Import base decidable strings numbers list.
From S2P Require Import Prelude PyStr Json PyVal.

Open Scope Z_scope.

#[local] Arguments lit _ : simpl never.

(** * Verification *)

Inductive tx_status : Type := TxPending | TxConfirmed | TxFailed | TxMissing | TxError.

#[export] Instance tx_status_eq_dec : EqDecision tx_status.
Proof. solve_decision. Defined.

Definition status_text (s : tx_status) : str :=
  match s with
  | TxPending => lit "pending" | TxConfirmed => lit "confirmed" | TxFailed => lit "failed"
  | TxMissing => lit "missing" | TxError => lit "error"
  end.

Record TxVerificationResult := TxResult {
  v_status : str;
  v_reason : string;
  v_ledger : option Z;
  v_latest_ledger : option Z;
  v_confirmations : option Z;
  v_successful : option bool;
  v_source : option str;
}.

Definition bare_result (s : tx_status) (reason : string) : TxVerificationResult :=
  TxResult (status_text s) reason None None None None None.

Definition TERMINAL_STATUSES : list str := [lit "confirmed"; lit "failed"; lit "missing"].

(** [normalize_tx_hash]; [None] is [ValueError]. *)
Definition normalize_tx_hash `{Unicode} (value : pyval) : option str :=
  match value with
  | PStr s =>
      let normalized := py_lower (py_strip s) in
      let normalized := if starts_with (lit "0x") normalized then drop 2 normalized else normalized in
      if negb (zlen normalized =? 64) || negb (forallb is_lower_hex normalized) then None
      else Some normalized
  | _ => None
  end.

(** [_fetch_json]: a status with the parsed body ([None] for an HTTP error), or an
    exception (no connection, timeout, a body that is not JSON). *)
Inductive fetched : Type :=
  | Fetched (status : Z) (data : option pyval)
  | FetchRaised.

(** [HORIZON_URLS], or the default list. *)
Definition horizon_urls `{Unicode} (env : option str) : list str :=
  match env with
  | Some ((_ :: _) as urls) =>
      filter (λ u, u ≠ []) (map py_strip (split_on 44 urls))
  | _ => [lit "https://horizon-testnet.stellar.org"; lit "https://horizon.stellar.org"]
  end.

(** What one Horizon server contributes to the loop. *)
Inductive lookup : Type :=
  | NotFound
  | DependencyFailure
  | Verdict (r : TxVerificationResult).

Section verification.
Context `{Unicode}.
Context (fetch : str → fetched).

(** [d.get(k)] on a value: [None] is [AttributeError]. *)
Definition get_attr (k : string) (v : pyval) (default_value : pyval) : option pyval :=
  match v with PDict d => Some (default default_value (dict_get (lit k) d)) | _ => None end.

(** [_latest_ledger]: the outer [None] is an exception. *)
Definition latest_ledger (rpc_url : str) : option (option Z) :=
  match fetch (rpc_url ++ lit "/fee_stats") with
  | FetchRaised => None
  | Fetched status data =>
      match data with
      | Some d =>
          if (status =? 200) && truthy d then
            last ← get_attr "last_ledger" d (PInt 0);
            z ← to_option (py_to_int last);
            Some (if z =? 0 then None else Some z)
          else Some None
      | None => Some None
      end
  end.

(** [int(ledger_raw) if ledger_raw is not None else None], with [TypeError] and
    [ValueError] caught; the outer [None] is [OverflowError]. *)
Definition read_ledger (raw : pyval) : option (option Z) :=
  match raw with
  | PNone => Some None
  | _ => match py_to_int raw with
         | Ok z => Some (Some z)
         | Err OverflowError => None
         | Err _ => Some None
         end
  end.

Definition confirmations_of (ledger latest : option Z) : option Z :=
  match ledger, latest with
  | Some l, Some t => if l <=? t then Some (t - l + 1) else None
  | _, _ => None
  end.

(** The body of the loop over the servers; an exception is a dependency failure. *)
Definition query_server (normalized : str) (min_confirmations : Z) (rpc_url : str) : lookup :=
  match fetch (rpc_url ++ lit "/transactions/" ++ normalized) with
  | FetchRaised => DependencyFailure
  | Fetched status_code data =>
      if status_code =? 404 then NotFound
      else match data with
      | Some d =>
          if negb (status_code =? 200) || negb (truthy d) then DependencyFailure else
          match get_attr "successful" d (PBool false), get_attr "ledger" d PNone with
          | Some s, Some raw =>
              match read_ledger raw with
              | None => DependencyFailure
              | Some ledger =>
                  if negb (truthy s) then
                    Verdict (TxResult (lit "failed") "tx_unsuccessful" ledger None None (Some false) (Some rpc_url))
                  else match latest_ledger rpc_url with
                  | None => DependencyFailure
                  | Some latest =>
                      match confirmations_of ledger latest with
                      | None => Verdict (TxResult (lit "pending") "confirmations_unavailable" ledger latest
                                  None (Some true) (Some rpc_url))
                      | Some n =>
                          if n <? min_confirmations then
                            Verdict (TxResult (lit "pending") "awaiting_confirmations" ledger latest
                              (Some n) (Some true) (Some rpc_url))
                          else Verdict (TxResult (lit "confirmed") "confirmed" ledger latest
                              (Some n) (Some true) (Some rpc_url))
                      end
                  end
              end
          | _, _ => DependencyFailure
          end
      | None => DependencyFailure
      end
  end.

(** The loop, with the two flags it keeps. *)
Fixpoint failover (normalized : str) (min_confirmations : Z) (urls : list str)
    (dependency not_found : bool) : TxVerificationResult :=
  match urls with
  | [] =>
      if not_found && negb dependency then bare_result TxMissing "not_found_on_horizon"
      else if dependency then bare_result TxError "horizon_dependency_failure"
      else bare_result TxMissing "not_found_on_horizon"
  | u :: urls =>
      match query_server normalized min_confirmations u with
      | NotFound => failover normalized min_confirmations urls dependency true
      | DependencyFailure => failover normalized min_confirmations urls true not_found
      | Verdict r => r
      end
  end.

Definition verify_transaction (urls : list str) (tx_hash : pyval) (min_confirmations : Z) :
    TxVerificationResult :=
  match normalize_tx_hash tx_hash with
  | None => bare_result TxFailed "malformed_tx_hash"
  | Some normalized =>
      if min_confirmations <? 1 then bare_result TxError "invalid_min_confirmations"
      else failover normalized min_confirmations urls false false
  end.

Definition verify_transaction_status (urls : list str) (tx_hash : pyval) : str :=
  let r := verify_transaction urls tx_hash 1 in
  if bool_decide (v_status r = lit "error") then lit "pending" else v_status r.
End verification.

(** * Durable rows *)

Record proof_row := ProofRow {
  p_id : Z;
  p_proof_id : option str;
  p_tx_hash : option str;
  p_tx_status : option str;
}.

(** [list_pending_registration_txs]: the rows are in [id] order. *)
Definition list_pending_registration_txs (limit : Z) (rows : list proof_row) : list proof_row :=
  take (Z.to_nat (Z.max 1 (Z.min limit 50)))
    (filter (λ r, p_tx_hash r ≠ None ∧ p_tx_status r = Some (lit "pending")) rows).

(** The [where] clause of [update_tx_status]. *)
Definition updates_row (tx_hash : str) (force : bool) (r : proof_row) : bool :=
  bool_decide (p_tx_hash r = Some tx_hash)
  && (force || bool_decide (p_tx_status r = None) || bool_decide (p_tx_status r = Some (lit "pending"))).

Definition update_tx_status `{Unicode} (tx_hash : str) (status : str) (force : bool) (rows : list proof_row) :
    result exn (bool * list proof_row) :=
  if bool_decide (py_strip tx_hash = []) then Ok (false, rows)
  else if negb (bool_decide (status ∈ [lit "pending"; lit "confirmed"; lit "failed"; lit "missing"]))
  then Err (ValueError "tx status must be pending, confirmed, failed, or missing")
  else Ok (existsb (updates_row tx_hash force) rows,
           map (λ r, if updates_row tx_hash force r
                     then ProofRow (p_id r) (p_proof_id r) (p_tx_hash r) (Some status) else r) rows).

(** * Reconciliation *)

Definition MAX_RECONCILE_BATCH : Z := 50.

Definition clamp_reconcile_limit `{Unicode} (limit : pyval) : result exn Z :=
  match limit with
  | PNone => Ok MAX_RECONCILE_BATCH
  | _ =>
      match py_to_int limit with
      | Ok parsed =>
          if parsed <? 1 then Err (ValueError "limit must be a positive integer")
          else Ok (Z.min parsed MAX_RECONCILE_BATCH)
      | Err OverflowError => Err OverflowError
      | Err _ => Err (ValueError "limit must be a positive integer")
      end
  end.

(** [_env_int]: [None] is an unset variable. *)
Definition env_int `{Unicode} (raw : option str) (default_value : Z) : Z :=
  match raw with
  | Some r =>
      if bool_decide (py_strip r = []) then default_value
      else match py_int 10 (py_strip r) with
           | Some v => if 1 <=? v then v else default_value
           | None => default_value
           end
  | None => default_value
  end.

(** The payload of [_result_payload]. *)
Record reconcile_item := Item {
  it_tx_hash : option str;
  it_previous : option str;
  it_status : str;
  it_updated : bool;
  it_reason : string;
  it_confirmations : option Z;
  it_ledger : option Z;
  it_proof_id : option str;
  it_event_id : option Z;
  it_min_confirmations : option Z;
}.

Definition result_payload (tx_hash : option str) (previous : option str) (v : TxVerificationResult)
    (updated : bool) (proof_id : option str) (event_id : option Z) (min_applied : option Z) : reconcile_item :=
  Item tx_hash previous (v_status v) updated (v_reason v) (v_confirmations v) (v_ledger v)
    proof_id event_id min_applied.

Section reconcile.
Context `{Unicode}.
Context (fetch : str → fetched) (urls : list str).

Definition reconcile_registration (tx_hash : pyval) (previous_status : option str) (proof_id : option str)
    (event_id : option Z) (min_conf : Z) (force : bool) (rows : list proof_row) :
    result exn (reconcile_item * list proof_row) :=
  if min_conf <? 1 then Err (ValueError "minConfirmations must be >= 1") else
  match normalize_tx_hash tx_hash with
  | None =>
      Ok (result_payload None previous_status (bare_result TxFailed "malformed_tx_hash") false
            proof_id event_id None, rows)
  | Some normalized =>
      match (if force then None else p ← previous_status; if bool_decide (p ∈ TERMINAL_STATUSES) then Some p else None) with
      | Some p =>
          Ok (result_payload (Some normalized) previous_status
                (TxResult p "already_terminal" None None None None None) false proof_id event_id None, rows)
      | None =>
          let v := verify_transaction fetch urls (PStr normalized) min_conf in
          if bool_decide (v_status v ∈ TERMINAL_STATUSES) then
            '(updated, rows) ← update_tx_status normalized (v_status v) force rows;
            Ok (result_payload (Some normalized) previous_status v updated proof_id event_id (Some min_conf), rows)
          else
            Ok (result_payload (Some normalized) previous_status v false proof_id event_id (Some min_conf), rows)
      end
  end.

(** The counters of [reconcile_pending_registrations]. *)
Record summary := Summary {
  s_scanned : Z; s_confirmed : Z; s_failed : Z; s_missing : Z; s_pending : Z; s_error : Z; s_updated : Z;
}.

Definition count_item (s : summary) (i : reconcile_item) : summary :=
  let st := if bool_decide (it_status i = []) then lit "error" else it_status i in
  let b (t : tx_status) := Z.b2z (bool_decide (st = status_text t)) in
  let known := b TxConfirmed + b TxFailed + b TxMissing + b TxPending in
  Summary (s_scanned s + 1) (s_confirmed s + b TxConfirmed) (s_failed s + b TxFailed)
    (s_missing s + b TxMissing) (s_pending s + b TxPending) (s_error s + (1 - known))
    (s_updated s + Z.b2z (it_updated i)).

(** The loop over the pending page. *)
Fixpoint reconcile_rows (min_conf : Z) (page : list proof_row) (s : summary) (results : list reconcile_item)
    (rows : list proof_row) : result exn (summary * list reconcile_item * list proof_row) :=
  match page with
  | [] => Ok (s, results, rows)
  | r :: page =>
      '(item, rows) ← reconcile_registration
         (match p_tx_hash r with Some h => PStr h | None => PNone end)
         (Some (match p_tx_status r with Some ((_ :: _) as st) => st | _ => lit "pending" end))
         (p_proof_id r) (Some (p_id r)) min_conf false rows;
      reconcile_rows min_conf page (count_item s item) (results ++ [item]) rows
  end.

Definition reconcile_pending_registrations (limit : pyval) (min_conf : Z) (rows : list proof_row) :
    result exn (summary * list reconcile_item * list proof_row) :=
  page_size ← clamp_reconcile_limit limit;
  if min_conf <? 1 then Err (ValueError "minConfirmations must be >= 1")
  else reconcile_rows min_conf (list_pending_registration_txs page_size rows)
         (Summary 0 0 0 0 0 0 0) [] rows.

(** [payload.get(a) or payload.get(b)] *)
Definition either (a b : string) (d : list (str * pyval)) : pyval :=
  let v := get_or_none (lit a) d in if truthy v then v else get_or_none (lit b) d.

Definition process_verify_tx_job (default_min : Z) (payload : pyval) (rows : list proof_row) :
    result exn (reconcile_item * list proof_row) :=
  match payload with
  | PDict d =>
      let proof_id := match either "proof_id" "proofId" d with PStr s => Some s | _ => None end in
      min_conf ← match either "min_confirmations" "minConfirmations" d with
                 | PNone => Ok default_min | v => py_to_int v end;
      '(item, rows) ← reconcile_registration (either "tx_hash" "txHash" d) (Some (lit "pending")) proof_id
          None min_conf false rows;
      if bool_decide (it_status item = lit "error") then Err (RuntimeError (it_reason item)) else Ok (item, rows)
  | _ => Err (ValueError "verify_tx payload must be an object")
  end.
End reconcile.

(** * What a confirmation rests on *)

Section soundness.
Context `{Unicode}.
Context (fetch : str → fetched).

(** The servers asked in vain before the one that decides. *)
Definition undecided (normalized : str) (mc : Z) (u : str) : Prop :=
  query_server fetch normalized mc u = NotFound ∨ query_server fetch normalized mc u = DependencyFailure.

Lemma failover_inv normalized mc urls dep nf r :
  failover fetch normalized mc urls dep nf = r →
  (∃ pre u post, urls = pre ++ u :: post ∧ Forall (undecided normalized mc) pre ∧
     query_server fetch normalized mc u = Verdict r) ∨
  (Forall (undecided normalized mc) urls ∧
   (r = bare_result TxMissing "not_found_on_horizon" ∨ r = bare_result TxError "horizon_dependency_failure")).
Proof.
  revert dep nf. induction urls as [|u urls IH]; intros dep nf Hr; cbn in Hr.
  { right. split; [constructor|]. destruct nf, dep; cbn in Hr; auto. }
  destruct (query_server fetch normalized mc u) eqn:Hu.
  - apply IH in Hr as [(pre & w & post & -> & Hp & Hw)|[Hall Hr]].
    + left. exists (u :: pre), w, post. split_and!; [done| |done]. constructor; [by left|done].
    + right. split; [|done]. constructor; [by left|done].
  - apply IH in Hr as [(pre & w & post & -> & Hp & Hw)|[Hall Hr]].
    + left. exists (u :: pre), w, post. split_and!; [done| |done]. constructor; [by right|done].
    + right. split; [|done]. constructor; [by right|done].
  - left. exists [], u, urls. subst. split_and!; [done|constructor|done].
Qed.

(** A server's verdict "confirmed". *)
Lemma query_confirmed normalized mc u r :
  query_server fetch normalized mc u = Verdict r → v_status r = lit "confirmed" →
  ∃ d ledger latest s,
    fetch (u ++ lit "/transactions/" ++ normalized) = Fetched 200 (Some (PDict d)) ∧
    dict_get (lit "successful") d = Some s ∧ truthy s = true ∧
    latest_ledger fetch u = Some (Some latest) ∧
    read_ledger (get_or_none (lit "ledger") d) = Some (Some ledger) ∧
    ledger ≤ latest ∧ mc ≤ latest - ledger + 1.
Proof.
  unfold query_server. intros Hq Hs. destruct (fetch _) as [code [d|]|] eqn:Hf; [| |done].
  2:{ by destruct (code =? 404). }
  destruct (code =? 404); [done|]. destruct (negb (code =? 200) || negb (truthy d)) eqn:Hok; [done|].
  apply orb_false_iff in Hok as [Hcode Htr]. apply negb_false_iff, Z.eqb_eq in Hcode as ->.
  unfold get_attr in Hq. destruct d as [| | | | | |d]; try done.
  fold (get_or_none (lit "ledger") d) in Hq. destruct (read_ledger (get_or_none (lit "ledger") d)) as [ledger|] eqn:Hl; [|done].
  destruct (truthy (default (PBool false) (dict_get (lit "successful") d))) eqn:Hsucc; cbn [negb] in Hq.
  2:{ injection Hq as <-. vm_compute in Hs. discriminate. }
  destruct (latest_ledger fetch u) as [latest|] eqn:Hlat; [|done].
  destruct (confirmations_of ledger latest) as [n|] eqn:Hn; [|injection Hq as <-; vm_compute in Hs; discriminate].
  destruct (n <? mc) eqn:Hlt; [injection Hq as <-; vm_compute in Hs; discriminate|]. bool_inv.
  unfold confirmations_of in Hn. destruct ledger as [l|]; [|done]. destruct latest as [t|]; [|done].
  destruct (Z.leb_spec l t); [|done]. injection Hn as <-.
  destruct (dict_get (lit "successful") d) as [s|] eqn:Hd; [|done].
  exists d, l, t, s. split_and!; done || lia.
Qed.

(** A confirmation is backed by one server: when [verify_transaction] answers
    [confirmed], the hash is well formed, the requested depth is positive, and some
    server, all before it having answered 404 or failed, returned the transaction as
    successful in a ledger at least that many confirmations deep. *)
Theorem confirmed_is_backed urls tx_hash mc r :
  verify_transaction fetch urls tx_hash mc = r → v_status r = lit "confirmed" →
  ∃ normalized pre u post d ledger latest s,
    normalize_tx_hash tx_hash = Some normalized ∧ 1 ≤ mc ∧
    urls = pre ++ u :: post ∧ Forall (undecided normalized mc) pre ∧
    fetch (u ++ lit "/transactions/" ++ normalized) = Fetched 200 (Some (PDict d)) ∧
    dict_get (lit "successful") d = Some s ∧ truthy s = true ∧
    latest_ledger fetch u = Some (Some latest) ∧
    read_ledger (get_or_none (lit "ledger") d) = Some (Some ledger) ∧
    ledger ≤ latest ∧ mc ≤ latest - ledger + 1.
Proof.
  unfold verify_transaction. intros Hv Hs.
  destruct (normalize_tx_hash tx_hash) as [n|]; [|subst r; vm_compute in Hs; discriminate].
  destruct (Z.ltb_spec mc 1); [subst r; vm_compute in Hs; discriminate|].
  apply failover_inv in Hv as [(pre & u & post & Hu & Hp & Hq)|[_ [->| ->]]];
    [|vm_compute in Hs; discriminate|vm_compute in Hs; discriminate].
  destruct (query_confirmed _ _ _ _ Hq Hs) as (d & l & t & s & ?).
  exists n, pre, u, post, d, l, t, s. tauto.
Qed.
End soundness.

(** * Durable statuses *)

(** What may happen to the status of a row: nothing, or pending becomes terminal. *)
Definition status_moves (s s' : option str) : Prop :=
  s = s' ∨ (s = None ∨ s = Some (lit "pending")) ∧ ∃ t, s' = Some t ∧ t ∈ TERMINAL_STATUSES.

Definition row_moves (r r' : proof_row) : Prop :=
  p_id r' = p_id r ∧ p_tx_hash r' = p_tx_hash r ∧ status_moves (p_tx_status r) (p_tx_status r').

Lemma row_moves_refl r : row_moves r r.
Proof. split_and!; [done|done|by left]. Qed.

Lemma pending_not_terminal t : t ∈ TERMINAL_STATUSES → t ≠ lit "pending".
Proof. intros Ht ->. revert Ht. apply (bool_decide_unpack _). vm_compute. exact I. Qed.

Lemma row_moves_trans r1 r2 r3 : row_moves r1 r2 → row_moves r2 r3 → row_moves r1 r3.
Proof.
  intros (I1 & H1 & S1) (I2 & H2 & S2). split_and!; [congruence|congruence|].
  destruct S1 as [->|[Hp (t & Ht & Hin)]]; [done|]. destruct S2 as [<-|[Hp' _]]; [right; eauto|].
  rewrite Ht in Hp'. destruct Hp' as [|Hp']; [done|]. injection Hp' as ->. by apply pending_not_terminal in Hin.
Qed.

Definition rows_move : list proof_row → list proof_row → Prop := Forall2 row_moves.

Lemma rows_move_refl rows : rows_move rows rows.
Proof. apply Forall_Forall2_diag, Forall_true. apply row_moves_refl. Qed.

Lemma rows_move_trans a b c : rows_move a b → rows_move b c → rows_move a c.
Proof.
  intros Hab. revert c. induction Hab as [|x y a b Hxy _ IH]; intros c Hbc; inversion Hbc; subst; constructor.
  - by eapply row_moves_trans.
  - by apply IH.
Qed.

Section durable.
Context `{Unicode}.

Lemma update_moves h st rows u rows' :
  st ∈ TERMINAL_STATUSES → update_tx_status h st false rows = Ok (u, rows') → rows_move rows rows'.
Proof.
  intros Hst Hu. unfold update_tx_status in Hu. case_match; [simplify_eq; apply rows_move_refl|].
  case_match; [done|]. injection Hu as _ <-. apply Forall2_fmap_r, Forall_Forall2_diag, Forall_true.
  intros r. change (row_moves r (if updates_row h false r
    then ProofRow (p_id r) (p_proof_id r) (p_tx_hash r) (Some st) else r)).
  destruct (updates_row h false r) eqn:Hr; [|apply row_moves_refl].
  unfold updates_row in Hr. apply andb_true_iff in Hr as [_ Hr]. split_and!; [done|done|]. right.
  split; [|by exists st]. cbn [orb] in Hr. apply orb_true_iff in Hr as [Hr|Hr]; bool_inv; auto.
Qed.

Lemma reconcile_moves fetch urls h prev pid eid mc rows item rows' :
  reconcile_registration fetch urls h prev pid eid mc false rows = Ok (item, rows') → rows_move rows rows'.
Proof.
  unfold reconcile_registration. intros Hr. case_match; [done|].
  destruct (normalize_tx_hash h) as [n|]; [|simplify_eq; apply rows_move_refl].
  destruct (prev ≫= _); [simplify_eq; apply rows_move_refl|].
  destruct (bool_decide (_ ∈ TERMINAL_STATUSES)) eqn:Ht; [|simplify_eq; apply rows_move_refl].
  apply bind_ok in Hr as ([u rows1] & Hu & [= _ <-]). apply bool_decide_eq_true in Ht. by eapply update_moves.
Qed.

Lemma reconcile_rows_moves fetch urls mc page s res rows s' res' rows' :
  reconcile_rows fetch urls mc page s res rows = Ok (s', res', rows') → rows_move rows rows'.
Proof.
  revert s res rows. induction page as [|r page IH]; intros s res rows Hr; cbn in Hr.
  { simplify_eq. apply rows_move_refl. }
  apply bind_ok in Hr as ([item rows1] & H1 & Hr). apply reconcile_moves in H1.
  eapply rows_move_trans; [exact H1|]. by eapply IH.
Qed.

(** The operations of workers and of the reconciliation endpoint, each with the
    state of Horizon it meets. *)
Inductive recon_op : Type :=
  | OpJob (fetch : str → fetched) (urls : list str) (default_min : Z) (payload : pyval)
  | OpBatch (fetch : str → fetched) (urls : list str) (limit : pyval) (min_conf : Z).

(** An operation that raises leaves the rows as its statements left them; nothing is
    written before an exception. *)
Definition run_op (rows : list proof_row) (op : recon_op) : list proof_row :=
  match op with
  | OpJob fetch urls dm payload =>
      match process_verify_tx_job fetch urls dm payload rows with Ok (_, rows) => rows | Err _ => rows end
  | OpBatch fetch urls limit mc =>
      match reconcile_pending_registrations fetch urls limit mc rows with Ok (_, _, rows) => rows | Err _ => rows end
  end.

Lemma run_op_moves rows op : rows_move rows (run_op rows op).
Proof.
  destruct op as [fetch urls dm payload|fetch urls limit mc]; cbn.
  - destruct (process_verify_tx_job fetch urls dm payload rows) as [[item rows']|] eqn:Hj; [|apply rows_move_refl].
    unfold process_verify_tx_job in Hj. destruct payload as [| | | | | |d]; try done.
    apply bind_ok in Hj as (mc & _ & Hj). apply bind_ok in Hj as ([it rows1] & Hr & Hj).
    case_match; simplify_eq. by eapply reconcile_moves.
  - destruct (reconcile_pending_registrations fetch urls limit mc rows) as [[[s res] rows']|] eqn:Hb; [|apply rows_move_refl].
    unfold reconcile_pending_registrations in Hb. apply bind_ok in Hb as (ps & _ & Hb).
    case_match; [done|]. by eapply reconcile_rows_moves.
Qed.

Lemma terminal_moves ops rows : rows_move rows (foldl run_op rows ops).
Proof.
  revert rows. induction ops as [|op ops IH]; intros rows; cbn; [apply rows_move_refl|].
  eapply rows_move_trans; [apply run_op_moves|apply IH].
Qed.

(** C28. Durable statuses only settle: through any sequence of verification jobs and
    batches, against any behaviour of Horizon, a row keeps its identity and hash, and
    its status stays or moves once from unset or pending to a terminal status. *)
Theorem terminal_status_is_final ops rows :
  Forall2 row_moves rows (foldl run_op rows ops).
Proof. apply terminal_moves. Qed.

(** ** A lookup that comes too early *)

Lemma normalize_idem v n :
  normalize_tx_hash v = Some n → normalize_tx_hash (PStr n) = Some n ∧ py_strip n = n ∧ n ≠ [].
Proof.
  intros Hv. destruct v as [| | | |s| |]; try done. cbn in Hv. set (m := if starts_with _ _ then _ else _) in Hv.
  destruct (negb (zlen m =? 64) || negb (forallb is_lower_hex m)) eqn:Hm; [done|]. injection Hv as <-.
  pose proof Hm as Hm'. apply orb_false_iff in Hm' as [Hl Hh]. apply negb_false_iff in Hl, Hh.
  clearbody m. pose proof (proj1 (forallb_Forall _ _) Hh) as Hf.
  assert (py_strip m = m) as Hs.
  { apply strip_by_none. eapply Forall_impl; [exact Hf|]. cbn. intros c Hc. unfold is_lower_hex in Hc.
    unfold py_space. destruct (Z.ltb_spec c 128); lia. }
  assert (py_lower m = m) as Hlow.
  { rewrite py_lower_ascii by (eapply Forall_impl; [exact Hf|]; cbn; unfold is_lower_hex; intros; lia).
    clear Hl Hh Hs Hm. induction Hf as [|c m Hc _ IH]; [done|]. cbn. f_equal; [|exact IH].
    unfold is_lower_hex in Hc. unfold ascii_lower. destruct (Z.leb_spec 65 c), (Z.leb_spec c 90); cbn; lia. }
  assert (starts_with (lit "0x") m = false) as Hp.
  { destruct Hf as [|a ? Ha [|b l Hb _]]; [done|done|]. change (lit "0x") with [48; 120].
    rewrite !starts_with_cons. destruct (Z.eqb_spec 120 b) as [<-|]; [done|]. by rewrite andb_false_r. }
  split_and!; [|done|by intros ->]. cbn. by rewrite Hs, Hlow, Hp, Hm.
Qed.

Lemma failover_all_missing fetch n mc urls nf :
  (∀ u, u ∈ urls → ∃ d, fetch (u ++ lit "/transactions/" ++ n) = Fetched 404 d) →
  failover fetch n mc urls false nf = bare_result TxMissing "not_found_on_horizon".
Proof.
  revert nf. induction urls as [|u urls IH]; intros nf Hall; [by destruct nf|]. cbn.
  destruct (Hall u) as [d Hd]; [left|]. unfold query_server. rewrite Hd. cbn. apply IH. intros w Hw. apply Hall. by right.
Qed.

Lemma rows_move_lookup rows rows' i r :
  rows_move rows rows' → rows !! i = Some r → ∃ r', rows' !! i = Some r' ∧ row_moves r r'.
Proof. intros Hm Hi. by eapply Forall2_lookup_l. Qed.

(** An early lookup is final: if a verification job runs while every server still
    answers 404 for the transaction, its pending rows become [missing], and no later
    job or batch, whatever Horizon then says, changes them. *)
Theorem early_lookup_is_final fetch urls dm d h n rows i r ops :
  either "tx_hash" "txHash" d = PStr h → normalize_tx_hash (PStr h) = Some n →
  either "min_confirmations" "minConfirmations" d = PNone → 1 ≤ dm →
  (∀ u, u ∈ urls → ∃ b, fetch (u ++ lit "/transactions/" ++ n) = Fetched 404 b) →
  rows !! i = Some r → p_tx_hash r = Some n → p_tx_status r = Some (lit "pending") →
  ∃ r', foldl run_op rows (OpJob fetch urls dm (PDict d) :: ops) !! i = Some r' ∧
    p_tx_status r' = Some (lit "missing").
Proof.
  intros Hh Hn Hmin Hdm Hall Hi Hr Hp. cbn [foldl].
  destruct (normalize_idem _ _ Hn) as (Hnn & Hstrip & Hne). rewrite <- Hstrip in Hne.
  assert (∃ r1, run_op rows (OpJob fetch urls dm (PDict d)) !! i = Some r1 ∧
    p_tx_status r1 = Some (lit "missing")) as (r1 & Hi1 & Hs1).
  { cbn [run_op]. unfold process_verify_tx_job. rewrite Hmin, Hh, bind_Ok.
    unfold reconcile_registration. rewrite (proj2 (Z.ltb_ge dm 1)), Hn by lia.
    cbn [mbind option_bind]. rewrite bool_decide_eq_false_2
      by (apply (bool_decide_unpack _); vm_compute; exact I).
    unfold verify_transaction. rewrite Hnn, (proj2 (Z.ltb_ge dm 1)) by lia.
    rewrite failover_all_missing by done. change (v_status (bare_result TxMissing _)) with (lit "missing").
    rewrite bool_decide_eq_true_2 by (apply (bool_decide_unpack _); vm_compute; exact I).
    unfold update_tx_status. rewrite (bool_decide_eq_false_2 (py_strip n = [])) by done.
    rewrite (bool_decide_eq_true_2 (lit "missing" ∈ [lit "pending"; _; _; _]))
      by (apply (bool_decide_unpack _); vm_compute; exact I).
    cbn [negb]. rewrite !bind_Ok. cbn [result_payload it_status].
    rewrite bool_decide_eq_false_2 by (vm_compute; discriminate).
    eexists. split; [by apply list_lookup_fmap_Some_2|]. cbn.
    unfold updates_row. rewrite Hr, Hp, !bool_decide_eq_true_2 by done. by rewrite orb_true_r. }
  pose proof (terminal_moves ops (run_op rows (OpJob fetch urls dm (PDict d)))) as Hm.
  destruct (rows_move_lookup _ _ _ _ Hm Hi1) as (r2 & Hi2 & (_ & _ & Hs2)). exists r2. split; [exact Hi2|].
  destruct Hs2 as [<-|[[Hs2|Hs2] _]]; [done|congruence|]. rewrite Hs1 in Hs2. vm_compute in Hs2. discriminate.
Qed.
End durable.

(** * Witnesses *)

#[local] Instance sample_unicode : Unicode := plain_unicode.

Definition sample_hash : str := replicate 64 97.
Definition server : str := lit "https://h".

(** Horizon before and after it has indexed the transaction. *)
Definition horizon_before : str → fetched := λ _, Fetched 404 None.
Definition horizon_after (url : str) : fetched :=
  if bool_decide (url = server ++ lit "/fee_stats") then
    Fetched 200 (Some (PDict [(lit "last_ledger", PStr (lit "105"))]))
  else Fetched 200 (Some (PDict [(lit "successful", PBool true); (lit "ledger", PInt 100)])).

Lemma confirmed_is_backed_witness :
  ∃ normalized pre u post d ledger latest s,
    normalize_tx_hash (PStr sample_hash) = Some normalized ∧ 1 ≤ 3 ∧
    [server] = pre ++ u :: post ∧ Forall (undecided horizon_after normalized 3) pre ∧
    horizon_after (u ++ lit "/transactions/" ++ normalized) = Fetched 200 (Some (PDict d)) ∧
    dict_get (lit "successful") d = Some s ∧ truthy s = true ∧
    latest_ledger horizon_after u = Some (Some latest) ∧
    read_ledger (get_or_none (lit "ledger") d) = Some (Some ledger) ∧
    ledger ≤ latest ∧ 3 ≤ latest - ledger + 1.
Proof.
  apply (confirmed_is_backed horizon_after [server] (PStr sample_hash) 3
    (verify_transaction horizon_after [server] (PStr sample_hash) 3)).
  - reflexivity.
  - vm_compute. reflexivity.
Defined.

Definition sample_job : list (str * pyval) := [(lit "tx_hash", PStr sample_hash)].

Lemma early_lookup_is_final_witness :
  ∃ r', foldl run_op [ProofRow 1 None (Some sample_hash) (Some (lit "pending"))]
      [OpJob horizon_before [server] 1 (PDict sample_job); OpJob horizon_after [server] 1 (PDict sample_job);
       OpBatch horizon_after [server] PNone 1] !! 0%nat = Some r' ∧
    p_tx_status r' = Some (lit "missing").
Proof.
  apply (early_lookup_is_final horizon_before [server] 1 sample_job sample_hash sample_hash
    [ProofRow 1 None (Some sample_hash) (Some (lit "pending"))] 0
    (ProofRow 1 None (Some sample_hash) (Some (lit "pending")))
    [OpJob horizon_after [server] 1 (PDict sample_job); OpBatch horizon_after [server] PNone 1]).
  - reflexivity.
  - vm_compute. reflexivity.
  - reflexivity.
  - lia.
  - intros u _. by exists None.
  - reflexivity.
  - reflexivity.
  - reflexivity.
Defined.
