(* ===== verification/ProofStore.v ===== *)
(** The proof-event store of [backend/db.py] with a configured database: the columns of
    [proof_events], [deletion_receipts] and [proof_history_events], one definition per
    statement, keyset pagination with its opaque cursor, ownership, idempotent
    registration, legal hold and the retention purge, with the purge loop of
    [backend/retention.py].  A statement is atomic; rows are kept in id order; instants
    are seconds.

    Shown: following the cursors lists every matching event exactly once, newest first,
    while others insert; retention terminates and deletes exactly the expired events
    that are not on hold, with one receipt each; the recorded owner of a proof does not
    change while no event is purged. *)
From Stdlib Require Import ZArith Lia Sorted.
From stdpp Require Import base decidable strings numbers list.
From S2P Require Import Prelude PyStr Codec Sha256.

Open Scope Z_scope.

#[local] Arguments lit _ : simpl never.

(** * The tables *)

(** The columns a caller supplies. *)
Record event_data := EventData {
  event_type : str;
  file_name : option str;
  video_hash : option str;
  metadata_hash : option str;
  proof_id : option str;
  tier : option str;
  embedded_hash : option str;
  tx_hash : option str;
  tx_status : option str;
  source_address : option str;
  contract_id : option str;
  retention_class : option str;
  expires_at : option Z;
  metadata : option pyval;
  time_attestation : option pyval;
  claimed_capture_time : option str;
  event_index : option Z;
  idempotency_key : option str;
}.

Record proof_event := ProofEvent {
  ev_id : Z;
  ev : event_data;
  legal_hold : bool;
  created_at : Z;
}.

Record deletion_receipt := DeletionReceipt {
  dr_id : Z;
  dr_event_id : Z;
  dr_proof_id : option str;
  dr_video_hash : option str;
  dr_metadata_hash : option str;
  deleted_at : Z;
}.

Record history_event := HistoryEvent {
  he_id : Z;
  he_proof_id : str;
  he_action : str;
  he_actor : option str;
  he_reason_code : Z;
  he_contract_id : option str;
  he_tx_hash : option str;
  he_tx_status : option str;
  he_created_at : Z;
}.

(** [next_*]: the sequences of the [BIGSERIAL] columns. *)
Record store := Store {
  events : list proof_event;
  next_event : Z;
  receipts : list deletion_receipt;
  next_receipt : Z;
  history : list history_event;
  next_history : Z;
}.

Definition empty_store : store := Store [] 1 [] 1 [] 1.

Definition set_events (s : store) (l : list proof_event) : store :=
  Store l (next_event s) (receipts s) (next_receipt s) (history s) (next_history s).

(** * Cursors *)

Definition PROOF_EVENTS_MAX_LIMIT : Z := 100.
Definition RETENTION_BATCH_MAX_SIZE : Z := 5000.

Definition encode_proof_events_cursor (event_id : Z) : str := urlsafe_b64encode (dec_str event_id).

(** [-len(cursor) % 4] *)
Definition pad_cursor (cursor : str) : str := cursor ++ replicate (Z.to_nat (- zlen cursor mod 4)) 61.

Definition decode_proof_events_cursor `{Unicode} (cursor : pyval) : result exn Z :=
  match cursor with
  | PStr c =>
      if bool_decide (py_strip c = []) then Err (ValueError "invalid cursor")
      else if negb (forallb is_ascii (pad_cursor c)) then Err (ValueError "invalid cursor")
      else match urlsafe_b64decode (pad_cursor c) with
      | Some raw =>
          if negb (forallb is_ascii raw) then Err (ValueError "invalid cursor")
          else match py_int 10 raw with
          | Some event_id => if event_id <? 1 then Err (ValueError "invalid cursor") else Ok event_id
          | None => Err (ValueError "invalid cursor")
          end
      | None => Err (ValueError "invalid cursor")
      end
  | _ => Err (ValueError "invalid cursor")
  end.

Definition clamp_proof_events_limit (limit : Z) : Z := Z.max 1 (Z.min limit PROOF_EVENTS_MAX_LIMIT).

(** * Inserting *)

Definition insert_row (s : store) (d : event_data) (now : Z) : store * proof_event :=
  let row := ProofEvent (next_event s) d false now in
  (Store (events s ++ [row]) (next_event s + 1) (receipts s) (next_receipt s) (history s) (next_history s), row).

Definition insert_proof_event (s : store) (d : event_data) (now : Z) : store * proof_event := insert_row s d now.

Definition insert_proof_history_event (s : store) (h : Z → history_event) : store * history_event :=
  let row := h (next_history s) in
  (Store (events s) (next_event s) (receipts s) (next_receipt s) (history s ++ [row]) (next_history s + 1), row).

(** [limit %s offset %s] in id order *)
Definition list_proof_history_events (s : store) (pid : str) (limit offset : Z) : list history_event :=
  let limit := Z.max 1 (Z.min limit 100) in
  let offset := Z.max 0 offset in
  take (Z.to_nat limit) (drop (Z.to_nat offset) (filter (λ h, he_proof_id h = pid) (history s))).

(** * Listing *)

(** [id < %s], when a cursor is given *)
Definition before (cursor_id : option Z) (e : proof_event) : bool :=
  match cursor_id with None => true | Some c => ev_id e <? c end.

(** [where ... and id < %s order by id desc limit %s] *)
Definition select_desc (p : proof_event → bool) (cursor_id : option Z) (n : nat) (s : store) : list proof_event :=
  take n (filter (λ e, p e && before cursor_id e = true) (rev (events s))).

(** The common body of the listing functions: one row more than the page is fetched to
    know whether there is a next page. *)
Definition page_of (p : proof_event → bool) (limit : Z) (cursor_id : option Z) (s : store) :
    list proof_event * option str :=
  let page_size := clamp_proof_events_limit limit in
  let rows := select_desc p cursor_id (Z.to_nat (page_size + 1)) s in
  if page_size <? zlen rows then
    let rows := take (Z.to_nat page_size) rows in
    (rows, match last rows with Some e => Some (encode_proof_events_cursor (ev_id e)) | None => None end)
  else (rows, None).

Definition list_proof_events (limit : Z) (cursor_id : option Z) (s : store) : list proof_event * option str :=
  page_of (λ _, true) limit cursor_id s.

Definition find_proof_events_by_video (vh : str) (limit : Z) (cursor_id : option Z) (s : store) :
    list proof_event * option str :=
  page_of (λ e, bool_decide (video_hash (ev e) = Some vh)) limit cursor_id s.

Definition find_proof_events_by_proof_id (pid : str) (s : store) : list proof_event :=
  filter (λ e, proof_id (ev e) = Some pid) (rev (events s)).

(** The first register event with an address. *)
Definition registers (pid : str) (e : proof_event) : bool :=
  bool_decide (proof_id (ev e) = Some pid) && bool_decide (event_type (ev e) = lit "register") &&
  bool_decide (is_Some (source_address (ev e))).

Definition find_proof_owner (pid : str) (s : store) : option str :=
  match filter (λ e, registers pid e = true) (events s) with
  | e :: _ => source_address (ev e)
  | [] => None
  end.

(** * Idempotent registration *)

(** [sha256(f"{video_hash}:{proof_id}:{tx_hash or ''}".encode())]; the hashes are ASCII. *)
Definition key_material (vh pid : str) (tx : option str) : str := vh ++ 58 :: pid ++ 58 :: default [] tx.
Definition make_idempotency_key (vh pid : str) (tx : option str) : result exn str :=
  match utf8_encode (key_material vh pid tx) with Some b => Ok (sha256_hex b) | None => Err UnicodeError end.

(** [_CONFLICT_FIELDS], with the column each names. *)
Definition CONFLICT_FIELDS : list (string * (event_data → option str)) :=
  [("video_hash", video_hash); ("metadata_hash", metadata_hash); ("proof_id", proof_id); ("tier", tier);
   ("source_address", source_address); ("contract_id", contract_id)]%string.

Record ConflictError := MkConflict { conflict_key : str; conflict_field : string }.

Definition conflict_of (existing incoming : event_data) : option string :=
  fst <$> (snd <$> list_find (λ f, f.2 existing ≠ f.2 incoming) CONFLICT_FIELDS).

Definition find_key (key : str) (s : store) : option proof_event :=
  snd <$> list_find (λ e, idempotency_key (ev e) = Some key) (events s).

(** The insert with [on conflict do nothing], then the row of the key. *)
Definition upsert_register_event (s : store) (key : str) (d : event_data) (now : Z) :
    store * result ConflictError (proof_event * bool) :=
  match find_key key s with
  | None =>
      let '(s, row) := insert_row s (EventData (lit "register") (file_name d) (video_hash d) (metadata_hash d)
        (proof_id d) (tier d) None (tx_hash d) (tx_status d) (source_address d) (contract_id d)
        (retention_class d) (expires_at d) (metadata d) (time_attestation d) (claimed_capture_time d) None (Some key)) now in
      (s, Ok (row, true))
  | Some row =>
      (s, match conflict_of (ev row) d with
          | Some f => Err (MkConflict key f)
          | None => Ok (row, false)
          end)
  end.

(** [insert_indexed_proof_event]: one row per transaction hash and event index. *)
Definition find_indexed (tx : str) (idx : Z) (s : store) : option proof_event :=
  snd <$> list_find (λ e, tx_hash (ev e) = Some tx ∧ event_index (ev e) = Some idx) (events s).

Definition insert_indexed_proof_event (s : store) (tx : str) (idx : Z) (d : event_data) (now : Z) :
    store * (proof_event * bool) :=
  match find_indexed tx idx s with
  | None =>
      let '(s, row) := insert_row s (EventData (event_type d) None (video_hash d) (metadata_hash d) (proof_id d)
        None None (Some tx) (tx_status d) None (contract_id d) None None (metadata d) None None (Some idx)
        (Some (lit "indexer:" ++ tx ++ 58 :: dec_str idx))) now in
      (s, (row, true))
  | Some row => (s, (row, false))
  end.

(** * Legal hold and retention *)

Definition set_legal_hold (s : store) (pid : str) (hold : bool) : store :=
  set_events s (map (λ e, if bool_decide (proof_id (ev e) = Some pid)
                          then ProofEvent (ev_id e) (ev e) hold (created_at e) else e) (events s)).

(** [EXPIRED_EVENTS_PREDICATE_SQL] *)
Definition expired (now : Z) (e : proof_event) : bool :=
  match expires_at (ev e) with None => false | Some t => (t <=? now) && negb (legal_hold e) end.

Definition count_expired_events (now : Z) (s : store) : Z := zlen (filter (λ e, expired now e = true) (events s)).

(** The receipts of deleted events, numbered from [n]. *)
Fixpoint receipts_of (n now : Z) (l : list proof_event) : list deletion_receipt :=
  match l with
  | [] => []
  | e :: l =>
      DeletionReceipt n (ev_id e) (proof_id (ev e)) (video_hash (ev e)) (metadata_hash (ev e)) now ::
      receipts_of (n + 1) now l
  end.

Definition purge_expired_events (now batch_size : Z) (s : store) : store * list deletion_receipt :=
  let batch_size := Z.max 1 (Z.min batch_size RETENTION_BATCH_MAX_SIZE) in
  let gone := take (Z.to_nat batch_size) (filter (λ e, expired now e = true) (events s)) in
  let rs := receipts_of (next_receipt s) now gone in
  (Store (filter (λ e, ev_id e ∉ ev_id <$> gone) (events s)) (next_event s) (receipts s ++ rs)
     (next_receipt s + zlen rs) (history s) (next_history s), rs).

(** The loop of [RetentionWorker._purge], one instant of the clock per iteration; [None]
    when it needs more iterations. *)
Fixpoint purge_loop (clock : list Z) (batch_size : Z) (s : store) : option store :=
  match clock with
  | [] => None
  | now :: clock =>
      let '(s, rs) := purge_expired_events now batch_size s in
      if zlen rs <? batch_size then Some s else purge_loop clock batch_size s
  end.

(** * Ids ascend *)

Definition ids (s : store) : list Z := ev_id <$> events s.

Record store_ok (s : store) : Prop := {
  ok_sorted : StronglySorted Z.lt (ids s);
  ok_range : Forall (λ e, 1 ≤ ev_id e < next_event s) (events s);
}.

Lemma sublist_sorted {A} (R : A → A → Prop) (l k : list A) :
  sublist l k → StronglySorted R k → StronglySorted R l.
Proof.
  induction 1 as [|x l k Hlk IH|x l k Hlk IH]; intros Hs; [done| |].
  - apply StronglySorted_inv in Hs as [Hs Hx]. constructor; [by apply IH|].
    rewrite Forall_forall in *. intros y Hy. apply Hx. by eapply elem_of_sublist.
  - apply StronglySorted_inv in Hs as [Hs _]. by apply IH.
Qed.

Lemma insert_row_ok s d now : store_ok s → 1 ≤ next_event s → store_ok (insert_row s d now).1.
Proof.
  intros [Hs Hr] Hn. split; unfold ids; cbn.
  - rewrite fmap_app. cbn. fold (ids s).
    assert (Forall (λ x, x < next_event s) (ids s)) as Hlt
      by (apply Forall_fmap; eapply Forall_impl; [exact Hr|cbn; lia]).
    revert Hs Hlt. generalize (ids s) as l. induction l as [|x l IH]; cbn; [repeat constructor|].
    intros [Hs Hx]%StronglySorted_inv [Hlt Hl]%Forall_cons. constructor; [by apply IH|].
    apply Forall_app. split; [done|]. by repeat constructor.
  - apply Forall_app. split; [eapply Forall_impl; [exact Hr|cbn; lia]|]. repeat constructor; cbn; lia.
Qed.

(** * The cursor round trip *)

Lemma cursor_roundtrip `{Unicode} z :
  bigint z → decode_proof_events_cursor (PStr (encode_proof_events_cursor z)) = Ok z.
Proof.
  intros Hz. pose proof (py_int_dec z Hz) as Hi. destruct Hz as [H1 H2].
  pose proof (dec_str_digits z ltac:(lia)) as Hd.
  assert (bytes_ok (dec_str z)) as Hok by (eapply Forall_impl; [exact Hd|]; unfold byte_ok; cbn; lia).
  assert (forallb is_ascii (dec_str z) = true) as Hasc.
  { apply forallb_Forall. eapply Forall_impl; [exact Hd|]. cbn. unfold is_ascii. lia. }
  unfold decode_proof_events_cursor. set (c := encode_proof_events_cursor z).
  assert (pad_cursor c = c) as ->.
  { unfold pad_cursor. pose proof (length_b2a (b64_char 45 95) (dec_str z)) as Hm. fold (urlsafe_b64encode (dec_str z)) in Hm.
    unfold c, encode_proof_events_cursor, zlen. rewrite Z.mod_opp_l_z; [by rewrite app_nil_r|lia|].
    rewrite <- (Nat2Z.inj_mod _ 4), Hm. done. }
  assert (Forall (λ x, 33 ≤ x < 127) c) as Hc.
  { unfold c, encode_proof_events_cursor, urlsafe_b64encode. clear -Hok.
    assert (∀ v, 0 ≤ v < 64 → 33 ≤ b64_char 45 95 v < 127) as Hb
      by (intros v Hv; unfold b64_char; repeat case_match; bool_inv; lia).
    induction (dec_str z) as [l IH] using (induction_ltof1 _ (@length Z)). unfold ltof in IH.
    destruct l as [|a [|b [|c l]]]; [constructor| | |]; unfold bytes_ok in Hok; rewrite !Forall_cons in Hok;
      unfold byte_ok in *; cbn [b2a]; repeat constructor; try (apply Hb; Z.div_mod_to_equations; lia); try lia.
    apply IH; [cbn; lia|]. naive_solver. }
  assert (py_strip c = c) as Hstrip.
  { unfold py_strip. apply strip_by_none. eapply Forall_impl; [exact Hc|]. cbn. intros x Hx. unfold py_space.
    destruct (Z.ltb_spec x 128); [|lia]. lia. }
  rewrite Hstrip.
  assert (c ≠ []) as Hne.
  { unfold c, encode_proof_events_cursor, urlsafe_b64encode. rewrite dec_str_nonneg by lia.
    pose proof (digits_nonempty 10 z) as Hn. destruct (digits 10 z) as [|x [|y [|w l]]]; done. }
  rewrite bool_decide_eq_false_2 by done.
  assert (forallb is_ascii c = true) as ->
    by (apply forallb_Forall; eapply Forall_impl; [exact Hc|]; cbn; unfold is_ascii; lia).
  cbn [negb]. unfold c, encode_proof_events_cursor. rewrite urlsafe_roundtrip by done. rewrite Hasc. cbn [negb].
  rewrite Hi. by destruct (Z.ltb_spec z 1); [lia|].
Qed.

(** * Following the cursors *)

(** A client that asks for the first page and follows [nextCursor], one request per store
    it meets; returns what it was given and whether the listing ended. *)
Fixpoint follow `{Unicode} (page : option Z → store → list proof_event * option str) (cursor_id : option Z)
    (stores : list store) : list proof_event * bool :=
  match stores with
  | [] => ([], false)
  | s :: stores =>
      match page cursor_id s with
      | (rows, None) => (rows, true)
      | (rows, Some token) =>
          match decode_proof_events_cursor (PStr token) with
          | Ok c => let '(more, ended) := follow page (Some c) stores in (rows ++ more, ended)
          | Err _ => (rows, false)
          end
      end
  end.

(** Others have inserted rows since. *)
Definition extends (s s' : store) : Prop :=
  ∃ new, events s' = events s ++ new ∧ Forall (λ e, next_event s ≤ ev_id e) new.

Definition desc (l : list proof_event) : Prop := StronglySorted (λ a b, ev_id b < ev_id a) l.

Lemma sorted_rev {A} (R : A → A → Prop) (l : list A) :
  StronglySorted R l → StronglySorted (λ a b, R b a) (rev l).
Proof.
  induction 1 as [|x l Hs IH Hx]; [constructor|]. cbn.
  assert (Forall (λ y, R x y) (rev l)) as Hr by (by apply Forall_rev).
  revert IH Hr. generalize (rev l) as k. induction k as [|y k IHk]; cbn; [repeat constructor|].
  intros [Hk Hy]%StronglySorted_inv [Hxy Hxk]%Forall_cons. constructor; [by apply IHk|].
  apply Forall_app. split; [done|]. by repeat constructor.
Qed.

Lemma sorted_fmap {A B} (f : A → B) (R : B → B → Prop) (l : list A) :
  StronglySorted R (f <$> l) → StronglySorted (λ a b, R (f a) (f b)) l.
Proof.
  induction l as [|x l IH]; [constructor|]. rewrite fmap_cons. intros [Hs Hx]%StronglySorted_inv.
  constructor; [by apply IH|]. by rewrite Forall_fmap in Hx.
Qed.

(** The matching events below a cursor, newest first. *)
Definition remaining (p : proof_event → bool) (cursor_id : option Z) (s : store) : list proof_event :=
  filter (λ e, p e && before cursor_id e = true) (rev (events s)).

Lemma remaining_desc p c s : store_ok s → desc (remaining p c s).
Proof.
  intros [Hs _]. unfold remaining, desc.
  eapply sublist_sorted; [|apply (sorted_rev (λ a b, ev_id a < ev_id b)), sorted_fmap, Hs].
  apply sublist_filter.
Qed.

Lemma elem_of_rev {A} (x : A) l : x ∈ rev l ↔ x ∈ l.
Proof. by rewrite !list_elem_of_In, <- in_rev. Qed.

(** After [k] rows, the rest is what lies below the last of them. *)
Lemma desc_drop l k e :
  desc l → last (take k l) = Some e → filter (λ x, (ev_id x <? ev_id e) = true) l = drop k l.
Proof.
  revert k. induction l as [|x l IH]; intros [|k] Hd Hl; try discriminate Hl.
  apply StronglySorted_inv in Hd as [Hd Hx]. change (take (S k) (x :: l)) with (x :: take k l) in Hl.
  change (drop (S k) (x :: l)) with (drop k l).
  assert (e = x ∨ e ∈ take k l) as He.
  { apply last_Some_elem_of in Hl. by apply elem_of_cons in Hl. }
  assert (Forall (λ y, ev_id y < ev_id x) l) as Hxl by exact Hx.
  rewrite filter_cons_False.
  2:{ rewrite Z.ltb_lt. destruct He as [->|Hin]; [lia|].
      apply (elem_of_sublist _ l) in Hin; [|apply sublist_take]. rewrite Forall_forall in Hxl. apply Hxl in Hin. lia. }
  destruct (take k l) as [|y k'] eqn:Hk.
  - cbn in Hl. injection Hl as ->. assert (drop k l = l) as -> by (by destruct k, l).
    apply filter_all. eapply Forall_impl; [exact Hxl|]. cbn. intros. by apply Z.ltb_lt.
  - apply IH; [done|]. by rewrite Hk.
Qed.

(** One page, and what the next cursor leaves. *)
Lemma page_of_spec p limit c s :
  store_ok s →
  let n := Z.to_nat (clamp_proof_events_limit limit) in
  (length (remaining p c s) ≤ n)%nat ∧ page_of p limit c s = (remaining p c s, None) ∨
  ∃ e, last (take n (remaining p c s)) = Some e ∧ e ∈ events s ∧ before c e = true ∧
    page_of p limit c s = (take n (remaining p c s), Some (encode_proof_events_cursor (ev_id e))) ∧
    remaining p (Some (ev_id e)) s = drop n (remaining p c s).
Proof.
  intros Hok n. unfold page_of. set (ps := clamp_proof_events_limit limit) in *.
  assert (1 ≤ ps) as Hps by (unfold ps, clamp_proof_events_limit; lia).
  assert (select_desc p c (Z.to_nat (ps + 1)) s = take (S n) (remaining p c s)) as ->.
  { unfold select_desc. f_equal. unfold n. lia. }
  set (l := remaining p c s). destruct (Z.ltb_spec ps (zlen (take (S n) l))) as [Hlt|Hge].
  - right. unfold zlen in Hlt. rewrite length_take in Hlt.
    assert (take n (take (S n) l) = take n l) as Htk by (rewrite take_take; f_equal; lia). fold n. rewrite Htk.
    destruct (last (take n l)) as [e|] eqn:He.
    2:{ apply last_None in He. apply (f_equal length) in He. rewrite length_take in He. cbn in He. lia. }
    assert (e ∈ l) as Hin.
    { apply last_Some_elem_of in He. eapply elem_of_sublist; [exact He|apply sublist_take]. }
    unfold l, remaining in Hin. apply list_elem_of_filter in Hin as [[Hp Hb]%andb_true_iff Hin].
    exists e. split_and!; [done|by apply elem_of_rev|done|done|].
    rewrite <- (desc_drop l n e) by (done || by apply remaining_desc). unfold l, remaining.
    rewrite list_filter_filter. apply list_filter_iff. intros x. cbn [before].
    rewrite !andb_true_iff, !Z.ltb_lt. destruct c as [c|]; cbn [before] in *; [|tauto].
    apply Z.ltb_lt in Hb. rewrite Z.ltb_lt. intuition lia.
  - left. unfold zlen in Hge. rewrite length_take in Hge. split; [unfold n; lia|].
    rewrite take_ge by lia. done.
Qed.

Lemma extends_remaining p c s s' :
  extends s s' → c ≤ next_event s → remaining p (Some c) s' = remaining p (Some c) s.
Proof.
  intros (new & Hev & Hnew) Hc. unfold remaining. rewrite Hev, rev_app_distr, filter_app.
  rewrite (filter_none _ (rev new)); [done|]. apply Forall_rev. eapply Forall_impl; [exact Hnew|].
  cbn. intros e He. rewrite andb_true_iff, Z.ltb_lt. lia.
Qed.

Lemma follow_from `{Unicode} p limit c s0 stores :
  store_ok s0 → Forall (λ e, bigint (ev_id e)) (events s0) →
  Forall (λ s, store_ok s ∧ extends s0 s) stores → c ≤ next_event s0 →
  (length (remaining p (Some c) s0) < length stores)%nat →
  follow (page_of p limit) (Some c) stores = (remaining p (Some c) s0, true).
Proof.
  intros Hok Hbig Hst. revert c. induction Hst as [|s stores [Hs Hext] Hst IH]; intros c Hc Hlen; [cbn in Hlen; lia|].
  cbn [follow]. rewrite <- (extends_remaining p c s0 s Hext Hc) in Hlen |- *.
  destruct (page_of_spec p limit (Some c) s Hs) as [[_ ->]|(e & He & Hin & Hb & -> & Hrem)]; [done|].
  cbn [before] in Hb. apply Z.ltb_lt in Hb.
  assert (e ∈ events s0) as Hin0.
  { destruct Hext as (new & Hev & Hnew). rewrite Hev in Hin. apply elem_of_app in Hin as [|Hin]; [done|].
    rewrite Forall_forall in Hnew. apply Hnew in Hin. lia. }
  rewrite Forall_forall in Hbig. rewrite cursor_roundtrip by (by apply Hbig).
  assert (remaining p (Some (ev_id e)) s0 = drop (Z.to_nat (clamp_proof_events_limit limit)) (remaining p (Some c) s)) as Hd
    by (rewrite <- Hrem; symmetry; apply extends_remaining; [done|lia]).
  rewrite IH; [rewrite Hd; by rewrite take_drop|lia|].
  rewrite Hd, length_drop. apply last_Some_elem_of, list_elem_of_lookup in He as [i Hi].
  apply lookup_lt_Some in Hi. rewrite length_take in Hi. cbn in Hlen. lia.
Qed.

Lemma follow_all `{Unicode} p limit s0 stores :
  store_ok s0 → Forall (λ e, bigint (ev_id e)) (events s0) →
  Forall (λ s, store_ok s ∧ extends s0 s) stores → (length (events s0) ≤ length stores)%nat →
  follow (page_of p limit) None (s0 :: stores) = (filter (λ e, p e = true) (rev (events s0)), true).
Proof.
  intros Hok Hbig Hst Hlen. cbn [follow].
  assert (remaining p None s0 = filter (λ e, p e = true) (rev (events s0))) as Hall.
  { unfold remaining. apply list_filter_iff. intros x. cbn. by rewrite andb_true_r. }
  destruct (page_of_spec p limit None s0 Hok) as [[_ ->]|(e & He & Hin & _ & -> & Hrem)]; [by rewrite Hall|].
  rewrite Forall_forall in Hbig. rewrite cursor_roundtrip by (by apply Hbig).
  destruct Hok as [Hsort Hrange]. rewrite Forall_forall in Hrange. pose proof (Hrange e Hin).
  rewrite (follow_from p limit _ s0); [by rewrite Hrem, take_drop, Hall|by split; [|apply Forall_forall]| |done|lia|].
  - by apply Forall_forall.
  - rewrite Hrem, length_drop. apply last_Some_elem_of, list_elem_of_lookup in He as [i Hi].
    apply lookup_lt_Some in Hi. rewrite length_take in Hi.
    assert (length (remaining p None s0) ≤ length (events s0))%nat; [|lia].
    unfold remaining. rewrite <- (length_rev (events s0)). apply length_filter.
Qed.

(** C5. Keyset pagination: a client that asks for the first page of the event list, or of
    the events of a video, and follows the cursors it is given, is given every matching
    event of the table as it was at the first request exactly once, newest first, and is
    told the end, whatever the page limit and whatever others insert between its
    requests. *)
Theorem pages_list_everything `{Unicode} limit vh s0 stores :
  store_ok s0 → Forall (λ e, bigint (ev_id e)) (events s0) →
  Forall (λ s, store_ok s ∧ extends s0 s) stores → (length (events s0) ≤ length stores)%nat →
  follow (list_proof_events limit) None (s0 :: stores) = (rev (events s0), true) ∧
  follow (find_proof_events_by_video vh limit) None (s0 :: stores) =
    (filter (λ e, video_hash (ev e) = Some vh) (rev (events s0)), true).
Proof.
  intros Hok Hbig Hst Hlen. split.
  - change (list_proof_events limit) with (page_of (λ _, true) limit).
    rewrite follow_all by done. f_equal. apply filter_all, Forall_forall. done.
  - change (find_proof_events_by_video vh limit)
      with (page_of (λ e, bool_decide (video_hash (ev e) = Some vh)) limit).
    rewrite follow_all by done. f_equal.
    apply list_filter_iff. intros e. by rewrite bool_decide_eq_true.
Qed.

(** * Retention *)

Lemma store_ok_nodup s : store_ok s → NoDup (ids s).
Proof.
  intros [Hs _]. induction Hs as [|x l Hs IH Hx]; [constructor|]. constructor; [|done].
  intros Hin. rewrite Forall_forall in Hx. apply Hx in Hin. lia.
Qed.

Lemma ids_inj s e e' : store_ok s → e ∈ events s → e' ∈ events s → ev_id e = ev_id e' → e = e'.
Proof.
  intros Hnd%store_ok_nodup [i Hi]%list_elem_of_lookup [j Hj]%list_elem_of_lookup Heq.
  assert (ids s !! i = Some (ev_id e)) as Hi' by (unfold ids; by rewrite list_lookup_fmap, Hi).
  assert (ids s !! j = Some (ev_id e)) as Hj' by (unfold ids; rewrite list_lookup_fmap, Hj; cbn; by rewrite Heq).
  pose proof (NoDup_lookup _ _ _ _ Hnd Hi' Hj') as ->. congruence.
Qed.

Lemma receipts_of_ids n now l : dr_event_id <$> receipts_of n now l = ev_id <$> l.
Proof. revert n. induction l as [|e l IH]; intros n; [done|]. cbn. by rewrite IH. Qed.

(** What one page deletes. *)
Definition page_gone (now batch_size : Z) (s : store) : list proof_event :=
  take (Z.to_nat (Z.max 1 (Z.min batch_size RETENTION_BATCH_MAX_SIZE))) (filter (λ e, expired now e = true) (events s)).

Lemma purge_page now b s :
  let '(s', rs) := purge_expired_events now b s in
  events s' = filter (λ e, ev_id e ∉ ev_id <$> page_gone now b s) (events s) ∧
  next_event s' = next_event s ∧ receipts s' = receipts s ++ rs ∧
  dr_event_id <$> rs = ev_id <$> page_gone now b s.
Proof. cbn. split_and!; [done..|]. apply receipts_of_ids. Qed.

Lemma page_gone_sub now b s : sublist (page_gone now b s) (events s).
Proof. unfold page_gone. etrans; [apply sublist_take|apply sublist_filter]. Qed.

Lemma page_gone_expired now b s e : e ∈ page_gone now b s → expired now e = true.
Proof.
  intros He. unfold page_gone in He.
  apply (elem_of_sublist _ (filter (λ e, expired now e = true) (events s))) in He; [|apply sublist_take].
  by apply list_elem_of_filter in He as [? _].
Qed.

(** A short page has taken everything. *)
Lemma short_page now b s :
  1 ≤ b ≤ RETENTION_BATCH_MAX_SIZE → zlen (page_gone now b s) < b →
  page_gone now b s = filter (λ e, expired now e = true) (events s).
Proof.
  intros Hb. unfold page_gone. set (l := filter _ _). rewrite Z.min_l, Z.max_r by lia. unfold zlen.
  rewrite length_take. intros Hlt. apply take_ge. lia.
Qed.

Lemma purge_events now b s e :
  store_ok s → e ∈ filter (λ e, ev_id e ∉ ev_id <$> page_gone now b s) (events s) ↔
  e ∈ events s ∧ e ∉ page_gone now b s.
Proof.
  intros Hok. rewrite list_elem_of_filter. split.
  - intros [Hid Hin]. split; [done|]. intros Hg. apply Hid, list_elem_of_fmap. by exists e.
  - intros [Hin Hg]. split; [|done]. intros (e' & Hid & He')%list_elem_of_fmap.
    assert (e = e') as ->; [|done]. apply (ids_inj s); [done..| |done].
    eapply elem_of_sublist; [exact He'|apply page_gone_sub].
Qed.

Lemma purge_ok now b s : store_ok s → store_ok (purge_expired_events now b s).1.
Proof.
  intros [Hs Hr]. split; unfold ids; cbn.
  - eapply sublist_sorted; [|exact Hs]. apply fmap_sublist, sublist_filter.
  - rewrite Forall_forall in *. intros e [_ He]%list_elem_of_filter. by apply Hr.
Qed.

Lemma expired_mono t t' e : t ≤ t' → expired t e = true → expired t' e = true.
Proof. unfold expired. destruct (expires_at (ev e)); [|done]. rewrite !andb_true_iff, !Z.leb_le. intuition lia. Qed.

(** From [s] to [s'], the events expired by [t1] that are gone have receipts [rs]. *)
Record purged (t1 : Z) (s s' : store) (rs : list deletion_receipt) : Prop := {
  pg_receipts : receipts s' = receipts s ++ rs;
  pg_sub : sublist (events s') (events s);
  pg_expired : ∀ e, e ∈ events s → e ∉ events s' → expired t1 e = true;
  pg_known : ∀ i, i ∈ dr_event_id <$> rs → i ∈ ids s;
  pg_nodup : NoDup (dr_event_id <$> rs);
  pg_exact : ∀ e, e ∈ events s → e ∈ events s' ↔ ev_id e ∉ dr_event_id <$> rs;
}.

Lemma purge_step now b s t1 :
  store_ok s → now ≤ t1 → purged t1 s (purge_expired_events now b s).1 (purge_expired_events now b s).2.
Proof.
  intros Hok Hle. pose proof (purge_page now b s) as Hp.
  destruct (purge_expired_events now b s) as [s1 rs1]. destruct Hp as (Hev & Hnext & Hrc & Hids). cbn [fst snd].
  assert (∀ e, e ∈ events s1 ↔ e ∈ events s ∧ e ∉ page_gone now b s) as Hin by (intros e; rewrite Hev; by apply purge_events).
  assert (∀ e, e ∈ page_gone now b s → e ∈ events s) as Hps
    by (intros e He; eapply elem_of_sublist; [exact He|apply page_gone_sub]).
  split.
  - done.
  - rewrite Hev. apply sublist_filter.
  - intros e He Hne. rewrite Hin in Hne. destruct (decide (ev_id e ∈ ev_id <$> page_gone now b s)) as [Hg|Hg].
    + apply list_elem_of_fmap in Hg as (e' & Hid & He'). assert (e = e') as -> by (apply (ids_inj s); auto).
      apply page_gone_expired in He'. by eapply expired_mono; [|exact He'].
    + exfalso. apply Hne. split; [done|]. intros Hg'. apply Hg, list_elem_of_fmap. by exists e.
  - rewrite Hids. intros i (e & -> & He)%list_elem_of_fmap. apply list_elem_of_fmap. eauto.
  - rewrite Hids. eapply sublist_NoDup; [|apply fmap_sublist, page_gone_sub]. by apply store_ok_nodup.
  - intros e He. rewrite Hids, Hin. split.
    + intros [_ Hg] (e' & Hid & He')%list_elem_of_fmap. assert (e = e') as -> by (apply (ids_inj s); auto). done.
    + intros Hg. split; [done|]. intros Hg'. apply Hg, list_elem_of_fmap. by exists e.
Qed.

Lemma purged_trans t1 s s1 s2 r1 r2 :
  store_ok s → purged t1 s s1 r1 → purged t1 s1 s2 r2 → purged t1 s s2 (r1 ++ r2).
Proof.
  intros Hok [Hr1 Hs1 He1 Hk1 Hn1 Hx1] [Hr2 Hs2 He2 Hk2 Hn2 Hx2].
  assert (∀ e, e ∈ events s1 → e ∈ events s) as Hsub by (intros e He; by eapply elem_of_sublist).
  split.
  - by rewrite Hr2, Hr1, app_assoc.
  - by etrans.
  - intros e He Hne. destruct (decide (ev_id e ∈ dr_event_id <$> r1)) as [Hi|Hi].
    + apply He1; [done|]. rewrite Hx1 by done. tauto.
    + apply He2; [by apply Hx1|done].
  - intros i. rewrite fmap_app, elem_of_app. intros [Hi|Hi]; [by apply Hk1|].
    apply Hk2, list_elem_of_fmap in Hi as (e & -> & He). apply list_elem_of_fmap. eauto.
  - rewrite fmap_app. apply NoDup_app. split_and!; [done| |done]. intros i Hi1 Hi2.
    apply Hk2, list_elem_of_fmap in Hi2 as (e & -> & He). apply Hx1 in He as He'; auto.
  - intros e He. rewrite fmap_app, elem_of_app. destruct (decide (ev_id e ∈ dr_event_id <$> r1)) as [Hi|Hi].
    + split; [|tauto]. intros He2'. assert (e ∈ events s1) as Hin by (by eapply elem_of_sublist).
      apply Hx1 in Hin; [done|done].
    + rewrite Hx2 by (by apply Hx1). tauto.
Qed.

(** C6. Retention: a run of the worker ends after at most one page more than there are
    events, and at its end every event that had expired when it began and is not on hold
    is gone, every event that was deleted had expired and was not on hold, the others are
    untouched, and there is exactly one deletion receipt for each deleted event. *)
Theorem retention_drains s clock b t0 t1 :
  store_ok s → 1 ≤ b ≤ RETENTION_BATCH_MAX_SIZE →
  Forall (λ t, t0 ≤ t ≤ t1) clock → (length (events s) < length clock)%nat →
  ∃ s' rs, purge_loop clock b s = Some s' ∧ purged t1 s s' rs ∧
    Forall (λ e, expired t0 e = false) (events s').
Proof.
  intros Hok Hb Hclock. revert s Hok. induction Hclock as [|now clock Hnow Hclock IH]; intros s Hok Hlen; [cbn in Hlen; lia|].
  cbn [purge_loop]. pose proof (purge_page now b s) as Hp. pose proof (purge_ok now b s Hok) as Hok'.
  pose proof (purge_step now b s t1 Hok ltac:(lia)) as Hstep.
  destruct (purge_expired_events now b s) as [s1 rs1]. destruct Hp as (Hev & _ & _ & Hids). cbn [fst snd] in *.
  assert (zlen rs1 = zlen (page_gone now b s)) as Hzl.
  { apply (f_equal length) in Hids. rewrite !length_fmap in Hids. unfold zlen. lia. }
  destruct (Z.ltb_spec (zlen rs1) b) as [Hshort|Hfull].
  - exists s1, rs1. split_and!; [done..|]. apply Forall_forall. intros e He.
    rewrite Hev in He. apply purge_events in He as [He Hn]; [|done]. rewrite short_page in Hn by (done || lia).
    destruct (expired t0 e) eqn:Hexp; [|done]. exfalso. apply Hn, list_elem_of_filter.
    split; [|done]. eapply expired_mono; [|exact Hexp]. lia.
  - destruct (IH s1 Hok') as (s' & rs & Hloop & Hpg & Hnone).
    { assert (length (events s1) < length (events s))%nat; [|cbn in Hlen; lia].
      destruct (page_gone now b s) as [|e l] eqn:Hg; [unfold zlen in *; cbn in *; lia|]. rewrite Hev.
      apply (length_filter_lt _ _ e); [|intros Hn; apply Hn; by left].
      eapply elem_of_sublist; [|apply (page_gone_sub now b s)]. rewrite Hg. by left. }
    exists s', (rs1 ++ rs). split_and!; [done|by eapply purged_trans|done].
Qed.

(** * Witnesses *)

#[local] Instance sample_unicode : Unicode := plain_unicode.

Definition sample_event (vh : str) (expiry : option Z) : event_data :=
  EventData (lit "embed") None (Some vh) None None None None None None None None None expiry None None None None None.

Definition sample_store : store :=
  (insert_row (insert_row empty_store (sample_event (lit "a") (Some 10)) 0).1 (sample_event (lit "b") None) 1).1.

Lemma sample_store_ok : store_ok sample_store.
Proof.
  apply insert_row_ok; [apply insert_row_ok; [|vm_compute; discriminate]|vm_compute; discriminate].
  split; constructor.
Qed.

Lemma pages_list_everything_witness :
  follow (list_proof_events 1) None [sample_store; sample_store; sample_store] = (rev (events sample_store), true) ∧
  follow (find_proof_events_by_video (lit "a") 1) None [sample_store; sample_store; sample_store] =
    (filter (λ e, video_hash (ev e) = Some (lit "a")) (rev (events sample_store)), true).
Proof.
  apply (pages_list_everything 1 (lit "a") sample_store [sample_store; sample_store]).
  - exact sample_store_ok.
  - repeat constructor; vm_compute; discriminate.
  - apply Forall_forall. intros s Hs. assert (s = sample_store) as -> by (rewrite !elem_of_cons in Hs; by destruct Hs as [|[|[]%elem_of_nil]]).
    split; [exact sample_store_ok|]. exists []. split; [by rewrite app_nil_r|constructor].
  - vm_compute. repeat constructor.
Defined.

Lemma retention_drains_witness :
  ∃ s' rs, purge_loop [10; 11; 12] 1 sample_store = Some s' ∧ purged 12 sample_store s' rs ∧
    Forall (λ e, expired 10 e = false) (events s').
Proof.
  apply (retention_drains sample_store [10; 11; 12] 1 10 12).
  - exact sample_store_ok.
  - vm_compute. split; discriminate.
  - repeat constructor; vm_compute; discriminate.
  - vm_compute. repeat constructor.
Defined.
