(* ===== verification/Webhook.v ===== *)
(** Webhook deliveries ([backend/webhook.py]) with a configured database: subscription
    filters, queueing, leasing with retries and dead letters, the signed request and the
    dispatcher.  Events are those of [ProofStore]; HTTP is a parameter; instants are
    seconds.

    Shown: in any interleaving of dispatchers, a delivery whose outcomes are all recorded
    within their leases has at most six attempts, none after a success, and is
    dead-lettered exactly after six failures; an outcome recorded after its lease can
    reopen a delivery that succeeded; the signature binds timestamp and body up to collisions of
    SHA-256 on the named messages. *)
From Stdlib Require Import ZArith Lia.
From stdpp Require Import base decidable strings numbers relations list.
From S2P Require Import Prelude PyStr Json Sha256 ProofStore.

Open Scope Z_scope.

#[local] Arguments lit _ : simpl never.

(** * The tables *)

Definition MAX_RETRIES : Z := 5.
Definition RETRY_BACKOFF_SECONDS : list Z := [10; 60; 300; 3600; 86400].
Definition ALLOWED_EVENT_TYPES : list str :=
  [lit "registration"; lit "revocation"; lit "transfer"; lit "verification"].

Record subscription := Subscription {
  sub_id : Z;
  sub_url : str;
  secret_key : str;
  event_types : option (list str);
  is_active : bool;
}.

Inductive delivery_status : Type := pending | failed | success | dead_letter.

#[export] Instance delivery_status_eq_dec : EqDecision delivery_status.
Proof. solve_decision. Defined.

Record delivery := Delivery {
  dl_id : Z;
  dl_subscription : Z;
  dl_event : Z;
  dl_status : delivery_status;
  retry_count : Z;
  next_retry_at : Z;
  lease_expires_at : option Z;
  last_response_code : option Z;
  updated_at : Z;
}.

Record hooks := Hooks {
  subscriptions : list subscription;
  deliveries : list delivery;
  next_delivery : Z;
}.

(** * Subscriptions *)

(** [validate_event_types]: the filter of a subscription, [None] for all events. *)
Definition validate_event_types (v : pyval) : result exn (option (list str)) :=
  match v with
  | PNone => Ok None
  | PList l =>
      names ← result_mapM (λ x,
        match x with
        | PStr s => if bool_decide (s ∈ ALLOWED_EVENT_TYPES) then Ok s else Err (ValueError "Unknown webhook event type")
        | _ => Err (ValueError "Unknown webhook event type")
        end) l;
      Ok (Some names)
  | _ => Err (ValueError "event_types must be a list of strings or None")
  end.

Definition get_active_subscriptions (h : hooks) : list subscription :=
  filter (λ s, is_active s = true) (subscriptions h).

(** [sub_types is not None and event_type not in sub_types] skips the subscription. *)
Definition wants (etype : str) (s : subscription) : bool :=
  match event_types s with None => true | Some names => bool_decide (etype ∈ names) end.

Definition add_delivery (event_id now : Z) (h : hooks) (s : subscription) : hooks :=
  Hooks (subscriptions h)
    (deliveries h ++ [Delivery (next_delivery h) (sub_id s) event_id pending 0 now None None now])
    (next_delivery h + 1).

Definition find_event (db : store) (event_id : Z) : option proof_event :=
  snd <$> list_find (λ e, ev_id e = event_id) (events db).

Definition queue_webhook_deliveries (db : store) (event_id now : Z) (h : hooks) : hooks :=
  match get_active_subscriptions h with
  | [] => h
  | subs =>
      match find_event db event_id with
      | None => h
      | Some e => foldl (add_delivery event_id now) h (filter (λ s, wants (event_type (ev e)) s = true) subs)
      end
  end.

(** * Leasing *)

Definition ready (now : Z) (d : delivery) : bool :=
  (bool_decide (dl_status d = pending) || bool_decide (dl_status d = failed)) &&
  (next_retry_at d <=? now) &&
  match lease_expires_at d with None => true | Some t => t <=? now end.

(** [order by next_retry_at asc] *)
Fixpoint insert_due (d : delivery) (l : list delivery) : list delivery :=
  match l with
  | [] => [d]
  | x :: l => if next_retry_at d <=? next_retry_at x then d :: x :: l else x :: insert_due d l
  end.
Definition by_due (l : list delivery) : list delivery := foldr insert_due [] l.

Definition leased (now limit : Z) (h : hooks) : list delivery :=
  take (Z.to_nat limit) (by_due (filter (λ d, ready now d = true) (deliveries h))).

Definition set_lease (now lease_expires : Z) (d : delivery) : delivery :=
  Delivery (dl_id d) (dl_subscription d) (dl_event d) (dl_status d) (retry_count d) (next_retry_at d)
    (Some lease_expires) (last_response_code d) now.

(** The update of one row. *)
Definition update_rows (f : delivery → delivery) (chosen : list Z) (h : hooks) : hooks :=
  Hooks (subscriptions h) (map (λ d, if bool_decide (dl_id d ∈ chosen) then f d else d) (deliveries h)) (next_delivery h).

(** What a dispatcher is handed. *)
Record job := Job {
  job_delivery : Z;
  job_retry_count : Z;
  job_url : str;
  job_secret : str;
  job_payload : pyval;
}.

Section payload.
(** [created_at.isoformat()] *)
Variable isoformat : Z → str.

Definition text_or_null (o : option str) : pyval := match o with Some s => PStr s | None => PNone end.

Definition event_payload (e : proof_event) : pyval :=
  let d := ev e in
  PDict [(lit "event_type", PStr (event_type d)); (lit "file_name", text_or_null (file_name d));
    (lit "video_hash", text_or_null (video_hash d)); (lit "metadata_hash", text_or_null (metadata_hash d));
    (lit "proof_id", text_or_null (proof_id d)); (lit "tier", text_or_null (tier d));
    (lit "embedded_hash", text_or_null (embedded_hash d)); (lit "tx_hash", text_or_null (tx_hash d));
    (lit "tx_status", text_or_null (tx_status d)); (lit "source_address", text_or_null (source_address d));
    (lit "contract_id", text_or_null (contract_id d)); (lit "metadata", default PNone (metadata d));
    (lit "created_at", PStr (isoformat (created_at e)))].

(** The join of one leased delivery with its subscription and event. *)
Definition job_of (db : store) (h : hooks) (d : delivery) : option job :=
  match snd <$> list_find (λ s, sub_id s = dl_subscription d) (subscriptions h), find_event db (dl_event d) with
  | Some s, Some e => Some (Job (dl_id d) (retry_count d) (sub_url s) (secret_key s) (event_payload e))
  | _, _ => None
  end.

Definition lease_deliveries (db : store) (limit lease_duration now : Z) (h : hooks) : hooks * list job :=
  let ds := leased now limit h in
  (update_rows (set_lease now (now + lease_duration)) (dl_id <$> ds) h, omap (job_of db h) ds).
End payload.

(** * Results *)

Definition backoff (retries : Z) : Z :=
  default 86400 (RETRY_BACKOFF_SECONDS !! Z.to_nat retries).

Definition finish_delivery (ok : bool) (code : option Z) (retries now : Z) (d : delivery) : delivery :=
  let row status retries next :=
    Delivery (dl_id d) (dl_subscription d) (dl_event d) status retries next None code now in
  if ok then row success retries now
  else if MAX_RETRIES <=? retries then row dead_letter retries now
  else row failed (retries + 1) (now + backoff retries).

Definition update_delivery_status (id : Z) (ok : bool) (code : option Z) (retries now : Z) (h : hooks) : hooks :=
  update_rows (finish_delivery ok code retries now) [id] h.

(** * The request *)

Definition xor_pad (pad : Z) (key : bytes) : bytes := Z.lxor pad <$> (key ++ replicate (64 - length key) 0).

(** [hmac.new(key, digestmod=sha256)] over a message *)
Definition hmac_key (key : bytes) : bytes := if 64 <? zlen key then sha256 key else key.
Definition hmac_inner (key msg : bytes) : bytes := xor_pad 54 (hmac_key key) ++ msg.
Definition hmac_outer (key msg : bytes) : bytes := xor_pad 92 (hmac_key key) ++ sha256 (hmac_inner key msg).
Definition hmac_sha256 (key msg : bytes) : bytes := sha256 (hmac_outer key msg).

(** The message of a signature: the timestamp, a dot and the body. *)
Definition signed_message (payload : bytes) (timestamp : Z) : bytes := dec_str timestamp ++ 46 :: payload.

Definition sign_payload (payload : bytes) (secret : str) (timestamp : Z) : result exn str :=
  match utf8_encode secret with
  | Some key => Ok (bytes_hex (hmac_sha256 key (signed_message payload timestamp)))
  | None => Err UnicodeError
  end.

Definition is_header_safe (v : pyval) : bool :=
  match v with PStr ((_ :: _) as s) => forallb (λ c, (32 <? c) && (c <? 127)) s | _ => false end.

Record post := Post { post_url : str; post_body : bytes; post_headers : list (str * str) }.

Definition post_of (timestamp : Z) (j : job) : result exn post :=
  match utf8_encode (print_value true (job_payload j)) with
  | None => Err UnicodeError
  | Some body =>
      signature ← sign_payload body (job_secret j) timestamp;
      let etype := match job_payload j with PDict d => get_or_none (lit "event_type") d | _ => PNone end in
      Ok (Post (job_url j) body (
        [(lit "Content-Type", lit "application/json");
         (lit "X-Harpocrates-Signature", lit "t=" ++ dec_str timestamp ++ lit ",v1=" ++ signature);
         (lit "User-Agent", lit "Harpocrates-Webhook/1.0");
         (lit "X-Harpocrates-Delivery", dec_str (job_delivery j));
         (lit "X-Harpocrates-Attempt", dec_str (job_retry_count j + 1))] ++
        match etype with
        | PStr s => if is_header_safe etype then [(lit "X-Harpocrates-Event", s)] else []
        | _ => []
        end))
  end.

(** What [safe_urlopen] did: a response, an [HTTPError] or another exception. *)
Inductive http_outcome : Type := Response (status : Z) | HttpError (status : Z) | NoAnswer.

Definition outcome_code (o : http_outcome) : option Z :=
  match o with Response s | HttpError s => Some s | NoAnswer => None end.
Definition outcome_ok (o : http_outcome) : bool :=
  match o with Response s => (200 <=? s) && (s <? 300) | _ => false end.

(** [dispatch_webhook] at [timestamp], ending at [now]. *)
Definition dispatch_webhook (send : post → http_outcome) (timestamp now : Z) (j : job) (h : hooks) : result exn hooks :=
  p ← post_of timestamp j;
  let o := send p in
  Ok (update_delivery_status (job_delivery j) (outcome_ok o) (outcome_code o) (job_retry_count j) now h).

(** * Dispatchers at work *)

(** A delivery in the hands of a dispatcher, until its lease expires. *)
Record flight := Flight { fl_id : Z; fl_retries : Z; fl_expiry : Z }.

(** The table, the dispatchers' deliveries, the time, the recorded attempts and the
    deliveries an outcome of which was recorded when its lease had run out. *)
Record system := System {
  table : hooks;
  flights : list flight;
  clock : Z;
  attempts : list (Z * bool);
  overdue : list Z;
}.

Definition flights_of (expiry : Z) (js : list job) : list flight :=
  map (λ j, Flight (job_delivery j) (job_retry_count j) expiry) js.

(** The steps of any number of dispatchers: [update_delivery_status] does not look at the
    lease, so one may record its outcome at any time, or never. *)
Inductive wstep (isoformat : Z → str) : system → system → Prop :=
  | StepQueue s db event_id now :
      clock s ≤ now →
      wstep isoformat s (System (queue_webhook_deliveries db event_id now (table s)) (flights s) now (attempts s) (overdue s))
  | StepLease s db limit duration now h js :
      clock s ≤ now → lease_deliveries isoformat db limit duration now (table s) = (h, js) →
      wstep isoformat s (System h (flights s ++ flights_of (now + duration) js) now (attempts s) (overdue s))
  | StepFinish s l f r o now :
      clock s ≤ now → flights s = l ++ f :: r →
      wstep isoformat s (System
        (update_delivery_status (fl_id f) (outcome_ok o) (outcome_code o) (fl_retries f) now (table s))
        (l ++ r) now (attempts s ++ [(fl_id f, outcome_ok o)])
        (if now <? fl_expiry f then overdue s else fl_id f :: overdue s))
  | StepCrash s l f r now :
      clock s ≤ now → flights s = l ++ f :: r → wstep isoformat s (System (table s) (l ++ r) now (attempts s) (overdue s)).

Definition initial (subs : list subscription) (now : Z) : system := System (Hooks subs [] 1) [] now [] [].

(** The recorded attempts at a delivery with a result. *)
Definition tries (log : list (Z * bool)) (id : Z) (ok : bool) : Z :=
  zlen (filter (λ a, a = (id, ok)) log).

(** The status of a delivery accounts for its attempts. *)
Definition accounted (log : list (Z * bool)) (d : delivery) : Prop :=
  let ok := tries log (dl_id d) true in
  let bad := tries log (dl_id d) false in
  0 ≤ retry_count d ≤ MAX_RETRIES ∧
  match dl_status d with
  | pending | failed => ok = 0 ∧ bad = retry_count d
  | success => ok = 1 ∧ bad = retry_count d
  | dead_letter => ok = 0 ∧ bad = MAX_RETRIES + 1
  end.

(** A flight whose lease runs holds its row. *)
Definition holds (h : hooks) (f : flight) : Prop :=
  ∃ d, d ∈ deliveries h ∧ dl_id d = fl_id f ∧ (dl_status d = pending ∨ dl_status d = failed) ∧
    retry_count d = fl_retries f ∧ lease_expires_at d = Some (fl_expiry f).

Definition running (now : Z) (f : flight) : Prop := now < fl_expiry f.

(** The flights whose lease runs, of deliveries without an overdue outcome. *)
Definition in_hand (now : Z) (late : list Z) (f : flight) : Prop := running now f ∧ fl_id f ∉ late.

Instance in_hand_dec now late f : Decision (in_hand now late f).
Proof. unfold in_hand, running. apply _. Defined.

Record sound (s : system) : Prop := {
  so_nodup : NoDup (dl_id <$> deliveries (table s));
  so_fresh : Forall (λ d, dl_id d < next_delivery (table s)) (deliveries (table s));
  so_log : Forall (λ a, a.1 < next_delivery (table s)) (attempts s);
  so_flights : Forall (λ f, fl_id f < next_delivery (table s)) (flights s);
  so_accounts : Forall (λ d, dl_id d ∉ overdue s → accounted (attempts s) d) (deliveries (table s));
  so_holds : Forall (λ f, in_hand (clock s) (overdue s) f → holds (table s) f) (flights s);
  so_apart : NoDup (fl_id <$> filter (in_hand (clock s) (overdue s)) (flights s));
}.

(** ** Rows *)

Lemma update_rows_ids f chosen h :
  (∀ d, dl_id (f d) = dl_id d) → dl_id <$> deliveries (update_rows f chosen h) = dl_id <$> deliveries h.
Proof.
  intros Hf. cbn. induction (deliveries h) as [|d l IH]; [done|]. cbn. rewrite <- IH. f_equal. by case_match.
Qed.

Lemma update_rows_elem f chosen h d' :
  d' ∈ deliveries (update_rows f chosen h) ↔
  ∃ d, d ∈ deliveries h ∧ d' = if bool_decide (dl_id d ∈ chosen) then f d else d.
Proof.
  cbn. rewrite list_elem_of_In, in_map_iff. split.
  - intros (d & <- & Hd%list_elem_of_In). eauto.
  - intros (d & Hd%list_elem_of_In & ->). eauto.
Qed.

Lemma row_unique h d d' :
  NoDup (dl_id <$> deliveries h) → d ∈ deliveries h → d' ∈ deliveries h → dl_id d = dl_id d' → d = d'.
Proof.
  intros Hnd [i Hi]%list_elem_of_lookup [j Hj]%list_elem_of_lookup Heq.
  assert ((dl_id <$> deliveries h) !! i = Some (dl_id d)) as Hi' by (by rewrite list_lookup_fmap, Hi).
  assert ((dl_id <$> deliveries h) !! j = Some (dl_id d)) as Hj' by (rewrite list_lookup_fmap, Hj; cbn; by rewrite Heq).
  pose proof (NoDup_lookup _ _ _ _ Hnd Hi' Hj') as ->. congruence.
Qed.

Lemma finish_id ok code retries now d : dl_id (finish_delivery ok code retries now d) = dl_id d.
Proof. unfold finish_delivery. by repeat case_match. Qed.

Lemma tries_snoc log i b id ok :
  tries (log ++ [(i, b)]) id ok = tries log id ok + if decide ((i, b) = (id, ok)) then 1 else 0.
Proof.
  unfold tries, zlen. rewrite filter_app, length_app. destruct (decide ((i, b) = (id, ok))) as [He|He].
  - rewrite filter_cons_True by done. cbn. lia.
  - rewrite filter_cons_False by done. cbn. lia.
Qed.

Lemma tries_fresh log id ok n : Forall (λ a, a.1 < n) log → n ≤ id → tries log id ok = 0.
Proof.
  intros Hl Hn. unfold tries. rewrite filter_none; [done|]. eapply Forall_impl; [exact Hl|].
  cbn. intros [i b] Hi [= -> ->]. cbn in Hi. lia.
Qed.

(** ** Time passes *)

Lemma fewer_flights (l : list flight) t t' late late' :
  t ≤ t' → late ⊆ late' → sublist (filter (in_hand t' late') l) (filter (in_hand t late) l).
Proof.
  intros Ht Hl. rewrite <- (list_filter_filter_l (in_hand t' late') (in_hand t late)); [apply sublist_filter|].
  unfold in_hand, running. intros f [Hr Hf]. split; [lia|]. set_solver.
Qed.

(** Later, and with more overdue outcomes, less is to be shown. *)
Lemma sound_weaken h fl t t' log late late' :
  t ≤ t' → late ⊆ late' → sound (System h fl t log late) → sound (System h fl t' log late').
Proof.
  intros Ht Hsub [Hn Hf Hl Hfl Ha Hh Hd]. split; cbn in *; try done.
  - eapply Forall_impl; [exact Ha|]. cbn. set_solver.
  - eapply Forall_impl; [exact Hh|]. unfold in_hand, running. cbn. intros f Hf' [Hr Hn']. apply Hf'. split; [lia|set_solver].
  - eapply sublist_NoDup; [exact Hd|]. apply fmap_sublist. by apply fewer_flights.
Qed.

Lemma sound_drop h l f r t log late :
  sound (System h (l ++ f :: r) t log late) → sound (System h (l ++ r) t log late).
Proof.
  intros [Hn Hf Hl Hfl Ha Hh Hd]. split; cbn in *; try done.
  - rewrite Forall_app, Forall_cons in Hfl. rewrite Forall_app. tauto.
  - rewrite Forall_app, Forall_cons in Hh. rewrite Forall_app. tauto.
  - eapply sublist_NoDup; [exact Hd|]. apply fmap_sublist. rewrite !filter_app. apply sublist_app; [done|].
    rewrite filter_cons. case_decide; [by apply sublist_cons|done].
Qed.

(** ** Queueing *)

Lemma sound_add eid now h sub fl t log late :
  sound (System h fl t log late) → sound (System (add_delivery eid now h sub) fl t log late).
Proof.
  intros [Hn Hf Hl Hfl Ha Hh Hd]. split; cbn in *; try done.
  - rewrite fmap_app. apply NoDup_app. split_and!; [done| |apply NoDup_singleton].
    intros i (d & -> & Hd')%list_elem_of_fmap Hin. apply list_elem_of_singleton in Hin. cbn in Hin.
    rewrite Forall_forall in Hf. apply Hf in Hd'. lia.
  - apply Forall_app. split; [eapply Forall_impl; [exact Hf|cbn; lia]|]. repeat constructor. cbn. lia.
  - eapply Forall_impl; [exact Hl|cbn; lia].
  - eapply Forall_impl; [exact Hfl|cbn; lia].
  - apply Forall_app. split; [done|]. repeat constructor; cbn; try (by apply (tries_fresh _ _ _ (next_delivery h))); done.
  - eapply Forall_impl; [exact Hh|]. cbn. intros f Hho Hr. destruct (Hho Hr) as (d & Hd' & ?).
    exists d. split; [|done]. apply elem_of_app. by left.
Qed.

Lemma sound_queue db eid now h fl t log late :
  sound (System h fl t log late) → sound (System (queue_webhook_deliveries db eid now h) fl t log late).
Proof.
  intros Hs. unfold queue_webhook_deliveries. destruct (get_active_subscriptions h) as [|sub subs]; [done|].
  destruct (find_event db eid) as [e|]; [|done]. generalize (filter (λ s, wants (event_type (ev e)) s = true) (sub :: subs)) as l.
  intros l. revert h Hs. induction l as [|x l IH]; intros h Hs; [done|]. cbn. by apply IH, sound_add.
Qed.

(** ** Leasing *)

Lemma by_due_perm l : by_due l ≡ₚ l.
Proof.
  assert (∀ d l, insert_due d l ≡ₚ d :: l) as Hi.
  { intros d k. induction k as [|x k IH]; [done|]. cbn. case_match; [done|]. rewrite IH. constructor. }
  induction l as [|d l IH]; [done|]. cbn. by rewrite Hi, IH.
Qed.

Lemma leased_row now limit h d : d ∈ leased now limit h → d ∈ deliveries h ∧ ready now d = true.
Proof.
  unfold leased. intros Hd. apply (elem_of_sublist _ (by_due (filter (λ d, ready now d = true) (deliveries h)))) in Hd;
    [|apply sublist_take]. rewrite by_due_perm in Hd. apply list_elem_of_filter in Hd. tauto.
Qed.

Lemma leased_nodup now limit h : NoDup (dl_id <$> deliveries h) → NoDup (dl_id <$> leased now limit h).
Proof.
  intros Hn. unfold leased.
  apply (sublist_NoDup _ (dl_id <$> by_due (filter (λ d, ready now d = true) (deliveries h)))).
  - rewrite by_due_perm. eapply sublist_NoDup; [exact Hn|]. apply fmap_sublist, sublist_filter.
  - apply fmap_sublist, sublist_take.
Qed.

Lemma jobs_sublist iso db h ds :
  sublist (job_delivery <$> omap (job_of iso db h) ds) (dl_id <$> ds).
Proof.
  induction ds as [|d ds IH]; [done|]. rewrite fmap_cons.
  change (omap (job_of iso db h) (d :: ds)) with
    (match job_of iso db h d with Some y => y :: omap (job_of iso db h) ds | None => omap (job_of iso db h) ds end).
  destruct (job_of iso db h d) as [j|] eqn:Hj.
  - rewrite fmap_cons. assert (job_delivery j = dl_id d) as ->; [|by apply sublist_skip].
    unfold job_of in Hj. by repeat case_match; simplify_eq.
  - by apply sublist_cons.
Qed.

Lemma job_row iso db h (ds : list delivery) j :
  j ∈ omap (job_of iso db h) ds → ∃ d, d ∈ ds ∧ job_delivery j = dl_id d ∧ job_retry_count j = retry_count d.
Proof.
  intros (d & Hd & Hj)%list_elem_of_omap. exists d. split; [done|]. unfold job_of in Hj.
  by repeat case_match; simplify_eq.
Qed.

Lemma flight_row iso db h (ds : list delivery) expiry f :
  f ∈ flights_of expiry (omap (job_of iso db h) ds) →
  ∃ d, d ∈ ds ∧ fl_id f = dl_id d ∧ fl_retries f = retry_count d ∧ fl_expiry f = expiry.
Proof.
  unfold flights_of. intros (j & <- & Hj%list_elem_of_In)%list_elem_of_In%in_map_iff.
  apply job_row in Hj as (d & Hd & Hi & Hr). by exists d.
Qed.

Lemma flights_of_ids expiry js : fl_id <$> flights_of expiry js = job_delivery <$> js.
Proof. unfold flights_of. induction js as [|j js IH]; [done|]. cbn. by rewrite IH. Qed.

Lemma held_not_ready h f now :
  holds h f → now < fl_expiry f → ∃ d, d ∈ deliveries h ∧ dl_id d = fl_id f ∧ ready now d = false.
Proof.
  intros (d & Hd' & Hid & _ & _ & Hle) Hr. exists d. split_and!; [done..|]. unfold ready. rewrite Hle.
  rewrite (proj2 (Z.leb_gt _ _) Hr). by rewrite andb_false_r.
Qed.

Lemma sound_lease iso db limit dur now h fl log late h' js :
  sound (System h fl now log late) → lease_deliveries iso db limit dur now h = (h', js) →
  sound (System h' (fl ++ flights_of (now + dur) js) now log late).
Proof.
  intros [Hn Hf Hl Hfl Ha Hh Hd] Heq. unfold lease_deliveries in Heq. injection Heq as <- <-. cbn in *.
  set (ds := leased now limit h). set (g := set_lease now (now + dur)).
  assert (∀ d, d ∈ deliveries h → ready now d = false → d ∈ deliveries (update_rows g (dl_id <$> ds) h)) as Hstay.
  { intros d Hd' Hr. apply update_rows_elem. exists d. split; [done|]. rewrite bool_decide_eq_false_2; [done|].
    intros (d' & Hid & Hin)%list_elem_of_fmap. apply leased_row in Hin as [Hin Hr'].
    assert (d = d') as -> by (by eapply row_unique). congruence. }
  split; cbn [table flights clock attempts overdue].
  - rewrite update_rows_ids by done. done.
  - apply Forall_forall. intros d' (d & Hd' & ->)%update_rows_elem. rewrite Forall_forall in Hf.
    apply Hf in Hd'. by case_match.
  - done.
  - apply Forall_app. split; [done|]. apply Forall_forall. intros f (d & Hd' & -> & _)%flight_row.
    apply leased_row in Hd' as [Hd' _]. rewrite Forall_forall in Hf. by apply Hf.
  - apply Forall_forall. intros d' (d & Hd' & ->)%update_rows_elem. rewrite Forall_forall in Ha.
    pose proof (Ha d Hd'). by case_match.
  - apply Forall_app. split.
    + eapply Forall_impl; [exact Hh|]. cbn. intros f Hfh Hr. pose proof (Hfh Hr) as Hho.
      destruct (held_not_ready h f now Hho (proj1 Hr)) as (d & Hd' & Hid & Hrd). destruct Hho as (d2 & Hd2 & Hid2 & Hrest).
      assert (d = d2) as -> by (eapply row_unique; [exact Hn|done|done|congruence]).
      exists d2. split; [by apply Hstay|done].
    + apply Forall_forall. intros f (d & Hd' & Hjd & Hjr & Hje)%flight_row _. apply leased_row in Hd' as Hrow. destruct Hrow as [Hrow Hr].
      exists (g d). split_and!; cbn; [|done| |done|by rewrite Hje].
      * apply update_rows_elem. exists d. split; [done|]. rewrite bool_decide_eq_true_2; [done|].
        apply list_elem_of_fmap. by exists d.
      * unfold ready in Hr. apply andb_true_iff in Hr as [Hr _]. apply andb_true_iff in Hr as [Hr _].
        apply orb_true_iff in Hr as [Hr|Hr]; bool_inv; auto.
  - rewrite filter_app, fmap_app. apply NoDup_app. split_and!; [done| |].
    + intros i (f & -> & [Hr Hin]%list_elem_of_filter)%list_elem_of_fmap (f' & Hid & [_ Hin']%list_elem_of_filter)%list_elem_of_fmap.
      rewrite Forall_forall in Hh. destruct (held_not_ready h f now (Hh f Hin Hr) (proj1 Hr)) as (d & Hd' & Hdid & Hrd).
      apply flight_row in Hin' as (d2 & Hd2 & Hjd & _). apply leased_row in Hd2 as [Hd2 Hr2].
      assert (d = d2) as -> by (eapply row_unique; [exact Hn|done|done|congruence]). congruence.
    + eapply sublist_NoDup; [|apply fmap_sublist, sublist_filter].
      rewrite flights_of_ids. eapply sublist_NoDup; [|apply jobs_sublist]. by apply leased_nodup.
Qed.

(** ** Finishing *)

Lemma finish_accounted log d o now :
  accounted log d → dl_status d = pending ∨ dl_status d = failed →
  accounted (log ++ [(dl_id d, outcome_ok o)]) (finish_delivery (outcome_ok o) (outcome_code o) (retry_count d) now d).
Proof.
  unfold accounted. rewrite finish_id. intros [Hr Hst] Hs.
  assert (tries log (dl_id d) true = 0 ∧ tries log (dl_id d) false = retry_count d) as [Ht Hb]
    by (destruct Hs as [Hs|Hs]; by rewrite Hs in Hst).
  rewrite !tries_snoc, Ht, Hb. unfold finish_delivery, MAX_RETRIES in *. destruct (outcome_ok o).
  - rewrite decide_True, decide_False by (done || congruence). cbn. lia.
  - rewrite decide_False, decide_True by (done || congruence).
    destruct (Z.leb_spec 5 (retry_count d)); cbn; lia.
Qed.

Lemma accounted_other log d i b : dl_id d ≠ i → accounted log d → accounted (log ++ [(i, b)]) d.
Proof.
  intros Hi. unfold accounted. rewrite !tries_snoc, !decide_False by congruence. by rewrite !Z.add_0_r.
Qed.

(** What recording an outcome keeps whatever the lease: the rows and their numbers. *)
Lemma finish_rows id ok code retries now h :
  let h' := update_delivery_status id ok code retries now h in
  next_delivery h' = next_delivery h ∧ dl_id <$> deliveries h' = dl_id <$> deliveries h ∧
  ∀ d, d ∈ deliveries h' ↔
    (d ∈ deliveries h ∧ dl_id d ≠ id) ∨ ∃ d0, d0 ∈ deliveries h ∧ dl_id d0 = id ∧ d = finish_delivery ok code retries now d0.
Proof.
  split_and!; [done|apply update_rows_ids; intros; apply finish_id|]. intros d. unfold update_delivery_status.
  rewrite update_rows_elem. split.
  - intros (d0 & Hd0 & ->). destruct (bool_decide (dl_id d0 ∈ [id])) eqn:Hb; bool_inv; [right|left].
    + apply list_elem_of_singleton in Hb. by exists d0.
    + split; [done|]. intros He. by apply Hb, list_elem_of_singleton.
  - intros [[Hd Hi]|(d0 & Hd0 & <- & ->)].
    + exists d. split; [done|]. rewrite bool_decide_eq_false_2; [done|]. by intros ?%list_elem_of_singleton.
    + exists d0. split; [done|]. rewrite bool_decide_eq_true_2; [done|]. by apply list_elem_of_singleton.
Qed.

(** An outcome of one delivery leaves the others as they were. *)
Lemma sound_elsewhere h fl now log late id ok code retries :
  sound (System h fl now log late) → id < next_delivery h → id ∈ late ∨ id ∉ fl_id <$> filter (in_hand now late) fl →
  (id ∉ late → ∀ d, d ∈ deliveries h → dl_id d = id → accounted (log ++ [(id, ok)]) (finish_delivery ok code retries now d)) →
  sound (System (update_delivery_status id ok code retries now h) fl now (log ++ [(id, ok)]) late).
Proof.
  intros [Hn Hf Hl Hfl Ha Hh Hd] Hid Hout Hacc. cbn in *. destruct (finish_rows id ok code retries now h) as (_ & Hids & Hrows).
  rewrite Forall_forall in Hf, Ha. rewrite Forall_forall in Hh. split; cbn [table flights clock attempts overdue].
  - by rewrite Hids.
  - apply Forall_forall. intros d [[Hdd _]|(d0 & Hd0 & _ & ->)]%Hrows; [by apply Hf|]. rewrite finish_id. by apply Hf.
  - apply Forall_app. split; [done|]. by repeat constructor.
  - done.
  - apply Forall_forall. intros d [[Hdd Hi]|(d0 & Hd0 & Hi & ->)]%Hrows Hnl; [by apply accounted_other, Ha|].
    rewrite finish_id, Hi in Hnl. by apply Hacc.
  - apply Forall_forall. intros g Hg Hrun. destruct (Hh g Hg Hrun) as (d & Hdd & Hdid & Hrest). exists d.
    split; [|done]. apply Hrows. left. split; [done|]. rewrite Hdid. intros He. destruct Hout as [Hin|Hout].
    + rewrite <- He in Hin. by destruct Hrun.
    + apply Hout, list_elem_of_fmap. exists g. split; [done|]. by apply list_elem_of_filter.
  - done.
Qed.

Lemma sound_finish h l f r now log late o :
  sound (System h (l ++ f :: r) now log late) →
  sound (System (update_delivery_status (fl_id f) (outcome_ok o) (outcome_code o) (fl_retries f) now h)
    (l ++ r) now (log ++ [(fl_id f, outcome_ok o)]) (if now <? fl_expiry f then late else fl_id f :: late)).
Proof.
  intros Hs. pose proof (sound_drop _ _ _ _ _ _ _ Hs) as Hs'. destruct Hs as [Hn _ _ Hfl Ha Hh Hd]. cbn in *.
  apply Forall_app in Hfl as [_ [Hfr _]%Forall_cons]. apply Forall_app in Hh as [_ [Hf _]%Forall_cons].
  destruct (Z.ltb_spec now (fl_expiry f)) as [Hr|Hr].
  - apply sound_elsewhere; [done|done| |].
    + destruct (decide (fl_id f ∈ late)) as [|Hnl]; [by left|]. right. rewrite filter_app in Hd |- *.
      rewrite filter_cons_True, fmap_app in Hd by done. cbn in Hd. rewrite fmap_app, not_elem_of_app.
      apply NoDup_app in Hd as (_ & Hdis & [Hnr _]%NoDup_cons). split; [|done]. intros Hin. apply (Hdis _ Hin). by left.
    + intros Hnl d Hd' Hid. destruct Hf as (d0 & Hd0 & Hid0 & Hst & Hrc & _); [done|].
      assert (d = d0) as -> by (eapply row_unique; [exact Hn|done|done|congruence]).
      rewrite <- Hrc, <- Hid0. apply finish_accounted; [|done]. rewrite Forall_forall in Ha. apply Ha; [done|congruence].
  - apply sound_elsewhere; [|done|by left; left|by intros []; left]. by eapply sound_weaken; [| |exact Hs']; [lia|set_solver].
Qed.

Lemma sound_step iso s s' : wstep iso s s' → sound s → sound s'.
Proof.
  destruct 1 as [s db eid now Hc|s db limit dur now h js Hc Hl|s l f r o now Hc Hf|s l f r now Hc Hf];
    intros Hs; destruct s as [h0 fl t log late]; cbn in *; apply (sound_weaken _ _ _ now _ _ late) in Hs; try done.
  - by apply sound_queue.
  - by eapply sound_lease.
  - subst. by apply sound_finish.
  - subst. by eapply sound_drop.
Qed.

(** Where the keys of the elements that satisfy [P] are distinct, so are their places. *)
Lemma filter_apart {A B} (P : A → Prop) `{!∀ x, Decision (P x)} (key : A → B) (l : list A) i j x y :
  NoDup (key <$> filter P l) → l !! i = Some x → l !! j = Some y → P x → P y → key x = key y → i = j.
Proof.
  assert (∀ (l : list A) y j, l !! j = Some y → P y → key y ∈ key <$> filter P l) as Hin.
  { intros k z n Hz HP. apply list_elem_of_fmap. exists z. split; [done|]. apply list_elem_of_filter. split; [done|].
    by eapply list_elem_of_lookup_2. }
  revert i j. induction l as [|z l IH]; intros i j Hnd Hi Hj Hx Hy Hk; [done|]. rewrite filter_cons in Hnd.
  destruct i as [|i], j as [|j]; cbn in Hi, Hj; simplify_eq; [done| | |f_equal].
  - rewrite decide_True, fmap_cons, NoDup_cons in Hnd by done. destruct Hnd as [Hz _]. rewrite Hk in Hz. by destruct Hz; eapply Hin.
  - rewrite decide_True, fmap_cons, NoDup_cons in Hnd by done. destruct Hnd as [Hz _]. rewrite <- Hk in Hz. by destruct Hz; eapply Hin.
  - eapply IH; eauto. case_decide; [|done]. rewrite fmap_cons, NoDup_cons in Hnd. by destruct Hnd.
Qed.

(** C9. Bounded retries: dispatchers interleave with each other and with new events, and each
    records the outcome of its delivery when it likes, or never (it died, and what it sent is
    then not counted).  Take a delivery no outcome of which was recorded after the lease it was
    sent under had run out.  It has at most six recorded attempts, at most one of them a
    success; it is marked [success] exactly when a success is recorded and [dead_letter]
    exactly when six failures are; once marked so it is not leased; and no two dispatchers
    whose leases run hold it. *)
Theorem delivery_attempts_bounded iso subs t0 s d :
  rtc (wstep iso) (initial subs t0) s → d ∈ deliveries (table s) → dl_id d ∉ overdue s →
  let ok := tries (attempts s) (dl_id d) true in
  let bad := tries (attempts s) (dl_id d) false in
  ok + bad ≤ MAX_RETRIES + 1 ∧ ok ≤ 1 ∧
  (dl_status d = success ↔ ok = 1) ∧ (dl_status d = dead_letter ↔ bad = MAX_RETRIES + 1) ∧
  (dl_status d = success ∨ dl_status d = dead_letter → ∀ now limit, d ∉ leased now limit (table s)) ∧
  (∀ i j f g, flights s !! i = Some f → flights s !! j = Some g → running (clock s) f → running (clock s) g →
    fl_id f = dl_id d → fl_id g = dl_id d → i = j).
Proof.
  intros Hrtc Hd Hnl ok bad.
  assert (sound s) as [_ _ _ _ Ha _ Hap].
  { assert (sound (initial subs t0)) as H0 by (split; constructor).
    induction Hrtc as [|s1 s2 s3 Hstep _ IH]; [done|]. apply IH; [done..|]. by eapply sound_step. }
  rewrite Forall_forall in Ha. destruct (Ha d Hd Hnl) as [Hr Hst]. fold ok bad in Hst. unfold MAX_RETRIES in *.
  split_and!.
  - destruct (dl_status d); lia.
  - destruct (dl_status d); lia.
  - destruct (dl_status d); split; try done; intros; lia.
  - destruct (dl_status d); split; try done; intros; lia.
  - intros Hs now limit [_ Hready]%leased_row. unfold ready in Hready.
    destruct Hs as [Hs|Hs]; rewrite Hs in Hready; by cbn in Hready.
  - intros i j f g Hi Hj Hf Hg Hid Hid'.
    eapply (filter_apart (in_hand (clock s) (overdue s)) fl_id (flights s)); try done; unfold in_hand; congruence || (split; congruence).
Qed.

(** * Signatures *)

Lemma signed_message_inj p p' t t' :
  0 ≤ t → 0 ≤ t' → signed_message p t = signed_message p' t' → t = t' ∧ p = p'.
Proof.
  intros Ht Ht' Heq. unfold signed_message in Heq.
  destruct (digits_sep_inj (λ c, 48 ≤ c < 58) (dec_str t) (dec_str t') 46 46 p p') as (Hd & _ & ->); try done.
  - by apply dec_str_digits.
  - by apply dec_str_digits.
  - lia.
  - lia.
  - split; [|done]. by apply dec_str_inj_nonneg.
Qed.

(** Webhook signatures: under one secret, two requests carry the same signature only
    if their timestamps and bodies are the same, or SHA-256 collides on the two inner or
    the two outer messages of the MAC. *)
Theorem signature_binds secret key p p' t t' sig :
  0 ≤ t → 0 ≤ t' → utf8_encode secret = Some key →
  sign_payload p secret t = Ok sig → sign_payload p' secret t' = Ok sig →
  (t = t' ∧ p = p') ∨
  sha256_collision (hmac_outer key (signed_message p t)) (hmac_outer key (signed_message p' t')) ∨
  sha256_collision (hmac_inner key (signed_message p t)) (hmac_inner key (signed_message p' t')).
Proof.
  intros Ht Ht' Hk. unfold sign_payload. rewrite Hk. intros [= <-] [= Heq].
  symmetry in Heq. destruct (sha256_hex_eq _ _ Heq) as [Ho|]; [|by auto].
  unfold hmac_outer in Ho. apply app_inv_head in Ho.
  destruct (decide (hmac_inner key (signed_message p t) = hmac_inner key (signed_message p' t'))) as [Hi|Hi].
  - left. unfold hmac_inner in Hi. apply app_inv_head in Hi. by apply signed_message_inj.
  - by right; right.
Qed.

(** * Late dispatchers *)

Definition no_iso (t : Z) : str := dec_str t.
Definition sample_db : store :=
  (insert_row empty_store (EventData (lit "register") None None None None None None None None None None None None None
    None None None None) 0).1.
Definition sample_hooks : hooks :=
  queue_webhook_deliveries sample_db 1 0 (Hooks [Subscription 7 (lit "https://h") (lit "k") None true] [] 1).

(** The delivery when two dispatchers overlap: the first leases it at 0 for 30 seconds, the
    second when that lease has run out, the second succeeds at 32 and the first reports a
    failure at 40. *)
Definition overlapping : hooks :=
  let '(h, _) := lease_deliveries no_iso sample_db 10 30 0 sample_hooks in
  let '(h, _) := lease_deliveries no_iso sample_db 10 30 31 h in
  update_delivery_status 1 false None 0 40 (update_delivery_status 1 true (Some 200) 0 32 h).

(** A dispatcher that finishes after its lease reopens a delivery that succeeded: it is
    leased, and sent, again. *)
Lemma late_failure_reopens_delivery :
  (dl_status <$> deliveries overlapping = [failed]) ∧
  (job_delivery <$> (lease_deliveries no_iso sample_db 10 30 50 overlapping).2 = [1]).
Proof. by vm_compute. Qed.

(** * Witnesses *)

(** The sample delivery leased and failed once. *)
Definition sample_run : system :=
  System (update_delivery_status 1 false None 0 5 (lease_deliveries no_iso sample_db 10 30 1 sample_hooks).1)
    [] 5 [(1, false)] [].

Lemma sample_run_reachable : rtc (wstep no_iso) (initial [Subscription 7 (lit "https://h") (lit "k") None true] 0) sample_run.
Proof.
  eapply rtc_l; [apply (StepQueue _ _ sample_db 1 0); cbn; lia|].
  eapply rtc_l; [eapply (StepLease _ _ sample_db 10 30 1); [cbn; lia|reflexivity]|].
  eapply rtc_l; [|apply rtc_refl].
  apply (StepFinish no_iso (System _ [Flight 1 0 31] 1 [] []) [] (Flight 1 0 31) [] NoAnswer 5); [cbn; lia|reflexivity].
Qed.

Definition sample_row : delivery := Delivery 1 7 1 failed 1 15 None None 5.

Lemma delivery_attempts_bounded_witness :
  let ok := tries (attempts sample_run) 1 true in
  let bad := tries (attempts sample_run) 1 false in
  ok + bad ≤ MAX_RETRIES + 1 ∧ ok ≤ 1 ∧
  (failed = success ↔ ok = 1) ∧ (failed = dead_letter ↔ bad = MAX_RETRIES + 1) ∧
  (failed = success ∨ failed = dead_letter → ∀ now limit, sample_row ∉ leased now limit (table sample_run)) ∧
  (∀ i j f g, flights sample_run !! i = Some f → flights sample_run !! j = Some g → running (clock sample_run) f →
    running (clock sample_run) g → fl_id f = 1 → fl_id g = 1 → i = j).
Proof.
  apply (delivery_attempts_bounded no_iso [Subscription 7 (lit "https://h") (lit "k") None true] 0 sample_run sample_row
    sample_run_reachable); [vm_compute; left|apply not_elem_of_nil].
Defined.

Lemma signature_binds_witness :
  let sig := from_ok [] (sign_payload (lit "{}") (lit "k") 5) in
  (5 = 5 ∧ lit "{}" = lit "{}") ∨
  sha256_collision (hmac_outer (lit "k") (signed_message (lit "{}") 5)) (hmac_outer (lit "k") (signed_message (lit "{}") 5)) ∨
  sha256_collision (hmac_inner (lit "k") (signed_message (lit "{}") 5)) (hmac_inner (lit "k") (signed_message (lit "{}") 5)).
Proof.
  apply (signature_binds (lit "k") (lit "k") (lit "{}") (lit "{}") 5 5 (from_ok [] (sign_payload (lit "{}") (lit "k") 5)));
    [lia|lia|reflexivity|reflexivity|reflexivity].
Defined.
