(* ===== verification/ChainIndexer.v ===== *)
(** The indexer of on-chain lifecycle events ([backend/chain_indexer.py]) with the
    indexer tables of [backend/db.py]: decoding of contract values, classification of
    events, idempotent ingestion with webhook queueing, and one polling cycle with its
    cursor and backoff.  The Soroban RPC is a parameter, as is the text CPython makes of
    ill-formed UTF-8, and what psycopg and PostgreSQL make of a value that is not of the
    type of its column ([Columns]).

    Shown: ingestion refines a map from (transaction, event index) to the first event
    seen, whatever is replayed; a page is ingested before its cursor is stored, so
    nothing is skipped; struct-valued history events are never indexed. *)
From Stdlib Require Import ZArith Lia.
From stdpp Require Import base decidable strings numbers list.
From S2P Require Import Prelude PyStr Json PyVal Codec Strkey ProofStore Webhook.

Open Scope Z_scope.

#[local] Arguments lit _ : simpl never.

(** [bytes.decode("utf-8", errors="replace")] of ill-formed bytes *)
Class LossyUtf8 := utf8_lossy : bytes → str.

(** What psycopg and PostgreSQL do with a value that is not of the type of its column: the text that
    a number, a boolean or a list is cast to on its way into a [TEXT] column, the integer for a
    [BIGINT] column, and whether [JSONB] takes a value without NUL characters; [Err] where the
    statement fails. *)
Class Columns := {
  text_cast : pyval → result exn str;
  bigint_cast : pyval → result exn Z;
  jsonb_takes : pyval → bool;
}.

Record DecodedLifecycleEvent := Decoded {
  dc_type : str;
  dc_proof : option str;
  dc_tx : str;
  dc_index : Z;
  dc_contract : pyval;
  dc_status : str;
  dc_metadata : pyval;
  dc_ledger : pyval;
}.

(** * Contract values *)

(** [struct.unpack] of a big-endian integer; [None] is [struct.error]. *)
Definition unpack_be (n : nat) (b : bytes) : option Z :=
  if bool_decide (length b = n) then Some (int_of_be b) else None.
Definition signed (bits z : Z) : Z := if z <? 2 ^ (bits - 1) then z else z - 2 ^ bits.

Section indexer.
Context `{Unicode} `{LossyUtf8}.

Definition decode_text (b : bytes) : str := match utf8_decode b with Some s => s | None => utf8_lossy b end.

(** The value of an XDR payload; [None] when the text is to be kept. *)
Definition decode_payload (disc : Z) (p : bytes) : option pyval :=
  let u32 := unpack_be 4 (slice 0 4 p) in
  let u64 := unpack_be 8 (slice 0 8 p) in
  let address version b := match make_strkey version b with Ok s => Some (PStr s) | Err _ => None end in
  if disc =? 0 then (λ z, PBool (negb (z =? 0))) <$> u32
  else if disc =? 1 then Some PNone
  else if disc =? 3 then PInt <$> u32
  else if disc =? 4 then (λ z, PInt (signed 32 z)) <$> u32
  else if (disc =? 5) || (disc =? 7) || (disc =? 8) then PInt <$> u64
  else if disc =? 6 then (λ z, PInt (signed 64 z)) <$> u64
  else if (disc =? 13) || (disc =? 14) || (disc =? 15) then
    (λ n, let b := slice 4 (Z.to_nat (4 + Z.min n (zlen p))) p in
          PStr (if disc =? 13 then bytes_hex b else decode_text b)) <$> u32
  else if disc =? 18 then
    t ← u32;
    if t =? 0 then address VERSION_BYTE_ED25519_PUBLIC (slice 8 40 p)
    else if t =? 1 then address VERSION_BYTE_CONTRACT (slice 4 36 p)
    else None
  else None.

Definition decode_scval (raw : pyval) : pyval :=
  match raw with
  | PStr s =>
      if negb (forallb is_ascii s) then raw else
      match b64decode true s with
      | Some data =>
          if zlen data <? 4 then raw
          else default raw (decode_payload (int_of_be (slice 0 4 data)) (drop 4 data))
      | None => raw
      end
  | _ => raw
  end.

Definition normalize_hex (v : pyval) : option str :=
  match v with
  | PNone => None
  | _ =>
      let text := py_lower (py_strip (py_str v)) in
      Some (if starts_with (lit "0x") text then drop 2 text else text)
  end.

(** * Classification *)

(** [a or b] *)
Definition or_val (a b : pyval) : pyval := if truthy a then a else b.

(** [int(v)] with [ValueError] and [TypeError] read as 0. *)
Definition int_or_zero (v : pyval) : result exn Z :=
  match py_to_int v with
  | Ok z => Ok z
  | Err (ValueError _) | Err (TypeError _) => Ok 0
  | Err e => Err e
  end.

(** The last part of a paging token [<ledger>-<index>]. *)
Definition token_index (token : str) : Z :=
  if bool_decide (45 ∈ token) then
    match last (split_on 45 token) with
    | Some part => default 0 (py_int 10 part)
    | None => 0
    end
  else 0.

Definition event_index_of (event : list (str * pyval)) : result exn Z :=
  let get k := get_or_none (lit k) event in
  match get "eventIndex", get "event_index" with
  | PNone, PNone => Ok (token_index (py_str (or_val (get "id") (or_val (get "pagingToken") (PStr [])))))
  | PNone, v => int_or_zero v
  | v, _ => int_or_zero v
  end.

(** The action, actor and reason of a history value. *)
Definition history_fields (val : pyval) : pyval * pyval * pyval :=
  match val with
  | PDict d => (get_or_none (lit "action") d, get_or_none (lit "actor") d, get_or_none (lit "reason_code") d)
  | PList (a :: l) => (a, default PNone (l !! 1%nat), default PNone (l !! 2%nat))
  | PInt _ | PBool _ => (val, PNone, PNone)
  | _ => (PNone, PNone, PNone)
  end.

Definition history_event_of (base : str → option str → str → pyval → DecodedLifecycleEvent) (proof : option str)
    (val : pyval) : result exn (option DecodedLifecycleEvent) :=
  let '(action, actor, reason) := history_fields val in
  a ← match action with PNone => Ok 0 | _ => int_or_zero action end;
  let md name := PDict [(lit "action", PStr (lit name)); (lit "actor", actor); (lit "reason_code", reason)] in
  Ok (if a =? 3 then Some (base (lit "revoke") proof (lit "revoked") (md "revoked"))
      else if a =? 4 then Some (base (lit "expire") proof (lit "confirmed") (md "expired"))
      else if a =? 5 then Some (base (lit "correct") proof (lit "confirmed") (md "corrected"))
      else None).

Definition dispute_event_of (base : str → option str → str → pyval → DecodedLifecycleEvent) (topics : list pyval)
    (action : str) (val : pyval) : option DecodedLifecycleEvent :=
  let dispute := topics !! 2%nat ≫= normalize_hex in
  let proof := match topics !! 3%nat ≫= normalize_hex with
    | Some p => Some p
    | None => if (length topics =? 3)%nat then dispute else None
    end in
  let null o := match o with Some s => PStr s | None => PNone end in
  let md stage := [(lit "dispute_id", null dispute); (lit "stage", PStr (lit stage))] in
  if bool_decide (action = lit "open") then
    Some (base (lit "dispute_open") proof (lit "confirmed") (PDict (md "open" ++ [(lit "details", val)])))
  else if bool_decide (action = lit "resolve") then
    Some (base (lit "dispute_resolve") proof (lit "confirmed") (PDict (md "resolved" ++ [(lit "details", val)])))
  else if bool_decide (action = lit "supersede") then
    let by_ := match val with PDict d => normalize_hex (get_or_none (lit "superseded_by") d) | _ => None end in
    Some (base (lit "dispute_supersede") proof (lit "confirmed")
      (PDict (md "superseded" ++ [(lit "superseded_by", null by_); (lit "details", val)])))
  else if bool_decide (action = lit "dismiss") then
    Some (base (lit "dispute_dismiss") proof (lit "confirmed") (PDict (md "dismissed" ++ [(lit "details", val)])))
  else None.

(** The lower-case text of a topic. *)
Definition topic_text (topics : list pyval) (i : nat) : str :=
  match topics !! i with Some t => py_lower (py_str t) | None => [] end.

(** The part after the topics were decoded. *)
Definition classify_topics (base : str → option str → str → pyval → DecodedLifecycleEvent) (topics : list pyval)
    (val : pyval) : result exn (option DecodedLifecycleEvent) :=
  let first := topic_text topics 0 in
  let second := topic_text topics 1 in
  let proof := topics !! 2%nat ≫= normalize_hex in
  if bool_decide (first = lit "proof") && bool_decide (second = lit "revoke") && (3 <=? length topics)%nat then
    Ok (Some (base (lit "revoke") proof (lit "revoked")
      (PDict [(lit "status", PStr (lit "revoked")); (lit "raw_value", val)])))
  else if bool_decide (first = lit "proof") && bool_decide (second = lit "history") && (3 <=? length topics)%nat then
    history_event_of base proof val
  else if bool_decide (first = lit "dispute") && (2 <=? length topics)%nat then
    Ok (dispute_event_of base topics second val)
  else Ok None.

Definition classify_and_decode_event (event : pyval) (default_contract : option str) :
    result exn (option DecodedLifecycleEvent) :=
  match event with
  | PDict e =>
      let get k := get_or_none (lit k) e in
      match or_val (get "txHash") (or_val (get "transactionHash") (get "tx_hash")) with
      | PStr ((_ :: _) as tx0) =>
          let tx := match normalize_hex (PStr tx0) with Some ((_ :: _) as t) => t | _ => tx0 end in
          idx ← event_index_of e;
          let contract := or_val (get "contractId") (or_val (get "contract_id")
            match default_contract with Some c => PStr c | None => PNone end) in
          match or_val (get "topic") (or_val (get "topics") (PList [])) with
          | PList ((_ :: _) as raw_topics) =>
              classify_topics (λ ty proof status md, Decoded ty proof tx idx contract status md (get "ledger"))
                (map decode_scval raw_topics) (decode_scval (get "value"))
          | _ => Ok None
          end
      | _ => Ok None
      end
  | _ => Ok None
  end.

(** * Ingestion *)

Context `{Columns}.

(** The tables the indexer writes. *)
Record chain_state := Chain {
  db : store;
  hooks_table : hooks;
  cursor_row : option (str * pyval);      (* indexer_state: cursor and ledger *)
}.

Record batch_summary := Summary { scanned : Z; indexed : Z; skipped : Z; duplicates : Z }.

(** A text PostgreSQL stores: UTF-8 without NUL. *)
Definition has_nul (s : str) : bool := existsb (Z.eqb 0) s.
Definition stored_text (s : str) : result exn str :=
  if has_nul s then Err (ValueError "text fields cannot contain NUL (0x00) bytes")
  else match utf8_encode s with Some _ => Ok s | None => Err UnicodeError end.

(** A value bound to a [TEXT] column: null, a text, or what the value is cast to. *)
Definition text_column (v : pyval) : result exn (option str) :=
  match v with
  | PNone => Ok None
  | PStr s => t ← stored_text s; Ok (Some t)
  | v => t ← text_cast v; t ← stored_text t; Ok (Some t)
  end.

(** An [INTEGER] column, and a [BIGINT] one. *)
Definition int4 (z : Z) : result exn Z :=
  if (-2147483648 <=? z) && (z <=? 2147483647) then Ok z else Err (ValueError "integer out of range").
Definition int8 (z : Z) : result exn Z :=
  if (- 2 ^ 63 <=? z) && (z <? 2 ^ 63) then Ok z else Err (ValueError "bigint out of range").
Definition bigint_column (v : pyval) : result exn pyval :=
  match v with
  | PNone => Ok PNone
  | PInt z => z ← int8 z; Ok (PInt z)
  | v => z ← bigint_cast v; z ← int8 z; Ok (PInt z)
  end.

(** A [JSONB] column takes no text with NUL, in keys or values. *)
Fixpoint mentions_nul (v : pyval) : bool :=
  match v with
  | PStr s => has_nul s
  | PList l => existsb mentions_nul l
  | PDict d => existsb (λ p, has_nul p.1 || mentions_nul p.2) d
  | _ => false
  end.
Definition jsonb_column (v : pyval) : result exn () :=
  if mentions_nul v then Err (ValueError "unsupported Unicode escape sequence")
  else if jsonb_takes v then Ok () else Err (ValueError "invalid input syntax for type json").

(** The columns of a recognized event that depend on it: the contract as it is stored, and the
    index, when PostgreSQL takes them all. *)
Definition decoded_columns (d : DecodedLifecycleEvent) : result exn (option str * Z) :=
  text_column (match dc_proof d with Some p => PStr p | None => PNone end);;
  text_column (PStr (dc_tx d));;
  contract ← text_column (dc_contract d);
  idx ← int4 (dc_index d);
  jsonb_column (dc_metadata d);;
  Ok (contract, idx).

Definition decoded_row (d : DecodedLifecycleEvent) (contract : option str) : event_data :=
  EventData (dc_type d) None None None (dc_proof d) None None (Some (dc_tx d)) (Some (dc_status d)) None contract
    None None (Some (dc_metadata d)) None None (Some (dc_index d)) None.

(** One event that was recognized. *)
Definition ingest_decoded (now : Z) (c : chain_state) (d : DecodedLifecycleEvent) : result exn (chain_state * bool) :=
  '(contract, idx) ← decoded_columns d;
  let '(s, (row, created)) := insert_indexed_proof_event (db c) (dc_tx d) idx (decoded_row d contract) now in
  Ok (Chain s (if (created : bool) then queue_webhook_deliveries s (ev_id row) now (hooks_table c) else hooks_table c)
        (cursor_row c), created).

(** One raw event. *)
Definition ingest (now : Z) (contract_id : option str) (st : chain_state * batch_summary) (raw : pyval) :
    result exn (chain_state * batch_summary) :=
  let '(c, m) := st in
  o ← classify_and_decode_event raw contract_id;
  match o with
  | None => Ok (c, Summary (scanned m + 1) (indexed m) (skipped m + 1) (duplicates m))
  | Some d =>
      '(c, created) ← ingest_decoded now c d;
      Ok (c, if (created : bool) then Summary (scanned m + 1) (indexed m + 1) (skipped m) (duplicates m)
             else Summary (scanned m + 1) (indexed m) (skipped m) (duplicates m + 1))
  end.

(** [process_events_batch]; an exception leaves what was inserted before it. *)
Fixpoint ingest_all (now : Z) (contract_id : option str) (raws : list pyval) (st : chain_state * batch_summary) :
    chain_state * result exn batch_summary :=
  match raws with
  | [] => (st.1, Ok st.2)
  | raw :: raws =>
      match ingest now contract_id st raw with
      | Ok st => ingest_all now contract_id raws st
      | Err e => (st.1, Err e)
      end
  end.

Definition process_events_batch (now : Z) (contract_id : option str) (raws : list pyval) (c : chain_state) :
    chain_state * result exn batch_summary :=
  ingest_all now contract_id raws (c, Summary 0 0 0 0).

(** * Polling *)

Definition INDEXER_MAX_PAGE_SIZE : Z := 100.

(** The parameters of [getEvents]. *)
Definition events_params (contract_id : str) (start_ledger : option Z) (cursor : option str) (limit : Z) : pyval :=
  let page_limit := Z.max 1 (Z.min limit INDEXER_MAX_PAGE_SIZE) in
  let filters := (lit "filters", PList [PDict [(lit "type", PStr (lit "contract"));
    (lit "contractIds", PList [PStr contract_id])]]) in
  match cursor with
  | Some ((_ :: _) as c) =>
      PDict [filters; (lit "pagination", PDict [(lit "limit", PInt page_limit); (lit "cursor", PStr c)]); (lit "cursor", PStr c)]
  | _ =>
      PDict ([filters; (lit "pagination", PDict [(lit "limit", PInt page_limit)])] ++
        match start_ledger with Some l => [(lit "startLedger", PInt l)] | None => [] end)
  end.

(** A JSON-RPC call: method and parameters to the decoded body, or the exception raised. *)
Class Rpc := rpc_call : string → pyval → result exn pyval.

Context `{Rpc}.

Definition fetch_latest_ledger : option Z :=
  to_option (data ← rpc_call "getLatestLedger" (PList []);
    match data with
    | PDict d =>
        match or_val (get_or_none (lit "result") d) (PDict []) with
        | PDict r =>
            match or_val (get_or_none (lit "sequence") r) (get_or_none (lit "latestLedger") r) with
            | PNone => Err (ValueError "none")
            | v => py_to_int v
            end
        | _ => Err AttributeError
        end
    | _ => Err AttributeError
    end).

(** The [result] object of the response. *)
Definition fetch_contract_events (contract_id : str) (start_ledger : option Z) (cursor : option str) (limit : Z) :
    result exn pyval :=
  data ← rpc_call "getEvents" (events_params contract_id start_ledger cursor limit);
  match data with
  | PDict d =>
      if dict_has (lit "error") d then Err (RuntimeError "Soroban RPC error")
      else Ok (or_val (get_or_none (lit "result") d) (PDict []))
  | PList l => if existsb (λ v, in_str_tuple v [lit "error"]) l then Err (TypeError "list indices") else Err AttributeError
  | PStr _ => Err (TypeError "string indices or no attribute get")
  | _ => Err (TypeError "argument is not iterable")
  end.

(** [for raw in events] and [events[-1]] *)
Definition iterate (events : pyval) : result exn (list pyval) :=
  match events with
  | PList l => Ok l
  | PDict d => Ok (map (λ p, PStr p.1) d)
  | PStr s => Ok (map (λ c, PStr [c]) s)
  | _ => Err (TypeError "object is not iterable")
  end.
Definition last_event (events : pyval) : result exn (option pyval) :=
  match events with
  | PDict (_ :: _) => Err (KeyError "-1")
  | _ => l ← iterate events; Ok (last l)
  end.

(** The cursor after a page: the one the response gives when it is new, else that of the
    last event. *)
Definition next_cursor_of (cursor : option str) (response : list (str * pyval)) (events : pyval) :
    result exn (option pyval) :=
  let new_cursor := get_or_none (lit "cursor") response in
  if truthy new_cursor then
    Ok (if bool_decide (cursor = match new_cursor with PStr c => Some c | _ => None end) &&
           (match new_cursor with PStr _ => true | _ => false end) then None else Some new_cursor)
  else
    o ← last_event events;
    match o with
    | None => Ok None
    | Some (PDict e) =>
        let id := or_val (get_or_none (lit "id") e) (get_or_none (lit "pagingToken") e) in
        Ok (if truthy id then Some (PStr (py_str id)) else None)
    | Some _ => Err AttributeError
    end.

(** [save_indexer_cursor] *)
Definition save_indexer_cursor (cursor : pyval) (ledger : pyval) (c : chain_state) : result exn chain_state :=
  text ← text_column cursor;
  ledger ← bigint_column ledger;
  match text with
  | Some s => Ok (Chain (db c) (hooks_table c) (Some (s, ledger)))
  | None => Err (ValueError "null value in column cursor")
  end.

Definition get_indexer_cursor (c : chain_state) : option str := fst <$> cursor_row c.

(** The cursor a cycle starts from; an empty one counts as none. *)
Definition start_cursor (c : chain_state) : option str :=
  match get_indexer_cursor c with Some ((_ :: _) as k) => Some k | _ => None end.

(** The page a cycle asks for: after the cursor, or from the latest ledger. *)
Definition fetch_page (contract_id : str) (limit : Z) (c : chain_state) : result exn pyval :=
  let start_ledger := match start_cursor c with Some _ => None | None => fetch_latest_ledger end in
  fetch_contract_events contract_id start_ledger (start_cursor c) limit.

(** [rpc_result.get("events") or []] *)
Definition events_in (response : list (str * pyval)) : pyval :=
  or_val (get_or_none (lit "events") response) (PList []).

(** [poll_indexer_once] with a configured contract. *)
Definition poll_indexer_once (now : Z) (contract_id : str) (limit : Z) (c : chain_state) :
    chain_state * result exn batch_summary :=
  let cursor := start_cursor c in
  match fetch_page contract_id limit c with
  | Err e => (c, Err e)
  | Ok (PDict response) =>
      let events := events_in response in
      match iterate events with
      | Err e => (c, Err e)
      | Ok raws =>
          match process_events_batch now (Some contract_id) raws c with
          | (c, Err e) => (c, Err e)
          | (c, Ok summary) =>
              match (o ← next_cursor_of cursor response events;
                     match o with
                     | Some k => save_indexer_cursor k (get_or_none (lit "latestLedger") response) c
                     | None => Ok c
                     end) with
              | Ok c => (c, Ok summary)
              | Err e => (c, Err e)
              end
          end
      end
  | Ok _ => (c, Err AttributeError)
  end.

(** The waits of [run_indexer_loop]: after a success the poll interval, after an error
    the backoff, which doubles up to its maximum. *)
Definition next_backoff (initial maximum backoff : Z) (ok : bool) : Z :=
  if ok then initial else Z.min maximum (backoff * 2).

(** * What a batch leaves in the table *)

(** An event whose columns PostgreSQL takes. *)
Definition storable (contract_id : option str) (raw : pyval) : bool :=
  match classify_and_decode_event raw contract_id with
  | Ok (Some d) => is_ok (decoded_columns d)
  | Ok None => true
  | Err _ => false
  end.

(** The first event of a batch with a transaction hash and an index. *)
Fixpoint first_decoded (contract_id : option str) (tx : str) (idx : Z) (raws : list pyval) :
    option DecodedLifecycleEvent :=
  match raws with
  | [] => None
  | raw :: raws =>
      match classify_and_decode_event raw contract_id with
      | Ok (Some d) => if bool_decide (dc_tx d = tx ∧ dc_index d = idx) then Some d else first_decoded contract_id tx idx raws
      | _ => first_decoded contract_id tx idx raws
      end
  end.

(** The columns of the row of a recognized event; the contract as PostgreSQL casts it. *)
Definition row_of (d : DecodedLifecycleEvent) : event_data :=
  EventData (dc_type d) None None None (dc_proof d) None None (Some (dc_tx d)) (Some (dc_status d)) None
    (from_ok None (text_column (dc_contract d))) None None (Some (dc_metadata d)) None None
    (Some (dc_index d)) (Some (lit "indexer:" ++ dc_tx d ++ 58 :: dec_str (dc_index d))).

(** The table seen as a map from transaction hash and index to the columns of a row. *)
Definition abstract (s : store) (tx : str) (idx : Z) : option event_data := ev <$> find_indexed tx idx s.

(** First wins. *)
Definition merge_batch (m : str → Z → option event_data) (contract_id : option str) (raws : list pyval)
    (tx : str) (idx : Z) : option event_data :=
  match m tx idx with
  | Some row => Some row
  | None => row_of <$> first_decoded contract_id tx idx raws
  end.

Lemma find_indexed_snoc tx idx (s : store) row n r nr h nh :
  find_indexed tx idx (Store (events s ++ [row]) n r nr h nh) =
    match find_indexed tx idx s with
    | Some e => Some e
    | None => if bool_decide (tx_hash (ev row) = Some tx ∧ event_index (ev row) = Some idx) then Some row else None
    end.
Proof.
  unfold find_indexed; cbn [events]. destruct (list_find _ (events s)) as [[i e]|] eqn:Hf.
  - by rewrite (list_find_app_l _ _ _ _ _ Hf).
  - rewrite list_find_app_r by done. cbn. case_decide; case_bool_decide; naive_solver.
Qed.

Lemma find_indexed_key tx idx s e :
  find_indexed tx idx s = Some e → tx_hash (ev e) = Some tx ∧ event_index (ev e) = Some idx.
Proof.
  unfold find_indexed. intros Hf. destruct (list_find _ _) as [[i x]|] eqn:Hl; [|done].
  apply list_find_Some in Hl. naive_solver.
Qed.

Lemma decoded_columns_ok d ct i :
  decoded_columns d = Ok (ct, i) → ct = from_ok None (text_column (dc_contract d)) ∧ i = dc_index d.
Proof.
  unfold decoded_columns. intros (p & _ & (t & _ & (c & Hc & (j & Hj & (u & _ & [= <- <-])%bind_ok)%bind_ok)%bind_ok)%bind_ok)%bind_ok.
  rewrite Hc. split; [done|]. unfold int4 in Hj. by destruct (_ && _); simplify_eq.
Qed.

(** One recognized event: the row is the one already there or the one of the event. *)
Lemma ingest_decoded_spec now c d :
  is_ok (decoded_columns d) = true →
  ∃ s' h' created, ingest_decoded now c d = Ok (Chain s' h' (cursor_row c), created) ∧
    (if created : bool then find_indexed (dc_tx d) (dc_index d) (db c) = None ∧ zlen (events s') = zlen (events (db c)) + 1
     else is_Some (find_indexed (dc_tx d) (dc_index d) (db c)) ∧ s' = db c ∧ h' = hooks_table c) ∧
    (∀ tx idx, find_indexed tx idx s' =
      match find_indexed tx idx (db c) with
      | Some e => Some e
      | None => if bool_decide (dc_tx d = tx ∧ dc_index d = idx) then Some (ProofEvent (next_event (db c)) (row_of d) false now)
                else None
      end).
Proof.
  intros Hok. destruct (decoded_columns d) as [[ct i]|] eqn:Hcol'; [|done].
  pose proof (decoded_columns_ok d ct i Hcol') as [Hct' ->].
  unfold ingest_decoded. rewrite Hcol', bind_Ok. unfold insert_indexed_proof_event.
  destruct (find_indexed (dc_tx d) (dc_index d) (db c)) as [row|] eqn:Hf; cbn.
  - eexists _, _, false. split; [done|]. split; [done|]. intros tx idx.
    destruct (find_indexed tx idx (db c)) eqn:He; [done|]. case_bool_decide as Hk; [|done].
    destruct Hk as [<- <-]. congruence.
  - eexists _, _, true. split; [done|]. split; [split; [done|unfold zlen; cbn [events]; rewrite length_app; cbn; lia]|].
    intros tx idx. rewrite find_indexed_snoc. destruct (find_indexed tx idx (db c)); [done|]. cbn.
    subst ct. repeat case_bool_decide; naive_solver.
Qed.

(** Events of unknown topics, and their number. *)
Definition unrecognized (contract_id : option str) (raw : pyval) : bool :=
  match classify_and_decode_event raw contract_id with Ok None => true | _ => false end.
Definition unknown (contract_id : option str) (raws : list pyval) : Z :=
  zlen (filter (λ raw, unrecognized contract_id raw = true) raws).

(** The rows a state has, another has as well. *)
Definition keeps (c c' : chain_state) : Prop :=
  cursor_row c' = cursor_row c ∧
  ∀ tx idx e, find_indexed tx idx (db c) = Some e → find_indexed tx idx (db c') = Some e.

#[local] Instance keeps_preorder : PreOrder keeps.
Proof.
  split; [intros c; by split|]. intros a b c [Hab Hab2] [Hbc Hbc2]. split; [congruence|naive_solver].
Qed.

Lemma unknown_cons cid raw raws :
  unknown cid (raw :: raws) =
    (if unrecognized cid raw then 1 else 0) + unknown cid raws.
Proof. unfold unknown, zlen. rewrite filter_cons. destruct (unrecognized cid raw); case_decide; cbn [length]; (done || lia). Qed.

Lemma ingest_unstorable now cid c m raw :
  storable cid raw = false → ∃ e, ingest now cid (c, m) raw = Err e.
Proof.
  unfold storable, ingest. destruct (classify_and_decode_event raw cid) as [[d|]|e]; try naive_solver.
  rewrite bind_Ok. unfold ingest_decoded. destruct (decoded_columns d) as [|e]; [done|]. by exists e.
Qed.

(** One storable event: the effect on the table and on the counters. *)
Lemma ingest_storable now cid c m raw : storable cid raw = true →
  ∃ c' m', ingest now cid (c, m) raw = Ok (c', m') ∧ keeps c c' ∧
    (∀ tx idx, abstract (db c') tx idx = merge_batch (abstract (db c)) cid [raw] tx idx) ∧
    scanned m' = scanned m + 1 ∧ skipped m' = skipped m + unknown cid [raw] ∧
    indexed m' - indexed m = zlen (events (db c')) - zlen (events (db c)) ∧
    scanned m' - scanned m = indexed m' - indexed m + (skipped m' - skipped m) + (duplicates m' - duplicates m).
Proof.
  unfold storable, ingest. intros Hs. setoid_rewrite unknown_cons. unfold unrecognized.
  destruct (classify_and_decode_event raw cid) as [[d|]|e] eqn:Hc; [|eexists _, _..|done].
  - destruct (ingest_decoded_spec now c d Hs) as (s' & h' & created & Hi & Hcr & Hf).
    rewrite bind_Ok, Hi, bind_Ok. eexists _, _. split; [done|].
    split; [split; [done|]; intros tx idx e He; cbn; by rewrite Hf, He|]. split.
    + intros tx idx. unfold merge_batch, abstract. cbn [db first_decoded]. rewrite Hf, Hc.
      destruct (find_indexed tx idx (db c)); [done|]. by case_bool_decide.
    + change (unknown cid []) with 0. destruct created; cbn in *; [lia|]. destruct Hcr as (_ & -> & _). lia.
  - split; [reflexivity|]. split; [done|]. split.
    + intros tx idx. unfold merge_batch. cbn [first_decoded]. rewrite Hc. by destruct (abstract _ _ _).
    + change (unknown cid []) with 0. cbn. lia.
Qed.

Lemma merge_batch_cons m cid raw raws tx idx :
  merge_batch (merge_batch m cid [raw]) cid raws tx idx = merge_batch m cid (raw :: raws) tx idx.
Proof.
  unfold merge_batch. cbn [first_decoded]. destruct (m tx idx); [done|].
  destruct (classify_and_decode_event raw cid) as [[d|]|]; [|done..]. by case_bool_decide.
Qed.

Lemma merge_batch_ext m m' cid raws tx idx :
  (∀ tx idx, m tx idx = m' tx idx) → merge_batch m cid raws tx idx = merge_batch m' cid raws tx idx.
Proof. intros Hm. unfold merge_batch. by rewrite Hm. Qed.

(** A batch of storable events. *)
Lemma ingest_all_storable now cid raws c m : forallb (storable cid) raws = true →
  ∃ c' m', ingest_all now cid raws (c, m) = (c', Ok m') ∧ keeps c c' ∧
    (∀ tx idx, abstract (db c') tx idx = merge_batch (abstract (db c)) cid raws tx idx) ∧
    scanned m' = scanned m + zlen raws ∧ skipped m' = skipped m + unknown cid raws ∧
    indexed m' - indexed m = zlen (events (db c')) - zlen (events (db c)) ∧
    scanned m' - scanned m = indexed m' - indexed m + (skipped m' - skipped m) + (duplicates m' - duplicates m).
Proof.
  revert c m. induction raws as [|raw raws IH]; intros c m Hs.
  { eexists c, m. split; [done|]. split; [done|]. split; [|change (unknown cid []) with 0; unfold zlen; cbn; lia].
    intros tx idx. unfold merge_batch. cbn. by destruct (abstract _ _ _). }
  cbn in Hs. apply andb_true_iff in Hs as [Hr Hs].
  destruct (ingest_storable now cid c m raw Hr) as (c1 & m1 & Hi & Hk & Hm & Hn & Hu & Hx & Hy).
  destruct (IH c1 m1 Hs) as (c2 & m2 & Hi2 & Hk2 & Hm2 & Hn2 & Hu2 & Hx2 & Hy2).
  exists c2, m2. cbn [ingest_all]. rewrite Hi. split; [done|]. split; [by transitivity c1|]. split.
  - intros tx idx. rewrite Hm2, <- merge_batch_cons. by apply merge_batch_ext.
  - rewrite unknown_cons in Hu |- *. change (unknown cid []) with 0 in Hu. unfold zlen in *. cbn [length]. lia.
Qed.

(** An exception comes from an event that is not storable, and what was there stays. *)
Lemma ingest_all_result now cid raws c m :
  keeps c (ingest_all now cid raws (c, m)).1 ∧
  is_ok (ingest_all now cid raws (c, m)).2 = forallb (storable cid) raws.
Proof.
  revert c m. induction raws as [|raw raws IH]; intros c m; [done|]. cbn [ingest_all forallb].
  destruct (storable cid raw) eqn:Hs.
  - destruct (ingest_storable now cid c m raw Hs) as (c1 & m1 & -> & Hk & _).
    destruct (IH c1 m1) as [? ->]. split; [by transitivity c1|done].
  - destruct (ingest_unstorable now cid c m raw Hs) as [e ->]. by split.
Qed.

Lemma first_decoded_elem cid raws raw d :
  raw ∈ raws → classify_and_decode_event raw cid = Ok (Some d) →
  is_Some (first_decoded cid (dc_tx d) (dc_index d) raws).
Proof.
  intros Hin Hc. induction raws as [|x raws IH]; [by apply elem_of_nil in Hin|]. cbn.
  apply elem_of_cons in Hin as [->|Hin].
  - rewrite Hc, bool_decide_true by done. done.
  - specialize (IH Hin). destruct (classify_and_decode_event x cid) as [[d'|]|]; [|done..]. by case_bool_decide.
Qed.

(** After a batch every recognized event of it has a row. *)
Lemma batch_has_rows s s' cid raws raw d :
  (∀ tx idx, abstract s' tx idx = merge_batch (abstract s) cid raws tx idx) →
  raw ∈ raws → classify_and_decode_event raw cid = Ok (Some d) →
  is_Some (find_indexed (dc_tx d) (dc_index d) s').
Proof.
  intros Hm Hin Hc. specialize (Hm (dc_tx d) (dc_index d)). unfold merge_batch, abstract in Hm.
  destruct (first_decoded_elem cid raws raw d Hin Hc) as [x Hx]. rewrite Hx in Hm.
  destruct (find_indexed _ _ s'), (find_indexed _ _ s); naive_solver.
Qed.

(** Events that all have rows are counted and change nothing. *)
Lemma ingest_all_replay now cid raws c m : forallb (storable cid) raws = true →
  (∀ raw d, raw ∈ raws → classify_and_decode_event raw cid = Ok (Some d) →
     is_Some (find_indexed (dc_tx d) (dc_index d) (db c))) →
  ingest_all now cid raws (c, m) =
    (c, Ok (Summary (scanned m + zlen raws) (indexed m) (skipped m + unknown cid raws)
              (duplicates m + (zlen raws - unknown cid raws)))).
Proof.
  intros Hs Hrows. revert m Hs. induction raws as [|raw raws IH]; intros m Hs.
  { change (unknown cid []) with 0. unfold zlen. destruct m; cbn. do 3 f_equal; lia. }
  cbn in Hs. apply andb_true_iff in Hs as [Hr Hs]. cbn [ingest_all]. rewrite unknown_cons.
  unfold unrecognized. specialize (IH ltac:(intros; eapply Hrows; [by right|done])).
  unfold ingest, storable in *. destruct (classify_and_decode_event raw cid) as [[d|]|] eqn:Hc; [| |done].
  - destruct (Hrows raw d ltac:(by left) Hc) as [row Hrow].
    destruct (ingest_decoded_spec now c d Hr) as (s' & h' & created & Hi & Hcr & _).
    rewrite bind_Ok, Hi, bind_Ok. destruct created; [naive_solver|]. destruct Hcr as (_ & -> & ->).
    replace (Chain (db c) (hooks_table c) (cursor_row c)) with c by (by destruct c).
    rewrite IH by done. unfold zlen; cbn.
    do 3 f_equal; lia.
  - rewrite bind_Ok, IH by done. unfold zlen; cbn. do 3 f_equal; lia.
Qed.

(** C7. Ingestion refines the map from transaction hash and event index to columns in
    which the first event wins.  A batch is accepted exactly when PostgreSQL takes the columns
    of every recognized event: proof, transaction hash and contract are texts, or are cast to
    texts ([Columns]), that are UTF-8 without NUL, the index is in the range of its column, and
    the metadata is JSON that [JSONB] takes, without NUL.  Then a key that had a row
    keeps it, a new key gets the columns of the first event of the batch that carries
    it, and no other key gets a row; the counters add up and [indexed] counts the rows
    added.  Ingesting the batch again, at any time, changes no table and counts every
    recognized event as a duplicate. *)
Theorem ingestion_first_wins now cid raws c :
  if forallb (storable cid) raws then
    ∃ c' m, process_events_batch now cid raws c = (c', Ok m) ∧
      (∀ tx idx, abstract (db c') tx idx = merge_batch (abstract (db c)) cid raws tx idx) ∧
      scanned m = zlen raws ∧ scanned m = indexed m + skipped m + duplicates m ∧
      indexed m = zlen (events (db c')) - zlen (events (db c)) ∧
      ∀ later, process_events_batch later cid raws c' =
        (c', Ok (Summary (scanned m) 0 (skipped m) (indexed m + duplicates m)))
  else ∃ e, (process_events_batch now cid raws c).2 = Err e.
Proof.
  unfold process_events_batch. destruct (forallb (storable cid) raws) eqn:Hs.
  - destruct (ingest_all_storable now cid raws c (Summary 0 0 0 0) Hs)
      as (c' & m & Hi & _ & Hm & Hn & Hu & Hx & Hy). cbn in *.
    exists c', m. repeat split; [done|done|lia..|]. intros later.
    rewrite ingest_all_replay by (done || by intros; eapply batch_has_rows). cbn. do 3 f_equal; lia.
  - destruct (ingest_all_result now cid raws c (Summary 0 0 0 0)) as [_ Hr]. rewrite Hs in Hr.
    destruct (ingest_all _ _ _ _) as [? [?|e]]; [done|by exists e].
Qed.

Lemma save_cursor_db k ledger c c' : save_indexer_cursor k ledger c = Ok c' → db c' = db c.
Proof.
  unfold save_indexer_cursor. intros (t & _ & (l & _ & Hc)%bind_ok)%bind_ok. destruct t; [|done]. by injection Hc as <-.
Qed.

(** C8. A polling cycle never loses a row of the table.  It moves the cursor only when
    it succeeds, and then every event of the page it fetched was storable and every
    recognized one has its row: what the stored cursor skips is in the table.  One event
    that cannot be stored keeps the cursor where it is. *)
Theorem cursor_never_skips now cid limit c :
  let '(c', r) := poll_indexer_once now cid limit c in
  (∀ tx idx e, find_indexed tx idx (db c) = Some e → find_indexed tx idx (db c') = Some e) ∧
  (cursor_row c' ≠ cursor_row c →
     is_ok r = true ∧
     ∃ response raws, fetch_page cid limit c = Ok (PDict response) ∧ iterate (events_in response) = Ok raws ∧
       forallb (storable (Some cid)) raws = true ∧
       ∀ raw d, raw ∈ raws → classify_and_decode_event raw (Some cid) = Ok (Some d) →
         is_Some (find_indexed (dc_tx d) (dc_index d) (db c'))).
Proof.
  unfold poll_indexer_once. destruct (fetch_page cid limit c) as [[| | | | | |response]|e] eqn:Hp; try by split.
  destruct (iterate (events_in response)) as [raws|e] eqn:Hi; [|by split]. unfold process_events_batch.
  destruct (ingest_all_result now (Some cid) raws c (Summary 0 0 0 0)) as [[Hc Hk] Hr].
  destruct (forallb (storable (Some cid)) raws) eqn:Hs.
  - destruct (ingest_all_storable now (Some cid) raws c (Summary 0 0 0 0) Hs) as (c1 & m & Hall & _ & Hm & _).
    rewrite Hall in *. cbn [fst] in *. destruct (next_cursor_of _ _ _) as [[k|]|e]; cbn; [|by split..].
    destruct (save_indexer_cursor k _ c1) as [c2|e] eqn:Hsave; [|by split].
    apply save_cursor_db in Hsave as Hdb. rewrite Hdb. split; [done|]. intros _. split; [done|].
    exists response, raws. repeat split; [done..|]. intros raw d Hin Hd. by apply (batch_has_rows _ _ _ _ raw d Hm).
  - destruct (ingest_all _ _ _ _) as [c1 [m|e]]; [done|]. by split.
Qed.

Lemma decode_scval_struct data :
  bytes_ok data → (4 ≤ length data)%nat →
  int_of_be (slice 0 4 data) = 16 ∨ int_of_be (slice 0 4 data) = 17 →
  decode_scval (PStr (b2a (b64_char 43 47) data)) = PStr (b2a (b64_char 43 47) data).
Proof.
  intros Hb Hl Hd. unfold decode_scval. rewrite b64_ascii, b64_roundtrip by done. cbn [negb].
  destruct (zlen data <? 4) eqn:Hz; [done|]. by destruct Hd as [-> | ->].
Qed.

(** The contract publishes a history entry as a struct, which XDR writes as a vector
    or a map.  [decode_scval] leaves both as their base64 text, so no history event with
    such a value, of an expiry, a correction or a revocation, is ever recognized: a
    batch of it leaves every table as it was. *)
Theorem struct_history_never_indexed now cid c e raw_topics data :
  or_val (get_or_none (lit "topic") e) (or_val (get_or_none (lit "topics") e) (PList [])) = PList raw_topics →
  topic_text (map decode_scval raw_topics) 0 = lit "proof" →
  topic_text (map decode_scval raw_topics) 1 = lit "history" →
  get_or_none (lit "value") e = PStr (b2a (b64_char 43 47) data) →
  bytes_ok data → (4 ≤ length data)%nat →
  int_of_be (slice 0 4 data) = 16 ∨ int_of_be (slice 0 4 data) = 17 →
  (process_events_batch now cid [PDict e] c).1 = c.
Proof.
  intros Ht Ht0 Ht1 Hv Hb Hl Hd.
  assert (∀ d, classify_and_decode_event (PDict e) cid ≠ Ok (Some d)) as Hn.
  { intros d. unfold classify_and_decode_event. case_match; try done. case_match; [done|].
    destruct (event_index_of e) as [idx|]; [|done]. rewrite bind_Ok, Ht. destruct raw_topics as [|t0 ts]; [done|].
    rewrite Hv, decode_scval_struct by done. unfold classify_topics. rewrite Ht0, Ht1. cbv zeta.
    destruct (3 <=? length _)%nat; vm_compute; congruence. }
  unfold process_events_batch. cbn [ingest_all]. unfold ingest.
  destruct (classify_and_decode_event (PDict e) cid) as [[d|]|]; [by destruct (Hn d)|done..].
Qed.
End indexer.

(** * Concrete runs *)

Definition no_lossy : LossyUtf8 := λ _, [].
(** Integers and booleans are cast to texts, nothing to an integer. *)
Definition sample_columns : Columns := {|
  text_cast := λ v, match v with
    | PInt z => Ok (dec_str z)
    | PBool b => Ok (if b then lit "true" else lit "false")
    | _ => Err (TypeError "cannot adapt type")
    end;
  bigint_cast := λ _, Err (TypeError "column is of type bigint"); jsonb_takes := λ _, true |}.
Definition symbol (s : string) : pyval :=
  PStr (b2a (b64_char 43 47) ([0; 0; 0; 15] ++ be_of_int 4 (zlen (lit s)) ++ lit s ++ replicate (Z.to_nat (- zlen (lit s) mod 4)) 0)).
Definition empty_chain : chain_state := Chain empty_store (Hooks [] [] 1) None.

(** A page with a revocation, an event of another topic and the revocation again. *)
Definition sample_revocation : pyval :=
  PDict [(lit "txHash", PStr (lit "0xAB")); (lit "id", PStr (lit "12-3"));
         (lit "topic", PList [symbol "proof"; symbol "revoke"; PStr (lit "0xCD")])].
Definition sample_rpc : Rpc := λ method _,
  Ok (PDict [(lit "result", PDict [(lit "sequence", PInt 9); (lit "cursor", PStr (lit "12-4")); (lit "latestLedger", PInt 12);
    (lit "events", PList [sample_revocation; PDict [(lit "txHash", PStr (lit "x")); (lit "topics", PList [symbol "mint"])];
                          sample_revocation])])]).

Example sample_poll :
  let '(c, r) := @poll_indexer_once plain_unicode no_lossy sample_columns sample_rpc 5 (lit "C") 50 empty_chain in
  r = Ok (Summary 3 1 1 1) ∧ cursor_row c = Some (lit "12-4", PInt 12) ∧
  (proof_id ∘ ev <$> @find_indexed (lit "ab") 3 (db c)) = Some (Some (lit "cd")).
Proof. vm_compute. repeat split. Qed.

(** A contract that is a number is stored as its digits; one with a NUL character stops the batch. *)
Definition with_contract (v : pyval) : pyval :=
  PDict [(lit "txHash", PStr (lit "0xAB")); (lit "id", PStr (lit "12-3")); (lit "contractId", v);
         (lit "topic", PList [symbol "proof"; symbol "revoke"; PStr (lit "0xCD")])].

Example contract_columns :
  let batch v := @process_events_batch plain_unicode no_lossy sample_columns 5 None [with_contract v] empty_chain in
  (contract_id ∘ ev <$> @find_indexed (lit "ab") 3 (db (batch (PInt 7)).1)) = Some (Some (lit "7")) ∧
  is_ok (batch (PStr [67; 0])).2 = false ∧ is_ok (batch (PDict [(lit "a", PNone)])).2 = false.
Proof. vm_compute. repeat split. Qed.

(** A history entry of a correction as the contract publishes it: a map with a symbol key
    and a number. *)
Definition sample_entry : bytes :=
  [0; 0; 0; 17; 0; 0; 0; 1; 0; 0; 0; 1; 0; 0; 0; 15; 0; 0; 0; 6] ++ lit "action" ++ [0; 0; 0; 0; 0; 3; 0; 0; 0; 5].
Definition sample_history : list (str * pyval) :=
  [(lit "txHash", PStr (lit "ab")); (lit "id", PStr (lit "12-3"));
   (lit "topic", PList [symbol "proof"; symbol "history"; PStr (lit "cd")]);
   (lit "value", PStr (b2a (b64_char 43 47) sample_entry))].

Lemma struct_history_never_indexed_witness :
  get_or_none (lit "value") sample_history = PStr (b2a (b64_char 43 47) sample_entry) ∧
  (@process_events_batch plain_unicode no_lossy sample_columns 0 None [PDict sample_history] empty_chain).1 = empty_chain.
Proof.
  split; [vm_compute; reflexivity|].
  eapply (@struct_history_never_indexed plain_unicode no_lossy sample_columns 0 None empty_chain sample_history
    [symbol "proof"; symbol "history"; PStr (lit "cd")] sample_entry).
  - vm_compute. reflexivity.
  - vm_compute. reflexivity.
  - vm_compute. reflexivity.
  - vm_compute. reflexivity.
  - apply (bool_decide_unpack _). vm_compute. exact I.
  - vm_compute. repeat constructor.
  - right. vm_compute. reflexivity.
Defined.
