(* ===== verification/JobQueue.v ===== *)
(** Background jobs: the queue of [backend/db.py], the sweep of job files of
    [backend/storage.py], the public view of a job of [backend/app.py] and the loop of
    [backend/worker.py].  Times are microseconds; what [datetime] writes and reads of
    them is the class [Iso], the digits beyond ASCII are the class [Digits], and what the
    processors of the four job types return is an argument of the loop.

    Shown: a job runs at most once at a time and a terminal status is final as long as no
    worker released the job at shutdown, after which it can run twice and a completed job be
    pending again; the oldest job is leased first; the sweep removes
    exactly the expired files and never those of a job still queued or running; the
    public view shows neither payload nor internal fields; the loop as written leases
    nothing. *)
From Stdlib Require Import ZArith Lia.
From stdpp Require Import base decidable strings numbers relations list sorting.
From S2P Require Import Prelude PyStr.

Open Scope Z_scope.

#[local] Arguments lit _ : simpl never.

Class Iso := {
  isoformat : Z → str;           (* datetime.isoformat() in UTC *)
  parse_iso : str → option Z;    (* fromisoformat with [Z] replaced; [None] raises *)
}.
Class IsoLaws `{Iso} := {
  parse_isoformat t : parse_iso (isoformat t) = Some t;
  isoformat_nonempty t : isoformat t ≠ [];
}.

(** [chr(c).isdigit()] for [c >= 128] *)
Class Digits := isdigit_tbl : Z → bool.

(** * Jobs *)

Inductive job_status : Type := pending | running | completed | failed | cancelled.

#[export] Instance job_status_eq_dec : EqDecision job_status.
Proof. solve_decision. Defined.

(** The dictionary of a job; a key that is absent is [None]. *)
Record job := Job {
  jb_id : Z;
  jb_type : str;
  payload : pyval;
  trace_context : pyval;                       (* _trace_context *)
  status : job_status;
  job_result : pyval;
  progress : option (str * option Z);          (* phase, and percent in tenths *)
  created_at : str;
  worker_id : option str;
  heartbeat_at : option str;
  progress_at : option Z;                      (* _progress_at, monotonic *)
  completed_at : option str;
  error : option str;
  failed_at : option str;
  purged : bool;
}.

(** [_JOBS] in insertion order, and [_next_job_id]. *)
Record queue := Queue { jobs : list job; next_job_id : Z }.

Definition empty_queue : queue := Queue [] 1.

Definition set_status (s : job_status) (w : option str) (j : job) : job :=
  Job (jb_id j) (jb_type j) (payload j) (trace_context j) s (job_result j) (progress j) (created_at j) w
    (heartbeat_at j) (progress_at j) (completed_at j) (error j) (failed_at j) (purged j).

Definition enqueue_job (created : str) (ty : str) (pl trace : pyval) (q : queue) : queue * Z :=
  let id := next_job_id q in
  (Queue (jobs q ++ [Job id ty pl trace pending PNone None created None None None None None None false]) (id + 1), id).

Definition get_job (id : Z) (q : queue) : option job :=
  snd <$> list_find (λ j, jb_id j = id) (jobs q).

(** Mutation of the dictionary of one job. *)
Definition update_job (id : Z) (f : job → job) (q : queue) : queue :=
  Queue (map (λ j, if bool_decide (jb_id j = id) then f j else j) (jobs q)) (next_job_id q).

Definition cancel_job (id : Z) (q : queue) : queue * bool :=
  match get_job id q with
  | Some j =>
      if bool_decide (status j = pending) then (update_job id (λ j, set_status cancelled (worker_id j) j) q, true)
      else (q, false)
  | None => (q, false)
  end.

Definition lease_job (worker : str) (job_types : list str) (q : queue) : queue * option job :=
  match list_find (λ j, status j = pending ∧ jb_type j ∈ job_types) (jobs q) with
  | Some (_, j) => (update_job (jb_id j) (set_status running (Some worker)) q, Some (set_status running (Some worker) j))
  | None => (q, None)
  end.

Definition heartbeat_job (at_ : str) (id : Z) (q : queue) : queue :=
  update_job id (λ j, if bool_decide (status j = running) then
    Job (jb_id j) (jb_type j) (payload j) (trace_context j) (status j) (job_result j) (progress j) (created_at j)
      (worker_id j) (Some at_) (progress_at j) (completed_at j) (error j) (failed_at j) (purged j)
    else j) q.

(** A percentage as the caller gives it: a binary float [m * 2 ^ e], the special floats,
    or something [float] refuses. *)
Inductive number : Type := Finite (m e : Z) | PosInf | NegInf | NaN | NotNumber.

(** [n / d] rounded to the nearest integer, ties to even. *)
Definition round_half_even (n d : Z) : Z :=
  let q := n / d in
  let r := n mod d in
  if 2 * r <? d then q else if d <? 2 * r then q + 1 else if Z.even q then q else q + 1.

(** [round(min(100.0, max(0.0, x)), 1)] in tenths. *)
Definition percent_tenths (x : number) : result exn Z :=
  match x with
  | NotNumber | NaN => Err (ValueError "progress percent must be a number or None")
  | NegInf => Ok 0
  | PosInf => Ok 1000
  | Finite m e =>
      let n := if 0 <=? e then m * 2 ^ e else m in
      let d := if 0 <=? e then 1 else 2 ^ (- e) in
      Ok (if n <=? 0 then 0 else if 100 * d <=? n then 1000 else round_half_even (10 * n) d)
  end.

Definition JOB_PROGRESS_MIN_INTERVAL : Z := 1000000.
Definition JOB_PROGRESS_PHASE_MAX_LENGTH : nat := 64.

Definition set_progress (now : Z) (phase : str) (pct : option Z) (j : job) : job :=
  Job (jb_id j) (jb_type j) (payload j) (trace_context j) (status j) (job_result j) (Some (phase, pct)) (created_at j)
    (worker_id j) (heartbeat_at j) (Some now) (completed_at j) (error j) (failed_at j) (purged j).

Definition report_job_progress `{Unicode} (now id : Z) (phase : pyval) (percent : option number) (q : queue) :
    result exn (queue * bool) :=
  match get_job id q with
  | Some j =>
      if negb (bool_decide (status j = running)) then Ok (q, false) else
      match phase with
      | PStr p =>
          if bool_decide (py_strip p = []) then Err (ValueError "progress phase must be a non-empty string") else
          let p := take JOB_PROGRESS_PHASE_MAX_LENGTH (py_strip p) in
          pct ← match percent with None => Ok None | Some x => t ← percent_tenths x; Ok (Some t) end;
          if match progress_at j with Some last => now - last <? JOB_PROGRESS_MIN_INTERVAL | None => false end
          then Ok (q, false)
          else Ok (update_job id (set_progress now p pct) q, true)
      | _ => Err (ValueError "progress phase must be a non-empty string")
      end
  | None => Ok (q, false)
  end.

Definition complete_job (at_ : str) (id : Z) (res : pyval) (q : queue) : queue :=
  update_job id (λ j,
    Job (jb_id j) (jb_type j) (payload j) (trace_context j) completed res (progress j) (created_at j)
      (worker_id j) (heartbeat_at j) (progress_at j) (Some at_) (error j) (failed_at j) (purged j)) q.

Definition fail_job (at_ : str) (id : Z) (err : str) (is_fatal : bool) (q : queue) : queue :=
  update_job id (λ j,
    Job (jb_id j) (jb_type j) (payload j) (trace_context j) (if is_fatal then failed else pending) (job_result j)
      (progress j) (created_at j) (if is_fatal then worker_id j else None) (heartbeat_at j) (progress_at j)
      (completed_at j) (Some err) (Some at_) (purged j)) q.

(** * The public view *)

Definition status_text (s : job_status) : str :=
  match s with
  | pending => lit "pending" | running => lit "running" | completed => lit "completed"
  | failed => lit "failed" | cancelled => lit "cancelled"
  end.

(** The float that is nearest to a number of tenths. *)
Definition float_of_tenths (t : Z) : pyval :=
  let text := dec_str (t / 10) ++ 46 :: dec_str (t mod 10) in
  PFloat (PyFloat text text (Ok (t / 10)) (t =? 0)).

Definition progress_value (p : str * option Z) : pyval :=
  PDict [(lit "phase", PStr p.1); (lit "percent", match p.2 with Some t => float_of_tenths t | None => PNone end)].

(** The entries of the dictionary. *)
Definition job_items (j : job) : list (str * pyval) :=
  let text k (o : option str) := match o with Some s => [(lit k, PStr s)] | None => [] end in
  [(lit "id", PInt (jb_id j)); (lit "type", PStr (jb_type j)); (lit "payload", payload j);
   (lit "_trace_context", trace_context j); (lit "status", PStr (status_text (status j)));
   (lit "result", job_result j);
   (lit "progress", match progress j with Some p => progress_value p | None => PNone end);
   (lit "created_at", PStr (created_at j))] ++
  text "worker_id" (worker_id j) ++ text "heartbeat_at" (heartbeat_at j) ++
  match progress_at j with Some t => [(lit "_progress_at", PInt t)] | None => [] end ++
  text "completed_at" (completed_at j) ++ text "error" (error j) ++ text "failed_at" (failed_at j) ++
  (if purged j then [(lit "purged", PBool true)] else []).

Definition JOB_PRIVATE_FIELDS : list str := [lit "payload"].

Definition public_key (k : str) : bool :=
  negb (bool_decide (k ∈ JOB_PRIVATE_FIELDS)) && negb (starts_with (lit "_") k).

Definition public_job_view (items : list (str * pyval)) : list (str * pyval) :=
  let view := filter (λ p, public_key p.1 = true) items in
  let shown := match get_or_none (lit "progress") items with
    | PDict d =>
        match get_or_none (lit "phase") d with
        | PStr p => PDict [(lit "phase", PStr p); (lit "percent", get_or_none (lit "percent") d)]
        | _ => PNone
        end
    | _ => PNone
    end in
  dict_set (lit "progress") shown view.

(** * The sweep *)

(** The names of the files of a job. *)
Definition get_job_input_path (id : Z) : str := lit "job_" ++ dec_str id ++ lit "_input".
Definition get_job_output_path (id : Z) : str := lit "job_" ++ dec_str id ++ lit "_output".

Record file := File {
  f_name : str;
  is_file : bool;
  f_mtime : Z;
  removable : bool;        (* [unlink] does not raise [OSError] *)
}.

(** The word up to the first underscore. *)
Fixpoint span_word (s : str) : str * str :=
  match s with
  | [] => ([], [])
  | c :: r => if c =? 95 then ([], s) else let '(w, t) := span_word r in (c :: w, t)
  end.

(** The rest of a line: no line feed, but perhaps one at the end. *)
Definition line_rest (s : str) : bool :=
  match rev s with
  | 10 :: r => forallb (λ c, negb (c =? 10)) r
  | r => forallb (λ c, negb (c =? 10)) r
  end.

(** The group of the pattern of job files: [job_], a word without underscores, and
    nothing or [_input] or [_output] with the rest of a line. *)
Definition raw_job_id (name : str) : option str :=
  if negb (starts_with (lit "job_") name) then None else
  let '(w, rest) := span_word (drop 4 name) in
  if bool_decide (w = []) then None
  else match rest with
  | [] => Some w
  | _ =>
      if starts_with (lit "_input") rest && line_rest (drop 6 rest) ||
         starts_with (lit "_output") rest && line_rest (drop 7 rest)
      then Some w else None
  end.

Section sweep.
Context `{Unicode} `{Digits} `{Iso}.

Definition isdigit (s : str) : bool :=
  negb (bool_decide (s = [])) &&
  forallb (λ c, if c <? 128 then (48 <=? c) && (c <=? 57) else isdigit_tbl c) s.

(** The job of a file; an identifier that is not a number names no job. *)
Definition job_of_file (name : str) (q : queue) : result exn (option job) :=
  match raw_job_id name with
  | None => Ok None
  | Some raw =>
      if isdigit raw then
        match py_int 10 raw with
        | Some id => Ok (get_job id q)
        | None => Err (ValueError "invalid literal for int()")
        end
      else Ok None
  end.

Definition is_terminal (s : job_status) : bool :=
  match s with completed | failed | cancelled => true | _ => false end.

(** [a or b] of texts *)
Definition or_text (a b : option str) : option str := match a with Some (_ :: _) => a | _ => b end.

(** The first timestamp of the job, read; an unreadable one counts as now. *)
Definition job_time (now : Z) (j : job) : Z :=
  match or_text (completed_at j) (or_text (failed_at j) (Some (created_at j))) with
  | Some s => default now (parse_iso s)
  | None => now
  end.

Definition mark_purged (j : job) : job :=
  Job (jb_id j) (jb_type j) (payload j) (trace_context j) (status j) (job_result j) (progress j) (created_at j)
    (worker_id j) (heartbeat_at j) (progress_at j) (completed_at j) (error j) (failed_at j) true.

(** One entry: whether it goes, and the queue afterwards. *)
Definition sweep_entry (now ttl : Z) (q : queue) (f : file) : result exn (queue * bool) :=
  if negb (is_file f) then Ok (q, false) else
  o ← job_of_file (f_name f) q;
  Ok match o with
  | None => (q, (ttl <=? now - f_mtime f) && removable f)
  | Some j =>
      if is_terminal (status j) && (ttl <=? now - job_time now j) && removable f
      then (update_job (jb_id j) mark_purged q, true) else (q, false)
  end.

(** The files left, the queue and the number of files removed; an exception leaves the
    rest of the directory alone. *)
Fixpoint sweep_job_files (now ttl : Z) (files : list file) (q : queue) : list file * queue * result exn Z :=
  match files with
  | [] => ([], q, Ok 0)
  | f :: files =>
      match sweep_entry now ttl q f with
      | Err e => (f :: files, q, Err e)
      | Ok (q, gone) =>
          let '(kept, q, r) := sweep_job_files now ttl files q in
          (if gone then kept else f :: kept, q,
           match r with Ok n => Ok (if gone then n + 1 else n) | Err e => Err e end)
      end
  end.
End sweep.

(** * The worker loop *)

(** [last_sweep_time] is assigned in the loop, so it is a local variable of
    [run_worker]; [None]: not bound. *)
Record worker := Worker { last_sweep_time : option Z; w_queue : queue; w_files : list file }.

Section worker.
Context `{Unicode} `{Digits} `{Iso}.

(** The processors by job type, and [str(err)]. *)
Variable process : str → job → result exn pyval.
Variable err_text : exn → str.

Definition worker_types : list str := lit <$> ["embed"; "extract"; "silent_witness"; "verify_tx"]%string.

(** [isinstance(err, ValueError)] *)
Definition is_value_error (e : exn) : bool := match e with ValueError _ | UnicodeError => true | _ => false end.

(** [_execute_job], finished at [now]. *)
Definition execute_job (now : Z) (j : job) (q : queue) : queue :=
  match (if bool_decide (jb_type j ∈ worker_types) then process (jb_type j) j
         else Err (ValueError "Unknown job type")) with
  | Ok res => complete_job (isoformat now) (jb_id j) res q
  | Err e => fail_job (isoformat now) (jb_id j) (err_text e) (is_value_error e) q
  end.

(** The end of the grace period: the job of a thread that still runs is put back. *)
Definition release_job (at_ : str) (id : Z) (q : queue) : queue :=
  fail_job at_ id (lit "Worker shutdown grace period exceeded") false q.

(** One pass of the loop that is not interrupted; [job_file_ttl] is the configured age
    of job files. *)
Definition worker_pass (wid : str) (now job_file_ttl : Z) (w : worker) : result exn worker :=
  match last_sweep_time w with
  | None => Err UnboundLocalError
  | Some last =>
      let w := if 300000000 <=? now - last then
          let '(files, q, _) := sweep_job_files now job_file_ttl (w_files w) (w_queue w) in
          Worker (Some now) q files
        else w in
      Ok match lease_job wid worker_types (w_queue w) with
      | (q, None) => Worker (last_sweep_time w) q (w_files w)
      | (q, Some j) => Worker (last_sweep_time w) (execute_job now j q) (w_files w)
      end
  end.

(** The loop at the given times: an exception is logged and the loop goes on. *)
Definition run_worker (wid : str) (job_file_ttl : Z) (times : list Z) (w : worker) : worker :=
  foldl (λ w now, from_ok w (worker_pass wid now job_file_ttl w)) w times.

Definition start_worker (q : queue) (files : list file) : worker := Worker None q files.
End worker.

(** * The life of a job *)

(** The queue, the job of every thread that executes one, and the jobs a worker has ever
    released (put back) while their thread went on. *)
Record world := World { w_q : queue; threads : list Z; released : list Z }.

(** What the request handlers, the workers and the sweep do, in any order; each function of
    [db.py] is one step.  A thread that executes a job completes or fails it whatever the job's
    status is by then, or ends without either; a worker that is shut down releases a job it
    waited for too long, and the thread goes on. *)
Inductive jstep `{Unicode} `{Digits} `{Iso} : world → world → Prop :=
  | StepEnqueue w created ty pl trace : jstep w (World (enqueue_job created ty pl trace (w_q w)).1 (threads w) (released w))
  | StepCancel w id : jstep w (World (cancel_job id (w_q w)).1 (threads w) (released w))
  | StepLease w wid types q j :
      lease_job wid types (w_q w) = (q, Some j) → jstep w (World q (jb_id j :: threads w) (released w))
  | StepHeartbeat w at_ id : jstep w (World (heartbeat_job at_ id (w_q w)) (threads w) (released w))
  | StepProgress w now id phase pct q b :
      report_job_progress now id phase pct (w_q w) = Ok (q, b) → jstep w (World q (threads w) (released w))
  | StepComplete w at_ id res l r :
      threads w = l ++ id :: r → jstep w (World (complete_job at_ id res (w_q w)) (l ++ r) (released w))
  | StepFail w at_ id err fatal l r :
      threads w = l ++ id :: r → jstep w (World (fail_job at_ id err fatal (w_q w)) (l ++ r) (released w))
  | StepVanish w id l r : threads w = l ++ id :: r → jstep w (World (w_q w) (l ++ r) (released w))
  | StepRelease w at_ id :
      id ∈ threads w → jstep w (World (release_job at_ id (w_q w)) (threads w) (id :: released w))
  | StepSweep w now ttl files kept q r :
      sweep_job_files now ttl files (w_q w) = (kept, q, r) → jstep w (World q (threads w) (released w)).

(** Identifiers grow with the position and are below the next one. *)
Definition ids_ok (q : queue) : Prop :=
  StronglySorted Z.lt (jb_id <$> jobs q) ∧ Forall (λ j, jb_id j < next_job_id q) (jobs q).

(** A job that was not released is executed by at most one thread, and is running then. *)
Definition threads_ok (q : queue) (th rel : list Z) : Prop :=
  NoDup (filter (λ id, id ∉ rel) th) ∧
  ∀ id, id ∈ th → id ∉ rel → ∃ j, get_job id q = Some j ∧ status j = running.

(** What stays of a job, and what is final. *)
Definition succeeds (j j' : job) : Prop :=
  jb_id j' = jb_id j ∧ jb_type j' = jb_type j ∧ payload j' = payload j ∧ trace_context j' = trace_context j ∧
  created_at j' = created_at j.
Definition final (j j' : job) : Prop :=
  is_terminal (status j) = true → status j' = status j ∧ job_result j' = job_result j.
Definition evolves (rel : list Z) (q q' : queue) : Prop :=
  ∀ id j, get_job id q = Some j → ∃ j', get_job id q' = Some j' ∧ succeeds j j' ∧ (id ∉ rel → final j j').

Lemma evolves_refl rel q : evolves rel q q.
Proof. intros id j Hj. exists j. by repeat split. Qed.

Lemma evolves_trans rel rel' a b c : rel ⊆ rel' → evolves rel a b → evolves rel' b c → evolves rel' a c.
Proof.
  intros Hsub Hab Hbc id j Hj. destruct (Hab id j Hj) as (j1 & H1 & (E1 & T1 & P1 & X1 & C1) & S1).
  destruct (Hbc id j1 H1) as (j2 & H2 & (E2 & T2 & P2 & X2 & C2) & S2). exists j2. split; [done|].
  split; [repeat split; congruence|]. intros Hid Ht. destruct (S1 ltac:(set_solver) Ht) as [Hs1 Hr1].
  destruct (S2 Hid) as [Hs2 Hr2]; [by rewrite Hs1|]. split; congruence.
Qed.

Lemma get_job_id id q j : get_job id q = Some j → jb_id j = id ∧ j ∈ jobs q.
Proof.
  unfold get_job. destruct (list_find _ _) as [[i x]|] eqn:Hf; [|done]. intros [= <-].
  apply list_find_Some in Hf as (Hl & Hx & _). split; [done|]. by eapply list_elem_of_lookup_2.
Qed.

Lemma get_job_elem q j : NoDup (jb_id <$> jobs q) → j ∈ jobs q → get_job (jb_id j) q = Some j.
Proof.
  destruct q as [l n]. unfold get_job. cbn. induction l as [|x l IH]; intros Hn Hj; [by apply elem_of_nil in Hj|].
  cbn in *. apply NoDup_cons in Hn as [Hx Hn]. apply elem_of_cons in Hj as [->|Hj].
  - by rewrite decide_True.
  - rewrite decide_False by (intros He; apply Hx; rewrite He; by apply list_elem_of_fmap_2).
    specialize (IH Hn Hj). by destruct (list_find _ l) as [[]|].
Qed.

Lemma get_job_update id id' f q : (∀ j, jb_id (f j) = jb_id j) →
  get_job id' (update_job id f q) = if bool_decide (id' = id) then f <$> get_job id' q else get_job id' q.
Proof.
  intros Hf. destruct q as [l n]. unfold get_job, update_job. cbn. induction l as [|x l IH]; [by case_bool_decide|].
  cbn. destruct (bool_decide_reflect (jb_id x = id)) as [Hx|Hx]; [rewrite Hf|]; destruct (decide (jb_id x = id')) as [He|He]; cbn.
  - by rewrite bool_decide_true by congruence.
  - destruct (list_find _ (map _ l)) as [[]|], (list_find _ l) as [[]|]; cbn in *; exact IH.
  - by rewrite bool_decide_false by congruence.
  - destruct (list_find _ (map _ l)) as [[]|], (list_find _ l) as [[]|]; cbn in *; exact IH.
Qed.

Lemma ids_ok_nodup q : ids_ok q → NoDup (jb_id <$> jobs q).
Proof.
  intros [Hs _]. induction Hs as [|x l Hs IH Hx]; constructor; [|done].
  intros Hin. rewrite Forall_forall in Hx. specialize (Hx x Hin). lia.
Qed.

Lemma ids_ok_update id f q : (∀ j, jb_id (f j) = jb_id j) → ids_ok q → ids_ok (update_job id f q).
Proof.
  intros Hf [Hn Hl]. unfold ids_ok, update_job. cbn. split.
  - replace (jb_id <$> map _ (jobs q)) with (jb_id <$> jobs q); [done|].
    clear Hn Hl. induction (jobs q) as [|j l IH]; cbn; [done|]. rewrite <- IH. by case_bool_decide; [rewrite Hf|].
  - clear Hn. induction Hl as [|j l Hj Hl IH]; cbn; constructor; [by case_bool_decide; [rewrite Hf|]|done].
Qed.

(** A change of one job that keeps what [succeeds] wants. *)
Lemma evolves_update rel id f q : (∀ j, succeeds j (f j)) → (∀ j, get_job id q = Some j → id ∉ rel → final j (f j)) →
  evolves rel q (update_job id f q).
Proof.
  intros Hs Hf id' j Hj. rewrite get_job_update, Hj by (intros x; apply (Hs x)). case_bool_decide as He; cbn.
  - subst id'. exists (f j). auto.
  - exists j. by repeat split.
Qed.

Lemma threads_ok_update id f q th th' rel rel' : (∀ j, jb_id (f j) = jb_id j) → threads_ok q th rel →
  NoDup (filter (λ id, id ∉ rel') th') → (∀ id', id' ≠ id → id' ∈ th' → id' ∉ rel' → id' ∈ th ∧ id' ∉ rel) →
  (id ∈ th' → id ∉ rel' → ∃ j, get_job id q = Some j ∧ status (f j) = running) → threads_ok (update_job id f q) th' rel'.
Proof.
  intros Hf [_ Hh] Hn Ho Hid. split; [done|]. intros id' Hth Hrel. rewrite get_job_update by done.
  case_bool_decide as He; [subst id'|by apply Hh; apply Ho]. destruct (Hid Hth Hrel) as (j & -> & Hj). cbn. eauto.
Qed.

Definition good (q : queue) (th rel : list Z) : Prop := ids_ok q ∧ threads_ok q th rel.

(** A change that touches neither the status nor what is final. *)
Lemma update_quiet id f q th rel : (∀ j, succeeds j (f j) ∧ job_result (f j) = job_result j ∧ status (f j) = status j) →
  good q th rel → good (update_job id f q) th rel ∧ evolves rel q (update_job id f q).
Proof.
  intros Hf [Hi Hh]. assert (∀ j, jb_id (f j) = jb_id j) as Hid by (intros j; apply (Hf j)).
  split; [split|].
  - by apply ids_ok_update.
  - apply (threads_ok_update id f q th th rel rel); [done|done|apply Hh|done|].
    destruct Hh as [_ Hh]. intros Ht Hr. destruct (Hh id Ht Hr) as (j & Hj & Hs). exists j. split; [done|].
    by rewrite (proj2 (proj2 (Hf j))).
  - apply evolves_update; [intros j; apply (Hf j)|]. intros j _ _ _. destruct (Hf j) as (_ & ? & ?). done.
Qed.

Lemma NoDup_filter_middle (P : Z → Prop) `{!∀ x, Decision (P x)} l id r :
  NoDup (filter P (l ++ id :: r)) → NoDup (filter P (l ++ r)) ∧ (P id → id ∉ l ++ r).
Proof.
  rewrite <- Permutation_middle, filter_cons. case_decide as Hp; [|done]. rewrite NoDup_cons. intros [Hn Hd].
  split; [done|]. intros _ Hin. apply Hn. by apply list_elem_of_filter.
Qed.

Section life.
Context `{Unicode} `{Digits} `{Iso}.

Lemma good_enqueue created ty pl trace q th rel : good q th rel →
  good (enqueue_job created ty pl trace q).1 th rel ∧ evolves rel q (enqueue_job created ty pl trace q).1.
Proof.
  intros [[Hn Hl] [Hh Hr]]. cbn. set (new := Job _ _ _ _ _ _ _ _ _ _ _ _ _ _ _).
  assert (∀ id, get_job id (Queue (jobs q ++ [new]) (next_job_id q + 1)) =
    match get_job id q with Some j => Some j | None => if bool_decide (next_job_id q = id) then Some new else None end) as Hg.
  { intros id. unfold get_job. cbn [jobs]. destruct (list_find _ (jobs q)) as [[i e]|] eqn:Hf.
    - by rewrite (list_find_app_l _ _ _ _ _ Hf).
    - rewrite list_find_app_r by done. cbn. by case_decide; case_bool_decide. }
  split; [split; [split|split; [done|]]|].
  - cbn. rewrite fmap_app. apply StronglySorted_app_2; [|done|repeat constructor].
    intros x y Hx%list_elem_of_fmap Hy%elem_of_cons. destruct Hx as (j & -> & Hj). rewrite Forall_forall in Hl.
    specialize (Hl j Hj). destruct Hy as [->|Hy%elem_of_nil]; [done|done].
  - cbn. apply Forall_app. split; [|repeat constructor; cbn; lia].
    eapply Forall_impl; [exact Hl|]. cbn. lia.
  - intros id Ht Hrel. destruct (Hr id Ht Hrel) as (j & Hj & Hs). exists j. by rewrite Hg, Hj.
  - intros id j Hj. exists j. rewrite Hg, Hj. by repeat split.
Qed.

Lemma good_cancel id q th rel : good q th rel → good (cancel_job id q).1 th rel ∧ evolves rel q (cancel_job id q).1.
Proof.
  intros Hg. unfold cancel_job. destruct (get_job id q) as [j|] eqn:Hj; [|by split; [|apply evolves_refl]].
  case_bool_decide as Hs; [|by split; [|apply evolves_refl]]. cbn. destruct Hg as [Hi [Hn Hh]]. split; [split|].
  - by apply ids_ok_update.
  - apply (threads_ok_update id _ q th th rel rel); try done. intros Ht Hr. destruct (Hh id Ht Hr) as (j' & Hj' & Hs').
    rewrite Hj in Hj'. injection Hj' as <-. congruence.
  - apply evolves_update; [done|]. rewrite Hj. intros ? [= <-] _ Ht. by rewrite Hs in Ht.
Qed.

Lemma sorted_lookup_le (l : list Z) i k x y :
  StronglySorted Z.lt l → l !! i = Some x → l !! k = Some y → (i ≤ k)%nat → x ≤ y.
Proof.
  intros Hs. revert i k. induction Hs as [|z l Hs IH Hz]; intros [|i] [|k] Hi Hk Hle; simplify_eq/=; try lia.
  - rewrite Forall_forall in Hz. apply list_elem_of_lookup_2, Hz in Hk. lia.
  - apply (IH i k); (done || lia).
Qed.

(** The oldest pending job of the types asked for is leased. *)
Lemma lease_job_oldest wid types q q' j : ids_ok q → lease_job wid types q = (q', Some j) →
  ∃ j0, get_job (jb_id j0) q = Some j0 ∧ status j0 = pending ∧
    j = set_status running (Some wid) j0 ∧ q' = update_job (jb_id j0) (set_status running (Some wid)) q ∧
    ∀ id x, get_job id q = Some x → status x = pending → jb_type x ∈ types → jb_id j ≤ id.
Proof.
  intros Hi. unfold lease_job. destruct (list_find _ _) as [[i x]|] eqn:Hf; [|done]. intros [= <- <-].
  apply list_find_Some in Hf as (Hl & [Hs Ht] & Hfirst). exists x. split_and!; try done.
  { apply get_job_elem; [by apply ids_ok_nodup|]. by eapply list_elem_of_lookup_2. }
  intros id y [<- Hy]%get_job_id Hys Hyt. apply list_elem_of_lookup in Hy as [k Hk].
  apply (sorted_lookup_le (jb_id <$> jobs q) i k); [apply Hi|by rewrite list_lookup_fmap, Hl|by rewrite list_lookup_fmap, Hk|].
  destruct (decide (k < i)%nat) as [Hlt|]; [|lia]. by destruct (Hfirst k y Hk Hlt).
Qed.

Lemma lease_job_none wid types q q' : lease_job wid types q = (q', None) →
  ∀ id x, get_job id q = Some x → status x = pending → jb_type x ∉ types.
Proof.
  unfold lease_job. destruct (list_find _ _) as [[i y]|] eqn:Hf; [done|]. intros _ id x [_ Hx]%get_job_id Hs Ht.
  apply list_find_None in Hf. rewrite Forall_forall in Hf. by apply (Hf x Hx).
Qed.

Lemma good_lease wid types q q' j th rel : good q th rel → lease_job wid types q = (q', Some j) →
  good q' (jb_id j :: th) rel ∧ evolves rel q q'.
Proof.
  intros [Hi [Hn Hh]] Hl. apply lease_job_oldest in Hl as (j0 & Hj & Hs & -> & -> & _); [|done].
  change (jb_id (set_status _ _ j0)) with (jb_id j0). split; [split|].
  - by apply ids_ok_update.
  - apply (threads_ok_update _ _ q th _ rel); try done.
    + rewrite filter_cons. case_decide as Hrel; [|done]. constructor; [|done]. intros [_ Hin]%list_elem_of_filter.
      destruct (Hh _ Hin Hrel) as (j' & Hj' & Hs'). rewrite Hj in Hj'. injection Hj' as <-. congruence.
    + intros id' Hne. rewrite elem_of_cons. naive_solver.
    + intros _ _. exists j0. done.
  - apply evolves_update; [done|]. rewrite Hj. intros ? [= <-] _ Ht. by rewrite Hs in Ht.
Qed.

(** A change that keeps what [succeeds] wants, made by a thread that executes the job. *)
Definition ends (f : job → job) : Prop := ∀ j, succeeds j (f j).

(** A thread ends its job. *)
Lemma good_finish id f q l r rel : good q (l ++ id :: r) rel → ends f →
  good (update_job id f q) (l ++ r) rel ∧ evolves rel q (update_job id f q).
Proof.
  intros [Hi Hh] Hf. assert (∀ j, jb_id (f j) = jb_id j) as Hid by (intros j; apply Hf).
  pose proof Hh as [Hn Hr]. apply NoDup_filter_middle in Hn as [Hn' Hout].
  assert (id ∈ l ++ id :: r) as Hin by set_solver. split; [split|].
  - by apply ids_ok_update.
  - apply (threads_ok_update id f q (l ++ id :: r) _ rel); try done.
    + intros id' Hne. rewrite !elem_of_app, elem_of_cons. naive_solver.
    + intros Hth Hrel. by destruct (Hout Hrel).
  - apply evolves_update; [done|]. intros j Hj Hrel Ht. destruct (Hr id Hin Hrel) as (j' & Hj' & Hs).
    rewrite Hj in Hj'. injection Hj' as <-. by rewrite Hs in Ht.
Qed.

Lemma good_vanish q id l r rel : good q (l ++ id :: r) rel → good q (l ++ r) rel.
Proof.
  intros [Hi [Hn Hr]]. split; [done|]. apply NoDup_filter_middle in Hn as [Hn' _]. split; [done|].
  intros id' Hin Hrel. apply Hr; [|done]. rewrite elem_of_app in *. rewrite elem_of_cons. naive_solver.
Qed.

Lemma good_release id f q th rel : good q th rel → ends f →
  good (update_job id f q) th (id :: rel) ∧ evolves (id :: rel) q (update_job id f q).
Proof.
  intros [Hi Hh] Hf. assert (∀ j, jb_id (f j) = jb_id j) as Hid by (intros j; apply Hf). split; [split|].
  - by apply ids_ok_update.
  - apply (threads_ok_update id f q th th rel); [done|done| |set_solver|set_solver].
    destruct Hh as [Hn _]. clear -Hn. induction th as [|x th IH]; [done|]. rewrite filter_cons in Hn |- *. destruct (decide (x ∉ id :: rel)) as [Hx|Hx].
    + rewrite decide_True in Hn by set_solver. apply NoDup_cons in Hn as [Hout Hn]. constructor; [|auto].
      intros [_ Hin]%list_elem_of_filter. apply Hout, list_elem_of_filter. set_solver.
    + apply IH. case_decide; [by apply NoDup_cons in Hn as [_ Hn]|done].
  - apply evolves_update; [done|]. intros j _ Hrel. set_solver.
Qed.

Lemma good_sweep now ttl files q th rel kept q' r : good q th rel → sweep_job_files now ttl files q = (kept, q', r) →
  good q' th rel ∧ evolves rel q q'.
Proof.
  revert q kept q' r. induction files as [|f files IH]; intros q kept q' r Hg; cbn.
  { intros [= <- <- <-]. split; [done|apply evolves_refl]. }
  destruct (sweep_entry now ttl q f) as [[q1 gone]|e] eqn:He; [|intros [= <- <- <-]; split; [done|apply evolves_refl]].
  assert (good q1 th rel ∧ evolves rel q q1) as [Hg1 He1].
  { unfold sweep_entry in He. destruct (is_file f); cbn in He; [|injection He as <- <-; split; [done|apply evolves_refl]].
    destruct (job_of_file _ _) as [[j|]|]; cbn in He; [|injection He as <- <-; split; [done|apply evolves_refl]|done].
    case_match; injection He as <- <-; [|split; [done|apply evolves_refl]]. by apply update_quiet; [intros j'; repeat split|]. }
  destruct (sweep_job_files now ttl files q1) as [[k q2] r2] eqn:Hs. intros [= _ <- _].
  destruct (IH _ _ _ _ Hg1 Hs) as [Hg2 He2]. split; [done|]. by eapply evolves_trans.
Qed.

Definition percent_of (percent : option number) : result exn (option Z) :=
  match percent with None => Ok None | Some x => t ← percent_tenths x; Ok (Some t) end.

Lemma report_progress_ok now id phase percent q q' b :
  report_job_progress now id phase percent q = Ok (q', b) →
  (b = false ∧ q' = q) ∨
  (b = true ∧ ∃ j p pct, get_job id q = Some j ∧ status j = running ∧ phase = PStr p ∧ py_strip p ≠ [] ∧
     percent_of percent = Ok pct ∧ (∀ last, progress_at j = Some last → JOB_PROGRESS_MIN_INTERVAL ≤ now - last) ∧
     q' = update_job id (set_progress now (take JOB_PROGRESS_PHASE_MAX_LENGTH (py_strip p)) pct) q).
Proof.
  unfold report_job_progress. destruct (get_job id q) as [j|] eqn:Hj; [|intros [= <- <-]; by left].
  case_bool_decide as Hs; cbn; [|intros [= <- <-]; by left]. destruct phase as [| | | |p| |]; try done.
  case_bool_decide as Hp; [done|]. intros (pct & Hpct & Ht)%bind_ok.
  destruct (match progress_at j with Some last => _ | None => _ end) eqn:Hl; injection Ht as <- <-; [by left|right].
  split; [done|]. exists j, p, pct. repeat split; try done. intros last Hlast. rewrite Hlast in Hl. lia.
Qed.

Lemma good_step w w' : good (w_q w) (threads w) (released w) → jstep w w' →
  good (w_q w') (threads w') (released w') ∧ evolves (released w') (w_q w) (w_q w') ∧ released w ⊆ released w'.
Proof.
  intros Hg Hs. rewrite (assoc (∧)).
  destruct Hs as [w|w|w ? ? q j Hl|w at_ id|w now id phase pct q b Hp|w at_ id res l r Hh
    |w at_ id err fatal l r Hh|w id l r Hh|w at_ id Hin|w now ttl files kept q r Hs]; cbn; (split; [|set_solver]).
  - by apply good_enqueue.
  - by apply good_cancel.
  - by eapply good_lease.
  - apply update_quiet; [|done]. intros j. by case_bool_decide; repeat split.
  - destruct (report_progress_ok _ _ _ _ _ _ _ Hp) as [[_ ->]|(_ & j & p & t & _ & _ & _ & _ & _ & _ & ->)];
      [split; [done|apply evolves_refl]|]. apply update_quiet; [|done]. intros x. by repeat split.
  - rewrite Hh in Hg. by apply good_finish.
  - rewrite Hh in Hg. by apply good_finish.
  - rewrite Hh in Hg. split; [by eapply good_vanish|apply evolves_refl].
  - by apply good_release.
  - by eapply good_sweep.
Qed.

Lemma good_steps w w' : good (w_q w) (threads w) (released w) → rtc jstep w w' →
  good (w_q w') (threads w') (released w') ∧ evolves (released w') (w_q w) (w_q w') ∧ released w ⊆ released w'.
Proof.
  intros Hg Hs. induction Hs as [w|w w1 w' Hs _ IH]; [by split_and!; [|apply evolves_refl|]|].
  destruct (good_step w w1 Hg Hs) as (Hg1 & He1 & Hr1). destruct (IH Hg1) as (Hg' & He' & Hr').
  split_and!; [done|by eapply evolves_trans|by etrans].
Qed.

Lemma good_start : good empty_queue [] [].
Proof. split; [split; constructor|split; [constructor|]]. by intros id Hid%elem_of_nil. Qed.

(** C10. Whatever requests, workers and sweeps do to the queue, in any order, with threads that
    complete or fail their job whatever its status is by then, or end silently, and workers that
    release a job at shutdown while its thread goes on: no two threads execute the same job unless
    a worker released it, and a job that a thread executes is running unless it was released; what
    is leased is the oldest pending job of the types asked for, and nothing only when there is
    none; a job is never lost and keeps its type, payload, trace and creation time; and a
    completed, failed or cancelled job that is not released keeps its status and result. *)
Theorem job_lifecycle w :
  rtc jstep (World empty_queue [] []) w →
  NoDup (filter (λ id, id ∉ released w) (threads w)) ∧
  (∀ id, id ∈ threads w → id ∉ released w → ∃ j, get_job id (w_q w) = Some j ∧ status j = running) ∧
  (∀ w' id j, rtc jstep w w' → get_job id (w_q w) = Some j →
     ∃ j', get_job id (w_q w') = Some j' ∧ succeeds j j' ∧ (id ∉ released w' → final j j')) ∧
  (∀ wid types, match (lease_job wid types (w_q w)).2 with
     | Some j => ∃ j0, get_job (jb_id j) (w_q w) = Some j0 ∧ status j0 = pending ∧ j = set_status running (Some wid) j0 ∧
         ∀ id x, get_job id (w_q w) = Some x → status x = pending → jb_type x ∈ types → jb_id j ≤ id
     | None => ∀ id x, get_job id (w_q w) = Some x → status x = pending → jb_type x ∉ types
     end).
Proof.
  intros Hs. destruct (good_steps (World empty_queue [] []) w good_start Hs) as (Hg & _ & _). pose proof Hg as [Hi [Hn Hh]].
  split_and!; [done|done| |].
  { intros w' id j Hw' Hj. destruct (good_steps w w' Hg Hw') as (_ & He & _). by apply He. }
  intros wid types. destruct (lease_job wid types (w_q w)) as [q' [j|]] eqn:Hl; cbn; [|by eapply lease_job_none].
  destruct (lease_job_oldest wid types (w_q w) q' j Hi Hl) as (j0 & Hj & Hp & He & _ & Ho).
  exists j0. subst j. by repeat split.
Qed.

(** * The sweep, as a filter of the directory *)

(** A file the sweep removes. *)
Definition stale (now ttl : Z) (q : queue) (f : file) : bool :=
  is_file f && removable f &&
  match job_of_file (f_name f) q with
  | Ok (Some j) => is_terminal (status j) && (ttl <=? now - job_time now j)
  | Ok None => ttl <=? now - f_mtime f
  | Err _ => false
  end.

(** Equal but for the [purged] marks, which only come. *)
Definition marks (q q' : queue) : Prop :=
  ∀ id, match get_job id q with
        | Some j => get_job id q' = Some j ∨ get_job id q' = Some (mark_purged j)
        | None => get_job id q' = None
        end.

#[local] Instance marks_preorder : PreOrder marks.
Proof.
  split.
  - intros q id. destruct (get_job id q); auto.
  - intros a b c Hab Hbc id. specialize (Hab id). specialize (Hbc id). destruct (get_job id a) as [j|].
    + destruct Hab as [Hb|Hb]; rewrite Hb in Hbc; [done|]. destruct Hbc as [Hc|Hc]; by right.
    + by rewrite Hab in Hbc.
Qed.

Lemma marks_update id q : marks q (update_job id mark_purged q).
Proof.
  intros id'. rewrite get_job_update by done. case_bool_decide; destruct (get_job id' q); cbn; auto.
Qed.

(** The marks do not matter to the sweep. *)
Lemma job_of_file_marks q q' name : marks q q' →
  match job_of_file name q with
  | Ok (Some j) => job_of_file name q' = Ok (Some j) ∨ job_of_file name q' = Ok (Some (mark_purged j))
  | r => job_of_file name q' = r
  end.
Proof.
  intros Hm. unfold job_of_file. destruct (raw_job_id name) as [raw|]; [|done]. destruct (isdigit raw); [|done].
  destruct (py_int 10 raw) as [id|]; [|done]. specialize (Hm id).
  destruct (get_job id q); [destruct Hm as [-> | ->]; auto|by rewrite Hm].
Qed.

Lemma stale_marks now ttl q q' f : marks q q' → stale now ttl q' f = stale now ttl q f.
Proof.
  intros Hm. unfold stale. pose proof (job_of_file_marks q q' (f_name f) Hm) as Hj.
  destruct (job_of_file (f_name f) q) as [[j|]|]; [destruct Hj as [-> | ->]|rewrite Hj..]; done.
Qed.

(** The job a number in a file name stands for. *)
Lemma job_of_file_get name q j : job_of_file name q = Ok (Some j) → get_job (jb_id j) q = Some j.
Proof.
  unfold job_of_file. repeat (case_match; try done). intros [= Hj]. by destruct (get_job_id _ _ _ Hj) as [-> _].
Qed.

(** Files that can be read: not those with digits [int] refuses. *)
Definition named_ok (q : queue) (f : file) : bool := negb (is_file f) || is_ok (job_of_file (f_name f) q).

Lemma sweep_entry_spec now ttl q f : named_ok q f = true →
  ∃ q', sweep_entry now ttl q f = Ok (q', stale now ttl q f) ∧ marks q q' ∧
    (stale now ttl q f = true → ∀ j, job_of_file (f_name f) q = Ok (Some j) →
       get_job (jb_id j) q' = Some (mark_purged j)).
Proof.
  unfold named_ok, sweep_entry, stale. destruct (is_file f); cbn; [|by exists q].
  destruct (job_of_file (f_name f) q) as [[j|]|] eqn:Hj; cbn; [| |done].
  - intros _. destruct (is_terminal (status j)), (ttl <=? now - job_time now j), (removable f); cbn; try by exists q.
    eexists. split; [done|]. split; [apply marks_update|]. intros _ ? [= <-].
    apply job_of_file_get in Hj. by rewrite get_job_update, bool_decide_true, Hj.
  - exists q. by rewrite andb_comm.
Qed.

Lemma named_ok_marks q q' f : marks q q' → named_ok q' f = named_ok q f.
Proof.
  intros Hm. unfold named_ok. pose proof (job_of_file_marks q q' (f_name f) Hm) as Hj.
  destruct (job_of_file (f_name f) q) as [[j|]|]; [destruct Hj as [-> | ->]|rewrite Hj..]; done.
Qed.

(** A mark stays. *)
Lemma marks_marked q q' id j : marks q q' → get_job id q = Some (mark_purged j) → get_job id q' = Some (mark_purged j).
Proof. intros Hm Hj. specialize (Hm id). rewrite Hj in Hm. by destruct Hm. Qed.

Lemma sweep_spec now ttl files q : forallb (named_ok q) files = true →
  ∃ q', sweep_job_files now ttl files q =
      (filter (λ f, stale now ttl q f = false) files, q', Ok (zlen (filter (λ f, stale now ttl q f = true) files))) ∧
    marks q q' ∧
    ∀ f j, f ∈ files → stale now ttl q f = true → job_of_file (f_name f) q = Ok (Some j) →
      get_job (jb_id j) q' = Some (mark_purged j).
Proof.
  revert q. induction files as [|f files IH]; intros q Hok.
  { exists q. repeat split; [done|]. by intros ? ? ?%elem_of_nil. }
  cbn in Hok. apply andb_true_iff in Hok as [Hf Hfs]. destruct (sweep_entry_spec now ttl q f Hf) as (q1 & He & Hm1 & Hp1).
  destruct (IH q1) as (q' & Hs & Hm' & Hp').
  { rewrite <- Hfs. clear -Hm1. induction files as [|x l IH]; cbn; [done|]. by rewrite IH, (named_ok_marks q). }
  exists q'. cbn [sweep_job_files]. rewrite He, Hs. split_and!.
  - assert (∀ b (l : list file), filter (λ f, stale now ttl q1 f = b) l = filter (λ f, stale now ttl q f = b) l) as Hst
      by (intros b l; apply list_filter_iff; intros x; by rewrite (stale_marks now ttl q q1)).
    rewrite !filter_cons, !Hst. destruct (stale now ttl q f); repeat case_decide; try done. do 2 f_equal. unfold zlen. cbn [length]. lia.
  - by transitivity q1.
  - intros g j [->|Hg]%elem_of_cons Hst Hj; [by eapply marks_marked, Hp1|].
    pose proof (job_of_file_marks q q1 (f_name g) Hm1) as Hj1. rewrite Hj in Hj1.
    rewrite <- (stale_marks now ttl q q1) in Hst by done.
    destruct Hj1 as [Hj1|Hj1]; [by apply (Hp' g j)|]. apply (Hp' g (mark_purged j)); done.
Qed.

Lemma span_word_app w r : Forall (λ c, c ≠ 95) w → span_word (w ++ 95 :: r) = (w, 95 :: r).
Proof.
  induction 1 as [|c w Hc Hw IH]; [done|]. cbn. rewrite (proj2 (Z.eqb_neq c 95)) by done. by rewrite IH.
Qed.

(** The sweep finds the job of the files it wrote. *)
Lemma job_of_own_file id q : bigint id →
  job_of_file (get_job_input_path id) q = Ok (get_job id q) ∧ job_of_file (get_job_output_path id) q = Ok (get_job id q).
Proof.
  intros Hid. pose proof (dec_str_digits id ltac:(destruct Hid; lia)) as Hd.
  assert (dec_str id ≠ []) as Hne.
  { destruct Hid. rewrite dec_str_nonneg by lia. pose proof (digits_nonempty 10 id). by destruct (digits 10 id). }
  assert (isdigit (dec_str id) = true) as Hdig.
  { unfold isdigit. rewrite bool_decide_false by done. cbn. apply forallb_Forall, (Forall_impl _ _ _ Hd).
    intros c Hc. cbn in Hc. rewrite (proj2 (Z.ltb_lt c 128)) by lia. lia. }
  assert (∀ w, raw_job_id (lit "job_" ++ dec_str id ++ w) = Some (dec_str id) →
    job_of_file (lit "job_" ++ dec_str id ++ w) q = Ok (get_job id q)) as Hj.
  { intros w Hw. unfold job_of_file. by rewrite Hw, Hdig, py_int_dec. }
  assert (∀ w, span_word (dec_str id ++ 95 :: w) = (dec_str id, 95 :: w)) as Hsp.
  { intros w. apply span_word_app, (Forall_impl _ _ _ Hd). intros c Hc. cbn in Hc. lia. }
  split; apply Hj; unfold raw_job_id.
  - change (drop 4 (lit "job_" ++ dec_str id ++ lit "_input")) with (dec_str id ++ 95 :: lit "input").
    by rewrite Hsp, bool_decide_false.
  - change (drop 4 (lit "job_" ++ dec_str id ++ lit "_output")) with (dec_str id ++ 95 :: lit "output").
    by rewrite Hsp, bool_decide_false.
Qed.

(** A sweep of a directory whose names it can read removes exactly the stale files
    and returns their number; the queue changes by [purged] marks only, and every job
    that lost a file has one.  The files of a pending or running job stay, whatever
    their age; those of a completed job go exactly when it ended at least [ttl] ago. *)
Theorem sweep_removes_stale `{!IsoLaws} now ttl files q :
  forallb (named_ok q) files = true →
  ∃ kept q', sweep_job_files now ttl files q = (kept, q', Ok (zlen files - zlen kept)) ∧
    kept = filter (λ f, stale now ttl q f = false) files ∧
    marks q q' ∧
    (∀ f j, f ∈ files → stale now ttl q f = true → job_of_file (f_name f) q = Ok (Some j) →
       get_job (jb_id j) q' = Some (mark_purged j)) ∧
    (∀ f id j, f ∈ files → bigint id → f_name f = get_job_input_path id ∨ f_name f = get_job_output_path id →
       get_job id q = Some j →
       (is_terminal (status j) = false → f ∈ kept) ∧
       (∀ t, status j = completed → completed_at j = Some (isoformat t) → is_file f = true → removable f = true →
          f ∈ kept ↔ now - t < ttl)).
Proof.
  intros Hok. destruct (sweep_spec now ttl files q Hok) as (q' & Hs & Hm & Hp).
  exists (filter (λ f, stale now ttl q f = false) files), q'. split_and!; [|done..|].
  { rewrite Hs. do 2 f_equal. unfold zlen. clear. induction files as [|f l IH]; [done|].
    rewrite !filter_cons. destruct (stale now ttl q f); repeat case_decide; cbn [length]; (done || lia). }
  intros f id j Hf Hid Hn Hj.
  assert (job_of_file (f_name f) q = Ok (Some j)) as Hjf.
  { rewrite <- Hj. destruct (job_of_own_file id q Hid). by destruct Hn as [-> | ->]. }
  split.
  - intros Hl. apply list_elem_of_filter. unfold stale. by rewrite Hjf, Hl, andb_false_r.
  - intros t Hst Hc Hfi Hrm. rewrite list_elem_of_filter. unfold stale. rewrite Hjf, Hfi, Hrm. unfold job_time. rewrite Hst, Hc. cbn.
    pose proof (isoformat_nonempty t). destruct (isoformat t) as [|c s] eqn:Hi; [done|].
    rewrite <- Hi, parse_isoformat. cbn. rewrite Z.leb_gt. naive_solver.
Qed.

Lemma dict_get_filter {A} (p : str → bool) k (d : list (str * A)) :
  dict_get k (filter (λ e, p e.1 = true) d) = if p k then dict_get k d else None.
Proof.
  induction d as [|[k' v] d IH]; [by destruct (p k)|]. rewrite filter_cons. cbn [fst dict_get].
  case_decide as Hp; cbn [dict_get]; rewrite IH; case_decide as He; try done; subst k'.
  - by rewrite Hp.
  - by destruct (p k).
Qed.

(** The view of a job that the API returns has the entries of the job other than
    its payload and the internal ones, unchanged, and [progress], which is null or a
    phase with a percentage. *)
Theorem public_view_hides_payload j k :
  dict_get k (public_job_view (job_items j)) =
    if public_key k then dict_get k (job_items j) else None.
Proof.
  unfold public_job_view. rewrite dict_get_set, dict_get_filter. case_decide as Hk; [|done]. subst k.
  change (public_key (lit "progress")) with true. cbn [get_or_none].
  assert (dict_get (lit "progress") (job_items j) =
    Some match progress j with Some p => progress_value p | None => PNone end) as Hp by done.
  unfold get_or_none at 1. rewrite Hp. cbn [default]. by destruct (progress j) as [[p o]|].
Qed.

(** * Progress *)

Lemma round_half_even_nearest n d : 0 < d → Z.abs (2 * (n - round_half_even n d * d)) ≤ d.
Proof.
  intros Hd. unfold round_half_even. pose proof (Z.mod_pos_bound n d Hd).
  assert (n = n / d * d + n mod d) as Hn by (rewrite (Z.div_mod n d) at 1; lia).
  set (q := n / d) in *. set (r := n mod d) in *. repeat case_match; bool_inv; nia.
Qed.

Lemma percent_tenths_bounds x t : percent_tenths x = Ok t →
  0 ≤ t ≤ 1000 ∧
  ∀ m k, x = Finite m (- k) → 0 < k → 0 ≤ m ≤ 100 * 2 ^ k → Z.abs (2 * (10 * m - t * 2 ^ k)) ≤ 2 ^ k.
Proof.
  destruct x as [m e| | | |]; cbn; try done.
  - set (n := if 0 <=? e then m * 2 ^ e else m). set (d := if 0 <=? e then 1 else 2 ^ (- e)). intros [= <-].
    assert (0 < d) as Hd by (unfold d; case_match; bool_inv; lia).
    pose proof (round_half_even_nearest (10 * n) d Hd) as Hr. split; [repeat case_match; bool_inv; nia|].
    intros m' k [= <- ->] Hk Hm. subst n d. rewrite Z.opp_involutive in *.
    destruct (0 <=? - k) eqn:He; [lia|]. repeat case_match; bool_inv; try lia.
  - intros [= <-]. split; [lia|done].
  - intros [= <-]. split; [lia|done].
Qed.

(** A progress report that is stored belongs to a running job and comes at least one
    second after the one stored before; the phase shown has 1 to 64 characters and a
    given percentage is shown as the nearest tenth, between 0 and 100. *)
Theorem progress_within_bounds now id phase percent q q' :
  report_job_progress now id phase percent q = Ok (q', true) →
  ∃ j p pct, get_job id q = Some j ∧ status j = running ∧
    (∀ last, progress_at j = Some last → 1000000 ≤ now - last) ∧
    get_job id q' = Some (set_progress now p pct j) ∧ (1 ≤ length p ≤ 64)%nat ∧
    match percent with
    | None => pct = None
    | Some x => ∃ t, pct = Some t ∧ 0 ≤ t ≤ 1000 ∧
        ∀ m k, x = Finite m (- k) → 0 < k → 0 ≤ m ≤ 100 * 2 ^ k → Z.abs (2 * (10 * m - t * 2 ^ k)) ≤ 2 ^ k
    end.
Proof.
  intros Hr. destruct (report_progress_ok _ _ _ _ _ _ _ Hr) as [[? _]|(_ & j & p & pct & Hj & Hs & _ & Hp & Hpct & Hl & ->)];
    [done|].
  exists j, (take JOB_PROGRESS_PHASE_MAX_LENGTH (py_strip p)), pct. split_and!; try done.
  - by rewrite get_job_update, bool_decide_true, Hj.
  - rewrite length_take. destruct (py_strip p); [done|]. unfold JOB_PROGRESS_PHASE_MAX_LENGTH. cbn [length]. lia.
  - rewrite length_take. unfold JOB_PROGRESS_PHASE_MAX_LENGTH. lia.
  - unfold percent_of in Hpct. destruct percent as [x|]; [|by injection Hpct].
    apply bind_ok in Hpct as (t & Ht & [= <-]). exists t. split; [done|]. by apply percent_tenths_bounds.
Qed.
End life.

(** [last_sweep_time] is read before anything is assigned to it, so every pass of
    the loop raises [UnboundLocalError], which is caught: however long the worker runs
    and whatever its processors do, no job is leased and no file is swept. *)
Theorem worker_never_leases `{Unicode} `{Digits} `{Iso} process err_text wid job_file_ttl times q files :
  run_worker process err_text wid job_file_ttl times (start_worker q files) = start_worker q files.
Proof. unfold run_worker. induction times as [|now times IH]; [done|]. cbn. exact IH. Qed.

(** * Concrete runs *)

Definition no_digits : Digits := λ _, false.
Definition point_iso : Iso := {| isoformat := λ t, [t]; parse_iso := head |}.
Definition point_iso_laws : @IsoLaws point_iso.
Proof. split; done. Defined.

(** Two jobs are queued, the first is leased and reports half a percent. *)
Definition sample_queue : queue :=
  (enqueue_job [7] (lit "embed") PNone PNone (enqueue_job [5] (lit "embed") PNone PNone empty_queue).1).1.
Definition sample_leased : queue := (lease_job (lit "w") worker_types sample_queue).1.

Lemma sample_run : rtc (@jstep plain_unicode no_digits point_iso) (World empty_queue [] []) (World sample_leased [1] []).
Proof.
  eapply rtc_l; [apply (StepEnqueue (World empty_queue [] []) [5] (lit "embed") PNone PNone)|].
  eapply rtc_l; [apply (StepEnqueue (World _ [] []) [7] (lit "embed") PNone PNone)|].
  eapply rtc_l; [|apply rtc_refl].
  apply (StepLease (World sample_queue [] []) (lit "w") worker_types sample_leased
    (Job 1 (lit "embed") PNone PNone running PNone None [5] (Some (lit "w")) None None None None None false)).
  vm_compute. reflexivity.
Qed.

Lemma job_lifecycle_witness :
  NoDup [1] ∧ ∃ j, get_job 1 sample_leased = Some j ∧ status j = running.
Proof.
  destruct (@job_lifecycle plain_unicode no_digits point_iso (World sample_leased [1] []) sample_run) as (Hn & Hr & _).
  split; [exact Hn|]. apply (Hr 1); [left|apply not_elem_of_nil].
Defined.

(** The first job is released at shutdown and leased again, so that two threads execute it; one
    completes it, the other then fails it for a retry: the completed job is pending again. *)
Definition released_queue : queue := release_job [8] 1 sample_leased.
Definition twice_leased : queue := (lease_job (lit "v") worker_types released_queue).1.
Definition completed_once : queue := complete_job [9] 1 (PInt 1) twice_leased.
Definition pending_again : queue := fail_job [10] 1 (lit "late") false completed_once.

Theorem released_job_runs_twice :
  rtc (@jstep plain_unicode no_digits point_iso) (World sample_leased [1] []) (World twice_leased [1; 1] [1]) ∧
  rtc (@jstep plain_unicode no_digits point_iso) (World twice_leased [1; 1] [1]) (World completed_once [1] [1]) ∧
  rtc (@jstep plain_unicode no_digits point_iso) (World completed_once [1] [1]) (World pending_again [] [1]) ∧
  status <$> get_job 1 completed_once = Some completed ∧ status <$> get_job 1 pending_again = Some pending.
Proof.
  split_and!; [| | |vm_compute; reflexivity..].
  - eapply rtc_l; [apply (StepRelease (World sample_leased [1] []) [8] 1); by left|]. apply rtc_once.
    apply (StepLease (World released_queue [1] [1]) (lit "v") worker_types twice_leased
      (Job 1 (lit "embed") PNone PNone running PNone None [5] (Some (lit "v")) None None None
        (Some (lit "Worker shutdown grace period exceeded")) (Some [8]) false)). vm_compute. reflexivity.
  - apply rtc_once. by apply (StepComplete (World twice_leased [1; 1] [1]) [9] 1 (PInt 1) [] [1]).
  - apply rtc_once. by apply (StepFail (World completed_once [1] [1]) [10] 1 (lit "late") false [] []).
Qed.

(** A file of the running job, one of the queued job, and two that belong to none. *)
Definition sample_files : list file :=
  [File (get_job_output_path 1) true 0 true; File (get_job_input_path 2) true 0 true;
   File (lit "job_9_input") true 0 true; File (lit "notes") true 95 true].

Example sample_sweep :
  (@sweep_job_files plain_unicode no_digits point_iso 100 10 sample_files sample_leased).1.1 =
    [File (get_job_output_path 1) true 0 true; File (get_job_input_path 2) true 0 true; File (lit "notes") true 95 true].
Proof. vm_compute. reflexivity. Qed.

Lemma sweep_removes_stale_witness :
  ∃ kept q', @sweep_job_files plain_unicode no_digits point_iso 100 10 sample_files sample_leased =
      (kept, q', Ok (zlen sample_files - zlen kept)) ∧
    kept = filter (λ f, @stale plain_unicode no_digits point_iso 100 10 sample_leased f = false) sample_files.
Proof.
  destruct (@sweep_removes_stale plain_unicode no_digits point_iso point_iso_laws 100 10 sample_files sample_leased)
    as (kept & q' & Hs & Hk & _).
  - vm_compute. reflexivity.
  - exists kept, q'. split; [exact Hs|exact Hk].
Defined.

(** 50.25 %, which is shown as 50.2 *)
Definition sample_report : queue :=
  (from_ok (empty_queue, false) (@report_job_progress plain_unicode 3000000 1 (PStr (lit " embedding ")) (Some (Finite 201 (- 2)))
     sample_leased)).1.

Lemma progress_within_bounds_witness :
  ∃ j p pct, get_job 1 sample_leased = Some j ∧ get_job 1 sample_report = Some (set_progress 3000000 p pct j) ∧
    (1 ≤ length p ≤ 64)%nat ∧ ∃ t, pct = Some t ∧ 0 ≤ t ≤ 1000 ∧ Z.abs (2 * (2010 - t * 4)) ≤ 4.
Proof.
  destruct (@progress_within_bounds plain_unicode 3000000 1 (PStr (lit " embedding ")) (Some (Finite 201 (- 2)))
    sample_leased sample_report) as (j & p & pct & Hj & _ & _ & Hg & Hl & t & Ht & Hb & Hn).
  - vm_compute. reflexivity.
  - exists j, p, pct. split; [exact Hj|]. split; [exact Hg|]. split; [exact Hl|]. exists t. split; [exact Ht|].
    split; [exact Hb|]. apply (Hn 201 2); [reflexivity|lia|lia].
Defined.
