(* ===== verification/Quarantine.v ===== *)
(** Upload quarantine ([backend/quarantine.py]): magic-byte detection, the
    cross-checks of extension and content type, the scanner and the stream sniffer,
    and [isolate_upload].  Shown: the scanner accepts exactly the uploads whose header
    carries one family's signature with an extension and a content type of that family
    (or none), and the sniffer takes the same decision and names the family. *)
From Stdlib Require Import ZArith Lia.
From stdpp Require Import base decidable strings numbers sets list.
From S2P Require Import Prelude PyStr.

Open Scope Z_scope.

#[local] Arguments lit _ : simpl never.

(** * Formats *)

(** The format names. *)
Inductive family : Type := MP4 | MOV | GP3 | Matroska | AVI.

#[export] Instance family_eq_dec : EqDecision family.
Proof. solve_decision. Defined.

Record VideoFormat := MkFormat { fmt_name : family; extensions : list str; mime_types : list str }.

Definition HEADER_BYTES : nat := 32.

Definition KNOWN_FORMATS : list VideoFormat :=
  [MkFormat MP4 [lit ".mp4"; lit ".m4v"; lit ".m4a"; lit ".m4b"; lit ".mp4v"] [lit "video/mp4"; lit "video/x-m4v"];
   MkFormat MOV [lit ".mov"; lit ".qt"] [lit "video/quicktime"];
   MkFormat GP3 [lit ".3gp"; lit ".3g2"] [lit "video/3gpp"; lit "video/3gp"; lit "video/3gpp2"];
   MkFormat Matroska [lit ".webm"; lit ".mkv"; lit ".mka"; lit ".mks"]
     [lit "video/webm"; lit "video/x-matroska"; lit "video/mkv"; lit "audio/webm"];
   MkFormat AVI [lit ".avi"] [lit "video/x-msvideo"; lit "video/avi"]].

(** What is wrong with an upload. *)
Inductive QuarantineError : Type :=
  | Unreadable
  | TooSmall
  | NoSignature
  | UnsupportedExtension (ext : str)
  | ExtensionMismatch (ext : str) (detected : family)
  | UnsupportedType (mime : str)
  | TypeMismatch (mime : str) (detected : family).

#[export] Instance QuarantineError_eq_dec : EqDecision QuarantineError.
Proof. solve_decision. Defined.

(** * Detection *)

(** [_read_header]; a path that is not a readable file is [None]. *)
Definition read_header (file : option bytes) : option bytes := take HEADER_BYTES <$> file.

Definition detect_format_family (header : bytes) : option family :=
  if (length header <? 12)%nat then None
  else if starts_with [26; 69; 223; 163] header then Some Matroska
  else if bool_decide (slice 4 8 header = lit "ftyp") then
    let brand := slice 8 12 header in
    if bool_decide (take 3 brand ∈ [lit "3gp"; lit "3g2"]) then Some GP3
    else if bool_decide (take 2 brand = lit "qt") then Some MOV
    else Some MP4
  else if bool_decide (slice 0 4 header = lit "RIFF") && bool_decide (slice 8 12 header = lit "AVI ")
  then Some AVI
  else None.

Definition fmt_by_extension (ext : str) : option VideoFormat :=
  head (filter (λ f, ext ∈ extensions f) KNOWN_FORMATS).
Definition fmt_by_mime (mime : str) : option VideoFormat :=
  head (filter (λ f, mime ∈ mime_types f) KNOWN_FORMATS).
Definition fmt_by_name (name : family) : option VideoFormat :=
  head (filter (λ f, fmt_name f = name) KNOWN_FORMATS).

Section names.
Context `{Unicode}.

(** What follows the last dot, with the dot: [rfind] on the reversed text. *)
Definition normalise_extension (filename : str) : option str :=
  match partition_on 46 (rev filename) with
  | None => None
  | Some ([], _) => None
  | Some (tail, _) => Some (py_lower (46 :: rev tail))
  end.

(** The content type without parameters. *)
Definition normalise_mime (content_type : option str) : option str :=
  match content_type with
  | None | Some [] => None
  | Some ct => Some (py_lower (py_strip (default [] (head (split_on 59 ct)))))
  end.

Definition octet_stream : str := lit "application/octet-stream".

(** The extension check, shared by the scanner and the sniffer. *)
Definition check_extension (filename : option str) (detected : family) : result QuarantineError unit :=
  match filename with
  | None | Some [] => Ok ()
  | Some f =>
      match normalise_extension f with
      | None | Some [] => Ok ()
      | Some ext =>
          match fmt_by_extension ext with
          | None => Err (UnsupportedExtension ext)
          | Some fmt => ensure (bool_decide (fmt_name fmt = detected)) (ExtensionMismatch ext detected)
          end
      end
  end.

(** The content-type check; [application/octet-stream] is a wildcard. *)
Definition check_content_type (content_type : option str) (detected : family) : result QuarantineError unit :=
  match content_type with
  | None | Some [] => Ok ()
  | Some _ =>
      match normalise_mime content_type with
      | None | Some [] => Ok ()
      | Some mime =>
          if bool_decide (mime = octet_stream) then Ok ()
          else match fmt_by_mime mime with
               | None => Err (UnsupportedType mime)
               | Some fmt => ensure (bool_decide (fmt_name fmt = detected)) (TypeMismatch mime detected)
               end
      end
  end.

(** * The scanner *)

Definition is_valid_video (file : option bytes) : bool :=
  match read_header file with
  | None => false
  | Some header => bool_decide (is_Some (detect_format_family header))
  end.

Definition detect_format (file : option bytes) : option family :=
  header ← read_header file;
  if (length header <? 12)%nat then None else detect_format_family header.

Definition verify_consistency (file : option bytes) (filename content_type : option str) :
    result QuarantineError unit :=
  match read_header file with
  | None => Err Unreadable
  | Some header =>
      if (length header <? 12)%nat then Err TooSmall else
      match detect_format_family header with
      | None => Err NoSignature
      | Some detected => check_extension filename detected;; check_content_type content_type detected
      end
  end.

(** * The sniffer *)

(** [sniff_media_type_stream] on the bytes of the stream; the position is put back to
    the start, so the stream itself is unchanged. *)
Definition sniff_media_type_stream (stream : bytes) (filename content_type : option str) :
    result QuarantineError family :=
  let header := take HEADER_BYTES stream in
  if (length header <? 12)%nat then Err TooSmall else
  match detect_format_family header with
  | None => Err NoSignature
  | Some detected =>
      check_extension filename detected;; check_content_type content_type detected;; Ok detected
  end.

Definition sniff_media_type_path (file : option bytes) (filename content_type : option str) :
    result QuarantineError family :=
  match read_header file with
  | None => Err Unreadable
  | Some header => sniff_media_type_stream header filename content_type
  end.

(** * Isolation *)

(** [isolate_upload]: the names given override those of the upload; what is yielded
    is the saved content. *)
Definition isolate_upload (content : option bytes) (own_name own_type : option str)
    (filename content_type : option str) : result QuarantineError (option bytes) :=
  let resolved_name := match filename with Some _ => filename | None => own_name end in
  let resolved_type := match content_type with Some _ => content_type | None => own_type end in
  verify_consistency content resolved_name resolved_type;; Ok content.
End names.

(** * What acceptance means *)

(** The signature of a family, as bytes at fixed offsets. *)
Definition has_signature (f : family) (b : bytes) : Prop :=
  (12 ≤ length b)%nat ∧
  match f with
  | Matroska => ∃ r, b = [26; 69; 223; 163] ++ r
  | GP3 => ∃ p x r, length p = 4%nat ∧ (x = 112 ∨ x = 50) ∧ b = p ++ lit "ftyp3g" ++ x :: r
  | MOV => ∃ p r, length p = 4%nat ∧ b = p ++ lit "ftypqt" ++ r
  | MP4 => ∃ p r, length p = 4%nat ∧ b = p ++ lit "ftyp" ++ r
  | AVI => ∃ p r, length p = 4%nat ∧ b = lit "RIFF" ++ p ++ lit "AVI " ++ r
  end.

(** Detection prefers the families in this order. *)
Definition detection_order : list family := [Matroska; GP3; MOV; MP4; AVI].
Definition first_signature (f : family) (b : bytes) : Prop :=
  ∃ before after, detection_order = before ++ f :: after ∧ has_signature f b ∧
    ∀ g, g ∈ before → ¬ has_signature g b.

(** The extension of the name (if it has one) and the declared type (if it says
    anything) belong to the family. *)
Definition name_fits `{Unicode} (f : family) (filename : option str) : Prop :=
  ∀ n ext, filename = Some n → normalise_extension n = Some ext → ext ≠ [] →
    ∃ fmt, fmt ∈ KNOWN_FORMATS ∧ fmt_name fmt = f ∧ ext ∈ extensions fmt.
Definition type_fits `{Unicode} (f : family) (content_type : option str) : Prop :=
  ∀ mime, normalise_mime content_type = Some mime → mime ≠ [] → mime ≠ octet_stream →
    ∃ fmt, fmt ∈ KNOWN_FORMATS ∧ fmt_name fmt = f ∧ mime ∈ mime_types fmt.

Lemma slice_eq (i j : nat) (b w : bytes) :
  (i < j)%nat → length w = (j - i)%nat → slice i j b = w ↔ ∃ p r, length p = i ∧ b = p ++ w ++ r.
Proof.
  intros Hij Hw. split.
  - intros Hs. unfold slice in Hs. exists (take i b), (drop (j - i) (drop i b)).
    pose proof (f_equal length Hs) as Hl. rewrite length_take, length_drop in Hl.
    rewrite length_take. split; [lia|]. rewrite <- Hs, take_drop. by rewrite take_drop.
  - intros (p & r & Hp & ->). apply slice_app_exact; [done|]. by rewrite Hw.
Qed.

(** A field at offset [i] is the same text as two adjacent fields. *)
Lemma slice_prefix (i j k : nat) (b : bytes) : (i ≤ j ≤ k)%nat → take (j - i) (slice i k b) = slice i j b.
Proof. intros. unfold slice. rewrite take_take. f_equal. lia. Qed.

Lemma slice_join (i j k : nat) (b v w : bytes) :
  (i < j < k)%nat → length v = (j - i)%nat → length w = (k - j)%nat →
  slice i j b = v ∧ slice j k b = w ↔ ∃ p r, length p = i ∧ b = p ++ (v ++ w) ++ r.
Proof.
  intros Hijk Hv Hw. split.
  - intros [Hsv Hsw]. apply slice_eq in Hsv as (p & r & Hp & ->); [|lia|done].
    apply slice_eq in Hsw as (p' & r' & Hp' & Heq); [|lia|done].
    assert (p' = p ++ v ∧ w ++ r' = r) as [-> <-].
    { rewrite app_assoc in Heq. apply app_inj_1 in Heq as [-> ->]; [done|]. rewrite length_app. lia. }
    exists p, r'. split; [done|]. by rewrite !app_assoc.
  - intros (p & r & Hp & ->). split.
    + apply slice_eq; [lia|done|]. exists p, (w ++ r). split; [done|]. by rewrite !app_assoc.
    + apply slice_eq; [lia|done|]. exists (p ++ v), r. rewrite length_app. split; [lia|]. by rewrite !app_assoc.
Qed.

Lemma starts_with_spec (w b : bytes) : starts_with w b = true ↔ ∃ r, b = w ++ r.
Proof.
  unfold starts_with. rewrite bool_decide_eq_true. split.
  - intros Ht. exists (drop (length w) b). rewrite <- Ht at 1. by rewrite take_drop.
  - intros [r ->]. apply take_app_length.
Qed.

Section signatures.
Context (b : bytes) (Hlen : (12 ≤ length b)%nat).

Lemma sig_matroska : has_signature Matroska b ↔ starts_with [26; 69; 223; 163] b = true.
Proof. rewrite starts_with_spec. unfold has_signature. tauto. Qed.

Lemma sig_mp4 : has_signature MP4 b ↔ slice 4 8 b = lit "ftyp".
Proof. rewrite slice_eq by (done || lia). unfold has_signature. tauto. Qed.

Lemma sig_mov : has_signature MOV b ↔ slice 4 8 b = lit "ftyp" ∧ slice 8 10 b = lit "qt".
Proof.
  rewrite slice_join by (done || lia). change (lit "ftyp" ++ lit "qt") with (lit "ftypqt").
  unfold has_signature. tauto.
Qed.

Lemma sig_3gp :
  has_signature GP3 b ↔ slice 4 8 b = lit "ftyp" ∧ (slice 8 11 b = lit "3gp" ∨ slice 8 11 b = lit "3g2").
Proof.
  assert (∀ w, length w = 3%nat → slice 4 8 b = lit "ftyp" ∧ slice 8 11 b = w ↔
    ∃ p r, length p = 4%nat ∧ b = p ++ (lit "ftyp" ++ w) ++ r) as Hj by (intros; apply slice_join; done || lia).
  split.
  - intros (_ & p & x & r & Hp & Hx & ->). destruct Hx as [->| ->].
    + destruct (proj2 (Hj (lit "3gp") eq_refl)) as [-> ->]; [by exists p, r|]. auto.
    + destruct (proj2 (Hj (lit "3g2") eq_refl)) as [-> ->]; [by exists p, r|]. auto.
  - intros [Hf [Hb|Hb]]; (split; [done|]).
    + destruct (proj1 (Hj (lit "3gp") eq_refl) (conj Hf Hb)) as (p & r & Hp & Heq). exists p, 112, r. auto.
    + destruct (proj1 (Hj (lit "3g2") eq_refl) (conj Hf Hb)) as (p & r & Hp & Heq). exists p, 50, r. auto.
Qed.

Lemma sig_avi : has_signature AVI b ↔ slice 0 4 b = lit "RIFF" ∧ slice 8 12 b = lit "AVI ".
Proof.
  split.
  - intros (_ & p & r & Hp & ->). split; [done|].
    rewrite app_assoc. apply slice_app_exact; [by rewrite length_app, Hp|done].
  - intros [H1 H2]. split; [done|]. apply slice_eq in H1 as (p & r & Hp & ->); [|lia|done].
    apply nil_length_inv in Hp as ->. apply slice_eq in H2 as (q & r' & Hq & Heq); [|lia|done].
    cbn [app] in *. exists (drop 4 q), r'. rewrite length_drop. split; [lia|].
    rewrite <- (take_drop 4 q), <- app_assoc in Heq.
    apply app_inj_1 in Heq as [Ht ->]; [|rewrite length_take, Hq; done]. rewrite Ht. by rewrite app_assoc.
Qed.

(** Detection finds the first family of the order whose signature is there. *)
Lemma detect_first f : detect_format_family b = Some f → first_signature f b.
Proof.
  unfold detect_format_family. destruct (Nat.ltb_spec (length b) 12); [lia|].
  change (take 3 (slice 8 12 b)) with (take (11 - 8) (slice 8 12 b)).
  change (take 2 (slice 8 12 b)) with (take (10 - 8) (slice 8 12 b)).
  rewrite !slice_prefix by lia.
  pose proof sig_matroska as S1. pose proof sig_3gp as S2. pose proof sig_mov as S3.
  pose proof sig_mp4 as S4. pose proof sig_avi as S5.
  destruct (starts_with [26; 69; 223; 163] b).
  { intros [= <-]. exists [], [GP3; MOV; MP4; AVI]. split_and!; [done|tauto|]. intros g Hg. by apply elem_of_nil in Hg. }
  case_bool_decide as Hf.
  - case_bool_decide as Hg.
    { intros [= <-]. exists [Matroska], [MOV; MP4; AVI]. split_and!; [done| |].
      - apply S2. split; [done|]. rewrite !elem_of_cons, elem_of_nil in Hg. tauto.
      - intros g ->%list_elem_of_singleton. rewrite S1. done. }
    assert (¬ has_signature GP3 b) as Hn3 by (rewrite S2; intros [_ [Hb|Hb]]; apply Hg; rewrite Hb; set_solver).
    case_bool_decide as Hq.
    { intros [= <-]. exists [Matroska; GP3], [MP4; AVI]. split_and!; [done|tauto|].
      intros g. rewrite !elem_of_cons, elem_of_nil. intros [->|[->|[]]]; [rewrite S1; done|done]. }
    intros [= <-]. exists [Matroska; GP3; MOV], [AVI]. split_and!; [done|tauto|].
    intros g. rewrite !elem_of_cons, elem_of_nil. intros [->|[->|[->|[]]]]; [rewrite S1; done|done|tauto].
  - case_match eqn:Ha; [|done]. bool_inv. intros [= <-]. exists [Matroska; GP3; MOV; MP4], [].
    split_and!; [done|tauto|].
    intros g. rewrite !elem_of_cons, elem_of_nil. intros [->|[->|[->|[->|[]]]]]; [rewrite S1; done|tauto|tauto|tauto].
Qed.

Lemma detect_none : detect_format_family b = None → ∀ f, ¬ has_signature f b.
Proof.
  unfold detect_format_family. destruct (Nat.ltb_spec (length b) 12); [lia|].
  pose proof sig_matroska as S1. pose proof sig_3gp as S2. pose proof sig_mov as S3.
  pose proof sig_mp4 as S4. pose proof sig_avi as S5.
  destruct (starts_with [26; 69; 223; 163] b); [done|]. case_bool_decide as Hf; [by repeat case_match|].
  case_match eqn:Ha; [done|]. intros _ f. apply andb_false_iff in Ha.
  destruct f; [tauto|tauto|tauto| |].
  - rewrite S1. done.
  - rewrite S5. destruct Ha; bool_inv; tauto.
Qed.
End signatures.

(** The first signature is unique. *)
Lemma first_signature_inj f g b : first_signature f b → first_signature g b → f = g.
Proof.
  intros (l & r & Ho & Hs & Hn) (l' & r' & Ho' & Hs' & Hn'). destruct (decide (f = g)) as [|Hne]; [done|exfalso].
  assert (f ∈ l' ∨ g ∈ l) as [?|?]; [|by apply (Hn' f)|by apply (Hn g)].
  clear -Ho Ho' Hne. rewrite Ho in Ho'. clear Ho. revert l' Ho'. induction l as [|x l IH]; intros [|y l'] Heq; cbn in Heq.
  - by injection Heq as ->.
  - injection Heq as <- _. left. left.
  - injection Heq as -> _. right. left.
  - injection Heq as <- Heq. destruct (IH l' Heq); [left|right]; by right.
Qed.

Lemma detect_spec b f :
  detect_format_family b = Some f ↔ (12 ≤ length b)%nat ∧ first_signature f b.
Proof.
  split.
  - intros Hd. assert (12 ≤ length b)%nat as Hl.
    { unfold detect_format_family in Hd. by destruct (Nat.ltb_spec (length b) 12). }
    split; [done|by apply detect_first].
  - intros [Hl Hf]. destruct (detect_format_family b) as [g|] eqn:Hd.
    + apply detect_first in Hd; [|done]. by rewrite (first_signature_inj f g b Hf Hd).
    + destruct Hf as (? & ? & _ & Hs & _). by apply (detect_none b Hl Hd) in Hs.
Qed.

(** * The checks *)

Section checks.
Context `{Unicode}.

(** No extension and no content type belongs to two families. *)
Definition separates (sel : VideoFormat → list str) : Prop :=
  Forall (λ f, Forall (λ g, fmt_name f = fmt_name g ∨ Forall (λ x, x ∉ sel g) (sel f)) KNOWN_FORMATS) KNOWN_FORMATS.

Lemma extensions_separate : separates extensions.
Proof. unfold separates. apply (bool_decide_unpack _). vm_compute. exact I. Qed.
Lemma mime_types_separate : separates mime_types.
Proof. unfold separates. apply (bool_decide_unpack _). vm_compute. exact I. Qed.

(** The format a lookup returns is the family of whatever format lists the text. *)
Lemma lookup_format sel x :
  separates sel →
  match head (filter (λ f, x ∈ sel f) KNOWN_FORMATS) with
  | None => ∀ fmt, fmt ∈ KNOWN_FORMATS → x ∉ sel fmt
  | Some g => g ∈ KNOWN_FORMATS ∧ x ∈ sel g ∧
      ∀ fmt, fmt ∈ KNOWN_FORMATS → x ∈ sel fmt → fmt_name fmt = fmt_name g
  end.
Proof.
  intros Hsep. destruct (filter (λ f, x ∈ sel f) KNOWN_FORMATS) as [|g l] eqn:Hfl; cbn.
  - intros fmt Hin Hx. assert (fmt ∈ filter (λ f, x ∈ sel f) KNOWN_FORMATS) as Hf by (by apply list_elem_of_filter).
    rewrite Hfl in Hf. by apply elem_of_nil in Hf.
  - assert (g ∈ filter (λ f, x ∈ sel f) KNOWN_FORMATS) as Hg by (rewrite Hfl; left).
    apply list_elem_of_filter in Hg as [Hxg Hg]. split_and!; [done|done|]. intros fmt Hin Hx.
    unfold separates in Hsep. rewrite Forall_forall in Hsep. specialize (Hsep fmt Hin).
    rewrite Forall_forall in Hsep. destruct (Hsep g Hg) as [|Hd]; [done|].
    rewrite Forall_forall in Hd. by apply Hd in Hx.
Qed.

(** The common shape of the two checks. *)
Lemma lookup_fits sel x f err err' :
  separates sel →
  (match head (filter (λ f, x ∈ sel f) KNOWN_FORMATS) with
   | None => Err err
   | Some fmt => ensure (bool_decide (fmt_name fmt = f)) err'
   end : result QuarantineError unit) = Ok () ↔
  ∃ fmt, fmt ∈ KNOWN_FORMATS ∧ fmt_name fmt = f ∧ x ∈ sel fmt.
Proof.
  intros Hsep. pose proof (lookup_format sel x Hsep) as Hl.
  destruct (head (filter (λ f, x ∈ sel f) KNOWN_FORMATS)) as [g|].
  - destruct Hl as (Hg & Hx & Hu). rewrite ensure_ok, bool_decide_eq_true. split; [eauto|].
    intros (fmt & Hin & <- & Hxf). symmetry. by apply Hu.
  - split; [done|]. intros (fmt & Hin & _ & Hxf). by apply (Hl fmt) in Hxf.
Qed.

Lemma check_extension_iff filename f : check_extension filename f = Ok () ↔ name_fits f filename.
Proof.
  unfold check_extension, name_fits. destruct filename as [[|c n]|]; [|..].
  - split; [|done]. intros _ n ext [= <-] Hn. done.
  - destruct (normalise_extension (c :: n)) as [[|e ext]|] eqn:He.
    + split; [|done]. intros _ n' ext [= <-] Hn Hne. congruence.
    + unfold fmt_by_extension. rewrite (lookup_fits extensions) by apply extensions_separate. split.
      * intros Hex n' ext' [= <-] Hn _. rewrite He in Hn. by injection Hn as <-.
      * intros Hall. by apply (Hall (c :: n)).
    + split; [|done]. intros _ n' ext [= <-] Hn. congruence.
  - split; [|done]. intros _ n ext [=].
Qed.

Lemma check_content_type_iff ct f : check_content_type ct f = Ok () ↔ type_fits f ct.
Proof.
  unfold check_content_type, type_fits. destruct ct as [[|c n]|]; [|..].
  - split; [|done]. intros _ mime [=].
  - destruct (normalise_mime (Some (c :: n))) as [[|e mime]|] eqn:He.
    + split; [|done]. intros _ m [= <-]. done.
    + destruct (bool_decide (e :: mime = octet_stream)) eqn:Ho.
      { apply bool_decide_eq_true in Ho. split; [|done]. intros _ m [= <-] _ Hno. done. }
      apply bool_decide_eq_false in Ho. unfold fmt_by_mime.
      rewrite (lookup_fits mime_types) by apply mime_types_separate. split.
      * by intros Hex m [= <-] _ _.
      * intros Hall. by apply Hall.
    + split; [|done]. intros _ m [=].
  - split; [|done]. intros _ mime [=].
Qed.

(** C31. What the quarantine lets through: an upload is accepted exactly when its first
    bytes carry the signature of a known family (the first one of the detection
    order), its extension, if it has one, is one of that family, and so is its content
    type, unless it is missing or [application/octet-stream]. *)
Theorem quarantine_accepts_iff content own_name own_type filename content_type :
  isolate_upload (Some content) own_name own_type filename content_type = Ok (Some content) ↔
  ∃ f, let header := take HEADER_BYTES content in
    (12 ≤ length header)%nat ∧ first_signature f header ∧
    name_fits f (match filename with Some _ => filename | None => own_name end) ∧
    type_fits f (match content_type with Some _ => content_type | None => own_type end).
Proof.
  unfold isolate_upload, verify_consistency, read_header. cbn [fmap option_fmap option_map].
  rewrite seq_ok. set (header := take HEADER_BYTES content).
  destruct (Nat.ltb_spec (length header) 12) as [Hs|Hl].
  { split; [intros [? _]; done|]. intros (f & Hf & _). lia. }
  destruct (detect_format_family header) as [d|] eqn:Hd.
  - rewrite seq_ok, check_extension_iff, check_content_type_iff. apply detect_spec in Hd as [_ Hd]. split.
    + intros [[? ?] _]. exists d. done.
    + intros (f & _ & Hf & ? & ?). by rewrite (first_signature_inj d f header).
  - split; [intros [? _]; done|]. intros (f & Hlen & Hf & _).
    assert (detect_format_family header = Some f) by (by apply detect_spec). congruence.
Qed.

(** The sniffer and the scanner agree on every file, name and content type: the
    sniffer fails with the scanner's error, and when the scanner accepts it returns the
    family [detect_format] reports. *)
Theorem sniffer_agrees_with_scanner file filename content_type :
  sniff_media_type_path file filename content_type =
  match verify_consistency file filename content_type with
  | Ok () => match detect_format file with Some f => Ok f | None => Err NoSignature end
  | Err e => Err e
  end.
Proof.
  unfold sniff_media_type_path, verify_consistency, detect_format, sniff_media_type_stream.
  destruct (read_header file) as [h|] eqn:Hh; [|done]. cbn [mbind option_bind].
  assert (take HEADER_BYTES h = h) as ->.
  { apply take_ge. destruct file as [b|]; [|done]. cbn in Hh. injection Hh as <-. rewrite length_take; unfold HEADER_BYTES; lia. }
  destruct (length h <? 12)%nat; [done|]. destruct (detect_format_family h) as [d|]; [|done].
  destruct (check_extension filename d) as [[]|]; cbn; [|done].
  by destruct (check_content_type content_type d) as [[]|].
Qed.
End checks.
