(* ===== verification/RegisterAuth.v ===== *)
(** Registration credentials ([backend/register_auth.py]): the parser of
    [REGISTER_SCOPED_KEYS], bearer-token authentication and the ownership check.
    Shown: a parsed configuration has valid owners and one owner per digest, and a
    token acts for an owner exactly when its SHA-256 is that owner's configured digest,
    in which case only that owner's proofs can be registered. *)
From Stdlib Require Import ZArith Lia.
From stdpp Require Import base decidable strings numbers list.
From S2P Require Import Prelude PyStr Sha256 Strkey.

Open Scope Z_scope.

#[local] Arguments lit _ : simpl never.

Definition MAX_TOKEN_CHARS : Z := 256.
Definition MAX_SCOPED_KEYS : Z := 256.
Definition DIGEST_HEX_LEN : Z := 64.

Record ScopedKey := MkScopedKey { key_owner : option str; key_digest : bytes }.
Record RegistrationPrincipal := Principal { principal_owner : option str }.

Definition is_scoped (p : RegistrationPrincipal) : bool := bool_decide (is_Some (principal_owner p)).

(** The configuration errors name the position of the entry only. *)
Inductive config_error : Type :=
  | TooManyKeys
  | NoSeparator (position : Z)
  | BadAddress (position : Z)
  | BadDigest (position : Z)
  | ReusedDigest (position : Z).

Section config.
Context `{Unicode}.

(** [entry.partition(":")]: text without the separator is all owner. *)
Definition split_entry (entry : str) : option (str * str) := partition_on 58 entry.

(** One entry of the configuration. *)
Definition parse_entry (position : Z) (seen : list bytes) (entry : str) : result config_error ScopedKey :=
  match split_entry entry with
  | None => Err (NoSeparator position)
  | Some (owner_text, digest_text) =>
      owner ← map_err (λ _, BadAddress position) (validate_source_address (PStr owner_text));
      let digest_text := py_lower (py_strip digest_text) in
      if negb (zlen digest_text =? DIGEST_HEX_LEN) || negb (forallb is_lower_hex digest_text)
      then Err (BadDigest position)
      else
        let digest := default [] (bytes_fromhex digest_text) in
        if bool_decide (digest ∈ seen) then Err (ReusedDigest position)
        else Ok (MkScopedKey owner digest)
  end.

Fixpoint parse_entries (position : Z) (entries : list str) (parsed : list ScopedKey) :
    result config_error (list ScopedKey) :=
  match entries with
  | [] => Ok parsed
  | e :: entries =>
      k ← parse_entry position (key_digest <$> parsed) e;
      parse_entries (position + 1) entries (parsed ++ [k])
  end.

Definition parse_scoped_keys (raw : option str) : result config_error (list ScopedKey) :=
  match raw with
  | None => Ok []
  | Some r =>
      if bool_decide (py_strip r = []) then Ok [] else
      let entries := filter (λ e, e ≠ []) (map py_strip (split_on 44 r)) in
      if MAX_SCOPED_KEYS <? zlen entries then Err TooManyKeys else parse_entries 1 entries []
  end.
End config.

(** * Authentication *)

(** [token.encode("utf-8")] raises on a lone surrogate. *)
Definition encode_token (token : str) : result exn bytes :=
  match utf8_encode token with Some b => Ok b | None => Err UnicodeError end.

Definition token_digest (token : str) : result exn bytes := b ← encode_token token; Ok (sha256 b).

(** The scan over every key: the last match is kept. *)
Definition scan_keys (presented_digest : bytes) (keys : list ScopedKey) : option (option str) :=
  foldl (λ acc k, if bool_decide (presented_digest = key_digest k) then Some (key_owner k) else acc) None keys.

Definition authenticate (token : str) (legacy_key : option str) (scoped_keys : list ScopedKey) :
    result exn (option RegistrationPrincipal) :=
  if MAX_TOKEN_CHARS <? zlen token then Ok None else
  presented ← encode_token token;
  let scoped := scan_keys (sha256 presented) scoped_keys in
  legacy_match ← match legacy_key with
    | None => Ok false
    | Some k => kb ← encode_token k; Ok (bool_decide (presented = kb))
    end;
  match scoped with
  | Some owner => Ok (Some (Principal owner))
  | None => Ok (if (legacy_match : bool) then Some (Principal None) else None)
  end.

(** [encode("ascii")] raises on other characters. *)
Definition encode_ascii (s : str) : result exn bytes :=
  if forallb is_ascii s then Ok s else Err UnicodeError.

Definition scope_allows (p : RegistrationPrincipal) (claimed_owner : option str) : result exn bool :=
  match principal_owner p with
  | None => Ok true
  | Some o =>
      match claimed_owner with
      | None => Ok false
      | Some c => a ← encode_ascii o; b ← encode_ascii c; Ok (bool_decide (a = b))
      end
  end.

(** * A parsed configuration *)

(** Every key has an owner with a valid account address and a 32-byte digest, and no
    two keys share a digest. *)
Definition keys_ok `{Unicode} (keys : list ScopedKey) : Prop :=
  NoDup (key_digest <$> keys) ∧
  Forall (λ k, length (key_digest k) = 32%nat ∧ ∃ o, key_owner k = Some o ∧
    is_valid_strkey o VERSION_BYTE_ED25519_PUBLIC = true) keys.

Section facts.
Context `{Unicode}.

Lemma fromhex_length s b :
  Forall (λ c, is_hex c = true) s → bytes_fromhex s = Some b → length s = (2 * length b)%nat.
Proof.
  revert b. induction s as [s IH] using (induction_ltof1 _ (@length Z)). unfold ltof in IH. intros b Hs Hb.
  destruct s as [|c [|d s]]; cbn in Hb; [by injection Hb as <-| |].
  - apply Forall_cons in Hs as [Hc _]. apply is_hex_char in Hc. case_match; [lia|done].
  - apply Forall_cons in Hs as [Hc Hs]. apply Forall_cons in Hs as [Hd Hs]. apply is_hex_char in Hc as Hc'.
    case_match; [lia|]. destruct (hex_val c); [|done]. destruct (hex_val d); [|done]. cbn in Hb.
    destruct (bytes_fromhex s) as [t|] eqn:Ht; [|done]. cbn in Hb. injection Hb as <-.
    pose proof (IH s ltac:(cbn; lia) t Hs Ht) as IHs. cbn in *. lia.
Qed.

Lemma fromhex_total s :
  Forall (λ c, is_hex c = true) s → (∃ n, length s = (2 * n)%nat) → is_Some (bytes_fromhex s).
Proof.
  induction s as [s IH] using (induction_ltof1 _ (@length Z)). unfold ltof in IH. intros Hs [n Hn].
  destruct s as [|c [|d s]]; [done|cbn in Hn; lia|].
  apply Forall_cons in Hs as [Hc Hs]. apply Forall_cons in Hs as [Hd Hs]. apply is_hex_char in Hc as Hc'. cbn.
  case_match; [lia|]. unfold is_hex in Hc, Hd. apply bool_decide_eq_true in Hc as [x ->], Hd as [y ->].
  destruct (IH s) as [t ->]; [cbn; lia|done|exists (n - 1)%nat; cbn in *; lia|]. by eexists.
Qed.

Lemma lower_hex_is_hex s : forallb is_lower_hex s = true → Forall (λ c, is_hex c = true) s.
Proof.
  intros Hs%forallb_Forall. eapply Forall_impl; [exact Hs|]. cbn. unfold is_lower_hex. intros c Hc.
  apply bool_decide_eq_true. unfold hex_val. repeat case_match; eauto; bool_inv; lia.
Qed.

Lemma parse_entry_ok pos seen e k :
  parse_entry pos seen e = Ok k →
  key_digest k ∉ seen ∧ length (key_digest k) = 32%nat ∧ ∃ o, key_owner k = Some o ∧
    is_valid_strkey o VERSION_BYTE_ED25519_PUBLIC = true.
Proof.
  unfold parse_entry. destruct (split_entry e) as [[ot dt]|]; [|done].
  intros (owner & Ho & Hk)%bind_ok. set (d := py_lower (py_strip dt)) in Hk.
  destruct (negb (zlen d =? DIGEST_HEX_LEN) || negb (forallb is_lower_hex d)) eqn:Hd; [done|].
  apply orb_false_iff in Hd as [Hl Hh]. apply negb_false_iff in Hl, Hh. apply Z.eqb_eq in Hl.
  destruct (bool_decide _) eqn:Hs; [done|]. injection Hk as <-. apply bool_decide_eq_false in Hs.
  cbn [key_digest key_owner]. apply lower_hex_is_hex in Hh. unfold DIGEST_HEX_LEN, zlen in Hl.
  destruct (fromhex_total d Hh) as [b Hb]; [exists 32%nat; lia|]. rewrite Hb in *. cbn [default] in *.
  apply fromhex_length in Hb as Hlen; [|done]. split_and!; [done|cbn in *; lia|].
  unfold validate_source_address, validate_address in Ho.
  destruct (is_valid_strkey (py_upper (py_strip ot)) VERSION_BYTE_ED25519_PUBLIC) eqn:Hv; cbn in Ho; [|done].
  injection Ho as <-. eauto.
Qed.

Lemma parse_entries_ok pos es parsed keys :
  keys_ok parsed → parse_entries pos es parsed = Ok keys → keys_ok keys.
Proof.
  revert pos parsed. induction es as [|e es IH]; intros pos parsed Hok Hp; cbn in Hp; [by simplify_eq|].
  apply bind_ok in Hp as (k & Hk & Hp). apply (IH _ _ ) in Hp; [done|].
  apply parse_entry_ok in Hk as (Hnew & Hlen & Ho). destruct Hok as [Hnd Hall]. split.
  - rewrite fmap_app. apply NoDup_app. split_and!; [done| |apply NoDup_singleton].
    intros x Hx Hin. apply list_elem_of_singleton in Hin as ->. done.
  - apply Forall_app. split; [done|]. constructor; [done|constructor].
Qed.

Lemma parse_scoped_keys_ok raw keys : parse_scoped_keys raw = Ok keys → keys_ok keys.
Proof.
  assert (keys_ok []) as H0 by (split; constructor). unfold parse_scoped_keys.
  destruct raw as [r|]; [|by intros [= <-]]. case_match; [by intros [= <-]|]. case_match; [done|].
  by apply parse_entries_ok.
Qed.

(** With distinct digests the scan finds the one key of the digest. *)
Lemma scan_keys_spec d keys o :
  NoDup (key_digest <$> keys) → scan_keys d keys = Some o ↔ MkScopedKey o d ∈ keys.
Proof.
  unfold scan_keys. induction keys as [|k keys IH] using rev_ind; intros Hnd.
  { split; [done|]. intros Hin. by apply elem_of_nil in Hin. }
  rewrite fmap_app in Hnd. apply NoDup_app in Hnd as (Hnd & Hdis & _). rewrite foldl_snoc, elem_of_app, list_elem_of_singleton.
  destruct (bool_decide (d = key_digest k)) eqn:Hd.
  - apply bool_decide_eq_true in Hd as ->. split.
    + intros [= <-]. right. by destruct k.
    + intros [Hin|<-]; [|done]. exfalso. apply (Hdis (key_digest k)); [|left].
      apply list_elem_of_fmap. by exists (MkScopedKey o (key_digest k)).
  - apply bool_decide_eq_false in Hd. rewrite IH by done. split; [auto|]. intros [|<-]; [done|]. done.
Qed.

(** C29. Ownership-scoped credentials: with a configuration that parsed, a token acts for
    an owner exactly when it is short enough and its SHA-256 is a digest configured for
    that owner (an unencodable legacy key aside); it is unscoped only when it equals the
    legacy key; and a principal acting for an owner may register only that owner's
    proofs. *)
Theorem scoped_token_acts_for_owner raw keys token legacy :
  parse_scoped_keys raw = Ok keys → (∀ k, legacy = Some k → is_Some (utf8_encode k)) →
  (∀ o, authenticate token legacy keys = Ok (Some (Principal (Some o))) ↔
    zlen token ≤ MAX_TOKEN_CHARS ∧
    ∃ b, utf8_encode token = Some b ∧ MkScopedKey (Some o) (sha256 b) ∈ keys) ∧
  (authenticate token legacy keys = Ok (Some (Principal None)) →
    ∃ k b, legacy = Some k ∧ utf8_encode k = Some b ∧ utf8_encode token = Some b) ∧
  (∀ o claimed, scope_allows (Principal (Some o)) claimed = Ok true → claimed = Some o).
Proof.
  intros [Hnd Hall]%parse_scoped_keys_ok Hleg. split_and!.
  - intros o. unfold authenticate, encode_token. destruct (Z.ltb_spec MAX_TOKEN_CHARS (zlen token)).
    { split; [done|]. intros [? _]. lia. }
    destruct (utf8_encode token) as [b|]; [|split; [done|naive_solver]]. rewrite bind_Ok.
    pose proof (λ o', scan_keys_spec (sha256 b) keys o' Hnd) as Hscan.
    assert (∃ lm, (match legacy with None => Ok false | Some k =>
      kb ← match utf8_encode k with Some b => Ok b | None => Err UnicodeError end; Ok (bool_decide (b = kb)) end
      : result exn bool) = Ok lm) as [lm ->].
    { destruct legacy as [k|]; [|eauto]. destruct (Hleg k eq_refl) as [kb ->]. cbn. eauto. }
    rewrite bind_Ok. destruct (scan_keys (sha256 b) keys) as [o'|] eqn:Hs.
    + split.
      * intros [= ->]. split; [done|]. exists b. split; [done|]. by apply Hscan.
      * intros [_ (b' & [= <-] & Hin)]. apply Hscan in Hin. by simplify_eq.
    + split; [by destruct lm|]. intros [_ (b' & [= <-] & Hin)]. apply Hscan in Hin. done.
  - unfold authenticate, encode_token. destruct (MAX_TOKEN_CHARS <? zlen token); [done|].
    destruct (utf8_encode token) as [b|]; [|done]. rewrite bind_Ok. intros (lm & Hlm & Ha)%bind_ok.
    destruct (scan_keys (sha256 b) keys) as [o|] eqn:Hs.
    + injection Ha as ->. apply scan_keys_spec in Hs; [|done]. rewrite Forall_forall in Hall.
      apply Hall in Hs as (_ & o' & Ho & _). done.
    + destruct lm; [|done]. destruct legacy as [k|]; [|done]. apply bind_ok in Hlm as (kb & Hkb & [= Hb]).
      destruct (utf8_encode k) as [kb'|] eqn:Hk; [|done]. injection Hkb as ->.
      apply bool_decide_eq_true in Hb as ->. exists k, kb. done.
  - intros o [c|]; [|done]. unfold scope_allows, encode_ascii. cbn. intros (a & Ha & (b & Hb & [= Hab])%bind_ok)%bind_ok.
    destruct (forallb is_ascii o); [|done]. destruct (forallb is_ascii c); [|done]. bool_inv. congruence.
Qed.
End facts.

(** * Witness *)

#[local] Instance sample_unicode : Unicode := plain_unicode.

(** One key: the account of the zero public key with the digest [aa..aa]. *)
Definition sample_raw : str :=
  from_ok [] (make_strkey VERSION_BYTE_ED25519_PUBLIC (replicate 32 0)) ++ 58 :: replicate 64 97.
Definition sample_keys : list ScopedKey := from_ok [] (parse_scoped_keys (Some sample_raw)).

Lemma scoped_token_acts_for_owner_witness :
  length sample_keys = 1%nat ∧
  (authenticate (lit "t") (Some (lit "legacy")) sample_keys = Ok (Some (Principal None)) →
    ∃ k b, Some (lit "legacy") = Some k ∧ utf8_encode k = Some b ∧ utf8_encode (lit "t") = Some b) ∧
  (∀ o claimed, scope_allows (Principal (Some o)) claimed = Ok true → claimed = Some o).
Proof.
  split; [vm_compute; reflexivity|].
  apply (scoped_token_acts_for_owner (Some sample_raw) sample_keys (lit "t") (Some (lit "legacy"))).
  - apply from_ok_spec. vm_compute. reflexivity.
  - intros k [= <-]. eexists. vm_compute. reflexivity.
Defined.
