(* ===== verification/SessionReplay.v ===== *)
(** Replay protection of analytics sessions ([backend/analytics/session_protection.py]):
    the nonce table, pruning and [SessionReplayGuard.verify_and_record].  Instants and
    durations are integers.  Shown: a nonce that was accepted is not permitted again
    within its time to live, whatever other traffic and pruning happen, and the table
    stays within its bound. *)
From Stdlib Require Import ZArith Lia.
From stdpp Require Import base decidable strings numbers list.
From S2P Require Import Prelude PyStr.

Open Scope Z_scope.

Inductive SessionReplayOutcome : Type :=
  | NEW | DUPLICATE | EXPIRED | OVERSIZED_NONCE | SESSION_TOO_LONG | INVALID_NONCE
  | MAX_BUCKETS_EXCEEDED | STORAGE_FULL.

#[export] Instance SessionReplayOutcome_eq_dec : EqDecision SessionReplayOutcome.
Proof. solve_decision. Defined.

Definition is_valid_outcome (o : SessionReplayOutcome) : bool :=
  match o with NEW | EXPIRED | SESSION_TOO_LONG => true | _ => false end.

(** The parameters of the guard. *)
Record guard_config := GuardConfig {
  max_replay_window : Z;
  nonce_ttl : Z;
  max_nonces : Z;
  max_session_events : Z;
  max_nonce_length : Z;
}.

(** Its tables, in insertion order. *)
Record guard := Guard {
  nonces : list (str * Z);
  session_timestamps : list (str * Z);
  session_counts : list (str * Z);
}.

Definition empty_guard : guard := Guard [] [] [].

(** [ch in set(string.printable)] *)
Definition is_printable (c : Z) : bool := (9 <=? c) && (c <=? 13) || (32 <=? c) && (c <=? 126).

(** The loop of [_prune] over one table: at most [budget] entries older than [limit] go;
    returns the remaining entries, the keys removed and the budget that remains. *)
Fixpoint prune_table (now limit : Z) (budget : nat) (d : list (str * Z)) :
    list (str * Z) * list str * nat :=
  match d with
  | [] => ([], [], budget)
  | (k, t) :: d' =>
      match budget with
      | O => (d, [], O)
      | S budget' =>
          if limit <? now - t then
            let '(kept, gone, rest) := prune_table now limit budget' d' in (kept, k :: gone, rest)
          else
            let '(kept, gone, rest) := prune_table now limit budget d' in ((k, t) :: kept, gone, rest)
      end
  end.

Definition MAX_PRUNE : nat := Z.to_nat 5000.

(** [_prune]: the nonces first, then the sessions with their counts. *)
Definition prune (cfg : guard_config) (now : Z) (max_prune : nat) (g : guard) : guard :=
  let '(ns, _, rest) := prune_table now (nonce_ttl cfg) max_prune (nonces g) in
  let '(ss, gone, _) := prune_table now (max_replay_window cfg) rest (session_timestamps g) in
  Guard ns ss (foldl (λ cs k, dict_del k cs) (session_counts g) gone).

(** The part of [verify_and_record] after the nonce was stored. *)
Definition record_session (cfg : guard_config) (session_tag : option str) (now : Z) (g : guard) :
    result exn (SessionReplayOutcome * guard) :=
  match session_tag with
  | None => Ok (NEW, g)
  | Some tag =>
      match utf8_len tag with
      | None => Err UnicodeError
      | Some n =>
          if max_nonce_length cfg * 2 <? n then Ok (SESSION_TOO_LONG, g) else
          let g := if dict_has tag (session_timestamps g) then g
                   else Guard (nonces g) (dict_set tag now (session_timestamps g))
                          (dict_set tag 0 (session_counts g)) in
          match dict_get tag (session_timestamps g), dict_get tag (session_counts g) with
          | Some t, Some c =>
              if max_replay_window cfg <? now - t then Ok (EXPIRED, g) else
              let g := Guard (nonces g) (session_timestamps g) (dict_set tag (c + 1) (session_counts g)) in
              if max_session_events cfg <? c + 1 then Ok (SESSION_TOO_LONG, g) else Ok (NEW, g)
          | Some t, None =>
              if max_replay_window cfg <? now - t then Ok (EXPIRED, g) else Err (KeyError "session_tag")
          | None, _ => Err (KeyError "session_tag")
          end
      end
  end.

(** [verify_and_record]; an exception after the nonce was stored leaves it stored. *)
Definition verify_and_record (cfg : guard_config) (nonce : pyval) (session_tag : option str) (now : Z)
    (g : guard) : result exn SessionReplayOutcome * guard :=
  match nonce with
  | PStr ((_ :: _) as n) =>
      if max_nonce_length cfg <? zlen n then (Ok OVERSIZED_NONCE, g)
      else if negb (forallb is_printable n) then (Ok INVALID_NONCE, g)
      else
        let g := prune cfg now MAX_PRUNE g in
        if max_nonces cfg <=? zlen (nonces g) then (Ok STORAGE_FULL, g)
        else match dict_get n (nonces g) with
        | Some t => (Ok (if now - t <? nonce_ttl cfg then DUPLICATE else EXPIRED), g)
        | None =>
            let g := Guard (dict_set n now (nonces g)) (session_timestamps g) (session_counts g) in
            match record_session cfg session_tag now g with
            | Ok (o, g) => (Ok o, g)
            | Err e => (Err e, g)
            end
        end
  | _ => (Ok INVALID_NONCE, g)
  end.

(** [stats] and [reset] *)
Definition stats (g : guard) : Z * Z * Z :=
  (zlen (nonces g), zlen (session_timestamps g), foldr Z.add 0 (snd <$> session_counts g)).
Definition reset (g : guard) : guard := empty_guard.

(** A call of [verify_and_record]. *)
Record visit := Visit { v_nonce : pyval; v_session : option str; v_now : Z }.

Definition serve (cfg : guard_config) (g : guard) (v : visit) : guard :=
  snd (verify_and_record cfg (v_nonce v) (v_session v) (v_now v) g).

(** * Nonces are remembered for their time to live *)

Lemma prune_table_keeps now limit budget d k t :
  NoDup d.*1 → dict_get k d = Some t → now - t ≤ limit → dict_get k (prune_table now limit budget d).1.1 = Some t.
Proof.
  revert budget. induction d as [|[k' t'] d IH]; intros budget Hnd Hk Ht; [done|].
  cbn in Hnd. apply NoDup_cons in Hnd as [Hn Hnd]. cbn [prune_table].
  destruct budget as [|budget]; [done|]. cbn in Hk. destruct (decide (k = k')) as [->|Hne].
  - injection Hk as ->. destruct (Z.ltb_spec limit (now - t)); [lia|].
    destruct (prune_table now limit (S budget) d) as [[kept gone] rest]. cbn. by rewrite decide_True.
  - destruct (limit <? now - t').
    + specialize (IH budget Hnd Hk Ht). destruct (prune_table now limit budget d) as [[kept gone] rest]. done.
    + specialize (IH (S budget) Hnd Hk Ht). destruct (prune_table now limit (S budget) d) as [[kept gone] rest].
      cbn in *. by rewrite decide_False.
Qed.

Lemma prune_table_sublist now limit budget d : sublist (prune_table now limit budget d).1.1 d.
Proof.
  revert budget. induction d as [|[k t] d IH]; intros budget; cbn [prune_table]; [constructor|].
  destruct budget as [|budget]; [done|]. destruct (limit <? now - t).
  - specialize (IH budget). destruct (prune_table now limit budget d) as [[kept gone] rest]. by apply sublist_cons.
  - specialize (IH (S budget)). destruct (prune_table now limit (S budget) d) as [[kept gone] rest]. by apply sublist_skip.
Qed.

Lemma prune_nonces cfg now n g : nonces (prune cfg now n g) = (prune_table now (nonce_ttl cfg) n (nonces g)).1.1.
Proof.
  unfold prune. destruct (prune_table now (nonce_ttl cfg) n (nonces g)) as [[ns gone] rest].
  by destruct (prune_table now (max_replay_window cfg) rest (session_timestamps g)) as [[ss gs] ?].
Qed.

(** One entry per nonce, and no more entries than allowed. *)
Definition guard_ok (cfg : guard_config) (g : guard) : Prop :=
  NoDup (nonces g).*1 ∧ zlen (nonces g) ≤ Z.max 0 (max_nonces cfg).

Lemma record_session_nonces cfg tag now g o g' :
  record_session cfg tag now g = Ok (o, g') → nonces g' = nonces g.
Proof.
  unfold record_session. intros Hr. destruct tag as [tag|]; [|by simplify_eq].
  destruct (utf8_len tag) as [l|]; [|done]. destruct (max_nonce_length cfg * 2 <? l); [by simplify_eq|].
  set (g1 := if dict_has tag (session_timestamps g) then g else _) in Hr.
  assert (nonces g1 = nonces g) as Hg1 by (unfold g1; by destruct (dict_has tag (session_timestamps g))).
  clearbody g1.
  repeat case_match; simplify_eq; done.
Qed.

Lemma dict_set_new_keys {A} k (v : A) d : k ∉ d.*1 → (dict_set k v d).*1 = d.*1 ++ [k].
Proof.
  induction d as [|[k' v'] d IH]; [done|]. cbn. rewrite not_elem_of_cons. intros [Hne Hin].
  rewrite decide_False by done. cbn. by rewrite IH.
Qed.

(** What a visit does to the nonces: prune them, and possibly add its own. *)
Lemma serve_nonces cfg g v :
  nonces (serve cfg g v) = nonces g ∨
  let ns := (prune_table (v_now v) (nonce_ttl cfg) MAX_PRUNE (nonces g)).1.1 in
  nonces (serve cfg g v) = ns ∨
  ∃ n, dict_get n ns = None ∧ zlen ns < max_nonces cfg ∧ nonces (serve cfg g v) = dict_set n (v_now v) ns.
Proof.
  unfold serve, verify_and_record. rewrite <- (prune_nonces cfg (v_now v) MAX_PRUNE g).
  set (g1 := prune cfg (v_now v) MAX_PRUNE g). clearbody g1.
  destruct (v_nonce v) as [| | | |[|c n]| |]; try (by left).
  destruct (max_nonce_length cfg <? zlen (c :: n)); [by left|].
  destruct (negb (forallb is_printable (c :: n))); [by left|]. right. cbv zeta.
  destruct (Z.leb_spec (max_nonces cfg) (zlen (nonces g1))); [by left|].
  destruct (dict_get (c :: n) (nonces g1)) eqn:Hn; [by left|]. right. exists (c :: n). split_and!; [done|lia|].
  destruct (record_session _ _ _ _) as [[o g2]|] eqn:Hr; [|done]. by apply record_session_nonces in Hr.
Qed.

Lemma serve_ok cfg g v : guard_ok cfg g → guard_ok cfg (serve cfg g v).
Proof.
  intros [Hnd Hlen]. pose proof (prune_table_sublist (v_now v) (nonce_ttl cfg) MAX_PRUNE (nonces g)) as Hsub.
  set (ns := (prune_table (v_now v) (nonce_ttl cfg) MAX_PRUNE (nonces g)).1.1) in *.
  assert (NoDup ns.*1) as Hns by (eapply sublist_NoDup; [exact Hnd|by apply fmap_sublist]).
  assert (zlen ns ≤ zlen (nonces g)) as Hl by (apply sublist_length in Hsub; unfold zlen; lia).
  unfold guard_ok. destruct (serve_nonces cfg g v) as [->|[->|(n & Hn & Hlt & ->)]]; [done|fold ns; split; [done|lia]|].
  fold ns in Hn, Hlt |- *. apply dict_get_None in Hn. split.
  - rewrite dict_set_new_keys by done. apply NoDup_app. split_and!; [done| |apply NoDup_singleton].
    intros x Hx Hin. apply list_elem_of_singleton in Hin as ->. done.
  - pose proof (f_equal length (dict_set_new_keys n (v_now v) ns Hn)) as Hk.
    rewrite length_app, !length_fmap in Hk. unfold zlen in *. cbn in Hk. lia.
Qed.

(** A recorded nonce stays recorded until it is older than its time to live. *)
Lemma serve_remembers cfg g v n t :
  guard_ok cfg g → dict_get n (nonces g) = Some t → v_now v ≤ t + nonce_ttl cfg →
  dict_get n (nonces (serve cfg g v)) = Some t.
Proof.
  intros [Hnd _] Hn Hnow.
  assert (dict_get n (prune_table (v_now v) (nonce_ttl cfg) MAX_PRUNE (nonces g)).1.1 = Some t) as Hp
    by (apply prune_table_keeps; [done|done|lia]).
  destruct (serve_nonces cfg g v) as [->|[->|(m & Hm & _ & ->)]]; [done|done|].
  rewrite dict_get_set. destruct (decide (n = m)) as [->|]; [congruence|done].
Qed.

Lemma serve_all_remembers cfg vs g n t :
  guard_ok cfg g → dict_get n (nonces g) = Some t → Forall (λ v, v_now v ≤ t + nonce_ttl cfg) vs →
  guard_ok cfg (foldl (serve cfg) g vs) ∧ dict_get n (nonces (foldl (serve cfg) g vs)) = Some t.
Proof.
  intros Hok Hn Hvs. revert g Hok Hn. induction Hvs as [|v vs Hv _ IH]; intros g Hok Hn; [done|].
  cbn. apply IH; [by apply serve_ok|by apply serve_remembers].
Qed.

Lemma accepted_is_recorded cfg g n tag now :
  fst (verify_and_record cfg (PStr n) tag now g) = Ok NEW →
  dict_get n (nonces (serve cfg g (Visit (PStr n) tag now))) = Some now.
Proof.
  unfold serve, verify_and_record. cbn [v_nonce v_session v_now]. destruct n as [|c n]; [done|].
  destruct (max_nonce_length cfg <? zlen (c :: n)); [done|].
  destruct (negb (forallb is_printable (c :: n))); [done|]. cbv zeta.
  destruct (max_nonces cfg <=? _); [done|].
  destruct (dict_get (c :: n) (nonces (prune cfg now MAX_PRUNE g))); [by case_match|]. intros _.
  destruct (record_session _ _ _ _) as [[o g2]|] eqn:Hr; cbn.
  - apply record_session_nonces in Hr as ->. cbn. rewrite dict_get_set. by rewrite decide_True.
  - rewrite dict_get_set. by rewrite decide_True.
Qed.

(** C30. No replay within the time to live: once a visit has stored a nonce, a visit with
    that nonce before the time to live has passed is answered with an outcome that does
    not permit it, and at the last instant of the time to live with one other than
    [NEW], whatever visits with whatever clocks up to then come in between; and the guard
    never holds more nonces than allowed. *)
Theorem nonce_not_accepted_twice cfg g n tag now vs tag' now' :
  guard_ok cfg g →
  verify_and_record cfg (PStr n) tag now g = (Ok NEW, serve cfg g (Visit (PStr n) tag now)) →
  Forall (λ v, v_now v ≤ now + nonce_ttl cfg) vs → now' ≤ now + nonce_ttl cfg →
  let g' := foldl (serve cfg) (serve cfg g (Visit (PStr n) tag now)) vs in
  zlen (nonces g') ≤ Z.max 0 (max_nonces cfg) ∧
  ∃ o, fst (verify_and_record cfg (PStr n) tag' now' g') = Ok o ∧ o ≠ NEW ∧
    (now' < now + nonce_ttl cfg → is_valid_outcome o = false).
Proof.
  intros Hok Hnew Hvs Hnow' g'.
  assert (dict_get n (nonces (serve cfg g (Visit (PStr n) tag now))) = Some now) as Hn.
  { apply (accepted_is_recorded cfg g n tag now). by rewrite Hnew. }
  destruct (serve_all_remembers cfg vs _ n now (serve_ok cfg g _ Hok) Hn Hvs) as [[Hnd Hlen] Hg].
  split; [exact Hlen|]. unfold verify_and_record. destruct n as [|c n]; [by exists INVALID_NONCE|].
  destruct (max_nonce_length cfg <? zlen (c :: n)); [by exists OVERSIZED_NONCE|].
  destruct (negb (forallb is_printable (c :: n))); [by exists INVALID_NONCE|]. cbv zeta. rewrite prune_nonces.
  destruct (max_nonces cfg <=? _); [by exists STORAGE_FULL|].
  rewrite (prune_table_keeps _ _ _ _ _ now) by (done || lia). cbn.
  destruct (Z.ltb_spec (now' - now) (nonce_ttl cfg)); [by exists DUPLICATE|].
  exists EXPIRED. split_and!; [done|done|lia].
Qed.

(** * Witness *)

Definition sample_guard : guard_config := GuardConfig 600 900 16384 512 256.

Lemma nonce_not_accepted_twice_witness :
  let g1 := serve sample_guard empty_guard (Visit (PStr (lit "n1")) (Some (lit "s")) 10) in
  let g' := foldl (serve sample_guard) g1 [Visit (PStr (lit "n2")) None 400] in
  zlen (nonces g') ≤ Z.max 0 16384 ∧
  ∃ o, fst (verify_and_record sample_guard (PStr (lit "n1")) None 909 g') = Ok o ∧ o ≠ NEW ∧
    (909 < 10 + 900 → is_valid_outcome o = false).
Proof.
  apply (nonce_not_accepted_twice sample_guard empty_guard (lit "n1") (Some (lit "s")) 10
    [Visit (PStr (lit "n2")) None 400] None 909).
  - split; [constructor|vm_compute; discriminate].
  - vm_compute. reflexivity.
  - constructor; [vm_compute; discriminate|constructor].
  - vm_compute. discriminate.
Defined.
