(* ===== verification/Register.v ===== *)
(** Proof registration, [POST /api/proofs/register] of [backend/app.py]: the credential
    check of [require_register_auth] around the handler [register_proof_event], over the
    store of [ProofStore] and the credentials of [RegisterAuth].  The idempotency
    decorator between the two is the subject of [Idempotency].  Redaction of stored
    metadata, werkzeug's [secure_filename] and the time-attestation decoder are the
    methods of [RegisterEnv].  An early [return] of the code is an [Answer], an exception
    that leaves it a [Raise].

    The owner lookup and the insert of a request are separate transactions, between which
    other requests run: [register_proof_event] takes a store for each, and the runs are
    those of [registration_step].

    Shown: what a scoped credential can register, that the recorded owner of a proof
    never changes while no event is purged, and the ways around it: two racing requests,
    another letter case of the proof id, the purge of the owner's event, and a row of a
    lower id that becomes visible later. *)
From Stdlib Require Import ZArith Lia.
From stdpp Require Import base decidable strings numbers list relations.
From S2P Require Import Prelude PyStr Json PyVal Codec Sha256 Strkey ProofStore RegisterAuth.

Open Scope Z_scope.

#[local] Arguments lit _ : simpl never.

(** * Requests, configuration and replies *)

Record http_request := Request {
  authorization : option str;     (* the Authorization header *)
  content_length : Z;             (* request.content_length or 0 *)
  raw_length : Z;                 (* len(request.get_data()) *)
  json_body : pyval;              (* request.get_json(silent=True) *)
}.

Record app_config := AppConfig {
  register_api_key : option str;
  register_scoped_keys : list ScopedKey;
  register_api_key_previous : option str;
  register_api_key_expires : option Z;
  register_api_key_previous_expires : option Z;
  max_json_bytes : Z;
  max_metadata_bytes : Z;
  retention_classes : list (str * Z);
}.

(** An early answer: [jsonify({"error": message}), status] or [errors.error_response]. *)
Inductive refusal : Type :=
  | JsonError (status : Z) (message : str)
  | ErrorEnvelope (status : Z) (code message : str) (field : option string).

Inductive reply : Type :=
  | Refused (r : refusal)
  | Conflict (field : string)
  | Registered (row : proof_event) (created : bool).

Definition status_of (r : reply) : Z :=
  match r with
  | Refused (JsonError s _) | Refused (ErrorEnvelope s _ _ _) => s
  | Conflict _ => 409
  | Registered _ created => if created then 201 else 200
  end.

Inductive stop : Type := Answer (r : refusal) | Raise (e : exn).

Definition invalid {A} (message : str) : result stop A :=
  Err (Answer (ErrorEnvelope 400 (lit "VALIDATION_ERROR") message None)).
Definition json_error {A} (status : Z) (message : string) : result stop A :=
  Err (Answer (JsonError status (lit message))).

(** What the handler asks of other components after its insert. *)
Inductive effect : Type :=
  | InvalidateProof (pid : str)
  | QueueWebhookDeliveries (event_id : Z)
  | EnqueueVerifyTx (pid tx : str) (contract : option str).

(** Outcome of decoding and validating a time attestation. *)
Inductive attestation : Type :=
  | AttestationInvalid
  | AttestationError (text : str)
  | AttestationRaises (e : exn)
  | AttestationOk (encoded : pyval) (claimed : option str).

Class RegisterEnv := {
  secure_filename : str → str;
  redact_sensitive : list (str * pyval) → pyval;
  attest : pyval → str → attestation;
}.

Definition ALLOWED_TIERS : list str := [lit "silent"; lit "source"; lit "seal"].

Section handler.
Context `{Unicode} `{RegisterEnv}.

(** * Helpers of [app.py] *)

Definition is_hex_32 (value : pyval) : bool :=
  match value with PStr s => (zlen s =? 64) && bool_decide (is_Some (py_int 16 s)) | _ => false end.

Definition normalize_tx_hash (value : pyval) : result exn (option str) :=
  match value with
  | PNone => Ok None
  | PStr s =>
      let normalized := py_lower (py_strip s) in
      if is_hex_32 (PStr normalized) then Ok (Some normalized)
      else Err (ValueError "txHash must be a 32-byte hex string")
  | _ => Err (ValueError "txHash must be a 32-byte hex string")
  end.

Definition tx_status_error : string := "txStatus must be one of: pending, confirmed, failed, missing".
Definition normalize_tx_status (value : pyval) : result exn (option str) :=
  match value with
  | PNone => Ok None
  | PStr s =>
      let n := py_lower (py_strip s) in
      let is_in names := bool_decide (n ∈ map lit names) in
      if is_in ["pending"; "confirmed"; "failed"; "missing"]%string then Ok (Some n)
      else if is_in ["success"; "successful"; "succeeded"]%string then Ok (Some (lit "confirmed"))
      else if is_in ["failure"; "failed"; "error"; "errored"]%string then Ok (Some (lit "failed"))
      else if is_in ["not_found"; "notfound"]%string then Ok (Some (lit "missing"))
      else Err (ValueError tx_status_error)
  | _ => Err (ValueError tx_status_error)
  end.

(** [re.sub(r"[\s_\-]+", "_", stem)] *)
Definition is_separator (c : Z) : bool := py_space c || (c =? 95) || (c =? 45).
Fixpoint collapse (in_run : bool) (s : str) : str :=
  match s with
  | [] => []
  | c :: s => if is_separator c then (if in_run then [] else [95]) ++ collapse true s else c :: collapse false s
  end.

(** The stem and the extension at the last dot. *)
Definition split_ext (s : str) : str * str :=
  match partition_on 46 (rev s) with
  | None => (s, [])
  | Some (ext, stem) => (rev stem, 46 :: rev ext)
  end.

Definition normalize_filename (value : pyval) : option str :=
  match value with
  | PStr s =>
      if bool_decide (py_strip s = []) then None else
      match secure_filename s with
      | [] => None
      | sanitized =>
          let '(stem, ext) := split_ext (py_lower sanitized) in
          let stem := strip_by (λ c, (c =? 95) || (c =? 45)) (collapse false stem) in
          match stem with [] => None | _ => Some (take 160 (stem ++ ext)) end
      end
  | _ => None
  end.

(** * The credential check *)

Definition bearer_token (header : option str) : option str :=
  let h := default [] header in
  if starts_with (lit "Bearer ") h then Some (py_strip (drop (length (lit "Bearer ")) h)) else None.

(** The principal of a token, with the rotation and expiry rules. *)
Definition resolve_principal (cfg : app_config) (now : Z) (token : str) :
    result exn (option RegistrationPrincipal * bool) :=
  principal ← authenticate token (register_api_key cfg) (register_scoped_keys cfg);
  previous ← match register_api_key_previous cfg with
    | Some ((_ :: _) as k) => authenticate token (Some k) []
    | _ => Ok None
    end;
  let primary_expired := match register_api_key_expires cfg with Some t => t <=? now | None => false end in
  let principal := if primary_expired then None else principal in
  Ok (match principal, previous with
      | None, Some p =>
          match register_api_key_previous_expires cfg with
          | Some t => if now <? t then Some p else None
          | None => Some p
          end
      | _, _ => principal
      end, primary_expired).

(** A scoped principal must name its own address; a body that is not an object is left
    to the handler. *)
Definition check_scope (cfg : app_config) (req : http_request) (p : RegistrationPrincipal) : result stop unit :=
  if max_json_bytes cfg <? content_length req then json_error 413 "JSON payload exceeds size limit"
  else match json_body req with
  | PDict payload =>
      match validate_source_address (get_or_none (lit "sourceAddress") payload) with
      | Err _ => json_error 400 "sourceAddress must be a valid Stellar G-address"
      | Ok claimed =>
          allowed ← map_err Raise (scope_allows p claimed);
          if (allowed : bool) then Ok tt
          else Err (Answer (ErrorEnvelope 403 (lit "FORBIDDEN")
            (lit "credential is not authorized for this sourceAddress") (Some "sourceAddress"%string)))
      end
  | _ => Ok tt
  end.

(** The token of a request to its principal. *)
Definition authenticate_request (cfg : app_config) (now : Z) (req : http_request) : result stop RegistrationPrincipal :=
  match bearer_token (authorization req) with
  | None => json_error 401 "Authorization header with Bearer token is required"
  | Some token =>
      '(principal, primary_expired) ← map_err Raise (resolve_principal cfg now token);
      match principal with
      | None => json_error 401 (if (primary_expired : bool) then "API key has expired" else "Invalid API key")
      | Some p => Ok p
      end
  end.

(** [require_register_auth]: the principal the handler runs with, [None] when no
    credential is configured. *)
Definition require_register_auth (cfg : app_config) (now : Z) (req : http_request) :
    result stop (option RegistrationPrincipal) :=
  match register_api_key cfg, register_scoped_keys cfg with
  | None, [] => Ok None
  | _, _ =>
      p ← authenticate_request cfg now req;
      (if is_scoped p then check_scope cfg req p else Ok tt);;
      Ok (Some p)
  end.

(** * The handler *)

(** The validated fields of a registration. *)
Record registration := Registration {
  rg_video : str; rg_metadata : str; rg_proof : str; rg_tier : str;
  rg_tx : option str; rg_tx_status : option str;
  rg_source : option str; rg_contract : option str;
}.

(** [if not is_hex_32(value): return error] *)
Definition hex_field (name : string) (value : pyval) : result stop str :=
  match value with
  | PStr s => if is_hex_32 value then Ok s else invalid (lit name ++ lit " must be a 32-byte hex string")
  | _ => invalid (lit name ++ lit " must be a 32-byte hex string")
  end.

(** An exception whose text becomes the answer. *)
Definition or_400 {A} (m : result exn A) : result stop A :=
  match m with
  | Ok a => Ok a
  | Err (ValueError text) => Err (Answer (JsonError 400 (lit text)))
  | Err e => Err (Raise e)
  end.

Definition parse_registration (payload : list (str * pyval)) : result stop registration :=
  let get k := get_or_none (lit k) payload in
  video ← hex_field "videoHash" (get "videoHash"%string);
  metadata ← hex_field "metadataHash" (get "metadataHash"%string);
  proof ← hex_field "proofId" (get "proofId"%string);
  known ← map_err Raise (in_str_set (get "tier"%string) ALLOWED_TIERS);
  (if (known : bool) then Ok tt else invalid (lit "tier must be one of: silent, source, seal"));;
  tx ← or_400 (normalize_tx_hash (get "txHash"%string));
  status ← or_400 (normalize_tx_status (get "txStatus"%string));
  source ← or_400 (validate_source_address (get "sourceAddress"%string));
  contract ← or_400 (validate_contract_id (get "contractId"%string));
  Ok (Registration video metadata proof
        (match get "tier"%string with PStr t => t | _ => [] end) tx
        (match tx with Some _ => Some (lit "pending") | None => status end) source contract).

(** The ownership check of a scoped credential. *)
Definition check_owner (principal : option RegistrationPrincipal) (s : store) (r : registration) : result stop unit :=
  match principal with
  | Some p =>
      if is_scoped p then
        match find_proof_owner (rg_proof r) s with
        | Some owner =>
            if bool_decide (Some owner = rg_source r) then Ok tt
            else Err (Answer (ErrorEnvelope 403 (lit "FORBIDDEN") (lit "proof is registered to a different owner")
              (Some "proofId"%string)))
        | None => Ok tt
        end
      else Ok tt
  | None => Ok tt
  end.

Definition time_attestation_of (payload : list (str * pyval)) (video : str) : result stop (option pyval * option str) :=
  match dict_get (lit "timeAttestation") payload with
  | None => Ok (None, None)
  | Some v =>
      match attest v video with
      | AttestationInvalid => invalid (lit "Invalid time attestation")
      | AttestationError text => invalid (lit "Time attestation error: " ++ text)
      | AttestationRaises e => Err (Raise e)
      | AttestationOk encoded claimed => Ok (Some encoded, claimed)
      end
  end.

(** The retention class and the expiry it gives. *)
Definition retention_of (cfg : app_config) (payload : list (str * pyval)) (now : Z) : result stop (str * option Z) :=
  let class := default (PStr (lit "default")) (dict_get (lit "retentionClass") payload) in
  known ← map_err Raise (in_str_set class (retention_classes cfg).*1);
  match class with
  | PStr c =>
      if negb known then invalid (lit "invalid retention class: " ++ c) else
      let days := default 0 (dict_get c (retention_classes cfg)) in
      Ok (c, if 0 <=? days then Some (now + days * 86400) else None)
  | v => invalid (lit "invalid retention class: " ++ py_str v)
  end.

Definition registration_event (payload : list (str * pyval)) (r : registration)
    (att : option pyval * option str) (ret : str * option Z) : event_data :=
  EventData (lit "register") (normalize_filename (get_or_none (lit "fileName") payload)) (Some (rg_video r))
    (Some (rg_metadata r)) (Some (rg_proof r)) (Some (rg_tier r)) None (rg_tx r) (rg_tx_status r) (rg_source r)
    (rg_contract r) (Some ret.1) ret.2 (Some (redact_sensitive payload)) att.1 att.2 None None.

(** Everything before the insert. *)
Definition prepare_registration (cfg : app_config) (principal : option RegistrationPrincipal) (now : Z)
    (req : http_request) (s : store) : result stop (registration * str * event_data) :=
  if max_json_bytes cfg <? raw_length req then json_error 413 "JSON payload exceeds size limit" else
  match json_body req with
  | PDict payload =>
      if max_metadata_bytes cfg <? zlen (print_value true (PDict payload))
      then Err (Answer (ErrorEnvelope 413 (lit "PAYLOAD_TOO_LARGE") (lit "registration payload is too large") None))
      else
        r ← parse_registration payload;
        check_owner principal s r;;
        att ← time_attestation_of payload (rg_video r);
        key ← map_err Raise (make_idempotency_key (rg_video r) (rg_proof r) (rg_tx r));
        ret ← retention_of cfg payload now;
        Ok (r, key, registration_event payload r att ret)
  | _ => invalid (lit "JSON body is required")
  end.

(** The insert and what follows it. *)
Definition record_registration (s : store) (r : registration) (key : str) (d : event_data) (now : Z) :
    store * list effect * reply :=
  match upsert_register_event s key d now with
  | (s, Err c) => (s, [], Conflict (conflict_field c))
  | (s, Ok (row, created)) =>
      (s, if created then
            [InvalidateProof (rg_proof r); QueueWebhookDeliveries (ev_id row)] ++
            match rg_tx r with Some tx => [EnqueueVerifyTx (rg_proof r) tx (rg_contract r)] | None => [] end
          else [], Registered row created)
  end.

(** [register_proof_event] behind [require_register_auth] up to its insert; [s] is the
    store the owner lookup reads. *)
Definition begin_registration (cfg : app_config) (now : Z) (req : http_request) (s : store) :
    result stop (registration * str * event_data) :=
  principal ← require_register_auth cfg now req; prepare_registration cfg principal now req s.

(** [register_proof_event]: the store it leaves, the effects it asks for and its outcome.
    The owner lookup and the insert are two transactions: the first reads [s0], the second
    runs at [later] on the store [s] that other requests have left by then. *)
Definition register_proof_event (cfg : app_config) (now : Z) (req : http_request) (s0 : store) (later : Z) (s : store) :
    store * list effect * result exn reply :=
  match begin_registration cfg now req s0 with
  | Err (Answer r) => (s, [], Ok (Refused r))
  | Err (Raise e) => (s, [], Err e)
  | Ok (r, key, d) => let '(s, fx, a) := record_registration s r key d later in (s, fx, Ok a)
  end.
End handler.

(** * Ownership *)

(** What changes the store besides registrations and the purge. *)
Inductive operation : Type :=
  | OpInsert (d : event_data)
  | OpIndexed (tx : str) (idx : Z) (d : event_data)
  | OpHistory (h : Z → history_event)
  | OpHold (pid : str) (hold : bool).

Definition run_operation (s : store) (now : Z) (op : operation) : store :=
  match op with
  | OpInsert d => (insert_proof_event s d now).1
  | OpIndexed tx idx d => (insert_indexed_proof_event s tx idx d now).1
  | OpHistory h => (insert_proof_history_event s h).1
  | OpHold pid hold => set_legal_hold s pid hold
  end.

(** The store, and the registrations that passed their checks and did not insert yet. *)
Record world := World { w_store : store; w_pending : list (registration * str * event_data) }.

Section ownership.
Context `{Unicode} `{RegisterEnv}.

(** Requests interleave between their lookup and their insert.  Transactions take effect one
    after the other, in the order of the ids they draw. *)
Inductive registration_step (cfg : app_config) : world → world → Prop :=
  | step_begin w now req p :
      begin_registration cfg now req (w_store w) = Ok p →
      registration_step cfg w (World (w_store w) (w_pending w ++ [p]))
  | step_insert w i r key d now :
      w_pending w !! i = Some (r, key, d) →
      registration_step cfg w (World (record_registration (w_store w) r key d now).1.1 (delete i (w_pending w)))
  | step_lost w i : registration_step cfg w (World (w_store w) (delete i (w_pending w)))
  | step_operation w now op : registration_step cfg w (World (run_operation (w_store w) now op) (w_pending w)).

Lemma owner_append pid s s' new o :
  events s' = events s ++ new → find_proof_owner pid s = Some o → find_proof_owner pid s' = Some o.
Proof.
  unfold find_proof_owner. intros ->. rewrite filter_app. by destruct (filter _ (events s)).
Qed.

Lemma owner_next pid s s' e o :
  events s' = events s ++ [e] → registers pid e = true → source_address (ev e) = Some o →
  find_proof_owner pid s' = Some (default o (find_proof_owner pid s)).
Proof.
  intros He Hr Ho. unfold find_proof_owner in *. rewrite He, filter_app.
  destruct (filter _ (events s)) as [|e' l] eqn:Hf.
  - cbn [app]. by rewrite filter_cons_True.
  - assert (e' ∈ filter (λ e, registers pid e = true) (events s)) as Hin by (rewrite Hf; by left).
    apply list_elem_of_filter in Hin as [Hin _]. unfold registers in Hin. bool_inv.
    match goal with H : is_Some _ |- _ => destruct H as [x Hx] end. cbn [app]. by rewrite Hx.
Qed.

Lemma owner_hold pid s pid' hold : find_proof_owner pid (set_legal_hold s pid' hold) = find_proof_owner pid s.
Proof.
  unfold find_proof_owner, set_legal_hold. cbn. set (f := λ e : proof_event, if bool_decide _ then _ else _).
  assert (∀ e, ev (f e) = ev e) as Hf by (intros e; unfold f; by case_match).
  induction (events s) as [|e l IH]; [done|]. cbn [map]. rewrite !filter_cons.
  assert (registers pid (f e) = registers pid e) as -> by (unfold registers; by rewrite Hf).
  destruct (decide (registers pid e = true)); [by rewrite Hf|done].
Qed.

Lemma upsert_events s key d now : ∃ new, events (upsert_register_event s key d now).1 = events s ++ new.
Proof. unfold upsert_register_event. destruct (find_key key s); cbn; [exists []; by rewrite app_nil_r|eauto]. Qed.

Lemma record_events s r key d now : ∃ new, events (record_registration s r key d now).1.1 = events s ++ new.
Proof.
  unfold record_registration. destruct (upsert_events s key d now) as [new Hnew].
  destruct (upsert_register_event s key d now) as [s1 [[row created]|c]]; cbn in *; eauto.
Qed.

Lemma step_keeps_owner cfg w w' pid o :
  registration_step cfg w w' → find_proof_owner pid (w_store w) = Some o → find_proof_owner pid (w_store w') = Some o.
Proof.
  intros [| w1 i r key d now _| |w1 now [d|tx idx d|h|pid' hold]] Ho; cbn [w_store run_operation] in *; try done.
  - destruct (record_events (w_store w1) r key d now) as [new Hnew]. by eapply owner_append.
  - by eapply owner_append.
  - unfold insert_indexed_proof_event. destruct (find_indexed tx idx (w_store w1)); [done|]. by eapply owner_append.
  - by rewrite owner_hold.
Qed.

Lemma run_keeps_owner cfg w w' pid o :
  rtc (registration_step cfg) w w' → find_proof_owner pid (w_store w) = Some o → find_proof_owner pid (w_store w') = Some o.
Proof. induction 1; eauto using step_keeps_owner. Qed.

(** The request of a scoped credential names its own address. *)
Lemma check_scope_names cfg req o payload :
  check_scope cfg req (Principal (Some o)) = Ok tt → json_body req = PDict payload →
  validate_source_address (get_or_none (lit "sourceAddress") payload) = Ok (Some o).
Proof.
  unfold check_scope. intros Hs Hb. rewrite Hb in Hs. destruct (max_json_bytes cfg <? content_length req); [done|].
  destruct (validate_source_address _) as [claimed|]; [|done]. apply bind_ok in Hs as (allowed & Hs & Ha).
  destruct allowed; [|done]. destruct claimed as [c|]; [|done].
  unfold scope_allows, encode_ascii in Hs. cbn in Hs.
  destruct (forallb is_ascii o); [|done]. destruct (forallb is_ascii c); [|done]. cbn in Hs. injection Hs as Hs.
  apply bool_decide_eq_true in Hs as ->. done.
Qed.

Lemma auth_names_owner cfg now req o payload :
  require_register_auth cfg now req = Ok (Some (Principal (Some o))) → json_body req = PDict payload →
  validate_source_address (get_or_none (lit "sourceAddress") payload) = Ok (Some o).
Proof.
  intros Ha Hb. apply (check_scope_names cfg req); [|done].
  assert ((p ← authenticate_request cfg now req;
      (if is_scoped p then check_scope cfg req p else Ok tt);; Ok (Some p)) = Ok (Some (Principal (Some o)))) as Hr.
  { unfold require_register_auth in Ha. destruct (register_api_key cfg); [done|]. by destruct (register_scoped_keys cfg). }
  apply bind_ok in Hr as (p & _ & (u & Hp & [= ->])%bind_ok). by destruct u.
Qed.

Lemma parse_registration_source payload r :
  parse_registration payload = Ok r →
  validate_source_address (get_or_none (lit "sourceAddress") payload) = Ok (rg_source r).
Proof.
  unfold parse_registration. intros (v & _ & (m & _ & (p & _ & (k & _ & (u & _ & (tx & _ & (st & _ & (src & Hs & (c & _ &
    [= <-])%bind_ok)%bind_ok)%bind_ok)%bind_ok)%bind_ok)%bind_ok)%bind_ok)%bind_ok)%bind_ok. cbn.
  unfold or_400 in Hs. destruct (validate_source_address _) as [a|[]]; by simplify_eq.
Qed.

Lemma conflict_of_none a b :
  conflict_of a b = None → proof_id a = proof_id b ∧ source_address a = source_address b.
Proof.
  unfold conflict_of. destruct (list_find _ CONFLICT_FIELDS) as [[i f]|] eqn:Hf; [done|]. intros _.
  apply list_find_None in Hf. unfold CONFLICT_FIELDS in Hf. rewrite !Forall_cons in Hf. cbn in Hf.
  destruct Hf as (_ & _ & Hp & _ & Hs & _). split; by apply dec_stable.
Qed.

(** What the checks before the insert say of a scoped credential's registration. *)
Lemma begin_scoped cfg now req o s r key d :
  require_register_auth cfg now req = Ok (Some (Principal (Some o))) → begin_registration cfg now req s = Ok (r, key, d) →
  rg_source r = Some o ∧ (find_proof_owner (rg_proof r) s = None ∨ find_proof_owner (rg_proof r) s = Some o) ∧
  proof_id d = Some (rg_proof r) ∧ source_address d = Some o.
Proof.
  intros Ha. unfold begin_registration. rewrite Ha, bind_Ok. unfold prepare_registration. intros Hp.
  destruct (max_json_bytes cfg <? raw_length req); [done|].
  destruct (json_body req) as [| | | | | |payload] eqn:Hb; try done. destruct (max_metadata_bytes cfg <? _); [done|].
  apply bind_ok in Hp as (r' & Hr & (u & Ho & (att & _ & (key' & _ & (ret & _ & [= -> -> <-])%bind_ok)%bind_ok)%bind_ok)%bind_ok).
  pose proof (auth_names_owner cfg now req o payload Ha Hb) as Hsrc.
  apply parse_registration_source in Hr as Hsrc'. rewrite Hsrc in Hsrc'. injection Hsrc' as Hsrc'.
  split_and!; [done| |done|by rewrite Hsrc'].
  unfold check_owner in Ho. cbn in Ho. destruct (find_proof_owner (rg_proof r) s) as [owner|]; [|by left]. right.
  destruct (bool_decide (Some owner = rg_source r)) eqn:Hd; [|done]. bool_inv. congruence.
Qed.

(** What the insert answers: the row carries the proof and the address of the event, and a
    new one makes its address the owner when the proof had none by then. *)
Lemma record_answers s r key d now s' fx row created pid o :
  proof_id d = Some pid → source_address d = Some o →
  record_registration s r key d now = (s', fx, Registered row created) →
  proof_id (ev row) = Some pid ∧ source_address (ev row) = Some o ∧
  if created then find_proof_owner pid s' = Some (default o (find_proof_owner pid s)) else s' = s.
Proof.
  intros Hp Ho. unfold record_registration, upsert_register_event. destruct (find_key key s) as [row0|].
  - destruct (conflict_of (ev row0) _) eqn:Hc; [by intros [=]|]. intros [= <- _ <- <-].
    apply conflict_of_none in Hc as [Hcp Hcs]. split_and!; congruence.
  - cbn [insert_row fst snd]. intros [= <- _ <- <-]. cbn [ev proof_id source_address]. split_and!; [done..|].
    eapply (owner_next pid s); [done| |done]. unfold registers. cbn [ev proof_id source_address event_type].
    rewrite Hp, Ho. by rewrite !bool_decide_eq_true_2.
Qed.

(** A new row holds the hash, the attestation and the claimed time the handler derived. *)
Lemma created_row cfg now req payload s0 later s s' fx row :
  json_body req = PDict payload →
  register_proof_event cfg now req s0 later s = (s', fx, Ok (Registered row true)) →
  row ∈ events s' ∧ ∃ r att, time_attestation_of payload (rg_video r) = Ok att ∧
    video_hash (ev row) = Some (rg_video r) ∧ time_attestation (ev row) = att.1 ∧ claimed_capture_time (ev row) = att.2.
Proof.
  intros Hb. unfold register_proof_event, begin_registration.
  destruct (mbind _ _) as [[[r key] d]|[a|e]] eqn:Hp; [|by intros [=]|done].
  apply bind_ok in Hp as (principal & _ & Hp). unfold prepare_registration in Hp. rewrite Hb in Hp.
  destruct (max_json_bytes cfg <? raw_length req); [done|]. destruct (max_metadata_bytes cfg <? _); [done|].
  apply bind_ok in Hp as (r' & _ & (u & _ & (att & Hatt & (key' & _ & (ret & _ & [= -> -> <-])%bind_ok)%bind_ok)%bind_ok)%bind_ok).
  unfold record_registration, upsert_register_event. destruct (find_key key s); [by destruct (conflict_of _ _)|].
  cbn [insert_row fst snd]. intros [= <- _ <-]. split; [|by exists r, att]. cbn [events]. apply elem_of_app. right. by left.
Qed.

(** C2. Ownership of proofs under interleaved requests, whose owner lookup and insert are
    separate transactions.  Once the store records an owner for a proof, no run of
    registrations (with whatever credentials), inserts, indexed events and holds changes it
    (no event is purged, and transactions take effect in the order of their ids).  A request
    whose credential is scoped to an owner and that is answered with a row looked the proof
    up when it had no owner or that owner, and the row is of the proof under that owner's
    address; whatever happened between the lookup and the insert, a new row makes its address
    the owner exactly when the proof still had none, and no new row leaves the store alone. *)
Theorem registered_owner_is_stable cfg w0 w :
  rtc (registration_step cfg) w0 w →
  (∀ pid o, find_proof_owner pid (w_store w0) = Some o → find_proof_owner pid (w_store w) = Some o) ∧
  (∀ now req later o s' fx row created,
    require_register_auth cfg now req = Ok (Some (Principal (Some o))) →
    register_proof_event cfg now req (w_store w0) later (w_store w) = (s', fx, Ok (Registered row created)) →
    source_address (ev row) = Some o ∧ ∃ pid, proof_id (ev row) = Some pid ∧
      (find_proof_owner pid (w_store w0) = None ∨ find_proof_owner pid (w_store w0) = Some o) ∧
      if created then find_proof_owner pid s' = Some (default o (find_proof_owner pid (w_store w))) else s' = w_store w).
Proof.
  intros Hrun. split; [eauto using run_keeps_owner|].
  intros now req later o s' fx row created Ha. unfold register_proof_event.
  destruct (begin_registration _ _ _ _) as [[[r key] d]|[a|e]] eqn:Hb; [|by intros [=]|done].
  destruct (record_registration _ _ _ _ _) as [[s1 fx1] a] eqn:Hr. intros [= -> -> ->].
  destruct (begin_scoped cfg now req o _ r key d Ha Hb) as (_ & Hown & Hp & Hs).
  destruct (record_answers _ _ _ _ _ _ _ _ _ _ _ Hp Hs Hr) as (Hrp & Hrs & Hc). eauto.
Qed.
End ownership.

(** * Limits of ownership *)

Definition owned_event (pid owner : str) (expiry : option Z) : event_data :=
  EventData (lit "register") None None None (Some pid) None None None None (Some owner) None None expiry None None None None None.

(** Retention hands a proof to the next registrant: when the event of the owner expires
    and is purged, the owner is whoever registered the proof next. *)
Lemma purge_reassigns_owner pid a b :
  let s := (insert_row (insert_row empty_store (owned_event pid a (Some 10)) 0).1 (owned_event pid b None) 1).1 in
  find_proof_owner pid s = Some a ∧ find_proof_owner pid (purge_expired_events 10 100 s).1 = Some b.
Proof.
  assert (∀ i o x h t, registers pid (ProofEvent i (owned_event pid o x) h t) = true) as Hr.
  { intros. unfold registers. cbn. rewrite !bool_decide_eq_true_2; done || by eexists. }
  cbv zeta. split.
  - unfold find_proof_owner. cbn [insert_row empty_store events fst app next_event Z.add]. by rewrite filter_cons_True.
  - unfold find_proof_owner, purge_expired_events.
    cbn [insert_row empty_store events fst app next_event next_receipt].
    rewrite (filter_cons_True (λ e, expired 10 e = true)) by done.
    rewrite (filter_cons_False (λ e, expired 10 e = true)), filter_nil by done.
    match goal with |- context [take ?n [?e]] => change (take n [e]) with [e] end. rewrite fmap_cons. cbn [fmap list_fmap ev_id].
    rewrite filter_cons_False by (intros Hn; apply Hn; by left). rewrite filter_cons_True, filter_nil by (rewrite list_elem_of_singleton; done).
    by rewrite filter_cons_True.
Qed.

(** Ids are drawn at the insert and not at the commit: when a row with a lower id becomes
    visible after that of the recorded owner, its address is the owner from then on. *)
Lemma late_commit_reassigns_owner pid a b s s' :
  let row i o := ProofEvent i (owned_event pid o None) false 0 in
  events s = [row 2 b] → events s' = [row 1 a; row 2 b] →
  find_proof_owner pid s = Some b ∧ find_proof_owner pid s' = Some a.
Proof.
  intros row Hs Hs'. assert (∀ i o, registers pid (row i o) = true) as Hr.
  { intros. unfold registers. cbn. rewrite !bool_decide_eq_true_2; done || by eexists. }
  unfold find_proof_owner. rewrite Hs, Hs'. by rewrite !filter_cons_True.
Qed.

(** * Two requests at once *)

Section race.
#[local] Existing Instance plain_unicode.
#[local] Instance race_env : RegisterEnv := {|
  secure_filename := id; redact_sensitive := PDict; attest := λ _ _, AttestationInvalid |}.

Definition race_account (k : Z) : str := from_ok [] (make_strkey VERSION_BYTE_ED25519_PUBLIC (replicate 32 k)).
Definition race_config : app_config :=
  AppConfig None [MkScopedKey (Some (race_account 1)) (sha256 (lit "alice")); MkScopedKey (Some (race_account 2)) (sha256 (lit "bob"))]
    None None None 4096 4096 [(lit "default", 30)].
Definition race_request (token : string) (k : Z) : http_request :=
  Request (Some (lit "Bearer " ++ lit token)) 300 300 (PDict
    [(lit "videoHash", PStr (replicate 64 97)); (lit "metadataHash", PStr (replicate 64 98)); (lit "proofId", PStr (replicate 64 99));
     (lit "tier", PStr (lit "seal")); (lit "txHash", PStr (replicate 64 (100 + k))); (lit "sourceAddress", PStr (race_account k))]).

Definition race_store : store := (register_proof_event race_config 5 (race_request "alice" 1) empty_store 6 empty_store).1.1.

(** What a reply registers: the address of its row and whether the row is new. *)
Definition registers_for (r : result exn reply) : option (option str * bool) :=
  match r with Ok (Registered row created) => Some (source_address (ev row), created) | _ => None end.

(** Two credentials scoped to different addresses that look an unowned proof up at once both
    register it; the first insert is the owner, and the second is answered 201 for a proof
    that a request after it would be refused. *)
Example racing_registrations_share_proof :
  let '(s, _, a) := register_proof_event race_config 5 (race_request "bob" 2) empty_store 7 race_store in
  find_proof_owner (replicate 64 99) race_store = Some (race_account 1) ∧
  registers_for a = Some (Some (race_account 2), true) ∧
  find_proof_owner (replicate 64 99) s = Some (race_account 1) ∧ length (events s) = 2%nat ∧
  status_of (from_ok (Conflict "none") (register_proof_event race_config 5 (race_request "bob" 2) race_store 7 race_store).2) = 403.
Proof. vm_compute. split_and!; reflexivity. Qed.

(** A request that nothing disturbs is a run. *)
Lemma undisturbed_run cfg now req later s :
  rtc (registration_step cfg) (World s []) (World (register_proof_event cfg now req s later s).1.1 []).
Proof.
  unfold register_proof_event. destruct (begin_registration cfg now req s) as [[[r key] d]|[a|e]] eqn:Hb; try done.
  eapply rtc_l; [by apply (step_begin cfg (World s []) now req)|]. eapply rtc_once. cbn [w_store w_pending app].
  pose proof (step_insert cfg (World s [(r, key, d)]) 0 r key d later eq_refl) as Hs. cbn [w_store w_pending] in Hs.
  by destruct (record_registration s r key d later) as [[s1 fx] a].
Qed.

Lemma bob_is_scoped :
  require_register_auth race_config 5 (race_request "bob" 2) = Ok (Some (Principal (Some (race_account 2)))).
Proof. vm_compute. reflexivity. Qed.

Lemma registered_owner_is_stable_witness :
  find_proof_owner (replicate 64 99) race_store = Some (race_account 1) ∧
  ∀ s' fx row created,
    register_proof_event race_config 5 (race_request "bob" 2) empty_store 7 race_store = (s', fx, Ok (Registered row created)) →
    source_address (ev row) = Some (race_account 2).
Proof.
  split; [vm_compute; reflexivity|]. intros s' fx row created He.
  exact (proj1 (proj2 (registered_owner_is_stable race_config (World empty_store []) (World race_store [])
    (undisturbed_run race_config 5 (race_request "alice" 1) 6 empty_store))
    5 (race_request "bob" 2) 7 (race_account 2) s' fx row created bob_is_scoped He)).
Defined.
End race.
