(* ===== verification/EvidenceStorage.v ===== *)
(** Encrypted evidence blobs: [backend/evidence_storage.py] with its two tables of
    [backend/migration.py] (migration 5) and the collection loop of [backend/retention.py].
    A statement of a committed transaction is atomic; the tables are finite maps from
    their primary keys, files are the set of existing paths, and the paths whose [unlink]
    fails are an argument.  Fernet is the class [Fernet].

    Shown: the reference table is a multiset of references and every operation acts on it
    as on one; a referenced blob is never collected and keeps its row and file whatever
    the history; the collection loop ends with no collectable blob left; a run that dies
    half-way is completed by the next one; a wrapped key is recovered under the same
    master key, and never without one. *)
From Stdlib Require Import ZArith Lia Sorted.
From stdpp Require Import base decidable strings numbers gmap gmultiset sets list sorting relations.
From S2P Require Import Prelude PyStr Codec.

Open Scope Z_scope.

#[local] Arguments lit _ : simpl never.

(** * Tables and files *)

Record blob := Blob {
  encrypted_dek : str;
  size_bytes : Z;
  storage_path : str;
  created_at : Z;
}.

Record vault := Vault {
  blobs : gmap str blob;                     (* by content_hash *)
  tenant_blob_refs : gmap (str * str) Z;     (* by tenant_id, content_hash: ref_count *)
}.

(** What the database, or the decoding of a parameter, raises. *)
Inductive db_error := ForeignKeyViolation | OutOfRange | UnicodeDecodeError.

#[export] Instance db_error_eq_dec : EqDecision db_error.
Proof. solve_decision. Defined.

Definition INT_MAX : Z := 2 ^ 31 - 1.
Definition BIGINT_MAX : Z := 2 ^ 63 - 1.

(** * Operations *)

Definition record_blob (v : vault) (content_hash : str) (dek : bytes) (size : Z) (path : str) (now : Z)
    : result db_error vault :=
  match utf8_decode dek with
  | None => Err UnicodeDecodeError
  | Some dek =>
      if (size <? - BIGINT_MAX - 1) || (BIGINT_MAX <? size) then Err OutOfRange
      else Ok match blobs v !! content_hash with
              | Some _ => v                                             (* on conflict do nothing *)
              | None => Vault (<[content_hash := Blob dek size path now]> (blobs v)) (tenant_blob_refs v)
              end
  end.

Definition record_tenant_ref (v : vault) (tenant_id content_hash : str) : result db_error vault :=
  match tenant_blob_refs v !! (tenant_id, content_hash) with
  | Some n =>
      if n + 1 <=? INT_MAX
      then Ok (Vault (blobs v) (<[(tenant_id, content_hash) := n + 1]> (tenant_blob_refs v)))
      else Err OutOfRange
  | None =>
      match blobs v !! content_hash with
      | Some _ => Ok (Vault (blobs v) (<[(tenant_id, content_hash) := 1]> (tenant_blob_refs v)))
      | None => Err ForeignKeyViolation
      end
  end.

Definition remove_tenant_ref (v : vault) (tenant_id content_hash : str) : vault * bool :=
  match tenant_blob_refs v !! (tenant_id, content_hash) with
  | None => (v, false)
  | Some ref_count =>
      if 1 <? ref_count
      then (Vault (blobs v) (<[(tenant_id, content_hash) := ref_count - 1]> (tenant_blob_refs v)), true)
      else (Vault (blobs v) (delete (tenant_id, content_hash) (tenant_blob_refs v)), true)
  end.

Definition get_blob_info (v : vault) (content_hash : str) : option (str * str) :=
  (λ b, (encrypted_dek b, storage_path b)) <$> blobs v !! content_hash.

(** The [where] clause of the collector, negated: a row with [ref_count > 0] exists. *)
Definition referenced (v : vault) (content_hash : str) : bool :=
  existsb (λ r : (str * str) * Z, bool_decide (r.1.2 = content_hash) && (0 <? r.2))
    (map_to_list (tenant_blob_refs v)).

(** [order by created_at asc] *)
Definition older (r s : str * blob) : Prop := created_at r.2 ≤ created_at s.2.

#[export] Instance older_dec : RelDecision older.
Proof. intros r s. apply Z.le_dec. Defined.

Definition select_unreferenced (v : vault) (limit : Z) : list (str * blob) :=
  take (Z.to_nat limit)
    (merge_sort older (filter (λ r : str * blob, referenced v r.1 = false) (map_to_list (blobs v)))).

(** [delete from blobs], with [on delete cascade] on the references. *)
Definition delete_blob (v : vault) (content_hash : str) : vault :=
  Vault (delete content_hash (blobs v))
        (filter (λ r : (str * str) * Z, r.1.2 ≠ content_hash) (tenant_blob_refs v)).

Record world := World { db : vault; files : gset str }.

(** The deletion of a row's file: [None] for an [OSError] other than
    [FileNotFoundError]. *)
Definition unlink_blob (fails : str → bool) (path : str) (fs : gset str) : option (gset str) :=
  if bool_decide (path = []) then Some fs
  else if fails path then None else Some (fs ∖ {[path]}).

Definition collect_row (fails : str → bool) (st : world * Z) (row : str * blob) : world * Z :=
  let '(w, collected) := st in
  match unlink_blob fails (storage_path row.2) (files w) with
  | None => (w, collected)
  | Some fs => (World (delete_blob (db w) row.1) fs, collected + 1)
  end.

Definition collect_rows (fails : str → bool) (w : world) (rows : list (str * blob)) : world * Z :=
  foldl (collect_row fails) (w, 0) rows.

Definition collect_unreferenced_blobs (fails : str → bool) (limit : Z) (w : world) : world * Z :=
  if limit <? 1 then (w, 0) else collect_rows fails w (select_unreferenced (db w) limit).

(** The collection loop of [RetentionWorker._purge]; what fails to be deleted may differ
    from one iteration to the next, and [None] means that more iterations are needed. *)
Fixpoint blob_gc (fails : list (str → bool)) (batch_size : Z) (w : world) : option world :=
  match fails with
  | [] => None
  | f :: fails =>
      let '(w, purged_blobs) := collect_unreferenced_blobs f batch_size w in
      if purged_blobs <? batch_size then Some w else blob_gc fails batch_size w
  end.

(** * Histories *)

Inductive op :=
  | OpWrite (path : str)                                    (* a writer stores a blob's file *)
  | OpBlob (content_hash : str) (dek : bytes) (size : Z) (path : str) (now : Z)
  | OpRef (tenant_id content_hash : str)
  | OpUnref (tenant_id content_hash : str)
  | OpCollect (fails : str → bool) (limit : Z).

Inductive op_result := Done | Answered (b : bool) | Collected (n : Z) | Raised (e : db_error).

(** A failed statement leaves the tables as they were. *)
Definition attempt (w : world) (r : result db_error vault) : world * op_result :=
  match r with Ok v => (World v (files w), Done) | Err e => (w, Raised e) end.

Definition run_op (w : world) (o : op) : world * op_result :=
  match o with
  | OpWrite path => (World (db w) ({[path]} ∪ files w), Done)
  | OpBlob h dek size path now => attempt w (record_blob (db w) h dek size path now)
  | OpRef t h => attempt w (record_tenant_ref (db w) t h)
  | OpUnref t h => let '(v, b) := remove_tenant_ref (db w) t h in (World v (files w), Answered b)
  | OpCollect fails limit =>
      let '(w, n) := collect_unreferenced_blobs fails limit w in (w, Collected n)
  end.

Fixpoint run (w : world) (ops : list op) : world * list op_result :=
  match ops with
  | [] => (w, [])
  | o :: ops => let '(w, r) := run_op w o in let '(w, rs) := run w ops in (w, r :: rs)
  end.

Definition fresh : world := World (Vault ∅ ∅) ∅.

(** * Data encryption keys *)

Class Fernet := {
  fernet_key : bytes → bool;                        (* Fernet(key) accepts the key *)
  fernet_encrypt : bytes → Z → bytes → bytes;       (* key, randomness and time, data *)
  fernet_decrypt : bytes → bytes → option bytes;    (* [None] is InvalidToken *)
}.

Class FernetLaws `{Fernet} := {
  fernet_decrypt_encrypt k r m : fernet_key k = true → fernet_decrypt k (fernet_encrypt k r m) = Some m;
}.

Inductive dek_error := InvalidKey | InvalidToken | NotSet | NotEncodable.

Section keys.
  Context `{Fernet}.

(** [Fernet(master_key_b64.encode())] *)
Definition master_fernet (master_key_b64 : str) : result dek_error bytes :=
  match utf8_encode master_key_b64 with
  | None => Err NotEncodable
  | Some k => if fernet_key k then Ok k else Err InvalidKey
  end.

(** The environment variable, what [Fernet.generate_key] returns (the first call is made
    only when the variable is unset or empty), and the randomness of [encrypt]. *)
Definition generate_dek (env : option str) (generated : str) (dek : bytes) (r : Z)
    : result dek_error (bytes * bytes) :=
  let master_key_b64 := match env with
                        | None | Some [] => generated        (* Fernet.generate_key().decode() *)
                        | Some k => k
                        end in
  f ← master_fernet master_key_b64;
  Ok (dek, fernet_encrypt f r dek).

Definition decrypt_dek (env : option str) (token : bytes) : result dek_error bytes :=
  match env with
  | None | Some [] => Err NotSet
  | Some k =>
      f ← master_fernet k;
      match fernet_decrypt f token with None => Err InvalidToken | Some dek => Ok dek end
  end.
End keys.

(** * Lookups after each operation *)

Lemma referenced_spec v h :
  referenced v h = true ↔ ∃ t n, tenant_blob_refs v !! (t, h) = Some n ∧ 0 < n.
Proof.
  unfold referenced. rewrite existsb_exists. split.
  - intros ([[t h'] n] & Hin%list_elem_of_In%elem_of_map_to_list & [Hh Hn]%andb_prop). cbn in *.
    apply bool_decide_eq_true in Hh as ->. exists t, n. split; [done|lia].
  - intros (t & n & Hl & Hn). exists ((t, h), n). split.
    + by apply list_elem_of_In, elem_of_map_to_list.
    + cbn. rewrite bool_decide_true by done. lia.
Qed.

Lemma select_sublist v limit :
  select_unreferenced v limit `sublist_of`
    merge_sort older (filter (λ r : str * blob, referenced v r.1 = false) (map_to_list (blobs v))).
Proof. apply sublist_take. Qed.

Lemma candidates_elem v h b :
  (h, b) ∈ merge_sort older (filter (λ r : str * blob, referenced v r.1 = false) (map_to_list (blobs v)))
  ↔ blobs v !! h = Some b ∧ referenced v h = false.
Proof. rewrite merge_sort_Permutation, list_elem_of_filter, elem_of_map_to_list. naive_solver. Qed.

Lemma select_unreferenced_elem v limit h b :
  (h, b) ∈ select_unreferenced v limit → blobs v !! h = Some b ∧ referenced v h = false.
Proof.
  intros Hin. apply candidates_elem. eapply elem_of_sublist; [exact Hin|apply select_sublist].
Qed.

Lemma select_unreferenced_nodup v limit : NoDup (select_unreferenced v limit).*1.
Proof.
  eapply sublist_NoDup; [|apply fmap_sublist, select_sublist].
  rewrite merge_sort_Permutation. eapply sublist_NoDup; [apply (NoDup_fst_map_to_list (blobs v))|].
  apply fmap_sublist, sublist_filter.
Qed.

(** Fewer candidates than the limit: all of them are selected. *)
Lemma select_unreferenced_all v limit h b :
  zlen (select_unreferenced v limit) < limit → blobs v !! h = Some b → referenced v h = false →
  (h, b) ∈ select_unreferenced v limit.
Proof.
  unfold zlen, select_unreferenced. rewrite length_take. intros Hlen Hb Hr.
  rewrite take_ge by lia. by apply candidates_elem.
Qed.

(** * What a batch deletes *)

(** The file of the row can be deleted, or there is none. *)
Definition removable (fails : str → bool) (row : str * blob) : Prop :=
  storage_path row.2 = [] ∨ fails (storage_path row.2) = false.

#[export] Instance removable_dec fails row : Decision (removable fails row).
Proof. unfold removable. apply _. Defined.

Definition paths (rows : list (str * blob)) : gset str :=
  list_to_set (filter (.≠ []) ((storage_path ∘ snd) <$> rows)).

Lemma elem_of_paths p rows : p ∈ paths rows ↔ p ≠ [] ∧ ∃ h b, (h, b) ∈ rows ∧ storage_path b = p.
Proof.
  unfold paths. rewrite elem_of_list_to_set, list_elem_of_filter, list_elem_of_fmap. split.
  - intros [Hp ([h b] & -> & Hin)]. naive_solver.
  - intros [Hp (h & b & Hin & <-)]. split; [done|]. by exists (h, b).
Qed.

Lemma paths_app r1 r2 : paths (r1 ++ r2) = paths r1 ∪ paths r2.
Proof. unfold paths. by rewrite fmap_app, filter_app, list_to_set_app_L. Qed.

Definition delete_blobs (v : vault) (hs : list str) : vault := foldl delete_blob v hs.

Lemma paths_singleton h b :
  paths [(h, b)] = if decide (storage_path b = []) then ∅ else {[storage_path b]}.
Proof.
  apply set_eq. intros p. rewrite elem_of_paths. case_decide as He; split.
  - intros [Hp (? & ? & [= -> ->]%list_elem_of_singleton & <-)]. done.
  - set_solver.
  - intros [Hp (? & ? & [= -> ->]%list_elem_of_singleton & <-)]. set_solver.
  - intros ->%elem_of_singleton. split; [done|]. exists h, b. by rewrite list_elem_of_singleton.
Qed.

Lemma collect_row_spec fails w c row :
  collect_row fails (w, c) row =
  if decide (removable fails row)
  then (World (delete_blob (db w) row.1) (files w ∖ paths [row]), c + 1) else (w, c).
Proof.
  destruct row as [h b]. rewrite paths_singleton. unfold collect_row, unlink_blob, removable. cbn [fst snd].
  destruct (decide (storage_path b = [])) as [He|He].
  - rewrite bool_decide_true, decide_True by auto. by rewrite difference_empty_L.
  - rewrite bool_decide_false by done.
    destruct (decide _) as [[?|Hf]|Hf]; [done|by rewrite Hf|].
    destruct (fails (storage_path b)) eqn:E; [done|]. destruct Hf. by right.
Qed.

Lemma collect_rows_go fails rows w c :
  foldl (collect_row fails) (w, c) rows =
  let gone := filter (removable fails) rows in
  (World (delete_blobs (db w) gone.*1) (files w ∖ paths gone), c + zlen gone).
Proof.
  revert w c. induction rows as [|row rows IH]; intros w c; cbn [foldl].
  - cbn. rewrite difference_empty_L. destruct w. cbn. f_equal. unfold zlen. cbn. lia.
  - rewrite collect_row_spec. case_decide as Hr; rewrite IH; cbn zeta.
    + rewrite filter_cons_True by done. cbn [db files]. f_equal.
      * f_equal. rewrite (paths_app [row] (filter _ rows) : paths (row :: filter _ rows) = _). set_solver.
      * unfold zlen. cbn. lia.
    + by rewrite filter_cons_False by done.
Qed.

Lemma delete_blobs_lookup v hs h :
  blobs (delete_blobs v hs) !! h = if decide (h ∈ hs) then None else blobs v !! h.
Proof.
  revert v. induction hs as [|h' hs IH]; intros v; cbn.
  - rewrite decide_False by apply not_elem_of_nil. done.
  - fold (delete_blobs (delete_blob v h') hs). rewrite IH. cbn.
    destruct (decide (h = h')) as [->|Hne].
    + rewrite lookup_delete_eq. rewrite (decide_True (P := h' ∈ h' :: hs)) by left. by destruct (decide _).
    + rewrite lookup_delete_ne by done. destruct (decide (h ∈ hs)).
      * by rewrite decide_True by (by right).
      * rewrite decide_False; [done|]. by rewrite not_elem_of_cons.
Qed.

Lemma delete_blobs_refs v hs t h :
  tenant_blob_refs (delete_blobs v hs) !! (t, h) =
  if decide (h ∈ hs) then None else tenant_blob_refs v !! (t, h).
Proof.
  revert v. induction hs as [|h' hs IH]; intros v; cbn.
  - rewrite decide_False by apply not_elem_of_nil. done.
  - fold (delete_blobs (delete_blob v h') hs). rewrite IH. cbn.
    destruct (decide (h = h')) as [->|Hne].
    + rewrite (decide_True (P := h' ∈ h' :: hs)) by left. destruct (decide _); [done|].
      apply map_lookup_filter_None. right. cbn. naive_solver.
    + destruct (decide (h ∈ hs)).
      * by rewrite decide_True by (by right).
      * rewrite decide_False by (by rewrite not_elem_of_cons).
        destruct (tenant_blob_refs v !! (t, h)) as [m|] eqn:E.
        -- apply map_lookup_filter_Some. done.
        -- apply map_lookup_filter_None. by left.
Qed.

(** The rows a call deletes. *)
Definition batch (fails : str → bool) (limit : Z) (v : vault) : list (str * blob) :=
  if limit <? 1 then [] else filter (removable fails) (select_unreferenced v limit).

Lemma collect_spec fails limit w :
  collect_unreferenced_blobs fails limit w =
  let gone := batch fails limit (db w) in
  (World (delete_blobs (db w) gone.*1) (files w ∖ paths gone), zlen gone).
Proof.
  unfold collect_unreferenced_blobs, batch, collect_rows. destruct (limit <? 1).
  - cbn. rewrite difference_empty_L. by destruct w.
  - rewrite collect_rows_go. done.
Qed.

Lemma batch_elem fails limit v h b :
  (h, b) ∈ batch fails limit v →
  blobs v !! h = Some b ∧ referenced v h = false ∧ removable fails (h, b).
Proof.
  unfold batch. destruct (limit <? 1); [by intros ?%not_elem_of_nil|].
  intros [Hr Hin]%list_elem_of_filter. apply select_unreferenced_elem in Hin as [? ?]. done.
Qed.

Lemma batch_fst fails limit v h :
  h ∈ (batch fails limit v).*1 → ∃ b, (h, b) ∈ batch fails limit v.
Proof. intros ([h' b] & -> & Hin)%list_elem_of_fmap. by exists b. Qed.

Lemma batch_referenced fails limit v h : referenced v h = true → h ∉ (batch fails limit v).*1.
Proof. intros Hr [b Hin]%batch_fst. apply batch_elem in Hin as (_ & Hr' & _). congruence. Qed.

Lemma batch_nodup fails limit v : NoDup (batch fails limit v).*1.
Proof.
  unfold batch. destruct (limit <? 1); [constructor|].
  eapply sublist_NoDup; [apply select_unreferenced_nodup|apply fmap_sublist, sublist_filter].
Qed.

Lemma batch_length fails limit v : 0 ≤ zlen (batch fails limit v) ≤ Z.max 0 limit.
Proof.
  unfold batch, zlen. destruct (Z.ltb_spec limit 1); cbn; [lia|].
  assert (length (filter (removable fails) (select_unreferenced v limit)) ≤ Z.to_nat limit)%nat; [|lia].
  etransitivity; [apply length_filter|]. unfold select_unreferenced. rewrite length_take. lia.
Qed.

(** * The tables stay well formed *)

(** Every count is at least one and fits its column; every reference has its blob. *)
Record vault_ok (v : vault) : Prop := {
  ok_counts : ∀ k n, tenant_blob_refs v !! k = Some n → 1 ≤ n ≤ INT_MAX;
  ok_foreign : ∀ t h n, tenant_blob_refs v !! (t, h) = Some n → is_Some (blobs v !! h);
}.

Lemma vault_ok_empty : vault_ok (Vault ∅ ∅).
Proof. split; intros *; cbn; rewrite ?lookup_empty; done. Qed.

Lemma record_blob_cases v h dek size path now v' :
  record_blob v h dek size path now = Ok v' →
  tenant_blob_refs v' = tenant_blob_refs v ∧
  (v' = v ∧ is_Some (blobs v !! h) ∨
   blobs v !! h = None ∧ ∃ s, utf8_decode dek = Some s ∧ blobs v' = <[h := Blob s size path now]> (blobs v)).
Proof.
  unfold record_blob. destruct (utf8_decode dek) as [s|]; [|done]. destruct (_ || _); [done|].
  intros [= <-]. destruct (blobs v !! h) eqn:E; naive_solver.
Qed.

Lemma record_blob_ok v h dek size path now v' :
  vault_ok v → record_blob v h dek size path now = Ok v' → vault_ok v'.
Proof.
  intros [Hc Hf] (Hr & [[-> _]|(Hn & s & _ & Hb)])%record_blob_cases; [done|].
  split; rewrite Hr; [done|]. intros t h' n Hl. rewrite Hb. apply lookup_insert_is_Some'. right. by eapply Hf.
Qed.

Lemma record_tenant_ref_ok v t h v' :
  vault_ok v → record_tenant_ref v t h = Ok v' → vault_ok v'.
Proof.
  intros [Hc Hf]. unfold record_tenant_ref.
  destruct (tenant_blob_refs v !! (t, h)) as [n|] eqn:E.
  - destruct (Z.leb_spec (n + 1) INT_MAX); [|done]. intros [= <-]. split; cbn.
    + intros k m [[<- <-]|[_ Hl]]%lookup_insert_Some; [apply Hc in E; lia|by apply Hc in Hl].
    + intros t' h' m [[[= <- <-] _]|[_ Hl]]%lookup_insert_Some; by eapply Hf.
  - destruct (blobs v !! h) as [b|] eqn:Hb; [|done]. intros [= <-]. split; cbn.
    + intros k m [[<- <-]|[_ Hl]]%lookup_insert_Some; [unfold INT_MAX; lia|by apply Hc in Hl].
    + intros t' h' m [[[= <- <-] _]|[_ Hl]]%lookup_insert_Some; [by exists b|by eapply Hf].
Qed.

Lemma remove_tenant_ref_ok v t h : vault_ok v → vault_ok (remove_tenant_ref v t h).1.
Proof.
  intros [Hc Hf]. unfold remove_tenant_ref.
  destruct (tenant_blob_refs v !! (t, h)) as [n|] eqn:E; [|by split].
  destruct (Z.ltb_spec 1 n); split; cbn.
  - intros k m [[<- <-]|[_ Hl]]%lookup_insert_Some; [apply Hc in E; lia|by apply Hc in Hl].
  - intros t' h' m [[[= <- <-] _]|[_ Hl]]%lookup_insert_Some; by eapply Hf.
  - intros k m [_ Hl]%lookup_delete_Some. by apply Hc in Hl.
  - intros t' h' m [_ Hl]%lookup_delete_Some. by eapply Hf.
Qed.

Lemma delete_blobs_ok v hs : vault_ok v → vault_ok (delete_blobs v hs).
Proof.
  intros [Hc Hf]. split.
  - intros [t h] n. rewrite delete_blobs_refs. case_decide; [done|]. apply Hc.
  - intros t h n. rewrite delete_blobs_refs, delete_blobs_lookup. case_decide; [done|]. apply Hf.
Qed.

Lemma attempt_ok w r : vault_ok (db w) → (∀ v, r = Ok v → vault_ok v) → vault_ok (db (attempt w r).1).
Proof. destruct r; cbn; auto. Qed.

Lemma run_op_ok w o : vault_ok (db w) → vault_ok (db (run_op w o).1).
Proof.
  intros Hw. destruct o as [p|h dek size path now|t h|t h|fails limit]; cbn [run_op].
  - done.
  - apply attempt_ok; [done|]. intros v. by apply record_blob_ok.
  - apply attempt_ok; [done|]. intros v. by apply record_tenant_ref_ok.
  - pose proof (remove_tenant_ref_ok (db w) t h Hw) as Hr. by destruct (remove_tenant_ref _ _ _).
  - rewrite collect_spec. cbn. by apply delete_blobs_ok.
Qed.

Lemma run_cons w o ops : (run w (o :: ops)).1 = (run (run_op w o).1 ops).1.
Proof. cbn. destruct (run_op w o) as [w' r]. cbn. by destruct (run w' ops). Qed.

Lemma run_ok w ops : vault_ok (db w) → vault_ok (db (run w ops).1).
Proof.
  revert w. induction ops as [|o ops IH]; intros w Hw; [done|].
  rewrite run_cons. by apply IH, run_op_ok.
Qed.

(** An unreferenced blob of well-formed tables has no reference row at all. *)
Lemma unreferenced_none v t h : vault_ok v → referenced v h = false → tenant_blob_refs v !! (t, h) = None.
Proof.
  intros Hv Hr. destruct (tenant_blob_refs v !! (t, h)) as [n|] eqn:E; [|done].
  assert (referenced v h = true) as Ht; [|congruence].
  apply referenced_spec. exists t, n. split; [done|]. apply Hv in E. lia.
Qed.

(** * The abstract ledger *)

(** What the two tables stand for: the contents held, and a multiset of references. *)
Record ledger := Ledger { held : gset str; claims : gmultiset (str * str) }.

Inductive lstep : op → ledger → op_result → ledger → Prop :=
  | ls_write p a : lstep (OpWrite p) a Done a
  | ls_blob h dek size path now a :
      is_Some (utf8_decode dek) → - BIGINT_MAX - 1 ≤ size ≤ BIGINT_MAX →
      lstep (OpBlob h dek size path now) a Done (Ledger ({[h]} ∪ held a) (claims a))
  | ls_blob_text h dek size path now a :
      utf8_decode dek = None → lstep (OpBlob h dek size path now) a (Raised UnicodeDecodeError) a
  | ls_blob_range h dek size path now a :
      ¬ (- BIGINT_MAX - 1 ≤ size ≤ BIGINT_MAX) → lstep (OpBlob h dek size path now) a (Raised OutOfRange) a
  | ls_ref t h a :
      h ∈ held a → Z.of_nat (multiplicity (t, h) (claims a)) < INT_MAX →
      lstep (OpRef t h) a Done (Ledger (held a) (claims a ⊎ {[+ (t, h) +]}))
  | ls_ref_full t h a :
      Z.of_nat (multiplicity (t, h) (claims a)) = INT_MAX → lstep (OpRef t h) a (Raised OutOfRange) a
  | ls_ref_foreign t h a : h ∉ held a → lstep (OpRef t h) a (Raised ForeignKeyViolation) a
  | ls_unref t h a :
      (t, h) ∈ claims a → lstep (OpUnref t h) a (Answered true) (Ledger (held a) (claims a ∖ {[+ (t, h) +]}))
  | ls_unref_none t h a : (t, h) ∉ claims a → lstep (OpUnref t h) a (Answered false) a
  | ls_collect fails limit a (X : gset str) :
      X ⊆ held a → (∀ t h, h ∈ X → (t, h) ∉ claims a) → Z.of_nat (size X) ≤ Z.max 0 limit →
      lstep (OpCollect fails limit) a (Collected (Z.of_nat (size X))) (Ledger (held a ∖ X) (claims a)).

Inductive lsteps : list op → ledger → list op_result → ledger → Prop :=
  | lsteps_nil a : lsteps [] a [] a
  | lsteps_cons o ops a r a' rs a'' :
      lstep o a r a' → lsteps ops a' rs a'' → lsteps (o :: ops) a (r :: rs) a''.

Definition stored (n : nat) : option Z := match n with O => None | _ => Some (Z.of_nat n) end.

Record refines (v : vault) (a : ledger) : Prop := {
  ref_held : dom (blobs v) = held a;
  ref_claims : ∀ k, tenant_blob_refs v !! k = stored (multiplicity k (claims a));
  ref_ok : vault_ok v;
}.

Lemma stored_Some n z : stored n = Some z ↔ Z.of_nat n = z ∧ (n ≠ 0)%nat.
Proof. destruct n; cbn; naive_solver lia. Qed.

Lemma stored_None n : stored n = None ↔ n = O.
Proof. destruct n; cbn; naive_solver. Qed.

Lemma stored_pos n : (0 < n)%nat → stored n = Some (Z.of_nat n).
Proof. destruct n; [lia|done]. Qed.

Lemma record_blob_refines v a h dek size path now w :
  db w = v → refines v a →
  ∃ a', lstep (OpBlob h dek size path now) a (attempt w (record_blob v h dek size path now)).2 a' ∧
        refines (db (attempt w (record_blob v h dek size path now)).1) a'.
Proof.
  intros Hw Ha. pose proof (λ v', record_blob_ok v h dek size path now v' (ref_ok _ _ Ha)) as Hok.
  unfold record_blob in *. destruct (utf8_decode dek) as [s|] eqn:Hd.
  2: { exists a. split; [by constructor|by rewrite <- Hw in Ha]. }
  destruct (Z.ltb_spec size (- BIGINT_MAX - 1)); cbn [orb] in *.
  { exists a. split; [constructor; lia|by rewrite <- Hw in Ha]. }
  destruct (Z.ltb_spec BIGINT_MAX size).
  { exists a. split; [constructor; lia|by rewrite <- Hw in Ha]. }
  exists (Ledger ({[h]} ∪ held a) (claims a)). cbn. split; [constructor; [done|lia]|].
  destruct Ha as [Hh Hc _]. split; [|destruct (blobs v !! h); apply Hc|by apply Hok].
  rewrite <- Hh. cbn. destruct (blobs v !! h) eqn:E.
  - apply elem_of_dom_2 in E. set_solver.
  - cbn. by rewrite dom_insert_L.
Qed.

Lemma record_tenant_ref_refines v a t h w :
  db w = v → refines v a →
  ∃ a', lstep (OpRef t h) a (attempt w (record_tenant_ref v t h)).2 a' ∧
        refines (db (attempt w (record_tenant_ref v t h)).1) a'.
Proof.
  intros Hw Ha. pose proof (λ v', record_tenant_ref_ok v t h v' (ref_ok _ _ Ha)) as Hok.
  pose proof (ref_claims _ _ Ha (t, h)) as Hk. unfold record_tenant_ref in *.
  assert (∀ z, z = Z.of_nat (S (multiplicity (t, h) (claims a))) → ∀ k,
            <[(t, h) := z]> (tenant_blob_refs v) !! k = stored (multiplicity k (claims a ⊎ {[+ (t, h) +]}))) as Hadd.
  { intros z -> k. rewrite multiplicity_disj_union, multiplicity_singleton. destruct (decide (k = (t, h))) as [->|Hne].
    - rewrite lookup_insert_eq. rewrite stored_pos by lia. do 2 f_equal. lia.
    - rewrite lookup_insert_ne by done. rewrite Nat.add_0_r. apply (ref_claims _ _ Ha). }
  destruct (tenant_blob_refs v !! (t, h)) as [n|] eqn:E.
  - symmetry in Hk. apply stored_Some in Hk as [Hn Hpos]. pose proof (ok_foreign _ (ref_ok _ _ Ha) _ _ _ E) as Hb.
    apply elem_of_dom in Hb. rewrite (ref_held _ _ Ha) in Hb. pose proof (ok_counts _ (ref_ok _ _ Ha) _ _ E).
    destruct (Z.leb_spec (n + 1) INT_MAX); cbn.
    + exists (Ledger (held a) (claims a ⊎ {[+ (t, h) +]})). split; [constructor; [done|lia]|].
      split; [apply Ha|apply Hadd; lia|by apply Hok].
    + exists a. split; [constructor; lia|by rewrite <- Hw in Ha].
  - symmetry in Hk. apply stored_None in Hk. destruct (blobs v !! h) as [b|] eqn:Hb; cbn.
    + exists (Ledger (held a) (claims a ⊎ {[+ (t, h) +]})). split.
      * constructor; [rewrite <- (ref_held _ _ Ha); by eapply elem_of_dom_2|unfold INT_MAX; lia].
      * split; [apply Ha|apply Hadd; lia|by apply Hok].
    + exists a. split; [|by rewrite <- Hw in Ha]. apply ls_ref_foreign.
      rewrite <- (ref_held _ _ Ha). by apply not_elem_of_dom.
Qed.

Lemma remove_tenant_ref_refines v a t h :
  refines v a →
  ∃ a', lstep (OpUnref t h) a (Answered (remove_tenant_ref v t h).2) a' ∧
        refines (remove_tenant_ref v t h).1 a'.
Proof.
  intros Ha. pose proof (remove_tenant_ref_ok v t h (ref_ok _ _ Ha)) as Hok.
  pose proof (ref_claims _ _ Ha (t, h)) as Hk. unfold remove_tenant_ref in *.
  destruct (tenant_blob_refs v !! (t, h)) as [n|] eqn:E; symmetry in Hk; cbn in *.
  2: { exists a. split; [|done]. constructor. rewrite elem_of_multiplicity. apply stored_None in Hk. lia. }
  apply stored_Some in Hk as [Hn Hpos].
  exists (Ledger (held a) (claims a ∖ {[+ (t, h) +]})).
  assert (∀ k, multiplicity k (claims a ∖ {[+ (t, h) +]}) =
               (multiplicity k (claims a) - if decide (k = (t, h)) then 1 else 0)%nat) as Hm
    by (intros k; by rewrite multiplicity_difference, multiplicity_singleton).
  destruct (Z.ltb_spec 1 n); cbn in *;
    (split; [constructor; rewrite elem_of_multiplicity; lia|]);
    (split; [apply Ha|cbn; intros k; rewrite Hm|by apply Hok]); destruct (decide (k = (t, h))) as [->|Hne].
  - rewrite lookup_insert_eq, stored_pos by lia. f_equal. lia.
  - rewrite lookup_insert_ne, Nat.sub_0_r by done. apply (ref_claims _ _ Ha).
  - rewrite lookup_delete_eq. symmetry. apply stored_None. lia.
  - rewrite lookup_delete_ne, Nat.sub_0_r by done. apply (ref_claims _ _ Ha).
Qed.

Lemma collect_refines v a fails limit :
  refines v a →
  let gone := batch fails limit v in
  ∃ a', lstep (OpCollect fails limit) a (Collected (zlen gone)) a' ∧ refines (delete_blobs v gone.*1) a'.
Proof.
  intros Ha gone. set (X := list_to_set gone.*1 : gset str). exists (Ledger (held a ∖ X) (claims a)).
  assert (∀ t h, h ∈ X → tenant_blob_refs v !! (t, h) = None) as Hnone.
  { intros t h [b Hb]%elem_of_list_to_set%batch_fst. apply batch_elem in Hb as (_ & Hr & _).
    apply unreferenced_none; [apply Ha|done]. }
  split.
  - assert (size X = length gone) as Hsz.
    { unfold X. rewrite size_list_to_set by apply batch_nodup. apply length_fmap. }
    replace (zlen gone) with (Z.of_nat (size X)) by (unfold zlen; by rewrite Hsz).
    constructor.
    + intros h [b Hb]%elem_of_list_to_set%batch_fst. apply batch_elem in Hb as (Hb & _).
      rewrite <- (ref_held _ _ Ha). by eapply elem_of_dom_2.
    + intros t h Hh. specialize (Hnone t h Hh). rewrite (ref_claims _ _ Ha) in Hnone.
      apply stored_None in Hnone. rewrite elem_of_multiplicity. lia.
    + rewrite Hsz. apply batch_length.
  - split; [|cbn; intros [t h]|apply delete_blobs_ok, Ha].
    + cbn. rewrite <- (ref_held _ _ Ha). apply set_eq. intros h.
      rewrite elem_of_difference, !elem_of_dom, delete_blobs_lookup. unfold X. rewrite elem_of_list_to_set.
      case_decide; [|naive_solver]. split; [intros [? ?]; done|naive_solver].
    + rewrite delete_blobs_refs, <- (ref_claims _ _ Ha). case_decide as Hh; [|done].
      symmetry. apply Hnone. unfold X. by rewrite elem_of_list_to_set.
Qed.

Lemma run_op_refines w a o :
  refines (db w) a → ∃ a', lstep o a (run_op w o).2 a' ∧ refines (db (run_op w o).1) a'.
Proof.
  intros Ha. destruct o as [p|h dek size path now|t h|t h|fails limit]; cbn [run_op].
  - exists a. split; [constructor|done].
  - by apply record_blob_refines.
  - by apply record_tenant_ref_refines.
  - destruct (remove_tenant_ref_refines _ _ t h Ha) as (a' & Hs & Hr). exists a'.
    by destruct (remove_tenant_ref (db w) t h).
  - rewrite collect_spec. by apply (collect_refines _ _ fails limit).
Qed.

Lemma run_refines ops w a :
  refines (db w) a → ∃ a', lsteps ops a (run w ops).2 a' ∧ refines (db (run w ops).1) a'.
Proof.
  revert w a. induction ops as [|o ops IH]; intros w a Ha; cbn [run].
  - exists a. split; [constructor|done].
  - destruct (run_op_refines w a o Ha) as (a' & Hs & Ha'). destruct (run_op w o) as [w' r].
    destruct (IH w' a' Ha') as (a'' & Hss & Ha''). destruct (run w' ops) as [w'' rs].
    exists a''. split; [by econstructor|done].
Qed.

(** * The collection loop *)

Lemma batch_referenced_same fails limit v h :
  referenced (delete_blobs v (batch fails limit v).*1) h = referenced v h.
Proof.
  apply eq_true_iff_eq. rewrite !referenced_spec. setoid_rewrite delete_blobs_refs.
  case_decide as Hh; [|done]. split; [naive_solver|]. intros Hr%referenced_spec.
  by apply batch_referenced with (fails := fails) (limit := limit) in Hr.
Qed.

Lemma delete_blobs_size v hs :
  NoDup hs → (∀ h, h ∈ hs → is_Some (blobs v !! h)) →
  (size (blobs (delete_blobs v hs)) + length hs = size (blobs v))%nat.
Proof.
  revert v. induction hs as [|h hs IH]; intros v Hnd Hin; [cbn; lia|].
  apply NoDup_cons in Hnd as [Hh Hnd]. change (delete_blobs v (h :: hs)) with (delete_blobs (delete_blob v h) hs).
  cbn [length]. assert (is_Some (blobs v !! h)) as [b Hb] by (apply Hin; left).
  specialize (IH (delete_blob v h) Hnd). cbn in IH. rewrite map_size_delete_Some in IH by done.
  assert (size (blobs v) ≠ 0)%nat. { rewrite map_size_ne_0_lookup. eauto. }
  rewrite <- Nat.add_succ_comm. enough (size (blobs (delete_blobs (delete_blob v h) hs)) + length hs = Nat.pred (size (blobs v)))%nat by lia.
  apply IH. intros h' Hh'. rewrite lookup_delete_ne by (intros ->; done). apply Hin. by right.
Qed.

Lemma batch_size_drop fails limit v :
  (size (blobs (delete_blobs v (batch fails limit v).*1)) + length (batch fails limit v) = size (blobs v))%nat.
Proof.
  rewrite <- (delete_blobs_size v (batch fails limit v).*1), length_fmap; [done|apply batch_nodup|].
  intros h [b Hb]%batch_fst. apply batch_elem in Hb as [Hb _]. by exists b.
Qed.

Lemma blob_gc_step f fails limit w :
  blob_gc (f :: fails) limit w =
  let gone := batch f limit (db w) in
  let w' := World (delete_blobs (db w) gone.*1) (files w ∖ paths gone) in
  if zlen gone <? limit then Some w' else blob_gc fails limit w'.
Proof. cbn [blob_gc]. by rewrite collect_spec. Qed.

Lemma blob_gc_terminates fails limit w :
  1 ≤ limit → (size (blobs (db w)) < length fails)%nat → is_Some (blob_gc fails limit w).
Proof.
  intros Hl. revert w. induction fails as [|f fails IH]; intros w Hlen; [cbn in Hlen; lia|].
  rewrite blob_gc_step. cbn zeta. destruct (Z.ltb_spec (zlen (batch f limit (db w))) limit); [by eexists|].
  apply IH. cbn [db]. pose proof (batch_size_drop f limit (db w)). unfold zlen in *. cbn in Hlen. lia.
Qed.

(** The path belongs to a blob nobody refers to. *)
Definition stale_path (v : vault) (p : str) : Prop :=
  p ≠ [] ∧ ∃ h b, blobs v !! h = Some b ∧ referenced v h = false ∧ storage_path b = p.

(** The world after every unreferenced blob of [w] is gone, with its file. *)
Record drained (w w' : world) : Prop := {
  dr_blobs : ∀ h, blobs (db w') !! h = if referenced (db w) h then blobs (db w) !! h else None;
  dr_refs : ∀ t h, referenced (db w) h = true →
              tenant_blob_refs (db w') !! (t, h) = tenant_blob_refs (db w) !! (t, h);
  dr_files : ∀ p, p ∈ files w' ↔ p ∈ files w ∧ ¬ stale_path (db w) p;
}.

Lemma batch_all f limit v h b :
  (∀ p, f p = false) → 1 ≤ limit → zlen (batch f limit v) < limit →
  blobs v !! h = Some b → referenced v h = false → (h, b) ∈ batch f limit v.
Proof.
  intros Hf Hl. unfold batch. rewrite (proj2 (Z.ltb_ge limit 1)) by lia.
  intros Hlen Hb Hr. apply list_elem_of_filter. split; [right; apply Hf|].
  apply select_unreferenced_all; [|done|done].
  rewrite filter_all in Hlen; [done|]. apply Forall_true. intros x. right. apply Hf.
Qed.

Lemma drained_last f limit w :
  (∀ p, f p = false) → 1 ≤ limit → zlen (batch f limit (db w)) < limit →
  drained w (collect_unreferenced_blobs f limit w).1.
Proof.
  intros Hf Hl Hlen. rewrite collect_spec. cbn zeta. set (gone := batch f limit (db w)) in *.
  split; cbn [db files fst].
  - intros h. rewrite delete_blobs_lookup. case_decide as Hh.
    + apply batch_fst in Hh as [b Hb]. apply batch_elem in Hb as (_ & -> & _). done.
    + destruct (referenced (db w) h) eqn:Hr; [done|]. destruct (blobs (db w) !! h) as [b|] eqn:Hb; [|done].
      destruct Hh. apply list_elem_of_fmap. exists (h, b). split; [done|]. by apply batch_all.
  - intros t h Hr. rewrite delete_blobs_refs. rewrite decide_False; [done|]. by apply batch_referenced.
  - intros p. rewrite elem_of_difference, elem_of_paths. unfold stale_path. apply and_iff_compat_l, not_iff_compat.
    split; intros (Hp & h & b & Hin); (split; [done|]); exists h, b.
    + destruct Hin as [Hin Hsp]. by apply batch_elem in Hin as (? & ? & _).
    + destruct Hin as (Hb & Hr & Hsp). split; [by apply batch_all|done].
Qed.

Lemma drained_trans f limit w w' :
  drained (collect_unreferenced_blobs f limit w).1 w' → drained w w'.
Proof.
  rewrite collect_spec. cbn zeta. set (gone := batch f limit (db w)). intros [Hb Hr Hf]. cbn [db files fst] in *.
  assert (∀ h, referenced (delete_blobs (db w) gone.*1) h = referenced (db w) h) as Hsame
    by (intros h; apply batch_referenced_same).
  setoid_rewrite Hsame in Hb. setoid_rewrite Hsame in Hr. split.
  - intros h. rewrite Hb. destruct (referenced (db w) h) eqn:E; [|done].
    rewrite delete_blobs_lookup, decide_False; [done|]. by apply batch_referenced.
  - intros t h E. rewrite Hr by done. rewrite delete_blobs_refs, decide_False; [done|]. by apply batch_referenced.
  - intros p. rewrite Hf. rewrite elem_of_difference, elem_of_paths. unfold stale_path. setoid_rewrite Hsame.
    setoid_rewrite delete_blobs_lookup. split.
    + intros [[Hp H1] H2]. split; [done|]. intros (Hne & h & b & Hl & Hrr & Hsp).
      destruct (decide (h ∈ gone.*1)) as [Hg|Hg].
      * apply H1. split; [done|]. apply batch_fst in Hg as [b' Hg]. exists h, b'. split; [done|].
        apply batch_elem in Hg as (Hg & _). congruence.
      * apply H2. split; [done|]. exists h, b. by rewrite decide_False.
    + intros [Hp Hn]. split; [split; [done|]|].
      * intros (Hne & h & b & Hin & Hsp). apply Hn. split; [done|]. exists h, b.
        by apply batch_elem in Hin as (? & ? & _).
      * intros (Hne & h & b & Hl & Hrr & Hsp). apply Hn. split; [done|]. exists h, b. by case_decide.
Qed.

Lemma blob_gc_drained fails limit w w' :
  1 ≤ limit → Forall (λ f, ∀ p, f p = false) fails → blob_gc fails limit w = Some w' → drained w w'.
Proof.
  intros Hl Hf. revert w. induction Hf as [|f fails Hf1 Hf IH]; intros w; [done|].
  rewrite blob_gc_step. cbn zeta. destruct (Z.ltb_spec (zlen (batch f limit (db w))) limit) as [Hlt|Hge].
  - intros [= <-]. pose proof (drained_last f limit w Hf1 Hl Hlt) as Hd. by rewrite collect_spec in Hd.
  - intros Hw%IH. apply (drained_trans f limit). by rewrite collect_spec.
Qed.

(** * A referenced blob survives *)

(** The operation neither drops the tenant's reference nor stores another content under
    the blob's path. *)
Definition spares (t h path : str) (o : op) : Prop :=
  match o with
  | OpUnref t' h' => (t', h') ≠ (t, h)
  | OpBlob h' _ _ path' _ => path' = path → h' = h
  | _ => True
  end.

Record kept (t h : str) (n : Z) (b : blob) (w : world) : Prop := {
  kept_blob : blobs (db w) !! h = Some b;
  kept_ref : ∃ m, tenant_blob_refs (db w) !! (t, h) = Some m ∧ n ≤ m;
  kept_file : storage_path b ∈ files w;
  kept_alone : ∀ h' b', blobs (db w) !! h' = Some b' → storage_path b' = storage_path b → h' = h;
}.

Lemma kept_collect t h n b w fails limit :
  1 ≤ n → kept t h n b w → kept t h n b (collect_unreferenced_blobs fails limit w).1.
Proof.
  intros Hn [Hb (m & Hm & Hle) Hf Ha]. rewrite collect_spec. cbn zeta.
  assert (h ∉ (batch fails limit (db w)).*1) as Hh.
  { apply batch_referenced, referenced_spec. exists t, m. split; [done|lia]. }
  split; cbn [fst db files].
  - by rewrite delete_blobs_lookup, decide_False.
  - exists m. by rewrite delete_blobs_refs, decide_False.
  - rewrite elem_of_difference, elem_of_paths. split; [done|]. intros (_ & h' & b' & Hin & Hp).
    apply batch_elem in Hin as Hin'. destruct Hin' as (Hb' & _). rewrite (Ha h' b' Hb' Hp) in Hin.
    apply Hh, list_elem_of_fmap. by exists (h, b').
  - intros h' b'. rewrite delete_blobs_lookup. case_decide; [done|]. apply Ha.
Qed.

Lemma kept_step t h n b w o :
  1 ≤ n → spares t h (storage_path b) o → kept t h n b w → kept t h n b (run_op w o).1.
Proof.
  intros Hn Ho Hk. destruct (Hk) as [Hb (m & Hm & Hle) Hf Ha].
  destruct o as [p|h' dek size path now|t' h'|t' h'|fails limit]; cbn [run_op].
  - split; cbn; eauto. set_solver.
  - destruct (record_blob (db w) h' dek size path now) as [v'|e] eqn:Hr; [|done].
    apply record_blob_cases in Hr as (Hrefs & [[-> _]|(Hnone & s & _ & Hins)]); [by split; eauto|].
    split; cbn; rewrite ?Hrefs, ?Hins; eauto.
    + rewrite lookup_insert_ne; [done|]. congruence.
    + intros h'' b'' [[<- <-]|[_ Hl]]%lookup_insert_Some; [exact Ho|by apply Ha].
  - unfold record_tenant_ref. destruct (tenant_blob_refs (db w) !! (t', h')) as [m'|] eqn:Hm'.
    + destruct (m' + 1 <=? INT_MAX); cbn; [|done]. split; cbn; eauto.
      destruct (decide ((t', h') = (t, h))) as [[= -> ->]|Hne].
      * exists (m' + 1). rewrite lookup_insert_eq. split; [done|]. assert (m' = m) by congruence. lia.
      * exists m. by rewrite lookup_insert_ne.
    + destruct (blobs (db w) !! h') eqn:Hb'; cbn; [|done]. split; cbn; eauto.
      exists m. rewrite lookup_insert_ne; [done|]. congruence.
  - cbn in Ho. unfold remove_tenant_ref. destruct (tenant_blob_refs (db w) !! (t', h')) as [m'|]; [|by split; eauto].
    destruct (1 <? m'); cbn; split; cbn; eauto; exists m; [by rewrite lookup_insert_ne|by rewrite lookup_delete_ne].
  - pose proof (kept_collect t h n b w fails limit Hn Hk). by destruct (collect_unreferenced_blobs fails limit w).
Qed.

(** C13. Evidence storage: whatever tenants upload, refer to, release and collect
    afterwards, a blob that some tenant refers to keeps its row, its reference count does
    not fall below what that tenant holds, and its file stays on disk, provided that
    tenant does not release it and no other content is stored under its path. *)
Theorem referenced_blob_survives t h n b w ops :
  1 ≤ n → kept t h n b w → Forall (spares t h (storage_path b)) ops → kept t h n b (run w ops).1.
Proof.
  intros Hn Hk Hops. revert w Hk. induction Hops as [|o ops Ho Hops IH]; intros w Hk; [done|].
  rewrite run_cons. by apply IH, kept_step.
Qed.

(** C12. Evidence storage: from empty tables, every sequence of uploads, references,
    releases and collections answers and behaves as on a set of held contents with a
    multiset of references: counts are multiplicities, releasing answers whether there
    was a reference, collection removes only contents without one and reports how many,
    and a reference to a content that is not held is refused. *)
Theorem references_refine_multiset ops :
  ∃ a, lsteps ops (Ledger ∅ ∅) (run fresh ops).2 a ∧ refines (db (run fresh ops).1) a.
Proof.
  apply run_refines. split; cbn.
  - by rewrite dom_empty_L.
  - intros k. by rewrite lookup_empty, multiplicity_empty.
  - apply vault_ok_empty.
Qed.

(** Evidence storage: with files that can be deleted, the collection loop of a
    retention run ends after at most one pass more than there are blobs, and leaves
    exactly the blobs somebody refers to, their references, and every file but those of
    the collected blobs. *)
Theorem blob_gc_drains fails limit w :
  1 ≤ limit → (size (blobs (db w)) < length fails)%nat → Forall (λ f, ∀ p, f p = false) fails →
  ∃ w', blob_gc fails limit w = Some w' ∧ drained w w'.
Proof.
  intros Hl Hlen Hf. destruct (blob_gc_terminates fails limit w Hl Hlen) as [w' Hw'].
  exists w'. split; [done|]. by eapply blob_gc_drained.
Qed.

(** * Interrupted collection *)

(** The process dies after [k] rows: the files are gone, the transaction is rolled back. *)
Definition crashed (fails : str → bool) (limit : Z) (k : nat) (w : world) : world :=
  if limit <? 1 then w
  else World (db w) (files (collect_rows fails w (take k (select_unreferenced (db w) limit))).1).

(** Evidence storage: a collection that dies after deleting some files is completed
    by the next one, with the same result and count as if it had not died. *)
Theorem crashed_collection_resumes fails limit k w :
  collect_unreferenced_blobs fails limit (crashed fails limit k w) = collect_unreferenced_blobs fails limit w.
Proof.
  rewrite !collect_spec. unfold crashed. destruct (limit <? 1) eqn:El; [done|]. unfold collect_rows.
  rewrite collect_rows_go. cbn [db files fst]. cbn zeta. f_equal. f_equal.
  apply set_eq. intros p. rewrite !elem_of_difference. split; [naive_solver|]. intros [Hp Hn].
  split; [split|]; [done| |done]. intros Hk. apply Hn. unfold batch. rewrite El.
  apply elem_of_paths in Hk as (Hne & h & b & Hin & Hsp). apply elem_of_paths. split; [done|]. exists h, b.
  split; [|done]. apply list_elem_of_filter in Hin as [Hr Hin]. apply list_elem_of_filter. split; [done|].
  eapply elem_of_sublist; [exact Hin|apply sublist_take].
Qed.

(** Evidence storage: when the oldest unreferenced blobs, a full batch of them, have
    files that cannot be deleted, no collection ever deletes anything: the younger ones
    are never reached. *)
Theorem stuck_files_starve fails limit w :
  1 ≤ limit → Forall (λ r, ¬ removable fails r) (select_unreferenced (db w) limit) →
  collect_unreferenced_blobs fails limit w = (w, 0) ∧
  ∀ n, (1 ≤ n)%nat → blob_gc (replicate n fails) limit w = Some w.
Proof.
  intros Hl Hstuck.
  assert (batch fails limit (db w) = []) as Hb.
  { unfold batch. destruct (limit <? 1); [done|]. by apply filter_none. }
  assert (collect_unreferenced_blobs fails limit w = (w, 0)) as Hc.
  { rewrite collect_spec, Hb. cbn. rewrite difference_empty_L. by destruct w. }
  split; [done|]. intros [|n] Hn; [lia|]. cbn. rewrite Hc. by rewrite (proj2 (Z.ltb_lt 0 limit)) by lia.
Qed.

(** Evidence storage: a reference recorded between the collector's selection and its
    deletion of the blob is accepted and then deleted with the blob, by the cascade. *)
Theorem late_reference_is_lost fails limit v v' fs t h b :
  (h, b) ∈ select_unreferenced v limit → removable fails (h, b) → record_tenant_ref v t h = Ok v' →
  let w := (collect_rows fails (World v' fs) (select_unreferenced v limit)).1 in
  is_Some (tenant_blob_refs v' !! (t, h)) ∧ blobs (db w) !! h = None ∧ tenant_blob_refs (db w) !! (t, h) = None.
Proof.
  intros Hin Hr Hok w. split.
  - unfold record_tenant_ref in Hok. destruct (tenant_blob_refs v !! (t, h)) as [n|] eqn:E.
    + destruct (n + 1 <=? INT_MAX); [|done]. injection Hok as <-. cbn. rewrite lookup_insert_eq. eauto.
    + destruct (blobs v !! h); [|done]. injection Hok as <-. cbn. rewrite lookup_insert_eq. eauto.
  - unfold w, collect_rows. rewrite collect_rows_go. cbn. rewrite delete_blobs_lookup, delete_blobs_refs.
    assert (h ∈ (filter (removable fails) (select_unreferenced v limit)).*1) as Hh.
    { apply list_elem_of_fmap. exists (h, b). split; [done|]. by apply list_elem_of_filter. }
    by destruct (decide _).
Qed.

(** * Key wrapping *)

(** Evidence storage: a data key wrapped under the configured master key is
    recovered with it; without a configured key, wrapping succeeds under a key that is
    thrown away, and no recovery succeeds. *)
Theorem wrapped_key_recovered `{FernetLaws} env generated dek r token :
  generate_dek env generated dek r = Ok (dek, token) →
  match env with
  | None | Some [] => decrypt_dek env token = Err NotSet
  | Some _ => decrypt_dek env token = Ok dek
  end.
Proof.
  unfold generate_dek, decrypt_dek. destruct env as [[|c k]|]; [done| |done].
  unfold master_fernet. destruct (utf8_encode (c :: k)) as [key|]; [|done]. cbn.
  destruct (fernet_key key) eqn:Hk; [|done]. cbn. intros [= <-]. by rewrite fernet_decrypt_encrypt by done.
Qed.

(** * Witnesses *)

Definition sample_blob (path : str) (now : Z) : blob := Blob (lit "token") 10 path now.

(** Two blobs, the first referred to by one tenant, both files on disk. *)
Definition sample_world : world :=
  World (Vault {[lit "aa" := sample_blob (lit "/b/aa") 1; lit "bb" := sample_blob (lit "/b/bb") 2]}
               {[(lit "t1", lit "aa") := 1]})
        {[lit "/b/aa"; lit "/b/bb"]}.

Definition sample_ops : list op :=
  [OpRef (lit "t2") (lit "aa"); OpUnref (lit "t2") (lit "aa"); OpCollect (λ _, false) 100].

Lemma referenced_blob_survives_witness :
  kept (lit "t1") (lit "aa") 1 (sample_blob (lit "/b/aa") 1) (run sample_world sample_ops).1 ∧
  blobs (db (run sample_world sample_ops).1) !! lit "bb" = None.
Proof.
  split; [|vm_compute; reflexivity].
  apply (referenced_blob_survives (lit "t1") (lit "aa") 1 (sample_blob (lit "/b/aa") 1) sample_world sample_ops).
  - lia.
  - split.
    + vm_compute; reflexivity.
    + exists 1. split; [vm_compute; reflexivity|lia].
    + cbn. set_solver.
    + intros h' b'. cbn. intros [[<- <-]|[_ Hl]]%lookup_insert_Some; [done|].
      apply lookup_singleton_Some in Hl as [<- <-]. intros Hp. vm_compute in Hp. discriminate.
  - repeat constructor; vm_compute; congruence.
Defined.

Lemma blob_gc_drains_witness :
  ∃ w', blob_gc (replicate 3 (λ _, false)) 1 sample_world = Some w' ∧ drained sample_world w'.
Proof.
  apply (blob_gc_drains (replicate 3 (λ _, false)) 1 sample_world).
  - lia.
  - vm_compute. lia.
  - repeat constructor.
Defined.

Lemma stuck_files_starve_witness :
  collect_unreferenced_blobs (λ p, bool_decide (p = lit "/b/bb")) 1 sample_world = (sample_world, 0) ∧
  ∀ n, (1 ≤ n)%nat → blob_gc (replicate n (λ p, bool_decide (p = lit "/b/bb"))) 1 sample_world = Some sample_world.
Proof.
  apply (stuck_files_starve (λ p, bool_decide (p = lit "/b/bb")) 1 sample_world); [lia|].
  replace (select_unreferenced (db sample_world) 1) with [(lit "bb", sample_blob (lit "/b/bb") 2)]
    by (vm_compute; reflexivity).
  repeat constructor. intros [He|He]; vm_compute in He; discriminate.
Defined.

Definition late_vault : vault :=
  from_ok (db sample_world) (record_tenant_ref (db sample_world) (lit "t2") (lit "bb")).

Lemma late_reference_is_lost_witness :
  let w := (collect_rows (λ _, false) (World late_vault ∅) (select_unreferenced (db sample_world) 5)).1 in
  is_Some (tenant_blob_refs late_vault !! (lit "t2", lit "bb")) ∧ blobs (db w) !! lit "bb" = None ∧
  tenant_blob_refs (db w) !! (lit "t2", lit "bb") = None.
Proof.
  apply (late_reference_is_lost (λ _, false) 5 (db sample_world) late_vault ∅ (lit "t2") (lit "bb")
           (sample_blob (lit "/b/bb") 2)).
  - replace (select_unreferenced (db sample_world) 5) with [(lit "bb", sample_blob (lit "/b/bb") 2)]
      by (vm_compute; reflexivity). left.
  - by right.
  - vm_compute; reflexivity.
Defined.

(** A cipher that appends its key, as an instance of the interface. *)
#[export] Instance sample_fernet : Fernet := {
  fernet_key k := bool_decide (length k = 4%nat);
  fernet_encrypt k _ m := k ++ m;
  fernet_decrypt k c := if bool_decide (take (length k) c = k) then Some (drop (length k) c) else None;
}.

#[export] Instance sample_fernet_laws : FernetLaws.
Proof.
  split. intros k r m _. cbn. rewrite take_app_length, drop_app_length. by rewrite bool_decide_true.
Qed.

Lemma wrapped_key_recovered_witness :
  decrypt_dek (Some (lit "mkey")) (lit "mkeydata") = Ok (lit "data") ∧
  decrypt_dek None (lit "gkeydata") = Err NotSet.
Proof.
  split.
  - apply (wrapped_key_recovered (Some (lit "mkey")) (lit "gkey") (lit "data") 0 (lit "mkeydata")).
    vm_compute; reflexivity.
  - apply (wrapped_key_recovered None (lit "gkey") (lit "data") 0 (lit "gkeydata")).
    vm_compute; reflexivity.
Defined.
