(* ===== verification/StreamingUpload.v ===== *)
(** Bounded streaming of uploads: [backend/streaming_upload.py].  A source is what is left
    of its content with the sizes of the reads to come (a short or a failing read is the
    source's choice); files are a finite map from paths to contents; what the operating
    system refuses is the record [disk].  [hashlib]'s incremental digest is the digest of
    what was fed to it.

    Shown: the digest and the stored file are those of the whole content however the
    reads are cut; the size limit is exact and no more than it is ever written; after a
    failure no other file is touched, and no partial file and no temporary file is left as
    long as they can be removed; assembling parts equals streaming their concatenation; chunk sizes stay in range. *)
From Stdlib Require Import ZArith Lia.
From stdpp Require Import base decidable strings numbers gmap list.
From S2P Require Import Prelude PyStr PyVal Sha256.

Open Scope Z_scope.

#[local] Arguments lit _ : simpl never.

Inductive up_exn :=
  | RequestEntityTooLarge
  | ReadError                  (* the source raised *)
  | OSError
  | FileNotFound
  | SameFileError
  | Raised (e : exn)           (* from int() on a setting *)
  | Diverged.                  (* the loop of the model ran out of fuel: never, below *)

#[export] Instance up_exn_eq_dec : EqDecision up_exn.
Proof. solve_decision. Defined.

(** * Settings *)

Definition DEFAULT_CHUNK_BYTES : Z := 65536.
Definition MIN_CHUNK_BYTES : Z := 4096.
Definition MAX_CHUNK_BYTES : Z := 1048576.

(** The attributes of the configuration read here; one that is missing reads as [None]. *)
Record upload_config := UploadConfig {
  upload_chunk_bytes : pyval;
  upload_max_bytes : pyval;
  max_video_bytes : pyval;
  upload_temp_dir : pyval;
}.

Section settings.
  Context `{Unicode}.

Definition clamp_chunk_bytes (value : pyval) (enforce_min : bool) : result exn Z :=
  match value with
  | PNone => Ok DEFAULT_CHUNK_BYTES
  | _ =>
      match py_to_int value with
      | Err (TypeError _) | Err (ValueError _) => Ok DEFAULT_CHUNK_BYTES
      | Err e => Err e
      | Ok parsed =>
          if parsed <=? 0 then Ok DEFAULT_CHUNK_BYTES
          else if enforce_min && (parsed <? MIN_CHUNK_BYTES) then Ok MIN_CHUNK_BYTES
          else if MAX_CHUNK_BYTES <? parsed then Ok MAX_CHUNK_BYTES
          else Ok parsed
      end
  end.

Definition resolve_chunk_bytes (g : option upload_config) (explicit : pyval) : result exn Z :=
  match explicit, g with
  | PNone, Some config => clamp_chunk_bytes (upload_chunk_bytes config) true
  | PNone, None => Ok DEFAULT_CHUNK_BYTES
  | _, _ => clamp_chunk_bytes explicit false
  end.

(** [max(0, int(value))] *)
Definition nonneg_int (value : pyval) : result exn Z := Z.max 0 <$> py_to_int value.

Definition resolve_max_bytes (g : option upload_config) (explicit : pyval) : result exn Z :=
  match explicit, g with
  | PNone, Some config =>
      match upload_max_bytes config, max_video_bytes config with
      | PNone, PNone => Ok 0
      | PNone, value => nonneg_int value
      | value, _ => nonneg_int value
      end
  | PNone, None => Ok 0
  | _, _ => nonneg_int explicit
  end.

Definition resolve_temp_dir (g : option upload_config) (explicit : pyval) : option str :=
  match explicit, g with
  | PNone, Some config =>
      if truthy (upload_temp_dir config) then Some (py_str (upload_temp_dir config)) else None
  | PNone, None => None
  | _, _ => Some (py_str explicit)
  end.
End settings.

(** * Sources *)

(** What a source still holds, and the size of each coming read: [Some k] at most [k]
    bytes, [None] a read that raises; past the list, reads are full. *)
Record stream := Stream { rest : bytes; cuts : list (option Z) }.

(** [source.read(n)]: between one and [n] bytes while there are any, the empty bytes at
    the end. *)
Definition read (n : Z) (s : stream) : stream * option bytes :=
  match cuts s with
  | None :: cs => (Stream (rest s) cs, None)
  | c :: cs =>
      let k := Z.to_nat (Z.max 1 (Z.min n (default n c))) in
      (Stream (drop k (rest s)) cs, Some (take k (rest s)))
  | [] => (Stream (drop (Z.to_nat n) (rest s)) [], Some (take (Z.to_nat n) (rest s)))
  end.

(** A file opened for reading: reads are full. *)
Definition open_rb (content : bytes) : stream := Stream content [].

(** * The copy loop *)

(** The temporary file, what the hasher was fed, and the counter. *)
Record copying := Copying { tmp_file : bytes; hashed : bytes; bytes_written : Z }.

(** [shutil.move]: done (renamed, or copied and the source removed), or it raises [OSError] and
    the source stays, with the destination untouched ([None]) or holding the first bytes of a
    copy, possibly all of them. *)
Inductive move_result := MoveDone | MoveFails (copied : option nat).

(** What the operating system does: [capacity] is the size at which writing fails;
    [unlink_tmp_ok], [probe_ok] and [unlink_ok] are [tmp_path.exists()] with
    [tmp_path.unlink(...)], [dest.exists()] and [dest.unlink()] in the [except] block. *)
Record disk := Disk {
  mkdir_ok : bool;
  mkstemp : option str → option str;
  capacity : option Z;
  fsync_ok : bool;
  moved : move_result;
  unlink_tmp_ok : bool;
  probe_ok : bool;
  unlink_ok : bool;
}.

Definition no_space (d : disk) (size : Z) : bool :=
  match capacity d with Some c => c <? size | None => false end.

(** The [while] loop of [hash_stream_to_path], and of [hash_paths_concat] for one file. *)
Fixpoint copy_loop (fuel : nat) (d : disk) (bounded limit : Z) (s : stream) (c : copying)
    : stream * copying * result up_exn () :=
  match fuel with
  | O => (s, c, Err Diverged)
  | S fuel =>
      match read bounded s with
      | (s, None) => (s, c, Err ReadError)
      | (s, Some []) => (s, c, Ok ())
      | (s, Some chunk) =>
          if (0 <? limit) && (limit <? bytes_written c + zlen chunk) then (s, c, Err RequestEntityTooLarge)
          else if no_space d (zlen (tmp_file c) + zlen chunk) then (s, c, Err OSError)
          else copy_loop fuel d bounded limit s
                 (Copying (tmp_file c ++ chunk) (hashed c ++ chunk) (bytes_written c + zlen chunk))
      end
  end.

Definition copy (d : disk) (bounded limit : Z) (s : stream) (c : copying) : stream * copying * result up_exn () :=
  copy_loop (S (length (rest s))) d bounded limit s c.

(** * Files *)

Notation fs := (gmap str bytes).

(** [except Exception] for the exception [e]: the temporary file is removed, then the destination,
    and [e] is raised again.  What the first removal raises, or looking for the destination, leaves
    the block in its place; what the second removal raises is dropped. *)
Definition cleanup (d : disk) (tmp : option str) (dest : str) (e : up_exn) (f : fs) : up_exn * fs :=
  if bool_decide (is_Some tmp) && negb (unlink_tmp_ok d) then (OSError, f) else
  let f := match tmp with Some t => delete t f | None => f end in
  if negb (probe_ok d) then (OSError, f) else (e, if unlink_ok d then delete dest f else f).

Definition failed (r : up_exn * fs) : result up_exn (str * Z) * fs := (Err r.1, r.2).

(** What follows the loop: flush, fsync and the move over the destination. *)
Definition move_into_place (d : disk) (tmp dest : str) (f : fs) (c : copying) (r : result up_exn ())
    : result up_exn (str * Z) * fs :=
  let f := <[tmp := tmp_file c]> f in
  match r with
  | Err e => failed (cleanup d (Some tmp) dest e f)
  | Ok _ =>
      if negb (fsync_ok d) then failed (cleanup d (Some tmp) dest OSError f)
      else match moved d with
           | MoveDone => (Ok (sha256_hex (hashed c), bytes_written c), <[dest := tmp_file c]> (delete tmp f))
           | MoveFails None => failed (cleanup d (Some tmp) dest OSError f)
           | MoveFails (Some k) => failed (cleanup d (Some tmp) dest OSError (<[dest := take k (tmp_file c)]> f))
           end
  end.

Definition start : copying := Copying [] [] 0.

Section helpers.
  Context `{Unicode} (g : option upload_config) (d : disk).

(** [hash_stream_to_path]; what it leaves of the source comes last. *)
Definition hash_stream_to_path (f : fs) (source : stream) (dest : str) (chunk_size max_size temp_dir : pyval)
    : result up_exn (str * Z) * fs * stream :=
  match resolve_chunk_bytes g chunk_size, resolve_max_bytes g max_size with
  | Err e, _ => (Err (Raised e), f, source)
  | _, Err e => (Err (Raised e), f, source)
  | Ok bounded, Ok limit =>
      if negb (mkdir_ok d) then (Err OSError, f, source)
      else match mkstemp d (resolve_temp_dir g temp_dir) with
           | None => (failed (cleanup d None dest OSError f), source)
           | Some tmp =>
               let '(source, c, r) := copy d bounded limit source start in
               (move_into_place d tmp dest f c r, source)
           end
  end.

Fixpoint concat_loop (f : fs) (bounded limit : Z) (paths : list str) (c : copying)
    : copying * result up_exn () :=
  match paths with
  | [] => (c, Ok ())
  | path :: paths =>
      match f !! path with
      | None => (c, Err FileNotFound)
      | Some content =>
          match copy d bounded limit (open_rb content) c with
          | (_, c, Ok _) => concat_loop f bounded limit paths c
          | (_, c, Err e) => (c, Err e)
          end
      end
  end.

Definition hash_paths_concat (f : fs) (paths : list str) (dest : str) (chunk_size max_size : pyval)
    : result up_exn (str * Z) * fs :=
  match resolve_chunk_bytes g chunk_size, resolve_max_bytes g max_size with
  | Err e, _ => (Err (Raised e), f)
  | _, Err e => (Err (Raised e), f)
  | Ok bounded, Ok limit =>
      if negb (mkdir_ok d) then (Err OSError, f)
      else match mkstemp d None with
           | None => failed (cleanup d None dest OSError f)
           | Some tmp =>
               let '(c, r) := concat_loop f bounded limit paths start in
               move_into_place d tmp dest f c r
           end
  end.

Fixpoint hash_loop (fuel : nat) (bounded : Z) (s : stream) (hashed : bytes) : result up_exn bytes :=
  match fuel with
  | O => Err Diverged
  | S fuel =>
      match read bounded s with
      | (_, None) => Err ReadError
      | (_, Some []) => Ok hashed
      | (s, Some chunk) => hash_loop fuel bounded s (hashed ++ chunk)
      end
  end.

Definition sha256_path_bounded (f : fs) (path : str) (chunk_size : pyval) : result up_exn str :=
  match resolve_chunk_bytes g chunk_size with
  | Err e => Err (Raised e)
  | Ok bounded =>
      match f !! path with
      | None => Err FileNotFound
      | Some content => sha256_hex <$> hash_loop (S (length content)) bounded (open_rb content) []
      end
  end.
End helpers.

(** * StreamingFileStorage *)

Record storage := Storage {
  st_stream : stream;
  st_max_size : Z;
  st_chunk_size : Z;
  st_temp_dir : option str;
  materialized_path : option str;
  st_bytes_written : Z;
  hash_computed : bool;
  st_digest : option str;
}.

(** A temporary directory as an optional Python string. *)
Definition opt_str (o : option str) : pyval := match o with Some s => PStr s | None => PNone end.

Section storage.
  Context `{Unicode} (g : option upload_config) (d : disk).

Definition new_storage (s : stream) (max_size : Z) (chunk_size temp_dir : pyval) : result exn storage :=
  chunk ← resolve_chunk_bytes g chunk_size;
  Ok (Storage s max_size chunk (resolve_temp_dir g temp_dir) None 0 false None).

Definition computed_hash (st : storage) : option str := if hash_computed st then st_digest st else None.

Definition save (st : storage) (f : fs) (dst : str) : result up_exn () * fs * storage :=
  let stream_out :=
    let '(r, f, s) := hash_stream_to_path g d f (st_stream st) dst (PInt (st_chunk_size st)) (PInt (st_max_size st))
                        (opt_str (st_temp_dir st)) in
    match r with
    | Err e => (Err e, f, Storage s (st_max_size st) (st_chunk_size st) (st_temp_dir st) (materialized_path st)
                            (st_bytes_written st) (hash_computed st) (st_digest st))
    | Ok (digest, written) =>
        (Ok (), f, Storage s (st_max_size st) (st_chunk_size st) (st_temp_dir st) (Some dst) written true (Some digest))
    end in
  match hash_computed st, materialized_path st with
  | true, Some path =>
      match f !! path with
      | Some content =>                                                        (* shutil.copyfile *)
          if bool_decide (path = dst) then (Err SameFileError, f, st) else (Ok (), <[dst := content]> f, st)
      | None => stream_out
      end
  | _, _ => stream_out
  end.

Definition create_streaming_file_storage (s : stream) : result exn storage :=
  max_size ← resolve_max_bytes g (match g with Some c => upload_max_bytes c | None => PNone end);
  max_size ← (match g with
              | Some c => if max_size =? 0
                          then py_to_int (if truthy (max_video_bytes c) then max_video_bytes c else PInt 0)
                          else Ok max_size
              | None => Ok max_size
              end);
  chunk_size ← resolve_chunk_bytes g (match g with Some c => upload_chunk_bytes c | None => PNone end);
  new_storage s max_size (PInt chunk_size)
    (opt_str (resolve_temp_dir g (match g with Some c => upload_temp_dir c | None => PNone end))).
End storage.

(** * Reads *)

Lemma read_spec n s s' chunk :
  1 ≤ n → read n s = (s', Some chunk) →
  rest s = chunk ++ rest s' ∧ zlen chunk ≤ n ∧ (chunk = [] → rest s = []).
Proof.
  intros Hn. unfold read. destruct (cuts s) as [|[c|] cs]; [| |done]; intros [= <- <-]; cbn [rest].
  all: rewrite take_drop; split; [done|]; split;
    [unfold zlen; rewrite length_take; lia|].
  all: intros Ht%(f_equal length); rewrite length_take in Ht; cbn in Ht; apply nil_length_inv; lia.
Qed.

Definition steady (s : stream) : Prop := Forall is_Some (cuts s).

Lemma read_steady n s : steady s → ∃ s' chunk, read n s = (s', Some chunk) ∧ steady s'.
Proof.
  unfold steady, read. intros Hs. destruct Hs as [|c cs [k ->] Hcs]; [|eauto].
  do 2 eexists. split; [done|constructor].
Qed.

(** * What the loop does *)

(** The three views of what was written agree. *)
Definition in_step (c : copying) : Prop := hashed c = tmp_file c ∧ bytes_written c = zlen (tmp_file c).

Definition within (limit n : Z) : Prop := 0 < limit → n ≤ limit.

Lemma start_in_step : in_step start.
Proof. done. Qed.

Lemma copy_loop_spec fuel d bounded limit s c s' c' r :
  1 ≤ bounded → (length (rest s) < fuel)%nat → in_step c → within limit (bytes_written c) →
  copy_loop fuel d bounded limit s c = (s', c', r) →
  in_step c' ∧ within limit (bytes_written c') ∧ r ≠ Err Diverged ∧
  (r = Ok () → rest s' = [] ∧ tmp_file c' = tmp_file c ++ rest s) ∧
  (steady s → capacity d = None →
     r = (if (0 <? limit) && (limit <? bytes_written c + zlen (rest s)) then Err RequestEntityTooLarge else Ok ())).
Proof.
  intros Hb. revert s c. induction fuel as [|fuel IH]; intros s c Hf Hc Hw; [lia|]. cbn [copy_loop].
  destruct (read bounded s) as [s1 [chunk|]] eqn:Hr.
  2: { intros [= <- <- <-]. split_and!; try done. intros Hs _.
       destruct (read_steady bounded s Hs) as (? & ? & Hr' & _). congruence. }
  destruct (read_spec _ _ _ _ Hb Hr) as (Hrest & Hlen & Hend). destruct chunk as [|x chunk].
  { rewrite Hend in * by done. intros [= <- <- <-]. split_and!; try done.
    - intros _. rewrite app_nil_r. split; [by destruct (rest s1)|done].
    - intros _ _. change (zlen (@nil Z)) with 0. rewrite Z.add_0_r. unfold within in Hw.
      destruct (Z.ltb_spec 0 limit), (Z.ltb_spec limit (bytes_written c)); cbn; [lia|done..]. }
  remember (x :: chunk) as ch eqn:Hch. pose proof (zlen_nonneg (rest s1)).
  destruct ((0 <? limit) && (limit <? bytes_written c + zlen ch)) eqn:Hlim.
  { intros [= <- <- <-]. split_and!; try done. intros _ _. apply andb_prop in Hlim as [H0 H1].
    rewrite H0. cbn [andb]. rewrite Hrest, zlen_app. by destruct (Z.ltb_spec limit (bytes_written c + (zlen ch + zlen (rest s1)))); [|lia]. }
  destruct (no_space d (zlen (tmp_file c) + zlen ch)) eqn:Hsp.
  { intros [= <- <- <-]. split_and!; try done. intros _ Hcap. unfold no_space in Hsp. by rewrite Hcap in Hsp. }
  destruct Hc as [Hc1 Hc2]. intros Hloop. apply IH in Hloop as (Hi & Hw' & Hd & Hok & Hh).
  - split_and!; [done..| |].
    + intros Hk. destruct (Hok Hk) as [? Ht]. split; [done|]. cbn in Ht. by rewrite Ht, Hrest, app_assoc.
    + intros Hs Hcap. rewrite Hh; [|by destruct (read_steady bounded s Hs) as (? & ? & [= <- <-]%(eq_trans (eq_sym Hr)) & ?)|done].
      cbn [bytes_written]. by rewrite Hrest, zlen_app, Z.add_assoc.
  - rewrite Hrest, length_app in Hf. subst ch. cbn in Hf. lia.
  - split; cbn; [by rewrite Hc1|]. rewrite zlen_app. lia.
  - unfold within in *. cbn. intros Hl. apply andb_false_iff in Hlim as [?|?]; lia.
Qed.

Lemma copy_spec d bounded limit s c s' c' r :
  1 ≤ bounded → in_step c → within limit (bytes_written c) → copy d bounded limit s c = (s', c', r) →
  in_step c' ∧ within limit (bytes_written c') ∧ r ≠ Err Diverged ∧
  (r = Ok () → rest s' = [] ∧ tmp_file c' = tmp_file c ++ rest s) ∧
  (steady s → capacity d = None →
     r = (if (0 <? limit) && (limit <? bytes_written c + zlen (rest s)) then Err RequestEntityTooLarge else Ok ())).
Proof. intros ? ? ?. apply copy_loop_spec; [done|lia|done|done]. Qed.

(** * Settings stay in range *)

Section bounds.
  Context `{Unicode}.

Lemma clamp_chunk_range value m z :
  clamp_chunk_bytes value m = Ok z → (if m then MIN_CHUNK_BYTES else 1) ≤ z ≤ MAX_CHUNK_BYTES.
Proof.
  unfold clamp_chunk_bytes, DEFAULT_CHUNK_BYTES, MIN_CHUNK_BYTES, MAX_CHUNK_BYTES.
  destruct value; [intros [= <-]; destruct m; lia|..];
    (destruct (py_to_int _) as [k|[]]; intros Hz; try discriminate Hz; try (injection Hz as <-; destruct m; lia);
     destruct (Z.leb_spec k 0); [injection Hz as <-; destruct m; lia|]; destruct m; cbn [andb] in Hz;
     [destruct (Z.ltb_spec k 4096); [injection Hz as <-; lia|]|];
     destruct (Z.ltb_spec 1048576 k); injection Hz as <-; lia).
Qed.

Lemma resolve_chunk_range g explicit z :
  resolve_chunk_bytes g explicit = Ok z → 1 ≤ z ≤ MAX_CHUNK_BYTES.
Proof.
  unfold resolve_chunk_bytes. destruct explicit, g; try apply clamp_chunk_range.
  - intros Hz%clamp_chunk_range. unfold MIN_CHUNK_BYTES in Hz. lia.
  - intros [= <-]. unfold DEFAULT_CHUNK_BYTES, MAX_CHUNK_BYTES. lia.
Qed.

Lemma resolve_chunk_int g z : 1 ≤ z ≤ MAX_CHUNK_BYTES → resolve_chunk_bytes g (PInt z) = Ok z.
Proof.
  intros Hz. unfold resolve_chunk_bytes, clamp_chunk_bytes. cbn.
  destruct g; (destruct (Z.leb_spec z 0); [lia|]); (destruct (Z.ltb_spec MAX_CHUNK_BYTES z); [lia|done]).
Qed.

Lemma resolve_max_int g z : resolve_max_bytes g (PInt z) = Ok (Z.max 0 z).
Proof. by destruct g. Qed.

Lemma resolve_max_nonneg g explicit z : resolve_max_bytes g explicit = Ok z → 0 ≤ z.
Proof.
  assert (∀ v, nonneg_int v = Ok z → 0 ≤ z) as Hn.
  { intros v. unfold nonneg_int. destruct (py_to_int v); cbn; [intros [= <-]; lia|done]. }
  unfold resolve_max_bytes. destruct explicit, g as [[c []  []  t]|]; try apply Hn; intros [= <-]; lia.
Qed.
End bounds.

(** * Files after a run *)

(** The temporary names are fresh. *)
Definition fresh_tmp (d : disk) (f : fs) (dest : str) : Prop :=
  ∀ dir t, mkstemp d dir = Some t → f !! t = None ∧ t ≠ dest.

(** Nothing is refused by the operating system. *)
Record healthy (d : disk) : Prop := {
  h_mkdir : mkdir_ok d = true;
  h_mkstemp : ∀ dir, is_Some (mkstemp d dir);
  h_capacity : capacity d = None;
  h_fsync : fsync_ok d = true;
  h_move : moved d = MoveDone;
  h_unlink_tmp : unlink_tmp_ok d = true;
  h_probe : probe_ok d = true;
  h_unlink : unlink_ok d = true;
}.

(** The [except] block can remove what it removes. *)
Definition tidy (d : disk) : bool := unlink_tmp_ok d && probe_ok d && unlink_ok d.

(** The files after an attempt with the temporary file [tmp].  A success leaves the content at
    the destination and nothing else.  After a failure no other file has changed, and the
    destination is as before, gone, or holds what a failed move copied; when the [except] block
    can remove files, there is no temporary file and the destination is as before or gone. *)
Definition all_or_nothing (d : disk) (tmp : option str) (f : fs) (dest : str) (content : bytes) (limit : Z)
    (r : result up_exn (str * Z)) (f' : fs) : Prop :=
  match r with
  | Ok (digest, n) =>
      f' = <[dest := content]> f ∧ digest = sha256_hex content ∧ n = zlen content ∧ within limit n
  | Err e =>
      e ≠ Diverged ∧ (tidy d = true → f' = f ∨ f' = delete dest f) ∧
      (∀ p, p ≠ dest → tmp ≠ Some p → f' !! p = f !! p) ∧
      (f' !! dest = None ∨ f' !! dest = f !! dest ∨
       ∃ k, moved d = MoveFails (Some k) ∧ f' !! dest = Some (take k content))
  end.

(** What the [except] block leaves of files [f1] that differ from [f] in the temporary file and,
    where a move failed, in the destination. *)
Lemma cleanup_spec d tmp dest f f1 e content limit :
  (∀ t, tmp = Some t → f !! t = None ∧ t ≠ dest) → e ≠ Diverged →
  (∀ p, p ≠ dest → tmp ≠ Some p → f1 !! p = f !! p) →
  (f1 !! dest = f !! dest ∨ ∃ k, moved d = MoveFails (Some k) ∧ f1 !! dest = Some (take k content)) →
  all_or_nothing d tmp f dest content limit (Err (cleanup d tmp dest e f1).1) (cleanup d tmp dest e f1).2.
Proof.
  intros Hfresh He Hother Hdest. set (f2 := match tmp with Some t => delete t f1 | None => f1 end).
  assert (∀ p, p ≠ dest → f2 !! p = f !! p) as H2.
  { intros p Hp. subst f2. destruct tmp as [t|]; [|by apply Hother]. destruct (Hfresh t eq_refl) as [Ht _].
    destruct (decide (p = t)) as [->|Hne]; [by rewrite lookup_delete_eq|rewrite lookup_delete_ne by done].
    apply Hother; [done|congruence]. }
  assert (f2 !! dest = f1 !! dest) as H2d.
  { subst f2. destruct tmp as [t|]; [|done]. destruct (Hfresh t eq_refl) as [_ Ht]. by rewrite lookup_delete_ne. }
  unfold cleanup, all_or_nothing, tidy. fold f2. cbn zeta. destruct (bool_decide (is_Some tmp) && negb (unlink_tmp_ok d)) eqn:Hu.
  { apply andb_true_iff in Hu as [_ ->%negb_true_iff]. cbn. split_and!; [done|done|done|tauto]. }
  destruct (probe_ok d); cbn [negb fst snd].
  2: { rewrite andb_false_r. cbn. rewrite H2d. split_and!; [done|done|auto|tauto]. }
  destruct (unlink_ok d).
  - split_and!; [done| | |left; apply lookup_delete_eq].
    + intros _. right. apply map_eq. intros p.
      destruct (decide (p = dest)) as [->|Hp]; [by rewrite !lookup_delete_eq|rewrite !lookup_delete_ne by done; auto].
    + intros p Hp _. rewrite lookup_delete_ne by done. auto.
  - rewrite andb_false_r. cbn. rewrite H2d. split_and!; [done|done|auto|tauto].
Qed.

Lemma move_spec d tmp dest f c r limit :
  f !! tmp = None → tmp ≠ dest → in_step c → within limit (bytes_written c) → r ≠ Err Diverged →
  all_or_nothing d (Some tmp) f dest (tmp_file c) limit (move_into_place d tmp dest f c r).1 (move_into_place d tmp dest f c r).2.
Proof.
  intros Hf Hne [Hh Hn] Hw Hd. unfold move_into_place.
  assert (∀ e, e ≠ Diverged → all_or_nothing d (Some tmp) f dest (tmp_file c) limit
    (failed (cleanup d (Some tmp) dest e (<[tmp := tmp_file c]> f))).1 (failed (cleanup d (Some tmp) dest e (<[tmp := tmp_file c]> f))).2) as He.
  { intros e He. apply cleanup_spec; [by intros t [= <-]|done| |].
    - intros p _ Hp. rewrite lookup_insert_ne by congruence. done.
    - left. by rewrite lookup_insert_ne. }
  destruct r as [[]|e]; cbn zeta; [|apply He; congruence].
  destruct (fsync_ok d); cbn [negb]; [|by apply He]. destruct (moved d) as [|[k|]] eqn:Hm; [|apply cleanup_spec|by apply He].
  - cbn. rewrite delete_insert_id by done. by rewrite Hh, Hn in *.
  - by intros t [= <-].
  - done.
  - intros p Hp Hpt. rewrite !lookup_insert_ne by congruence. done.
  - right. exists k. split; [done|]. apply lookup_insert_eq.
Qed.

Lemma move_healthy d tmp dest f c r :
  f !! tmp = None → healthy d → in_step c →
  move_into_place d tmp dest f c r =
  match r with
  | Ok _ => (Ok (sha256_hex (tmp_file c), zlen (tmp_file c)), <[dest := tmp_file c]> f)
  | Err e => (Err e, delete dest f)
  end.
Proof.
  intros Hf Hd [Hh Hn]. unfold move_into_place, failed, cleanup.
  rewrite (h_fsync d Hd), (h_move d Hd), (h_unlink_tmp d Hd), (h_probe d Hd), (h_unlink d Hd). rewrite andb_false_r. cbn [negb fst snd].
  destruct r; cbn zeta; rewrite delete_insert_id by done; by rewrite ?Hh, ?Hn.
Qed.

Lemma concat_loop_spec d f bounded limit paths c c' r :
  1 ≤ bounded → in_step c → within limit (bytes_written c) → concat_loop d f bounded limit paths c = (c', r) →
  in_step c' ∧ within limit (bytes_written c') ∧ r ≠ Err Diverged ∧
  (r = Ok () → ∃ parts, Forall2 (λ p x, f !! p = Some x) paths parts ∧ tmp_file c' = tmp_file c ++ mjoin parts).
Proof.
  intros Hb. revert c. induction paths as [|path paths IH]; intros c Hc Hw; cbn [concat_loop].
  { intros [= <- <-]. split_and!; try done. intros _. exists []. split; [constructor|]. by rewrite app_nil_r. }
  destruct (f !! path) as [content|] eqn:Hp; [|intros [= <- <-]; done].
  destruct (copy d bounded limit (open_rb content) c) as [[s1 c1] r1] eqn:Hcp.
  apply copy_spec in Hcp as (Hc1 & Hw1 & Hd1 & Hok1 & _); [|done..]. destruct r1 as [[]|e].
  - intros Hl. apply IH in Hl as (? & ? & ? & Hok); [|done..]. split_and!; try done. intros Hr.
    destruct (Hok Hr) as (parts & Hparts & Ht). exists (content :: parts). split; [by constructor|].
    destruct (Hok1 eq_refl) as [_ Ht1]. rewrite Ht, Ht1. cbn. by rewrite app_assoc.
  - intros [= <- <-]. done.
Qed.

Lemma zlen_join_cons (x : bytes) xs : zlen (mjoin (x :: xs)) = zlen x + zlen (mjoin xs).
Proof. apply zlen_app. Qed.

Lemma concat_loop_healthy d f bounded limit paths parts c :
  1 ≤ bounded → capacity d = None → in_step c → within limit (bytes_written c) →
  Forall2 (λ p x, f !! p = Some x) paths parts →
  (concat_loop d f bounded limit paths c).2 =
  if (0 <? limit) && (limit <? bytes_written c + zlen (mjoin parts)) then Err RequestEntityTooLarge else Ok ().
Proof.
  intros Hb Hcap Hc Hw Hp. revert c Hc Hw. induction Hp as [|path content paths parts Hp Hps IH]; intros c Hc Hw; cbn [concat_loop].
  { change (zlen (mjoin [])) with 0. rewrite Z.add_0_r. unfold within in Hw.
    destruct (Z.ltb_spec 0 limit), (Z.ltb_spec limit (bytes_written c)); cbn; [lia|done..]. }
  rewrite Hp. destruct (copy d bounded limit (open_rb content) c) as [[s1 c1] r1] eqn:Hcp.
  apply copy_spec in Hcp as (Hc1 & Hw1 & _ & Hok1 & Hr1); [|done..].
  specialize (Hr1 ltac:(constructor) Hcap). cbn [rest open_rb] in *.
  rewrite zlen_join_cons.
  pose proof (zlen_nonneg (mjoin parts)). destruct ((0 <? limit) && (limit <? bytes_written c + zlen content)) eqn:E; subst r1; cbn [snd].
  - apply andb_prop in E as [E0 E1]. rewrite E0. cbn [andb]. by rewrite (proj2 (Z.ltb_lt _ _)) by lia.
  - destruct (Hok1 eq_refl) as [_ Ht]. rewrite IH by done. destruct Hc as [_ Hc], Hc1 as [_ ->].
    rewrite Ht, zlen_app, <- Hc, Z.add_assoc. done.
Qed.

(** * Theorems *)

Section theorems.
  Context `{Unicode} (g : option upload_config) (d : disk).

Lemma hash_stream_spec f s dest chunk_size max_size temp_dir limit :
  fresh_tmp d f dest → resolve_max_bytes g max_size = Ok limit →
  let '(r, f', _) := hash_stream_to_path g d f s dest chunk_size max_size temp_dir in
  all_or_nothing d (mkstemp d (resolve_temp_dir g temp_dir)) f dest (rest s) limit r f'.
Proof.
  intros Hfresh Hmax. unfold hash_stream_to_path. rewrite Hmax.
  destruct (resolve_chunk_bytes g chunk_size) as [bounded|e] eqn:Hch; [|by split_and!; auto].
  apply resolve_chunk_range in Hch. destruct (mkdir_ok d); cbn [negb]; [|by split_and!; auto].
  destruct (mkstemp d (resolve_temp_dir g temp_dir)) as [tmp|] eqn:Htmp.
  2: { apply (cleanup_spec d None dest f f OSError); [done..|by left]. }
  destruct (Hfresh _ _ Htmp) as [Hf Hne]. pose proof (resolve_max_nonneg _ _ _ Hmax).
  destruct (copy d bounded limit s start) as [[s' c] r] eqn:Hcp.
  apply copy_spec in Hcp as (Hc & Hw & Hd & Hok & _); [|lia|apply start_in_step|unfold within; cbn; lia].
  pose proof (move_spec d tmp dest f c r limit Hf Hne Hc Hw Hd) as Hfin. destruct r as [[]|e].
  - destruct (Hok eq_refl) as [_ Ht]. rewrite Ht in Hfin. by destruct (move_into_place d tmp dest f c (Ok ())).
  - unfold move_into_place in *. cbn zeta in *. cbn [failed fst snd] in *.
    eapply cleanup_spec; [by intros t [= <-]|congruence| |left; by rewrite lookup_insert_ne].
    intros p _ Hp. rewrite lookup_insert_ne by congruence. done.
Qed.

Lemma hash_stream_healthy f s dest chunk_size max_size temp_dir bounded limit :
  healthy d → fresh_tmp d f dest → steady s →
  resolve_chunk_bytes g chunk_size = Ok bounded → resolve_max_bytes g max_size = Ok limit →
  (hash_stream_to_path g d f s dest chunk_size max_size temp_dir).1 =
  if (0 <? limit) && (limit <? zlen (rest s)) then (Err RequestEntityTooLarge, delete dest f)
  else (Ok (sha256_hex (rest s), zlen (rest s)), <[dest := rest s]> f).
Proof.
  intros Hd Hfresh Hs Hch Hmax. unfold hash_stream_to_path. rewrite Hch, Hmax, (h_mkdir d Hd). cbn [negb].
  destruct (h_mkstemp d Hd (resolve_temp_dir g temp_dir)) as [tmp Htmp]. rewrite Htmp.
  destruct (Hfresh _ _ Htmp) as [Hf _]. apply resolve_chunk_range in Hch. pose proof (resolve_max_nonneg _ _ _ Hmax).
  destruct (copy d bounded limit s start) as [[s' c] r] eqn:Hcp.
  apply copy_spec in Hcp as (Hc & _ & _ & Hok & Hr); [|lia|apply start_in_step|unfold within; cbn; lia].
  specialize (Hr Hs (h_capacity d Hd)). cbn [fst]. rewrite move_healthy by done. change (bytes_written start) with 0 in Hr.
  rewrite Z.add_0_l in Hr. destruct (_ && _); subst r; [done|]. by destruct (Hok eq_refl) as [_ ->].
Qed.

Lemma hash_paths_healthy f paths parts dest chunk_size max_size bounded limit :
  healthy d → fresh_tmp d f dest → Forall2 (λ p x, f !! p = Some x) paths parts →
  resolve_chunk_bytes g chunk_size = Ok bounded → resolve_max_bytes g max_size = Ok limit →
  hash_paths_concat g d f paths dest chunk_size max_size =
  if (0 <? limit) && (limit <? zlen (mjoin parts)) then (Err RequestEntityTooLarge, delete dest f)
  else (Ok (sha256_hex (mjoin parts), zlen (mjoin parts)), <[dest := mjoin parts]> f).
Proof.
  intros Hd Hfresh Hp Hch Hmax. unfold hash_paths_concat. rewrite Hch, Hmax, (h_mkdir d Hd). cbn [negb].
  destruct (h_mkstemp d Hd None) as [tmp Htmp]. rewrite Htmp.
  destruct (Hfresh _ _ Htmp) as [Hf _]. apply resolve_chunk_range in Hch. pose proof (resolve_max_nonneg _ _ _ Hmax).
  assert (within limit (bytes_written start)) as Hw0 by (unfold within; cbn; lia).
  pose proof (concat_loop_healthy d f bounded limit paths parts start ltac:(lia) (h_capacity d Hd) start_in_step Hw0 Hp) as Hr.
  destruct (concat_loop d f bounded limit paths start) as [c r] eqn:Hcp.
  apply concat_loop_spec in Hcp as (Hc & _ & _ & Hok); [|lia|apply start_in_step|done].
  rewrite move_healthy by done. cbn [snd] in Hr. change (bytes_written start) with 0 in Hr. rewrite Z.add_0_l in Hr.
  destruct (_ && _); subst r; [done|]. destruct (Hok eq_refl) as (parts' & Hp' & ->). cbn [tmp_file start app].
  assert (parts' = parts) as ->; [|done]. clear -Hp Hp'. revert parts' Hp'.
  induction Hp as [|p x ps xs Hpx Hp IH]; intros parts' Hp'; inversion Hp'; subst; [done|]. f_equal; [congruence|auto].
Qed.
End theorems.

Section claims.
  Context `{Unicode} (g : option upload_config) (d : disk).

Lemma create_storage_spec s st :
  create_streaming_file_storage g s = Ok st →
  st_stream st = s ∧ 1 ≤ st_chunk_size st ≤ MAX_CHUNK_BYTES ∧ materialized_path st = None ∧ hash_computed st = false.
Proof.
  unfold create_streaming_file_storage. intros (m & _ & (m' & _ & (ch & Hch & Hst)%bind_ok)%bind_ok)%bind_ok.
  unfold new_storage in Hst. apply bind_ok in Hst as (ch' & Hch' & [= <-]). cbn.
  apply resolve_chunk_range in Hch'. done.
Qed.

(** A storage that has not been saved streams its source. *)
Lemma save_unsaved st f dst :
  hash_computed st = false →
  save g d st f dst =
  let '(r, f, s) := hash_stream_to_path g d f (st_stream st) dst (PInt (st_chunk_size st)) (PInt (st_max_size st))
                      (opt_str (st_temp_dir st)) in
  match r with
  | Err e => (Err e, f, Storage s (st_max_size st) (st_chunk_size st) (st_temp_dir st) (materialized_path st)
                          (st_bytes_written st) (hash_computed st) (st_digest st))
  | Ok (digest, written) =>
      (Ok (), f, Storage s (st_max_size st) (st_chunk_size st) (st_temp_dir st) (Some dst) written true (Some digest))
  end.
Proof. intros Hc. unfold save. rewrite Hc at 1. done. Qed.

Lemma save_healthy s st f dst :
  healthy d → fresh_tmp d f dst → steady s → create_streaming_file_storage g s = Ok st →
  let '(r, f', st') := save g d st f dst in
  (r, f') = (if (0 <? st_max_size st) && (st_max_size st <? zlen (rest s))
             then (Err RequestEntityTooLarge, delete dst f) else (Ok (), <[dst := rest s]> f)) ∧
  (r = Ok () → computed_hash st' = Some (sha256_hex (rest s)) ∧ st_bytes_written st' = zlen (rest s)).
Proof.
  intros Hd Hfresh Hsteady (Hs & Hch & _ & Hc)%create_storage_spec. rewrite save_unsaved by done. subst s.
  pose proof (hash_stream_healthy g d f (st_stream st) dst (PInt (st_chunk_size st)) (PInt (st_max_size st))
                (opt_str (st_temp_dir st)) _ _ Hd Hfresh Hsteady (resolve_chunk_int g _ Hch) (resolve_max_int g _)) as Hh.
  destruct (hash_stream_to_path _ _ _ _ _ _ _ _) as [p s']. cbn [fst] in Hh. subst p.
  pose proof (zlen_nonneg (rest (st_stream st))).
  assert ((0 <? Z.max 0 (st_max_size st)) && (Z.max 0 (st_max_size st) <? zlen (rest (st_stream st))) =
          (0 <? st_max_size st) && (st_max_size st <? zlen (rest (st_stream st)))) as ->.
  { destruct (Z.ltb_spec 0 (st_max_size st)); [by rewrite Z.max_r, (proj2 (Z.ltb_lt _ _)) by lia|by rewrite Z.max_l by lia]. }
  by destruct (_ && _).
Qed.

(** C18. Streaming upload: saving an upload stores its whole content, leaves every other file as
    it was with no temporary file, and reports that content's SHA-256 and length, within the size
    limit; or it fails (an oversized or failing source, a full disk, a failed sync or move) and
    reports no hash.  After a failure no file but the destination and the temporary file has
    changed.  When the files can be removed, the temporary file is gone and the destination is
    gone, or as before where nothing was tried.  When removing them fails too, the destination
    holds at most what a failed move copied of the content, and the temporary file may stay. *)
Theorem saved_upload_matches_hash s st f dst :
  create_streaming_file_storage g s = Ok st → fresh_tmp d f dst →
  let '(r, f', st') := save g d st f dst in
  match r with
  | Ok _ => f' = <[dst := rest s]> f ∧ computed_hash st' = Some (sha256_hex (rest s)) ∧
            st_bytes_written st' = zlen (rest s) ∧ (0 < st_max_size st → zlen (rest s) ≤ st_max_size st)
  | Err e =>
      e ≠ Diverged ∧ computed_hash st' = None ∧ (tidy d = true → f' = f ∨ f' = delete dst f) ∧
      (∀ p, p ≠ dst → mkstemp d (resolve_temp_dir g (opt_str (st_temp_dir st))) ≠ Some p → f' !! p = f !! p) ∧
      (f' !! dst = None ∨ f' !! dst = f !! dst ∨
       ∃ k, moved d = MoveFails (Some k) ∧ f' !! dst = Some (take k (rest s)))
  end.
Proof.
  intros (Hs & Hch & _ & Hc)%create_storage_spec Hfresh. rewrite save_unsaved by done.
  pose proof (hash_stream_spec g d f (st_stream st) dst (PInt (st_chunk_size st)) _
                (opt_str (st_temp_dir st)) _ Hfresh (resolve_max_int g (st_max_size st))) as Hh.
  destruct (hash_stream_to_path _ _ _ _ _ _ _ _) as [[[[digest n]|e] f'] s'].
  - destruct Hh as (-> & -> & -> & Hw). rewrite Hs in *. cbn. split_and!; try done. intros Hm. unfold within in Hw. lia.
  - destruct Hh as (He & Hf). rewrite Hs in Hf. unfold computed_hash. cbn. by rewrite Hc.
Qed.

(** Streaming upload: when the operating system refuses nothing and the source does
    not fail, an upload is accepted exactly when it fits the limit, whatever the chunk
    size and however the source cuts its reads. *)
Theorem upload_limit_exact s st f dst :
  healthy d → fresh_tmp d f dst → steady s → create_streaming_file_storage g s = Ok st →
  (save g d st f dst).1.1 =
  if (0 <? st_max_size st) && (st_max_size st <? zlen (rest s)) then Err RequestEntityTooLarge else Ok ().
Proof.
  intros Hd Hfresh Hsteady Hst. pose proof (save_healthy s st f dst Hd Hfresh Hsteady Hst) as Hs.
  destruct (save g d st f dst) as [[r f'] st']. destruct Hs as [Hs _]. cbn. by destruct (_ && _); injection Hs as -> ->.
Qed.

(** C19. Streaming upload: assembling stored parts gives the same digest, length, files
    and size check as streaming their concatenation in one piece. *)
Theorem assembled_parts_equal_stream f paths parts dest chunk_size max_size temp_dir bounded limit cs :
  healthy d → fresh_tmp d f dest → Forall2 (λ p x, f !! p = Some x) paths parts → Forall is_Some cs →
  resolve_chunk_bytes g chunk_size = Ok bounded → resolve_max_bytes g max_size = Ok limit →
  hash_paths_concat g d f paths dest chunk_size max_size =
  (hash_stream_to_path g d f (Stream (mjoin parts) cs) dest chunk_size max_size temp_dir).1.
Proof.
  intros Hd Hfresh Hp Hcs Hch Hmax. by rewrite (hash_paths_healthy g d _ _ parts _ _ _ bounded limit),
    (hash_stream_healthy g d _ _ _ _ _ _ bounded limit).
Qed.

Lemma hash_loop_spec fuel bounded s acc :
  1 ≤ bounded → (length (rest s) < fuel)%nat → steady s → hash_loop fuel bounded s acc = Ok (acc ++ rest s).
Proof.
  intros Hb. revert s acc. induction fuel as [|fuel IH]; intros s acc Hf Hs; [lia|]. cbn [hash_loop].
  destruct (read_steady bounded s Hs) as (s' & chunk & Hr & Hs'). rewrite Hr.
  destruct (read_spec _ _ _ _ Hb Hr) as (Hrest & _ & Hend). destruct chunk as [|x chunk].
  - by rewrite (Hend eq_refl), app_nil_r.
  - rewrite IH; [by rewrite Hrest, app_assoc| |done]. rewrite Hrest in Hf. cbn in Hf. rewrite length_app in Hf. lia.
Qed.

(** Streaming upload: hashing a stored file in bounded chunks ends and gives the
    SHA-256 of its content, whatever the configured chunk size. *)
Theorem bounded_hash_equals_sha256 f path content chunk_size bounded :
  f !! path = Some content → resolve_chunk_bytes g chunk_size = Ok bounded →
  sha256_path_bounded g f path chunk_size = Ok (sha256_hex content).
Proof.
  intros Hf Hch. unfold sha256_path_bounded. rewrite Hch, Hf. apply resolve_chunk_range in Hch.
  rewrite hash_loop_spec; [done|lia|cbn; lia|constructor].
Qed.

(** Streaming upload: saving twice copies the saved file as long as it is there; when
    it has been removed, the exhausted source is streamed again, and the second save
    succeeds with an empty file and reports the digest of the empty content. *)
Theorem resaved_upload_is_empty st f dst old :
  healthy d → fresh_tmp d f dst → hash_computed st = true → materialized_path st = Some old →
  rest (st_stream st) = [] → steady (st_stream st) → 1 ≤ st_chunk_size st ≤ MAX_CHUNK_BYTES → f !! old = None →
  let '(r, f', st') := save g d st f dst in
  r = Ok () ∧ f' !! dst = Some [] ∧ computed_hash st' = Some (sha256_hex []) ∧ st_bytes_written st' = 0.
Proof.
  intros Hd Hfresh Hc Hm Hrest Hs Hch Hold. unfold save. rewrite Hc, Hm, Hold.
  pose proof (hash_stream_healthy g d f (st_stream st) dst (PInt (st_chunk_size st)) (PInt (st_max_size st))
                (opt_str (st_temp_dir st)) _ _ Hd Hfresh Hs (resolve_chunk_int g _ Hch) (resolve_max_int g _)) as Hh.
  destruct (hash_stream_to_path _ _ _ _ _ _ _ _) as [p s']. cbn [fst] in Hh. subst p. rewrite Hrest.
  change (zlen (@nil Z)) with 0. rewrite (proj2 (Z.ltb_ge (Z.max 0 (st_max_size st)) 0)), andb_false_r by lia.
  cbn. by rewrite lookup_insert_eq.
Qed.

(** Streaming upload: an upload refused for its size removes the file that was at the
    destination before. *)
Theorem refused_upload_removes_previous s st f dst :
  healthy d → fresh_tmp d f dst → steady s → create_streaming_file_storage g s = Ok st →
  0 < st_max_size st < zlen (rest s) →
  (save g d st f dst).1 = (Err RequestEntityTooLarge, delete dst f).
Proof.
  intros Hd Hfresh Hsteady Hst Hsz. pose proof (save_healthy s st f dst Hd Hfresh Hsteady Hst) as Hs.
  destruct (save g d st f dst) as [[r f'] st']. destruct Hs as [Hs _].
  by rewrite (proj2 (Z.ltb_lt 0 _)), (proj2 (Z.ltb_lt _ _)) in Hs by lia.
Qed.
End claims.

(** Streaming upload: the minimum chunk size that the configuration path enforces is
    not enforced for uploads: the wrapper passes the configured value as an explicit
    one, and a configuration of one byte reads one byte at a time. *)
Theorem configured_minimum_bypassed `{Unicode} c s :
  upload_chunk_bytes c = PInt 1 → upload_max_bytes c = PNone → max_video_bytes c = PInt 10 →
  resolve_chunk_bytes (Some c) PNone = Ok MIN_CHUNK_BYTES ∧
  st_chunk_size <$> create_streaming_file_storage (Some c) s = Ok 1.
Proof.
  intros H1 H2 H3. unfold create_streaming_file_storage, new_storage, resolve_chunk_bytes, resolve_max_bytes.
  rewrite H1, H2, H3. done.
Qed.

(** * Witnesses *)

Definition sample_disk : disk := Disk true (λ _, Some (lit "/tmp/harpocrates-stream-0")) None true MoveDone true true true.

Definition sample_config : upload_config := UploadConfig (PInt 1) PNone (PInt 10) PNone.

Lemma sample_disk_healthy : healthy sample_disk.
Proof. by split. Qed.

Definition sample_files : fs := {[lit "/s/a" := [1; 2]; lit "/s/b" := [3]]}.

Lemma sample_fresh dst : dst ≠ lit "/tmp/harpocrates-stream-0" → fresh_tmp sample_disk sample_files dst.
Proof. intros Hd dir t [= <-]. split; [vm_compute; reflexivity|done]. Qed.

Definition sample_stream : stream := Stream [5; 6; 7] [Some 1; Some 9].

Definition sample_storage : storage :=
  Storage sample_stream 10 1 None None 0 false None.

Lemma sample_storage_created `{Unicode} : create_streaming_file_storage (Some sample_config) sample_stream = Ok sample_storage.
Proof. reflexivity. Qed.

(** A disk on which the move copies one byte and fails, and the temporary file cannot be removed. *)
Definition failing_disk : disk :=
  Disk true (λ _, Some (lit "/tmp/harpocrates-stream-0")) None true (MoveFails (Some 1%nat)) false true true.

Lemma failing_fresh dst : dst ≠ lit "/tmp/harpocrates-stream-0" → fresh_tmp failing_disk sample_files dst.
Proof. intros Hd dir t [= <-]. split; [vm_compute; reflexivity|done]. Qed.

Lemma saved_upload_matches_hash_witness :
  let '(r, f', st') := save (H := plain_unicode) (Some sample_config) failing_disk sample_storage sample_files (lit "/s/v") in
  match r with
  | Ok _ => f' = <[lit "/s/v" := [5; 6; 7]]> sample_files ∧ computed_hash st' = Some (sha256_hex [5; 6; 7]) ∧
            st_bytes_written st' = 3 ∧ (0 < 10 → 3 ≤ 10)
  | Err e =>
      e ≠ Diverged ∧ computed_hash st' = None ∧ (tidy failing_disk = true → f' = sample_files ∨ f' = delete (lit "/s/v") sample_files) ∧
      (∀ p, p ≠ lit "/s/v" → Some (lit "/tmp/harpocrates-stream-0") ≠ Some p → f' !! p = sample_files !! p) ∧
      (f' !! lit "/s/v" = None ∨ f' !! lit "/s/v" = sample_files !! lit "/s/v" ∨
       ∃ k, moved failing_disk = MoveFails (Some k) ∧ f' !! lit "/s/v" = Some (take k [5; 6; 7]))
  end.
Proof.
  apply (saved_upload_matches_hash (Some sample_config) failing_disk sample_stream sample_storage sample_files (lit "/s/v")).
  - apply sample_storage_created.
  - apply failing_fresh. vm_compute. discriminate.
Defined.

(** Streaming upload: on that disk the temporary file and a part of the content stay. *)
Example failed_removal_leaves_files :
  let '(r, f', _) := save (H := plain_unicode) (Some sample_config) failing_disk sample_storage sample_files (lit "/s/v") in
  r = Err OSError ∧ f' !! lit "/s/v" = Some [5] ∧ f' !! lit "/tmp/harpocrates-stream-0" = Some [5; 6; 7].
Proof. vm_compute. split_and!; reflexivity. Qed.

Lemma upload_limit_exact_witness :
  (save (H := plain_unicode) (Some sample_config) sample_disk sample_storage sample_files (lit "/s/v")).1.1 = Ok ().
Proof.
  apply (upload_limit_exact (Some sample_config) sample_disk sample_stream sample_storage sample_files (lit "/s/v")).
  - apply sample_disk_healthy.
  - apply sample_fresh. vm_compute. discriminate.
  - repeat constructor; by eexists.
  - apply sample_storage_created.
Defined.

Lemma assembled_parts_equal_stream_witness :
  hash_paths_concat (H := plain_unicode) None sample_disk sample_files [lit "/s/a"; lit "/s/b"] (lit "/s/v") (PInt 1) (PInt 3) =
  (hash_stream_to_path (H := plain_unicode) None sample_disk sample_files (Stream [1; 2; 3] []) (lit "/s/v") (PInt 1) (PInt 3) PNone).1.
Proof.
  apply (assembled_parts_equal_stream None sample_disk sample_files [lit "/s/a"; lit "/s/b"] [[1; 2]; [3]] (lit "/s/v")
           (PInt 1) (PInt 3) PNone 1 3 []).
  - apply sample_disk_healthy.
  - apply sample_fresh. vm_compute. discriminate.
  - repeat constructor; vm_compute; reflexivity.
  - constructor.
  - reflexivity.
  - reflexivity.
Defined.

Lemma bounded_hash_equals_sha256_witness :
  sha256_path_bounded (H := plain_unicode) None sample_files (lit "/s/a") PNone = Ok (sha256_hex [1; 2]).
Proof.
  apply (bounded_hash_equals_sha256 None sample_files (lit "/s/a") [1; 2] PNone DEFAULT_CHUNK_BYTES).
  - vm_compute; reflexivity.
  - reflexivity.
Defined.

Definition spent_storage : storage :=
  Storage (Stream [] []) 10 1 None (Some (lit "/s/gone")) 3 true (Some (sha256_hex [5; 6; 7])).

Lemma resaved_upload_is_empty_witness :
  let '(r, f', st') := save (H := plain_unicode) None sample_disk spent_storage sample_files (lit "/s/v") in
  r = Ok () ∧ f' !! lit "/s/v" = Some [] ∧ computed_hash st' = Some (sha256_hex []) ∧ st_bytes_written st' = 0.
Proof.
  apply (resaved_upload_is_empty None sample_disk spent_storage sample_files (lit "/s/v") (lit "/s/gone")).
  - apply sample_disk_healthy.
  - apply sample_fresh. vm_compute. discriminate.
  - reflexivity.
  - reflexivity.
  - reflexivity.
  - constructor.
  - cbn. unfold MAX_CHUNK_BYTES. lia.
  - vm_compute; reflexivity.
Defined.

Definition large_storage : storage := Storage (Stream (replicate 11 0) []) 10 1 None None 0 false None.

Lemma refused_upload_removes_previous_witness :
  (save (H := plain_unicode) (Some sample_config) sample_disk large_storage sample_files (lit "/s/a")).1 =
  (Err RequestEntityTooLarge, delete (lit "/s/a") sample_files).
Proof.
  apply (refused_upload_removes_previous (Some sample_config) sample_disk (Stream (replicate 11 0) []) large_storage
           sample_files (lit "/s/a")).
  - apply sample_disk_healthy.
  - apply sample_fresh. vm_compute. discriminate.
  - constructor.
  - reflexivity.
  - vm_compute. split; reflexivity.
Defined.

Lemma configured_minimum_bypassed_witness :
  resolve_chunk_bytes (H := plain_unicode) (Some sample_config) PNone = Ok MIN_CHUNK_BYTES ∧
  st_chunk_size <$> create_streaming_file_storage (H := plain_unicode) (Some sample_config) sample_stream = Ok 1.
Proof. apply (configured_minimum_bypassed sample_config sample_stream); reflexivity. Defined.
