(* ===== verification/Logging.v ===== *)
(** Redaction of log events and stored metadata: [backend/logging_utils.py], with
    [redact_metadata] of [backend/app.py].  The characters beyond ASCII that
    [str.isalnum] accepts are the class [Alnum].

    Shown: two values have the same redaction exactly when they differ only under
    sensitive keys, so redaction discloses nothing below such a key and loses nothing
    elsewhere; it is idempotent, and a log line of an event is that of its redaction. *)
From Stdlib Require Import ZArith Lia.
From stdpp Require Import base decidable strings numbers list.
From S2P Require Import Prelude PyStr Json MetadataErrors.

Open Scope Z_scope.

#[local] Arguments lit _ : simpl never.

(** [chr(c).isalnum()] for [c >= 128] *)
Class Alnum := alnum_tbl : Z → bool.

Definition REDACTED_VALUE : str := lit "[redacted]".

Definition SENSITIVE_KEYS : list str :=
  map lit ["authorization"; "cookie"; "credentialsecret"; "nullifiersecret"; "password"; "privatekey";
           "proof"; "publicinputs"; "rawbytes"; "secret"; "token"; "witness"].

Section redaction.
  Context `{Unicode} `{Alnum}.

Definition isalnum (c : Z) : bool :=
  if c <? 128
  then ((48 <=? c) && (c <=? 57)) || ((65 <=? c) && (c <=? 90)) || ((97 <=? c) && (c <=? 122))
  else alnum_tbl c.

Definition normalize_key (key : str) : str := filter (λ c, isalnum c = true) (py_lower key).

Definition is_sensitive_key (key : str) : bool :=
  let normalized := normalize_key key in
  bool_decide (normalized ∈ SENSITIVE_KEYS) || contains (lit "witness") normalized.

Fixpoint redact_sensitive (value : pyval) : pyval :=
  match value with
  | PDict kvs =>
      PDict (map (λ p, (p.1, if is_sensitive_key p.1 then PStr REDACTED_VALUE else redact_sensitive p.2)) kvs)
  | PList l => PList (map redact_sensitive l)
  | v => v
  end.

Definition redact_metadata (value : pyval) : option pyval :=
  match value with PDict _ => Some (redact_sensitive value) | _ => None end.

(** The message [log_structured] logs. *)
Definition log_structured (event : list (str * pyval)) : str := json_dumps true (redact_sensitive (PDict event)).

(** * What redaction hides *)

(** Equal but for what is below sensitive keys. *)
Inductive similar : pyval → pyval → Prop :=
  | sim_none : similar PNone PNone
  | sim_bool b : similar (PBool b) (PBool b)
  | sim_int z : similar (PInt z) (PInt z)
  | sim_float f : similar (PFloat f) (PFloat f)
  | sim_str s : similar (PStr s) (PStr s)
  | sim_list l l' : Forall2 similar l l' → similar (PList l) (PList l')
  | sim_dict d d' :
      Forall2 (λ p q, p.1 = q.1 ∧ (is_sensitive_key p.1 = true ∨ similar p.2 q.2)) d d' →
      similar (PDict d) (PDict d').

Lemma similar_redact v : ∀ v', similar v v' → redact_sensitive v = redact_sensitive v'.
Proof.
  induction v as [|b|z|f|s|l IH|d IH] using pyval_nested_ind; intros v' Hs; inversion Hs as [| | | | |? l' Hl|? d' Hd]; subst; try done; cbn.
  - f_equal. clear Hs. revert l' Hl. induction IH as [|x l Hx _ IHl]; intros l' Hl; inversion Hl; subst; [done|].
    cbn. f_equal; [by apply Hx|by apply IHl].
  - f_equal. clear Hs. revert d' Hd. induction IH as [|[k x] d Hx _ IHd]; intros d' Hd; inversion Hd as [|? [k' x'] ? ? [Hk Hr]]; subst; [done|].
    cbn in *. subst k'. f_equal; [|by apply IHd]. f_equal. destruct (is_sensitive_key k); [done|].
    destruct Hr as [?|Hr]; [done|by apply Hx].
Qed.

Lemma redact_similar v : ∀ v', redact_sensitive v = redact_sensitive v' → similar v v'.
Proof.
  induction v as [|b|z|f|s|l IH|d IH] using pyval_nested_ind; intros v'; destruct v' as [|b'|z'|f'|s'|l'|d']; cbn; try done;
    intros Heq; try (injection Heq as Heq; subst); constructor.
  - revert l' Heq. induction IH as [|x l Hx _ IHl]; intros [|x' l'] Heq; try done; constructor;
      cbn in Heq; injection Heq as ? ?; auto.
  - revert d' Heq. induction IH as [|[k x] d Hx _ IHd]; intros [|[k' x'] d'] Heq; try done; constructor;
      cbn in Heq; injection Heq as Hk Hv Ht; auto.
    cbn in *. subst k'. split; [done|]. destruct (is_sensitive_key k); [by left|right; auto].
Qed.

(** Redaction: two values are redacted to the same one exactly when they have the
    same shape, keys and contents outside the sensitive keys: nothing below a sensitive
    key, at any depth, can be told from the redacted value, and nothing else is lost. *)
Theorem redaction_hides_exactly v v' : redact_sensitive v = redact_sensitive v' ↔ similar v v'.
Proof. split; [apply redact_similar|apply similar_redact]. Qed.

Lemma redact_idempotent v : redact_sensitive (redact_sensitive v) = redact_sensitive v.
Proof.
  induction v as [|b|z|f|s|l IH|d IH] using pyval_nested_ind; cbn; try done; f_equal.
  - induction IH; cbn; congruence.
  - induction IH as [|[k x] d Hx _ IHd]; cbn in *; [done|]. f_equal; [|done]. f_equal.
    destruct (is_sensitive_key k); [done|]. exact Hx.
Qed.

(** Redaction: redacting again changes nothing, so an event already redacted is
    logged as it is. *)
Theorem logging_redacts_once event :
  log_structured event =
  match redact_sensitive (PDict event) with PDict d => log_structured d | _ => [] end.
Proof. unfold log_structured. cbn [redact_sensitive]. rewrite <- (redact_idempotent (PDict event)) at 1. done. Qed.
End redaction.

(** A key is sensitive whatever its case and punctuation. *)
#[local] Instance no_alnum : Alnum := λ _, false.

Lemma sensitive_spellings :
  Forall (λ k, is_sensitive_key (H := plain_unicode) (lit k) = true)
    ["Authorization"; "private_key"; "Nullifier-Secret"; "witnessMap"; "silent_witness_inputs"; "TOKEN"]%string.
Proof. repeat constructor; vm_compute; reflexivity. Qed.
