(* ===== verification/MediaRoutes.v ===== *)
(** The media endpoints of [backend/app.py]: embedding, extraction and chunked upload
    sessions, composed from the components they call: streaming ([StreamingUpload]),
    quarantine ([Quarantine]), metadata validation ([Envelope], [MetadataErrors]), the
    event store ([ProofStore]), redaction ([Logging]) and webhooks ([Webhook]).  FFmpeg
    and the encrypted workspace around it are the class [MediaTools]; a session's
    directory is a finite map from file names to contents.

    Shown: committing a session hashes, and embeds into, the concatenation of its chunks
    in index order, whatever the order of arrival and however often a chunk was sent
    again; a refused request stores no event and a successful one exactly one, holding
    the hash of the video returned and redacted metadata; chunks that never arrived are
    not noticed. *)
From Stdlib Require Import ZArith Lia.
From stdpp Require Import base decidable strings numbers gmap list sorting.
From S2P Require Import Prelude PyStr Json PyVal Sha256 MetadataErrors Envelope Quarantine.
From S2P Require Import Register ProofStore Webhook StreamingUpload Logging.

Open Scope Z_scope.

#[local] Arguments lit _ : simpl never.

(** * State, requests and answers *)

Record media_server := Server {
  sessions : gmap str fs;      (* harpocrates-session-<id> directories *)
  db : store;
  webhooks : hooks;
}.

(** The settings of the configuration read here. *)
Record media_config := MediaConfig {
  mc_max_content_length : Z;
  mc_max_video_bytes : Z;
  mc_max_metadata_bytes : Z;
  mc_retention_classes : list (str * Z);
}.

Record upload := Upload { up_filename : option str; up_content_type : option str; up_body : bytes }.

(** FFmpeg on a stored video: the output video with the metadata embedded, and the
    metadata found in a video ([PNone] when there is none). *)
Class MediaTools := {
  embed_video : bytes → list (str * pyval) → result exn bytes;
  extract_video : bytes → result exn (option (list (str * pyval)));
}.

Inductive media_reply :=
  | JsonError (status : Z) (message : str)            (* jsonify({"error": ...}), status *)
  | MetadataRefused (e : raised)                      (* metadata_error_response *)
  | Unsupported (e : QuarantineError)                 (* UNSUPPORTED_MEDIA_TYPE, 400 *)
  | Invalid (e : option QuarantineError)              (* the ValueError handler, 400 *)
  | TooLarge                                          (* PAYLOAD_TOO_LARGE, 413 *)
  | SessionCreated (session_id : str)
  | ChunkStored (size : Z) (sha256 : option str)
  | VideoReply (output : bytes) (source_hash embedded_hash metadata_hash : str)
  | Extracted (video_hash : str) (metadata_hash : option str) (metadata : option (list (str * pyval)))
  | Unhandled.                                        (* another exception: 500 *)

(** * Upload sessions *)

(** [f"chunk-{chunk_index}"] *)
Definition chunk_name (chunk_index : Z) : str := lit "chunk-" ++ dec_str chunk_index.

(** [int(f.name.split("-")[1])] *)
Definition chunk_key `{Unicode} (name : str) : option Z := split_on 45 name !! 1%nat ≫= py_int 10.

Definition key_le (p q : Z * str) : Prop := p.1 ≤ q.1.

#[export] Instance key_le_dec : RelDecision key_le.
Proof. intros p q. apply Z.le_dec. Defined.

(** The chunk files in ascending index; [None] when a name has no number. *)
Definition chunk_files `{Unicode} (dir : fs) : option (list str) :=
  keyed ← mapM (λ n, (λ k, (k, n)) <$> chunk_key n)
            (filter (λ n, starts_with (lit "chunk-") n = true) (map_to_list dir).*1);
  Some (merge_sort key_le keyed).*2.

Section routes.
  Context `{Unicode} `{RegisterEnv} `{IsoTime} `{FloatText} `{Alnum} `{MediaTools}.
  Context (cfg : media_config) (d : disk).

(** The attributes of the configuration the streaming helpers see: the upload settings
    are not fields of it. *)
Definition upload_settings : upload_config := UploadConfig PNone PNone (PInt (mc_max_video_bytes cfg)) PNone.

Definition create_upload_session (session_id : str) (w : media_server) : media_server * media_reply :=
  (Server (<[session_id := default ∅ (sessions w !! session_id)]> (sessions w)) (db w) (webhooks w),
   SessionCreated session_id).

Definition upload_chunk (session_id : str) (chunk_index : Z) (chunk : option stream) (w : media_server) : media_server * media_reply :=
  match sessions w !! session_id with
  | None => (w, JsonError 404 (lit "session not found"))
  | Some dir =>
      match chunk with
      | None => (w, JsonError 400 (lit "chunk is required"))
      | Some s =>
          if chunk_index <? 0 then (w, JsonError 400 (lit "chunk_index must be non-negative")) else
          match create_streaming_file_storage (Some upload_settings) s with
          | Err _ => (w, Unhandled)
          | Ok st =>
              let '(r, dir, st) := save (Some upload_settings) d st dir (chunk_name chunk_index) in
              (Server (<[session_id := dir]> (sessions w)) (db w) (webhooks w),
               match r with
               | Ok _ => ChunkStored (st_bytes_written st) (computed_hash st)
               | Err RequestEntityTooLarge => JsonError 413 (lit "chunk exceeds size limit")
               | Err _ => Unhandled
               end)
          end
      end
  end.

(** [json.loads] and [validate_embed_metadata]: the metadata, or the answer. *)
Definition parse_metadata (now : Z) (metadata_raw : str) : result media_reply (list (str * pyval)) :=
  match json_loads metadata_raw with
  | Err JSONDecodeError =>
      Err (MetadataRefused (RaisedMetadata (metadata_error METADATA_MALFORMED (Some (lit "metadata must be valid JSON")) None)))
  | Err IntDigitsError => Err (Invalid None)
  | Ok v =>
      match validate_v2 now v with
      | Err (Meta e) => Err (MetadataRefused (RaisedMetadata e))
      | Err (Other (ValueError text)) => Err (MetadataRefused (RaisedOther (lit text)))
      | Err (Other _) => Err Unhandled
      | Ok (PDict m) => Ok m                          (* validated in place, with its version raised *)
      | Ok _ => Err Unhandled
      end
  end.

(** [X-Harpocrates-Retention-Class], else the metadata's class, else the default. *)
Definition retention_choice (header : option str) (metadata : option (list (str * pyval))) : pyval :=
  match header with
  | Some ((_ :: _) as h) => PStr h
  | _ => match metadata with
         | Some m => default (PStr (lit "default")) (dict_get (lit "retentionClass") m)
         | None => PStr (lit "default")
         end
  end.

(** The class and the expiry, or the answer. *)
Definition retention_for (choice : pyval) (now : Z) : result media_reply (str * option Z) :=
  match in_str_set choice (mc_retention_classes cfg).*1, choice with
  | Err _, _ => Err Unhandled
  | Ok true, PStr c =>
      let days := default 0 (dict_get c (mc_retention_classes cfg)) in
      Ok (c, if 0 <=? days then Some (now + days * 86400) else None)
  | Ok _, _ => Err (JsonError 400 (lit "invalid retention class: " ++ py_str choice))
  end.

(** A text field of validated metadata. *)
Definition text_field (k : string) (m : list (str * pyval)) : option str :=
  match get_or_none (lit k) m with PStr s => Some s | _ => None end.

Definition media_event (kind : str) (name : option str) (video : str) (mhash : option str)
    (m : option (list (str * pyval))) (embedded : option str) (retention : option (str * option Z)) : event_data :=
  EventData kind name (Some video) mhash (m ≫= text_field "proofId") (m ≫= text_field "tier") embedded
    None None None None (fst <$> retention) (retention ≫= snd) (m ≫= λ x, redact_metadata (PDict x)) None None None None.

(** * Single uploads *)

(** [_enable_streaming_for_large_uploads] *)
Definition streamed (content_length : option Z) : bool :=
  match content_length with Some n => 1048576 <? n | None => false end.

(** [_enforce_video_size]: a streamed upload is checked against the declared length only,
    and while it is saved. *)
Definition enforce_video_size (content_length : option Z) (video : upload) : bool :=
  if streamed content_length then default 0 content_length <=? mc_max_content_length cfg
  else zlen (up_body video) <=? mc_max_video_bytes cfg.

Definition validate_video_upload (video : upload) : result media_reply () :=
  match up_filename video with
  | None | Some [] => Err (Invalid None)
  | _ =>
      let content_type := py_lower (default [] (up_content_type video)) in
      if negb (bool_decide (content_type = [])) && negb (starts_with (lit "video/") content_type) &&
         negb (bool_decide (content_type = lit "application/octet-stream"))
      then Err (Invalid None)
      else map_err (λ e, Invalid (Some e))
             (sniff_media_type_stream (up_body video) (up_filename video) (up_content_type video));; Ok ()
  end.

(** [isolate_upload] on the upload, saved under the limit when it is streamed. *)
Definition isolate (content_length : option Z) (video : upload) (name : option str) : result media_reply bytes :=
  if streamed content_length && (0 <? mc_max_video_bytes cfg) && (mc_max_video_bytes cfg <? zlen (up_body video))
  then Err TooLarge
  else content ← map_err Unsupported
                   (isolate_upload (Some (up_body video)) (up_filename video) (up_content_type video) name
                      (up_content_type video));
       Ok (default [] content).

(** The checks shared by the two endpoints. *)
Definition accept_video (content_length : option Z) (video : upload) : result media_reply () :=
  if enforce_video_size content_length video then validate_video_upload video
  else Err (JsonError 413 (lit "video payload exceeds size limit")).

Definition check_metadata_size (metadata_raw : str) : result media_reply () :=
  match utf8_len metadata_raw with
  | None => Err (Invalid None)
  | Some n =>
      if mc_max_metadata_bytes cfg <? n
      then Err (MetadataRefused (RaisedMetadata (metadata_error METADATA_OVERSIZED (Some (lit "metadata is too large")) None)))
      else Ok ()
  end.

Definition prepare_embed (now : Z) (content_length : option Z) (video : option upload) (metadata_raw : option str)
    : result media_reply (bytes * str * str * str * event_data) :=
  match video, metadata_raw with
  | Some video, Some raw =>
      accept_video content_length video;;
      check_metadata_size raw;;
      m ← parse_metadata now raw;
      let name := normalize_filename (opt_str (up_filename video)) in
      content ← isolate content_length video name;
      output ← map_err (λ _, Unhandled) (embed_video content m);
      let embedded_hash := sha256_hex output in
      metadata_hash ← map_err (λ _, Unhandled) (canonical_metadata_hash (PDict m));
      Ok (output, sha256_hex content, embedded_hash, metadata_hash,
          media_event (lit "embed") name embedded_hash (Some metadata_hash) (Some m) (Some embedded_hash) None)
  | _, _ => Err (JsonError 400 (lit "video and metadata are required"))
  end.

Definition prepare_extract (now : Z) (content_length : option Z) (video : option upload) (header : option str)
    : result media_reply (str * option str * option (list (str * pyval)) * event_data) :=
  match video with
  | None => Err (JsonError 400 (lit "video is required"))
  | Some video =>
      accept_video content_length video;;
      let name := normalize_filename (opt_str (up_filename video)) in
      content ← isolate content_length video name;
      m ← map_err (λ _, Unhandled) (extract_video content);
      let video_hash := sha256_hex content in
      metadata_hash ← match m with
                      | Some ((_ :: _) as kvs) => Some <$> map_err (λ _, Unhandled) (canonical_metadata_hash (PDict kvs))
                      | _ => Ok None
                      end;
      retention ← retention_for (retention_choice header m) now;
      Ok (video_hash, metadata_hash, m,
          media_event (lit "extract") name video_hash metadata_hash m None (Some retention))
  end.

(** [insert_proof_event], with the webhook deliveries when [notify]. *)
Definition store_event (notify : bool) (e : event_data) (now : Z) (w : media_server) : media_server :=
  let '(s, row) := insert_proof_event (db w) e now in
  Server (sessions w) s (if notify then queue_webhook_deliveries s (ev_id row) now (webhooks w) else webhooks w).

(** What [commit_upload_session] computes before it stores anything: the answer with the
    files it leaves, or the video, its hashes and the event. *)
Definition assemble (now : Z) (dir : fs) (metadata_raw header : option str)
    : fs * result media_reply (bytes * str * str * str * event_data) :=
  match metadata_raw with
  | None => (dir, Err (JsonError 400 (lit "metadata is required")))
  | Some raw =>
      match parse_metadata now raw with
      | Err a => (dir, Err a)
      | Ok m =>
          match chunk_files dir with
          | None => (dir, Err (Invalid None))
          | Some [] => (dir, Err (JsonError 400 (lit "session has no chunks")))
          | Some files =>
              let '(r, dir) := hash_paths_concat None d dir files (lit "combined.video") PNone
                                 (PInt (mc_max_video_bytes cfg)) in
              match r with
              | Err RequestEntityTooLarge => (dir, Err TooLarge)
              | Err _ => (dir, Err Unhandled)
              | Ok (source_hash, _) =>
                  (dir,
                   _ ← map_err Unsupported (sniff_media_type_path (dir !! lit "combined.video") None None);
                   output ← map_err (λ _, Unhandled) (embed_video (default [] (dir !! lit "combined.video")) m);
                   let embedded_hash := sha256_hex output in
                   metadata_hash ← map_err (λ _, Unhandled) (canonical_metadata_hash (PDict m));
                   retention ← retention_for (retention_choice header (Some m)) now;
                   Ok (output, source_hash, embedded_hash, metadata_hash,
                       media_event (lit "embed")
                         (normalize_filename (default (PStr (lit "unknown.mp4")) (dict_get (lit "fileName") m)))
                         embedded_hash (Some metadata_hash) (Some m) (Some embedded_hash) (Some retention)))
              end
          end
      end
  end.

Definition commit_upload_session (now : Z) (session_id : str) (metadata_raw header : option str) (w : media_server)
    : media_server * media_reply :=
  match sessions w !! session_id with
  | None => (w, JsonError 404 (lit "session not found"))
  | Some dir =>
      match assemble now dir metadata_raw header with
      | (dir, Err a) => (Server (<[session_id := dir]> (sessions w)) (db w) (webhooks w), a)
      | (dir, Ok (output, source_hash, embedded_hash, metadata_hash, e)) =>
          let w := store_event false e now w in
          (Server (delete session_id (sessions w)) (db w) (webhooks w),          (* rmtree *)
           VideoReply output source_hash embedded_hash metadata_hash)
      end
  end.

Definition embed (now : Z) (content_length : option Z) (video : option upload) (metadata_raw : option str) (w : media_server)
    : media_server * media_reply :=
  match prepare_embed now content_length video metadata_raw with
  | Err a => (w, a)
  | Ok (output, source_hash, embedded_hash, metadata_hash, e) =>
      (store_event true e now w, VideoReply output source_hash embedded_hash metadata_hash)
  end.

Definition extract (now : Z) (content_length : option Z) (video : option upload) (header : option str) (w : media_server)
    : media_server * media_reply :=
  match prepare_extract now content_length video header with
  | Err a => (w, a)
  | Ok (video_hash, metadata_hash, m, e) => (store_event true e now w, Extracted video_hash metadata_hash m)
  end.
End routes.

(** * Session directories *)

(** A session that holds a chunk for each index of the map. *)
Definition chunk_file (i : N) : str := chunk_name (Z.of_N i).

Definition session_files (chunks : gmap N bytes) : fs := kmap chunk_file chunks.

#[export] Instance chunk_file_inj : Inj (=) (=) chunk_file.
Proof.
  intros i j Hij%(app_inj_1 _ _ _ _ eq_refl). destruct Hij as [_ Hij].
  apply dec_str_inj_nonneg in Hij; lia.
Qed.

Definition index_le (p q : N * bytes) : Prop := (p.1 ≤ q.1)%N.

#[export] Instance index_le_dec : RelDecision index_le.
Proof. intros p q. apply N.le_dec. Defined.

(** The chunks in ascending index, and what they make together. *)
Definition in_index_order (chunks : gmap N bytes) : list (N * bytes) := merge_sort index_le (map_to_list chunks).
Definition assembled (chunks : gmap N bytes) : bytes := mjoin (in_index_order chunks).*2.

#[export] Instance index_le_total : Total index_le.
Proof. intros p q. unfold index_le. lia. Qed.
#[export] Instance index_le_trans : Transitive index_le.
Proof. intros p q r. unfold index_le. lia. Qed.
#[export] Instance key_le_total : Total key_le.
Proof. intros p q. unfold key_le. lia. Qed.
#[export] Instance key_le_trans : Transitive key_le.
Proof. intros p q r. unfold key_le. lia. Qed.

(** An index whose decimal text reads back. *)
Definition index_ok (i : N) : Prop := Z.of_N i < 2 ^ 63.

Lemma split_chunk_file s : Forall (λ c, c ≠ 45) s → split_on 45 (lit "chunk-" ++ s) = [lit "chunk"; s].
Proof.
  intros Hs. assert (split_on 45 s = [s]) as Hsp.
  { induction Hs as [|c s Hc Hs IH]; [done|]. cbn. rewrite IH. by destruct (Z.eqb_spec c 45). }
  change (lit "chunk-") with [99; 104; 117; 110; 107; 45]. cbn. by rewrite Hsp.
Qed.

Lemma chunk_key_file `{Unicode} i : index_ok i → chunk_key (chunk_file i) = Some (Z.of_N i).
Proof.
  intros Hi. unfold chunk_key, chunk_file, chunk_name. rewrite split_chunk_file.
  - cbn. destruct (decide (i = 0%N)) as [->|Hne]; [reflexivity|]. apply py_int_dec. unfold index_ok, bigint in *. lia.
  - eapply Forall_impl; [apply (dec_str_digits (Z.of_N i)); lia|]. cbn. lia.
Qed.

Lemma chunk_file_prefix i : starts_with (lit "chunk-") (chunk_file i) = true.
Proof. apply starts_with_spec. by eexists. Qed.

Lemma mapM_chunk_key `{Unicode} l :
  Forall index_ok l →
  mapM (λ n, (λ k, (k, n)) <$> chunk_key n) (chunk_file <$> l) = Some ((λ i, (Z.of_N i, chunk_file i)) <$> l).
Proof.
  induction 1 as [|i l Hi Hl IH]; [done|]. cbn. rewrite chunk_key_file by done. cbn.
  change (list_fmap N str chunk_file l) with (chunk_file <$> l). by rewrite IH.
Qed.

Lemma in_index_order_perm chunks : in_index_order chunks ≡ₚ map_to_list chunks.
Proof. apply merge_sort_Permutation. Qed.

Lemma in_index_order_lookup chunks i b : (i, b) ∈ in_index_order chunks ↔ chunks !! i = Some b.
Proof. by rewrite in_index_order_perm, elem_of_map_to_list. Qed.

(** The directory lists the chunks in index order. *)
Lemma chunk_files_session `{Unicode} chunks :
  (∀ i, i ∈ dom chunks → index_ok i) →
  chunk_files (session_files chunks) = Some (chunk_file <$> (in_index_order chunks).*1).
Proof.
  intros Hok. unfold chunk_files.
  assert ((map_to_list (session_files chunks)).*1 ≡ₚ chunk_file <$> (in_index_order chunks).*1) as Hperm.
  { unfold session_files. rewrite (map_to_list_kmap chunk_file chunks), in_index_order_perm.
    rewrite <- !list_fmap_compose. done. }
  apply Permutation_map_inv in Hperm as (l & Hl & Hperm). fold (chunk_file <$> l) in Hl.
  rewrite Hl. rewrite filter_all by (apply Forall_fmap, Forall_true; intros; apply chunk_file_prefix).
  rewrite mapM_chunk_key.
  2: { apply Forall_forall. intros i Hi. rewrite <- Hperm in Hi. apply list_elem_of_fmap in Hi as ([j b] & -> & Hin).
       apply Hok. apply in_index_order_lookup in Hin. by eapply elem_of_dom_2. }
  cbn. f_equal. set (f := λ i, (Z.of_N i, chunk_file i)).
  enough (merge_sort key_le (f <$> l) = f <$> (in_index_order chunks).*1) as ->.
  { rewrite <- list_fmap_compose. done. }
  apply (StronglySorted_unique_strong key_le).
  - intros x1 x2 Hx1 Hx2. rewrite merge_sort_Permutation in Hx1.
    apply list_elem_of_fmap in Hx1 as (i & -> & _), Hx2 as (j & -> & _). unfold key_le, f. cbn. intros.
    by replace j with i by lia.
  - apply (StronglySorted_merge_sort key_le).
  - assert (StronglySorted index_le (in_index_order chunks)) as Hs by apply (StronglySorted_merge_sort index_le).
    clear -Hs. induction Hs as [|p ps Hs IH Hp]; cbn; constructor; [done|].
    apply Forall_fmap, Forall_fmap. eapply Forall_impl; [exact Hp|]. unfold index_le, key_le, f. cbn. lia.
  - rewrite merge_sort_Permutation. by rewrite Hperm.
Qed.

Lemma session_parts chunks :
  Forall2 (λ p x, session_files chunks !! p = Some x) (chunk_file <$> (in_index_order chunks).*1) (in_index_order chunks).*2.
Proof.
  assert (Forall (λ p, chunks !! p.1 = Some p.2) (in_index_order chunks)) as Hl.
  { apply Forall_forall. intros [i b] Hin. by apply in_index_order_lookup. }
  induction Hl as [|[i b] l Hi Hl IH]; constructor; [|done]. cbn. unfold session_files. by rewrite (lookup_kmap chunk_file).
Qed.

(** * Committing a session *)

(** Temporary files are never made under the names a session uses. *)
Definition tmp_outside (d : disk) : Prop :=
  ∀ dir t, mkstemp d dir = Some t → (∀ i, t ≠ chunk_file i) ∧ t ≠ lit "combined.video".

Section sessions.
  Context `{Unicode} `{RegisterEnv} `{IsoTime} `{FloatText} `{Alnum} `{MediaTools}.
  Context (cfg : media_config) (d : disk).
  Hypothesis limit_pos : 1 ≤ mc_max_video_bytes cfg.
  Hypothesis disk_ok : healthy d.
  Hypothesis disk_tmp : tmp_outside d.

Lemma session_fresh chunks dest :
  (dest = lit "combined.video" ∨ ∃ i, dest = chunk_file i) → fresh_tmp d (session_files chunks) dest.
Proof.
  intros Hdest dir t Ht. destruct (disk_tmp dir t Ht) as [Hc Hv]. split.
  - unfold session_files. apply (lookup_kmap_None chunk_file). intros i ->. by destruct (Hc i).
  - destruct Hdest as [->|[i ->]]; auto.
Qed.

Lemma session_storage s :
  create_streaming_file_storage (Some (upload_settings cfg)) s =
  Ok (Storage s (mc_max_video_bytes cfg) DEFAULT_CHUNK_BYTES None None 0 false None).
Proof.
  unfold create_streaming_file_storage, resolve_max_bytes, nonneg_int. cbn.
  rewrite Z.max_r by lia. by destruct (Z.eqb_spec (mc_max_video_bytes cfg) 0); [lia|].
Qed.

Definition fits_limit (n : Z) : Prop := n ≤ mc_max_video_bytes cfg.

Lemma upload_chunk_accepted sid i s chunks w :
  steady s → fits_limit (zlen (rest s)) → sessions w !! sid = Some (session_files chunks) →
  upload_chunk cfg d sid (Z.of_N i) (Some s) w =
  (Server (<[sid := session_files (<[i := rest s]> chunks)]> (sessions w)) (db w) (webhooks w),
   ChunkStored (zlen (rest s)) (Some (sha256_hex (rest s)))).
Proof.
  intros Hs Hfit Hw. unfold upload_chunk. rewrite Hw. destruct (Z.ltb_spec (Z.of_N i) 0); [lia|]. rewrite session_storage.
  pose proof (save_healthy (Some (upload_settings cfg)) d s _ (session_files chunks) (chunk_file i) disk_ok
                (session_fresh chunks (chunk_file i) ltac:(eauto)) Hs (session_storage s)) as Hsave.
  change (chunk_name (Z.of_N i)) with (chunk_file i).
  destruct (save _ _ _ _ _) as [[r dir] st]. destruct Hsave as [Hr Hok]. cbn [st_max_size] in Hr. unfold fits_limit in Hfit.
  rewrite (proj2 (Z.ltb_ge (mc_max_video_bytes cfg) (zlen (rest s)))), andb_false_r in Hr by lia. injection Hr as -> ->.
  destruct (Hok eq_refl) as [-> ->]. unfold session_files. by rewrite (kmap_insert chunk_file).
Qed.

(** Sending the chunks one after the other, and what has arrived when all are sent: of a
    chunk sent again, the last content. *)
Definition send_all (sid : str) (uploads : list (N * stream)) (w : media_server) : media_server :=
  foldl (λ w u, (upload_chunk cfg d sid (Z.of_N u.1) (Some u.2) w).1) w uploads.

Definition received (uploads : list (N * stream)) (chunks : gmap N bytes) : gmap N bytes :=
  foldl (λ m u, <[u.1 := rest u.2]> m) chunks uploads.

Lemma send_all_spec sid uploads chunks w :
  Forall (λ u, steady u.2 ∧ fits_limit (zlen (rest u.2))) uploads → sessions w !! sid = Some (session_files chunks) →
  sessions (send_all sid uploads w) !! sid = Some (session_files (received uploads chunks)) ∧
  db (send_all sid uploads w) = db w ∧ webhooks (send_all sid uploads w) = webhooks w.
Proof.
  intros Hu. revert chunks w. induction Hu as [|[i s] us [Hs Hf] Hu IH]; intros chunks w Hw; [done|].
  cbn in Hs, Hf. cbn. fold (send_all sid us). rewrite (upload_chunk_accepted sid i s chunks w) by done. cbn [fst].
  destruct (IH (<[i := rest s]> chunks) (Server (<[sid:=session_files (<[i:=rest s]> chunks)]> (sessions w)) (db w) (webhooks w)))
    as (? & ? & ?); [apply lookup_insert_eq|]. done.
Qed.

Lemma in_index_order_nonempty chunks : chunks ≠ ∅ → ∃ p l, in_index_order chunks = p :: l.
Proof.
  intros Hne. destruct (in_index_order chunks) as [|p l] eqn:E; [|eauto].
  pose proof (in_index_order_perm chunks) as Hp. rewrite E in Hp. apply Permutation_nil_l in Hp.
  symmetry in Hp. by apply map_to_list_empty_iff in Hp.
Qed.

(** What [assemble] computes on a session with chunks. *)
Lemma assemble_session now chunks raw m header :
  chunks ≠ ∅ → (∀ i, i ∈ dom chunks → index_ok i) → fits_limit (zlen (assembled chunks)) →
  parse_metadata now raw = Ok m →
  let video := assembled chunks in
  assemble cfg d now (session_files chunks) (Some raw) header =
  (<[lit "combined.video" := video]> (session_files chunks),
   _ ← map_err Unsupported (sniff_media_type_path (Some video) None None);
   output ← map_err (λ _, Unhandled) (embed_video video m);
   let embedded_hash := sha256_hex output in
   metadata_hash ← map_err (λ _, Unhandled) (canonical_metadata_hash (PDict m));
   retention ← retention_for cfg (retention_choice header (Some m)) now;
   Ok (output, sha256_hex video, embedded_hash, metadata_hash,
       media_event (lit "embed")
         (normalize_filename (default (PStr (lit "unknown.mp4")) (dict_get (lit "fileName") m)))
         embedded_hash (Some metadata_hash) (Some m) (Some embedded_hash) (Some retention))).
Proof.
  intros Hne Hok Hfit Hm video. unfold assemble. rewrite Hm, chunk_files_session by done.
  pose proof (hash_paths_healthy None d (session_files chunks) (chunk_file <$> (in_index_order chunks).*1)
    (in_index_order chunks).*2 (lit "combined.video") PNone (PInt (mc_max_video_bytes cfg)) DEFAULT_CHUNK_BYTES
    (Z.max 0 (mc_max_video_bytes cfg)) disk_ok (session_fresh chunks _ ltac:(by left)) (session_parts chunks)
    eq_refl eq_refl) as Hh.
  fold (assembled chunks) in Hh. unfold fits_limit in Hfit.
  rewrite (proj2 (Z.ltb_ge (Z.max 0 (mc_max_video_bytes cfg)) (zlen (assembled chunks)))), andb_false_r in Hh by lia.
  destruct (in_index_order_nonempty chunks Hne) as (p & l & E). rewrite E in Hh |- *.
  cbn [fmap list_fmap] in Hh |- *. rewrite Hh. by rewrite lookup_insert_eq.
Qed.

(** C17. Upload sessions: whatever the order in which the chunks of a session arrive, and
    however often one is sent again, committing embeds the metadata into the
    concatenation of the last contents in index order, answers with the SHA-256 of that
    concatenation and of the video produced, stores one event for it and removes the
    session. *)
Theorem session_commit_assembles_chunks sid uploads now raw m header video fam output mhash ret w :
  sessions w !! sid = Some ∅ →
  Forall (λ u, index_ok u.1 ∧ steady u.2 ∧ fits_limit (zlen (rest u.2))) uploads → uploads ≠ [] →
  video = assembled (received uploads ∅) → fits_limit (zlen video) →
  parse_metadata now raw = Ok m → sniff_media_type_path (Some video) None None = Ok fam →
  embed_video video m = Ok output → canonical_metadata_hash (PDict m) = Ok mhash →
  retention_for cfg (retention_choice header (Some m)) now = Ok ret →
  let '(w', a) := commit_upload_session cfg d now sid (Some raw) header (send_all sid uploads w) in
  a = VideoReply output (sha256_hex video) (sha256_hex output) mhash ∧
  sessions w' !! sid = None ∧
  ∃ row, events (db w') = events (db w) ++ [row] ∧ video_hash (ev row) = Some (sha256_hex output) ∧
         metadata (ev row) = Some (redact_sensitive (PDict m)).
Proof.
  intros Hw Hu Hne -> Hfit Hm Hsniff Hembed Hhash Hret.
  destruct (send_all_spec sid uploads ∅ w) as (Hs & Hdb & Hwh).
  { eapply Forall_impl; [exact Hu|]. naive_solver. }
  { rewrite Hw. unfold session_files. by rewrite kmap_empty. }
  assert (received uploads ∅ ≠ ∅) as Hrec.
  { clear -Hne. induction uploads as [|u us _] using rev_ind; [done|].
    unfold received. rewrite foldl_app. cbn. apply insert_non_empty. }
  assert (∀ i, i ∈ dom (received uploads ∅) → index_ok i) as Hidx.
  { assert (∀ c, (∀ i, i ∈ dom c → index_ok i) → ∀ i, i ∈ dom (received uploads c) → index_ok i) as Hgen; [|apply Hgen; set_solver].
    clear -Hu. induction Hu as [|[j s] us [Hj _] Hu IH]; [done|]. cbn. intros c Hc. apply IH.
    intros i. rewrite dom_insert. set_solver. }
  unfold commit_upload_session. rewrite Hs, (assemble_session _ _ _ m) by done.
  rewrite Hsniff. cbn [map_err mbind result_bind]. rewrite Hembed. cbn [map_err mbind result_bind]. cbv zeta.
  rewrite Hhash. cbn [map_err mbind result_bind]. rewrite Hret. cbn. rewrite lookup_delete_eq. split_and!; try done.
  rewrite Hdb. eexists. split_and!; reflexivity.
Qed.

(** Upload sessions: the answer to a commit and the event it stores depend on the
    chunks only through their contents in index order: a chunk that never arrived is not
    noticed, the video is assembled without it. *)
Theorem missing_chunk_not_noticed sid now raw m header chunks chunks' w w' :
  chunks ≠ ∅ → chunks' ≠ ∅ → (∀ i, i ∈ dom chunks ∪ dom chunks' → index_ok i) →
  (in_index_order chunks).*2 = (in_index_order chunks').*2 → fits_limit (zlen (assembled chunks)) →
  parse_metadata now raw = Ok m →
  sessions w !! sid = Some (session_files chunks) → sessions w' !! sid = Some (session_files chunks') →
  db w' = db w →
  (commit_upload_session cfg d now sid (Some raw) header w).2 = (commit_upload_session cfg d now sid (Some raw) header w').2 ∧
  db (commit_upload_session cfg d now sid (Some raw) header w).1 = db (commit_upload_session cfg d now sid (Some raw) header w').1.
Proof.
  intros Hne Hne' Hok Hsame Hfit Hm Hw Hw' Hdb.
  assert (assembled chunks = assembled chunks') as Ha by (unfold assembled; by rewrite Hsame).
  unfold commit_upload_session. rewrite Hw, Hw'.
  assert (fits_limit (zlen (assembled chunks'))) by (by rewrite <- Ha).
  rewrite (assemble_session now chunks raw m), (assemble_session now chunks' raw m) by (done || set_solver).
  cbv zeta. rewrite Ha. destruct (_ ← map_err Unsupported _; _) as [[[[[? ?] ?] ?] ?]|?]; cbn; [|done].
  by rewrite Hdb.
Qed.
End sessions.

(** * Answers and events *)

Inductive media_request :=
  | ReqCreate (session_id : str)
  | ReqChunk (session_id : str) (chunk_index : Z) (chunk : option stream)
  | ReqCommit (session_id : str) (metadata_raw header : option str)
  | ReqEmbed (content_length : option Z) (video : option upload) (metadata_raw : option str)
  | ReqExtract (content_length : option Z) (video : option upload) (header : option str).

Section answers.
  Context `{Unicode} `{RegisterEnv} `{IsoTime} `{FloatText} `{Alnum} `{MediaTools}.
  Context (cfg : media_config) (d : disk).

Definition serve (now : Z) (r : media_request) (w : media_server) : media_server * media_reply :=
  match r with
  | ReqCreate sid => create_upload_session sid w
  | ReqChunk sid i chunk => upload_chunk cfg d sid i chunk w
  | ReqCommit sid raw header => commit_upload_session cfg d now sid raw header w
  | ReqEmbed n video raw => embed cfg now n video raw w
  | ReqExtract n video header => extract cfg now n video header w
  end.

(** The event of an answer: that of the video returned or examined, with its hashes and
    redacted metadata. *)
Definition recorded (w w' : media_server) (kind : str) (video : str) (mhash : option str) (m : option (list (str * pyval))) : Prop :=
  ∃ row, events (db w') = events (db w) ++ [row] ∧ event_type (ev row) = kind ∧ video_hash (ev row) = Some video ∧
         metadata_hash (ev row) = mhash ∧ metadata (ev row) = (m ≫= λ x, Some (redact_sensitive (PDict x))).

Definition answer_matches (w w' : media_server) (a : media_reply) : Prop :=
  match a with
  | VideoReply output _ embedded_hash mhash =>
      embedded_hash = sha256_hex output ∧
      ∃ m, canonical_metadata_hash (PDict m) = Ok mhash ∧ recorded w w' (lit "embed") embedded_hash (Some mhash) (Some m)
  | Extracted video_hash mhash m => recorded w w' (lit "extract") video_hash mhash m
  | _ => db w' = db w ∧ webhooks w' = webhooks w
  end.

Lemma map_err_ok {E F A} (f : E → F) (m : result E A) a : map_err f m = Ok a → m = Ok a.
Proof. destruct m; cbn; congruence. Qed.

(** A refusal: none of the answers that come with an event. *)
Definition is_refusal (a : media_reply) : Prop :=
  match a with VideoReply _ _ _ _ | Extracted _ _ _ => False | _ => True end.

Definition refuses {A} (m : result media_reply A) : Prop := ∀ a, m = Err a → is_refusal a.

Lemma refuses_ok {A} (x : A) : refuses (Ok x).
Proof. by intros a [=]. Qed.

Lemma refuses_err {A} a : is_refusal a → refuses (Err a : result media_reply A).
Proof. by intros Ha ? [= <-]. Qed.

Lemma refuses_bind {A B} (m : result media_reply A) (f : A → result media_reply B) :
  refuses m → (∀ x, refuses (f x)) → refuses (m ≫= f).
Proof. intros Hm Hf. destruct m; [apply Hf|]. intros a [= <-]. by apply Hm. Qed.

Lemma refuses_map_err {E A} (f : E → media_reply) (m : result E A) : (∀ e, is_refusal (f e)) → refuses (map_err f m).
Proof. intros Hf a. destruct m; cbn; [done|]. by intros [= <-]. Qed.

Lemma parse_metadata_refuses now raw : refuses (parse_metadata now raw).
Proof.
  unfold parse_metadata. destruct (json_loads raw) as [v|[]]; try (by apply refuses_err).
  destruct (validate_v2 now v) as [[]|[|[]]]; try (by apply refuses_err). apply refuses_ok.
Qed.

Lemma retention_for_refuses choice now : refuses (retention_for cfg choice now).
Proof.
  unfold retention_for. destruct (in_str_set _ _) as [[]|]; destruct choice; try (by apply refuses_err). apply refuses_ok.
Qed.

Lemma accept_video_refuses n video : refuses (accept_video cfg n video).
Proof.
  unfold accept_video, validate_video_upload. destruct (enforce_video_size _ _ _); [|by apply refuses_err].
  destruct (up_filename video) as [[|]|]; try (by apply refuses_err). cbv zeta.
  destruct (_ && _); [by apply refuses_err|]. apply refuses_bind; [by apply refuses_map_err|]. intros. apply refuses_ok.
Qed.

Lemma isolate_refuses n video name : refuses (isolate cfg n video name).
Proof.
  unfold isolate. destruct (_ && _); [by apply refuses_err|].
  apply refuses_bind; [by apply refuses_map_err|]. intros. apply refuses_ok.
Qed.

Create HintDb refusals.
#[local] Hint Resolve refuses_ok refuses_err refuses_bind refuses_map_err parse_metadata_refuses retention_for_refuses
  accept_video_refuses isolate_refuses : refusals.
#[local] Hint Extern 1 (is_refusal _) => exact I : refusals.

Lemma prepare_embed_refuses now n video raw : refuses (prepare_embed cfg now n video raw).
Proof.
  unfold prepare_embed. destruct video, raw; try (by apply refuses_err).
  apply refuses_bind; [auto with refusals|intros _]. apply refuses_bind.
  { unfold check_metadata_size. destruct (utf8_len _); [case_match|]; auto with refusals. }
  intros _. repeat (apply refuses_bind; [by auto with refusals|intros ?]). auto with refusals.
Qed.

Lemma prepare_extract_refuses now n video header : refuses (prepare_extract cfg now n video header).
Proof.
  unfold prepare_extract. destruct video; [|by apply refuses_err].
  apply refuses_bind; [auto with refusals|intros _]. cbv zeta. apply refuses_bind; [auto with refusals|intros ?].
  apply refuses_bind; [auto with refusals|intros m]. apply refuses_bind.
  { destruct m as [[|p kvs]|]; auto with refusals. apply refuses_bind; auto with refusals. }
  intros ?. apply refuses_bind; auto with refusals.
Qed.

Lemma assemble_refuses now dir raw header : refuses (assemble cfg d now dir raw header).2.
Proof.
  unfold assemble. destruct raw as [raw|]; [|by apply refuses_err].
  destruct (parse_metadata now raw) as [m|a] eqn:E; [|intros ? [= <-]; by eapply parse_metadata_refuses].
  destruct (chunk_files dir) as [[|f fs]|]; try (by apply refuses_err).
  destruct (hash_paths_concat _ _ _ _ _ _ _) as [[[h n]|e] dir']; [|by destruct e; apply refuses_err].
  cbn [snd]. repeat (apply refuses_bind; [by auto with refusals|intros ?]). auto with refusals.
Qed.

Lemma store_event_recorded notify kind name video mhash m emb ret now w :
  recorded w (store_event notify (media_event kind name video mhash m emb ret) now w) kind video mhash m.
Proof. eexists. split; [reflexivity|]. by destruct m. Qed.

Lemma refusal_matches w w' a : is_refusal a → db w' = db w → webhooks w' = webhooks w → answer_matches w w' a.
Proof. by destruct a. Qed.

Lemma embed_matches now n video raw w :
  answer_matches w (embed cfg now n video raw w).1 (embed cfg now n video raw w).2.
Proof.
  unfold embed. destruct (prepare_embed cfg now n video raw) as [[[[[output sh] eh] mh] e]|a] eqn:E; cbn.
  - unfold prepare_embed in E. destruct video as [video|], raw as [raw|]; try done.
    apply bind_ok in E as (_ & _ & E). apply bind_ok in E as (_ & _ & E). apply bind_ok in E as (m & _ & E).
    apply bind_ok in E as (content & _ & E). apply bind_ok in E as (out & _ & E).
    apply bind_ok in E as (mhash & Hh & [= <- <- <- <- <-]). apply map_err_ok in Hh.
    split; [done|]. exists m. split; [done|]. apply (store_event_recorded true).
  - apply refusal_matches; [|done..]. by eapply prepare_embed_refuses.
Qed.

Lemma extract_matches now n video header w :
  answer_matches w (extract cfg now n video header w).1 (extract cfg now n video header w).2.
Proof.
  unfold extract. destruct (prepare_extract cfg now n video header) as [[[[vh mh] m] e]|a] eqn:E; cbn.
  - unfold prepare_extract in E. destruct video as [video|]; [|done].
    apply bind_ok in E as (_ & _ & E). apply bind_ok in E as (content & _ & E). apply bind_ok in E as (m' & _ & E).
    apply bind_ok in E as (mhash & _ & E). apply bind_ok in E as (ret & _ & [= <- <- <- <-]). apply (store_event_recorded true).
  - apply refusal_matches; [|done..]. by eapply prepare_extract_refuses.
Qed.

Lemma commit_matches now sid raw header w :
  answer_matches w (commit_upload_session cfg d now sid raw header w).1 (commit_upload_session cfg d now sid raw header w).2.
Proof.
  unfold commit_upload_session. destruct (sessions w !! sid) as [dir|]; [|done].
  pose proof (assemble_refuses now dir raw header) as Hr.
  destruct (assemble cfg d now dir raw header) as [dir' [[[[[output sh] eh] mh] e]|a]] eqn:E; cbn.
  2: { apply refusal_matches; [by apply Hr|done..]. }
  unfold assemble in E. destruct raw as [raw|]; [|done]. destruct (parse_metadata now raw) as [m|]; [|done].
  destruct (chunk_files dir) as [[|f fs]|]; try done.
  destruct (hash_paths_concat _ _ _ _ _ _ _) as [[[h n]|e'] dir'']; [|by destruct e'].
  injection E as _ E. apply bind_ok in E as (_ & _ & E). apply bind_ok in E as (out & _ & E).
  apply bind_ok in E as (mhash & Hh & E). apply bind_ok in E as (ret & _ & [= <- <- <- <- <-]). apply map_err_ok in Hh.
  split; [done|]. exists m. split; [done|].
  apply (store_event_recorded false _ _ _ _ _ _ _ now w).
Qed.

(** Media endpoints: a request is answered with a video (or with what was found in
    one) exactly when one event is stored, and that event has the SHA-256 of the video,
    the hash of the metadata and the redacted metadata; every other answer leaves the
    event store and the webhook deliveries as they were. *)
Theorem media_answers_match_events now r w :
  answer_matches w (serve now r w).1 (serve now r w).2.
Proof.
  destruct r as [sid|sid i chunk|sid raw header|n video raw|n video header]; cbn [serve].
  - done.
  - unfold upload_chunk. destruct (sessions w !! sid) as [dir|]; [|done]. destruct chunk as [s|]; [|done].
    destruct (i <? 0); [done|]. destruct (create_streaming_file_storage _ _) as [st|]; [|done].
    destruct (save _ _ _ _ _) as [[r dir'] st']. by destruct r as [[]|[]].
  - apply commit_matches.
  - apply embed_matches.
  - apply extract_matches.
Qed.
End answers.

(** * Witnesses *)

#[local] Instance sample_unicode : Unicode := plain_unicode.
#[local] Instance sample_env : RegisterEnv := {|
  secure_filename s := s; Register.redact_sensitive d := PDict d; attest _ _ := AttestationInvalid |}.
#[local] Instance sample_iso : IsoTime := λ _, Some (Some 1767225600).
#[local] Instance sample_floats : FloatText := λ s, PyFloat s s (Err OverflowError) false.
#[local] Instance sample_alnum : Alnum := λ _, false.
#[local] Instance sample_tools : MediaTools := {| embed_video v _ := Ok v; extract_video _ := Ok None |}.

Definition sample_media_config : media_config := MediaConfig 1000 100 1000 [(lit "default", 30)].

Definition sample_media_disk : disk := Disk true (λ _, Some (lit "/tmp/harpocrates-stream-0")) None true MoveDone true true true.

Lemma sample_media_disk_healthy : healthy sample_media_disk.
Proof. by split. Qed.

Lemma sample_tmp_outside : tmp_outside sample_media_disk.
Proof. intros dir t [= <-]. split; [|vm_compute; discriminate]. intros i Hi. discriminate (f_equal head Hi). Qed.

(** The second chunk arrives first, and again at the end. *)
Definition sample_uploads : list (N * stream) :=
  [(1%N, Stream (lit "isoX") []); (0%N, Stream [0; 0; 0; 16; 102; 116; 121; 112] [Some 1]); (1%N, Stream (lit "isom0000") [Some 3])].

Definition sample_raw : str := json_dumps true (PDict sample_metadata).
Definition sample_parsed : list (str * pyval) := from_ok [] (parse_metadata 1767225600 sample_raw).
Definition sample_mhash : str := from_ok [] (canonical_metadata_hash (PDict sample_parsed)).
Definition sample_server : media_server :=
  Server {[lit "s1" := ∅]} (Store [] 1 [] 1 [] 1) (Hooks [] [] 1).

Lemma sample_index_ok : Forall (λ u, index_ok u.1 ∧ steady u.2 ∧ fits_limit sample_media_config (zlen (rest u.2))) sample_uploads.
Proof. repeat constructor; unfold index_ok, fits_limit; vm_compute; (congruence || eauto). Qed.

Lemma session_commit_assembles_chunks_witness :
  let video := [0; 0; 0; 16; 102; 116; 121; 112] ++ lit "isom0000" in
  let '(w', a) := commit_upload_session sample_media_config sample_media_disk 1767225600 (lit "s1") (Some sample_raw) None
                    (send_all sample_media_config sample_media_disk (lit "s1") sample_uploads sample_server) in
  a = VideoReply video (sha256_hex video) (sha256_hex video) sample_mhash ∧
  sessions w' !! lit "s1" = None ∧
  ∃ row, events (db w') = events (db sample_server) ++ [row] ∧ video_hash (ev row) = Some (sha256_hex video) ∧
         metadata (ev row) = Some (redact_sensitive (PDict sample_parsed)).
Proof.
  apply (session_commit_assembles_chunks sample_media_config sample_media_disk ltac:(vm_compute; discriminate)
           sample_media_disk_healthy sample_tmp_outside (lit "s1") sample_uploads 1767225600 sample_raw sample_parsed None
           ([0; 0; 0; 16; 102; 116; 121; 112] ++ lit "isom0000") MP4 _ sample_mhash (lit "default", Some (1767225600 + 30 * 86400)) sample_server).
  - vm_compute; reflexivity.
  - apply sample_index_ok.
  - discriminate.
  - vm_compute; reflexivity.
  - unfold fits_limit. vm_compute. discriminate.
  - apply from_ok_spec. vm_compute; reflexivity.
  - vm_compute; reflexivity.
  - reflexivity.
  - apply from_ok_spec. vm_compute; reflexivity.
  - vm_compute; reflexivity.
Defined.

(** Chunks 0 and 2 are assembled as chunks 0 and 1 would be. *)
Definition gap_chunks : gmap N bytes := {[0%N := [0; 0; 0; 16]; 2%N := [1]]}.
Definition full_chunks : gmap N bytes := {[0%N := [0; 0; 0; 16]; 1%N := [1]]}.
Definition session_with (chunks : gmap N bytes) : media_server :=
  Server {[lit "s1" := session_files chunks]} (Store [] 1 [] 1 [] 1) (Hooks [] [] 1).

Lemma missing_chunk_not_noticed_witness :
  (commit_upload_session sample_media_config sample_media_disk 1767225600 (lit "s1") (Some sample_raw) None (session_with gap_chunks)).2 =
  (commit_upload_session sample_media_config sample_media_disk 1767225600 (lit "s1") (Some sample_raw) None (session_with full_chunks)).2 ∧
  db (commit_upload_session sample_media_config sample_media_disk 1767225600 (lit "s1") (Some sample_raw) None (session_with gap_chunks)).1 =
  db (commit_upload_session sample_media_config sample_media_disk 1767225600 (lit "s1") (Some sample_raw) None (session_with full_chunks)).1.
Proof.
  apply (missing_chunk_not_noticed sample_media_config sample_media_disk ltac:(vm_compute; discriminate)
           sample_media_disk_healthy sample_tmp_outside (lit "s1") 1767225600 sample_raw sample_parsed None
           gap_chunks full_chunks).
  - apply insert_non_empty.
  - apply insert_non_empty.
  - intros i Hi. assert (i = 0 ∨ i = 1 ∨ i = 2)%N as [-> | [-> | ->]] by (unfold gap_chunks, full_chunks in Hi; set_solver);
      unfold index_ok; vm_compute; reflexivity.
  - vm_compute; reflexivity.
  - unfold fits_limit. vm_compute. discriminate.
  - apply from_ok_spec. vm_compute; reflexivity.
  - vm_compute; reflexivity.
  - vm_compute; reflexivity.
  - reflexivity.
Defined.
