(* ===== verification/Consent.v ===== *)
(** Consent of analytics accounts: [backend/analytics/consent.py].  The states are kept in
    a dictionary in insertion order; instants and durations are integers, the clock of each
    call is an argument.

    Shown: when a check answers yes, exactly; a withdrawal or an invalidation is refused
    from then on, whatever else happens, until the account decides again or its state is
    pruned; a grant serves exactly its scopes until it expires; a pruned withdrawal is
    forgotten, and the account is served again at the second request; a denial is served
    as if it were a grant. *)
From Stdlib Require Import ZArith Lia.
From stdpp Require Import base decidable strings numbers relations sets list sorting.
From S2P Require Import Prelude PyStr Json PyVal Sha256.

Open Scope Z_scope.

#[local] Arguments lit _ : simpl never.

(** * Decisions and states *)

Inductive consent_status : Type :=
  | UNKNOWN | GRANTED | DENIED | EXPIRED | WITHDRAWN | INVALID | GRACE.
Inductive consent_source : Type :=
  | USER_EXPLICIT | USER_IMPLICIT | LEGAL | SYSTEM_DEFAULT | TOKEN | API_REQUEST | UNKNOWN_SOURCE.

#[export] Instance consent_status_eq_dec : EqDecision consent_status.
Proof. solve_decision. Defined.
#[export] Instance consent_source_eq_dec : EqDecision consent_source.
Proof. solve_decision. Defined.

Definition consent_status_text (s : consent_status) : str :=
  lit match s with
      | UNKNOWN => "unknown" | GRANTED => "granted" | DENIED => "denied" | EXPIRED => "expired"
      | WITHDRAWN => "withdrawn" | INVALID => "invalid" | GRACE => "grace"
      end.
Definition consent_source_text (s : consent_source) : str :=
  lit match s with
      | USER_EXPLICIT => "user_explicit" | USER_IMPLICIT => "user_implicit" | LEGAL => "legal_basis"
      | SYSTEM_DEFAULT => "system_default" | TOKEN => "consent_token" | API_REQUEST => "api_request"
      | UNKNOWN_SOURCE => "unknown"
      end.

Definition all_statuses : list consent_status := [UNKNOWN; GRANTED; DENIED; EXPIRED; WITHDRAWN; INVALID; GRACE].
Definition all_sources : list consent_source :=
  [USER_EXPLICIT; USER_IMPLICIT; LEGAL; SYSTEM_DEFAULT; TOKEN; API_REQUEST; UNKNOWN_SOURCE].

Definition CONSENT_SCHEMA_VERSION : str := lit "1.0.0".
Definition CONSENT_GRACE_PERIOD_SECONDS : Z := 1800.

Record ConsentDecision := MkDecision {
  d_status : consent_status;
  d_source : consent_source;
  d_scope : list str;
  d_expires_at : Z;
  d_granted_at : Z;
  d_version : str;
  d_token : option str;
  d_withdrawal : option Z;
}.

(** [ConsentDecision.__post_init__]: the texts that name a status and a source. *)
Definition status_of_text (t : str) : option consent_status :=
  snd <$> list_find (λ s, consent_status_text s = t) all_statuses.
Definition source_of_text (t : str) : option consent_source :=
  snd <$> list_find (λ s, consent_source_text s = t) all_sources.

Definition make_decision (status source : str) (scope : list str) (expires_at granted_at : Z) (version : str)
    (token : option str) (withdrawal : option Z) : result exn ConsentDecision :=
  match status_of_text status, source_of_text source with
  | None, _ => Err (ValueError "invalid consent status")
  | _, None => Err (ValueError "invalid consent source")
  | Some st, Some so => Ok (MkDecision st so scope expires_at granted_at version token withdrawal)
  end.

Record ConsentState := MkState {
  s_account : option str;
  s_status : consent_status;
  s_source : consent_source;
  s_granted_at : Z;
  s_expires_at : Z;
  s_withdrawal : option Z;
  s_scopes : list str;
  s_token : option str;
  s_modified : Z;
  s_version : str;
}.

Definition is_active (s : ConsentState) : bool := bool_decide (s_status s ∈ [GRANTED; GRACE]).

Definition in_scope (scope : str) (scopes : list str) : bool :=
  bool_decide (scope ∈ scopes) || bool_decide (lit "*" ∈ scopes).

Definition requires_scope (s : ConsentState) (scope : str) : bool :=
  bool_decide (s_status s = GRANTED) && in_scope scope (s_scopes s).

Definition to_decision (s : ConsentState) : ConsentDecision :=
  MkDecision (s_status s) (s_source s) (s_scopes s) (s_expires_at s) (s_granted_at s) (s_version s) (s_token s) (s_withdrawal s).

(** * The manager *)

(** [_consent_states] and [_grace_period] *)
Record manager := Manager { states : list (str * ConsentState); grace_period : Z }.

Definition set_states (m : manager) (l : list (str * ConsentState)) : manager := Manager l (grace_period m).

Definition grace_state (m : manager) (tag : option str) (now : Z) : ConsentState :=
  MkState tag GRACE SYSTEM_DEFAULT now (now + grace_period m) None [] None now CONSENT_SCHEMA_VERSION.

(** The status a check acts on: a grant past its expiry counts as expired. *)
Definition effective_status (s : ConsentState) (now : Z) : consent_status :=
  if bool_decide (s_status s = GRANTED) && (0 <? s_expires_at s) && (s_expires_at s <? now) then EXPIRED else s_status s.

Definition refused_status (s : consent_status) : bool := bool_decide (s ∈ [EXPIRED; WITHDRAWN; INVALID]).

Definition check_consent (m : manager) (account_tag scope : option str) (now : Z) : manager * (bool * ConsentState) :=
  match account_tag with
  | None => (m, (true, grace_state m None now))
  | Some tag =>
      match dict_get tag (states m) with
      | None =>
          let new_state := grace_state m (Some tag) now in
          (set_states m (dict_set tag new_state (states m)), (false, new_state))
      | Some s =>
          if refused_status (effective_status s now) then (m, (false, s))
          else match scope with
               | Some sc => if in_scope sc (s_scopes s) then (m, (true, s)) else (m, (false, s))
               | None => (m, (true, s))
               end
      end
  end.

Definition touch (s : ConsentState) (now : Z) : ConsentState :=
  MkState (s_account s) (s_status s) (s_source s) (s_granted_at s) (s_expires_at s) (s_withdrawal s) (s_scopes s) (s_token s)
    now (s_version s).

(** The comparison that keeps an existing state. *)
Definition same_consent (e n : ConsentState) : bool :=
  bool_decide (s_status e = s_status n) && bool_decide (s_source e = s_source n) && bool_decide (s_scopes e = s_scopes n) &&
  (s_expires_at e =? s_expires_at n) && bool_decide (s_token e = s_token n) && bool_decide (s_withdrawal e = s_withdrawal n).

Definition set_consent (m : manager) (tag : str) (d : ConsentDecision) (now : Z) : manager * ConsentState :=
  let new_state := MkState (Some tag) (d_status d) (d_source d) (d_granted_at d) (d_expires_at d) (d_withdrawal d) (d_scope d)
                     (d_token d) now (d_version d) in
  let result := match dict_get tag (states m) with
                | Some existing => if same_consent existing new_state then touch existing now else new_state
                | None => new_state
                end in
  (set_states m (dict_set tag result (states m)), result).

Definition withdraw_consent (m : manager) (tag : str) (now : Z) : manager * ConsentState :=
  let s := default (MkState (Some tag) WITHDRAWN USER_EXPLICIT 0 0 None [] None now CONSENT_SCHEMA_VERSION)
             (dict_get tag (states m)) in
  let s := MkState (s_account s) WITHDRAWN (s_source s) (s_granted_at s) (s_expires_at s) (Some now) (s_scopes s) (s_token s)
             now (s_version s) in
  (set_states m (dict_set tag s (states m)), s).

Definition invalidate_consent (m : manager) (tag : str) (now : Z) : manager * ConsentState :=
  let s := default (MkState (Some tag) INVALID SYSTEM_DEFAULT 0 0 None [] None now CONSENT_SCHEMA_VERSION)
             (dict_get tag (states m)) in
  let s := MkState (s_account s) INVALID (s_source s) (s_granted_at s) (s_expires_at s) (s_withdrawal s) (s_scopes s) (s_token s)
             now (s_version s) in
  (set_states m (dict_set tag s (states m)), s).

(** Older than the grace period since the last change. *)
Definition prunable (m : manager) (now : Z) (p : str * ConsentState) : bool :=
  refused_status (s_status p.2) && (grace_period m <? now - s_modified p.2).

Definition to_remove (m : manager) (now max_to_prune : Z) : list str :=
  take (Z.to_nat max_to_prune) (filter (λ p, prunable m now p = true) (states m)).*1.

Definition prune_expired (m : manager) (now max_to_prune : Z) : manager * Z :=
  let gone := to_remove m now max_to_prune in
  (set_states m (foldl (λ l tag, dict_del tag l) (states m) gone), zlen gone).

(** [",".join(l)] *)
Fixpoint str_join (sep : str) (l : list str) : str :=
  match l with
  | [] => []
  | [x] => x
  | x :: l => x ++ sep ++ str_join sep l
  end.

(** The order of [sorted] on texts. *)
Definition str_le (a b : str) : Prop := str_leb a b = true.

#[export] Instance str_le_dec : RelDecision str_le.
Proof. intros a b. unfold str_le. apply _. Defined.

(** [generate_consent_token], with the randomness as an argument. *)
Definition generate_consent_token (tag status : str) (scopes : list str) (random : bytes) : result exn str :=
  let sorted_scopes := merge_sort str_le scopes in
  match utf8_encode (tag ++ status ++ str_join (lit ",") sorted_scopes) with
  | None => Err UnicodeError
  | Some raw => Ok (lit "cst-v1:" ++ take 24 (sha256_hex (raw ++ random)))
  end.

(** Membership in a short list of statuses, as a disjunction. *)
Ltac in_list := rewrite ?not_elem_of_cons, ?elem_of_cons, ?elem_of_nil in *; (intuition (congruence || lia)).

(** * Histories *)

Inductive consent_op :=
  | OpCheck (account_tag scope : option str) (now : Z)
  | OpSet (tag : str) (d : ConsentDecision) (now : Z)
  | OpWithdraw (tag : str) (now : Z)
  | OpInvalidate (tag : str) (now : Z)
  | OpPrune (now max_to_prune : Z).

Definition run_consent (m : manager) (o : consent_op) : manager :=
  match o with
  | OpCheck tag scope now => (check_consent m tag scope now).1
  | OpSet tag d now => (set_consent m tag d now).1
  | OpWithdraw tag now => (withdraw_consent m tag now).1
  | OpInvalidate tag now => (invalidate_consent m tag now).1
  | OpPrune now k => (prune_expired m now k).1
  end.

(** The account does not decide again, and is not pruned within its grace period, counted
    from its last withdrawal or invalidation, none of which is earlier than [since]. *)
Definition keeps_refusal (tag : str) (since grace : Z) (o : consent_op) : Prop :=
  match o with
  | OpSet tag' _ _ => tag' ≠ tag
  | OpPrune now _ => now - since ≤ grace
  | OpWithdraw tag' now | OpInvalidate tag' now => tag' = tag → since ≤ now
  | OpCheck _ _ _ => True
  end.

Definition refused (tag : str) (since : Z) (m : manager) : Prop :=
  ∃ s, dict_get tag (states m) = Some s ∧ s_status s ∈ [WITHDRAWN; INVALID] ∧ since ≤ s_modified s.

Lemma refused_check tag since m scope now :
  refused tag since m → (check_consent m (Some tag) scope now).2.1 = false ∧ (check_consent m (Some tag) scope now).1 = m.
Proof.
  intros (s & Hs & Hst & _). cbn. rewrite Hs. unfold effective_status.
  assert (s_status s ≠ GRANTED) as Hg by in_list. rewrite (bool_decide_false _ Hg). cbn [andb].
  unfold refused_status. rewrite bool_decide_true by in_list. done.
Qed.

Lemma foldl_del tag gone (l : list (str * ConsentState)) :
  tag ∉ gone → dict_get tag (foldl (λ l t, dict_del t l) l gone) = dict_get tag l.
Proof.
  revert l. induction gone as [|t gone IH]; intros l Ht; [done|]. apply not_elem_of_cons in Ht as [Hne Ht]. cbn.
  rewrite IH by done. by rewrite dict_get_del, decide_False.
Qed.

Lemma to_remove_elem m now k tag :
  tag ∈ to_remove m now k → ∃ s, (tag, s) ∈ states m ∧ prunable m now (tag, s) = true.
Proof.
  unfold to_remove. intros Hin. eapply elem_of_sublist in Hin; [|apply sublist_take].
  apply list_elem_of_fmap in Hin as ([t s] & -> & [Hp Hin]%list_elem_of_filter). by exists s.
Qed.

Lemma prune_keeps m now k tag s :
  NoDup (states m).*1 → dict_get tag (states m) = Some s → prunable m now (tag, s) = false →
  dict_get tag (states (prune_expired m now k).1) = Some s.
Proof.
  intros Hnd Hs Hp. cbn. rewrite foldl_del; [done|]. intros (s' & Hin & Hp')%to_remove_elem.
  apply dict_get_elem in Hin; [|done]. congruence.
Qed.

Lemma run_consent_ok m o : NoDup (states m).*1 → NoDup (states (run_consent m o)).*1 ∧ grace_period (run_consent m o) = grace_period m.
Proof.
  intros Hnd. destruct o as [tag scope now|tag d now|tag now|tag now|now k]; cbn.
  - unfold check_consent. destruct tag as [tag|]; [|done]. destruct (dict_get tag (states m)); cbn.
    + destruct (refused_status _); [done|]. destruct scope; [destruct (in_scope _ _)|]; done.
    + split; [by apply dict_set_NoDup|done].
  - split; [by apply dict_set_NoDup|done].
  - split; [by apply dict_set_NoDup|done].
  - split; [by apply dict_set_NoDup|done].
  - split; [|done]. generalize (to_remove m now k) as gone. intros gone. revert Hnd. generalize (states m) as l.
    induction gone as [|t gone IH]; intros l Hnd; [done|]. cbn. by apply IH, dict_del_NoDup.
Qed.

Lemma refused_step tag since m o :
  NoDup (states m).*1 → refused tag since m → keeps_refusal tag since (grace_period m) o → refused tag since (run_consent m o).
Proof.
  intros Hnd Hr Ho. destruct (Hr) as (s & Hs & Hst & Hm).
  destruct o as [tag' scope now|tag' d now|tag' now|tag' now|now k]; cbn [run_consent].
  - destruct tag' as [tag'|]; [|exact Hr]. destruct (decide (tag' = tag)) as [->|Hne].
    + by rewrite (proj2 (refused_check tag since m scope now Hr)).
    + exists s. split; [|done]. unfold check_consent. destruct (dict_get tag' (states m)); cbn.
      * destruct (refused_status _); [done|]. destruct scope; [destruct (in_scope _ _)|]; done.
      * rewrite dict_get_set. by rewrite decide_False.
  - exists s. split; [|done]. cbn. rewrite dict_get_set. by rewrite decide_False.
  - cbn in Ho. destruct (decide (tag = tag')) as [<-|Hne].
    + eexists. cbn. rewrite dict_get_set, decide_True by done. split; [done|]. cbn. split; [in_list|auto].
    + exists s. split; [|done]. cbn. rewrite dict_get_set. by rewrite decide_False.
  - cbn in Ho. destruct (decide (tag = tag')) as [<-|Hne].
    + eexists. cbn. rewrite dict_get_set, decide_True by done. split; [done|]. cbn. split; [in_list|auto].
    + exists s. split; [|done]. cbn. rewrite dict_get_set. by rewrite decide_False.
  - exists s. split; [|done]. apply prune_keeps; [done..|]. unfold prunable. cbn in Ho |- *.
    destruct (Z.ltb_spec (grace_period m) (now - s_modified s)); [lia|]. apply andb_false_r.
Qed.

Lemma refused_run tag since ops m :
  NoDup (states m).*1 → refused tag since m → Forall (keeps_refusal tag since (grace_period m)) ops →
  refused tag since (foldl run_consent m ops).
Proof.
  intros Hnd Hr Hops. remember (grace_period m) as g eqn:Hg. revert m Hnd Hr Hg.
  induction Hops as [|o ops Ho Hops IH]; intros m Hnd Hr ->; [done|]. cbn.
  destruct (run_consent_ok m o Hnd) as [Hnd' Hg']. apply IH; [done|by apply refused_step|done].
Qed.

(** Consent: once an account has withdrawn, every check of it is refused, for every
    scope and at every time, whatever other accounts do and however often it is checked,
    withdrawn or invalidated again, until it decides anew or its state is pruned after
    the grace period. *)
Theorem withdrawal_is_respected m tag t ops scope now :
  NoDup (states m).*1 → Forall (keeps_refusal tag t (grace_period m)) ops →
  (check_consent (foldl run_consent (withdraw_consent m tag t).1 ops) (Some tag) scope now).2.1 = false.
Proof.
  intros Hnd Hops. apply (refused_check tag t). apply refused_run; [cbn; by apply dict_set_NoDup| |done].
  eexists. cbn. rewrite dict_get_set, decide_True by done. split; [done|]. cbn. split; [in_list|lia].
Qed.

(** Consent: a known account is served exactly when its status is not expired,
    withdrawn or invalid, a grant has not run out, and the scope asked for (if any) or
    the wildcard is among its scopes. *)
Theorem known_account_served_iff m tag s scope now :
  dict_get tag (states m) = Some s →
  (check_consent m (Some tag) scope now).2.1 = true ↔
  s_status s ∉ [EXPIRED; WITHDRAWN; INVALID] ∧ (s_status s = GRANTED → 0 < s_expires_at s → now ≤ s_expires_at s) ∧
  (∀ sc, scope = Some sc → sc ∈ s_scopes s ∨ lit "*" ∈ s_scopes s).
Proof.
  intros Hs. cbn. rewrite Hs.
  assert (refused_status (effective_status s now) = false ↔
          s_status s ∉ [EXPIRED; WITHDRAWN; INVALID] ∧ (s_status s = GRANTED → 0 < s_expires_at s → now ≤ s_expires_at s)) as Hr.
  { unfold refused_status. rewrite bool_decide_eq_false. unfold effective_status.
    destruct (decide (s_status s = GRANTED)) as [Hg|Hg]; [rewrite (bool_decide_true _ Hg)|rewrite (bool_decide_false _ Hg)]; cbn [andb].
    - destruct (Z.ltb_spec 0 (s_expires_at s)), (Z.ltb_spec (s_expires_at s) now); cbn [andb]; in_list.
    - in_list. }
  destruct (refused_status (effective_status s now)); cbn.
  - split; [done|]. intros (H1 & H2 & _). discriminate (proj2 Hr (conj H1 H2)).
  - destruct (proj1 Hr eq_refl) as [H1 H2]. destruct scope as [sc|]; cbn [snd fst].
    + assert (in_scope sc (s_scopes s) = true ↔ sc ∈ s_scopes s ∨ lit "*" ∈ s_scopes s) as Hin
        by (unfold in_scope; by rewrite orb_true_iff, !bool_decide_eq_true).
      destruct (in_scope sc (s_scopes s)); cbn.
      * split; [|done]. intros _. split_and!; [done..|]. intros ? [= <-]. by apply Hin.
      * split; [done|]. intros (_ & _ & H3). by apply Hin, H3.
    + split; [|done]. intros _. by split_and!.
Qed.

(** Consent: a pruned withdrawal is forgotten: the account's next check is refused
    but opens a grace state, and every check after it without a scope is served, without
    end. *)
Theorem pruned_withdrawal_forgotten m tag t now k t1 t2 :
  states m = [] → 1 ≤ k → grace_period m < now - t →
  let m1 := (prune_expired (withdraw_consent m tag t).1 now k).1 in
  let m2 := (check_consent m1 (Some tag) None t1).1 in
  (check_consent m1 (Some tag) None t1).2.1 = false ∧ (check_consent m2 (Some tag) None t2).2.1 = true.
Proof.
  intros Hm Hk Hnow m1 m2.
  assert (dict_get tag (states m1) = None) as Hnone.
  { unfold m1, withdraw_consent, prune_expired, to_remove. cbn. rewrite Hm. cbn [dict_get dict_set states set_states default].
    rewrite filter_cons_True.
    2: { unfold prunable, refused_status. cbn. rewrite bool_decide_true by in_list. lia. }
    cbn. destruct (Z.to_nat k) as [|n] eqn:E; [lia|]. cbn. rewrite take_nil. cbn. by rewrite decide_True. }
  split.
  - unfold check_consent. by rewrite Hnone.
  - unfold m2, check_consent. rewrite Hnone. cbn [fst states set_states]. by rewrite dict_get_set, decide_True.
Qed.

(** Consent: a recorded denial is served: without a scope, and for every scope listed
    in it, since only expired, withdrawn and invalid states are refused. *)
Theorem denial_is_served m tag d t scope now :
  dict_get tag (states m) = None → d_status d = DENIED → (∀ sc, scope = Some sc → sc ∈ d_scope d) →
  (check_consent (set_consent m tag d t).1 (Some tag) scope now).2.1 = true.
Proof.
  intros Hn Hd Hsc. unfold set_consent, check_consent. rewrite Hn. cbn [fst states set_states].
  rewrite dict_get_set, decide_True by done. unfold effective_status. cbn [s_status s_scopes]. rewrite Hd.
  change (bool_decide (DENIED = GRANTED)) with false. cbn [andb]. change (refused_status DENIED) with false. cbv iota.
  destruct scope as [sc|]; [|done]. unfold in_scope. by rewrite bool_decide_true by auto.
Qed.

(** * Witnesses *)

Definition empty_manager : manager := Manager [] CONSENT_GRACE_PERIOD_SECONDS.

Lemma withdrawal_is_respected_witness :
  (check_consent (foldl run_consent (withdraw_consent empty_manager (lit "a") 10).1
     [OpCheck (Some (lit "a")) None 20; OpPrune 1000 5; OpSet (lit "b") (MkDecision GRANTED USER_EXPLICIT [lit "*"] 0 0 [] None None) 30])
     (Some (lit "a")) None 99999).2.1 = false.
Proof.
  apply (withdrawal_is_respected empty_manager (lit "a") 10).
  - constructor.
  - repeat constructor; vm_compute; congruence.
Defined.

Definition granted_manager : manager :=
  (set_consent empty_manager (lit "a") (MkDecision GRANTED USER_EXPLICIT [lit "x"] 100 0 [] None None) 1).1.

Lemma known_account_served_iff_witness :
  (check_consent granted_manager (Some (lit "a")) (Some (lit "x")) 100).2.1 = true ∧
  (check_consent granted_manager (Some (lit "a")) (Some (lit "x")) 101).2.1 = false.
Proof.
  split; [|vm_compute; reflexivity].
  apply (known_account_served_iff granted_manager (lit "a")
           (MkState (Some (lit "a")) GRANTED USER_EXPLICIT 0 100 None [lit "x"] None 1 []) (Some (lit "x")) 100).
  - vm_compute; reflexivity.
  - cbn. split_and!; [in_list|lia|]. intros ? [= <-]. left. left.
Defined.

Lemma pruned_withdrawal_forgotten_witness :
  let m1 := (prune_expired (withdraw_consent empty_manager (lit "a") 0).1 3600 1000).1 in
  let m2 := (check_consent m1 (Some (lit "a")) None 3601).1 in
  (check_consent m1 (Some (lit "a")) None 3601).2.1 = false ∧ (check_consent m2 (Some (lit "a")) None 3602).2.1 = true.
Proof. apply (pruned_withdrawal_forgotten empty_manager (lit "a") 0 3600 1000 3601 3602); vm_compute; congruence. Defined.

Lemma denial_is_served_witness :
  (check_consent (set_consent empty_manager (lit "a") (MkDecision DENIED USER_EXPLICIT [lit "x"] 0 0 [] None None) 1).1
     (Some (lit "a")) (Some (lit "x")) 5).2.1 = true.
Proof.
  apply (denial_is_served empty_manager (lit "a") (MkDecision DENIED USER_EXPLICIT [lit "x"] 0 0 [] None None) 1 (Some (lit "x")) 5);
    [reflexivity|reflexivity|]. intros ? [= <-]. left.
Defined.
