(* ===== verification/Sampling.v ===== *)
(** Sampling of analytics events: [backend/analytics/sampling.py].  A rate is a [pynum];
    the threshold [int(rate * bucket_max)] is the class [FloatScale], whose law is that
    rounding a product is monotone.

    Shown: an event that is kept at a rate is kept at every higher one, so raising a rate
    only adds events; rates up to 0 keep nothing and rates from 1 keep everything; the
    decision depends on the account, event and session only through their bucket, which
    is in range. *)
From Stdlib Require Import ZArith QArith Qround Lia.
From stdpp Require Import base decidable strings numbers list.
From S2P Require Import Prelude PyStr Json PyVal Sha256 Config Consent.

Open Scope Z_scope.

#[local] Arguments lit _ : simpl never.

(** [int(rate * bucket_max)] for a rate strictly between 0 and 1. *)
Class FloatScale := scaled : Q → Z → Z.

Class FloatScaleLaws `{FloatScale} := {
  scaled_mono q q' n : (0 < q)%Q → (q <= q')%Q → (q' < 1)%Q → 1 ≤ n → scaled q n ≤ scaled q' n;
  scaled_range q n : (0 < q)%Q → (q < 1)%Q → 1 ≤ n → 0 ≤ scaled q n ≤ n;
}.

Definition SAMPLING_DOMAIN_VERSION : str := lit "1.0.0".

Inductive sampling_outcome :=
  | NOT_ENABLED | IN_ALLOWLIST_OVERRIDE | OUT_ALLOWLIST_OVERRIDE | SAMPLED_IN | SAMPLED_OUT | OVERRIDDEN_FORCE.

Record SamplingDecision := MkSampling {
  sampled_in : bool;
  rate_applied : pynum;
  sd_outcome : sampling_outcome;
  allowlist_event_name : option str;
  bucket_value : option Z;
  bucket_max_used : option Z;
  sd_reason : option str;
}.

(** [value or default] on an optional text *)
Definition or_default (o : option str) (dflt : str) : str := match o with Some ((_ :: _) as s) => s | _ => dflt end.

Definition compute_sampling_token (account_tag : option str) (event_name : str) (session_tag extra_salt : option str)
    : result exn str :=
  let payload := str_join (lit "|") [or_default account_tag (lit "anon"); event_name; or_default session_tag [];
                                     or_default extra_salt []] in
  match utf8_encode payload with
  | None => Err UnicodeError
  | Some b => Ok (lit "st-v1:" ++ take 8 (sha256_hex b))
  end.

(** [rate] after the two clamps. *)
Definition clamp_rate (rate : pynum) : pynum :=
  match rate with
  | NaN => NaN
  | Inf true => Fin 0
  | Inf false => Fin 1
  | Fin q => if Qle_bool 0 q then if Qle_bool q 1 then Fin q else Fin 1 else Fin 0
  end.

(** [int(sha256(token).hexdigest()[:12], 16)] *)
Definition hash_value (token : bytes) : Z := int_of_be (take 6 (sha256 token)).

Definition deterministic_sample_decision `{FloatScale} (sampling_token : str) (rate : pynum) (bucket_max : Z)
    : result exn (bool * Z) :=
  let bucket_max := Z.max 1 bucket_max in
  match clamp_rate rate with
  | Fin q =>
      if Qle_bool q 0 then Ok (false, 0)
      else if Qle_bool 1 q then Ok (true, bucket_max)
      else match utf8_encode sampling_token with
           | None => Err UnicodeError
           | Some b =>
               let bucket := hash_value b mod bucket_max in
               Ok (bucket <? scaled q bucket_max, bucket)
           end
  | _ =>                                                  (* int(nan) *)
      match utf8_encode sampling_token with
      | None => Err UnicodeError
      | Some _ => Err (ValueError "cannot convert float NaN to integer")
      end
  end.

Record Sampler := MkSampler {
  sampler_enabled : bool;
  default_rate : pynum;
  allowlist_overrides : list (str * pynum);
  bucket_max : Z;
}.

Definition new_sampler (enabled : bool) (rate : pynum) (overrides : list (str * pynum)) (buckets : Z) : result exn Sampler :=
  if in_unit rate then Ok (MkSampler enabled rate overrides buckets) else Err (ValueError "default_rate must be in [0,1]").

Definition decide_sampling `{FloatScale} (s : Sampler) (event_name : str) (account_tag session_tag extra_salt : option str)
    (force : option bool) : result exn SamplingDecision :=
  match force with
  | Some true => Ok (MkSampling true (Fin 1) OVERRIDDEN_FORCE None None None (Some (lit "force_true")))
  | Some false => Ok (MkSampling false (Fin 0) OVERRIDDEN_FORCE None None None (Some (lit "force_false")))
  | None =>
      if negb (sampler_enabled s)
      then Ok (MkSampling true (Fin 1) NOT_ENABLED None None None (Some (lit "sampling_disabled_treated_as_in")))
      else
        let effective_rate := default (default_rate s) (dict_get event_name (allowlist_overrides s)) in
        let override_applied := dict_has event_name (allowlist_overrides s) in
        token ← compute_sampling_token account_tag event_name session_tag extra_salt;
        '(kept, bucket) ← deterministic_sample_decision token effective_rate (bucket_max s);
        let outcome := if override_applied
                       then if (kept : bool) then IN_ALLOWLIST_OVERRIDE else OUT_ALLOWLIST_OVERRIDE
                       else if (kept : bool) then SAMPLED_IN else SAMPLED_OUT in
        Ok (MkSampling kept effective_rate outcome (if override_applied then Some event_name else None) (Some bucket)
              (Some (bucket_max s)) None)
  end.

(** * Rates *)

(** [rate <= rate'] for two numbers. *)
Definition rate_le (x y : pynum) : Prop :=
  match x, y with
  | Fin q, Fin q' => (q <= q')%Q
  | Inf true, (Inf _ | Fin _) | Fin _, Inf false | Inf false, Inf false => True
  | _, _ => False
  end.

Lemma qle_false q q' : Qle_bool q q' = false → (q' < q)%Q.
Proof. intros Hq. apply Qnot_le_lt. intros Hle%Qle_bool_iff. congruence. Qed.

Lemma clamp_fin rate : rate ≠ NaN → ∃ q, clamp_rate rate = Fin q ∧ (0 <= q <= 1)%Q.
Proof.
  destruct rate as [|[]|q]; intros Hn; [done|by exists 0%Q|by exists 1%Q|]. cbn.
  destruct (Qle_bool 0 q) eqn:E0; [|by exists 0%Q]. destruct (Qle_bool q 1) eqn:E1; [|by exists 1%Q].
  exists q. apply Qle_bool_iff in E0, E1. done.
Qed.

Lemma rate_le_numbers x y : rate_le x y → x ≠ NaN ∧ y ≠ NaN.
Proof. by destruct x as [|[]|], y as [|[]|]. Qed.

Lemma clamp_mono x y q q' :
  rate_le x y → clamp_rate x = Fin q → clamp_rate y = Fin q' → (q <= q')%Q.
Proof.
  intros Hle Hx Hy. destruct (rate_le_numbers _ _ Hle) as [Hnx Hny].
  destruct (clamp_fin x Hnx) as (a & Ha & Ha0 & Ha1). destruct (clamp_fin y Hny) as (b & Hb & Hb0 & Hb1).
  rewrite Ha in Hx. rewrite Hb in Hy. injection Hx as <-. injection Hy as <-.
  destruct x as [|[]|x]; destruct y as [|[]|y]; try done; cbn in Ha, Hb; try (injection Ha as <-); try (injection Hb as <-); try done.
  cbn in Hle. revert Ha Hb.
  destruct (Qle_bool 0 x) eqn:E0; [destruct (Qle_bool x 1) eqn:E1|]; intros [= <-];
    (destruct (Qle_bool 0 y) eqn:E2; [destruct (Qle_bool y 1) eqn:E3|]); intros [= <-]; try done.
  - apply qle_false in E2. apply Qle_bool_iff in E0. exfalso. apply (Qlt_not_le _ _ E2). by eapply Qle_trans.
  - apply qle_false in E1. apply Qle_bool_iff in E3. exfalso. apply (Qlt_not_le _ _ E1). by eapply Qle_trans.
  - apply qle_false in E2. apply Qle_bool_iff in E0. exfalso. apply (Qlt_not_le _ _ E2). by eapply Qle_trans.
Qed.

Section claims.
  Context `{FloatScaleLaws}.

Lemma sample_mono token x y n b bkt b' bkt' :
  rate_le x y →
  deterministic_sample_decision token x n = Ok (b, bkt) → deterministic_sample_decision token y n = Ok (b', bkt') →
  b = true → b' = true.
Proof.
  intros Hle Hx Hy ->. unfold deterministic_sample_decision in *.
  destruct (rate_le_numbers _ _ Hle) as [Hnx Hny].
  destruct (clamp_fin x Hnx) as (q & Hq & Hq0 & Hq1). destruct (clamp_fin y Hny) as (q' & Hq' & Hq0' & Hq1').
  pose proof (clamp_mono x y q q' Hle Hq Hq') as Hqq. rewrite Hq in Hx. rewrite Hq' in Hy.
  destruct (Qle_bool q 0) eqn:E0; [done|]. apply qle_false in E0.
  destruct (Qle_bool q' 0) eqn:E0'.
  { apply Qle_bool_iff in E0'. exfalso. apply (Qlt_not_le _ _ E0). by eapply Qle_trans. }
  destruct (Qle_bool 1 q') eqn:E1'; [by injection Hy as <-|]. apply qle_false in E1'.
  destruct (Qle_bool 1 q) eqn:E1.
  { apply Qle_bool_iff in E1. exfalso. apply (Qlt_not_le _ _ E1'). by eapply Qle_trans. }
  destruct (utf8_encode token) as [t|]; [|done]. injection Hx as Hx <-. injection Hy as <- <-.
  pose proof (scaled_mono q q' (Z.max 1 n) E0 Hqq E1' ltac:(lia)). lia.
Qed.

(** Sampling: an event kept under a sampler's rate is kept under every sampler with
    the same buckets and a rate at least as high, for every account, session and salt:
    raising the rate only adds events. *)
Theorem sampling_is_monotone s s' event account session salt dec dec' :
  sampler_enabled s = true → sampler_enabled s' = true → bucket_max s = bucket_max s' →
  rate_le (default (default_rate s) (dict_get event (allowlist_overrides s)))
          (default (default_rate s') (dict_get event (allowlist_overrides s'))) →
  decide_sampling s event account session salt None = Ok dec →
  decide_sampling s' event account session salt None = Ok dec' →
  sampled_in dec = true → sampled_in dec' = true.
Proof.
  intros He He' Hb Hle Hd Hd'. unfold decide_sampling in *. rewrite He in Hd. rewrite He' in Hd'. cbn [negb] in *.
  apply bind_ok in Hd as (tok & Ht & Hd). apply bind_ok in Hd as ([k bk] & Hk & Hd). injection Hd as <-.
  apply bind_ok in Hd' as (tok' & Ht' & Hd'). apply bind_ok in Hd' as ([k' bk'] & Hk' & Hd'). injection Hd' as <-.
  rewrite Ht in Ht'. injection Ht' as <-. rewrite Hb in Hk. cbn. by eapply sample_mono.
Qed.

(** Sampling: the decision of an enabled sampler never fails on encodable names with a
    rate that is a number; rates up to 0 keep nothing and rates from 1 keep everything;
    in between, the bucket is below the number of buckets. *)
Theorem sampling_decision_range token x n b :
  utf8_encode token = Some b → x ≠ NaN →
  ∃ kept bucket, deterministic_sample_decision token x n = Ok (kept, bucket) ∧
    0 ≤ bucket ≤ Z.max 1 n ∧ (le_zero x = true → kept = false) ∧ (rate_le (Fin 1) x → kept = true).
Proof.
  intros Hb Hx. destruct (clamp_fin x Hx) as (q & Hq & Hq0 & Hq1). unfold deterministic_sample_decision. rewrite Hq, Hb.
  assert (le_zero x = true → q == 0)%Q as Hz.
  { destruct x as [|[]|x]; cbn in *; try done; [by injection Hq as <-|]. intros Hle%Qle_bool_iff.
    destruct (Qle_bool 0 x) eqn:E0; [|by injection Hq as <-]. apply Qle_bool_iff in E0.
    destruct (Qle_bool x 1) eqn:E1; injection Hq as <-; [by apply Qle_antisym|].
    apply qle_false in E1. exfalso. apply (Qlt_not_le _ _ E1). eapply Qle_trans; [exact Hle|discriminate]. }
  assert (rate_le (Fin 1) x → q == 1)%Q as Ho.
  { destruct x as [|[]|x]; cbn in *; try done; [by injection Hq as <-|]. intros Hle.
    rewrite (proj2 (Qle_bool_iff 0 x)) in Hq by (eapply Qle_trans; [|exact Hle]; discriminate).
    destruct (Qle_bool x 1) eqn:E1; injection Hq as <-; [|done]. apply Qle_bool_iff in E1. by apply Qle_antisym. }
  destruct (Qle_bool q 0) eqn:E0.
  { exists false, 0. split_and!; [done|lia|lia|done|]. intros Hr%Ho. rewrite Hr in E0. done. }
  destruct (Qle_bool 1 q) eqn:E1.
  { exists true, (Z.max 1 n). split_and!; [done|lia|lia| |done]. intros Hr%Hz. rewrite Hr in E1. done. }
  do 2 eexists. split; [reflexivity|]. pose proof (Z.mod_pos_bound (hash_value b) (Z.max 1 n) ltac:(lia)).
  split_and!; [lia|lia| |].
  - intros Hr%Hz. rewrite Hr in E0. done.
  - intros Hr%Ho. rewrite Hr in E1. done.
Qed.
End claims.

(** * Witnesses *)

(** Scaling without rounding error. *)
#[local] Instance exact_scale : FloatScale := λ q n, Qfloor (q * inject_Z n).

Lemma exact_scale_laws : FloatScaleLaws.
Proof.
  assert (∀ n, 1 ≤ n → (0 <= inject_Z n)%Q) as Hn by (intros n Hn; change 0%Q with (inject_Z 0); rewrite <- Zle_Qle; lia).
  split; unfold scaled, exact_scale.
  - intros q q' n _ Hle _ Hn1. apply Qfloor_resp_le, Qmult_le_compat_r; auto.
  - intros q n H0 H1 Hn1. split.
    + change 0 with (Qfloor 0). apply Qfloor_resp_le. apply Qmult_le_0_compat; [by apply Qlt_le_weak|auto].
    + rewrite <- (Qfloor_Z n) at 2. apply Qfloor_resp_le. rewrite <- (Qmult_1_l (inject_Z n)) at 2.
      apply Qmult_le_compat_r; [by apply Qlt_le_weak|auto].
Qed.

Definition sampler_at (q : Q) : Sampler := MkSampler true (Fin q) [] 1000000.

(** The decision, and [false] when there is none. *)
Definition is_kept (r : result exn SamplingDecision) : bool := match r with Ok d => sampled_in d | Err _ => false end.

Lemma sampling_is_monotone_witness :
  is_kept (decide_sampling (sampler_at (7 # 10)) (lit "system.startup") (Some (lit "b")) None None None) = true →
  is_kept (decide_sampling (sampler_at (9 # 10)) (lit "system.startup") (Some (lit "b")) None None None) = true.
Proof.
  destruct (decide_sampling (sampler_at (7 # 10)) _ _ _ _ _) as [d|e] eqn:E; [|done].
  destruct (decide_sampling (sampler_at (9 # 10)) _ _ _ _ _) as [d'|e'] eqn:E'; [|by vm_compute in E'].
  cbn [is_kept]. pose proof exact_scale_laws.
  apply (sampling_is_monotone (sampler_at (7 # 10)) (sampler_at (9 # 10)) (lit "system.startup") (Some (lit "b")) None None d d');
    [reflexivity..|discriminate|exact E|exact E'].
Defined.

Lemma sampling_decision_range_witness :
  ∃ kept bucket, deterministic_sample_decision (lit "st-v1:0") (Fin (3 # 2)) 10 = Ok (kept, bucket) ∧
    0 ≤ bucket ≤ Z.max 1 10 ∧ (le_zero (Fin (3 # 2)) = true → kept = false) ∧ (rate_le (Fin 1) (Fin (3 # 2)) → kept = true).
Proof. apply (sampling_decision_range (lit "st-v1:0") (Fin (3 # 2)) 10 (lit "st-v1:0")); [by vm_compute|done]. Defined.
