(* ===== verification/Regex.v ===== *)
(** The fragment of Python's [re] that the analytics modules use: character classes,
    anchors and word boundaries, sequences, alternatives, counted repetition and
    repetition of a class.  The code only asks whether a pattern matches somewhere
    ([search]) or at the start ([match]), which does not depend on which match a
    backtracking engine prefers.

    Shown: the matcher with continuations decides the inductive matching relation; a
    search for a literal is the search for a substring. *)
From Stdlib Require Import ZArith Lia.
From stdpp Require Import base decidable strings numbers list.
From S2P Require Import Prelude PyStr.

Open Scope Z_scope.

Inductive rx : Type :=
  | Eps
  | Cls (p : Z → bool)                    (* one character of the class *)
  | Bol                                   (* ^ *)
  | Eol                                   (* $: the end, or before a final newline *)
  | WordB (w : Z → bool)                  (* \b *)
  | Cat (r r' : rx)
  | Alt (r r' : rx)
  | Rep (n : nat) (r : rx)                (* r{n} *)
  | Star (p : Z → bool).                  (* [...]* *)

(** A position: the character before it and the text after it. *)
Notation pos := (option Z * str)%type.

Definition at_boundary (w : Z → bool) (x : pos) : bool :=
  xorb (match x.1 with Some c => w c | None => false end) (match x.2 with c :: _ => w c | [] => false end).

Definition at_eol (x : pos) : bool := match x.2 with [] => true | [c] => c =? 10 | _ => false end.

Definition at_bol (x : pos) : bool := match x.1 with None => true | Some _ => false end.

(** * The relation *)

Inductive matches : rx → pos → pos → Prop :=
  | MEps x : matches Eps x x
  | MCls p b c s : p c = true → matches (Cls p) (b, c :: s) (Some c, s)
  | MBol x : at_bol x = true → matches Bol x x
  | MEol x : at_eol x = true → matches Eol x x
  | MWordB w x : at_boundary w x = true → matches (WordB w) x x
  | MCat r r' x y z : matches r x y → matches r' y z → matches (Cat r r') x z
  | MAltL r r' x y : matches r x y → matches (Alt r r') x y
  | MAltR r r' x y : matches r' x y → matches (Alt r r') x y
  | MRepO r x : matches (Rep O r) x x
  | MRepS n r x y z : matches r x y → matches (Rep n r) y z → matches (Rep (S n) r) x z
  | MStarO p x : matches (Star p) x x
  | MStarS p b c s y : p c = true → matches (Star p) (Some c, s) y → matches (Star p) (b, c :: s) y.

(** * The matcher *)

Fixpoint star_run (p : Z → bool) (k : pos → bool) (b : option Z) (s : str) : bool :=
  k (b, s) || match s with c :: s => p c && star_run p k (Some c) s | [] => false end.

Fixpoint run (r : rx) (k : pos → bool) (x : pos) {struct r} : bool :=
  match r with
  | Eps => k x
  | Cls p => match x.2 with c :: s => p c && k (Some c, s) | [] => false end
  | Bol => at_bol x && k x
  | Eol => at_eol x && k x
  | WordB w => at_boundary w x && k x
  | Cat r r' => run r (run r' k) x
  | Alt r r' => run r k x || run r' k x
  | Rep n r => Nat.iter n (λ k, run r k) k x
  | Star p => star_run p k x.1 x.2
  end.

(** [pattern.match(s)] *)
Definition match_at_start (r : rx) (s : str) : bool := run r (λ _, true) (None, s).

Fixpoint search_from (r : rx) (b : option Z) (s : str) : bool :=
  run r (λ _, true) (b, s) || match s with c :: s => search_from r (Some c) s | [] => false end.

(** [pattern.search(s)] *)
Definition search (r : rx) (s : str) : bool := search_from r None s.

(** * Building patterns *)

(** [r{lo,}] for a class *)
Definition at_least (lo : nat) (p : Z → bool) : rx := Cat (Rep lo (Cls p)) (Star p).

(** [r{0,n}] *)
Fixpoint up_to (n : nat) (r : rx) : rx :=
  match n with O => Eps | S n => Alt Eps (Cat r (up_to n r)) end.

Definition alts (l : list rx) : rx := foldr Alt (Cls (λ _, false)) l.

Definition cats (l : list rx) : rx := foldr Cat Eps l.

Definition between (a b c : Z) : bool := (a <=? c) && (c <=? b).

Definition one_of (s : str) (c : Z) : bool := bool_decide (c ∈ s).

(** [re.IGNORECASE]: the cases of the ASCII letters, and the four other characters that
    fold to one of them. *)
Definition ascii_fold (c : Z) : Z :=
  if (c =? 304) || (c =? 305) then 105 else if c =? 383 then 115 else if c =? 8490 then 107 else c.

Definition nocase (p : Z → bool) (c : Z) : bool := let c := ascii_fold c in p (ascii_lower c) || p (ascii_upper c).

(** A literal text, with or without case. *)
Definition word (s : str) : rx := cats (map (λ a, Cls (Z.eqb a)) s).
Definition word_nocase (s : str) : rx := cats (map (λ a, Cls (nocase (Z.eqb a))) s).

(** * The matcher decides the relation *)

Lemma star_run_spec p k b s :
  star_run p k b s = true ↔ ∃ y, matches (Star p) (b, s) y ∧ k y = true.
Proof.
  revert b. induction s as [|c s IH]; intros b; cbn [star_run].
  - rewrite orb_false_r. split; [intros Hk; exists (b, []); by split; [constructor|]|].
    intros (y & Hm & Hk). by inversion Hm; subst.
  - rewrite orb_true_iff, andb_true_iff, IH. split.
    + intros [Hk|(Hp & y & Hm & Hk)]; [exists (b, c :: s); by split; [constructor|]|].
      exists y. by split; [constructor|].
    + intros (y & Hm & Hk). inversion Hm; subst; [by left|]. right. split; [done|]. by exists y.
Qed.

Lemma run_spec r : ∀ k x, run r k x = true ↔ ∃ y, matches r x y ∧ k y = true.
Proof.
  induction r as [|p| | |w|r IH r' IH'|r IH r' IH'|n r IH|p]; intros k x; cbn [run].
  - split; [intros Hk; exists x; by split; [constructor|]|]. intros (y & Hm & Hk). by inversion Hm; subst.
  - destruct x as [b [|c s]]; cbn [snd].
    + split; [done|]. intros (y & Hm & _). inversion Hm.
    + rewrite andb_true_iff. split; [intros [Hp Hk]; eexists; by split; [constructor|]|].
      intros (y & Hm & Hk). by inversion Hm; subst.
  - rewrite andb_true_iff. split; [intros [Hp Hk]; exists x; by split; [constructor|]|].
    intros (y & Hm & Hk). by inversion Hm; subst.
  - rewrite andb_true_iff. split; [intros [Hp Hk]; exists x; by split; [constructor|]|].
    intros (y & Hm & Hk). by inversion Hm; subst.
  - rewrite andb_true_iff. split; [intros [Hp Hk]; exists x; by split; [constructor|]|].
    intros (y & Hm & Hk). by inversion Hm; subst.
  - rewrite IH. setoid_rewrite IH'. split.
    + intros (y & Hm & z & Hm' & Hk). exists z. split; [by econstructor|done].
    + intros (z & Hm & Hk). inversion Hm; subst. eauto.
  - rewrite orb_true_iff, IH, IH'. split.
    + intros [(y & Hm & Hk)|(y & Hm & Hk)]; exists y; (split; [|done]); [by apply MAltL|by apply MAltR].
    + intros (y & Hm & Hk). inversion Hm; subst; eauto.
  - revert x. induction n as [|n IHn]; intros x; cbn [Nat.iter].
    + split; [intros Hk; exists x; by split; [constructor|]|]. intros (y & Hm & Hk). by inversion Hm; subst.
    + change (run r (Nat.iter n (λ k, run r k) k) x = true ↔ ∃ y, matches (Rep (S n) r) x y ∧ k y = true).
      rewrite IH. setoid_rewrite IHn. split.
      * intros (y & Hm & z & Hm' & Hk). exists z. split; [by econstructor|done].
      * intros (z & Hm & Hk). inversion Hm; subst. eauto.
  - destruct x as [b s]. apply star_run_spec.
Qed.

(** The position after the characters [a], from the start of the text. *)
Definition reached (a rest : str) : pos := (last a, rest).

Lemma last_step (b : option Z) c (a : str) :
  from_option Some b (last (c :: a)) = from_option Some (Some c) (last a).
Proof. destruct a as [|c' a]; [done|]. rewrite last_cons_cons. by destruct (last_is_Some (c' :: a)) as [_ [? ->]]. Qed.

Lemma search_from_spec r b s :
  search_from r b s = true ↔
  ∃ a rest y, s = a ++ rest ∧ matches r (from_option Some b (last a), rest) y.
Proof.
  revert b. induction s as [|c s IH]; intros b; cbn [search_from]; rewrite ?orb_true_iff, run_spec.
  - split.
    + intros [(y & Hm & _)|]; [|done]. by exists [], [], y.
    + intros ([|] & rest & y & Heq & Hm); [|done]. cbn in Heq. subst rest. left. by exists y.
  - rewrite IH. split.
    + intros [(y & Hm & _)|(a & rest & y & -> & Hm)]; [by exists [], (c :: s), y|].
      exists (c :: a), rest, y. split; [done|]. by rewrite last_step.
    + intros (a & rest & y & Heq & Hm). destruct a as [|a0 a]; cbn in Heq.
      * subst rest. left. by exists y.
      * injection Heq as -> ->. right. exists a, rest, y. split; [done|]. by rewrite last_step in Hm.
Qed.

Lemma regex_search_spec r s : search r s = true ↔ ∃ a rest y, s = a ++ rest ∧ matches r (reached a rest) y.
Proof.
  unfold search. rewrite search_from_spec. unfold reached.
  assert (∀ a : str, from_option Some None (last a) = last a) as Hl by (intros a; by destruct (last a)).
  by setoid_rewrite Hl.
Qed.

Lemma match_at_start_spec r s : match_at_start r s = true ↔ ∃ y, matches r (None, s) y.
Proof. unfold match_at_start. rewrite run_spec. split; [intros (y & Hm & _); by exists y|intros [y Hm]; by exists y]. Qed.

Lemma word_by_spec (f : Z → Z → bool) s : ∀ x y,
  matches (cats (map (λ a, Cls (f a)) s)) x y ↔
  ∃ t, Forall2 (λ a c, f a c = true) s t ∧ x.2 = t ++ y.2 ∧ y.1 = from_option Some x.1 (last t).
Proof.
  induction s as [|a s IH]; intros [b u] [b' u']; cbn [map cats foldr fst snd].
  - split.
    + intros Hm. inversion Hm; subst. exists []. by split_and!.
    + intros (t & Ht & Hu & Hb). inversion Ht; subst. cbn in *. subst. constructor.
  - split.
    + intros Hm. inversion Hm as [| | | | |? ? ? y ? Hc Hr| | | | | | ]; subst. inversion Hc; subst.
      apply IH in Hr as (t & Ht & Hu & Hb). cbn in Hu, Hb. exists (c :: t). split_and!; [by constructor|by f_equal/=|].
      by rewrite Hb, last_step.
    + intros (t & Ht & Hu & Hb). apply Forall2_cons_inv_l in Ht as (c & t' & Hc & Ht' & ->). cbn in Hu. subst u.
      eapply MCat; [by constructor|]. apply IH. exists t'. split_and!; [done..|]. cbn. by rewrite Hb, last_step.
Qed.

Lemma alts_spec l x y : matches (alts l) x y ↔ ∃ r, r ∈ l ∧ matches r x y.
Proof.
  induction l as [|r l IH]; cbn [alts foldr].
  - split; [intros Hm; by inversion Hm|]. intros (r & Hr & _). by apply elem_of_nil in Hr.
  - split.
    + intros Hm. inversion Hm; subst; [exists r; split; [left|done]|].
      match goal with Hx : matches _ _ _ |- _ => apply IH in Hx as (r' & Hr' & Hm') end. exists r'. split; [by right|done].
    + intros (r' & [->|Hr']%elem_of_cons & Hm); [by apply MAltL|]. apply MAltR, IH. by exists r'.
Qed.

(** [t] occurs in [s] up to case. *)
Definition occurs_nocase (t s : str) : Prop :=
  ∃ a u b, s = a ++ u ++ b ∧ Forall2 (λ x c, nocase (Z.eqb x) c = true) t u.

(** A search for alternatives of literals is a search for one of them as a substring. *)
Lemma search_words ws s :
  search (alts (map word_nocase ws)) s = true ↔ ∃ w, w ∈ ws ∧ occurs_nocase w s.
Proof.
  rewrite regex_search_spec. split.
  - intros (a & rest & y & -> & (r & (w & -> & Hw)%list_elem_of_fmap & Hm)%alts_spec).
    apply (word_by_spec (λ x, nocase (Z.eqb x))) in Hm as (t & Ht & Hr & _). cbn in Hr. subst rest.
    exists w. split; [done|]. by exists a, t, y.2.
  - intros (w & Hw & a & u & b & -> & Hu). exists a, (u ++ b), (from_option Some (last a) (last u), b).
    split; [done|]. apply alts_spec. exists (word_nocase w). split; [by apply list_elem_of_fmap; exists w|].
    apply (word_by_spec (λ x, nocase (Z.eqb x))). by exists u.
Qed.

(** * Inversion, as equivalences *)

Lemma matches_cat r r' x z : matches (Cat r r') x z ↔ ∃ y, matches r x y ∧ matches r' y z.
Proof. split; [intros Hm; inversion Hm; subst; eauto|]. intros (y & H1 & H2). by econstructor. Qed.

Lemma matches_alt r r' x y : matches (Alt r r') x y ↔ matches r x y ∨ matches r' x y.
Proof. split; [intros Hm; inversion Hm; subst; auto|]. intros [Hm|Hm]; [by apply MAltL|by apply MAltR]. Qed.

Lemma matches_eps x y : matches Eps x y ↔ y = x.
Proof. split; [intros Hm; by inversion Hm|]. intros ->. constructor. Qed.

Lemma matches_cls p x y : matches (Cls p) x y ↔ ∃ c s, x.2 = c :: s ∧ p c = true ∧ y = (Some c, s).
Proof.
  split; [intros Hm; inversion Hm; subst; eauto|]. destruct x as [b u]. intros (c & s & Hx & Hp & ->). cbn in Hx. subst. by constructor.
Qed.

Lemma matches_bol x y : matches Bol x y ↔ y = x ∧ at_bol x = true.
Proof. split; [intros Hm; by inversion Hm|]. intros [-> Hb]. by constructor. Qed.

Lemma matches_eol x y : matches Eol x y ↔ y = x ∧ at_eol x = true.
Proof. split; [intros Hm; by inversion Hm|]. intros [-> Hb]. by constructor. Qed.

Lemma up_to_cls n p x y :
  matches (up_to n (Cls p)) x y ↔
  ∃ t, x.2 = t ++ y.2 ∧ Forall (λ c, p c = true) t ∧ (length t ≤ n)%nat ∧ y.1 = from_option Some x.1 (last t).
Proof.
  revert x. induction n as [|n IH]; intros [b s]; cbn [up_to].
  - rewrite matches_eps. split; [intros ->; exists []; by repeat split|].
    intros (t & Hs & _ & Hl & Hb). destruct t; [|cbn in Hl; lia]. destruct y; cbn in *; by subst.
  - rewrite matches_alt, matches_eps, matches_cat. setoid_rewrite matches_cls. setoid_rewrite IH. split.
    + intros [->|(z & (c & s' & Hs' & Hc & ->) & t & Hs & Ht & Hn & Hb)].
      * exists []. repeat split; [constructor|cbn; lia].
      * cbn in Hs', Hs, Hb. subst. exists (c :: t). split_and!; [done|by constructor|cbn; lia|by rewrite Hb, last_step].
    + intros (t & Hs & Ht & Hn & Hb). destruct t as [|c t].
      * left. destruct y; cbn in *; by subst.
      * right. apply Forall_cons in Ht as [Hc Ht]. cbn in Hs, Hn. exists (Some c, t ++ y.2). split; [by exists c, (t ++ y.2)|].
        exists t. split_and!; [done|done|lia|]. cbn. by rewrite Hb, last_step.
Qed.

(** A head class, up to [n] characters of another, and the end, from the start. *)
Lemma match_name_pattern (h p : Z → bool) n s :
  match_at_start (cats [Bol; Cls h; up_to n (Cls p); Eol]) s = true ↔
  ∃ c l, (s = c :: l ∨ s = c :: l ++ [10]) ∧ h c = true ∧ Forall (λ c, p c = true) l ∧ (length l ≤ n)%nat.
Proof.
  rewrite match_at_start_spec. cbn [cats foldr]. setoid_rewrite matches_cat. setoid_rewrite matches_cat. setoid_rewrite matches_cat.
  setoid_rewrite matches_cat. setoid_rewrite matches_bol. setoid_rewrite matches_cls. setoid_rewrite up_to_cls.
  setoid_rewrite matches_eol. split.
  - intros (w & x & [-> _] & y & (c & s' & Hs & Hc & ->) & z & (t & Ht & Hp & Hn & _) & v & [-> He] & _). cbn in Hs, Ht. subst.
    exists c, t. split_and!; try done. destruct z as [b [|x [|]]]; cbn in *; [left; by rewrite app_nil_r| |done].
    apply Z.eqb_eq in He as ->. by right.
  - intros (c & l & Hs & Hc & Hl & Hn).
    assert (∃ tl, s = c :: l ++ tl ∧ at_eol (from_option Some (Some c) (last l), tl) = true) as (tl & -> & Ht).
    { destruct Hs as [->| ->]; [exists []|exists [10]]; by rewrite ?app_nil_r. }
    exists (from_option Some (Some c) (last l), tl). exists (None, c :: l ++ tl). split; [done|].
    exists (Some c, l ++ tl). split; [by exists c, (l ++ tl)|]. exists (from_option Some (Some c) (last l), tl).
    split; [by exists l|]. exists (from_option Some (Some c) (last l), tl). split; [done|constructor].
Qed.

(** * Substitution *)

(** The length of the longest non-empty match at a position. *)
Definition match_len (r : rx) (b : option Z) (s : str) : option nat :=
  last (filter (λ n, run r (λ y, (length y.2 =? length s - n)%nat) (b, s) = true) (seq 1 (length s))).

(** [pattern.sub(repl, s)] for a pattern with one way to match at each place but for its
    length, and no empty match. *)
Fixpoint sub_go (r : rx) (repl : str → str) (b : option Z) (s : str) (skip : nat) : str :=
  match s with
  | [] => []
  | c :: s' =>
      match skip with
      | S skip => sub_go r repl (Some c) s' skip
      | O => match match_len r b s with
             | Some n => repl (take n s) ++ sub_go r repl (Some c) s' (n - 1)
             | None => c :: sub_go r repl (Some c) s' 0
             end
      end
  end.
Definition sub (r : rx) (repl : str → str) (s : str) : str := sub_go r repl None s 0.
