(* ===== verification/Redaction.v ===== *)
(** Redaction of analytics payloads: [backend/analytics/redaction.py], with the patterns
    [RedactionPatterns.build] makes.  A payload is a [datum]; its dicts have text keys.

    Shown: what is sanitized does not depend on the texts under sensitive names nor on
    anything inside a container under one, nor on texts a value pattern classifies; a
    container under a sensitive name comes out as markers only; the texts that come out
    are bounded; sanitizing an endpoint a second time changes nothing.  And the limits of
    it: numbers and booleans under a sensitive name, texts that begin like a marker, and
    names that begin or end like a correlation id, pass. *)
From Stdlib Require Import ZArith Lia.
From stdpp Require Import base decidable strings numbers list.
From S2P Require Import Prelude PyStr Json PyVal Codec Sha256 MetadataErrors Logging Regex.

Open Scope Z_scope.

#[local] Arguments lit _ : simpl never.

Definition CRYPTO_DOMAIN_VERSION : str := lit "harpocrates-redaction-v1".
Definition DEFAULT_CAP_BYTES : Z := 256.
Definition DEFAULT_MAX_DEPTH : Z := 16.
Definition DEFAULT_MAX_TOTAL_NODES : Z := 16384.

Inductive category := Secret | Witness | Media | Proof | WalletSig | WalletId | Pii.

#[export] Instance category_eq_dec : EqDecision category.
Proof. solve_decision. Defined.

Definition category_text (c : category) : str :=
  lit match c with
      | Secret => "secret" | Witness => "witness" | Media => "media" | Proof => "proof"
      | WalletSig => "wallet_sig" | WalletId => "wallet_id" | Pii => "pii"
      end.

Definition SENSITIVE_FIELD_CATEGORIES : list (category * list string) :=
  [(Secret, ["secret"; "credential"; "password"; "passwd"; "pwd"; "token"; "apikey"; "apisecret"; "privatekey";
             "private_key"; "privkey"; "mnemonic"; "seedphrase"; "seed_phrase"; "recoveryphrase"; "recovery_phrase";
             "access_key"; "accesskey"]);
   (Witness, ["witness"; "witnessness"; "witnessdata"; "witness_data"; "witness_input"; "witnessinput"; "witnessvars";
              "witness_vars"; "assignment"; "assignments"; "witness_assignment"]);
   (Media, ["video"; "media"; "upload"; "uploaded_file"; "uploadedfile"; "file_content"; "filecontent"; "blob";
            "payload_content"; "base64_content"; "base64content"; "binary"; "raw_bytes"; "rawbytes"; "image"; "audio";
            "recording"; "screenshot"; "frame"; "frames"; "clip"; "avi"; "mp4"; "mov"; "mkv"; "webm"; "mp3"; "wav";
            "png"; "jpg"; "jpeg"; "gif"; "bmp"; "tiff"]);
   (Proof, ["proof"; "proofdata"; "proof_data"; "proofpayload"; "proof_payload"; "prooffile"; "proof_file"; "pi";
            "witnessed_proof"; "zkproof"; "zk_proof"; "circuitproof"; "circuit_proof"; "verificationkey";
            "verification_key"; "vk"; "provingkey"; "proving_key"; "pk"; "public_inputs"; "publicinputs";
            "private_inputs"; "privateinputs"; "commitments"; "commitment"; "nullifier"; "nullifiers"]);
   (WalletSig, ["signature"; "sig"; "wallet_signature"; "walletsig"; "stellaresignature"; "stellar_signature";
                "txsignature"; "tx_signature"; "xdr"; "signedtx"; "signed_tx"; "transactionenvelope";
                "transaction_envelope"; "authsignature"; "auth_signature"; "ed25519signature"; "ed25519_signature"]);
   (WalletId, ["wallet"; "address"; "stellaraddress"; "stellar_address"; "pkh"; "publickey"; "public_key"; "pubkey";
               "account"; "accountid"; "account_id"; "muxedaccount"; "muxed_account"; "assetissuer"; "asset_issuer";
               "sourceaccount"; "source_account"; "destinationaccount"; "destination_account"; "signer"; "signers";
               "keypair"]);
   (Pii, ["name"; "email"; "phone"; "dob"; "birth"; "passport"; "governmentid"; "government_id"; "ssn"; "idnumber";
          "id_number"; "address"; "postal"; "zip"; "biometric"; "biometrics"; "ip"; "user_ip"; "client_ip"])].

Definition SAFE_CORRELATION_ID_KEYS : list str :=
  map lit ["correlation_id"; "request_id"; "trace_id"; "span_id"; "event_id"; "log_id"; "session_id"; "message_hash";
           "stack_trace_hash"; "hash_"; "digest_"; "correlationid"; "requestid"; "traceid"; "spanid"; "eventid";
           "logid"; "sessionid"; "messagehash"; "stacktracehash"].

Definition SAFE_ENDPOINT_WORDS : list str :=
  map lit ["proof"; "video"; "embed"; "extract"; "upload"; "api"; "normal"; "endpoint"; "health"; "metrics"; "generate";
           "internal"; "public"; "private"; "auth"; "login"; "logout"; "session"; "status"; "info"; "version"; "ready";
           "readiness"; "stego"; "noir"; "circom"; "config"; "export"; "import"; "download"; "create"; "update";
           "delete"; "get"; "list"; "search"; "verify"; "validate"; "submit"; "callback"; "hook"; "webhook"; "run";
           "execute"; "cancel"; "retry"; "reset"; "restore"; "backup"].

(** * Texts *)

(** [s.encode("utf-8", "replace")]: a surrogate becomes a question mark. *)
Definition encode_replace (s : str) : bytes := s ≫= λ c, default [63] (utf8_char c).

(** [b.decode("utf-8", "ignore")] *)
Fixpoint decode_ignore_go (fuel : nat) (b : bytes) : str :=
  match b, fuel with
  | [], _ | _, O => []
  | _ :: r, S fuel =>
      match utf8_head b with
      | Some (c, n) => c :: decode_ignore_go fuel (drop n b)
      | None => decode_ignore_go fuel r
      end
  end.
Definition decode_ignore (b : bytes) : str := decode_ignore_go (length b) b.

Definition TRUNCATED : str := 8230 :: lit "[truncated]".

Definition cap_value_bytes (value : str) (cap : Z) : str * bool :=
  let encoded := encode_replace value in
  if zlen encoded <=? cap then (value, false)
  else (decode_ignore (take (Z.to_nat cap) encoded) ++ TRUNCATED, true).

(** The variant without a mark: [log_processor._cap_bytes]. *)
Definition cap_text (value : str) (cap : Z) : str :=
  let encoded := encode_replace value in
  if zlen encoded <=? cap then value else decode_ignore (take (Z.to_nat cap) encoded).

Definition versioned_domain_tag (value : str) : str :=
  lit "v1:" ++ take 16 (sha256_hex (encode_replace value)).

Lemma encode_replace_ascii s : Forall (λ c, c < 128) s → encode_replace s = s.
Proof.
  induction 1 as [|c s Hc Hs IH]; [done|]. cbn. unfold encode_replace in IH. rewrite IH. unfold utf8_char.
  by destruct (Z.ltb_spec c 128); [|lia].
Qed.

Lemma dec_str_ascii z : Forall (λ c, c < 128) (dec_str z).
Proof.
  unfold dec_str. destruct (Z.ltb_spec z 0); [constructor; [lia|]|];
    (apply Forall_fmap; eapply Forall_impl; [apply (digits_range 10); lia|]; cbn; lia).
Qed.

(** * Payloads *)

Inductive datum : Type :=
  | DNone
  | DBool (b : bool)
  | DInt (z : Z)
  | DFloat (f : pyfloat)
  | DStr (s : str)
  | DBytes (b : bytes)
  | DSeq (is_tuple : bool) (l : list datum)
  | DDict (kvs : list (str * datum))
  | DOther (text : option str).             (* str(value), or it raises *)

Definition is_container (d : datum) : bool := match d with DSeq _ _ | DDict _ => true | _ => false end.

Record RedactionConfig := MkRedaction {
  max_depth : Z;
  max_total_nodes : Z;
  cap_bytes : Z;
  allow_idempotent : bool;
  stable_key_encode : bool;
  redact_markers : list (str * str);
}.

Definition default_redaction : RedactionConfig := {|
  max_depth := DEFAULT_MAX_DEPTH; max_total_nodes := DEFAULT_MAX_TOTAL_NODES; cap_bytes := DEFAULT_CAP_BYTES;
  allow_idempotent := true; stable_key_encode := true;
  redact_markers := [(lit "secret", lit "[REDACTED:secret]"); (lit "witness", lit "[REDACTED:witness]");
                     (lit "media", lit "[REDACTED:media]"); (lit "proof", lit "[REDACTED:proof]");
                     (lit "wallet_sig", lit "[REDACTED:wallet_sig]"); (lit "wallet_id", lit "[REDACTED:wallet_id]");
                     (lit "pii", lit "[REDACTED:pii]"); (lit "unknown", lit "[REDACTED]")] |}.

Record tracker := Tracker {
  nodes_visited : Z;
  redactions_applied : Z;
  depth_reached : Z;
  categories_redacted : list category;
  truncations_applied : Z;
  stopped : bool;
}.

Definition make_tracker : tracker := Tracker 0 0 0 [] 0 false.

Definition increment_nodes (cfg : RedactionConfig) (t : tracker) (depth : Z) : bool * tracker :=
  let nodes := nodes_visited t + 1 in
  let reached := Z.max depth (depth_reached t) in
  let over := (max_total_nodes cfg <? nodes) || (max_depth cfg <? depth) in
  (negb over, Tracker nodes (redactions_applied t) reached (categories_redacted t) (truncations_applied t) (stopped t || over)).

Definition is_already_redacted (s : str) : bool := starts_with (lit "[REDACTED") s.

Definition marker_for (cfg : RedactionConfig) (c : category) : str :=
  default (default (lit "[REDACTED]") (dict_get (lit "unknown") (redact_markers cfg)))
    (dict_get (category_text c) (redact_markers cfg)).

Definition record_redaction (t : tracker) (c : category) : tracker :=
  Tracker (nodes_visited t) (redactions_applied t + 1) (depth_reached t) (categories_redacted t ++ [c]) (truncations_applied t)
    (stopped t).

Definition record_truncation (t : tracker) : tracker :=
  Tracker (nodes_visited t) (redactions_applied t) (depth_reached t) (categories_redacted t) (truncations_applied t + 1)
    (stopped t).

(** [cap_value_bytes] with the truncation recorded *)
Definition capped (cfg : RedactionConfig) (value : str) (t : tracker) : str * tracker :=
  let '(s, did_truncate) := cap_value_bytes value (cap_bytes cfg) in
  (s, if did_truncate : bool then record_truncation t else t).

(** * Classification *)

Section classification.
  Context `{Unicode} `{Alnum}.

Definition stable_encode_key (key : str) : str := filter (λ c, isalnum c = true) (py_lower key).

(** [\w] *)
Definition is_word (c : Z) : bool := isalnum c || (c =? 95).

(** [stable_hints_by_category] *)
Definition stable_hints : list (category * list str) :=
  map (λ p, (p.1, map (λ h, stable_encode_key (lit h)) p.2)) SENSITIVE_FIELD_CATEGORIES.

(** [sensitive_field_regexes] *)
Definition field_regex (hints : list str) : rx :=
  alts (map word_nocase (filter (λ h, h ≠ []) hints)).

Definition is_hex_nc : Z → bool := nocase (λ c, between 48 57 c || between 97 102 c).
Definition alnum_or (extra : string) : Z → bool := nocase (λ c, between 48 57 c || between 97 122 c || one_of (lit extra) c).
Definition is_b64 : Z → bool := alnum_or "+/".
Definition is_b32 (c : Z) : bool := between 65 90 c || between 50 55 c.
Definition is_jwt : Z → bool := alnum_or "_-".
Definition is_dec (c : Z) : bool := between 48 57 c.

(** [25[0-5]|2[0-4][0-9]|[01]?[0-9][0-9]?] *)
Definition octet : rx :=
  alts [cats [word (lit "25"); Cls (between 48 53)]; cats [word (lit "2"); Cls (between 48 52); Cls is_dec];
        cats [up_to 1 (Cls (one_of (lit "01"))); Cls is_dec; up_to 1 (Cls is_dec)]].

Definition dash : rx := word (lit "-").

Definition uuid_body : rx :=
  cats [Rep 8 (Cls is_hex_nc); dash; Rep 4 (Cls is_hex_nc); dash; word (lit "4"); Rep 3 (Cls is_hex_nc); dash;
        Cls (one_of (lit "89abAB")); Rep 3 (Cls is_hex_nc); dash; Rep 12 (Cls is_hex_nc)].

Definition pad2 : rx := up_to 2 (word (lit "=")).

(** [value_patterns], each with its category *)
Definition value_patterns : list (rx * category) :=
  [(cats [WordB is_word; uuid_body; WordB is_word], Pii);
   (at_least 32 is_hex_nc, Secret);
   (cats [at_least 64 is_b64; pad2], Media);
   (cats [word (lit "G"); Rep 55 (Cls is_b32)], WalletId);
   (cats [word (lit "M"); Rep 68 (Cls is_b32)], WalletId);
   (Rep 64 (Cls is_hex_nc), WalletSig);
   (cats [at_least 86 is_b64; pad2], WalletSig);
   (cats [word_nocase (lit "-----BEGIN ");
          alts (map (λ s, word_nocase (lit s)) ["RSA"; "EC"; "OPENSSH"; "DSA"; "PGP"; "PRIVATE KEY"]); word (lit "-----")],
    Secret);
   (cats [word_nocase (lit "eyJ"); at_least 10 is_jwt; word (lit "."); at_least 10 is_jwt; word (lit "."); at_least 10 is_jwt],
    Secret);
   (cats [word_nocase (lit "AAAA"); at_least 200 is_b64; pad2], WalletSig);
   (cats [WordB is_word; Rep 3 (Cat octet (word (lit "."))); octet; WordB is_word], Pii);
   (cats [WordB is_word; at_least 1 (alnum_or "._%+-");
          word (lit "@"); at_least 1 (alnum_or ".-");
          word (lit "."); at_least 2 (nocase (between 97 122)); WordB is_word], Pii)].

Definition archive_exts : list string := ["zip"; "tar.gz"; "tgz"; "rar"; "7z"].

Definition ends_extension (exts : list string) : rx :=
  cats [word (lit "."); alts (map (λ s, word_nocase (lit s)) exts); Alt Eol (Cls (one_of (lit "?#")))].

Definition file_path_patterns : list rx :=
  [ends_extension (["avi"; "mp4"; "mov"; "mkv"; "webm"; "mp3"; "wav"; "png"; "jpg"; "jpeg"; "gif"; "bmp"; "tiff"; "pdf"]
                   ++ archive_exts);
   cats [Cls (one_of (lit "\/"));
         alts (map (λ s, word_nocase (lit s)) ["proof"; "witness"; "secret"; "video"; "credential"; "wallet"]);
         Cls (one_of (lit "\/."))];
   ends_extension archive_exts].

Definition is_sensitive_field (cfg : RedactionConfig) (key : str) : option category :=
  let encoded := if stable_key_encode cfg then stable_encode_key key else py_lower key in
  match encoded with
  | [] => None
  | _ =>
      match list_find (λ p, encoded ∈ p.2) stable_hints with
      | Some (_, (cat, _)) => Some cat
      | None => (λ p, p.2.1) <$> list_find (λ p, search (field_regex p.2) encoded = true) stable_hints
      end
  end.

Definition is_sensitive_value (value : str) : option category :=
  match value with
  | [] => None
  | _ =>
      if is_already_redacted value then None
      else match list_find (λ p, search p.1 value = true) value_patterns with
           | Some (_, (_, cat)) => Some cat
           | None =>
               if (3 <=? zlen value) && (bool_decide (47 ∈ value) || bool_decide (92 ∈ value))
                  && existsb (λ r, search r value) file_path_patterns
               then Some Media else None
           end
  end.

(** [s.endswith(p)] *)
Definition ends_with (p s : str) : bool := starts_with (reverse p) (reverse s).

(** A name that begins or ends like a correlation id. *)
Definition safe_field (field_name : str) : bool :=
  let encoded := stable_encode_key field_name in
  existsb (λ sk, bool_decide (sk = encoded) || ends_with sk encoded || starts_with sk encoded) SAFE_CORRELATION_ID_KEYS.

(** * Sanitizing *)

Definition sanitize_string (cfg : RedactionConfig) (value : str) (field_name : option str) (t : tracker)
    (force_sensitive_cat : option category) : str * tracker :=
  if allow_idempotent cfg && is_already_redacted value then (value, t)
  else if from_option safe_field false field_name then capped cfg value t
  else match (match force_sensitive_cat with Some c => Some c | None => is_sensitive_value value end) with
       | Some c => (marker_for cfg c, record_redaction t c)
       | None => capped cfg value t
       end.

Definition sanitize_bytes (cfg : RedactionConfig) (value : bytes) (field_name : option str) (t : tracker) : str * tracker :=
  let summary := lit "<bytes len=" ++ dec_str (zlen value) ++ lit " sha256=" ++ take 16 (sha256_hex value) ++ lit ">" in
  let '(short, t) := capped cfg summary t in
  let marker_cat := match field_name ≫= is_sensitive_field cfg with
                    | Some c => Some c
                    | None => if 64 <=? zlen value then is_sensitive_value (b2a (b64_char 43 47) value) else None
                    end in
  match marker_cat with
  | Some c => (marker_for cfg c, record_redaction t c)
  | None => (short, t)
  end.

Definition is_number (d : datum) : bool := match d with DInt _ | DFloat _ => true | _ => false end.

(** [str(value)] of a number *)
Definition number_text (d : datum) : result exn str :=
  match d with
  | DInt z => if small_int z then Ok (dec_str z) else Err (ValueError "Exceeds the limit for integer string conversion")
  | DFloat f => Ok (fl_repr f)
  | _ => Ok []
  end.

(** The loops over a container: below a sensitive name each item is counted first and the
    loop ends when that fails; elsewhere it ends when the walk has stopped. *)
Section loops.
  Context {A : Type} (visit : A → tracker → result exn (datum * tracker)).

Fixpoint sensitive_loop (cfg : RedactionConfig) (depth : Z) (l : list A) (t : tracker) : result exn (list datum * tracker) :=
  match l with
  | [] => Ok ([], t)
  | x :: l =>
      let '(ok, t) := increment_nodes cfg t depth in
      if ok : bool then
        '(d, t) ← visit x t;
        '(ds, t) ← sensitive_loop cfg depth l t;
        Ok (d :: ds, t)
      else Ok ([], t)
  end.

Fixpoint plain_loop (l : list A) (t : tracker) : result exn (list datum * tracker) :=
  match l with
  | [] => Ok ([], t)
  | x :: l =>
      if stopped t then Ok ([], t)
      else
        '(d, t) ← visit x t;
        '(ds, t) ← plain_loop l t;
        Ok (d :: ds, t)
  end.
End loops.

(** The result of a loop over a dict, which may have ended early. *)
Definition dict_of (kvs : list (str * datum)) (ds : list datum) : datum := DDict (zip kvs.*1 ds).

Fixpoint sanitize_any (cfg : RedactionConfig) (value : datum) (field_name : option str) (depth : Z) (t : tracker)
    (parent_sensitive_cat : option category) {struct value} : result exn (datum * tracker) :=
  let '(ok, t) := increment_nodes cfg t depth in
  if negb ok then
    Ok (DStr (if max_depth cfg <? depth then lit "[REDACTED:max_depth_exceeded]" else lit "[REDACTED:max_nodes_exceeded]"), t)
  else
    let local_cat := match parent_sensitive_cat with
                     | Some c => Some c
                     | None => field_name ≫= is_sensitive_field cfg
                     end in
    match value with
    | DStr s => let '(s, t) := sanitize_string cfg s field_name t local_cat in Ok (DStr s, t)
    | DBytes b => let '(s, t) := sanitize_bytes cfg b field_name t in Ok (DStr s, t)
    | DNone | DBool _ => Ok (value, t)
    | DInt _ | DFloat _ =>
        text ← number_text value;
        let '(s, did_truncate) := cap_value_bytes text (cap_bytes cfg) in
        Ok (if did_truncate : bool then (DStr s, record_truncation t) else (value, t))
    | DDict kvs =>
        match local_cat with
        | Some c =>
            '(ds, t) ← sensitive_loop
              (λ p t, if is_container p.2 then sanitize_any cfg p.2 (Some p.1) (depth + 1) t (Some c)
                      else Ok (DStr (marker_for cfg c), record_redaction t c))
              cfg (depth + 1) kvs (record_redaction t c);
            Ok (dict_of kvs ds, t)
        | None =>
            '(ds, t) ← plain_loop (λ p t, sanitize_any cfg p.2 (Some p.1) (depth + 1) t None) kvs t;
            Ok (dict_of kvs ds, t)
        end
    | DSeq is_tuple l =>
        match local_cat with
        | Some c =>
            '(ds, t) ← sensitive_loop
              (λ d t, if is_container d then sanitize_any cfg d None (depth + 1) t (Some c)
                      else Ok (DStr (marker_for cfg c), record_redaction t c))
              cfg (depth + 1) l (record_redaction t c);
            Ok (DSeq is_tuple ds, t)
        | None =>
            '(ds, t) ← plain_loop (λ d t, sanitize_any cfg d None (depth + 1) t None) l t;
            Ok (DSeq is_tuple ds, t)
        end
    | DOther text =>
        match text with
        | Some text => let '(s, t) := capped cfg text t in Ok (DStr s, t)
        | None => Ok (DStr (lit "[REDACTED:unserializable]"), t)
        end
    end.

(** [sanitize]: the data, the walk's counters and the categories, sorted and distinct. *)
Record RedactionOutcome := MkOutcome {
  out_data : datum;
  out_nodes : Z;
  out_redactions : Z;
  out_depth : Z;
  out_categories : list str;
  out_truncations : Z;
  out_signature : str;
}.

(** [sorted(set(l))] *)
Definition sorted_set (l : list str) : list str := (sort_items (map (λ s, (s, tt)) (remove_dups l))).*1.

(** [json.dumps({"categories": ..., "nodes_visited": ...}, sort_keys=True)] *)
Definition signature_input (cats : list str) (nodes : Z) : str :=
  lit "{" ++ print_string true (lit "categories") ++ lit ": [" ++ join_comma (map (print_string true) cats) ++ lit "], "
  ++ print_string true (lit "nodes_visited") ++ lit ": " ++ dec_str nodes ++ lit "}".

Definition sanitize (cfg : RedactionConfig) (value : datum) (context : option str) : result exn RedactionOutcome :=
  '(data, t) ← sanitize_any cfg value context 0 make_tracker None;
  let cats := sorted_set (map category_text (categories_redacted t)) in
  Ok (MkOutcome data (nodes_visited t) (redactions_applied t) (depth_reached t) cats (truncations_applied t)
        (versioned_domain_tag (signature_input cats (nodes_visited t)))).

(** * Induction on payloads *)

Lemma datum_nested_ind (P : datum → Prop) :
  P DNone → (∀ b, P (DBool b)) → (∀ z, P (DInt z)) → (∀ f, P (DFloat f)) → (∀ s, P (DStr s)) → (∀ b, P (DBytes b)) →
  (∀ b l, Forall P l → P (DSeq b l)) → (∀ kvs, Forall (λ p, P p.2) kvs → P (DDict kvs)) → (∀ o, P (DOther o)) →
  ∀ d, P d.
Proof.
  intros HN HB HI HF HS HY HL HD HO. fix IH 1. intros [| | | | | |b l|kvs|];
    [exact HN|apply HB|apply HI|apply HF|apply HS|apply HY|apply HL|apply HD|apply HO].
  - induction l as [|d l IHl]; constructor; [apply IH|exact IHl].
  - induction kvs as [|[k d] kvs IHl]; constructor; [apply IH|exact IHl].
Qed.

(** * What is hidden *)

Section claims.
  Context (cfg : RedactionConfig).

(** The category of the name a value stands under. *)
Definition field_cat (field_name : option str) : option category := field_name ≫= is_sensitive_field cfg.

(** Two containers with the same names and nesting, whatever their leaves are. *)
Inductive same_shape : datum → datum → Prop :=
  | SLeaf d d' : is_container d = false → is_container d' = false → same_shape d d'
  | SSeq b l l' : Forall2 same_shape l l' → same_shape (DSeq b l) (DSeq b l')
  | SDict kvs kvs' : Forall2 (λ p q, p.1 = q.1 ∧ same_shape p.2 q.2) kvs kvs' → same_shape (DDict kvs) (DDict kvs').

(** The text is replaced by the marker of [c]. *)
Definition hidden_text (field_name : option str) (s : str) (c : category) : Prop :=
  from_option safe_field false field_name = false ∧ is_already_redacted s = false ∧
  (field_cat field_name = Some c ∨ field_cat field_name = None ∧ is_sensitive_value s = Some c).

(** Two payloads under the same name that differ only in what has to be hidden. *)
Inductive low : option str → datum → datum → Prop :=
  | LSame f d : low f d d
  | LText f s s' c : hidden_text f s c → hidden_text f s' c → low f (DStr s) (DStr s')
  | LShape f d d' c : field_cat f = Some c → is_container d = true → same_shape d d' → low f d d'
  | LSeq f b l l' : field_cat f = None → Forall2 (low None) l l' → low f (DSeq b l) (DSeq b l')
  | LDict f kvs kvs' : field_cat f = None → Forall2 (λ p q, p.1 = q.1 ∧ low (Some p.1) p.2 q.2) kvs kvs' →
      low f (DDict kvs) (DDict kvs').

Lemma sensitive_loop_cong {A} (f g : A → tracker → result exn (datum * tracker)) depth l l' :
  Forall2 (λ x y, ∀ t, f x t = g y t) l l' → ∀ t, sensitive_loop f cfg depth l t = sensitive_loop g cfg depth l' t.
Proof.
  induction 1 as [|x y l l' Hxy Hl IH]; intros t; cbn [sensitive_loop]; [done|].
  destruct (increment_nodes cfg t depth) as [[] t1]; [|done]. rewrite Hxy.
  destruct (g y t1) as [[d t2]|]; [|done]. rewrite !bind_Ok. by rewrite IH.
Qed.

Lemma plain_loop_cong {A} (f g : A → tracker → result exn (datum * tracker)) l l' :
  Forall2 (λ x y, ∀ t, f x t = g y t) l l' → ∀ t, plain_loop f l t = plain_loop g l' t.
Proof.
  induction 1 as [|x y l l' Hxy Hl IH]; intros t; cbn [plain_loop]; [done|].
  destruct (stopped t); [done|]. rewrite Hxy. destruct (g y t) as [[d t2]|]; [|done]. rewrite !bind_Ok. by rewrite IH.
Qed.

Lemma shape_container d d' : same_shape d d' → is_container d = is_container d'.
Proof. by destruct 1 as [?? -> ->| |]. Qed.

Lemma same_keys (R : str → datum → datum → Prop) (kvs kvs' : list (str * datum)) :
  Forall2 (λ p q, p.1 = q.1 ∧ R p.1 p.2 q.2) kvs kvs' → kvs.*1 = kvs'.*1.
Proof. induction 1 as [|p q kvs kvs' [Hk _] _ IH]; [done|]. cbn. by f_equal. Qed.

Lemma Forall2_with {A B} (P : A → Prop) (R Q : A → B → Prop) l l' :
  Forall2 R l l' → Forall P l → (∀ x y, R x y → P x → Q x y) → Forall2 Q l l'.
Proof.
  intros Hl HP HQ. revert HP. induction Hl as [|x y l l' Hxy Hl IH]; intros HP; [constructor|].
  apply Forall_cons in HP as [Hx HP]. constructor; auto.
Qed.

Lemma sanitize_shape d : ∀ d' fn depth t c, is_container d = true → same_shape d d' →
  sanitize_any cfg d fn depth t (Some c) = sanitize_any cfg d' fn depth t (Some c).
Proof.
  induction d as [|b|z|f|s|b|b l IH|kvs IH|o] using datum_nested_ind; intros d' fn depth t c Hc Hs; try done;
    (inversion Hs as [? ? Hno| ? ? l' Hl | ? l' Hl]; subst; [by rewrite Hc in Hno|]); cbn [sanitize_any];
    destruct (increment_nodes cfg t depth) as [[] t1]; try done; cbn [negb].
  - erewrite sensitive_loop_cong; [done|]. apply (Forall2_with _ _ _ _ _ Hl IH).
    intros x y Hxy Hx t2. rewrite <- (shape_container _ _ Hxy). destruct (is_container x) eqn:E; [by apply Hx|done].
  - unfold dict_of. rewrite (same_keys (λ _, same_shape) _ _ Hl). erewrite sensitive_loop_cong; [done|].
    apply (Forall2_with _ _ _ _ _ Hl IH). intros x y [Hk Hxy] Hx t2. rewrite <- (shape_container _ _ Hxy), <- Hk.
    destruct (is_container x.2) eqn:E; [by apply Hx|done].
Qed.

Lemma hidden_string fn s c t : hidden_text fn s c →
  sanitize_string cfg s fn t (field_cat fn) = (marker_for cfg c, record_redaction t c).
Proof.
  intros (Hf & Hr & Hc). unfold sanitize_string. rewrite Hr, andb_false_r, Hf.
  destruct Hc as [->|[-> ->]]; done.
Qed.

(** A container under a sensitive name is treated as one inside such a container. *)
Lemma sanitize_field d fn depth t c :
  field_cat fn = Some c → is_container d = true →
  sanitize_any cfg d fn depth t None = sanitize_any cfg d fn depth t (Some c).
Proof. intros Hc Hd. unfold field_cat in Hc. destruct d; try done; cbn [sanitize_any]; by rewrite Hc. Qed.

Lemma sanitize_low d : ∀ d' fn depth t, low fn d d' →
  sanitize_any cfg d fn depth t None = sanitize_any cfg d' fn depth t None.
Proof.
  assert (∀ d d' fn depth t c, field_cat fn = Some c → is_container d = true → same_shape d d' →
          sanitize_any cfg d fn depth t None = sanitize_any cfg d' fn depth t None) as Hshape.
  { intros d1 d' fn depth t c Hc Hcon Hs. rewrite !(sanitize_field _ _ _ _ c) by (rewrite <- ?(shape_container _ _ Hs); done).
    by apply sanitize_shape. }
  induction d as [|b|z|f|s|b|b l IH|kvs IH|o] using datum_nested_ind; intros d' fn depth t Hlow;
    inversion Hlow as [|? ? s' c Hh Hh'|? ? ? c Hc Hcon Hs|? ? ? l' Hn Hl|? ? l' Hn Hl]; subst; try done; try by eapply Hshape.
  - cbn [sanitize_any]. destruct (increment_nodes cfg t depth) as [[] t1]; [|done]. cbn [negb]. fold (field_cat fn).
    by rewrite !(hidden_string fn _ c).
  - cbn [sanitize_any]. destruct (increment_nodes cfg t depth) as [[] t1]; [|done]. cbn [negb]. fold (field_cat fn).
    rewrite Hn. erewrite plain_loop_cong; [done|]. apply (Forall2_with _ _ _ _ _ Hl IH).
    intros x y Hxy Hx t2. by apply Hx.
  - cbn [sanitize_any]. destruct (increment_nodes cfg t depth) as [[] t1]; [|done]. cbn [negb]. fold (field_cat fn).
    rewrite Hn. unfold dict_of. rewrite (same_keys (λ k, low (Some k)) _ _ Hl). erewrite plain_loop_cong; [done|].
    apply (Forall2_with _ _ _ _ _ Hl IH). intros x y [Hk Hxy] Hx t2. rewrite <- Hk. by apply Hx.
Qed.

Lemma sanitize_hides d d' context : low context d d' → sanitize cfg d context = sanitize cfg d' context.
Proof. intros Hl. unfold sanitize. by rewrite (sanitize_low d d'). Qed.

(** C21. Redaction: what is reported and recorded about a payload (the data, the counts,
    the categories, the signature) is the same for any two payloads that differ only in
    maskable texts under sensitive names, in maskable texts under other names that a value
    pattern puts in the same category, and in the leaves of containers under sensitive names.
    A text is maskable when it does not begin like a marker and its name does not begin or
    end like a correlation id: other texts, and numbers and booleans directly under a sensitive
    name, are not hidden and can be told apart ([some_sensitive_values_pass]). *)
Theorem redaction_hides d d' context : low context d d' → sanitize cfg d context = sanitize cfg d' context.
Proof. apply sanitize_hides. Qed.

(** * Containers under sensitive names *)

Definition LIMIT_MARKERS : list str := [lit "[REDACTED:max_depth_exceeded]"; lit "[REDACTED:max_nodes_exceeded]"].

(** Nothing but names and markers. *)
Inductive only_markers (c : category) : datum → Prop :=
  | OText s : s ∈ marker_for cfg c :: LIMIT_MARKERS → only_markers c (DStr s)
  | OSeq b l : Forall (only_markers c) l → only_markers c (DSeq b l)
  | ODict kvs : Forall (only_markers c) kvs.*2 → only_markers c (DDict kvs).

Lemma sensitive_loop_all {A} (P : datum → Prop) (f : A → tracker → result exn (datum * tracker)) depth l :
  Forall (λ x, ∀ t d t', f x t = Ok (d, t') → P d) l →
  ∀ t ds t', sensitive_loop f cfg depth l t = Ok (ds, t') → Forall P ds.
Proof.
  induction 1 as [|x l Hx Hl IH]; intros t ds t'; cbn [sensitive_loop]; [intros Heq; injection Heq as <- _; constructor|].
  destruct (increment_nodes cfg t depth) as [[] t1]; [|intros Heq; injection Heq as <- _; constructor].
  intros ([d t2] & Hd & ([ds' t3] & Hds & Heq)%bind_ok)%bind_ok. injection Heq as <- _. constructor; eauto.
Qed.

Lemma plain_loop_all {A} (P : datum → Prop) (f : A → tracker → result exn (datum * tracker)) l :
  Forall (λ x, ∀ t d t', f x t = Ok (d, t') → P d) l →
  ∀ t ds t', plain_loop f l t = Ok (ds, t') → Forall P ds.
Proof.
  induction 1 as [|x l Hx Hl IH]; intros t ds t'; cbn [plain_loop]; [intros Heq; injection Heq as <- _; constructor|].
  destruct (stopped t); [intros Heq; injection Heq as <- _; constructor|].
  intros ([d t2] & Hd & ([ds' t3] & Hds & Heq)%bind_ok)%bind_ok. injection Heq as <- _. constructor; eauto.
Qed.

Lemma Forall_zip_snd {A B} (P : B → Prop) (ks : list A) (ds : list B) : Forall P ds → Forall P (zip ks ds).*2.
Proof.
  intros Hd. revert ks. induction Hd as [|d ds Hd Hds IH]; intros [|k ks]; cbn; constructor; auto.
Qed.

Lemma limit_marker_text c depth :
  only_markers c (DStr (if max_depth cfg <? depth then lit "[REDACTED:max_depth_exceeded]" else lit "[REDACTED:max_nodes_exceeded]")).
Proof. constructor. right. destruct (max_depth cfg <? depth); [left|right; left]. Qed.

Lemma sensitive_leaf c (fn : option str) depth (d : datum) :
  (∀ t d' t', is_container d = true → sanitize_any cfg d fn depth t (Some c) = Ok (d', t') → only_markers c d') →
  ∀ t d' t', (if is_container d then sanitize_any cfg d fn depth t (Some c) else Ok (DStr (marker_for cfg c), record_redaction t c))
             = Ok (d', t') → only_markers c d'.
Proof.
  intros Hd t d' t'. destruct (is_container d) eqn:E; [by apply Hd|]. intros Heq. injection Heq as <- _. constructor. left.
Qed.

Lemma inside_only_markers d : ∀ fn depth t d' t' c, is_container d = true →
  sanitize_any cfg d fn depth t (Some c) = Ok (d', t') → only_markers c d'.
Proof.
  induction d as [|b|z|f|s|b|b l IH|kvs IH|o] using datum_nested_ind; intros fn depth t d' t' c Hc; try done;
    cbn [sanitize_any]; (destruct (increment_nodes cfg t depth) as [[] t1]; cbn [negb];
      [|intros Heq; injection Heq as <- _; apply limit_marker_text]);
    intros ([ds t2] & Hds & Heq)%bind_ok; injection Heq as <- _; constructor.
  - eapply sensitive_loop_all; [|exact Hds]. eapply Forall_impl; [exact IH|]. cbn. intros x Hx. apply sensitive_leaf.
    intros t3 d' t3' Hx1 Hx2. by eapply Hx.
  - apply Forall_zip_snd. eapply sensitive_loop_all; [|exact Hds]. eapply Forall_impl; [exact IH|]. cbn. intros x Hx. apply sensitive_leaf.
    intros t3 d' t3' Hx1 Hx2. by eapply Hx.
Qed.

(** Redaction: a list, tuple or dict under a sensitive name comes out with nothing
    but names and markers in it, at every depth. *)
Theorem sensitive_containers_only_markers d fn depth t d' t' c :
  field_cat (Some fn) = Some c → is_container d = true →
  sanitize_any cfg d (Some fn) depth t None = Ok (d', t') → only_markers c d'.
Proof. intros Hc Hd. rewrite (sanitize_field _ _ _ _ c) by done. by apply inside_only_markers. Qed.

(** * Values that pass *)

(** Redaction: a number or a boolean, a text that begins like a marker, and a short
    text under a name that begins or ends like a correlation id, pass as they are, even
    under a sensitive name. *)
Theorem some_sensitive_values_pass fn v depth t :
  max_depth cfg >= depth → nodes_visited t < max_total_nodes cfg →
  allow_idempotent cfg = true →
  match v with
  | DBool _ => True
  | DInt z => small_int z = true ∧ zlen (dec_str z) ≤ cap_bytes cfg
  | DStr s => is_already_redacted s = true ∨ safe_field fn = true ∧ zlen (encode_replace s) ≤ cap_bytes cfg
  | _ => False
  end →
  ∃ t', sanitize_any cfg v (Some fn) depth t None = Ok (v, t').
Proof.
  intros Hd Hn Hi Hv.
  assert (∃ t1, increment_nodes cfg t depth = (true, t1)) as [t1 Ht1].
  { unfold increment_nodes. destruct (Z.ltb_spec (max_total_nodes cfg) (nodes_visited t + 1)), (Z.ltb_spec (max_depth cfg) depth); try lia.
    by eexists. }
  destruct v as [|b|z|f|s|b|b l|kvs|o]; try done; cbn [sanitize_any]; rewrite Ht1; cbn [negb].
  - by eexists.
  - destruct Hv as [Hz Hc]. cbn [number_text]. rewrite Hz, bind_Ok. unfold cap_value_bytes.
    rewrite encode_replace_ascii by apply dec_str_ascii.
    rewrite (proj2 (Z.leb_le _ _) Hc). by eexists.
  - unfold sanitize_string. rewrite Hi. destruct (is_already_redacted s) eqn:E; cbn [andb]; [by eexists|].
    destruct Hv as [?|[Hs Hc]]; [done|]. cbn [from_option]. rewrite Hs. unfold capped, cap_value_bytes.
    rewrite (proj2 (Z.leb_le _ _) Hc). by eexists.
Qed.
(** * Bounds *)

Lemma utf8_head_length b c n :
  utf8_head b = Some (c, n) → (length (default [63%Z] (utf8_char c)) ≤ n ≤ length b)%nat ∧ (1 ≤ n)%nat.
Proof.
  unfold utf8_head, utf8_char, cont_byte. intros Hh. repeat case_match; simplify_eq; bool_inv; cbn [length default from_option id]; lia.
Qed.

Lemma decode_ignore_go_length fuel b :
  (length (encode_replace (decode_ignore_go fuel b)) ≤ length b)%nat.
Proof.
  revert b. induction fuel as [|fuel IH]; intros [|x b]; try (cbn; lia). cbn [decode_ignore_go].
  destruct (utf8_head (x :: b)) as [[c n]|] eqn:E.
  - apply utf8_head_length in E as [Hn H1]. specialize (IH (drop n (x :: b))). rewrite length_drop in IH.
    change (encode_replace (c :: decode_ignore_go fuel (drop n (x :: b)))) with
      (default [63] (utf8_char c) ++ encode_replace (decode_ignore_go fuel (drop n (x :: b)))).
    rewrite length_app. lia.
  - specialize (IH b). cbn [length]. lia.
Qed.

Lemma cap_value_bound s cap : 0 ≤ cap → zlen (encode_replace (cap_value_bytes s cap).1) ≤ cap + 14.
Proof.
  intros Hc. unfold cap_value_bytes. destruct (Z.leb_spec (zlen (encode_replace s)) cap) as [Hle|Hgt]; cbn [fst]; [lia|].
  unfold encode_replace at 1. rewrite bind_app, zlen_app. fold (encode_replace (decode_ignore (take (Z.to_nat cap) (encode_replace s)))).
  pose proof (decode_ignore_go_length (length (take (Z.to_nat cap) (encode_replace s))) (take (Z.to_nat cap) (encode_replace s))) as Hd.
  fold (decode_ignore (take (Z.to_nat cap) (encode_replace s))) in Hd. rewrite length_take in Hd.
  change (zlen (TRUNCATED ≫= λ c, default [63] (utf8_char c))) with 14. unfold zlen. lia.
Qed.

Lemma cap_text_bound s cap : 0 ≤ cap → zlen (encode_replace (cap_text s cap)) ≤ cap.
Proof.
  intros Hc. unfold cap_text. destruct (Z.leb_spec (zlen (encode_replace s)) cap) as [Hle|Hgt]; [lia|].
  pose proof (decode_ignore_go_length (length (take (Z.to_nat cap) (encode_replace s))) (take (Z.to_nat cap) (encode_replace s))) as Hd.
  fold (decode_ignore (take (Z.to_nat cap) (encode_replace s))) in Hd. rewrite length_take in Hd. unfold zlen. lia.
Qed.

(** A text is a marker, or begins like one, or is short. *)
Definition short_text (s : str) : Prop :=
  is_already_redacted s = true ∨ zlen (encode_replace s) ≤ cap_bytes cfg + 14.

(** At most [n] levels, with short texts and numbers. *)
Inductive bounded : Z → datum → Prop :=
  | BText n s : short_text s → bounded n (DStr s)
  | BNone n : bounded n DNone
  | BBool n b : bounded n (DBool b)
  | BNum n d text : is_number d = true → number_text d = Ok text → zlen (encode_replace text) ≤ cap_bytes cfg → bounded n d
  | BSeq n b l : 0 < n → Forall (bounded (n - 1)) l → bounded n (DSeq b l)
  | BDict n kvs : 0 < n → Forall (bounded (n - 1)) kvs.*2 → bounded n (DDict kvs).

Context (cap_ok : 0 ≤ cap_bytes cfg) (markers_ok : ∀ c, is_already_redacted (marker_for cfg c) = true).

Lemma capped_short s t : short_text (capped cfg s t).1.
Proof.
  right. unfold capped. pose proof (cap_value_bound s (cap_bytes cfg) cap_ok) as Hb.
  by destruct (cap_value_bytes s (cap_bytes cfg)) as [s' []].
Qed.

Lemma sanitize_string_short s fn t fc : short_text (sanitize_string cfg s fn t fc).1.
Proof.
  unfold sanitize_string. destruct (allow_idempotent cfg && is_already_redacted s) eqn:E.
  { apply andb_true_iff in E as [_ E]. by left. }
  destruct (from_option safe_field false fn); [apply capped_short|].
  destruct (match fc with Some c => Some c | None => is_sensitive_value s end); [left; apply markers_ok|apply capped_short].
Qed.

Lemma sanitize_bytes_short b fn t : short_text (sanitize_bytes cfg b fn t).1.
Proof.
  unfold sanitize_bytes.
  match goal with |- context [capped cfg ?x ?y] => pose proof (capped_short x y) as Hc; destruct (capped cfg x y) as [s' t'] end.
  match goal with |- context [match ?m with Some c => (_, _) | None => _ end] => destruct m end; [left; apply markers_ok|exact Hc].
Qed.

Lemma limit_bounded n depth :
  bounded n (DStr (if max_depth cfg <? depth then lit "[REDACTED:max_depth_exceeded]" else lit "[REDACTED:max_nodes_exceeded]")).
Proof. constructor. left. by destruct (max_depth cfg <? depth). Qed.

Lemma number_bounded n d t d' t' :
  is_number d = true →
  (text ← number_text d;
   let '(s, did_truncate) := cap_value_bytes text (cap_bytes cfg) in
   Ok (if did_truncate : bool then (DStr s, record_truncation t) else (d, t))) = Ok (d', t') → bounded n d'.
Proof.
  intros Hd (text & Ht & Heq)%bind_ok. pose proof (cap_value_bound text (cap_bytes cfg) cap_ok) as Hb. revert Heq Hb.
  unfold cap_value_bytes. destruct (Z.leb_spec (zlen (encode_replace text)) (cap_bytes cfg)); intros Heq Hb; injection Heq as <- _.
  - by eapply BNum.
  - constructor. by right.
Qed.

Lemma leaf_bounded n c (d : datum) (r : tracker → result exn (datum * tracker)) :
  (∀ t d' t', r t = Ok (d', t') → bounded n d') →
  ∀ t d' t', (if is_container d then r t else Ok (DStr (marker_for cfg c), record_redaction t c)) = Ok (d', t') → bounded n d'.
Proof.
  intros Hr t d' t'. destruct (is_container d); [apply Hr|]. intros Heq. injection Heq as <- _. constructor. left. apply markers_ok.
Qed.

Lemma increment_within t depth t1 : increment_nodes cfg t depth = (true, t1) → depth ≤ max_depth cfg.
Proof. unfold increment_nodes. intros [= Hb _]. bool_inv. lia. Qed.

(** Redaction: what comes out has at most one level more than the depth limit, and
    each text in it is a marker, begins like one, or takes at most 14 bytes more than
    the cap in UTF-8. *)
Theorem sanitized_payload_bounded d : ∀ fn depth t p d' t',
  sanitize_any cfg d fn depth t p = Ok (d', t') → bounded (max_depth cfg + 1 - depth) d'.
Proof.
  induction d as [|b|z|f|s|b|b l IH|kvs IH|o] using datum_nested_ind; intros fn depth t p d' t'; cbn [sanitize_any];
    (destruct (increment_nodes cfg t depth) as [[] t1] eqn:Hi; cbn [negb];
      [apply increment_within in Hi|intros Heq; injection Heq as <- _; apply limit_bounded]).
  - intros Heq; injection Heq as <- _; constructor.
  - intros Heq; injection Heq as <- _; constructor.
  - by apply number_bounded.
  - by apply number_bounded.
  - pose proof (sanitize_string_short s fn t1 (match p with Some c => Some c | None => fn ≫= is_sensitive_field cfg end)) as Hs.
    destruct (sanitize_string _ _ _ _ _) as [s' t2]. intros Heq; injection Heq as <- _. by constructor.
  - pose proof (sanitize_bytes_short b fn t1) as Hs. destruct (sanitize_bytes _ _ _ _) as [s' t2].
    intros Heq; injection Heq as <- _. by constructor.
  - destruct (match p with Some c => Some c | None => fn ≫= is_sensitive_field cfg end) as [c|];
      intros ([ds t2] & Hds & Heq)%bind_ok; injection Heq as <- _; (constructor; [lia|]);
      replace (max_depth cfg + 1 - depth - 1) with (max_depth cfg + 1 - (depth + 1)) by lia.
    + eapply sensitive_loop_all; [|exact Hds]. eapply Forall_impl; [exact IH|]. cbn. intros x Hx. apply leaf_bounded. intros t3. apply Hx.
    + eapply plain_loop_all; [|exact Hds]. eapply Forall_impl; [exact IH|]. cbn. intros x Hx t3. apply Hx.
  - destruct (match p with Some c => Some c | None => fn ≫= is_sensitive_field cfg end) as [c|];
      intros ([ds t2] & Hds & Heq)%bind_ok; injection Heq as <- _; (constructor; [lia|]); apply Forall_zip_snd;
      replace (max_depth cfg + 1 - depth - 1) with (max_depth cfg + 1 - (depth + 1)) by lia.
    + eapply sensitive_loop_all; [|exact Hds]. eapply Forall_impl; [exact IH|]. cbn. intros x Hx. apply leaf_bounded. intros t3. apply Hx.
    + eapply plain_loop_all; [|exact Hds]. eapply Forall_impl; [exact IH|]. cbn. intros x Hx t3. apply Hx.
  - destruct o as [text|].
    + pose proof (capped_short text t1) as Hs. destruct (capped _ _ _) as [s' t2]. intros Heq; injection Heq as <- _. by constructor.
    + intros Heq; injection Heq as <- _. constructor. by left.
Qed.
End claims.
End classification.

(** * Endpoints *)

Section endpoints.
  Context `{Unicode}.

(** [s.split(sep, 1)[0]] *)
Definition before_sep (sep : Z) (s : str) : str := match partition_on sep s with Some (a, _) => a | None => s end.

Definition ascii_alnum (c : Z) : bool := between 48 57 c || between 65 90 c || between 97 122 c.

Definition uuid_pat : rx := cats [Bol; uuid_body; Eol].
Definition hex_pat : rx := cats [Bol; at_least 16 is_hex_nc; Eol].
Definition digits_pat : rx := cats [Bol; at_least 7 is_dec; Eol].
Definition b64_pat : rx := cats [Bol; at_least 41 (λ c, ascii_alnum c || one_of (lit "+/-_") c); up_to 3 (word (lit "=")); Eol].
Definition long_alnum_pat : rx := cats [Bol; at_least 16 ascii_alnum; Eol].

Definition ID : str := lit "{id}".

Definition process_segment (seg : str) : str :=
  let lower_seg := py_lower seg in
  if match_at_start uuid_pat seg || match_at_start hex_pat seg || match_at_start digits_pat seg || match_at_start b64_pat seg
     || (match_at_start long_alnum_pat seg && negb (bool_decide (lower_seg ∈ SAFE_ENDPOINT_WORDS)))
  then ID
  else if bool_decide (lower_seg ∈ SAFE_ENDPOINT_WORDS) then lower_seg else seg.

(** The second loop: no two [ID]s in a row. *)
Fixpoint dedup_ids (after_id : bool) (l : list str) : list str :=
  match l with
  | [] => []
  | seg :: l => if bool_decide (seg = ID) then if after_id then dedup_ids true l else seg :: dedup_ids true l
                else seg :: dedup_ids false l
  end.

Definition sanitize_endpoint_pattern (endpoint : str) : str :=
  let cleaned := before_sep 35 (before_sep 63 endpoint) in
  if bool_decide (cleaned = []) || bool_decide (cleaned = [47]) then cleaned
  else
    let segments := split_on 47 cleaned in
    let is_absolute := match segments with [] :: _ => true | _ => false end in
    let segments := if is_absolute then tail segments else segments in
    let deduped := dedup_ids false (map process_segment (filter (λ s, s ≠ []) segments)) in
    (if is_absolute then [47] else []) ++ join_sep 47 deduped.

(** A segment that [process_segment] leaves alone, without the separators. *)
Definition settled (s : str) : Prop := process_segment s = s ∧ s ≠ [] ∧ 47 ∉ s ∧ 63 ∉ s ∧ 35 ∉ s.

Lemma before_notin sep s : sep ∉ s → before_sep sep s = s.
Proof.
  intros Hs. unfold before_sep. replace (partition_on sep s) with (@None (str * str)); [done|].
  induction s as [|c s IH]; [done|]. apply not_elem_of_cons in Hs as [Hc Hs]. cbn.
  destruct (Z.eqb_spec c sep); [congruence|]. by rewrite <- IH.
Qed.

Lemma before_elem sep s : sep ∉ before_sep sep s ∧ before_sep sep s `sublist_of` s.
Proof.
  unfold before_sep. destruct (partition_on sep s) as [[a b]|] eqn:E.
  - revert a b E. induction s as [|c s IH]; intros a b; cbn; [done|]. destruct (Z.eqb_spec c sep) as [->|Hne].
    + intros [= <- _]. split; [apply not_elem_of_nil|apply sublist_nil_l].
    + destruct (partition_on sep s) as [[a' b']|]; [|done]. intros [= <- _]. destruct (IH a' b' eq_refl) as [H1 H2].
      split; [apply not_elem_of_cons; done|by apply sublist_skip].
  - split; [|done]. revert E. induction s as [|c s IH]; cbn; [intros _; apply not_elem_of_nil|].
    destruct (Z.eqb_spec c sep) as [->|Hne]; [done|]. destruct (partition_on sep s) as [[a' b']|]; [done|].
    intros _. apply not_elem_of_cons. auto.
Qed.

Lemma split_elem sep s seg c : seg ∈ split_on sep s → c ∈ seg → c ≠ sep ∧ c ∈ s.
Proof.
  revert seg. induction s as [|x s IH]; intros seg; cbn.
  - intros ->%list_elem_of_singleton Hc. by apply elem_of_nil in Hc.
  - destruct (Z.eqb_spec x sep) as [->|Hne].
    + intros [->|Hin]%elem_of_cons Hc; [by apply elem_of_nil in Hc|]. destruct (IH seg Hin Hc). split; [done|by right].
    + destruct (split_on sep s) as [|w ws].
      * intros ->%list_elem_of_singleton ->%list_elem_of_singleton. split; [done|left].
      * intros [->|Hin]%elem_of_cons Hc.
        -- apply elem_of_cons in Hc as [->|Hc]; [split; [done|left]|]. destruct (IH w ltac:(left) Hc). split; [done|by right].
        -- destruct (IH seg ltac:(by right) Hc). split; [done|by right].
Qed.

Lemma split_one sep s : sep ∉ s → split_on sep s = [s].
Proof.
  induction s as [|c s IH]; [done|]. intros [Hc Hs]%not_elem_of_cons. cbn. destruct (Z.eqb_spec c sep); [congruence|].
  by rewrite IH.
Qed.

Lemma split_join sep seg segs :
  Forall (λ s, sep ∉ s) (seg :: segs) → split_on sep (join_sep sep (seg :: segs)) = seg :: segs.
Proof.
  revert seg. induction segs as [|w segs IH]; intros seg; rewrite Forall_cons; intros [Hs Hw].
  { cbn [join_sep]. by apply split_one. }
  change (join_sep sep (seg :: w :: segs)) with (seg ++ sep :: join_sep sep (w :: segs)). specialize (IH w Hw).
  generalize dependent (join_sep sep (w :: segs)). intros joined IH. revert Hs. induction seg as [|c seg IHs]; intros Hs.
  - cbn. rewrite Z.eqb_refl. by rewrite IH.
  - apply not_elem_of_cons in Hs as [Hc Hs]. cbn. destruct (Z.eqb_spec c sep); [congruence|]. by rewrite IHs.
Qed.

Lemma safe_words_settled : Forall settled SAFE_ENDPOINT_WORDS.
Proof.
  unfold settled. apply Forall_forall. intros w Hw.
  assert (Forall (λ w, bool_decide (process_segment w = w ∧ w ≠ [] ∧ 47 ∉ w ∧ 63 ∉ w ∧ 35 ∉ w) = true) SAFE_ENDPOINT_WORDS) as Hall.
  { repeat constructor. }
  eapply Forall_forall in Hall; [|exact Hw]. by apply bool_decide_eq_true in Hall.
Qed.
Lemma id_settled : settled ID.
Proof.
  unfold settled. apply (bool_decide_eq_true (process_segment ID = ID ∧ ID ≠ [] ∧ 47 ∉ ID ∧ 63 ∉ ID ∧ 35 ∉ ID)). reflexivity.
Qed.

Lemma process_settled seg : seg ≠ [] → 47 ∉ seg → 63 ∉ seg → 35 ∉ seg → settled (process_segment seg).
Proof.
  intros Hne H1 H2 H3. unfold process_segment.
  destruct (_ || (_ && _)) eqn:E; [apply id_settled|].
  destruct (bool_decide (py_lower seg ∈ SAFE_ENDPOINT_WORDS)) eqn:Ew.
  - apply bool_decide_eq_true in Ew. pose proof safe_words_settled as Hs. by eapply Forall_forall in Hs.
  - split; [|done]. unfold process_segment. by rewrite Ew, E.
Qed.

Lemma dedup_sublist b l : dedup_ids b l `sublist_of` l.
Proof.
  revert b. induction l as [|s l IH]; intros b; [done|]. cbn. destruct (bool_decide (s = ID)), b; try by apply sublist_skip.
  by apply sublist_cons.
Qed.

Lemma dedup_idempotent b l : dedup_ids b (dedup_ids b l) = dedup_ids b l.
Proof.
  revert b. induction l as [|s l IH]; intros b; [done|]. cbn. destruct (bool_decide (s = ID)) eqn:E, b; cbn; rewrite ?E; by rewrite ?IH.
Qed.

Lemma dedup_nonempty l : l ≠ [] → dedup_ids false l ≠ [].
Proof. destruct l as [|s l]; [done|]. cbn. by destruct (bool_decide (s = ID)). Qed.

Lemma join_elem sep segs c : c ∈ join_sep sep segs → c = sep ∨ ∃ s, s ∈ segs ∧ c ∈ s.
Proof.
  induction segs as [|s segs IH]; [by intros ?%elem_of_nil|]. destruct segs as [|w segs].
  { cbn. intros Hc. right. exists s. split; [left|done]. }
  change (join_sep sep (s :: w :: segs)) with (s ++ sep :: join_sep sep (w :: segs)).
  rewrite elem_of_app, elem_of_cons. intros [Hc|[->|Hc]]; [right; exists s; split; [left|done]|by left|].
  destruct (IH Hc) as [?|(s' & Hs' & Hc')]; [by left|]. right. exists s'. split; [by right|done].
Qed.

(** The output is made of settled segments. *)
Lemma settled_output (absolute : bool) segs :
  Forall settled segs → dedup_ids false segs = segs → (absolute = false → segs ≠ []) →
  let out := (if absolute then [47] else []) ++ join_sep 47 segs in
  sanitize_endpoint_pattern out = out.
Proof.
  intros Hs Hd Hne out. unfold sanitize_endpoint_pattern.
  assert (∀ sep, (sep = 63 ∨ sep = 35) → sep ∉ out) as Hout.
  { intros sep Hsep. unfold out. rewrite elem_of_app. intros [Hc|Hc].
    - destruct absolute; [apply list_elem_of_singleton in Hc; lia|by apply elem_of_nil in Hc].
    - apply join_elem in Hc as [->|(s & Hin & Hc)]; [lia|]. eapply Forall_forall in Hs as (_ & _ & _ & H2 & H3); [|exact Hin].
      destruct Hsep; subst; done. }
  rewrite (before_notin 63) by auto. rewrite (before_notin 35) by auto.
  destruct segs as [|seg segs]; [unfold out; destruct absolute; [reflexivity|naive_solver]|].
  assert (Forall (λ s, 47 ∉ s) (seg :: segs)) as H47 by (eapply Forall_impl; [exact Hs|]; by intros s (_ & _ & ? & _)).
  assert (map process_segment (filter (λ s, s ≠ []) (seg :: segs)) = seg :: segs) as Hmap.
  { rewrite filter_all by (eapply Forall_impl; [exact Hs|]; by intros s (_ & ? & _)).
    clear -Hs. induction Hs as [|s l (Hp & _) Hs IH]; [done|]. cbn. by rewrite Hp, IH. }
  apply Forall_cons in Hs as [(_ & Hseg & _) _]. destruct seg as [|c seg]; [done|].
  assert (bool_decide (out = []) || bool_decide (out = [47]) = false) as ->.
  { apply orb_false_iff; split; apply bool_decide_eq_false; unfold out; destruct absolute; destruct segs; try discriminate.
    - cbn. intros [= -> _]. apply Forall_cons in H47 as [H47 _]. apply H47. left.
    - cbn. intros [= -> _]. apply Forall_cons in H47 as [H47 _]. apply H47. left. }
  pose proof (split_join 47 _ _ H47) as Hsp. unfold out. destruct absolute.
  - change ([47] ++ ?x) with (47 :: x). cbn [split_on]. rewrite Z.eqb_refl, Hsp. cbn [tail]. by rewrite Hmap, Hd.
  - rewrite app_nil_l, Hsp, Hmap, Hd. done.
Qed.

(** Redaction: sanitizing an endpoint a second time changes nothing, so the endpoint
    of a log entry passes the check that compares it with its sanitized form. *)
Theorem endpoint_sanitizing_idempotent e :
  sanitize_endpoint_pattern (sanitize_endpoint_pattern e) = sanitize_endpoint_pattern e.
Proof.
  remember (before_sep 35 (before_sep 63 e)) as cleaned eqn:Hcl.
  assert (63 ∉ cleaned ∧ 35 ∉ cleaned) as [H63 H35].
  { destruct (before_elem 63 e) as [H1 _], (before_elem 35 (before_sep 63 e)) as [H2 H3]. rewrite Hcl. split; [|done].
    intros Hin. apply H1. by eapply elem_of_sublist. }
  unfold sanitize_endpoint_pattern at 2 3. rewrite <- Hcl.
  destruct (bool_decide (cleaned = []) || bool_decide (cleaned = [47])) eqn:E.
  { apply orb_true_iff in E as [->%bool_decide_eq_true | ->%bool_decide_eq_true]; reflexivity. }
  apply orb_false_iff in E as [E%bool_decide_eq_false _].
  set (absolute := match split_on 47 cleaned with [] :: _ => true | _ => false end).
  apply settled_output; [|apply dedup_idempotent|].
  - apply Forall_forall. intros s Hs. eapply elem_of_sublist in Hs; [|apply dedup_sublist].
    apply list_elem_of_fmap in Hs as (seg & -> & [Hne Hin]%list_elem_of_filter).
    assert (seg ∈ split_on 47 cleaned) as Hin' by (destruct absolute; [|done]; destruct (split_on 47 cleaned); [done|by right]).
    apply process_settled; [done|..]; intros Hc; apply (split_elem 47 cleaned seg) in Hc; naive_solver.
  - intros Habs. apply dedup_nonempty. rewrite Habs. unfold absolute in Habs.
    destruct cleaned as [|c cl]; [done|]. cbn [split_on] in Habs |- *. destruct (c =? 47); [done|].
    destruct (split_on 47 cl) as [|w ws]; by rewrite filter_cons_True.
Qed.
End endpoints.

(** * Witnesses *)

#[local] Instance sample_unicode : Unicode := plain_unicode.
#[local] Instance sample_alnum : Alnum := λ _, false.

Definition login (password : string) (inner : datum) : datum :=
  DDict [(lit "password", DStr (lit password)); (lit "tries", DInt 3); (lit "wallet", DSeq false [inner; DStr (lit "x")])].

Lemma redaction_hides_witness :
  sanitize default_redaction (login "hunter2" (DInt 7)) None = sanitize default_redaction (login "swordfish" (DStr (lit "seven"))) None.
Proof.
  apply (redaction_hides default_redaction). apply LDict; [reflexivity|].
  repeat apply Forall2_cons_2; [..|constructor]; (split; [reflexivity|cbn [fst snd]]).
  - apply (LText _ _ _ _ Secret); (split_and!; [reflexivity|reflexivity|by left]).
  - apply LSame.
  - apply (LShape _ _ _ _ WalletId); [reflexivity|reflexivity|]. apply SSeq. repeat constructor.
Defined.

Lemma sensitive_containers_only_markers_witness :
  match sanitize_any default_redaction (DSeq false [DInt 7; DDict [(lit "k", DBool true)]]) (Some (lit "wallet")) 0 make_tracker None with
  | Ok (d', _) => only_markers default_redaction WalletId d'
  | Err _ => False
  end.
Proof.
  destruct (sanitize_any _ _ _ _ _ _) as [[d' t']|e] eqn:E; [|by vm_compute in E].
  apply (sensitive_containers_only_markers default_redaction (DSeq false [DInt 7; DDict [(lit "k", DBool true)]]) (lit "wallet") 0
           make_tracker d' t' WalletId); [by vm_compute|reflexivity|exact E].
Defined.

Lemma some_sensitive_values_pass_witness :
  field_cat default_redaction (Some (lit "password")) = Some Secret ∧
  ∃ t', sanitize_any default_redaction (DInt 1234) (Some (lit "password")) 1 make_tracker None = Ok (DInt 1234, t').
Proof.
  split; [by vm_compute|].
  apply (some_sensitive_values_pass default_redaction (lit "password") (DInt 1234) 1 make_tracker); [by vm_compute..|].
  split; [by vm_compute|]. vm_compute. discriminate.
Defined.

Lemma sanitized_payload_bounded_witness :
  match sanitize_any default_redaction (login "hunter2" (DInt 7)) None 0 make_tracker None with
  | Ok (d', _) => bounded default_redaction 17 d'
  | Err _ => False
  end.
Proof.
  destruct (sanitize_any _ _ _ _ _ _) as [[d' t']|e] eqn:E; [|by vm_compute in E].
  apply (sanitized_payload_bounded default_redaction ltac:(vm_compute; discriminate) ltac:(intros []; reflexivity)
           (login "hunter2" (DInt 7)) None 0 make_tracker None d' t' E).
Defined.
