(* ===== verification/AnalyticsEvents.v ===== *)
(** The analytics events: [backend/analytics/events.py].  The lifecycle of an event is a
    state machine with declared transitions; [transition_event_state] sends every other
    transition to [FAILED_STABLE].

    Shown: the declared transitions always end, after at most nine steps, and reach
    ingestion only through a consent that was granted and a sample that was kept; the
    function follows them or fails visibly; but a failed event may be ingested, so that
    two calls take any event there, a dropped one included.  A blocked event name is
    refused whatever is allowed later. *)
From Stdlib Require Import ZArith QArith Lia.
From stdpp Require Import base decidable strings numbers relations sets list.
From S2P Require Import Prelude PyStr Json Sha256 Config Redaction.

Open Scope Z_scope.

#[local] Arguments lit _ : simpl never.

Definition ANALYTICS_EVENT_SCHEMA_VERSION : str := lit "1.0.0".

Inductive EventLifecycleState :=
  | CREATED | ALLOWLISTED | CONSENT_PENDING | CONSENT_GRANTED | CONSENT_DENIED | SAMPLED_IN | SAMPLED_OUT
  | REPLAY_REJECTED | REDACTED | DROPPED | INGESTED | EXPORTED | CANCELLED | TIMED_OUT | FAILED_STABLE.

#[export] Instance EventLifecycleState_eq_dec : EqDecision EventLifecycleState.
Proof. solve_decision. Defined.

Definition lifecycle_text (s : EventLifecycleState) : str :=
  lit match s with
      | CREATED => "created" | ALLOWLISTED => "allowlisted" | CONSENT_PENDING => "consent_pending"
      | CONSENT_GRANTED => "consent_granted" | CONSENT_DENIED => "consent_denied" | SAMPLED_IN => "sampled_in"
      | SAMPLED_OUT => "sampled_out" | REPLAY_REJECTED => "replay_rejected" | REDACTED => "redacted"
      | DROPPED => "dropped" | INGESTED => "ingested" | EXPORTED => "exported" | CANCELLED => "cancelled"
      | TIMED_OUT => "timed_out" | FAILED_STABLE => "failed_stable"
      end.

Inductive EventOperationStatus :=
  | NOT_STARTED | IN_PROGRESS | PARTIALLY_COMPLETED | COMPLETED | OP_INVALID | OVERSIZED | DUPLICATE_OP | OP_TIMED_OUT
  | OP_CANCELLED | FAILED_SAFE | FAILED_UNSAFE | RECOVERED.

Definition operation_text (s : EventOperationStatus) : str :=
  lit match s with
      | NOT_STARTED => "not_started" | IN_PROGRESS => "in_progress" | PARTIALLY_COMPLETED => "partially_completed"
      | COMPLETED => "completed" | OP_INVALID => "invalid" | OVERSIZED => "oversized" | DUPLICATE_OP => "duplicate"
      | OP_TIMED_OUT => "timed_out" | OP_CANCELLED => "cancelled" | FAILED_SAFE => "failed_safe"
      | FAILED_UNSAFE => "failed_unsafe" | RECOVERED => "recovered"
      end.

(** * The allowlist *)

Definition EVENT_ALLOWLIST : list str := map lit
  ["system.startup"; "system.shutdown"; "system.health_check"; "system.config_loaded";
   "system.config_reload_requested"; "system.rollout_phase_changed"; "system.saturation_signal";
   "system.recovery_signal"; "user.consent_granted"; "user.consent_denied"; "user.consent_updated";
   "user.session_started"; "user.session_ended"; "user.authentication_attempted"; "user.authentication_succeeded";
   "user.authentication_failed"; "user.authorization_denied"; "user.rate_limited"; "proof.workflow_started";
   "proof.workflow_queued"; "proof.workflow_completed"; "proof.workflow_failed"; "proof.workflow_cancelled";
   "proof.workflow_timed_out"; "proof.workflow_invalid"; "proof.circuit_compilation_requested";
   "proof.circuit_compilation_completed"; "proof.circuit_compilation_failed"; "proof.generate_requested";
   "proof.generate_completed"; "proof.generate_failed"; "proof.verify_requested"; "proof.verify_completed";
   "proof.verify_failed"; "media.upload_started"; "media.upload_completed"; "media.upload_failed";
   "media.upload_cancelled"; "media.upload_oversized"; "media.metadata_extracted"; "media.metadata_parse_failed";
   "media.embed_requested"; "media.embed_completed"; "media.embed_failed"; "media.extract_requested";
   "media.extract_completed"; "media.extract_failed"; "network.rpc_requested"; "network.rpc_completed";
   "network.rpc_failed"; "network.stellar_tx_submitted"; "network.stellar_tx_confirmed"; "network.stellar_tx_failed";
   "network.stellar_tx_timed_out"; "error.error_observed"; "error.validation_failed"; "error.resource_limit_exceeded";
   "error.export_safety_violation_detected"; "error.redaction_engine_fallback_triggered"; "ops.progress_tick";
   "ops.saturation_detected"; "ops.recovery_triggered"; "ops.recovery_completed"; "privacy.consent_missing";
   "privacy.replay_attempt_detected"; "privacy.allowlist_violation_attempted";
   "privacy.sensitive_field_detected_in_event"; "export.export_requested"; "export.export_completed";
   "export.export_failed"; "export.export_safety_validated"; "export.import_completed"].

Record EventAllowlist := MkAllowlist { extra_allowed : option (list str); blocklist : list str }.

Definition all_allowed (a : EventAllowlist) : list str :=
  filter (λ n, n ∉ blocklist a) (EVENT_ALLOWLIST ++ default [] (extra_allowed a)).

Definition is_allowed (a : EventAllowlist) (event_name : str) : bool := bool_decide (event_name ∈ all_allowed a).

Definition add_allowed (a : EventAllowlist) (event_name : str) : EventAllowlist :=
  MkAllowlist (Some (event_name :: default [] (extra_allowed a))) (blocklist a).

Definition block_event (a : EventAllowlist) (event_name : str) : EventAllowlist :=
  MkAllowlist (extra_allowed a) (event_name :: blocklist a).

Definition event_is_allowed (event_name : str) (allowlist : option EventAllowlist) : bool :=
  is_allowed (default (MkAllowlist None []) allowlist) event_name.

(** * Events *)

Record TrackedEvent := MkEvent {
  event_name : str;
  event_id : str;
  ev_category : str;
  lifecycle_state : EventLifecycleState;
  operation_status : EventOperationStatus;
  payload : datum;
  created_at_utc : Z;
  updated_at_utc : Z;
  correlation_id : option str;
  account_id_tag : option str;
  session_id_tag : option str;
  user_agent_tag : option str;
  ip_tag : option str;
  redaction_version : option str;
  sampling_rate_applied : option pynum;
  rejection_reason : option str;
  annotations : list (str * str);
}.

(** [_generate_event_id], with the random bytes and the text of the time as arguments. *)
Definition generate_event_id (random : bytes) (timestamp : str) : str :=
  lit "evt-v1:" ++ take 32 (sha256_hex (random ++ timestamp)).

(** [create_event], with the optional fields it is given. *)
Definition create_event (name category : str) (data : option datum)
    (correlation account session agent ip : option str) (id : str) (now : Z) : TrackedEvent :=
  MkEvent name id category CREATED NOT_STARTED (default (DDict []) data) now now correlation account session agent ip None None None [].

Definition VALID_TRANSITIONS (s : EventLifecycleState) : list EventLifecycleState :=
  match s with
  | CREATED => [ALLOWLISTED; DROPPED; CANCELLED; TIMED_OUT; REPLAY_REJECTED]
  | ALLOWLISTED => [CONSENT_PENDING; CONSENT_GRANTED; CONSENT_DENIED; REPLAY_REJECTED; DROPPED]
  | CONSENT_PENDING => [CONSENT_GRANTED; CONSENT_DENIED; TIMED_OUT; DROPPED; CANCELLED]
  | CONSENT_GRANTED => [SAMPLED_IN; SAMPLED_OUT; DROPPED; CANCELLED; TIMED_OUT; REPLAY_REJECTED]
  | CONSENT_DENIED => [DROPPED]
  | SAMPLED_IN => [REDACTED; DROPPED; CANCELLED; TIMED_OUT; FAILED_STABLE]
  | SAMPLED_OUT => [DROPPED]
  | REPLAY_REJECTED => [DROPPED]
  | REDACTED => [INGESTED; EXPORTED; DROPPED; FAILED_STABLE; CANCELLED; TIMED_OUT]
  | INGESTED => [EXPORTED; DROPPED]
  | EXPORTED => [DROPPED]
  | CANCELLED => [DROPPED]
  | TIMED_OUT => [DROPPED]
  | FAILED_STABLE => [DROPPED; INGESTED]
  | DROPPED => []
  end.

Definition set_state (e : TrackedEvent) (s : EventLifecycleState) (status : EventOperationStatus) (reason : option str) (now : Z)
    : TrackedEvent :=
  MkEvent (event_name e) (event_id e) (ev_category e) s status (payload e) (created_at_utc e) now (correlation_id e)
    (account_id_tag e) (session_id_tag e) (user_agent_tag e) (ip_tag e) (redaction_version e) (sampling_rate_applied e)
    reason (annotations e).

Definition invalid_transition (current new_state : EventLifecycleState) : str :=
  lit "invalid_transition_" ++ lifecycle_text current ++ lit "_to_" ++ lifecycle_text new_state.

Definition transition_event_state (e : TrackedEvent) (new_state : EventLifecycleState) (reason : option str)
    (new_operation_status : option EventOperationStatus) (now : Z) : TrackedEvent :=
  let current := lifecycle_state e in
  let status := default (operation_status e) new_operation_status in
  if bool_decide (new_state ∈ VALID_TRANSITIONS current)
  then set_state e new_state status (match reason with Some r => Some r | None => rejection_reason e end) now
  else set_state e FAILED_STABLE status (Some (invalid_transition current new_state)) now.

(** Membership in a literal list, by computation. *)
Ltac listed :=
  match goal with
  | |- ?x ∈ ?l => refine (proj1 (bool_decide_eq_true (x ∈ l)) _); vm_compute; reflexivity
  | |- ?x ∉ ?l => refine (proj1 (bool_decide_eq_false (x ∈ l)) _); vm_compute; reflexivity
  end.

(** * The declared state machine *)

Definition lifecycle_step (s s' : EventLifecycleState) : Prop := s' ∈ VALID_TRANSITIONS s.

(** The steps that are still possible. *)
Definition lifecycle_rank (s : EventLifecycleState) : nat :=
  match s with
  | CREATED => 9 | ALLOWLISTED => 8 | CONSENT_PENDING => 7 | CONSENT_GRANTED => 6 | SAMPLED_IN => 5 | REDACTED => 4
  | FAILED_STABLE => 3 | INGESTED => 2 | EXPORTED | CONSENT_DENIED | SAMPLED_OUT | REPLAY_REJECTED | CANCELLED | TIMED_OUT => 1
  | DROPPED => 0
  end.

Lemma step_rank s s' : lifecycle_step s s' → (lifecycle_rank s' < lifecycle_rank s)%nat.
Proof. unfold lifecycle_step. destruct s; cbn [VALID_TRANSITIONS]; rewrite ?elem_of_cons, ?elem_of_nil; intros Hin; destruct_or?; subst; cbn; (lia || done). Qed.

(** Events: a sequence of declared transitions has at most nine steps, so every
    lifecycle ends. *)
Theorem lifecycle_ends n s s' : nsteps lifecycle_step n s s' → (n ≤ lifecycle_rank s ≤ 9)%nat.
Proof.
  intros Hn. split; [|destruct s; cbn; lia].
  induction Hn as [s|n s s1 s2 Hs Hn IH]; [lia|]. apply step_rank in Hs. lia.
Qed.

(** Before consent was granted and the sample kept. *)
Definition not_yet_sampled (s : EventLifecycleState) : Prop :=
  s ∉ [SAMPLED_IN; REDACTED; FAILED_STABLE; INGESTED; EXPORTED].

(** A path of states, newest first. *)
Inductive lifecycle_path : list EventLifecycleState → Prop :=
  | path_start : lifecycle_path [CREATED]
  | path_step s s' path : lifecycle_path (s :: path) → lifecycle_step s s' → lifecycle_path (s' :: s :: path).

Lemma path_sampled p : lifecycle_path p → ∀ s q, p = s :: q → not_yet_sampled s ∨ (CONSENT_GRANTED ∈ p ∧ SAMPLED_IN ∈ p).
Proof.
  induction 1 as [|s s' path Hp IH Hs]; intros s0 q Heq; injection Heq as <- <-.
  { left. unfold not_yet_sampled. listed. }
  destruct (IH s path eq_refl) as [Hn|[Hg Hi]].
  - destruct (decide (s' ∈ [SAMPLED_IN; REDACTED; FAILED_STABLE; INGESTED; EXPORTED])) as [Hin|Hni]; [|by left].
    right. revert Hs Hn Hin. unfold lifecycle_step, not_yet_sampled.
    destruct s; cbn [VALID_TRANSITIONS]; rewrite ?not_elem_of_cons, ?elem_of_cons, ?elem_of_nil; intros Hs Hn Hin;
      destruct_and?; try done; destruct_or?; subst; try done; split; rewrite ?elem_of_cons; auto.
  - right. split; by right.
Qed.

(** Events: along declared transitions an event is ingested or exported only after its
    consent was granted and its sample was kept. *)
Theorem declared_ingestion_needs_consent s path :
  lifecycle_path (s :: path) → s = INGESTED ∨ s = EXPORTED → CONSENT_GRANTED ∈ path ∧ SAMPLED_IN ∈ path.
Proof.
  intros Hp Hs. destruct (path_sampled _ Hp s path eq_refl) as [Hn|[Hg Hi]].
  - exfalso. apply Hn. destruct Hs; subst; listed.
  - apply elem_of_cons in Hg as [Hg|Hg], Hi as [Hi|Hi]; destruct Hs; subst; done.
Qed.

(** Events: a transition follows the declaration, or leaves the event in
    [FAILED_STABLE] with the two states in its reason; nothing else of the event but the
    time and the operation status changes. *)
Theorem transition_declared_or_failed e s reason status now :
  let e' := transition_event_state e s reason status now in
  (lifecycle_step (lifecycle_state e) s ∧ lifecycle_state e' = s ∨
   ¬ lifecycle_step (lifecycle_state e) s ∧ lifecycle_state e' = FAILED_STABLE ∧
   rejection_reason e' = Some (invalid_transition (lifecycle_state e) s)) ∧
  e = set_state e' (lifecycle_state e) (operation_status e) (rejection_reason e) (updated_at_utc e).
Proof.
  cbv zeta. unfold transition_event_state, lifecycle_step. destruct (decide (s ∈ VALID_TRANSITIONS (lifecycle_state e))) as [Hin|Hin].
  - rewrite bool_decide_true by done. split; [by left|by destruct e].
  - rewrite bool_decide_false by done. split; [by right|by destruct e].
Qed.

(** Events: two calls ingest every event that may not be ingested (a dropped one, one
    without consent, one sampled out): the first, invalid, leaves it in [FAILED_STABLE],
    from where the second is a declared transition. *)
Theorem refused_event_can_be_ingested e r r' st st' now now' :
  ¬ lifecycle_step (lifecycle_state e) INGESTED →
  lifecycle_state (transition_event_state (transition_event_state e INGESTED r st now) INGESTED r' st' now') = INGESTED.
Proof. intros He. unfold transition_event_state at 2. rewrite bool_decide_false by done. reflexivity. Qed.

(** * The allowlist *)

Inductive allowlist_op := AddAllowed (n : str) | Block (n : str).

Definition run_allowlist (a : EventAllowlist) (o : allowlist_op) : EventAllowlist :=
  match o with AddAllowed n => add_allowed a n | Block n => block_event a n end.

Lemma blocked_run n ops a : n ∈ blocklist a → n ∈ blocklist (foldl run_allowlist a ops).
Proof.
  revert a. induction ops as [|o ops IH]; intros a Hn; [done|]. cbn. apply IH. destruct o; cbn; [done|by right].
Qed.

(** Events: a blocked name is refused whatever is allowed or blocked afterwards. *)
Theorem blocked_event_stays_blocked a n ops : is_allowed (foldl run_allowlist (block_event a n) ops) n = false.
Proof.
  unfold is_allowed, all_allowed. apply bool_decide_eq_false. intros [Hn _]%list_elem_of_filter. apply Hn.
  apply blocked_run. left.
Qed.

(** * Witnesses *)

Lemma lifecycle_ends_witness : (2 ≤ lifecycle_rank CREATED ≤ 9)%nat.
Proof.
  apply (lifecycle_ends 2 CREATED CONSENT_GRANTED). apply (nsteps_l _ _ _ ALLOWLISTED); [unfold lifecycle_step; listed|].
  apply (nsteps_l _ _ _ CONSENT_GRANTED); [unfold lifecycle_step; listed|constructor].
Defined.

Lemma declared_ingestion_needs_consent_witness :
  CONSENT_GRANTED ∈ [REDACTED; SAMPLED_IN; CONSENT_GRANTED; ALLOWLISTED; CREATED] ∧
  SAMPLED_IN ∈ [REDACTED; SAMPLED_IN; CONSENT_GRANTED; ALLOWLISTED; CREATED].
Proof.
  apply (declared_ingestion_needs_consent INGESTED); [|by left].
  repeat (apply path_step; [|unfold lifecycle_step; listed]). constructor.
Defined.

Definition sample_event : TrackedEvent := create_event (lit "system.startup") (lit "system.internal") None None None None None None [] 0.

Lemma refused_event_can_be_ingested_witness :
  lifecycle_state (transition_event_state (transition_event_state (transition_event_state sample_event DROPPED None None 1)
    INGESTED None None 2) INGESTED None None 3) = INGESTED.
Proof.
  apply (refused_event_can_be_ingested (transition_event_state sample_event DROPPED None None 1) None None None None 2 3).
  apply not_elem_of_nil.
Defined.
