(* ===== verification/AnalyticsMetrics.v ===== *)
(** The operational metrics of the analytics: [backend/analytics/metrics_collector.py].
    Counters, gauges and tables of counts are dicts in insertion order.

    Shown: every key under which something is counted is well formed; the totals the
    collector keeps for saturation, recovery and progress agree with the tables they are
    totals of, whatever sequence of calls it serves. *)
From Stdlib Require Import ZArith QArith Lia.
From stdpp Require Import base decidable strings numbers list sorting.
From S2P Require Import Prelude PyStr Json Logging Config Consent Regex Redaction.

Open Scope Z_scope.

#[local] Arguments lit _ : simpl never.

(** [chr(c).isalpha()] for [c >= 128] *)
Class Alpha := alpha_tbl : Z → bool.

Definition METRIC_DOMAIN_SET : list str := map lit
  ["progress"; "failure"; "saturation"; "recovery"; "error"; "analytics"; "export"; "consent"; "session"; "sampling";
   "allowlist"; "redaction"].

Definition SATURATION_SIGNAL_SET : list str := map lit
  ["queue_depth_high"; "memory_high"; "cpu_high"; "event_rate_high"; "export_buffer_full"; "nonce_store_full";
   "log_entries_limit_hit"; "concurrency_limit_hit"; "latency_p99_high"].

Definition RECOVERY_SIGNAL_SET : list str := map lit
  ["queue_depth_ok"; "memory_ok"; "cpu_ok"; "event_rate_ok"; "export_buffer_drained"; "nonce_store_pruned";
   "export_safety_ok"; "latency_p99_ok"; "consistency_restored"].

Definition is_name_head (c : Z) : bool := between 97 122 c || (c =? 95).
Definition is_name_char (c : Z) : bool := between 97 122 c || between 48 57 c || (c =? 95).

(** [^[a-z_][a-z0-9_]{0,n}$] *)
Definition name_pattern (n : nat) : rx := cats [Bol; Cls is_name_head; up_to n (Cls is_name_char); Eol].

Definition METRIC_NAME_PATTERN : rx := name_pattern 47.

Section names.
  Context `{Unicode} `{Alnum} `{Alpha}.

Definition isalpha (c : Z) : bool := if c <? 128 then between 65 90 c || between 97 122 c else alpha_tbl c.

Definition validate_domain (domain : str) : str :=
  if bool_decide (domain ∈ METRIC_DOMAIN_SET) then domain else lit "analytics".

(** The name with every other character replaced. *)
Definition clean_name (name : str) : str :=
  let cleaned := map (λ c, if isalnum c || (c =? 95) then c else 95) (py_lower name) in
  let cleaned := match cleaned with [] => lit "unnamed" | _ => cleaned end in
  let cleaned := match cleaned with
                 | c :: _ => if negb (isalpha c) && negb (c =? 95) then lit "m_" ++ cleaned else cleaned
                 | [] => cleaned
                 end in
  take 48 cleaned.

Definition validate_name (name : str) : str :=
  if match_at_start METRIC_NAME_PATTERN name then name
  else
    let cleaned := clean_name name in
    if match_at_start METRIC_NAME_PATTERN cleaned then cleaned
    else
      let cleaned := take 48 (map (λ c, if is_name_char c then c else 95) cleaned) in
      match cleaned with [] => lit "unnamed" | _ => cleaned end.

Record metrics := Metrics {
  m_counters : list (str * Z);
  m_gauges : list (str * pynum);
  m_events_seen : list (str * Z);
  m_saturation : list (str * Z);
  m_recovery : list (str * Z);
  m_failures : list (str * Z);
  m_progress_total : Z;
  m_last_recovery : Z;
  m_last_saturation : Z;
}.

Definition new_metrics : metrics := Metrics [] [] [] [] [] [] 0 0 0.

Definition with_counters (m : metrics) (c : list (str * Z)) : metrics :=
  Metrics c (m_gauges m) (m_events_seen m) (m_saturation m) (m_recovery m) (m_failures m) (m_progress_total m)
    (m_last_recovery m) (m_last_saturation m).
Definition with_gauges (m : metrics) (g : list (str * pynum)) : metrics :=
  Metrics (m_counters m) g (m_events_seen m) (m_saturation m) (m_recovery m) (m_failures m) (m_progress_total m)
    (m_last_recovery m) (m_last_saturation m).

Definition metric_key (domain name : str) : str := validate_domain domain ++ lit ":" ++ validate_name name.

(** [d[k] = d.get(k, 0) + n] *)
Definition add_count (k : str) (n : Z) (d : list (str * Z)) : list (str * Z) :=
  dict_set k (default 0 (dict_get k d) + n) d.

Definition clamp_int (v lo hi : Z) : Z := if v <? lo then lo else if hi <? v then hi else v.

Definition increment_counter (m : metrics) (domain name : str) (value : Z) : metrics :=
  with_counters m (add_count (metric_key domain name) (clamp_int value 0 1000000) (m_counters m)).

Definition set_gauge (m : metrics) (domain name : str) (value : pynum) : metrics :=
  with_gauges m (dict_set (metric_key domain name) value (m_gauges m)).

Definition record_event_seen (m : metrics) (event_name : str) : metrics :=
  Metrics (m_counters m) (m_gauges m) (add_count (cap_text event_name 128) 1 (m_events_seen m)) (m_saturation m)
    (m_recovery m) (m_failures m) (m_progress_total m) (m_last_recovery m) (m_last_saturation m).

(** [sum(d.values())] *)
Definition total (d : list (str * Z)) : Z := foldr Z.add 0 d.*2.

Definition record_saturation_signal (m : metrics) (signal : str) (now : Z) : metrics :=
  let valid_signal := if bool_decide (signal ∈ SATURATION_SIGNAL_SET) then signal else lit "other" in
  let signals := add_count valid_signal 1 (m_saturation m) in
  let m := Metrics (m_counters m) (m_gauges m) (m_events_seen m) signals (m_recovery m) (m_failures m)
             (m_progress_total m) (m_last_recovery m) now in
  let m := set_gauge m (lit "saturation") (lit "saturation_signal_count") (Fin (inject_Z (total signals))) in
  increment_counter m (lit "saturation") (lit "signal_total") 1.

Definition record_recovery_signal (m : metrics) (signal : str) (now : Z) : metrics :=
  let valid_signal := if bool_decide (signal ∈ RECOVERY_SIGNAL_SET) then signal else lit "other" in
  let signals := add_count valid_signal 1 (m_recovery m) in
  let m := Metrics (m_counters m) (m_gauges m) (m_events_seen m) (m_saturation m) signals (m_failures m)
             (m_progress_total m) now (m_last_saturation m) in
  let m := set_gauge m (lit "recovery") (lit "recovery_signal_count") (Fin (inject_Z (total signals))) in
  increment_counter m (lit "recovery") (lit "recovery_total") 1.

Definition record_failure (m : metrics) (error_code category : str) : metrics :=
  let m := Metrics (m_counters m) (m_gauges m) (m_events_seen m) (m_saturation m) (m_recovery m)
             (add_count (cap_text error_code 128) 1 (m_failures m)) (m_progress_total m) (m_last_recovery m)
             (m_last_saturation m) in
  increment_counter m (lit "failure") (validate_name (lit "err_" ++ cap_text category 64)) 1.

Definition progress_tick (m : metrics) (operation : str) : metrics :=
  let m := increment_counter m (lit "progress") (cap_text operation 64) 1 in
  Metrics (m_counters m) (m_gauges m) (m_events_seen m) (m_saturation m) (m_recovery m) (m_failures m)
    (m_progress_total m + 1) (m_last_recovery m) (m_last_saturation m).

Definition reset_metrics (m : metrics) : metrics := new_metrics.

(** The order of [_top_n]: larger counts first, then the names. *)
Definition count_le (p q : str * Z) : Prop := q.2 < p.2 ∨ p.2 = q.2 ∧ str_le p.1 q.1.

#[export] Instance count_le_dec : RelDecision count_le.
Proof. intros p q. unfold count_le. apply _. Defined.

Definition top_n (d : list (str * Z)) (n : nat) : list (str * Z) := take n (merge_sort count_le d).

(** * Names *)

Definition well_formed_name (s : str) : Prop :=
  ∃ c l, (s = c :: l ∨ s = c :: l ++ [10]) ∧ is_name_head c = true ∧ Forall (λ c, is_name_char c = true) l ∧ (length l ≤ 47)%nat.

Lemma name_pattern_spec s : match_at_start METRIC_NAME_PATTERN s = true ↔ well_formed_name s.
Proof. apply match_name_pattern. Qed.

Lemma clean_name_head name : ∃ c l, clean_name name = c :: l ∧ (length l ≤ 47)%nat ∧ (isalpha c = true ∨ c = 95).
Proof.
  unfold clean_name.
  set (cl := match map _ (py_lower name) with [] => lit "unnamed" | _ => map _ (py_lower name) end).
  assert (∃ c l, cl = c :: l) as (c & l & ->).
  { unfold cl. destruct (map _ (py_lower name)) as [|c l]; [by eexists _, _|by exists c, l]. }
  destruct (negb (isalpha c) && negb (c =? 95)) eqn:E.
  - exists 109, (take 47 (95 :: c :: l)). split_and!; [done|rewrite length_take; lia|by left].
  - exists c, (take 47 l). split_and!; [done|rewrite length_take; lia|].
    apply andb_false_iff in E as [E|E]; apply negb_false_iff in E; [by left|right; by apply Z.eqb_eq].
Qed.

Lemma replaced_head c : isalpha c = true ∨ c = 95 → is_name_head (if is_name_char c then c else 95) = true.
Proof.
  unfold isalpha, is_name_head, is_name_char, between. intros [Hc| ->]; [|done].
  destruct (Z.ltb_spec c 128) as [Hl|Hl].
  - destruct (Z.leb_spec 97 c), (Z.leb_spec c 122), (Z.leb_spec 48 c), (Z.leb_spec c 57), (Z.leb_spec 65 c), (Z.leb_spec c 90),
      (Z.eqb_spec c 95); cbn in *; try done; lia.
  - destruct (Z.leb_spec 97 c), (Z.leb_spec c 122), (Z.leb_spec 48 c), (Z.leb_spec c 57), (Z.eqb_spec c 95); cbn in *; try done; lia.
Qed.

(** Metrics: whatever name it is given, a counter or gauge is kept under a name of
    lower-case letters, digits and underscores that starts with no digit and has at most
    48 characters, up to one final newline. *)
Theorem metric_names_well_formed name : well_formed_name (validate_name name).
Proof.
  unfold validate_name. destruct (match_at_start METRIC_NAME_PATTERN name) eqn:E1; [by apply name_pattern_spec|].
  destruct (match_at_start METRIC_NAME_PATTERN (clean_name name)) eqn:E2; [by apply name_pattern_spec|].
  destruct (clean_name_head name) as (c & l & -> & Hl & Hc). cbn [map take].
  eexists _, _. split; [by left|]. split; [by apply replaced_head|]. split; [|rewrite length_take; lia].
  apply Forall_take, Forall_fmap, Forall_true. intros x. cbn. by destruct (is_name_char x) eqn:E.
Qed.

(** * Accounting *)

Inductive metric_op :=
  | MIncrement (domain name : str) (value : Z)
  | MGauge (domain name : str) (value : pynum)
  | MEvent (event_name : str)
  | MSaturation (signal : str) (now : Z)
  | MRecovery (signal : str) (now : Z)
  | MFailure (error_code category : str)
  | MTick (operation : str)
  | MReset.

Definition run_metric (m : metrics) (o : metric_op) : metrics :=
  match o with
  | MIncrement d n v => increment_counter m d n v
  | MGauge d n v => set_gauge m d n v
  | MEvent n => record_event_seen m n
  | MSaturation s now => record_saturation_signal m s now
  | MRecovery s now => record_recovery_signal m s now
  | MFailure c k => record_failure m c k
  | MTick o => progress_tick m o
  | MReset => reset_metrics m
  end.

(** The domains whose counters the collector keeps itself. *)
Definition own_domains : list str := map lit ["saturation"; "recovery"; "failure"; "progress"].

Definition outside_op (o : metric_op) : Prop :=
  match o with MIncrement d _ _ => validate_domain d ∉ own_domains | _ => True end.

(** The sum of the counters of a domain. *)
Definition domain_total (domain : str) (d : list (str * Z)) : Z :=
  total (filter (λ p, starts_with (domain ++ lit ":") p.1 = true) d).

Lemma total_add k n d : total (add_count k n d) = total d + n.
Proof.
  unfold add_count, total. induction d as [|[k' v] d IH]; cbn; [lia|]. destruct (decide (k = k')); cbn; [lia|]. cbn in IH. lia.
Qed.

Lemma domain_total_add dom k n d :
  domain_total dom (add_count k n d) = domain_total dom d + (if starts_with (dom ++ lit ":") k then n else 0).
Proof.
  unfold domain_total, add_count, total. induction d as [|[k' v] d IH]; cbn [dict_get dict_set default].
  - destruct (starts_with (dom ++ lit ":") k) eqn:E.
    + rewrite filter_cons_True by done. cbn. lia.
    + rewrite filter_cons_False by (cbn; congruence). done.
  - destruct (decide (k = k')) as [->|Hne].
    + destruct (starts_with (dom ++ lit ":") k') eqn:E.
      * rewrite !filter_cons_True by done. cbn. lia.
      * rewrite !filter_cons_False by (cbn; congruence). lia.
    + destruct (starts_with (dom ++ lit ":") k') eqn:E.
      * rewrite !filter_cons_True by done. cbn in *. lia.
      * rewrite !filter_cons_False by (cbn; congruence). done.
Qed.

Lemma starts_with_app p r : starts_with p (p ++ r) = true.
Proof. unfold starts_with. apply bool_decide_eq_true. by rewrite take_app_length. Qed.

(** The counters of a domain are those of its keys. *)
Lemma metric_key_domain dom d name :
  dom ∈ METRIC_DOMAIN_SET → starts_with (dom ++ lit ":") (metric_key d name) = bool_decide (validate_domain d = dom).
Proof.
  intros Hdom. unfold metric_key.
  assert (validate_domain d ∈ METRIC_DOMAIN_SET) as Hd.
  { unfold validate_domain. destruct (decide (d ∈ METRIC_DOMAIN_SET)) as [Hin|Hin];
      [by rewrite bool_decide_true|rewrite bool_decide_false by done; apply (proj1 (bool_decide_eq_true _)); reflexivity]. }
  generalize dependent (validate_domain d). generalize (validate_name name). intros rest vd Hd.
  unfold METRIC_DOMAIN_SET in *. cbn [map] in *. rewrite !elem_of_cons, elem_of_nil in Hdom, Hd.
  destruct_or?; subst; try done; by rewrite ?bool_decide_true, ?app_assoc, ?starts_with_app by done.
Qed.

Lemma increment_domain m dom d name v :
  dom ∈ METRIC_DOMAIN_SET →
  domain_total dom (m_counters (increment_counter m d name v)) =
  domain_total dom (m_counters m) + (if bool_decide (validate_domain d = dom) then clamp_int v 0 1000000 else 0).
Proof. intros Hd. unfold increment_counter, with_counters. cbn [m_counters]. by rewrite domain_total_add, metric_key_domain. Qed.

(** The totals agree with the tables they are totals of. *)
Record accounted (m : metrics) : Prop := {
  acc_saturation : domain_total (lit "saturation") (m_counters m) = total (m_saturation m);
  acc_recovery : domain_total (lit "recovery") (m_counters m) = total (m_recovery m);
  acc_failures : domain_total (lit "failure") (m_counters m) = total (m_failures m);
  acc_progress : domain_total (lit "progress") (m_counters m) = m_progress_total m;
}.

Lemma in_domains dom : dom ∈ own_domains → dom ∈ METRIC_DOMAIN_SET.
Proof.
  unfold own_domains. cbn [map]. rewrite !elem_of_cons, elem_of_nil. intros Hd.
  apply (proj1 (bool_decide_eq_true _)). destruct_or?; subst; reflexivity || done.
Qed.

(** An increment by one in a domain of the collector's own. *)
Lemma increment_own m dom own name :
  dom ∈ own_domains → own ∈ own_domains →
  domain_total dom (m_counters (increment_counter m own name 1)) =
  domain_total dom (m_counters m) + (if bool_decide (own = dom) then 1 else 0).
Proof.
  intros Hd Ho. rewrite increment_domain by (by apply in_domains). unfold validate_domain.
  rewrite (bool_decide_true (own ∈ METRIC_DOMAIN_SET)) by (by apply in_domains). done.
Qed.

Lemma increment_outside m dom d name v :
  dom ∈ own_domains → validate_domain d ∉ own_domains →
  domain_total dom (m_counters (increment_counter m d name v)) = domain_total dom (m_counters m).
Proof.
  intros Hd Ho. rewrite increment_domain by (by apply in_domains).
  rewrite bool_decide_false by congruence. lia.
Qed.

Ltac own := apply (proj1 (bool_decide_eq_true _)); reflexivity.

(** The tables after a call that counts in the domain of its own. *)
Ltac count_own :=
  cbn [m_counters m_saturation m_recovery m_failures m_progress_total];
  rewrite increment_own by own; cbn -[total domain_total lit]; rewrite ?total_add;
  match goal with |- context [bool_decide (?a = ?b)] =>
    let v := eval vm_compute in (bool_decide (a = b)) in change (bool_decide (a = b)) with v end;
  cbn iota; cbn -[total domain_total lit]; lia.

Lemma accounted_step m o : outside_op o → accounted m → accounted (run_metric m o).
Proof.
  intros Ho [Hs Hr Hf Hp]. destruct o as [d n v|d n v|n|s now|s now|c k|op|]; cbn [run_metric].
  - cbn [outside_op] in Ho. split; (rewrite increment_outside; [done|own|done]).
  - by split.
  - by split.
  - unfold record_saturation_signal. split; count_own.
  - unfold record_recovery_signal. split; count_own.
  - unfold record_failure. split; count_own.
  - unfold progress_tick. split; count_own.
  - by split.
Qed.

(** Metrics: after any sequence of calls, with resets, in which nobody else counts in
    the collector's own domains, the counters of saturation, recovery and failure add up
    to the signals and failures recorded, and those of progress to the ticks. *)
Theorem metrics_accounted ops : Forall outside_op ops → accounted (foldl run_metric new_metrics ops).
Proof.
  assert (accounted new_metrics) as Hn by done. revert Hn. generalize new_metrics as m. intros m Hm Hops. revert m Hm.
  induction Hops as [|o ops Ho Hops IH]; intros m Hm; [done|]. cbn. by apply IH, accounted_step.
Qed.

(** * Witnesses *)
End names.

#[local] Instance sample_unicode : Unicode := plain_unicode.
#[local] Instance sample_alnum : Alnum := λ _, false.
#[local] Instance sample_alpha : Alpha := λ _, false.

Lemma metrics_accounted_witness :
  accounted (foldl run_metric new_metrics
    [MSaturation (lit "cpu_high") 5; MIncrement (lit "redaction") (lit "pii") 3; MFailure (lit "boom") (lit "x"); MTick (lit "t")]).
Proof.
  apply (metrics_accounted [MSaturation (lit "cpu_high") 5; MIncrement (lit "redaction") (lit "pii") 3;
                            MFailure (lit "boom") (lit "x"); MTick (lit "t")]).
  repeat constructor. apply (proj1 (bool_decide_eq_false _)). reflexivity.
Defined.
