(* ===== verification/LogProcessor.v ===== *)
(** The error telemetry of the analytics: [LogProcessor] of
    [backend/analytics/log_processor.py]: building a log entry from an error, checking that
    it is safe to export, and the bounded list of entries.  An exception is what the code
    reads of it: the name of its class, its texts and its formatted traceback.

    Shown: only entries that pass the export check are kept, and they still pass it
    afterwards; an entry built from an error has a bounded message, well-formed labels and
    an endpoint that passes; the list is bounded for ordinary entries but not for recorded
    errors; an entry whose message holds one of the leak words away from a marker is
    refused, which is every entry of many allowlisted events. *)
From Stdlib Require Import ZArith Lia.
From stdpp Require Import base decidable strings numbers list.
From S2P Require Import Prelude PyStr Json PyVal Sha256 MetadataErrors Logging Config Consent.
From S2P Require Import Regex Redaction AnalyticsEvents AnalyticsMetrics.

Open Scope Z_scope.

#[local] Arguments lit _ : simpl never.

Definition EXPORT_LOG_VERSION : str := lit "1.0.0".

Definition VALID_SEVERITIES : list str := map lit ["debug"; "info"; "warning"; "error"; "critical"; "fatal"].

Definition SAFE_LABEL_KEYS : list str := map lit
  ["endpoint"; "method"; "status"; "error_code"; "category"; "operation"; "retry_attempt"; "source"; "version";
   "schema"; "rollout"; "host"; "service"; "error_type"].

Definition LABEL_KEY_PATTERN : rx := name_pattern 31.

Definition DURABLE_LEAK_WORDS : list str := map lit
  ["video"; "media"; "upload"; "witness"; "proof"; "secret"; "credential"; "privatekey"; "private_key"; "privkey";
   "mnemonic"; "seedphrase"; "signature"; "wallet_signature"; "xdr"; "signedtx"; "signed_tx"; "authsignature";
   "auth_signature"; "ed25519signature"; "ed25519_signature"; "stellaresignature"; "stellar_signature"; "txsignature";
   "tx_signature"; "transactionenvelope"; "transaction_envelope"; "nullifier"; "nullifiers"; "commitment";
   "commitments"; "verificationkey"; "verification_key"; "provingkey"; "proving_key"; "password"; "passwd"; "pwd";
   "token"; "apikey"; "apisecret"; "name"; "email"; "phone"; "dob"; "birth"; "passport"; "governmentid"; "ssn";
   "idnumber"; "biometric"; "ip"].

Definition SENSITIVE_FIELD_HINTS : list str := map lit
  ["video"; "media"; "upload"; "uploaded_file"; "uploadedfile"; "file_content"; "filecontent"; "blob";
   "payload_content"; "base64_content"; "base64content"; "binary"; "raw_bytes"; "rawbytes"; "image"; "audio";
   "recording"; "screenshot"; "frame"; "frames"; "clip"; "witness"; "witnessness"; "witnessdata"; "witness_data";
   "witness_input"; "witnessinput"; "witnessvars"; "witness_vars"; "assignment"; "assignments"; "witness_assignment";
   "proof"; "proofdata"; "proof_data"; "proofpayload"; "proof_payload"; "prooffile"; "proof_file"; "pi";
   "witnessed_proof"; "zkproof"; "zk_proof"; "circuitproof"; "circuit_proof"; "verificationkey"; "verification_key";
   "vk"; "provingkey"; "proving_key"; "pk"; "public_inputs"; "publicinputs"; "private_inputs"; "privateinputs";
   "commitments"; "commitment"; "nullifier"; "nullifiers"; "signature"; "sig"; "wallet_signature"; "walletsig";
   "stellaresignature"; "stellar_signature"; "txsignature"; "tx_signature"; "xdr"; "signedtx"; "signed_tx";
   "transactionenvelope"; "transaction_envelope"; "authsignature"; "auth_signature"; "ed25519signature";
   "ed25519_signature"; "secret"; "credential"; "password"; "passwd"; "pwd"; "token"; "apikey"; "apisecret";
   "privatekey"; "private_key"; "privkey"; "mnemonic"; "seedphrase"; "seed_phrase"; "recoveryphrase";
   "recovery_phrase"; "access_key"; "accesskey"].

Record ErrorTelemetryConfig := MkTelemetry {
  max_stack_trace_lines_captured : nat;
  max_stack_trace_line_bytes : Z;
  max_message_summary_bytes : Z;
  max_labels_count : nat;
  max_counters_count : nat;
  max_total_entries_per_request : Z;
  allow_original_error_type_names : bool;
  require_export_safety_validation : bool;
  sensitive_error_type_names_to_mask : list (str * str);
}.

Definition default_telemetry : ErrorTelemetryConfig := {|
  max_stack_trace_lines_captured := 16; max_stack_trace_line_bytes := 256; max_message_summary_bytes := 512;
  max_labels_count := 32; max_counters_count := 32; max_total_entries_per_request := 256;
  allow_original_error_type_names := true; require_export_safety_validation := true;
  sensitive_error_type_names_to_mask :=
    [(lit "AuthenticationError", lit "auth_failure"); (lit "AuthorizationError", lit "forbidden");
     (lit "CryptoError", lit "crypto_failure_safe"); (lit "WalletSignatureError", lit "wallet_sig_failure_safe");
     (lit "ProofVerificationError", lit "proof_failure_safe"); (lit "WitnessDecodeError", lit "witness_failure_safe");
     (lit "MediaDecodeError", lit "media_failure_safe"); (lit "PrivateKeyError", lit "key_failure_safe")] |}.

(** [duration_seconds] is a number of no further interest. *)
Record LogEntry := MkEntry {
  entry_id : str;
  le_event_name : str;
  le_category : str;
  le_severity : str;
  le_timestamp : Z;
  message_summary : str;
  endpoint_pattern : str;
  le_method : str;
  le_status_code : option Z;
  le_error_type : option str;
  le_error_code : option str;
  le_error_safe : bool;
  le_correlation : option str;
  le_account : option str;
  le_session : option str;
  le_duration : option pynum;
  le_operation : option str;
  le_lifecycle : option str;
  le_labels : list (str * str);
  le_counters : list (str * Z);
  le_sanitized : bool;
  export_safe : bool;
  export_signature : option str;
}.

(** The error that is logged. *)
Inductive error_value :=
  | EException (type_name : str) (arg0 text : option str) (traceback : list str) (code : option str)
  | EText (s : str)
  | EOther (text : str).                        (* a dict, printed, or [str(error)] *)

(** [__post_init__] *)
Definition post_init (e : LogEntry) : LogEntry :=
  MkEntry (entry_id e) (le_event_name e) (le_category e)
    (if bool_decide (le_severity e ∈ VALID_SEVERITIES) then le_severity e else lit "info")
    (le_timestamp e) (cap_text (message_summary e) 512) (endpoint_pattern e) (le_method e) (le_status_code e) (le_error_type e)
    (le_error_code e) (le_error_safe e) (le_correlation e) (le_account e) (le_session e) (le_duration e) (le_operation e)
    (le_lifecycle e) (le_labels e) (le_counters e) (le_sanitized e) (export_safe e) (export_signature e).

Section processor.
  Context `{Unicode} `{Alnum}.

Definition any_in (words : list string) (text : str) : bool := existsb (λ w, contains (lit w) text) words.

Definition classify_severity (error : error_value) : str :=
  match error with
  | EException name _ _ _ _ =>
      let lowered := py_lower name in
      if any_in ["fatal"] lowered then lit "fatal"
      else if any_in ["critical"] lowered then lit "critical"
      else if any_in ["error"; "exception"; "fail"; "invalid"] lowered then lit "error"
      else if any_in ["warn"; "timeout"; "unauthorized"; "forbidden"; "notfound"] lowered then lit "warning"
      else lit "error"
  | _ => lit "info"
  end.

(** [s.rsplit(sep, 1)[-1]] *)
Definition after_last (sep : Z) (s : str) : str := reverse (before_sep sep (reverse s)).

Definition windows_path_repl (path : str) : str :=
  let name := if bool_decide (92 ∈ path) then after_last 92 path else path in
  let name := if negb (bool_decide (46 ∈ name)) && negb (bool_decide (47 ∈ name)) && negb (bool_decide (92 ∈ name))
              then if ends_with (lit ".py") name then name else name ++ lit ".py" else name in
  lit "<file:" ++ name ++ lit ">".

Definition posix_path_repl (path : str) : str :=
  lit "<file:" ++ (if bool_decide (47 ∈ path) then after_last 47 path else path) ++ lit ">".

(** A drive letter, a colon, a backslash and the class [[\\S]], which holds a backslash and an S. *)
Definition win_pat : rx :=
  cats [Cls (λ c, between 65 90 c || between 97 122 c); word (lit ":\"); at_least 1 (one_of (lit "\S"))].
Definition posix_pat : rx :=
  cats [word (lit "/"); at_least 1 (λ c, negb (py_space c || (c =? 34) || one_of (lit "':") c))].
Definition hex_text_pat : rx := cats [word (lit "0x"); at_least 12 is_hex].
Definition escape_pat : rx := Alt (cats [word (lit "\x"); Rep 2 (Cls is_hex)]) (cats [word (lit "\u"); Rep 4 (Cls is_hex)]).

Definition sanitize_stack_trace_line (cfg : ErrorTelemetryConfig) (line : str) : str :=
  let result := cap_text line (max_stack_trace_line_bytes cfg) in
  let result := sub win_pat windows_path_repl result in
  let result := sub posix_pat posix_path_repl result in
  let result := sub hex_text_pat (λ _, lit "[hex:redacted]") result in
  let result := sub escape_pat (λ _, lit ".") result in
  cap_text result (max_stack_trace_line_bytes cfg).

Definition label_key_is_valid (k : str) : bool :=
  bool_decide (k ∈ SAFE_LABEL_KEYS) || match_at_start LABEL_KEY_PATTERN k.

Definition filter_labels (cfg : ErrorTelemetryConfig) (labels : list (str * str)) : list (str * str) :=
  map (λ p, (p.1, cap_text p.2 256))
    (take (max_labels_count cfg) (filter (λ p, label_key_is_valid p.1 = true) labels)).

Definition filter_counters (cfg : ErrorTelemetryConfig) (counters : list (str * Z)) : list (str * Z) :=
  take (max_counters_count cfg) (filter (λ p, label_key_is_valid p.1 = true) counters).

(** * The export check *)

(** [len(s.encode("utf-8"))] *)
Definition strict_len (s : str) : result exn Z := match utf8_len s with Some n => Ok n | None => Err UnicodeError end.

(** The first label or counter that is refused. *)
Fixpoint bad_label (labels : list (str * str)) : result exn (option str) :=
  match labels with
  | [] => Ok None
  | (k, v) :: labels =>
      if negb (label_key_is_valid k) then Ok (Some (lit "invalid_label_key:" ++ k))
      else n ← strict_len v;
           if 256 <? n then Ok (Some (lit "label_value_too_long:" ++ k)) else bad_label labels
  end.

Definition bad_counter (counters : list (str * Z)) : option str :=
  (λ p, lit "invalid_counter_key:" ++ p.2.1) <$> list_find (λ p, label_key_is_valid p.1 = false) counters.

Definition hint_reason (labels : list (str * str)) (counters : list (str * Z)) (h : str) : option str :=
  if dict_has h labels then Some (lit "sensitive_hint_in_labels:" ++ h)
  else if dict_has h counters then Some (lit "sensitive_hint_in_counters:" ++ h)
  else None.

(** [msg[i:j]] for natural bounds *)
Definition window (msg : str) (i j : nat) : str := slice i j msg.

(** The word is at position [pos] of the lowered message, and no marker is near. *)
Definition leaks_at (msg lowered leak_word : str) (pos : nat) : bool :=
  starts_with leak_word (drop pos lowered)
  && negb (contains (lit "[REDACTED:") (window msg (pos - 40) (Nat.min (length msg) (pos + length leak_word + 40)))).

Definition leak_reason (msg : str) : option str :=
  let lowered := py_lower msg in
  (λ p, lit "leak_category_word:" ++ p.2)
    <$> list_find (λ w, existsb (leaks_at msg lowered w) (seq 0 (S (length lowered))) = true) DURABLE_LEAK_WORDS.

(** [option] to the list of reasons it adds *)
Definition reasons_of (o : option str) : list str := match o with Some r => [r] | None => [] end.

Definition first_some {A B} (f : A → option B) (l : list A) : option B :=
  foldr (λ a r, match f a with Some b => Some b | None => r end) None l.

Definition validate_log_export_safety (e : LogEntry) : result exn (list str) :=
  n ← strict_len (message_summary e);
  bad ← bad_label (le_labels e);
  Ok ((if 512 <? n then [lit "message_summary_too_long"] else [])
      ++ (if negb (is_already_redacted (message_summary e)) && bool_decide (is_Some (is_sensitive_value (message_summary e)))
          then [lit "message_contains_unredacted_sensitive_value"] else [])
      ++ (if negb (bool_decide (endpoint_pattern e = []))
             && negb (bool_decide (sanitize_endpoint_pattern (endpoint_pattern e) = endpoint_pattern e))
          then [lit "endpoint_pattern_not_sanitized"] else [])
      ++ (if 32 <? zlen (le_labels e) then [lit "labels_count_exceeded"] else [])
      ++ reasons_of bad
      ++ (if 32 <? zlen (le_counters e) then [lit "counters_count_exceeded"] else [])
      ++ reasons_of (bad_counter (le_counters e))
      ++ reasons_of (first_some (hint_reason (le_labels e) (le_counters e)) SENSITIVE_FIELD_HINTS)
      ++ reasons_of (leak_reason (message_summary e))).

(** The signature of an entry that passed. *)
Definition sign_entry (e : LogEntry) : result exn str :=
  let keys {A} (d : list (str * A)) := str_join (lit ",") (sort_items d).*1 in
  match utf8_encode (str_join (lit "|") [entry_id e; le_event_name e; message_summary e; keys (le_labels e); keys (le_counters e)]) with
  | None => Err UnicodeError
  | Some b => Ok (lit "sig-v1:" ++ take 12 (sha256_hex b))
  end.

Definition set_signature (e : LogEntry) (safe : bool) (sig : option str) : LogEntry :=
  MkEntry (entry_id e) (le_event_name e) (le_category e) (le_severity e) (le_timestamp e) (message_summary e)
    (endpoint_pattern e) (le_method e) (le_status_code e) (le_error_type e) (le_error_code e) (le_error_safe e)
    (le_correlation e) (le_account e) (le_session e) (le_duration e) (le_operation e) (le_lifecycle e) (le_labels e)
    (le_counters e) (le_sanitized e) safe sig.

(** The method of the same name: marks and signs an entry that passes. *)
Definition validate_and_sign (e : LogEntry) : result exn LogEntry :=
  reasons ← validate_log_export_safety e;
  match reasons with
  | [] => sig ← sign_entry e; Ok (set_signature e true (Some sig))
  | _ => Ok e
  end.

(** * Building an entry *)

(** The name of the class, or what stands for it. *)
Definition error_type_name (cfg : ErrorTelemetryConfig) (error : error_value) : option str :=
  match error with
  | EException name _ _ _ _ =>
      Some (default (if allow_original_error_type_names cfg then name else lit "error")
              (dict_get name (sensitive_error_type_names_to_mask cfg)))
  | _ => None
  end.

Definition raw_message (cfg : ErrorTelemetryConfig) (error : error_value) : str :=
  match error with
  | EException _ arg0 text traceback _ =>
      let message := match arg0 with Some ((_ :: _) as s) => s | _ => default [] text end in
      let tb := str_join [10] (map (sanitize_stack_trace_line cfg) (take (max_stack_trace_lines_captured cfg) traceback)) in
      match tb, message with
      | [], _ => message
      | _, [] => tb
      | _, _ => message ++ [10] ++ tb
      end
  | EText s | EOther s => s
  end.

(** [str(self._redaction_engine.sanitize(raw_message).data)] *)
Definition redacted_message (rcfg : RedactionConfig) (raw : str) : str :=
  match sanitize rcfg (DStr raw) None with
  | Ok o => match out_data o with DStr s => s | _ => [] end
  | Err _ => raw
  end.

Definition error_category (cfg : ErrorTelemetryConfig) (labels : list (str * str)) (error : error_value) : str :=
  match dict_get (lit "category") labels, error with
  | Some ((_ :: _) as c), _ => c
  | _, EException name _ _ _ _ =>
      let tn := py_lower name in
      if dict_has name (sensitive_error_type_names_to_mask cfg) then lit "safe_error"
      else if any_in ["auth"] tn then lit "auth"
      else if any_in ["proof"; "witness"; "verify"] tn then lit "verification"
      else if any_in ["crypto"; "key"; "wallet"; "sign"] tn then lit "crypto"
      else if any_in ["media"; "video"; "upload"; "file"] tn then lit "media"
      else lit "general"
  | _, _ => lit "unknown"
  end.

(** A label for a text that is not empty. *)
Definition label_if (k : string) (o : option str) : list (str * str) :=
  match o with Some ((_ :: _) as v) => [(lit k, v)] | _ => [] end.

Definition sanitize_error_context (cfg : ErrorTelemetryConfig) (rcfg : RedactionConfig) (error : error_value)
    (endpoint method : option str) (status_code : option Z) (operation : option str) (duration : option pynum)
    (correlation account session : option str) (extra_labels : list (str * str)) (extra_counters : list (str * Z))
    (id : str) (now : Z) : result exn LogEntry :=
  let type_name := error_type_name cfg error in
  let capped_msg := cap_text (redacted_message rcfg (raw_message cfg error)) (max_message_summary_bytes cfg) in
  let endpoint_sanitized := from_option sanitize_endpoint_pattern [] endpoint in
  let own_labels := label_if "endpoint" (Some endpoint_sanitized) ++ label_if "method" (py_upper <$> method)
                    ++ label_if "status" (dec_str <$> status_code) ++ label_if "error_type" type_name
                    ++ label_if "operation" operation in
  let labels_in := own_labels ++ filter (λ p, p.1 ∉ own_labels.*1) extra_labels in
  let labels := filter_labels cfg labels_in in
  let counters := filter_counters cfg extra_counters in
  let e := post_init (MkEntry id (default (lit "error_event") (dict_get (lit "operation") labels))
             (error_category cfg labels error) (classify_severity error) now capped_msg endpoint_sanitized
             (from_option py_upper [] method) status_code type_name
             (match error with EException _ _ _ _ (Some c) => Some (cap_text c 128) | _ => None end)
             (match type_name with
              | Some n => negb (bool_decide (n ∈ (sensitive_error_type_names_to_mask cfg).*2))
              | None => true
              end)
             correlation account session duration operation None labels counters true false None) in
  if require_export_safety_validation cfg then validate_and_sign e else Ok e.

(** * The list of entries *)

Record log_state := LogState {
  log_entries : list LogEntry;
  total_entries_processed : Z;
  export_safety_violations : Z;
  oversized_dropped : Z;
}.

Definition empty_log : log_state := LogState [] 0 0 0.

Definition same_entry (e e' : LogEntry) : bool :=
  bool_decide (le_event_name e = le_event_name e') && bool_decide (endpoint_pattern e = endpoint_pattern e')
  && bool_decide (le_method e = le_method e') && bool_decide (le_status_code e = le_status_code e').

(** [l[-n:]] *)
Definition last_n {A} (n : nat) (l : list A) : list A := drop (length l - n) l.

(** [ingest]; the answer is the reason of a refusal. *)
Definition ingest_entry (cfg : ErrorTelemetryConfig) (st : log_state) (e : LogEntry) (allow_duplicate : bool)
    : result exn (log_state * option str) :=
  reasons ← validate_log_export_safety e;
  match reasons with
  | _ :: _ =>
      Ok (LogState (log_entries st) (total_entries_processed st) (export_safety_violations st + 1) (oversized_dropped st),
          Some (lit "export_safety_violation:" ++ str_join (lit ";") (take 3 reasons)))
  | [] =>
      if (max_total_entries_per_request cfg <=? zlen (log_entries st)) && negb allow_duplicate
      then Ok (LogState (log_entries st) (total_entries_processed st) (export_safety_violations st) (oversized_dropped st + 1),
               Some (lit "max_entries_exceeded"))
      else if negb allow_duplicate && existsb (λ x, same_entry x e) (last_n 32 (log_entries st))
      then Ok (st, Some (lit "duplicate_entry"))
      else Ok (LogState (log_entries st ++ [e]) (total_entries_processed st + 1) (export_safety_violations st)
                 (oversized_dropped st), None)
  end.

(** A sequence of attempts; one that raises leaves the list as it is. *)
Definition try_ingest (cfg : ErrorTelemetryConfig) (st : log_state) (a : LogEntry * bool) : log_state :=
  match ingest_entry cfg st a.1 a.2 with Ok (st', _) => st' | Err _ => st end.

Lemma ingest_entries cfg st e b st' r :
  ingest_entry cfg st e b = Ok (st', r) →
  (log_entries st' = log_entries st ∧ total_entries_processed st' = total_entries_processed st ∧ r ≠ None) ∨
  (log_entries st' = log_entries st ++ [e] ∧ total_entries_processed st' = total_entries_processed st + 1 ∧ r = None ∧
   validate_log_export_safety e = Ok [] ∧ (b = false → zlen (log_entries st) < max_total_entries_per_request cfg)).
Proof.
  unfold ingest_entry. intros (reasons & Hv & Hi)%bind_ok. destruct reasons as [|r0 reasons].
  - destruct (Z.leb_spec (max_total_entries_per_request cfg) (zlen (log_entries st))), b; cbn [andb negb] in Hi;
      [|by injection Hi as <- <-; left| |]; try (destruct (existsb _ _); [by injection Hi as <- <-; left|]);
      injection Hi as <- <-; right; by split_and!.
  - injection Hi as <- <-. by left.
Qed.

(** Logs: after any sequence of ingested entries, every kept entry passes the export
    check, the counter of processed entries is the number kept, and when no duplicates
    were allowed the list is within its bound. *)
Theorem kept_entries_are_safe cfg attempts :
  let st := foldl (try_ingest cfg) empty_log attempts in
  Forall (λ e, validate_log_export_safety e = Ok []) (log_entries st) ∧
  total_entries_processed st = zlen (log_entries st) ∧
  (0 ≤ max_total_entries_per_request cfg → Forall (λ a, a.2 = false) attempts →
   zlen (log_entries st) ≤ max_total_entries_per_request cfg).
Proof.
  cbv zeta. induction attempts as [|[e b] attempts IH] using rev_ind; [by split_and!|]. rewrite foldl_app. cbn [foldl].
  destruct IH as (Hs & Hn & Hb). set (st := foldl (try_ingest cfg) empty_log attempts) in *. unfold try_ingest. cbn [fst snd].
  destruct (ingest_entry cfg st e b) as [[st' r]|err] eqn:E.
  - apply ingest_entries in E as [(-> & -> & _)|(-> & -> & _ & Hv & Hlt)].
    + split_and!; [done..|]. intros H1 [H2 _]%Forall_app. auto.
    + split_and!; [by apply Forall_app; split; [|constructor]|rewrite Hn, zlen_app; done|].
      intros Hm [_ Ha]%Forall_app. apply Forall_cons in Ha as [Ha _]. cbn in Ha. rewrite zlen_app. change (zlen [e]) with 1. specialize (Hlt Ha). lia.
  - split_and!; [done..|]. intros Hm [Ha _]%Forall_app. auto.
Qed.

(** Logs: recorded errors, which are ingested with duplicates allowed, are kept
    without a bound: the same entry is kept as often as it is recorded. *)
Theorem recorded_errors_unbounded cfg st e n :
  validate_log_export_safety e = Ok [] →
  log_entries (foldl (try_ingest cfg) st (replicate n (e, true))) = log_entries st ++ replicate n e.
Proof.
  intros Hv. revert st. induction n as [|n IH]; intros st; cbn [replicate foldl]; [by rewrite app_nil_r|].
  rewrite IH. unfold try_ingest, ingest_entry. cbn [fst snd]. rewrite Hv, bind_Ok, andb_false_r. cbn [negb andb log_entries].
  by rewrite <- app_assoc.
Qed.

(** * Built entries *)

(** What the export check asks of the shape of an entry. *)
Record well_shaped (e : LogEntry) : Prop := {
  ws_message : zlen (encode_replace (message_summary e)) ≤ 512;
  ws_endpoint : sanitize_endpoint_pattern (endpoint_pattern e) = endpoint_pattern e;
  ws_labels : zlen (le_labels e) ≤ 32;
  ws_label : Forall (λ p, label_key_is_valid p.1 = true ∧ zlen (encode_replace p.2) ≤ 256) (le_labels e);
  ws_counters : zlen (le_counters e) ≤ 32;
  ws_counter : Forall (λ p, label_key_is_valid p.1 = true) (le_counters e);
  ws_severity : le_severity e ∈ VALID_SEVERITIES;
}.

Lemma encode_replace_strict s n : utf8_len s = Some n → zlen (encode_replace s) = n.
Proof.
  unfold utf8_len. intros (b & Hb & ->)%fmap_Some. f_equal. revert b Hb. unfold encode_replace.
  induction s as [|c s IH]; intros b; [by intros [= <-]|]. rewrite utf8_encode_cons. cbn.
  destruct (utf8_char c) as [x|]; [|done]. destruct (utf8_encode s) as [y|]; [|done]. intros [= <-]. cbn. by rewrite (IH y).
Qed.

Lemma filter_labels_ok cfg labels :
  (max_labels_count cfg ≤ 32)%nat →
  zlen (filter_labels cfg labels) ≤ 32 ∧
  Forall (λ p, label_key_is_valid p.1 = true ∧ zlen (encode_replace p.2) ≤ 256) (filter_labels cfg labels).
Proof.
  intros Hm. unfold filter_labels. split.
  - unfold zlen. rewrite length_map, length_take. lia.
  - apply Forall_fmap, Forall_take, Forall_forall. intros p [Hp _]%list_elem_of_filter. cbn. split; [done|by apply cap_text_bound].
Qed.

Lemma filter_counters_ok cfg counters :
  (max_counters_count cfg ≤ 32)%nat →
  zlen (filter_counters cfg counters) ≤ 32 ∧ Forall (λ p, label_key_is_valid p.1 = true) (filter_counters cfg counters).
Proof.
  intros Hm. unfold filter_counters. split; [unfold zlen; rewrite length_take; lia|].
  apply Forall_take, Forall_forall. by intros p [Hp _]%list_elem_of_filter.
Qed.

Lemma well_shaped_signature e safe sig : well_shaped e → well_shaped (set_signature e safe sig).
Proof. intros [Hm He Hl Hl' Hc Hc' Hs]. by split. Qed.

Lemma sign_shape e e' : validate_and_sign e = Ok e' → well_shaped e → well_shaped e'.
Proof.
  unfold validate_and_sign. intros (reasons & _ & Hr)%bind_ok Hw. destruct reasons; [|by injection Hr as <-].
  apply bind_ok in Hr as (sig & _ & Hr). injection Hr as <-. by apply well_shaped_signature.
Qed.

(** Logs: an entry built from any error, with the limits of the default configuration
    or lower ones, has the shape the export check asks for: a message of at most 512
    bytes, at most 32 labels and counters with well-formed names, label values of at most
    256 bytes, an endpoint that is its own sanitized form and a known severity. *)
Theorem built_entry_well_shaped cfg rcfg error endpoint method status operation duration corr account session labels counters id now e :
  (max_labels_count cfg ≤ 32)%nat → (max_counters_count cfg ≤ 32)%nat →
  sanitize_error_context cfg rcfg error endpoint method status operation duration corr account session labels counters id now = Ok e →
  well_shaped e.
Proof.
  intros Hml Hmc. unfold sanitize_error_context.
  match goal with |- context [filter_labels cfg ?x] => pose proof (filter_labels_ok cfg x Hml) as [Hl Hl']; revert Hl Hl';
    generalize (filter_labels cfg x) end. intros ls Hl Hl'.
  pose proof (filter_counters_ok cfg counters Hmc) as [Hc Hc'].
  match goal with |- context [post_init ?x] => set (raw := x) end. intros Hok.
  assert (well_shaped (post_init raw)) as Hw.
  { split; try done; cbn.
    - by apply cap_text_bound.
    - destruct endpoint as [ep|]; cbn; [apply endpoint_sanitizing_idempotent|reflexivity].
    - destruct (decide (classify_severity error ∈ VALID_SEVERITIES)); [by rewrite bool_decide_true|].
      rewrite bool_decide_false by done. apply (proj1 (bool_decide_eq_true _)). reflexivity. }
  destruct (require_export_safety_validation cfg); [by eapply sign_shape|]. by injection Hok as <-.
Qed.

(** * Leak words *)

Lemma contains_slice p i j s : contains p (slice i j s) = true → contains p s = true.
Proof.
  rewrite !contains_spec. unfold slice. intros (a & b & Hs).
  exists (take i s ++ a), (b ++ drop (j - i) (drop i s)).
  rewrite <- (take_drop i s) at 1. rewrite <- (take_drop (j - i) (drop i s)) at 1. rewrite Hs. by rewrite <- !app_assoc.
Qed.

Lemma list_find_none {A} (P : A → Prop) `{!∀ x, Decision (P x)} x l : x ∈ l → P x → list_find P l ≠ None.
Proof. intros Hx HP Hn%list_find_None. eapply Forall_forall in Hn; [|exact Hx]. done. Qed.

Lemma leak_word_found msg w :
  w ∈ DURABLE_LEAK_WORDS → contains w (py_lower msg) = true → contains (lit "[REDACTED:") msg = false → leak_reason msg ≠ None.
Proof.
  intros Hw (a & b & Hab)%contains_spec Hr. unfold leak_reason. intros Hn%fmap_None. revert Hn. apply (list_find_none _ w); [done|].
  apply existsb_exists. exists (length a). split.
  { apply in_seq. rewrite Hab, length_app. lia. }
  unfold leaks_at. rewrite Hab, drop_app_length, starts_with_app. cbn [andb].
  destruct (contains (lit "[REDACTED:") (window msg _ _)) eqn:E; [|done]. apply contains_slice in E. congruence.
Qed.

(** Logs: an entry whose message holds one of the leak words, in any case and as part
    of any word, and no marker, is never kept: it is refused, or the check raises. *)
Theorem leaky_message_refused cfg st e b w st' r :
  w ∈ DURABLE_LEAK_WORDS → contains w (py_lower (message_summary e)) = true →
  contains (lit "[REDACTED:") (message_summary e) = false →
  ingest_entry cfg st e b = Ok (st', r) → r ≠ None ∧ log_entries st' = log_entries st.
Proof.
  intros Hw Hc Hr Hi. apply ingest_entries in Hi as [(He & _ & Hn)|(_ & _ & _ & Hv & _)]; [done|]. exfalso.
  apply (leak_word_found _ w) in Hr; [|done..]. unfold validate_log_export_safety in Hv.
  apply bind_ok in Hv as (n & _ & Hv). apply bind_ok in Hv as (bad & _ & Hv). injection Hv as Hv.
  repeat match type of Hv with _ ++ _ = [] => apply app_nil in Hv as [_ Hv] end.
  destruct (leak_reason (message_summary e)); [discriminate|done].
Qed.
End processor.

#[local] Instance sample_unicode : Unicode := plain_unicode.
#[local] Instance sample_alnum : Alnum := λ _, false.

(** Logs: a path with a drive letter in a traceback is not masked: after the colon and
    the backslash the pattern accepts only backslashes and the letter S. *)
Theorem windows_path_not_masked :
  sanitize_stack_trace_line default_telemetry (lit "File C:\Users\alice\vault.py, line 7") =
  lit "File C:\Users\alice\vault.py, line 7".
Proof. vm_compute. reflexivity. Qed.

(** * Witnesses *)

(** The entry of an event, as the engine builds it. *)
Definition entry_of (name : string) : result exn LogEntry :=
  sanitize_error_context default_telemetry default_redaction (EText (lit name)) (Some (lit "/api/Health/0123456789abcdef"))
    (Some (lit "get")) (Some 200) (Some (lit "not_started")) None None None None [(lit "category", lit "x")] [] (lit "eid-v1:0") 5.

Definition no_entry : LogEntry := MkEntry [] [] [] (lit "info") 0 [] [] [] None None None true None None None None None None [] [] false false None.

Definition sample_entry : LogEntry := from_ok no_entry (entry_of "system.startup").

Lemma sample_entry_ok : validate_log_export_safety sample_entry = Ok [].
Proof. vm_compute. reflexivity. Qed.

Lemma recorded_errors_unbounded_witness :
  zlen (log_entries (foldl (try_ingest default_telemetry) empty_log (replicate 300 (sample_entry, true)))) = 300.
Proof.
  rewrite (recorded_errors_unbounded default_telemetry empty_log sample_entry 300 sample_entry_ok). cbn [log_entries empty_log app].
  unfold zlen. by rewrite length_replicate.
Defined.

Lemma built_entry_well_shaped_witness : well_shaped sample_entry.
Proof.
  apply (built_entry_well_shaped default_telemetry default_redaction (EText (lit "system.startup"))
    (Some (lit "/api/Health/0123456789abcdef")) (Some (lit "get")) (Some 200) (Some (lit "not_started")) None None None None
    [(lit "category", lit "x")] [] (lit "eid-v1:0") 5 sample_entry); [cbn; lia..|].
  change (entry_of "system.startup" = Ok (from_ok no_entry (entry_of "system.startup"))). apply from_ok_spec. vm_compute. reflexivity.
Defined.

Definition media_entry : LogEntry := from_ok no_entry (entry_of "media.upload_started").

Lemma leaky_message_refused_witness :
  match ingest_entry default_telemetry empty_log media_entry false with
  | Ok (st', r) => r ≠ None ∧ log_entries st' = []
  | Err _ => False
  end.
Proof.
  destruct (ingest_entry _ _ _ _) as [[st' r]|e] eqn:E; [|by vm_compute in E].
  apply (leaky_message_refused default_telemetry empty_log media_entry false (lit "media") st' r); [|by vm_compute..|exact E].
  apply (proj1 (bool_decide_eq_true _)). vm_compute. reflexivity.
Defined.
