(* ===== verification/ExportManager.v ===== *)
(** Exports of the analytics logs: [LogProcessor.export_json_logs] of
    [backend/analytics/log_processor.py] and [backend/analytics/export_manager.py].
    Compression is the class [Gzip]; the texts of floating-point numbers are the class
    [FloatRepr].

    Shown: an export is the longest prefix of the entries that fits, or one entry; every
    exported entry passes the export check; an export without a verified token carries no
    entry, but its signature is still that of all the entries; the artifacts kept in
    memory and the queue that orders them agree and are bounded, whatever sequence of
    exports and deletions happens. *)
From Stdlib Require Import ZArith Lia.
From stdpp Require Import base decidable strings numbers list.
From S2P Require Import Prelude PyStr Json PyVal Codec Sha256 MetadataErrors Logging Config.
From S2P Require Import Consent Regex Redaction AnalyticsEvents AnalyticsMetrics LogProcessor.

Open Scope Z_scope.

#[local] Arguments lit _ : simpl never.

Class Gzip := gzip_compress : bytes → bytes.

Class FloatRepr := { float_time : Z → pyfloat; float_num : pynum → pyfloat }.

(** * Serializing entries *)

Definition opt_value (o : option str) : pyval := match o with Some s => PStr s | None => PNone end.

Definition entry_dict `{FloatRepr} (e : LogEntry) : pyval :=
  PDict [(lit "entry_id", PStr (entry_id e)); (lit "schema_version", PStr EXPORT_LOG_VERSION);
         (lit "event_name", PStr (le_event_name e)); (lit "category", PStr (le_category e));
         (lit "severity", PStr (le_severity e)); (lit "timestamp_epoch_seconds", PFloat (float_time (le_timestamp e)));
         (lit "message_summary", PStr (message_summary e)); (lit "endpoint_pattern", PStr (endpoint_pattern e));
         (lit "method", PStr (le_method e)); (lit "status_code", from_option PInt PNone (le_status_code e));
         (lit "error_type", opt_value (le_error_type e)); (lit "error_code", opt_value (le_error_code e));
         (lit "error_safe", PBool (le_error_safe e)); (lit "correlation_id_tag", opt_value (le_correlation e));
         (lit "account_id_tag", opt_value (le_account e)); (lit "session_id_tag", opt_value (le_session e));
         (lit "duration_seconds", from_option (λ d, PFloat (float_num d)) PNone (le_duration e));
         (lit "operation_status", opt_value (le_operation e)); (lit "lifecycle_state", opt_value (le_lifecycle e));
         (lit "labels", PDict (map (λ p, (p.1, PStr p.2)) (le_labels e)));
         (lit "counters", PDict (map (λ p, (p.1, PInt p.2)) (le_counters e)));
         (lit "sanitized", PBool (le_sanitized e)); (lit "export_safe", PBool (export_safe e));
         (lit "export_signature", opt_value (export_signature e)); (lit "source", PStr (lit "backend"));
         (lit "annotations", PDict [])].

Definition render `{FloatRepr} `{Gzip} (compress : bool) (entries : list LogEntry) : str :=
  let serialized := json_dumps true (PList (map entry_dict entries)) in
  if compress then b2a (b64_char 43 47) (gzip_compress serialized) else serialized.

(** [working.sort(key=timestamp)], which is stable. *)
Fixpoint insert_by_time (e : LogEntry) (l : list LogEntry) : list LogEntry :=
  match l with
  | [] => [e]
  | e' :: l' => if le_timestamp e <=? le_timestamp e' then e :: l else e' :: insert_by_time e l'
  end.
Definition sort_by_time (l : list LogEntry) : list LogEntry := foldr insert_by_time [] l.

(** The [while] loop: drops the last entry until the text fits or one is left. *)
Fixpoint fit `{FloatRepr} `{Gzip} (compress : bool) (max_bytes : Z) (entries : list LogEntry) (n : nat) : str * nat :=
  let output := render compress (take n entries) in
  if (zlen output <=? max_bytes) || (n <=? 1)%nat then (output, n)
  else match n with O => (output, n) | S n => fit compress max_bytes entries n end.

Section exports.
  Context `{Unicode} `{Alnum} `{FloatRepr} `{Gzip}.

(** The entry, no longer marked safe when it fails the check. *)
Definition recheck (e : LogEntry) : result exn LogEntry :=
  reasons ← validate_log_export_safety e;
  Ok match reasons with [] => e | _ => set_signature e false None end.

Definition export_json_logs (entries : list LogEntry) (compress : bool) (max_entries : nat) (max_bytes : Z)
    : result exn (str * nat) :=
  final ← result_mapM recheck (sort_by_time (take max_entries entries));
  Ok (fit compress max_bytes final (length final)).

(** * The manager *)

Record ExportPolicy := MkPolicy {
  max_artifacts_per_export : nat;
  max_artifact_bytes : Z;
  compress_default : bool;
  include_sampled_out_events : bool;
  require_export_token : bool;
  allow_unauthenticated_export_shadow_mode : bool;
  export_id_prefix : str;
  require_safety_signature : bool;
  safety_signature_prefix : str;
}.

Definition EXPORT_POLICY_DEFAULT : ExportPolicy := {|
  max_artifacts_per_export := 64; max_artifact_bytes := 4194304; compress_default := false;
  include_sampled_out_events := false; require_export_token := true; allow_unauthenticated_export_shadow_mode := true;
  export_id_prefix := lit "exp-v1:"; require_safety_signature := true; safety_signature_prefix := lit "sig-v1:" |}.

Record ExportArtifact := MkArtifact {
  artifact_id : str;
  generated_at : Z;
  entry_count : nat;
  payload_bytes : Z;
  art_compress : bool;
  exported_by_tag : option str;
  safety_signature : option str;
  checksum : str;
  art_rollout_phase : str;
}.

Record export_state := ExportState { artifacts : list (str * ExportArtifact); artifact_queue : list str }.

(** [generate_export_id], with the random bytes and the text of the time. *)
Definition generate_export_id (p : ExportPolicy) (random : bytes) (timestamp : str) : str :=
  export_id_prefix p ++ take 16 (sha256_hex (random ++ timestamp)).

Fixpoint insert_by_id (e : LogEntry) (l : list LogEntry) : list LogEntry :=
  match l with
  | [] => [e]
  | e' :: l' => if str_leb (entry_id e) (entry_id e') then e :: l else e' :: insert_by_id e l'
  end.

Definition compute_safety_signature (p : ExportPolicy) (entries : list LogEntry) : result exn str :=
  let parts := map (λ e, entry_id e ++ lit ":" ++ (match export_signature e with Some ((_ :: _) as s) => s | _ => lit "0" end))
                 (foldr insert_by_id [] entries) in
  match utf8_encode (str_join (lit "|") parts) with
  | None => Err UnicodeError
  | Some b => Ok (safety_signature_prefix p ++ take 12 (sha256_hex b))
  end.

(** [[e for e in entries if validate_log_export_safety(e)[0]]] *)
Fixpoint passing (entries : list LogEntry) : result exn (list LogEntry) :=
  match entries with
  | [] => Ok []
  | e :: entries =>
      reasons ← validate_log_export_safety e;
      rest ← passing entries;
      Ok match reasons with [] => e :: rest | _ => rest end
  end.

(** The entries that may be exported. *)
Definition exportable (p : ExportPolicy) (entries : list LogEntry) : result exn (list LogEntry) :=
  passing (if include_sampled_out_events p then entries else filter (λ e, export_safe e = true) entries).

Definition signature_for (p : ExportPolicy) (entries : list LogEntry) : result exn (option str) :=
  if require_safety_signature p && forallb export_safe entries then Some <$> compute_safety_signature p entries else Ok None.

(** The artifact kept in memory, with the oldest evicted when the memory is full. *)
Definition store_artifact (max_memory : Z) (st : export_state) (a : ExportArtifact) : export_state :=
  let st := if max_memory <=? zlen (artifacts st)
            then match artifact_queue st with
                 | oldest :: queue => ExportState (dict_del oldest (artifacts st)) queue
                 | [] => st
                 end
            else st in
  ExportState (dict_set (artifact_id a) a (artifacts st)) (artifact_queue st ++ [artifact_id a]).

Definition create_export (p : ExportPolicy) (max_memory : Z) (st : export_state) (entries : list LogEntry)
    (by_tag : option str) (compress : option bool) (rollout_phase : str) (export_token_verified : bool) (id : str) (now : Z)
    : result exn (export_state * (option ExportArtifact * str * nat)) :=
  if negb export_token_verified && require_export_token p && negb (allow_unauthenticated_export_shadow_mode p)
  then Ok (st, (None, lit "export_token_required", O))
  else
    filtered ← exportable p entries;
    safety_sig ← signature_for p filtered;
    let exported := take (max_artifacts_per_export p) (if export_token_verified then filtered else []) in
    let use_compress := default (compress_default p) compress in
    '(serialized, count) ← export_json_logs exported use_compress (max_artifacts_per_export p) (max_artifact_bytes p);
    let artifact := MkArtifact id now count (zlen serialized) use_compress
                      (if export_token_verified then by_tag else None) safety_sig (take 16 (sha256_hex serialized)) rollout_phase in
    Ok (store_artifact max_memory st artifact, (Some artifact, serialized, count)).

Definition get_artifact (st : export_state) (id : str) : option ExportArtifact := dict_get id (artifacts st).

Definition list_artifacts (st : export_state) (limit : nat) : list ExportArtifact :=
  take limit (omap (λ id, dict_get id (artifacts st)) (reverse (artifact_queue st))).

Definition delete_artifact (st : export_state) (id : str) : export_state * bool :=
  if dict_has id (artifacts st)
  then (ExportState (dict_del id (artifacts st)) (filter (λ q, q ≠ id) (artifact_queue st)), true)
  else (st, false).

Definition reset_exports (st : export_state) : export_state := ExportState [] [].

(** * Fitting *)

Lemma fit_spec compress max_bytes entries n out k :
  fit compress max_bytes entries n = (out, k) →
  (k ≤ n)%nat ∧ out = render compress (take k entries) ∧ (zlen out ≤ max_bytes ∨ (k ≤ 1)%nat) ∧
  ∀ m, (k < m ≤ n)%nat → max_bytes < zlen (render compress (take m entries)).
Proof.
  revert out k. induction n as [|n IH]; intros out k; cbn [fit].
  - rewrite orb_true_r. intros [= <- <-]. split_and!; [done..|right; lia|lia].
  - destruct (Z.leb_spec (zlen (render compress (take (S n) entries))) max_bytes) as [Hle|Hgt]; cbn [orb].
    + intros [= <- <-]. split_and!; [lia|done|by left|lia].
    + destruct (Nat.leb_spec (S n) 1) as [Hn1|Hn1].
      * intros [= <- <-]. split_and!; [lia|done|right; lia|lia].
      * intros Hf. destruct (IH out k Hf) as (Hk & Ho & Hb & Hm). split_and!; [lia|done|done|].
        intros m Hmk. destruct (decide (m = S n)) as [->|]; [done|]. apply Hm. lia.
Qed.

Lemma insert_time_perm e l : insert_by_time e l ≡ₚ e :: l.
Proof.
  induction l as [|e' l IH]; [done|]. cbn. destruct (le_timestamp e <=? le_timestamp e'); [done|]. rewrite IH. apply Permutation_swap.
Qed.

Lemma sort_time_perm l : sort_by_time l ≡ₚ l.
Proof. induction l as [|e l IH]; [done|]. cbn. by rewrite insert_time_perm, IH. Qed.

Lemma export_fit entries compress max_entries max_bytes out k final :
  result_mapM recheck (sort_by_time (take max_entries entries)) = Ok final →
  export_json_logs entries compress max_entries max_bytes = Ok (out, k) → fit compress max_bytes final (length final) = (out, k).
Proof. intros Hf. unfold export_json_logs. rewrite Hf, bind_Ok. congruence. Qed.

(** Exports: the text of an export is that of the longest run of the oldest entries,
    of the first [max_entries], that fits within the byte limit; it is over the limit
    only when one entry alone is. *)
Theorem export_is_longest_fit entries compress max_entries max_bytes out k final :
  result_mapM recheck (sort_by_time (take max_entries entries)) = Ok final →
  export_json_logs entries compress max_entries max_bytes = Ok (out, k) →
  (k ≤ length final)%nat ∧ out = render compress (take k final) ∧ (zlen out ≤ max_bytes ∨ (k ≤ 1)%nat) ∧
  ∀ m, (k < m ≤ length final)%nat → max_bytes < zlen (render compress (take m final)).
Proof. intros Hf Hx. eapply fit_spec, export_fit; [exact Hf|exact Hx]. Qed.

(** * What is exported *)

Lemma passing_safe entries l : passing entries = Ok l → Forall (λ e, validate_log_export_safety e = Ok []) l ∧ l `sublist_of` entries.
Proof.
  revert l. induction entries as [|e entries IH]; intros l; cbn [passing].
  - intros Heq. injection Heq as <-. split; [constructor|done].
  - intros (reasons & Hr & (rest & Hrest & Heq)%bind_ok)%bind_ok. injection Heq as <-. destruct (IH rest Hrest) as [Hs Hl].
    destruct reasons; [split; [by constructor|by apply sublist_skip]|split; [done|by apply sublist_cons]].
Qed.

Lemma recheck_safe l : Forall (λ e, validate_log_export_safety e = Ok []) l → result_mapM recheck l = Ok l.
Proof.
  induction 1 as [|e l He Hl IH]; [done|]. cbn [result_mapM].
  assert (recheck e = Ok e) as -> by (unfold recheck; by rewrite He, bind_Ok). by rewrite bind_Ok, IH, bind_Ok.
Qed.

(** Exports: a verified export carries exactly a prefix, by time, of the first entries
    that are marked safe and pass the export check, unchanged; one that is not verified
    carries none. *)
Theorem exported_entries_are_safe p max_memory st entries by_tag compress phase verified id now st' a out k :
  create_export p max_memory st entries by_tag compress phase verified id now = Ok (st', (Some a, out, k)) →
  ∃ l, Forall (λ e, validate_log_export_safety e = Ok []) l ∧ (∀ e, e ∈ l → e ∈ entries) ∧
    (length l ≤ max_artifacts_per_export p)%nat ∧ (verified = false → l = []) ∧
    (k ≤ length l)%nat ∧ entry_count a = k ∧ out = render (art_compress a) (take k l).
Proof.
  unfold create_export. destruct (_ && _ && _); [done|]. intros (filtered & Hf & Hc)%bind_ok.
  apply bind_ok in Hc as (sig & _ & Hc). apply bind_ok in Hc as ([ser count] & Hser & Hc). injection Hc as <- <- <- <-.
  set (exported := take (max_artifacts_per_export p) (if verified then filtered else [])) in *.
  destruct (passing_safe _ _ Hf) as [Hs Hsub].
  assert (Forall (λ e, validate_log_export_safety e = Ok []) exported) as Hes by (apply Forall_take; destruct verified; [done|constructor]).
  assert (length exported ≤ max_artifacts_per_export p)%nat as Hlen by (unfold exported; rewrite length_take; lia).
  set (l := sort_by_time (take (max_artifacts_per_export p) exported)).
  assert (l ≡ₚ exported) as Hp by (unfold l; rewrite sort_time_perm; by rewrite take_ge).
  assert (Forall (λ e, validate_log_export_safety e = Ok []) l) as Hl by (by rewrite Hp).
  apply (export_fit _ _ _ _ _ _ l), fit_spec in Hser as (Hk & Ho & _); [|by apply recheck_safe].
  exists l. split_and!; try done.
  - intros e He. rewrite Hp in He. unfold exported in He. eapply elem_of_sublist in He; [|apply sublist_take].
    destruct verified; [|by apply elem_of_nil in He]. eapply elem_of_sublist in He; [|exact Hsub].
    destruct (include_sampled_out_events p); [done|]. by apply list_elem_of_filter in He as [_ He].
  - by rewrite Hp.
  - intros ->. apply Permutation_nil_r. rewrite Hp. unfold exported. by rewrite take_nil.
Qed.

(** Exports: an export without a verified token carries no entry, yet its artifact
    carries the signature of all the entries that would have been exported. *)
Theorem unverified_export_signs_everything p max_memory st entries by_tag compress phase id now filtered sig :
  require_export_token p && negb (allow_unauthenticated_export_shadow_mode p) = false →
  exportable p entries = Ok filtered → signature_for p filtered = Ok sig →
  ∃ st' a, create_export p max_memory st entries by_tag compress phase false id now =
    Ok (st', (Some a, render (default (compress_default p) compress) [], O)) ∧ safety_signature a = sig ∧ exported_by_tag a = None.
Proof.
  intros Hp Hf Hs. unfold create_export. cbn [negb andb]. rewrite Hp, Hf, bind_Ok, Hs, bind_Ok, take_nil.
  unfold export_json_logs. rewrite take_nil. cbn [sort_by_time foldr result_mapM]. rewrite bind_Ok, bind_Ok. cbn [length fit].
  rewrite orb_true_r. by eexists _, _.
Qed.

(** * The artifacts in memory *)

Inductive export_op :=
  | XStore (a : ExportArtifact)
  | XDelete (id : str)
  | XReset.

Definition run_export (max_memory : Z) (st : export_state) (o : export_op) : export_state :=
  match o with
  | XStore a => store_artifact max_memory st a
  | XDelete id => (delete_artifact st id).1
  | XReset => reset_exports st
  end.

(** The queue lists the artifacts, each once, oldest first, within the bound. *)
Definition export_consistent (max_memory : Z) (st : export_state) : Prop :=
  (artifacts st).*1 = artifact_queue st ∧ NoDup (artifact_queue st) ∧ zlen (artifacts st) ≤ Z.max 1 max_memory.

Lemma dict_del_filter {A} k (d : list (str * A)) : (dict_del k d).*1 = filter (λ q, q ≠ k) d.*1.
Proof.
  induction d as [|[k' v] d IH]; [done|]. cbn [dict_del fmap list_fmap fst]. destruct (decide (k = k')) as [->|Hne].
  - rewrite filter_cons_False by (intros Hn; done). exact IH.
  - rewrite filter_cons_True by done. cbn. by f_equal.
Qed.

Lemma zlen_keys {A} (d : list (str * A)) : zlen d = zlen d.*1.
Proof. unfold zlen. by rewrite length_fmap. Qed.

Lemma store_consistent max_memory st a :
  export_consistent max_memory st → artifact_id a ∉ artifact_queue st →
  export_consistent max_memory (store_artifact max_memory st a).
Proof.
  intros (Hk & Hnd & Hb) Hf. unfold store_artifact.
  assert (∀ st', (artifacts st').*1 = artifact_queue st' → NoDup (artifact_queue st') → artifact_id a ∉ artifact_queue st' →
          zlen (artifacts st') < Z.max 1 max_memory →
          export_consistent max_memory (ExportState (dict_set (artifact_id a) a (artifacts st')) (artifact_queue st' ++ [artifact_id a]))) as Hadd.
  { intros st' Hk' Hnd' Hf' Hb'. split_and!; cbn.
    - rewrite dict_set_keys, Hk'. by rewrite decide_False.
    - apply NoDup_app. split_and!; [done| |apply NoDup_singleton]. intros x Hx ->%list_elem_of_singleton. done.
    - rewrite zlen_keys, dict_set_keys, Hk', decide_False by done. rewrite zlen_app, <- Hk', <- zlen_keys. change (zlen [artifact_id a]) with 1. lia. }
  destruct (Z.leb_spec max_memory (zlen (artifacts st))) as [Hle|Hlt]; [|apply Hadd; [done..|lia]].
  destruct (artifact_queue st) as [|oldest queue] eqn:Eq.
  - apply Hadd; rewrite ?Eq; [done|constructor|apply not_elem_of_nil|]. rewrite zlen_keys, Hk. unfold zlen. cbn [length]. lia.
  - apply NoDup_cons in Hnd as [Ho Hnd]. apply not_elem_of_cons in Hf as [_ Hf].
    assert ((dict_del oldest (artifacts st)).*1 = queue) as Hq.
    { rewrite dict_del_filter, Hk, filter_cons_False by (intros Hn; done). apply filter_all, Forall_forall. intros x Hx ->. done. }
    apply (Hadd (ExportState (dict_del oldest (artifacts st)) queue)); cbn; [done..|].
    rewrite zlen_keys, Hq. rewrite zlen_keys, Hk in Hb. unfold zlen in *. cbn [length] in Hb. lia.
Qed.

Lemma run_export_consistent max_memory st o :
  export_consistent max_memory st → (∀ a, o = XStore a → artifact_id a ∉ artifact_queue st) →
  export_consistent max_memory (run_export max_memory st o).
Proof.
  intros Hc Hf. destruct o as [a|id|]; cbn [run_export].
  - by apply store_consistent; [|apply Hf].
  - unfold delete_artifact. destruct (dict_has id (artifacts st)); [|done]. destruct Hc as (Hk & Hnd & Hb). split_and!; cbn.
    + by rewrite dict_del_filter, Hk.
    + by apply NoDup_filter.
    + rewrite zlen_keys, dict_del_filter, Hk. rewrite zlen_keys, Hk in Hb. unfold zlen in *.
      pose proof (length_filter (λ q, q ≠ id) (artifact_queue st)). lia.
  - split_and!; cbn [artifacts artifact_queue reset_exports]; [done|apply NoDup_nil_2|unfold zlen; cbn [length]; lia].
Qed.

(** Every artifact stored has an id that is not in use. *)
Fixpoint fresh_ids (max_memory : Z) (st : export_state) (ops : list export_op) : Prop :=
  match ops with
  | [] => True
  | o :: ops => (∀ a, o = XStore a → artifact_id a ∉ artifact_queue st) ∧ fresh_ids max_memory (run_export max_memory st o) ops
  end.

(** Exports: after any sequence of exports with fresh ids, deletions and resets, the
    queue lists exactly the artifacts in memory, each once, and their number is within
    the bound. *)
Theorem artifacts_bounded max_memory ops :
  fresh_ids max_memory (ExportState [] []) ops →
  export_consistent max_memory (foldl (run_export max_memory) (ExportState [] []) ops).
Proof.
  assert (export_consistent max_memory (ExportState [] [])) as Hc
    by (split_and!; cbn [artifacts artifact_queue]; [done|apply NoDup_nil_2|unfold zlen; cbn [length]; lia]).
  revert Hc. generalize (ExportState [] []) as st. induction ops as [|o ops IH]; intros st Hc Hf; [done|].
  destruct Hf as [Ho Hf]. cbn [foldl]. apply IH; [by apply run_export_consistent|done].
Qed.
End exports.

(** * Witnesses *)

#[local] Instance sample_unicode : Unicode := plain_unicode.
#[local] Instance sample_alnum : Alnum := λ _, false.
#[local] Instance sample_gzip : Gzip := λ b, b.
#[local] Instance sample_float : FloatRepr :=
  {| float_time := λ z, PyFloat (dec_str z) (dec_str z) (Ok z) (z =? 0); float_num := λ _, PyFloat [] [] (Ok 0) false |}.

Definition bare_entry : LogEntry := set_signature no_entry true (Some (lit "sig-v1:00")).

Definition two_entries : list LogEntry := [bare_entry; set_signature bare_entry true None].

Lemma export_is_longest_fit_witness :
  match export_json_logs two_entries false 64 800 with
  | Ok (out, k) => (k ≤ 2)%nat ∧ out = render false (take k two_entries) ∧ (zlen out ≤ 800 ∨ (k ≤ 1)%nat) ∧
                   ∀ m, (k < m ≤ 2)%nat → 800 < zlen (render false (take m two_entries))
  | Err _ => False
  end.
Proof.
  destruct (export_json_logs _ _ _ _) as [[out k]|e] eqn:E; [|by vm_compute in E].
  apply (export_is_longest_fit two_entries false 64 800 out k two_entries); [vm_compute; reflexivity|exact E].
Defined.

Definition sample_export : result exn (export_state * (option ExportArtifact * str * nat)) :=
  create_export EXPORT_POLICY_DEFAULT 1024 (ExportState [] []) two_entries None None (lit "shadow") true (lit "exp-v1:0") 7.

Lemma sample_export_made : match sample_export with Ok (_, (Some _, _, k)) => k = 2%nat | _ => False end.
Proof. vm_compute. reflexivity. Qed.

Lemma exported_entries_are_safe_witness :
  match sample_export with
  | Ok (_, (Some a, out, k)) =>
      ∃ l, Forall (λ e, validate_log_export_safety e = Ok []) l ∧ (∀ e, e ∈ l → e ∈ two_entries) ∧
        (length l ≤ 64)%nat ∧ (true = false → l = []) ∧ (k ≤ length l)%nat ∧ entry_count a = k ∧ out = render (art_compress a) (take k l)
  | _ => False
  end.
Proof.
  pose proof sample_export_made as Hm. destruct sample_export as [[st' [[[a|] out] k]]|e] eqn:E; [clear Hm|exact Hm..].
  apply (exported_entries_are_safe EXPORT_POLICY_DEFAULT 1024 (ExportState [] []) two_entries None None (lit "shadow") true
           (lit "exp-v1:0") 7 st' a out k E).
Defined.

Lemma unverified_export_signs_everything_witness :
  ∃ st' a, create_export EXPORT_POLICY_DEFAULT 1024 (ExportState [] []) two_entries None None (lit "shadow") false (lit "exp-v1:0") 7 =
    Ok (st', (Some a, render false [], O)) ∧
    safety_signature a = from_ok None (signature_for EXPORT_POLICY_DEFAULT (from_ok [] (exportable EXPORT_POLICY_DEFAULT two_entries)))
    ∧ exported_by_tag a = None.
Proof.
  apply (unverified_export_signs_everything EXPORT_POLICY_DEFAULT 1024 (ExportState [] []) two_entries None None (lit "shadow")
           (lit "exp-v1:0") 7 (from_ok [] (exportable EXPORT_POLICY_DEFAULT two_entries))); [reflexivity|..];
    apply from_ok_spec; vm_compute; reflexivity.
Defined.

Definition artifact_named (id : string) : ExportArtifact := MkArtifact (lit id) 0 0 0 false None None [] [].

Lemma artifacts_bounded_witness :
  export_consistent 1 (foldl (run_export 1) (ExportState [] [])
    [XStore (artifact_named "a"); XStore (artifact_named "b"); XDelete (lit "a"); XStore (artifact_named "a")]).
Proof.
  apply (artifacts_bounded 1 [XStore (artifact_named "a"); XStore (artifact_named "b"); XDelete (lit "a"); XStore (artifact_named "a")]).
  cbn [fresh_ids]. split_and!; try done; intros a [= <-]; apply (proj1 (bool_decide_eq_false _)); vm_compute; reflexivity.
Defined.
