(* ===== verification/AnalyticsEngine.v ===== *)
(** The analytics engine: [process_event], [record_error] and the signals of
    [backend/analytics/analytics_engine.py], composing the allowlist, the consent manager,
    the replay guard, the sampler, the redaction, the logs and the metrics.  The engine is
    the one its constructor makes when every module can be imported; the instants within
    one call are taken to be equal, and no caller passes [extra].

    Shown: the state in which an event ends is determined by the allowlist, the status of
    the account's consent, the replay guard, the sampler and whether the payload is empty;
    so events of accounts that withdrew are ingested, and granted events without payload
    are not.  What the engine keeps, and every event that was not dropped, do not depend on
    the parts of a payload that redaction hides. *)
From Stdlib Require Import ZArith QArith Lia.
From stdpp Require Import base decidable strings numbers list.
From S2P Require Import Prelude PyStr Json PyVal Sha256 MetadataErrors SessionReplay Logging Config.
From S2P Require Import Consent Sampling Regex Redaction AnalyticsMetrics LogProcessor AnalyticsEvents.

Open Scope Z_scope.

#[local] Arguments lit _ : simpl never.

Record RequestContext := MkContext {
  request_id_tag : option str;
  ctx_account : option str;
  ctx_session : option str;
  ctx_ip : option str;
  ctx_agent : option str;
  ctx_endpoint : str;
  ctx_method : str;
  ctx_status : option Z;
  ctx_duration : option pynum;
  replay_nonce : option str;
}.

Record AnalyticsFeatureFlags := MkFlags {
  event_allowlist_enabled : bool;
  field_redaction_enabled : bool;
  consent_check_enabled : bool;
  sampling_enabled : bool;
  session_replay_protection_enabled : bool;
}.

Record AnalyticsEngine := MkEngine {
  eng_flags : AnalyticsFeatureFlags;
  eng_max_log_entries : Z;
  eng_redaction : RedactionConfig;
  eng_telemetry : ErrorTelemetryConfig;
  eng_guard_config : guard_config;
  eng_sampler : Sampler;
  eng_allowlist : EventAllowlist;
  eng_consent : manager;
  eng_guard : guard;
  eng_log : log_state;
  eng_metrics : metrics;
  eng_requests_seen : Z;
}.

Definition with_metrics (e : AnalyticsEngine) (m : metrics) : AnalyticsEngine :=
  MkEngine (eng_flags e) (eng_max_log_entries e) (eng_redaction e) (eng_telemetry e) (eng_guard_config e) (eng_sampler e)
    (eng_allowlist e) (eng_consent e) (eng_guard e) (eng_log e) m (eng_requests_seen e).
Definition with_consent (e : AnalyticsEngine) (m : manager) : AnalyticsEngine :=
  MkEngine (eng_flags e) (eng_max_log_entries e) (eng_redaction e) (eng_telemetry e) (eng_guard_config e) (eng_sampler e)
    (eng_allowlist e) m (eng_guard e) (eng_log e) (eng_metrics e) (eng_requests_seen e).
Definition with_guard (e : AnalyticsEngine) (g : guard) : AnalyticsEngine :=
  MkEngine (eng_flags e) (eng_max_log_entries e) (eng_redaction e) (eng_telemetry e) (eng_guard_config e) (eng_sampler e)
    (eng_allowlist e) (eng_consent e) g (eng_log e) (eng_metrics e) (eng_requests_seen e).
Definition with_log (e : AnalyticsEngine) (l : log_state) : AnalyticsEngine :=
  MkEngine (eng_flags e) (eng_max_log_entries e) (eng_redaction e) (eng_telemetry e) (eng_guard_config e) (eng_sampler e)
    (eng_allowlist e) (eng_consent e) (eng_guard e) l (eng_metrics e) (eng_requests_seen e).
Definition count_request (e : AnalyticsEngine) : AnalyticsEngine :=
  MkEngine (eng_flags e) (eng_max_log_entries e) (eng_redaction e) (eng_telemetry e) (eng_guard_config e) (eng_sampler e)
    (eng_allowlist e) (eng_consent e) (eng_guard e) (eng_log e) (eng_metrics e) (eng_requests_seen e + 1).

Definition replay_text (o : SessionReplayOutcome) : str :=
  lit match o with
      | NEW => "new" | DUPLICATE => "duplicate" | SessionReplay.EXPIRED => "expired" | OVERSIZED_NONCE => "oversized_nonce"
      | SESSION_TOO_LONG => "session_too_long" | INVALID_NONCE => "invalid_nonce"
      | MAX_BUCKETS_EXCEEDED => "max_buckets_exceeded" | STORAGE_FULL => "storage_full"
      end.

Definition sampling_text (o : sampling_outcome) : str :=
  lit match o with
      | NOT_ENABLED => "not_enabled" | IN_ALLOWLIST_OVERRIDE => "in_allowlist_override"
      | OUT_ALLOWLIST_OVERRIDE => "out_allowlist_override" | Sampling.SAMPLED_IN => "sampled_in"
      | Sampling.SAMPLED_OUT => "sampled_out" | OVERRIDDEN_FORCE => "overridden_force"
      end.

(** A text that is not empty. *)
Definition non_empty (o : option str) : option str := match o with Some ((_ :: _) as s) => Some s | _ => None end.

Definition annotate (e : TrackedEvent) (k : string) (v : str) : TrackedEvent :=
  MkEvent (event_name e) (event_id e) (ev_category e) (lifecycle_state e) (operation_status e) (payload e) (created_at_utc e)
    (updated_at_utc e) (correlation_id e) (account_id_tag e) (session_id_tag e) (user_agent_tag e) (ip_tag e)
    (redaction_version e) (sampling_rate_applied e) (rejection_reason e) (dict_set (lit k) v (annotations e)).

Definition set_rate (e : TrackedEvent) (r : pynum) : TrackedEvent :=
  MkEvent (event_name e) (event_id e) (ev_category e) (lifecycle_state e) (operation_status e) (payload e) (created_at_utc e)
    (updated_at_utc e) (correlation_id e) (account_id_tag e) (session_id_tag e) (user_agent_tag e) (ip_tag e)
    (redaction_version e) (Some r) (rejection_reason e) (annotations e).

Definition set_payload (e : TrackedEvent) (d : datum) (version : str) : TrackedEvent :=
  MkEvent (event_name e) (event_id e) (ev_category e) (lifecycle_state e) (operation_status e) d (created_at_utc e)
    (updated_at_utc e) (correlation_id e) (account_id_tag e) (session_id_tag e) (user_agent_tag e) (ip_tag e)
    (Some version) (sampling_rate_applied e) (rejection_reason e) (annotations e).

(** [bool(payload)] for what a payload may be *)
Definition datum_truthy (d : datum) : bool :=
  match d with
  | DDict [] | DSeq _ [] | DStr [] | DBytes [] | DNone | DBool false | DInt 0 => false
  | _ => true
  end.

Section engine.
  Context `{Unicode} `{Alnum} `{Alpha} `{FloatScale}.

(** The event ends here, or goes on. *)
Inductive stage_result := Stop (ev : TrackedEvent) | Go (ev : TrackedEvent).

(** Two transitions for the same reason. *)
Definition reject_event (ev : TrackedEvent) (s : EventLifecycleState) (reason : str) (now : Z) : TrackedEvent :=
  transition_event_state (transition_event_state ev s (Some reason) None now) DROPPED (Some reason) None now.

Definition allowlist_stage (eng : AnalyticsEngine) (ev : TrackedEvent) (now : Z) : AnalyticsEngine * stage_result :=
  if event_allowlist_enabled (eng_flags eng) && negb (is_allowed (eng_allowlist eng) (event_name ev))
  then (with_metrics eng (record_failure (eng_metrics eng) (lit "allowlist_rejected") (lit "allowlist")),
        Stop (transition_event_state ev DROPPED (Some (lit "allowlist_rejected")) None now))
  else (eng, Go (transition_event_state ev ALLOWLISTED None None now)).

Definition consent_stage (eng : AnalyticsEngine) (ctx : RequestContext) (ev : TrackedEvent) (now : Z)
    : AnalyticsEngine * stage_result :=
  if consent_check_enabled (eng_flags eng) then
    let '(m, (_, state)) := check_consent (eng_consent eng) (ctx_account ctx) (Some (lit "analytics:" ++ event_name ev)) now in
    let eng := with_consent eng m in
    match s_status state with
    | GRANTED => (eng, Go (transition_event_state ev CONSENT_GRANTED None None now))
    | DENIED => (eng, Stop (reject_event ev CONSENT_DENIED (lit "consent_denied") now))
    | _ => (eng, Go (annotate (transition_event_state ev CONSENT_PENDING None None now) "consent_grace" (lit "true")))
    end
  else (eng, Go ev).

Definition replay_stage (eng : AnalyticsEngine) (ctx : RequestContext) (ev : TrackedEvent) (now : Z)
    : AnalyticsEngine * result exn stage_result :=
  match session_replay_protection_enabled (eng_flags eng), non_empty (replay_nonce ctx) with
  | true, Some nonce =>
      let '(r, g) := verify_and_record (eng_guard_config eng) (PStr nonce) (ctx_session ctx) now (eng_guard eng) in
      let eng := with_guard eng g in
      match r with
      | Err e => (eng, Err e)
      | Ok NEW => (eng, Ok (Go ev))
      | Ok outcome =>
          (with_metrics eng (record_failure (eng_metrics eng) (lit "replay_" ++ replay_text outcome) (lit "session")),
           Ok (Stop (reject_event ev REPLAY_REJECTED (lit "replay:" ++ replay_text outcome) now)))
      end
  | _, _ => (eng, Ok (Go ev))
  end.

Definition sampling_stage (eng : AnalyticsEngine) (ctx : RequestContext) (ev : TrackedEvent) (now : Z)
    : AnalyticsEngine * result exn stage_result :=
  if sampling_enabled (eng_flags eng) then
    match decide_sampling (eng_sampler eng) (event_name ev) (ctx_account ctx) (ctx_session ctx) None None with
    | Err e => (eng, Err e)
    | Ok dec =>
        let text := sampling_text (sd_outcome dec) in
        let ev := annotate (set_rate ev (rate_applied dec)) "sampling_outcome" text in
        if sampled_in dec then (eng, Ok (Go (transition_event_state ev SAMPLED_IN None None now)))
        else (with_metrics eng (increment_counter (eng_metrics eng) (lit "sampling") text 1),
              Ok (Stop (reject_event ev SAMPLED_OUT (lit "sampling:" ++ text) now)))
    end
  else (eng, Ok (Go ev)).

Definition note_categories (ev : TrackedEvent) (cats : list str) : TrackedEvent :=
  match cats with [] => ev | _ => annotate ev "categories_redacted" (str_join (lit ",") cats) end.

Definition redaction_stage (eng : AnalyticsEngine) (ev : TrackedEvent) (now : Z) : AnalyticsEngine * result exn TrackedEvent :=
  if field_redaction_enabled (eng_flags eng) && datum_truthy (payload ev) then
    match sanitize (eng_redaction eng) (payload ev) (Some (event_name ev)) with
    | Err e => (eng, Err e)
    | Ok o =>
        let ev := set_payload ev (out_data o) CRYPTO_DOMAIN_VERSION in
        let ev := note_categories ev (out_categories o) in
        let ev := transition_event_state ev REDACTED None None now in
        (with_metrics eng (foldl (λ m c, increment_counter m (lit "redaction") c 1) (eng_metrics eng) (out_categories o)), Ok ev)
    end
  else (eng, Ok ev).

(** The entry of the event, with the fields the engine sets itself. *)
Definition event_entry (eng : AnalyticsEngine) (ctx : RequestContext) (ev : TrackedEvent) (entry_id : str) (now : Z)
    : result exn LogEntry :=
  let extra := label_if "category" (Some (ev_category ev)) ++ [(lit "lifecycle", lifecycle_text (lifecycle_state ev))] in
  let op := operation_text (operation_status ev) in
  e ← sanitize_error_context (eng_telemetry eng) (eng_redaction eng) (EText (event_name ev)) (Some (ctx_endpoint ctx))
        (Some (ctx_method ctx)) (ctx_status ctx) (Some op) (ctx_duration ctx) (request_id_tag ctx) (ctx_account ctx)
        (ctx_session ctx) extra [] entry_id now;
  Ok (MkEntry (LogProcessor.entry_id e) (event_name ev) (le_category e) (le_severity e) (le_timestamp e) (message_summary e)
        (endpoint_pattern e) (le_method e) (le_status_code e) (le_error_type e) (le_error_code e) (le_error_safe e)
        (le_correlation e) (le_account e) (le_session e) (le_duration e) (Some op)
        (Some (lifecycle_text (lifecycle_state ev))) (le_labels e) (le_counters e) (le_sanitized e) (export_safe e)
        (export_signature e)).

Definition log_stage (eng : AnalyticsEngine) (ctx : RequestContext) (ev : TrackedEvent) (entry_id : str) (now : Z)
    : AnalyticsEngine * result exn unit :=
  let eng := if eng_max_log_entries eng <=? zlen (log_entries (eng_log eng))
             then with_metrics eng (record_saturation_signal (eng_metrics eng) (lit "log_entries_limit_hit") now) else eng in
  match event_entry eng ctx ev entry_id now with
  | Err e => (eng, Err e)
  | Ok entry =>
      match ingest_entry (eng_telemetry eng) (eng_log eng) entry false with
      | Err e => (eng, Err e)
      | Ok (l, _) => (with_log eng l, Ok tt)
      end
  end.

Definition final_transition (ev : TrackedEvent) (now : Z) : TrackedEvent :=
  if bool_decide (lifecycle_state ev ∈ [INGESTED; DROPPED]) then ev else transition_event_state ev INGESTED None None now.

(** The stages of an event that is kept. *)
Definition redact_and_log (eng : AnalyticsEngine) (ctx : RequestContext) (ev : TrackedEvent) (entry_id : str) (now : Z)
    : AnalyticsEngine * result exn TrackedEvent :=
  match redaction_stage eng ev now with
  | (eng, Err e) => (eng, Err e)
  | (eng, Ok ev) =>
      match log_stage eng ctx ev entry_id now with
      | (eng, Err e) => (eng, Err e)
      | (eng, Ok _) => (count_request eng, Ok (final_transition ev now))
      end
  end.

(** The stages after consent, each of which may raise. *)
Definition later_stages (eng : AnalyticsEngine) (ctx : RequestContext) (ev : TrackedEvent) (entry_id : str) (now : Z)
    : AnalyticsEngine * result exn TrackedEvent :=
  match replay_stage eng ctx ev now with
  | (eng, Err e) => (eng, Err e)
  | (eng, Ok (Stop ev)) => (eng, Ok ev)
  | (eng, Ok (Go ev)) =>
      match sampling_stage eng ctx ev now with
      | (eng, Err e) => (eng, Err e)
      | (eng, Ok (Stop ev)) => (eng, Ok ev)
      | (eng, Ok (Go ev)) => redact_and_log eng ctx ev entry_id now
      end
  end.

Definition new_event (name category : str) (data : option datum) (ctx : RequestContext) (id : str) (now : Z) : TrackedEvent :=
  create_event name category data (non_empty (request_id_tag ctx)) (non_empty (ctx_account ctx)) (non_empty (ctx_session ctx))
    (non_empty (ctx_agent ctx)) (non_empty (ctx_ip ctx)) id now.

Definition process_event (eng : AnalyticsEngine) (name category : str) (data : option datum) (ctx : RequestContext)
    (id entry_id : str) (now : Z) : AnalyticsEngine * result exn TrackedEvent :=
  let eng := with_metrics eng (record_event_seen (eng_metrics eng) name) in
  match allowlist_stage eng (new_event name category data ctx id now) now with
  | (eng, Stop ev) => (eng, Ok ev)
  | (eng, Go ev) =>
      match consent_stage eng ctx ev now with
      | (eng, Stop ev) => (eng, Ok ev)
      | (eng, Go ev) => later_stages eng ctx ev entry_id now
      end
  end.

(** [record_error]: the entry is built without the engine's configuration, and kept with
    duplicates allowed. *)
Definition record_error (eng : AnalyticsEngine) (error : error_value) (ctx : RequestContext) (operation : option str)
    (extra_labels : list (str * str)) (extra_counters : list (str * Z)) (entry_id : str) (now : Z)
    : AnalyticsEngine * result exn LogEntry :=
  match sanitize_error_context default_telemetry default_redaction error (Some (ctx_endpoint ctx)) (Some (ctx_method ctx))
          (ctx_status ctx) operation (ctx_duration ctx) (request_id_tag ctx) (ctx_account ctx) (ctx_session ctx) extra_labels
          extra_counters entry_id now with
  | Err e => (eng, Err e)
  | Ok entry =>
      let error_type := match error with EException n _ _ _ _ => n | EText _ => lit "str_error" | EOther _ => lit "unknown_error" end in
      let eng := with_metrics eng (record_failure (eng_metrics eng) error_type (lit "error")) in
      match ingest_entry (eng_telemetry eng) (eng_log eng) entry true with
      | Err e => (eng, Err e)
      | Ok (l, _) => (with_log eng l, Ok entry)
      end
  end.

Definition record_progress (eng : AnalyticsEngine) (name : str) : AnalyticsEngine :=
  with_metrics eng (progress_tick (eng_metrics eng) name).
Definition record_saturation (eng : AnalyticsEngine) (signal : str) (now : Z) : AnalyticsEngine :=
  with_metrics eng (record_saturation_signal (eng_metrics eng) signal now).
Definition record_recovery (eng : AnalyticsEngine) (signal : str) (now : Z) : AnalyticsEngine :=
  with_metrics eng (record_recovery_signal (eng_metrics eng) signal now).

(** * Where an event ends *)

(** The state after a transition. *)
Definition next_state (s s' : EventLifecycleState) : EventLifecycleState :=
  if bool_decide (s' ∈ VALID_TRANSITIONS s) then s' else FAILED_STABLE.

Lemma transition_state ev s r st now : lifecycle_state (transition_event_state ev s r st now) = next_state (lifecycle_state ev) s.
Proof. unfold transition_event_state, next_state. by destruct (bool_decide _). Qed.

Lemma transition_payload ev s r st now : payload (transition_event_state ev s r st now) = payload ev.
Proof. unfold transition_event_state. by destruct (bool_decide _). Qed.

Lemma transition_name ev s r st now : event_name (transition_event_state ev s r st now) = event_name ev.
Proof. unfold transition_event_state. by destruct (bool_decide _). Qed.

Definition all_on (eng : AnalyticsEngine) : Prop := eng_flags eng = MkFlags true true true true true.

Definition consent_status_of (eng : AnalyticsEngine) (name : str) (ctx : RequestContext) (now : Z) : consent_status :=
  s_status (check_consent (eng_consent eng) (ctx_account ctx) (Some (lit "analytics:" ++ name)) now).2.2.

(** The replay guard refuses the request. *)
Definition replayed (eng : AnalyticsEngine) (ctx : RequestContext) (now : Z) : bool :=
  match non_empty (replay_nonce ctx) with
  | None => false
  | Some nonce =>
      negb (bool_decide ((verify_and_record (eng_guard_config eng) (PStr nonce) (ctx_session ctx) now (eng_guard eng)).1 = Ok NEW))
  end.

(** The sampler drops the event. *)
Definition sampled_away (eng : AnalyticsEngine) (name : str) (ctx : RequestContext) : bool :=
  match decide_sampling (eng_sampler eng) name (ctx_account ctx) (ctx_session ctx) None None with
  | Ok dec => negb (sampled_in dec)
  | Err _ => false
  end.

Definition fate (eng : AnalyticsEngine) (name : str) (data : option datum) (ctx : RequestContext) (now : Z) : EventLifecycleState :=
  if negb (is_allowed (eng_allowlist eng) name) then DROPPED
  else match consent_status_of eng name ctx now with
       | DENIED => DROPPED
       | status =>
           if replayed eng ctx now || sampled_away eng name ctx then DROPPED
           else if bool_decide (status = GRANTED) && negb (datum_truthy (default (DDict []) data)) then FAILED_STABLE
           else INGESTED
       end.

Lemma reject_dropped ev s reason now : DROPPED ∈ VALID_TRANSITIONS s → lifecycle_state (reject_event ev s reason now) = DROPPED.
Proof.
  intros Hs. unfold reject_event. rewrite !transition_state. unfold next_state.
  destruct (bool_decide (s ∈ VALID_TRANSITIONS (lifecycle_state ev))); [by rewrite bool_decide_true|reflexivity].
Qed.

Lemma redaction_stage_state eng ev now eng' ev' :
  redaction_stage eng ev now = (eng', Ok ev') → field_redaction_enabled (eng_flags eng) = true →
  lifecycle_state ev' = if datum_truthy (payload ev) then next_state (lifecycle_state ev) REDACTED else lifecycle_state ev.
Proof.
  unfold redaction_stage. intros Hr Hf. rewrite Hf in Hr. cbn [andb] in Hr.
  destruct (datum_truthy (payload ev)); [|by injection Hr as <- <-].
  destruct (sanitize _ _ _) as [o|]; [|done]. injection Hr as <- <-. rewrite transition_state. by destruct (out_categories o).
Qed.

(** The state an event that was kept by the sampler ends in. *)
Definition kept_state (s : EventLifecycleState) (has_payload : bool) : EventLifecycleState :=
  let s := next_state s SAMPLED_IN in
  let s := if has_payload then next_state s REDACTED else s in
  if bool_decide (s ∈ [INGESTED; DROPPED]) then s else next_state s INGESTED.

Lemma sampled_fate eng ctx ev eid now eng' ev' :
  sampling_enabled (eng_flags eng) = true → field_redaction_enabled (eng_flags eng) = true →
  match sampling_stage eng ctx ev now with
  | (eng, Err e) => (eng, Err e)
  | (eng, Ok (Stop ev)) => (eng, Ok ev)
  | (eng, Ok (Go ev)) => redact_and_log eng ctx ev eid now
  end = (eng', Ok ev') →
  lifecycle_state ev' =
    if sampled_away eng (event_name ev) ctx then DROPPED else kept_state (lifecycle_state ev) (datum_truthy (payload ev)).
Proof.
  intros Hs Hf. unfold sampling_stage, sampled_away. rewrite Hs.
  destruct (decide_sampling _ _ _ _ _ _) as [dec|]; [|done]. destruct (sampled_in dec); cbn [negb].
  2: { intros Heq. injection Heq as <- <-. apply reject_dropped. listed. }
  unfold redact_and_log. destruct (redaction_stage _ _ _) as [eng2 [ev2|]] eqn:Er; [|done].
  apply redaction_stage_state in Er; [|done]. rewrite transition_state, transition_payload in Er. cbn [lifecycle_state payload annotate set_rate] in Er.
  destruct (log_stage eng2 ctx ev2 eid now) as [eng3 [|]]; [|done]. intros Heq. injection Heq as <- <-.
  unfold kept_state, final_transition. rewrite <- Er. destruct (bool_decide (lifecycle_state ev2 ∈ [INGESTED; DROPPED])); [done|].
  apply transition_state.
Qed.

Lemma later_fate eng ctx ev eid now eng' ev' :
  all_on eng → later_stages eng ctx ev eid now = (eng', Ok ev') →
  lifecycle_state ev' =
    if replayed eng ctx now || sampled_away eng (event_name ev) ctx then DROPPED
    else kept_state (lifecycle_state ev) (datum_truthy (payload ev)).
Proof.
  intros Hon. unfold later_stages, replay_stage, replayed. rewrite Hon. cbn [session_replay_protection_enabled].
  destruct (non_empty (replay_nonce ctx)) as [nonce|]; [|cbn [orb]; apply sampled_fate; by rewrite Hon].
  destruct (verify_and_record _ _ _ _ _) as [r g]. cbn [fst]. destruct r as [o|]; [|done].
  destruct (decide (o = NEW)) as [->|Hne].
  - rewrite bool_decide_true by done. cbn [negb orb]. intros Hl. apply sampled_fate in Hl; [|cbn; by rewrite Hon..]. exact Hl.
  - rewrite bool_decide_false by congruence. cbn [negb orb].
    destruct o; try done; intros Heq; injection Heq as <- <-; apply reject_dropped; listed.
Qed.

Lemma process_fate eng name category data ctx id eid now eng' ev :
  all_on eng → process_event eng name category data ctx id eid now = (eng', Ok ev) → lifecycle_state ev = fate eng name data ctx now.
Proof.
  intros Hon. unfold process_event, allowlist_stage, fate. cbn [eng_flags with_metrics eng_allowlist]. rewrite Hon.
  cbn [event_allowlist_enabled andb]. cbn [new_event create_event event_name].
  destruct (is_allowed (eng_allowlist eng) name); cbn [negb]; [|intros Heq; injection Heq as <- <-; reflexivity].
  unfold consent_stage, consent_status_of. cbn [eng_flags with_metrics eng_consent]. rewrite Hon, transition_name.
  cbn [consent_check_enabled new_event create_event event_name].
  destruct (check_consent _ _ _ _) as [m [ok st]]. cbn [snd].
  destruct (s_status st) eqn:Est; try (intros Hl; apply later_fate in Hl; [|exact Hon]; cbn [event_name annotate payload lifecycle_state] in Hl;
    rewrite ?transition_name, ?transition_payload, ?transition_state in Hl; cbn [event_name payload lifecycle_state new_event create_event] in Hl;
    change (replayed _ ctx now) with (replayed eng ctx now) in Hl;
    change (sampled_away _ name ctx) with (sampled_away eng name ctx) in Hl; rewrite Hl;
    destruct (replayed eng ctx now || sampled_away eng name ctx); [done|by destruct (datum_truthy (default (DDict []) data))]).
  intros Heq. injection Heq as <- <-. apply reject_dropped. listed.
Qed.

(** C22. Engine: with every feature on, an event for which [process_event] returns ends
    ingested exactly when its name is allowed, the account's consent is not recorded as
    denied, the nonce is new, the sampler keeps it, and it has a payload if the consent is
    recorded as granted; all others end dropped, or failed for want of a payload. *)
Theorem event_ingested_iff eng name category data ctx id eid now eng' ev :
  all_on eng → process_event eng name category data ctx id eid now = (eng', Ok ev) →
  (lifecycle_state ev = INGESTED ↔
     is_allowed (eng_allowlist eng) name = true ∧ consent_status_of eng name ctx now ≠ DENIED ∧ replayed eng ctx now = false ∧
     sampled_away eng name ctx = false ∧
     (consent_status_of eng name ctx now = GRANTED → datum_truthy (default (DDict []) data) = true)) ∧
  lifecycle_state ev ∈ [INGESTED; DROPPED; FAILED_STABLE].
Proof.
  intros Hon Hp. rewrite (process_fate _ _ _ _ _ _ _ _ _ _ Hon Hp). unfold fate.
  destruct (is_allowed _ _); cbn [negb]; [|split; [naive_solver|listed]].
  destruct (replayed eng ctx now), (sampled_away eng name ctx), (datum_truthy (default (DDict []) data));
    destruct (consent_status_of eng name ctx now); (split; [|listed]); cbn; naive_solver.
Qed.

(** Engine: the event of an account that withdrew its consent, or whose consent is
    invalid or recorded as expired, is ingested when its name is allowed, its nonce is new
    and the sampler keeps it, although the consent manager refuses it. *)
Theorem withdrawn_account_is_ingested eng name category data ctx tag s id eid now eng' ev :
  all_on eng → ctx_account ctx = Some tag → dict_get tag (states (eng_consent eng)) = Some s →
  s_status s ∈ [WITHDRAWN; INVALID; Consent.EXPIRED] →
  is_allowed (eng_allowlist eng) name = true → replayed eng ctx now = false → sampled_away eng name ctx = false →
  process_event eng name category data ctx id eid now = (eng', Ok ev) →
  (check_consent (eng_consent eng) (ctx_account ctx) (Some (lit "analytics:" ++ name)) now).2.1 = false ∧ lifecycle_state ev = INGESTED.
Proof.
  intros Hon Hc Hs Hst Ha Hr Hsm Hp.
  assert (effective_status s now = s_status s ∧ refused_status (s_status s) = true) as [He Hrf].
  { rewrite !elem_of_cons, elem_of_nil in Hst. unfold effective_status, refused_status.
    destruct Hst as [-> |[-> |[-> |[]]]]; split; reflexivity. }
  assert (check_consent (eng_consent eng) (Some tag) (Some (lit "analytics:" ++ name)) now = (eng_consent eng, (false, s))) as Hcc.
  { unfold check_consent. rewrite Hs, He, Hrf. reflexivity. }
  split; [by rewrite Hc, Hcc|]. rewrite (process_fate _ _ _ _ _ _ _ _ _ _ Hon Hp). unfold fate, consent_status_of.
  rewrite Hc, Hcc, Ha, Hr, Hsm. cbn [negb snd orb]. rewrite !elem_of_cons, elem_of_nil in Hst.
  destruct Hst as [-> |[-> |[-> |[]]]]; reflexivity.
Qed.

(** * Secrecy *)

(** The event with another payload. *)
Definition repay (ev : TrackedEvent) (d : datum) : TrackedEvent :=
  MkEvent (event_name ev) (event_id ev) (ev_category ev) (lifecycle_state ev) (operation_status ev) d (created_at_utc ev)
    (updated_at_utc ev) (correlation_id ev) (account_id_tag ev) (session_id_tag ev) (user_agent_tag ev) (ip_tag ev)
    (redaction_version ev) (sampling_rate_applied ev) (rejection_reason ev) (annotations ev).

Lemma transition_repay ev d s r st now :
  transition_event_state (repay ev d) s r st now = repay (transition_event_state ev s r st now) d.
Proof. unfold transition_event_state. by destruct (bool_decide _). Qed.

Lemma reject_repay ev d s r now : reject_event (repay ev d) s r now = repay (reject_event ev s r now) d.
Proof. unfold reject_event. by rewrite !transition_repay. Qed.

Definition repay_result (d : datum) (r : stage_result) : stage_result :=
  match r with Stop ev => Stop (repay ev d) | Go ev => Go (repay ev d) end.

Lemma allowlist_repay eng ev d now :
  allowlist_stage eng (repay ev d) now = ((allowlist_stage eng ev now).1, repay_result d (allowlist_stage eng ev now).2).
Proof. unfold allowlist_stage. rewrite !transition_repay. cbn [event_name repay]. by destruct (_ && _). Qed.

Lemma consent_repay eng ctx ev d now :
  consent_stage eng ctx (repay ev d) now = ((consent_stage eng ctx ev now).1, repay_result d (consent_stage eng ctx ev now).2).
Proof.
  unfold consent_stage. cbn [event_name repay]. destruct (consent_check_enabled _); [|done].
  destruct (check_consent _ _ _ _) as [m [ok st]]. rewrite !transition_repay, reject_repay. by destruct (s_status st).
Qed.

Lemma replay_repay eng ctx ev d now :
  replay_stage eng ctx (repay ev d) now = ((replay_stage eng ctx ev now).1, repay_result d <$> (replay_stage eng ctx ev now).2).
Proof.
  unfold replay_stage. destruct (session_replay_protection_enabled _), (non_empty (replay_nonce ctx)); try done.
  destruct (verify_and_record _ _ _ _ _) as [[o|] g]; [|done]. destruct o; try done; by rewrite reject_repay.
Qed.

Lemma sampling_repay eng ctx ev d now :
  sampling_stage eng ctx (repay ev d) now = ((sampling_stage eng ctx ev now).1, repay_result d <$> (sampling_stage eng ctx ev now).2).
Proof.
  unfold sampling_stage. cbn [event_name repay]. destruct (sampling_enabled _); [|done].
  destruct (decide_sampling _ _ _ _ _ _) as [dec|]; [|done].
  change (annotate (set_rate (repay ev d) (rate_applied dec)) "sampling_outcome" (sampling_text (sd_outcome dec)))
    with (repay (annotate (set_rate ev (rate_applied dec)) "sampling_outcome" (sampling_text (sd_outcome dec))) d).
  rewrite transition_repay, reject_repay. by destruct (sampled_in dec).
Qed.

(** Redaction forgets the difference. *)
Lemma redaction_repay eng ev d now :
  field_redaction_enabled (eng_flags eng) = true → datum_truthy (payload ev) = true → datum_truthy d = true →
  low (eng_redaction eng) (Some (event_name ev)) (payload ev) d →
  redaction_stage eng (repay ev d) now = redaction_stage eng ev now.
Proof.
  intros Hf Ht Ht' Hl. unfold redaction_stage. cbn [event_name repay payload]. rewrite Hf, Ht, Ht'. cbn [andb].
  by rewrite <- (sanitize_hides _ _ _ _ Hl).
Qed.

(** Two answers that differ at most in the payload of an event that was dropped. *)
Definition alike (x y : AnalyticsEngine * result exn TrackedEvent) : Prop :=
  x.1 = y.1 ∧ (x.2 = y.2 ∨ ∃ ev d, x.2 = Ok ev ∧ y.2 = Ok (repay ev d) ∧ lifecycle_state ev = DROPPED).

Lemma sampling_stage_engine eng ctx ev now eng' r : sampling_stage eng ctx ev now = (eng', Ok (Go r)) → eng' = eng ∧ payload r = payload ev ∧ event_name r = event_name ev.
Proof.
  unfold sampling_stage. destruct (sampling_enabled _); [|by intros [= <- <-]].
  destruct (decide_sampling _ _ _ _ _ _) as [dec|]; [|done]. destruct (sampled_in dec); [|done]. intros Heq. injection Heq as <- <-.
  by rewrite transition_payload, transition_name.
Qed.

Lemma replay_stage_engine eng ctx ev now eng' r :
  replay_stage eng ctx ev now = (eng', Ok (Go r)) → eng_flags eng' = eng_flags eng ∧ eng_redaction eng' = eng_redaction eng ∧ r = ev.
Proof.
  unfold replay_stage. destruct (session_replay_protection_enabled _), (non_empty (replay_nonce ctx)); try (intros Heq; by injection Heq as <- <-).
  destruct (verify_and_record _ _ _ _ _) as [[o|] g]; [|done]. destruct o; try done. intros Heq. by injection Heq as <- <-.
Qed.

Lemma later_repay eng ctx ev d eid now :
  field_redaction_enabled (eng_flags eng) = true → datum_truthy (payload ev) = true → datum_truthy d = true →
  low (eng_redaction eng) (Some (event_name ev)) (payload ev) d →
  alike (later_stages eng ctx ev eid now) (later_stages eng ctx (repay ev d) eid now).
Proof.
  intros Hf Ht Ht' Hl. unfold later_stages. rewrite replay_repay.
  destruct (replay_stage eng ctx ev now) as [eng1 [[ev1|ev1]|]] eqn:E1; cbn [fst snd fmap result_fmap repay_result].
  - split; [done|]. right. exists ev1, d. split_and!; [done..|].
    revert E1. unfold replay_stage. destruct (session_replay_protection_enabled _), (non_empty (replay_nonce ctx)); try done.
    destruct (verify_and_record _ _ _ _ _) as [[o|] g]; [|done].
    destruct o; try done; intros Heq; injection Heq as <- <-; apply reject_dropped; listed.
  - apply replay_stage_engine in E1 as (Hf1 & Hr1 & ->). rewrite sampling_repay.
    destruct (sampling_stage eng1 ctx ev now) as [eng2 [[ev2|ev2]|]] eqn:E2; cbn [fst snd fmap result_fmap repay_result].
    + split; [done|]. right. exists ev2, d. split_and!; [done..|].
      revert E2. unfold sampling_stage. destruct (sampling_enabled _); [|done]. destruct (decide_sampling _ _ _ _ _ _) as [dec|]; [|done].
      destruct (sampled_in dec); [done|]. intros Heq. injection Heq as <- <-. apply reject_dropped. listed.
    + apply sampling_stage_engine in E2 as (-> & Hp & Hn). unfold redact_and_log.
      rewrite redaction_repay; [by split; [|left]|by rewrite Hf1|by rewrite Hp|done|by rewrite Hr1, Hn, Hp].
    + by split; [|left].
  - by split; [|left].
Qed.

Lemma low_truthy cfg fn kvs d : low cfg fn (DDict kvs) d → kvs ≠ [] → datum_truthy d = true.
Proof.
  intros Hl Hk. destruct kvs as [|p kvs]; [done|].
  inversion Hl as [| |? ? ? ? ? ? Hs| |? ? ? ? Hd]; subst; [done| |].
  - inversion Hs as [? ? Hc| |? ? Hd]; subst; [done|]. by inversion Hd; subst.
  - by inversion Hd; subst.
Qed.

(** Engine: with redaction on, two payloads that differ only in what redaction hides
    leave the engine (its logs, metrics, consent and replay states) the same, and the
    returned event too, unless it was dropped, which leaves its payload as it was given. *)
Theorem engine_hides_payload eng name category kvs d ctx id eid now :
  field_redaction_enabled (eng_flags eng) = true → kvs ≠ [] → low (eng_redaction eng) (Some name) (DDict kvs) d →
  alike (process_event eng name category (Some (DDict kvs)) ctx id eid now) (process_event eng name category (Some d) ctx id eid now).
Proof.
  intros Hf Hk Hl. pose proof (low_truthy _ _ _ _ Hl Hk) as Ht'.
  assert (datum_truthy (DDict kvs) = true) as Ht by (by destruct kvs).
  unfold process_event. cbv zeta. set (eng0 := with_metrics eng _).
  change (new_event name category (Some d) ctx id now) with (repay (new_event name category (Some (DDict kvs)) ctx id now) d).
  rewrite allowlist_repay.
  set (ev := new_event name category (Some (DDict kvs)) ctx id now).
  destruct (allowlist_stage eng0 ev now) as [eng1 r1] eqn:E1. unfold allowlist_stage in E1.
  destruct (_ && _); injection E1 as <- <-; cbn [fst snd repay_result].
  { split; [done|]. right. eexists _, d. split_and!; [done..|]. reflexivity. }
  rewrite consent_repay. set (ev1 := transition_event_state ev ALLOWLISTED None None now).
  destruct (consent_stage eng0 ctx ev1 now) as [eng2 r2] eqn:E2. unfold consent_stage in E2.
  assert (∀ eng', eng_flags eng' = eng_flags eng → eng_redaction eng' = eng_redaction eng →
    ∀ ev', payload ev' = DDict kvs → event_name ev' = name →
    alike (later_stages eng' ctx ev' eid now) (later_stages eng' ctx (repay ev' d) eid now)) as Hlater.
  { intros eng' He1 He2 ev' Hp Hn. apply later_repay; rewrite ?Hp, ?He1, ?He2, ?Hn; done. }
  destruct (consent_check_enabled _).
  - destruct (check_consent _ _ _ _) as [m [ok st]].
    destruct (s_status st); injection E2 as <- <-; cbn [fst snd repay_result]; try (by apply Hlater; rewrite ?transition_payload, ?transition_name).
    split; [done|]. right. eexists _, d. split_and!; [done..|]. apply reject_dropped. listed.
  - injection E2 as <- <-. cbn [fst snd repay_result]. by apply Hlater.
Qed.
End engine.

(** * Witnesses *)

#[local] Instance sample_unicode : Unicode := plain_unicode.
#[local] Instance sample_alnum : Alnum := λ _, false.
#[local] Instance sample_alpha : Alpha := λ _, false.
#[local] Instance sample_scale : FloatScale := λ _ n, n.

(** An engine with the default settings, for which one account has withdrawn. *)
Definition sample_engine : AnalyticsEngine :=
  MkEngine (MkFlags true true true true true) 256 default_redaction default_telemetry (GuardConfig 600 900 16384 100000 128)
    (MkSampler true (Fin 1) [] 1000000) (MkAllowlist None [])
    (withdraw_consent (Manager [] CONSENT_GRACE_PERIOD_SECONDS) (lit "v1:a") 5).1 empty_guard empty_log new_metrics 0.

Definition sample_context : RequestContext :=
  MkContext (Some (lit "v1:r")) (Some (lit "v1:a")) None None None (lit "/api/health") (lit "GET") None None None.

Definition sample_payload : list (str * datum) := [(lit "detail", DStr (lit "ok"))].

Notation sample_run :=
  (process_event sample_engine (lit "system.startup") (lit "system.internal") (Some (DDict sample_payload)) sample_context
    (lit "evt-v1:0") (lit "eid-v1:0") 9).

Lemma sample_run_ok : is_ok sample_run.2 = true.
Proof. vm_compute. reflexivity. Qed.

Lemma event_ingested_iff_witness :
  match sample_run with
  | (_, Ok ev) => lifecycle_state ev = INGESTED ↔
      is_allowed (eng_allowlist sample_engine) (lit "system.startup") = true ∧
      consent_status_of sample_engine (lit "system.startup") sample_context 9 ≠ DENIED ∧ replayed sample_engine sample_context 9 = false ∧
      sampled_away sample_engine (lit "system.startup") sample_context = false ∧
      (consent_status_of sample_engine (lit "system.startup") sample_context 9 = GRANTED → datum_truthy (DDict sample_payload) = true)
  | _ => False
  end.
Proof.
  pose proof sample_run_ok as Hok. destruct sample_run as [eng' [ev|]] eqn:E; [clear Hok|discriminate Hok].
  exact (proj1 (event_ingested_iff sample_engine (lit "system.startup") (lit "system.internal") (Some (DDict sample_payload))
           sample_context (lit "evt-v1:0") (lit "eid-v1:0") 9 eng' ev eq_refl E)).
Defined.

Lemma sample_sampled : sampled_away sample_engine (lit "system.startup") sample_context = false.
Proof. vm_compute. reflexivity. Qed.

Lemma withdrawn_account_is_ingested_witness :
  match sample_run with
  | (_, Ok ev) =>
      (check_consent (eng_consent sample_engine) (Some (lit "v1:a")) (Some (lit "analytics:" ++ lit "system.startup")) 9).2.1 = false ∧
      lifecycle_state ev = INGESTED
  | _ => False
  end.
Proof.
  pose proof sample_run_ok as Hok. destruct sample_run as [eng' [ev|]] eqn:E; [clear Hok|discriminate Hok].
  apply (withdrawn_account_is_ingested sample_engine (lit "system.startup") (lit "system.internal") (Some (DDict sample_payload))
           sample_context (lit "v1:a")
           (MkState (Some (lit "v1:a")) WITHDRAWN USER_EXPLICIT 0 0 (Some 5) [] None 5 CONSENT_SCHEMA_VERSION)
           (lit "evt-v1:0") (lit "eid-v1:0") 9 eng' ev);
    [reflexivity|reflexivity|reflexivity|left|apply (proj1 (bool_decide_eq_true _)); vm_compute; reflexivity|reflexivity|exact sample_sampled|exact E].
Defined.

Lemma engine_hides_payload_witness :
  alike (process_event sample_engine (lit "system.startup") [] (Some (DDict [(lit "token", DStr (lit "hunter2"))])) sample_context [] [] 9)
        (process_event sample_engine (lit "system.startup") [] (Some (DDict [(lit "token", DStr (lit "swordfish"))])) sample_context [] [] 9).
Proof.
  apply (engine_hides_payload sample_engine (lit "system.startup") [] [(lit "token", DStr (lit "hunter2"))]
           (DDict [(lit "token", DStr (lit "swordfish"))]) sample_context [] [] 9); [reflexivity|done|].
  apply LDict; [vm_compute; reflexivity|]. apply Forall2_cons_2; [|constructor]. split; [reflexivity|].
  apply (LText _ _ _ _ Secret); (split_and!; [vm_compute; reflexivity|vm_compute; reflexivity|left; vm_compute; reflexivity]).
Defined.
