(* ===== verification/AnalyticsRoutes.v ===== *)
(** The analytics configuration read from the environment
    ([backend/analytics/config.py]), the sampler the engine makes of it, and the two routes
    of [backend/analytics/routes.py] that change state: consent and export.  A request body
    is read as the fields the routes use; its scopes are texts.

    Shown: every configuration that loads has positive limits and a rate between 0 and 1 or
    not a number, in which case the engine cannot be made; the export route accepts every
    token of eight characters, whatever it is; the consent route grants consent for every
    status it does not know, and so undoes a withdrawal. *)
From Stdlib Require Import ZArith QArith Lia.
From stdpp Require Import base decidable strings numbers list.
From S2P Require Import Prelude PyStr Json PyVal Sha256 MetadataErrors Logging Config Consent.
From S2P Require Import Sampling Regex Redaction AnalyticsEvents AnalyticsMetrics LogProcessor ExportManager.

Open Scope Z_scope.

#[local] Arguments lit _ : simpl never.

(** * Configuration *)

Record AnalyticsLimits := MkLimits {
  max_event_bytes : Z;
  max_log_entries_per_request : Z;
  max_redaction_depth : Z;
  max_total_redaction_nodes : Z;
  max_endpoint_segments : Z;
  max_export_bytes : Z;
  max_pending_nonces : Z;
  max_session_id_bytes : Z;
  max_concurrent_events : Z;
  max_sampling_bucket : Z;
}.

Definition limits_list (l : AnalyticsLimits) : list Z :=
  [max_event_bytes l; max_log_entries_per_request l; max_redaction_depth l; max_total_redaction_nodes l;
   max_endpoint_segments l; max_export_bytes l; max_pending_nonces l; max_session_id_bytes l; max_concurrent_events l;
   max_sampling_bucket l].

(** [AnalyticsLimits.__post_init__] *)
Definition make_limits (l : AnalyticsLimits) : result exn AnalyticsLimits :=
  if forallb (λ v, 0 <? v) (limits_list l) then Ok l else Err (ValueError "must be positive").

Definition default_limits : AnalyticsLimits := MkLimits 8192 256 16 16384 32 4194304 16384 256 512 1000000.

Record SamplingConfig := MkSamplingConfig { sc_default_rate : pynum; sc_overrides : list (str * pynum) }.

(** [SamplingConfig.__post_init__] *)
Definition make_sampling (c : SamplingConfig) : result exn SamplingConfig :=
  if negb (in_unit (sc_default_rate c)) then Err (ValueError "default_rate must be in [0,1]")
  else if negb (forallb (λ p, in_unit p.2) (sc_overrides c)) then Err (ValueError "allowlist_overrides must be in [0,1]")
  else Ok c.

Definition default_sampling : SamplingConfig :=
  MkSamplingConfig (Fin 1) (map (λ n, (lit n, Fin 1))
    ["proof_completed"; "video_uploaded"; "error_observed"; "saturation_signal"; "recovery_signal"]).

Record AnalyticsConfig := MkAnalyticsConfig {
  ac_limits : AnalyticsLimits;
  ac_sampling : SamplingConfig;
  ac_export_token_required : bool;
  ac_durable_enabled : bool;
  ac_durable_path : option str;
  ac_consent_enabled : bool;
  ac_replay_enabled : bool;
  ac_phase : str;
}.

(** The configuration before the environment is read. *)
Definition base_config (env : string → option str) : AnalyticsConfig :=
  MkAnalyticsConfig default_limits default_sampling true false None true true (default (lit "shadow") (env "ANALYTICS_ROLLOUT")).

Section config.
  Context `{Unicode} `{FloatEnv} (env : string → option str).

(** [_safe_int(os.getenv(name), None)] and [_safe_float] *)
Definition safe_int (value : option str) : option Z := value ≫= py_int 10.
Definition safe_float (value : option str) : option pynum := value ≫= float_env.

Definition safe_bool (value : option str) (dflt : bool) : bool :=
  from_option (λ v, bool_decide (py_lower (py_strip v) ∈ TRUE_TEXTS)) dflt value.

Definition clamp (value min_val : Z) : Z := if value <? min_val then min_val else value.

(** [_clamp_float(value, 0.0, 1.0)]: neither comparison holds for a value that is not a number. *)
Definition clamp_float (x : pynum) : pynum :=
  match x with
  | NaN => NaN
  | Inf true => Fin 0
  | Inf false => Fin 1
  | Fin q => if Qle_bool 0 q then if Qle_bool q 1 then Fin q else Fin 1 else Fin 0
  end.

(** [load_analytics_config()] *)
Definition load_analytics_config : AnalyticsConfig :=
  let c := base_config env in
  let l := ac_limits c in
  MkAnalyticsConfig
    (MkLimits (from_option (λ v, clamp v 1) (max_event_bytes l) (safe_int (env "ANALYTICS_MAX_EVENT_BYTES")))
       (from_option (λ v, clamp v 1) (max_log_entries_per_request l) (safe_int (env "ANALYTICS_MAX_LOG_ENTRIES")))
       (max_redaction_depth l) (max_total_redaction_nodes l) (max_endpoint_segments l) (max_export_bytes l)
       (max_pending_nonces l) (max_session_id_bytes l) (max_concurrent_events l) (max_sampling_bucket l))
    (MkSamplingConfig (from_option clamp_float (sc_default_rate (ac_sampling c)) (safe_float (env "ANALYTICS_SAMPLING_RATE")))
       (sc_overrides (ac_sampling c)))
    (safe_bool (env "ANALYTICS_EXPORT_TOKEN_REQUIRED") (ac_export_token_required c))
    (safe_bool (env "ANALYTICS_PERSISTENCE_ENABLED") (ac_durable_enabled c))
    (match env "ANALYTICS_DURABLE_PATH" with
     | Some p => match py_strip p with [] => ac_durable_path c | p' => Some p' end
     | None => ac_durable_path c
     end)
    (safe_bool (env "ANALYTICS_CONSENT_ENABLED") (ac_consent_enabled c))
    (safe_bool (env "ANALYTICS_SESSION_REPLAY_PROTECTION") (ac_replay_enabled c))
    (default (ac_phase c) (env "ANALYTICS_ROLLOUT")).

(** The sampler [AnalyticsEngine.__init__] makes. *)
Definition engine_sampler (c : AnalyticsConfig) : result exn Sampler :=
  new_sampler true (sc_default_rate (ac_sampling c)) (sc_overrides (ac_sampling c)) 1000000.

Lemma clamp_float_unit x : x ≠ NaN → in_unit (clamp_float x) = true.
Proof.
  destruct x as [|[]|q]; cbn; try done. intros _. destruct (Qle_bool 0 q) eqn:E0; [|done]. destruct (Qle_bool q 1) eqn:E1; [|done].
  cbn. by rewrite E0, E1.
Qed.

(** Analytics configuration: whatever the environment, the limits that load pass the
    check of their constructor, the overrides are between 0 and 1, and the default rate
    is too, so that the engine gets its sampler, unless the rate in the environment is
    not a number, in which case making the engine raises. *)
Theorem analytics_config_well_formed :
  let c := load_analytics_config in
  make_limits (ac_limits c) = Ok (ac_limits c) ∧ Forall (λ p, in_unit p.2 = true) (sc_overrides (ac_sampling c)) ∧
  ((safe_float (env "ANALYTICS_SAMPLING_RATE") ≠ Some NaN ∧ make_sampling (ac_sampling c) = Ok (ac_sampling c) ∧
    is_ok (engine_sampler c) = true) ∨
   (safe_float (env "ANALYTICS_SAMPLING_RATE") = Some NaN ∧ is_ok (engine_sampler c) = false)).
Proof.
  cbv zeta. split_and!.
  - unfold make_limits, limits_list, load_analytics_config. cbn -[clamp].
    assert (∀ o dflt, 0 < dflt → 0 < from_option (λ v, clamp v 1) dflt o) as Hc.
    { intros [v|] dflt Hd; cbn; [|done]. unfold clamp. destruct (Z.ltb_spec v 1); lia. }
    pose proof (Hc (safe_int (env "ANALYTICS_MAX_EVENT_BYTES")) 8192 ltac:(lia)) as H1'.
    pose proof (Hc (safe_int (env "ANALYTICS_MAX_LOG_ENTRIES")) 256 ltac:(lia)) as H2'.
    apply Z.ltb_lt in H1', H2'. by rewrite H1', H2'.
  - repeat constructor.
  - unfold engine_sampler, new_sampler, make_sampling, load_analytics_config. cbn [ac_sampling sc_default_rate sc_overrides base_config].
    destruct (safe_float (env "ANALYTICS_SAMPLING_RATE")) as [x|]; [|left; by split_and!].
    assert (x = NaN ∨ x ≠ NaN) as [->|Hx] by (destruct x; (by left) || by right).
    + right. by split.
    + left. cbn [from_option]. rewrite (clamp_float_unit x Hx). split_and!; [congruence|done|done].
Qed.
End config.

(** * The export route *)

Section routes.
  Context `{Unicode} `{Alnum} `{FloatRepr} `{Gzip}.

Definition token_verified (export_token : pyval) : bool :=
  match export_token with PStr s => 8 <=? zlen s | _ => false end.

(** What the route answers: a refusal, or the artifact, if one could be made. *)
Inductive export_answer := Unauthorized | Exported (a : option ExportArtifact) (count : nat).

(** [_export_view] on the entries of the log. *)
Definition export_view (p : ExportPolicy) (max_memory : Z) (st : export_state) (entries : list LogEntry) (export_token : pyval)
    (max_entries : option Z) (id : str) (now : Z) : export_state * export_answer :=
  let verified := token_verified export_token in
  if negb verified && require_export_token p && negb (allow_unauthenticated_export_shadow_mode p) then (st, Unauthorized)
  else
    let entries := match max_entries with Some n => if 0 <? n then take (Z.to_nat n) entries else entries | None => entries end in
    match create_export p max_memory st entries (Some (lit "api_export")) None (lit "shadow") verified id now with
    | Ok (st, (a, _, count)) => (st, Exported a count)
    | Err _ => (st, Exported None 0)
    end.

(** Analytics routes: the export token is not compared with anything: every two texts
    of at least eight characters give the same answer, that of a verified export. *)
Theorem every_long_token_exports p max_memory st entries t t' max_entries id now :
  8 ≤ zlen t → 8 ≤ zlen t' →
  export_view p max_memory st entries (PStr t) max_entries id now = export_view p max_memory st entries (PStr t') max_entries id now ∧
  token_verified (PStr t) = true.
Proof.
  intros Ht Ht'. unfold export_view. cbn [token_verified]. apply Z.leb_le in Ht, Ht'. by rewrite Ht, Ht'.
Qed.

(** * The consent route *)

Definition status_of_request (status : pyval) : consent_status :=
  match status with
  | PStr s =>
      if bool_decide (s = lit "denied") then DENIED
      else if bool_decide (s = lit "grace") then GRACE
      else if bool_decide (s = lit "expired") then Consent.EXPIRED
      else if bool_decide (s = lit "withdrawn") then WITHDRAWN
      else if bool_decide (s = lit "invalid") then INVALID
      else GRANTED
  | _ => GRANTED
  end.

Definition YEAR : Z := 86400 * 365.

(** [_consent_view]: the state it records, if it records one. *)
Definition consent_view (m : manager) (account_tag status : pyval) (scopes : list str) (consent_token : option str) (now : Z)
    : manager * option ConsentState :=
  if truthy account_tag then
    let decision := MkDecision (status_of_request status) API_REQUEST scopes (now + YEAR) now CONSENT_SCHEMA_VERSION consent_token None in
    let '(m, s) := set_consent m (py_str account_tag) decision now in (m, Some s)
  else (m, None).

(** Analytics routes: a request with a status the route does not know, or none, records
    a grant for a year, whatever was recorded before: an account that had withdrawn is
    served again for the scopes of the request. *)
Theorem unknown_status_grants m tag status scopes token sc t now :
  tag ≠ [] → (∀ s, status = PStr s → s ∉ [lit "denied"; lit "grace"; lit "expired"; lit "withdrawn"; lit "invalid"]) →
  sc ∈ scopes → t ≤ now + YEAR →
  let m' := (consent_view (withdraw_consent m tag now).1 (PStr tag) status scopes token now).1 in
  (check_consent m' (Some tag) (Some sc) t).2.1 = true.
Proof.
  intros Htag Hst Hsc Ht. cbv zeta.
  assert (status_of_request status = GRANTED) as Hg.
  { destruct status as [| | | |s| |]; try done. specialize (Hst s eq_refl). rewrite !not_elem_of_cons in Hst.
    destruct Hst as (h1 & h2 & h3 & h4 & h5 & _). unfold status_of_request. by rewrite !bool_decide_false. }
  unfold consent_view. cbn [truthy py_str]. rewrite bool_decide_false by done. cbn [negb]. rewrite Hg.
  unfold set_consent, withdraw_consent. cbn [fst states set_states]. rewrite dict_get_set, decide_True by done.
  unfold same_consent. cbn [s_status].
  match goal with |- context [if ?b then touch _ _ else ?n] => assert (b = false) as -> by reflexivity end.
  unfold check_consent. cbn [fst states set_states]. rewrite dict_get_set, decide_True by done.
  unfold effective_status. cbn [s_status s_expires_at s_scopes d_status d_expires_at d_scope].
  destruct (Z.ltb_spec (now + YEAR) t); [lia|]. rewrite andb_false_r. change (refused_status GRANTED) with false. cbn iota.
  unfold in_scope. by rewrite bool_decide_true.
Qed.
End routes.

(** * Witnesses *)

#[local] Instance sample_unicode : Unicode := plain_unicode.
#[local] Instance sample_alnum : Alnum := λ _, false.
#[local] Instance sample_gzip : Gzip := λ b, b.
#[local] Instance sample_float : FloatRepr :=
  {| float_time := λ z, PyFloat (dec_str z) (dec_str z) (Ok z) (z =? 0); float_num := λ _, PyFloat [] [] (Ok 0) false |}.

Lemma every_long_token_exports_witness :
  export_view EXPORT_POLICY_DEFAULT 1024 (ExportState [] []) [sample_entry] (PStr (lit "letmein!")) None (lit "x") 3 =
  export_view EXPORT_POLICY_DEFAULT 1024 (ExportState [] []) [sample_entry] (PStr (lit "anything else")) None (lit "x") 3 ∧
  token_verified (PStr (lit "letmein!")) = true.
Proof.
  apply (every_long_token_exports EXPORT_POLICY_DEFAULT 1024 (ExportState [] []) [sample_entry] (lit "letmein!")
           (lit "anything else") None (lit "x") 3); vm_compute; discriminate.
Defined.

Lemma unknown_status_grants_witness :
  (check_consent (consent_view (withdraw_consent (Manager [] 1800) (lit "a") 5).1 (PStr (lit "a")) (PStr (lit "unknown")) [lit "x"] None 5).1
     (Some (lit "a")) (Some (lit "x")) 100).2.1 = true.
Proof.
  apply (unknown_status_grants (Manager [] 1800) (lit "a") (PStr (lit "unknown")) [lit "x"] None (lit "x") 100 5).
  - done.
  - intros s [= <-]. apply (proj1 (bool_decide_eq_false _)). vm_compute. reflexivity.
  - left.
  - vm_compute. discriminate.
Defined.
