(* ===== verification/ArtifactNormal.v ===== *)
(** The normal form of build artifacts: [normalize] of [zk/tools/artifact_manifest.py].  A
    JSON artifact loses the keys the toolchain lock calls volatile and is printed
    canonically; a WASM module loses the custom sections the lock names; other artifacts
    are taken byte for byte.

    Shown: the walk over a module accepts exactly a header followed by well-formed
    sections and returns the header with the sections that are kept; two JSON artifacts have
    the same normal form exactly when they agree but for volatile keys and key order; and a
    normal form is its own. *)
From Stdlib Require Import ZArith Lia.
From stdpp Require Import base decidable strings numbers list.
From S2P Require Import Prelude PyStr Json JsonIndent PyVal Codec.

Open Scope Z_scope.

#[local] Arguments lit _ : simpl never.

(** [BuildError] with its message, or another exception that the tool lets through. *)
Inductive tool_exn : Type :=
  | BuildError (msg : str)
  | Escaped (e : exn)
  | FileFailure.  (* an [OSError] *)

Definition fatal {A} (msg : string) : result tool_exn A := Err (BuildError (lit msg)).
Definition escaped {A} (r : result exn A) : result tool_exn A := map_err Escaped r.

(** * JSON *)

Fixpoint strip_volatile (volatile_keys : list str) (value : pyval) : pyval :=
  match value with
  | PDict kvs =>
      PDict ((fix go kvs := match kvs with
                            | [] => []
                            | (key, item) :: kvs =>
                                if bool_decide (key ∈ volatile_keys) then go kvs
                                else (key, strip_volatile volatile_keys item) :: go kvs
                            end) kvs)
  | PList l => PList (map (strip_volatile volatile_keys) l)
  | _ => value
  end.

Definition normalize_json `{FloatText} (data : bytes) (volatile_keys : list str) : result tool_exn bytes :=
  match json_loads <$> utf8_decode data with
  | None | Some (Err JSONDecodeError) => fatal "artifact declared as JSON is not valid UTF-8 JSON"
  | Some (Err IntDigitsError) => Err (Escaped (ValueError "Exceeds the limit (4300 digits) for integer string conversion"))
  | Some (Ok parsed) =>
      match utf8_encode (json_dumps true (strip_volatile volatile_keys parsed)) with
      | Some b => Ok b
      | None => Err (Escaped UnicodeError)
      end
  end.

(** * WASM *)

(** The loop of [_read_uleb128], [n] rounds from the end. *)
Fixpoint uleb_loop (n : nat) (data : bytes) (offset : nat) (acc shift : Z) : result tool_exn (Z * nat) :=
  match n with
  | O => fatal "malformed WASM: over-long LEB128"
  | S n =>
      match data !! offset with
      | None => fatal "truncated WASM: LEB128 ran past end of file"
      | Some byte =>
          let acc := Z.lor acc (Z.shiftl (Z.land byte 127) shift) in
          if Z.land byte 128 =? 0 then Ok (acc, S offset) else uleb_loop n data (S offset) acc (shift + 7)
      end
  end.

Definition read_uleb128 (data : bytes) (offset : nat) : result tool_exn (Z * nat) := uleb_loop 5 data offset 0 0.

(** [b.decode("utf-8", errors="replace")]: one replacement character for each maximal
    ill-formed part. *)
Definition second_byte (a b : Z) : bool :=
  cont_byte b &&
  (if a =? 224 then 160 <=? b else if a =? 237 then b <? 160
   else if a =? 240 then 144 <=? b else if a =? 244 then b <? 144 else true).

Definition bad_part (l : bytes) : nat :=
  match l with
  | a :: b :: r =>
      if (224 <=? a) && (a <? 240) then if second_byte a b then 2%nat else 1%nat
      else if (240 <=? a) && (a <? 245) then
        if second_byte a b then match r with c :: _ => if cont_byte c then 3%nat else 2%nat | [] => 2%nat end else 1%nat
      else 1%nat
  | _ => 1%nat
  end.

Fixpoint decode_replace_go (fuel : nat) (b : bytes) : str :=
  match b, fuel with
  | [], _ | _, O => []
  | _, S fuel =>
      match utf8_head b with
      | Some (c, n) => c :: decode_replace_go fuel (drop n b)
      | None => 65533 :: decode_replace_go fuel (drop (bad_part b) b)
      end
  end.
Definition decode_replace (b : bytes) : str := decode_replace_go (length b) b.

Definition WASM_MAGIC : bytes := [0; 97; 115; 109].

(** The name of a custom section with the given body. *)
Definition custom_name (data : bytes) (body_start body_end : nat) : result tool_exn str :=
  '(name_len, name_start) ← read_uleb128 data body_start;
  if Z.of_nat body_end <? Z.of_nat name_start + name_len
  then fatal "malformed WASM: custom section name exceeds section"
  else Ok (decode_replace (slice name_start (name_start + Z.to_nat name_len) data)).

(** The [while] loop; every round moves the offset on, so the length is enough fuel. *)
Fixpoint wasm_loop (fuel : nat) (data : bytes) (strip : list str) (out : bytes) (offset : nat) : result tool_exn bytes :=
  match data !! offset, fuel with
  | None, _ | _, O => Ok out
  | Some section_id, S fuel =>
      '(size, body_start) ← read_uleb128 data (S offset);
      if zlen data <? Z.of_nat body_start + size
      then fatal "truncated WASM: section length exceeds file size" else
      let body_end := (body_start + Z.to_nat size)%nat in
      stripped ← (if section_id =? 0
                  then name ← custom_name data body_start body_end; Ok (bool_decide (name ∈ strip))
                  else Ok false);
      wasm_loop fuel data strip
        (if (stripped : bool) then out else out ++ slice offset body_end data) body_end
  end.

Definition normalize_wasm (data : bytes) (strip_sections : list str) : result tool_exn bytes :=
  if (zlen data <? 8) || negb (bool_decide (take 4 data = WASM_MAGIC))
  then fatal "artifact declared as WASM lacks the \0asm magic header"
  else wasm_loop (length data) data strip_sections (take 8 data) 8.

(** * By kind *)

Definition normalize `{FloatText, Unicode} (volatile_json_keys strip_custom_sections : list str) (data : bytes) (kind : pyval) :
    result tool_exn bytes :=
  match kind with
  | PStr k =>
      if decide (k = lit "json") then normalize_json data volatile_json_keys
      else if decide (k = lit "wasm") then normalize_wasm data strip_custom_sections
      else if decide (k = lit "binary") then Ok data
      else Err (BuildError (lit "unknown artifact kind in lock file: " ++ py_repr kind))
  | _ => Err (BuildError (lit "unknown artifact kind in lock file: " ++ py_repr kind))
  end.

(** * What a module is made of *)

(** The bytes of a LEB128 number of at most [n] bytes, and its value. *)
Fixpoint leb_field (n : nat) (field : bytes) (acc shift : Z) : option Z :=
  match n, field with
  | S n, b :: field =>
      let acc := Z.lor acc (Z.shiftl (Z.land b 127) shift) in
      if Z.land b 128 =? 0 then match field with [] => Some acc | _ => None end
      else leb_field n field acc (shift + 7)
  | _, _ => None
  end.

(** The number at the head of a byte string, with the bytes it takes. *)
Fixpoint take_uleb (n : nat) (l : bytes) (acc shift : Z) : option (Z * nat) :=
  match n, l with
  | S n, b :: l =>
      let acc := Z.lor acc (Z.shiftl (Z.land b 127) shift) in
      if Z.land b 128 =? 0 then Some (acc, 1%nat)
      else (λ p, (p.1, S p.2)) <$> take_uleb n l acc (shift + 7)
  | _, _ => None
  end.

Record wasm_section := WasmSection { sec_id : Z; size_field : bytes; sec_body : bytes }.

Definition section_bytes (s : wasm_section) : bytes := sec_id s :: size_field s ++ sec_body s.

(** The name at the head of a custom section, which must end inside it. *)
Definition section_name (s : wasm_section) : option str :=
  '(n, k) ← take_uleb 5 (sec_body s) 0 0;
  if Z.of_nat k + n <=? zlen (sec_body s)
  then Some (decode_replace (slice k (k + Z.to_nat n) (sec_body s))) else None.

Definition wf_section (s : wasm_section) : Prop :=
  leb_field 5 (size_field s) 0 0 = Some (zlen (sec_body s)) ∧ (sec_id s = 0 → is_Some (section_name s)).

Definition is_stripped (strip : list str) (s : wasm_section) : bool :=
  (sec_id s =? 0) && match section_name s with Some n => bool_decide (n ∈ strip) | None => false end.

Definition module_bytes (header : bytes) (sections : list wasm_section) : bytes := header ++ (sections ≫= section_bytes).

Definition wasm_header (header : bytes) : Prop := length header = 8%nat ∧ take 4 header = WASM_MAGIC.

(** ** Numbers *)

Lemma uleb_loop_take n data offset acc shift v e :
  uleb_loop n data offset acc shift = Ok (v, e) ↔
  ∃ k, take_uleb n (drop offset data) acc shift = Some (v, k) ∧ e = (offset + k)%nat.
Proof.
  revert offset acc shift. induction n as [|n IH]; intros offset acc shift; cbn [uleb_loop].
  { split; [done|]. by intros (k & ? & _). }
  destruct (data !! offset) as [b|] eqn:Hb.
  - rewrite (drop_S _ _ _ Hb). cbn [take_uleb]. cbv zeta. case_match.
    + split; [intros [= <- <-]; exists 1%nat; split; [done|lia]|]. intros (k & [= <- <-] & ->). do 2 f_equal. lia.
    + rewrite IH. split.
      * intros (k & Hk & ->). exists (S k). rewrite Hk. split; [done|lia].
      * intros (k & Hk & ->). destruct (take_uleb n _ _ _) as [[v' k']|]; [|done]. cbn in Hk. simplify_eq.
        exists k'. split; [done|lia].
  - apply lookup_ge_None in Hb. rewrite drop_ge by done. split; [done|]. by intros (k & ? & _).
Qed.

Lemma take_uleb_field n l acc shift v k :
  take_uleb n l acc shift = Some (v, k) ↔ leb_field n (take k l) acc shift = Some v ∧ (k ≤ length l)%nat.
Proof.
  revert l acc shift v k. induction n as [|n IH]; intros [|b l] acc shift v k; cbn [take_uleb].
  1-3: split; [done|]; intros [Hf _]; destruct k; cbn in Hf; done.
  cbv zeta. destruct k as [|k].
  { split; [|by intros [? _]]. case_match; [done|]. destruct (take_uleb n _ _ _) as [[? ?]|]; done. }
  cbn [take leb_field length]. cbv zeta. case_match.
  - split; [intros [= <- <-]; split; [by rewrite take_0|lia]|]. intros [Hf Hk].
    destruct k as [|k]; [rewrite take_0 in Hf; by simplify_eq|]. destruct l; [cbn in Hk; lia|done].
  - rewrite <- Nat.succ_le_mono, <- IH. destruct (take_uleb n l _ _) as [[v' k']|]; cbn; split; intros; simplify_eq; done.
Qed.

Lemma leb_field_nonneg n field acc shift v :
  leb_field n field acc shift = Some v → 0 ≤ acc → 0 ≤ shift → 0 ≤ v.
Proof.
  revert field acc shift. induction n as [|n IH]; intros [|b field] acc shift Hf Ha Hs; cbn in Hf; try done.
  assert (0 ≤ Z.lor acc (Z.shiftl (Z.land b 127) shift)).
  { apply Z.lor_nonneg. split; [done|]. apply Z.shiftl_nonneg. apply Z.land_nonneg. lia. }
  case_match; [destruct field; by simplify_eq|]. eapply IH; [exact Hf|done|lia].
Qed.

Lemma leb_field_nonempty n field acc shift v : leb_field n field acc shift = Some v → field ≠ [].
Proof. destruct n; by destruct field. Qed.

(** A number is read off the head of whatever follows it. *)
Lemma leb_field_prefix n f g r t acc shift v w :
  leb_field n f acc shift = Some v → leb_field n g acc shift = Some w → f ++ r = g ++ t → f = g.
Proof.
  revert f g acc shift. induction n as [|n IH]; intros [|b f] [|c g] acc shift Hf Hg Heq; cbn in Hf, Hg; try done.
  cbn in Heq. simplify_eq. case_match.
  - destruct f, g; done.
  - f_equal. by eapply IH.
Qed.

(** ** Sections *)

Lemma take_uleb_take n l m acc shift v k :
  take_uleb n (take m l) acc shift = Some (v, k) ↔ take_uleb n l acc shift = Some (v, k) ∧ (k ≤ m)%nat.
Proof.
  rewrite !take_uleb_field, length_take, take_take. destruct (decide (k ≤ m)%nat) as [Hk|Hk].
  - rewrite Nat.min_l by done. naive_solver lia.
  - naive_solver lia.
Qed.

Lemma slice_take {A} i j m (l : list A) : (j ≤ m)%nat → slice i j (take m l) = slice i j l.
Proof. intros. unfold slice. rewrite skipn_firstn_comm, take_take. f_equal. lia. Qed.

Lemma slice_drop {A} i j m (l : list A) : slice i j (drop m l) = slice (m + i) (m + j) l.
Proof. unfold slice. rewrite drop_drop. f_equal. lia. Qed.

Lemma custom_name_ok data bs be name i f :
  (bs ≤ be ≤ length data)%nat →
  custom_name data bs be = Ok name ↔ section_name (WasmSection i f (slice bs be data)) = Some name.
Proof.
  intros Hb. unfold custom_name, section_name, read_uleb128. cbn [sec_body].
  assert (zlen (slice bs be data) = Z.of_nat be - Z.of_nat bs) as Hlen by (unfold zlen; rewrite length_slice; lia).
  rewrite bind_ok, bind_Some. split.
  - intros ([n e] & (k & Hk & ->)%uleb_loop_take & Hn). case_match eqn:Hin; [done|]. apply Z.ltb_ge in Hin.
    apply take_uleb_field in Hk as Hf. pose proof (leb_field_nonneg _ _ _ _ _ (proj1 Hf) ltac:(lia) ltac:(lia)).
    exists (n, k). split; [unfold slice; apply take_uleb_take; split; [done|lia]|].
    rewrite (proj2 (Z.leb_le _ _)) by (rewrite Hlen; lia). simplify_eq. do 2 f_equal.
    unfold slice at 2. rewrite slice_take, slice_drop by lia. f_equal. lia.
  - intros ([n k] & Hk & Hn). case_match eqn:Hin; [|done]. apply Z.leb_le in Hin. rewrite Hlen in Hin.
    unfold slice in Hk. apply take_uleb_take in Hk as [Hk Hkm]. apply take_uleb_field in Hk as Hf.
    pose proof (leb_field_nonneg _ _ _ _ _ (proj1 Hf) ltac:(lia) ltac:(lia)).
    exists (n, (bs + k)%nat). split; [apply uleb_loop_take; eauto|].
    rewrite (proj2 (Z.ltb_ge _ _)) by lia. simplify_eq. do 2 f_equal.
    unfold slice at 3. rewrite slice_take, slice_drop by lia. f_equal. lia.
Qed.

Definition strips (data : bytes) (strip : list str) (section_id : Z) (bs be : nat) : result tool_exn bool :=
  if section_id =? 0 then name ← custom_name data bs be; Ok (bool_decide (name ∈ strip)) else Ok false.

Lemma strips_ok data strip i f bs be b :
  (bs ≤ be ≤ length data)%nat →
  let s := WasmSection i f (slice bs be data) in
  strips data strip i bs be = Ok b ↔ (i = 0 → is_Some (section_name s)) ∧ b = is_stripped strip s.
Proof.
  intros Hb s. unfold strips, is_stripped, s. cbn [sec_id]. destruct (Z.eqb_spec i 0) as [->|Hi]; cbn [andb].
  - rewrite bind_ok. split.
    + intros (name & Hn & [= <-]). apply (custom_name_ok _ _ _ _ 0 f) in Hn; [|done]. by rewrite Hn.
    + intros [[name Hn] ->]; [done|]. exists name. rewrite Hn. split; [|done]. by apply (custom_name_ok _ _ _ _ 0 f).
  - split; [intros [= <-]; done|by intros [_ ->]].
Qed.

(** One round of the loop, once the size was read. *)
Definition wasm_round (fuel : nat) (data : bytes) (strip : list str) (out : bytes) (offset : nat) (i : Z) (bs be : nat) :
    result tool_exn bytes :=
  stripped ← strips data strip i bs be;
  wasm_loop fuel data strip (if (stripped : bool) then out else out ++ slice offset be data) be.

Lemma wasm_loop_round fuel data strip out offset i res :
  data !! offset = Some i →
  wasm_loop (S fuel) data strip out offset = Ok res ↔
  ∃ size k, leb_field 5 (take k (drop (S offset) data)) 0 0 = Some size ∧ 0 ≤ size ∧
    let bs := (S offset + k)%nat in let be := (bs + Z.to_nat size)%nat in
    (be ≤ length data)%nat ∧ wasm_round fuel data strip out offset i bs be = Ok res.
Proof.
  intros Hi. cbn [wasm_loop]. rewrite Hi, bind_ok. apply lookup_lt_Some in Hi. split.
  - intros ([size bs] & (k & Hk & ->)%uleb_loop_take & Hw). case_match eqn:Hin; [done|]. apply Z.ltb_ge in Hin.
    apply take_uleb_field in Hk as [Hf _]. pose proof (leb_field_nonneg _ _ _ _ _ Hf ltac:(lia) ltac:(lia)).
    unfold zlen in Hin. exists size, k. split_and!; [done|done|lia|exact Hw].
  - intros (size & k & Hf & Hs & Hle & Hw). exists (size, (S offset + k)%nat). split.
    + apply uleb_loop_take. exists k. split; [|done]. apply take_uleb_field. rewrite length_drop. split; [done|lia].
    + rewrite (proj2 (Z.ltb_ge _ _)) by (unfold zlen; lia). exact Hw.
Qed.

(** The bytes of a section, as the slices the loop takes. *)
Lemma section_slices data offset i k n :
  data !! offset = Some i → (S offset + k + n ≤ length data)%nat →
  let s := WasmSection i (take k (drop (S offset) data)) (slice (S offset + k) (S offset + k + n) data) in
  section_bytes s = slice offset (S offset + k + n) data ∧ length (section_bytes s) = S (k + n) ∧
  drop offset data = section_bytes s ++ drop (offset + length (section_bytes s)) data.
Proof.
  intros Hi Hle s.
  assert (section_bytes s = slice offset (S offset + k + n) data) as Hs.
  { unfold section_bytes, s, slice. cbn [sec_id size_field sec_body]. rewrite (drop_S _ _ _ Hi).
    replace (S offset + k + n - offset)%nat with (S (k + n)) by lia. cbn [take]. f_equal.
    rewrite <- take_take_drop, drop_drop. do 2 f_equal. lia. }
  assert (length (section_bytes s) = S (k + n)) as Hl by (rewrite Hs, length_slice; lia).
  split_and!; [done|done|]. rewrite Hl, Hs. unfold slice.
  rewrite <- (take_drop (S offset + k + n - offset) (drop offset data)) at 1. rewrite drop_drop. do 2 f_equal. lia.
Qed.

Lemma section_step fuel data strip out offset res :
  (offset < length data)%nat →
  wasm_loop (S fuel) data strip out offset = Ok res ↔
  ∃ s, wf_section s ∧ drop offset data = section_bytes s ++ drop (offset + length (section_bytes s)) data ∧
       wasm_loop fuel data strip (if is_stripped strip s then out else out ++ section_bytes s)
         (offset + length (section_bytes s)) = Ok res.
Proof.
  intros Ho. destruct (lookup_lt_is_Some_2 data offset Ho) as [i Hi]. rewrite (wasm_loop_round _ _ _ _ _ i) by done. split.
  - intros (size & k & Hf & Hsz & Hle & (b & Hb & Hw)%bind_ok).
    destruct (section_slices data offset i k (Z.to_nat size) Hi Hle) as (Hs & Hl & Hd).
    apply (strips_ok _ _ i (take k (drop (S offset) data))) in Hb as [Hnm ->]; [|lia].
    eexists. split; [|split; [exact Hd|]].
    + split; [|exact Hnm]. cbn [size_field sec_body]. rewrite Hf. unfold zlen. rewrite length_slice by lia. f_equal. lia.
    + rewrite Hl, Hs. by replace (offset + S (k + Z.to_nat size))%nat with (S offset + k + Z.to_nat size)%nat by lia.
  - intros ([i' f body] & [Hsz Hnm] & Hd & Hw). cbn [sec_id size_field sec_body] in Hsz, Hnm.
    set (rest := drop _ data) in Hd at 2. rewrite (drop_S _ _ _ Hi) in Hd. unfold section_bytes in Hd.
    cbn [sec_id size_field sec_body app] in Hd. injection Hd as -> Hd. rewrite <- app_assoc in Hd.
    assert (S offset + length f + length body ≤ length data)%nat as Hle.
    { apply (f_equal length) in Hd. rewrite length_drop, !length_app in Hd. lia. }
    assert (take (length f) (drop (S offset) data) = f) as Hf by (rewrite Hd; apply take_app_length).
    assert (slice (S offset + length f) (S offset + length f + length body) data = body) as Hb.
    { unfold slice. rewrite <- drop_drop, Hd, drop_app_length.
      replace (_ - _)%nat with (length body) by lia. apply take_app_length. }
    destruct (section_slices data offset i' (length f) (length body) Hi Hle) as (Hs & Hl & _). rewrite Hf, Hb in Hs, Hl.
    exists (zlen body), (length f). rewrite Hf. split_and!; [done|apply zlen_nonneg|]. unfold zlen. rewrite Nat2Z.id.
    split; [done|]. apply bind_ok. exists (is_stripped strip (WasmSection i' f body)). split.
    + pose proof (strips_ok data strip i' f (S offset + length f) (S offset + length f + length body)) as Hst.
      rewrite Hb in Hst. apply Hst; [lia|done].
    + rewrite <- Hs. rewrite Hl in Hw. by replace (S offset + length f + length body)%nat with (offset + S (length f + length body))%nat by lia.
Qed.

Lemma wasm_loop_ok fuel data strip out offset res :
  (length data - offset ≤ fuel)%nat →
  wasm_loop fuel data strip out offset = Ok res ↔
  ∃ sections, Forall wf_section sections ∧ drop offset data = sections ≫= section_bytes ∧
    res = out ++ (filter (λ s, is_stripped strip s = false) sections ≫= section_bytes).
Proof.
  revert out offset. induction fuel as [|fuel IH]; intros out offset Hf;
    destruct (decide (offset < length data)%nat) as [Ho|Ho]; try lia.
  1,3: assert (drop offset data = []) as Hd by (apply drop_ge; lia);
    assert (data !! offset = None) as Hl by (apply lookup_ge_None; lia);
    cbn [wasm_loop]; rewrite Hl, Hd; split;
    [intros [= <-]; exists []; split_and!; [constructor|done|by rewrite app_nil_r]
    |intros ([|s sections] & _ & Heq & ->); [by rewrite app_nil_r|done]].
  rewrite section_step by done. split.
  - intros (s & Hs & Hd & Hw). apply IH in Hw as (sections & Hall & Hrest & ->); [|unfold section_bytes; cbn; lia].
    exists (s :: sections). split_and!; [by constructor|by rewrite bind_cons, <- Hrest, <- Hd|].
    rewrite filter_cons. destruct (is_stripped strip s); cbn; [done|]. by rewrite <- app_assoc.
  - intros ([|s sections] & Hall & Hd & ->).
    { apply (f_equal length) in Hd. rewrite length_drop in Hd. cbn in Hd. lia. }
    apply Forall_cons in Hall as [Hs Hall]. rewrite bind_cons in Hd.
    assert (drop (offset + length (section_bytes s)) data = sections ≫= section_bytes) as Hrest
      by (rewrite <- drop_drop, Hd; apply drop_app_length).
    exists s. split_and!; [done|by rewrite Hrest|]. apply IH; [unfold section_bytes; cbn; lia|].
    exists sections. split_and!; [done..|]. rewrite filter_cons. destruct (is_stripped strip s); cbn; [done|]. by rewrite <- app_assoc.
Qed.

Lemma normalize_wasm_ok data strip out :
  normalize_wasm data strip = Ok out ↔
  ∃ header sections, wasm_header header ∧ Forall wf_section sections ∧ data = module_bytes header sections ∧
    out = module_bytes header (filter (λ s, is_stripped strip s = false) sections).
Proof.
  unfold normalize_wasm, module_bytes, wasm_header. split.
  - case_match eqn:Hh; [done|]. apply orb_false_iff in Hh as [Hl Hm].
    apply Z.ltb_ge in Hl. apply negb_false_iff, bool_decide_eq_true in Hm. unfold zlen in Hl.
    rewrite wasm_loop_ok by lia. intros (sections & Hall & Hd & ->). exists (take 8 data), sections. split_and!.
    + rewrite length_take. lia.
    + by rewrite take_take.
    + done.
    + by rewrite <- Hd, take_drop.
    + done.
  - intros (header & sections & [Hl Hm] & Hall & -> & ->).
    assert (take 8 (header ++ (sections ≫= section_bytes)) = header) as Ht by (rewrite <- Hl; apply take_app_length).
    rewrite (proj2 (Z.ltb_ge _ _)) by (unfold zlen; rewrite length_app; lia).
    rewrite bool_decide_eq_true_2 by (rewrite take_app_le by lia; done). cbn [negb orb].
    rewrite wasm_loop_ok by lia. exists sections. split_and!; [done| |by rewrite Ht].
    rewrite <- Hl. apply drop_app_length.
Qed.

(** A module is made of one list of sections only. *)
Lemma sections_inj ss ts :
  Forall wf_section ss → Forall wf_section ts → ss ≫= section_bytes = ts ≫= section_bytes → ss = ts.
Proof.
  intros Hs. revert ts. induction Hs as [|s ss [Hf _] _ IH]; intros ts Ht Heq.
  { destruct ts; [done|]. by rewrite bind_cons in Heq. }
  destruct Ht as [|t ts [Hg _] Ht]; [by rewrite bind_cons in Heq|]. rewrite !bind_cons in Heq.
  destruct s as [i f b], t as [j g c]. unfold section_bytes at 1 3 in Heq. cbn [sec_id size_field sec_body app] in *.
  injection Heq as -> Heq. rewrite <- !app_assoc in Heq.
  pose proof (leb_field_prefix _ _ _ _ _ _ _ _ _ Hf Hg Heq) as ->. apply app_inv_head in Heq.
  rewrite Hf in Hg. assert (length b = length c) as Hl by (unfold zlen in Hg; simplify_eq; lia).
  apply app_inj_1 in Heq as [-> Heq]; [|done]. f_equal. by apply IH.
Qed.

Lemma module_inj h ss h' ts :
  wasm_header h → wasm_header h' → Forall wf_section ss → Forall wf_section ts →
  module_bytes h ss = module_bytes h' ts → h = h' ∧ ss = ts.
Proof.
  intros [Hl _] [Hl' _] Hs Ht Heq. apply app_inj_1 in Heq as [-> Heq]; [|congruence]. split; [done|]. by apply sections_inj.
Qed.

(** * Volatile keys *)

Lemma Forall_kept {A} (P Q : A → Prop) `{!∀ x, Decision (Q x)} (l : list A) : Forall P l → Forall P (filter Q l).
Proof. rewrite !Forall_forall. intros Hl x [_ Hx]%list_elem_of_filter. auto. Qed.

Lemma strip_dict vk kvs :
  strip_volatile vk (PDict kvs) = PDict (map (λ p, (p.1, strip_volatile vk p.2)) (filter (λ p, p.1 ∉ vk) kvs)).
Proof.
  cbn [strip_volatile]. f_equal. induction kvs as [|[k v] kvs IH]; [done|]. rewrite filter_cons. cbn [fst].
  rewrite IH. destruct (decide (k ∈ vk)) as [Hk|Hk].
  - rewrite bool_decide_eq_true_2 by done. rewrite decide_False by (intros ?; done). done.
  - rewrite bool_decide_eq_false_2 by done. by rewrite decide_True.
Qed.

Lemma strip_canon vk v : strip_volatile vk (canon v) = canon (strip_volatile vk v).
Proof.
  induction v as [| | | | |l IH|kvs IH] using pyval_nested_ind; try done.
  - cbn. f_equal. rewrite !map_map. by apply map_ext_Forall.
  - rewrite strip_dict, !canon_dict, strip_dict. f_equal.
    rewrite filter_sort_items, map_sort_items. f_equal. rewrite !map_map.
    induction IH as [|[k v] kvs Hv _ IH]; [done|]. cbn [map fst snd]. rewrite !filter_cons. cbn [fst].
    case_decide; cbn [map]; [|exact IH]. cbn [fst snd] in *. by rewrite IH, Hv.
Qed.

Lemma filter_map_strip vk (kvs : list (str * pyval)) :
  filter (λ p, p.1 ∉ vk) (map (λ p, (p.1, strip_volatile vk p.2)) kvs)
  = map (λ p, (p.1, strip_volatile vk p.2)) (filter (λ p, p.1 ∉ vk) kvs).
Proof.
  induction kvs as [|[k v] kvs IH]; [done|]. cbn [map fst snd]. rewrite !filter_cons. cbn [fst]. rewrite IH. by case_decide.
Qed.

Lemma strip_idempotent vk v : strip_volatile vk (strip_volatile vk v) = strip_volatile vk v.
Proof.
  induction v as [| | | | |l IH|kvs IH] using pyval_nested_ind; try done.
  - cbn. f_equal. rewrite map_map. by apply map_ext_Forall.
  - rewrite !strip_dict. f_equal. rewrite filter_map_strip, list_filter_filter_l by done. rewrite map_map.
    apply map_ext_Forall. apply Forall_forall. intros p [_ Hp]%list_elem_of_filter. cbn.
    eapply Forall_forall in IH; [|exact Hp]. by rewrite IH.
Qed.

Lemma plain_strip vk v : plain v = true → plain (strip_volatile vk v) = true.
Proof.
  induction v as [| | | | |l IH|kvs IH] using pyval_nested_ind; try done; intros Hv.
  - cbn in *. apply forallb_Forall in Hv. apply forallb_Forall, Forall_map. rewrite Forall_forall in *. auto.
  - rewrite strip_dict. cbn [plain] in *. apply andb_true_iff in Hv as [Hv Hnd]. apply bool_decide_eq_true in Hnd.
    apply andb_true_iff. rewrite bool_decide_eq_true, keys_map. apply forallb_Forall in Hv. split.
    + apply forallb_Forall, Forall_map. apply Forall_forall. intros p [_ Hp]%list_elem_of_filter.
      rewrite Forall_forall in Hv, IH. apply Hv in Hp as Hpp. apply andb_true_iff in Hpp as [Hk Hb]. cbn. rewrite Hk. by apply IH.
    + eapply sublist_NoDup; [exact Hnd|]. apply fmap_sublist, sublist_filter.
Qed.

(** The document an artifact holds. *)
Definition json_document `{FloatText} (data : bytes) : option pyval :=
  t ← utf8_decode data; to_option (json_loads t).

Lemma normalize_json_ok `{FloatText} data vk v :
  json_document data = Some v → plain v = true →
  ∃ b, normalize_json data vk = Ok b ∧ utf8_encode (json_dumps true (strip_volatile vk v)) = Some b.
Proof.
  unfold json_document, normalize_json. intros Hd Hv. apply bind_Some in Hd as (t & -> & Hl). cbn [fmap option_fmap option_map].
  destruct (json_loads t) as [w|e]; [|done]. cbn in Hl. simplify_eq.
  destruct (json_dumps_utf8 true (strip_volatile vk v) (plain_strip vk v Hv)) as [[b Hb] _]. rewrite Hb. eauto.
Qed.

(** The normal form of a document is a document: what is left of it, in key order. *)
Lemma normal_document `{FloatText} vk v b :
  plain v = true → utf8_encode (json_dumps true (strip_volatile vk v)) = Some b →
  json_document b = Some (canon (strip_volatile vk v)).
Proof.
  intros Hv Hb. unfold json_document.
  rewrite (utf8_decode_encode _ _ (proj2 (json_dumps_utf8 true _ (plain_strip vk v Hv))) Hb). cbn [mbind option_bind].
  by rewrite json_loads_dumps by by apply plain_strip.
Qed.

(** * Properties *)

(** C35. A module is accepted exactly when it is a header with the magic and well-formed
    sections, of which there is one list only; its normal form is the header with the
    sections that are not stripped, byte for byte and in order. *)
Theorem wasm_normal_form_exact data strip out :
  normalize_wasm data strip = Ok out ↔
  ∃ header sections,
    wasm_header header ∧ Forall wf_section sections ∧ data = module_bytes header sections ∧
    out = module_bytes header (filter (λ s, is_stripped strip s = false) sections) ∧
    (∀ h ss, wasm_header h → Forall wf_section ss → data = module_bytes h ss → h = header ∧ ss = sections).
Proof.
  rewrite normalize_wasm_ok. split.
  - intros (h & ss & Hh & Hss & -> & ->). exists h, ss. split_and!; [done..|]. intros h' ss' Hh' Hss' Heq. by apply module_inj.
  - intros (h & ss & Hh & Hss & Hd & Ho & _). eauto 10.
Qed.

(** Normalization masks nothing but what the policy names: documents with the same normal
    form agree but for volatile keys and the order of keys, modules with the same normal
    form have the same header and the same kept sections. *)
Theorem normal_form_masks_only_policy `{FloatText} vk strip :
  (∀ d d' v v', json_document d = Some v → json_document d' = Some v' → plain v = true → plain v' = true →
     normalize_json d vk = normalize_json d' vk ↔ canon (strip_volatile vk v) = canon (strip_volatile vk v')) ∧
  (∀ h h' ss ss', wasm_header h → wasm_header h' → Forall wf_section ss → Forall wf_section ss' →
     normalize_wasm (module_bytes h ss) strip = normalize_wasm (module_bytes h' ss') strip ↔
     h = h' ∧ filter (λ s, is_stripped strip s = false) ss = filter (λ s, is_stripped strip s = false) ss').
Proof.
  split.
  - intros d d' v v' Hd Hd' Hv Hv'. destruct (normalize_json_ok d vk v Hd Hv) as (b & -> & Hb).
    destruct (normalize_json_ok d' vk v' Hd' Hv') as (b' & -> & Hb'). split.
    + intros [= <-]. eapply (json_bytes_inj true); [by apply plain_strip..|exact Hb|exact Hb'].
    + unfold json_dumps in *. intros Heq. congruence.
  - intros h h' ss ss' Hh Hh' Hs Hs'.
    rewrite (proj2 (normalize_wasm_ok (module_bytes h ss) strip _)) by eauto 10.
    rewrite (proj2 (normalize_wasm_ok (module_bytes h' ss') strip _)) by eauto 10. split.
    + intros [= Heq]. apply module_inj in Heq; [done|done|done|by apply Forall_kept..].
    + by intros [-> ->].
Qed.

(** A normal form is its own normal form. *)
Theorem normal_form_is_normal `{FloatText, Unicode} vk strip data kind out :
  normalize vk strip data kind = Ok out → (∀ v, json_document data = Some v → plain v = true) →
  normalize vk strip out kind = Ok out.
Proof.
  unfold normalize. intros Hn Hp. destruct kind as [| | | |k| |]; try done. repeat case_decide; try done.
  - destruct (json_document data) as [v|] eqn:Hd.
    + specialize (Hp v eq_refl). destruct (normalize_json_ok data vk v Hd Hp) as (b & Hb & He). rewrite Hb in Hn. simplify_eq.
      pose proof (normal_document vk v out Hp He) as Hd'.
      destruct (normalize_json_ok out vk _ Hd') as (b & -> & Hb'); [by rewrite plain_canon, plain_strip|].
      unfold json_dumps in *. rewrite strip_canon, canon_idempotent, strip_idempotent, He in Hb'. congruence.
    + exfalso. unfold json_document, normalize_json in *. destruct (utf8_decode data) as [t|]; [|done].
      cbn [mbind option_bind fmap option_fmap option_map] in *. by destruct (json_loads t) as [|[]].
  - apply normalize_wasm_ok in Hn as (h & ss & Hh & Hss & -> & ->). apply normalize_wasm_ok.
    exists h, (filter (λ s, is_stripped strip s = false) ss). split_and!; [done|by apply Forall_kept|done|]. by rewrite list_filter_filter_l.
Qed.

(** * An artifact *)

#[local] Instance sample_floats : FloatText := λ s, PyFloat s s (Err OverflowError) false.
#[local] Existing Instance plain_unicode.

Definition sample_artifact : bytes := default [] (utf8_encode (print_value false
  (PDict [(lit "noir_version", PStr (lit "1.0")); (lit "names", PList [PStr (lit "main")]);
          (lit "abi", PDict [(lit "warnings", PInt 2); (lit "fields", PList [PInt 7; PNone])])]))).
Definition sample_normal : bytes := default [] (utf8_encode (print_value true
  (PDict [(lit "abi", PDict [(lit "fields", PList [PInt 7; PNone])]); (lit "noir_version", PStr (lit "1.0"))]))).

Lemma normal_form_is_normal_witness :
  normalize [lit "names"; lit "warnings"] [] sample_normal (PStr (lit "json")) = Ok sample_normal.
Proof.
  apply (normal_form_is_normal _ _ sample_artifact); [vm_compute; reflexivity|].
  intros v Hv. vm_compute in Hv. injection Hv as <-. reflexivity.
Defined.
