(* ===== verification/ArtifactManifest.v ===== *)
(** The reproducible-artifact manifest: [zk/tools/artifact_manifest.py].  The toolchain lock
    declares artifacts, sources and limits; [write] digests the declared artifacts and the
    sources of a working tree into a manifest, [verify] digests the tree again and reports
    every difference, [compare] compares two manifests.

    A working tree is the list of its regular files by path; which of them a glob pattern
    lists is the parameter [Glob], how floats compare is [FloatEq].  The structured signals on
    standard error are left out but for the findings.

    Shown: the provenance of a tree does not depend on the order a directory lists its
    files; a manifest that was written verifies against the same tree; and a tree that
    verifies has, at every declared path, the bytes the manifest was written from, unless two
    named byte strings collide. *)
From Stdlib Require Import ZArith Lia.
From stdpp Require Import base decidable strings numbers list sorting.
From S2P Require Import Prelude PyStr Json JsonIndent PyVal Codec Sha256 MetadataErrors ArtifactNormal.

Open Scope Z_scope.

#[local] Arguments lit _ : simpl never.

Definition MANIFEST_FORMAT : str := lit "harpocrates.zk-artifact-manifest".
Definition MANIFEST_VERSION : Z := 1.
Definition EXIT_OK : Z := 0.
Definition EXIT_DRIFT : Z := 1.
Definition EXIT_FATAL : Z := 3.

Inductive ArtifactState : Type := MISSING | SKIPPED | OVERSIZE | UNREADABLE | DIGESTED | MATCHED | DRIFTED.

#[export] Instance artifact_state_eq_dec : EqDecision ArtifactState.
Proof. solve_decision. Defined.

Definition state_text (s : ArtifactState) : str :=
  lit match s with
      | MISSING => "missing" | SKIPPED => "skipped" | OVERSIZE => "oversize" | UNREADABLE => "unreadable"
      | DIGESTED => "digested" | MATCHED => "matched" | DRIFTED => "drifted"
      end.

Definition FATAL_STATES : list ArtifactState := [OVERSIZE; UNREADABLE].

(** * The working tree *)

(** A regular file: its bytes, or one that cannot be read, of a size. *)
Inductive tree_file : Type := Data (b : bytes) | Unreadable (size : Z).

Notation tree := (list (str * tree_file)).

Definition st_size (f : tree_file) : Z := match f with Data b => zlen b | Unreadable n => n end.

Definition read_bytes (path : str) (t : tree) : result tool_exn bytes :=
  match dict_get path t with Some (Data b) => Ok b | _ => Err FileFailure end.

(** [path.read_text(encoding="utf-8")] *)
Definition read_text (path : str) (t : tree) : result tool_exn str :=
  b ← read_bytes path t;
  match utf8_decode b with Some s => Ok s | None => Err (Escaped UnicodeError) end.

(** Whether [root.glob(pattern)] lists a path. *)
Class Glob := glob_matches : str → str → bool.

(** Paths compare by their parts, so the separator (code point 47) comes before every
    character. *)
Definition path_key (p : str) : str := map (λ c, if c =? 47 then 0 else if (0 <=? c) && (c <? 47) then c + 1 else c) p.

(** [sorted(root.glob(pattern))] *)
Definition sorted_glob `{Glob} (pattern : str) (t : tree) : list str :=
  (sort_items (map (λ p, (path_key p, p)) (filter (λ p, glob_matches pattern p = true) t.*1))).*2.

(** * Values of a document *)

(** [v[key]] *)
Definition item (v : pyval) (key : string) : result tool_exn pyval :=
  match v with
  | PDict d => match dict_get (lit key) d with Some x => Ok x | None => Err (Escaped (KeyError key)) end
  | _ => Err (Escaped (TypeError "subscript"))
  end.

(** [v.get(key)] and the like need a dict. *)
Definition as_dict (v : pyval) : result tool_exn (list (str * pyval)) :=
  match v with PDict d => Ok d | _ => Err (Escaped AttributeError) end.

(** [tuple(v)] *)
Definition as_tuple (v : pyval) : result tool_exn (list pyval) :=
  match v with
  | PList l => Ok l
  | PStr s => Ok (map (λ c, PStr [c]) s)
  | PDict d => Ok (map (λ p, PStr p.1) d)
  | _ => Err (Escaped (TypeError "not iterable"))
  end.

Definition hashable (v : pyval) : bool := match v with PList _ | PDict _ => false | _ => true end.

(** [frozenset(v)]: what it holds of texts, which is all that is ever looked up in it. *)
Definition as_text_set (v : pyval) : result tool_exn (list str) :=
  l ← as_tuple v;
  if forallb hashable l then Ok (omap (λ x, match x with PStr s => Some s | _ => None end) l)
  else Err (Escaped (TypeError "unhashable type")).

(** [v == w] when [v] or [w] is a float. *)
Class FloatEq := float_eq : pyval → pyval → bool.

Definition number_of (v : pyval) : option Z :=
  match v with PBool b => Some (if b then 1 else 0) | PInt z => Some z | _ => None end.

(** [v == w] *)
Fixpoint py_eq `{FloatEq} (v w : pyval) {struct v} : bool :=
  match v, w with
  | PFloat _, _ | _, PFloat _ => float_eq v w
  | PNone, PNone => true
  | PStr s, PStr s' => bool_decide (s = s')
  | PList l, PList l' =>
      (fix go l l' := match l, l' with
                      | [], [] => true
                      | x :: l, y :: l' => py_eq x y && go l l'
                      | _, _ => false
                      end) l l'
  | PDict d, PDict d' =>
      (length d =? length d')%nat &&
      forallb (λ p, match dict_get p.1 d' with Some y => py_eq p.2 y | None => false end) d
  | _, _ => match number_of v, number_of w with Some a, Some b => a =? b | _, _ => false end
  end.

(** * The toolchain lock *)

Record Limits := {
  max_artifact_bytes : Z;
  max_artifacts : Z;
  max_provenance_files : Z;
  max_circuits : Z;
}.

Record Lock := {
  raw : list (str * pyval);
  limits : Limits;
  volatile_json_keys : list str;
  strip_custom_sections : list str;
  lk_artifacts : list pyval;
  provenance_globs : list pyval;
  circuit_root : str;
  package_file : str;
}.

Definition raw_item (lock : Lock) (key : string) : result tool_exn pyval := item (PDict (raw lock)) key.

Definition DEFAULT_CIRCUIT_ROOT : str := lit "zk/noir".
Definition DEFAULT_PACKAGE_FILE : str := lit "Nargo.toml".

(** [json.loads(path.read_text(...))] with the two [BuildError]s of its callers. *)
Definition read_document `{FloatText} (path : str) (t : tree) (missing malformed : string) : result tool_exn pyval :=
  if negb (dict_has path t) then Err (BuildError (lit missing ++ path)) else
  s ← read_text path t;
  match json_loads s with
  | Ok v => Ok v
  | Err JSONDecodeError => Err (BuildError (lit malformed ++ path))
  | Err IntDigitsError => Err (Escaped (ValueError "Exceeds the limit (4300 digits) for integer string conversion"))
  end.

Definition usable (value : str) : bool :=
  negb (bool_decide (value = []) || starts_with (lit "/") value || bool_decide (lit ".." ∈ split_on 47 value)).

Section lock.
Context `{FloatText, Unicode, FloatEq}.

Definition check_coverage_field (label : string) (value : str) : result tool_exn unit :=
  ensure (usable value)
    (BuildError (lit "toolchain lock declares an unusable coverage " ++ lit label ++ lit ": " ++ repr_str value)).

Definition read_limits (v : pyval) : result tool_exn Limits :=
  a ← item v "max_artifact_bytes" ≫= λ x, escaped (py_to_int x);
  b ← item v "max_artifacts" ≫= λ x, escaped (py_to_int x);
  c ← item v "max_provenance_files" ≫= λ x, escaped (py_to_int x);
  d ← item v "max_circuits" ≫= λ x, escaped (py_to_int x);
  Ok {| max_artifact_bytes := a; max_artifacts := b; max_provenance_files := c; max_circuits := d |}.

Definition load_lock (path : str) (t : tree) : result tool_exn Lock :=
  v ← read_document path t "toolchain lock not found: " "toolchain lock is not valid JSON: ";
  raw ← as_dict v;
  ensure (py_eq (get_or_none (lit "format") raw) (PStr (lit "harpocrates.zk-toolchain-lock")))
    (BuildError (lit "toolchain lock has an unexpected format identifier"));;
  let version := get_or_none (lit "version") raw in
  ensure (py_eq version (PInt 1)) (BuildError (lit "unsupported toolchain lock version: " ++ py_repr version));;
  limits ← item v "limits" ≫= read_limits;
  artifacts ← item v "artifacts" ≫= as_tuple;
  ensure (zlen artifacts <=? max_artifacts limits)
    (BuildError (lit "lock declares " ++ dec_str (zlen artifacts) ++ lit " artifacts, above the cap of " ++ dec_str (max_artifacts limits)));;
  let coverage := get_or_none (lit "coverage") raw in
  coverage ← (if truthy coverage then as_dict coverage else Ok []);
  let root := py_str (default (PStr DEFAULT_CIRCUIT_ROOT) (dict_get (lit "circuit_root") coverage)) in
  let package := py_str (default (PStr DEFAULT_PACKAGE_FILE) (dict_get (lit "package_file") coverage)) in
  check_coverage_field "circuit_root" root;;
  check_coverage_field "package_file" package;;
  normalization ← item v "normalization";
  json ← item normalization "json";
  volatile ← item json "volatile_keys" ≫= as_text_set;
  wasm ← item normalization "wasm";
  strip ← item wasm "strip_custom_sections" ≫= as_text_set;
  sources ← item v "provenance_sources";
  globs ← item sources "globs" ≫= as_tuple;
  Ok {| raw := raw; limits := limits; volatile_json_keys := volatile; strip_custom_sections := strip;
        lk_artifacts := artifacts; provenance_globs := globs; circuit_root := root; package_file := package |}.

(** * Digests *)

Record ArtifactResult := {
  ar_path : str;
  ar_kind : pyval;
  ar_role : pyval;
  ar_state : ArtifactState;
  raw_bytes : option Z;
  normalized_bytes : option Z;
  raw_sha256 : option str;
  normalized_sha256 : option str;
}.

Definition entry_int (o : option Z) : pyval := match o with Some z => PInt z | None => PNone end.
Definition entry_text (o : option str) : pyval := match o with Some s => PStr s | None => PNone end.

Definition to_entry (r : ArtifactResult) : pyval :=
  PDict [(lit "path", PStr (ar_path r)); (lit "kind", ar_kind r); (lit "role", ar_role r);
         (lit "raw_bytes", entry_int (raw_bytes r)); (lit "normalized_bytes", entry_int (normalized_bytes r));
         (lit "raw_sha256", entry_text (raw_sha256 r)); (lit "normalized_sha256", entry_text (normalized_sha256 r))].

(** A result with nothing digested. *)
Definition undigested (path : str) (kind role : pyval) (state : ArtifactState) (size : option Z) : ArtifactResult :=
  {| ar_path := path; ar_kind := kind; ar_role := role; ar_state := state; raw_bytes := size;
     normalized_bytes := None; raw_sha256 := None; normalized_sha256 := None |}.

Definition digest_artifact (declaration : pyval) (lock : Lock) (t : tree) : result tool_exn ArtifactResult :=
  relative ← item declaration "path";
  kind ← item declaration "kind";
  d ← as_dict declaration;
  let role := default (PStr (lit "unknown")) (dict_get (lit "role") d) in
  let required := truthy (default (PBool false) (dict_get (lit "required") d)) in
  match relative with
  | PStr path =>
      match dict_get path t with
      | None => Ok (undigested path kind role (if required then MISSING else SKIPPED) None)
      | Some f =>
          if max_artifact_bytes (limits lock) <? st_size f then Ok (undigested path kind role OVERSIZE (Some (st_size f))) else
          match f with
          | Unreadable _ => Ok (undigested path kind role UNREADABLE None)
          | Data data =>
              normalized ← normalize (volatile_json_keys lock) (strip_custom_sections lock) data kind;
              Ok {| ar_path := path; ar_kind := kind; ar_role := role; ar_state := DIGESTED;
                    raw_bytes := Some (zlen data); normalized_bytes := Some (zlen normalized);
                    raw_sha256 := Some (sha256_hex data); normalized_sha256 := Some (sha256_hex normalized) |}
          end
      end
  | _ => Err (Escaped (TypeError "path"))
  end.

(** The loop of [collect_provenance] over the paths of one pattern. *)
Fixpoint provenance_loop (max : Z) (t : tree) (paths : list str) (found : list (str * str)) : result tool_exn (list (str * str)) :=
  match paths with
  | [] => Ok found
  | path :: paths =>
      if negb (dict_has path t) then provenance_loop max t paths found
      else if max <=? zlen found then Err (BuildError (lit "provenance set exceeds " ++ dec_str max ++ lit " files"))
      else b ← read_bytes path t; provenance_loop max t paths (dict_set path (sha256_hex b) found)
  end.

Context `{Glob}.

Definition provenance_pattern (lock : Lock) (t : tree) (found : list (str * str)) (pattern : pyval) : result tool_exn (list (str * str)) :=
  match pattern with
  | PStr p => provenance_loop (max_provenance_files (limits lock)) t (sorted_glob p t) found
  | _ => Err (Escaped (TypeError "pattern"))
  end.

Definition collect_provenance (lock : Lock) (t : tree) : result tool_exn (list (str * str)) :=
  found ← result_foldl (provenance_pattern lock t) (provenance_globs lock) [];
  Ok (sort_items found).

(** * Manifests *)

(** [run.fatal], [run.missing_required] *)
Definition run_fatal (entries : list ArtifactResult) : list ArtifactResult := filter (λ r, ar_state r ∈ FATAL_STATES) entries.
Definition missing_required (entries : list ArtifactResult) : list ArtifactResult := filter (λ r, ar_state r = MISSING) entries.

Definition digested (entries : list ArtifactResult) : list ArtifactResult := filter (λ r, ar_state r = DIGESTED) entries.
Definition skipped (entries : list ArtifactResult) : list ArtifactResult := filter (λ r, ar_state r = SKIPPED) entries.

Definition toolchain_section (lock : Lock) : result tool_exn pyval :=
  tc ← raw_item lock "toolchain";
  nargo ← item tc "nargo"; nargo_version ← item nargo "version";
  bb ← item tc "barretenberg"; bb_version ← item bb "version";
  scheme ← item tc "proving_scheme";
  oracle ← item tc "oracle_hash";
  Ok (PDict [(lit "nargo", nargo_version); (lit "barretenberg", bb_version); (lit "proving_scheme", scheme); (lit "oracle_hash", oracle)]).

(** [dict(sorted(lock.environment.items()))] *)
Definition environment_section (lock : Lock) : result tool_exn pyval :=
  env ← raw_item lock "environment" ≫= as_dict; Ok (PDict (sort_items env)).

Definition normalization_policy_sha256 (lock : Lock) : result tool_exn pyval :=
  v ← raw_item lock "normalization";
  match utf8_encode (json_dumps true v) with
  | Some b => Ok (PStr (sha256_hex b))
  | None => Err (Escaped UnicodeError)
  end.

Definition text_values (d : list (str * str)) : pyval := PDict (map (λ p, (p.1, PStr p.2)) d).

Definition build_manifest (lock : Lock) (t : tree) : result tool_exn (list (str * pyval) * list ArtifactResult) :=
  entries ← result_mapM (λ d, digest_artifact d lock t) (lk_artifacts lock);
  toolchain ← toolchain_section lock;
  environment ← environment_section lock;
  policy ← normalization_policy_sha256 lock;
  provenance ← collect_provenance lock t;
  Ok ([(lit "format", PStr MANIFEST_FORMAT); (lit "version", PInt MANIFEST_VERSION); (lit "toolchain", toolchain);
       (lit "environment", environment); (lit "normalization_policy_sha256", policy);
       (lit "provenance", text_values provenance);
       (lit "artifacts", PList (map to_entry (digested entries)));
       (lit "skipped", PList (map (λ r, PStr (ar_path r)) (skipped entries)))], entries).

Definition serialize_manifest (manifest : list (str * pyval)) : str := json_dumps_indented (PDict manifest) ++ [10].

(** * Drift *)

(** A loop that appends findings. *)
Fixpoint collect {A} (f : A → result tool_exn (list str)) (l : list A) : result tool_exn (list str) :=
  match l with
  | [] => Ok []
  | x :: l => fs ← f x; rest ← collect f l; Ok (fs ++ rest)
  end.

Definition short (digest : pyval) : result tool_exn str :=
  match digest with
  | PNone => Ok (lit "absent")
  | PStr s => Ok (take 16 s)
  | PList l => Ok (py_repr (PList (take 16 l)))
  | _ => Err (Escaped (TypeError "slice"))
  end.

Definition get_or (key : string) (fallback : pyval) (d : list (str * pyval)) : pyval := default fallback (dict_get (lit key) d).

(** [f"{what} {key}: expected {v!r}, got {w!r}"], when they differ *)
Definition differs (what : str) (v w : pyval) : list str :=
  if py_eq v w then [] else [what ++ lit ": expected " ++ py_repr v ++ lit ", got " ++ py_repr w].

Definition compare_header (what : string) (e a : list (str * pyval)) : list str :=
  mjoin (map (λ key, differs (lit what ++ key) (get_or_none key e) (get_or_none key a)) [lit "format"; lit "version"]).

Definition compare_toolchain (e a : list (str * pyval)) : result tool_exn (list str) :=
  te ← as_dict (get_or "toolchain" (PDict []) e);
  collect (λ p, ta ← as_dict (get_or "toolchain" (PDict []) a);
                              Ok (differs (lit "toolchain." ++ p.1) p.2 (get_or_none p.1 ta))) (sort_items te).

Definition compare_policy (digested_what : string) (e a : list (str * pyval)) : list str :=
  let key := lit "normalization_policy_sha256" in
  if py_eq (get_or_none key e) (get_or_none key a) then []
  else [lit "normalization policy changed; " ++ lit digested_what ++ lit " digested under different rules"].

(** [set(v)] for texts *)
Definition text_keys (v : pyval) : result tool_exn (list str) :=
  l ← as_tuple v;
  result_mapM (λ x, match x with PStr s => Ok s | _ => Err (Escaped (TypeError "key")) end) l.

(** [sorted(set(a) | set(b))] *)
Definition sorted_union (a b : list str) : list str :=
  (sort_items (map (λ s, (s, tt)) (remove_dups (a ++ b)))).*1.

Definition compare_sources (e a : list (str * pyval)) : result tool_exn (list str) :=
  let before := get_or "provenance" (PDict []) e in
  let after := get_or "provenance" (PDict []) a in
  ke ← text_keys before; ka ← text_keys after;
  collect (λ path,
    de ← as_dict before; da ← as_dict after;
    let x := get_or_none path de in let y := get_or_none path da in
    if py_eq x y then Ok [] else
    sx ← short x; sy ← short y;
    Ok [lit "source " ++ path ++ lit ": " ++ sx ++ lit " -> " ++ sy]) (sorted_union ke ka).

(** [{entry["path"]: entry for entry in document.get(key, [])}] *)
Definition entries_by_path (key : string) (d : list (str * pyval)) : result tool_exn (list (str * pyval)) :=
  l ← as_tuple (get_or key (PList []) d);
  result_foldl (λ m entry,
    p ← item entry "path";
    match p with PStr p => Ok (dict_set p entry m) | _ => Err (Escaped (TypeError "key")) end) l [].

(** One artifact of both manifests. *)
Definition compare_entry (label : str) (before after : pyval) : result tool_exn (list str) :=
  b ← as_dict before; a ← as_dict after;
  let nb := get_or_none (lit "normalized_sha256") b in let na := get_or_none (lit "normalized_sha256") a in
  if negb (py_eq nb na) then
    sb ← short nb; sa ← short na;
    Ok [label ++ lit ": normalized digest " ++ sb ++ lit " -> " ++ sa]
  else if negb (py_eq (get_or_none (lit "raw_sha256") b) (get_or_none (lit "raw_sha256") a)) then
    Ok [label ++ lit ": raw bytes differ but normalize to the same digest (host metadata only; not a semantic change)"]
  else Ok [].

Definition compare_artifacts (what unexpected missing : string) (e a : list (str * pyval)) : result tool_exn (list str) :=
  ee ← entries_by_path "artifacts" e; ea ← entries_by_path "artifacts" a;
  collect (λ path,
    let label := lit what ++ path in
    match dict_get path ee, dict_get path ea with
    | None, _ => Ok [label ++ lit unexpected]
    | Some _, None => Ok [label ++ lit missing]
    | Some before, Some after => compare_entry label before after
    end) (sorted_union ee.*1 ea.*1).

Definition compare_manifests (e a : list (str * pyval)) : result tool_exn (list str) :=
  tc ← compare_toolchain e a;
  src ← compare_sources e a;
  art ← compare_artifacts "artifact " ": unexpected, not present in the manifest" ": missing from the rebuilt tree" e a;
  Ok (compare_header "manifest " e a ++ tc ++ compare_policy "artifacts" e a ++ src ++ art).

(** * Commands *)

(** What a command ends with: its exit code, the findings it signals and the tree. *)
Record command_outcome := Outcome { exit_code : Z; findings : list str; tree_after : list (str * tree_file) }.

Definition fail_on_fatal (entries : list ArtifactResult) : result tool_exn unit :=
  let n := zlen (run_fatal entries) + zlen (missing_required entries) in
  ensure (n =? 0) (BuildError (dec_str n ++ lit " artifact(s) in a fatal state; manifest not written")).

(** [output.write_text(text, encoding="utf-8")] *)
Definition write_text (output text : str) (t : tree) : result tool_exn (list (str * tree_file)) :=
  match utf8_encode text with
  | Some b => Ok (dict_set output (Data b) t)
  | None => Err (Escaped UnicodeError)
  end.

Definition command_write (lock_path output : str) (t : tree) : result tool_exn command_outcome :=
  lock ← load_lock lock_path t;
  '(manifest, entries) ← build_manifest lock t;
  fail_on_fatal entries;;
  t' ← write_text output (serialize_manifest manifest) t;
  Ok (Outcome EXIT_OK [] t').

Definition load_manifest (path : str) (t : tree) : result tool_exn (list (str * pyval)) :=
  v ← read_document path t "manifest not found: " "manifest is not valid JSON: ";
  d ← as_dict v;
  ensure (py_eq (get_or_none (lit "format") d) (PStr MANIFEST_FORMAT)) (BuildError (lit "not an artifact manifest: " ++ path));;
  Ok d.

(** The end of a verification: the findings, and the exit code for them. *)
Definition report (fs : list str) (t : tree) : command_outcome :=
  Outcome (match fs with [] => EXIT_OK | _ => EXIT_DRIFT end) fs t.

Definition command_verify (lock_path manifest_path : str) (t : tree) : result tool_exn command_outcome :=
  lock ← load_lock lock_path t;
  expected ← load_manifest manifest_path t;
  '(actual, entries) ← build_manifest lock t;
  fail_on_fatal entries;;
  fs ← compare_manifests expected actual;
  Ok (report fs t).

Definition command_compare (first second : str) (t : tree) : result tool_exn command_outcome :=
  e ← load_manifest first t;
  a ← load_manifest second t;
  fs ← compare_manifests e a;
  Ok (report fs t).

(** [sys.exit(main())]: a [BuildError] is caught, any other exception ends the interpreter
    with status 1. *)
Definition process_status (r : result tool_exn command_outcome) : Z :=
  match r with
  | Ok o => exit_code o
  | Err (BuildError _) => EXIT_FATAL
  | Err _ => 1
  end.
End lock.

(** * Lemmas *)

Lemma collect_nil {A} (f : A → result tool_exn (list str)) l : collect f l = Ok [] ↔ Forall (λ x, f x = Ok []) l.
Proof.
  induction l as [|x l IH]; cbn [collect]; [by split|]. rewrite Forall_cons, <- IH, bind_ok. split.
  - intros (fs & Hf & (rest & Hr & Heq)%bind_ok). apply (f_equal (from_ok [])) in Heq. cbn in Heq.
    apply app_nil in Heq as [-> ->]. done.
  - intros [Hf Hr]. exists []. split; [done|]. by rewrite Hr.
Qed.

Lemma result_mapM_ok {E A B} (f : A → result E B) l k : result_mapM f l = Ok k ↔ Forall2 (λ x y, f x = Ok y) l k.
Proof.
  revert k. induction l as [|x l IH]; intros k; cbn [result_mapM].
  { split; [intros [= <-]; constructor|by inversion 1]. }
  rewrite bind_ok. split.
  - intros (y & Hy & (ys & Hys & [= <-])%bind_ok). constructor; [done|]. by apply IH.
  - inversion 1 as [|? y ? ys Hy Hys]; subst. exists y. split; [done|]. apply IH in Hys. by rewrite Hys.
Qed.

Lemma elem_of_sorted_union s a b : s ∈ sorted_union a b ↔ s ∈ a ∨ s ∈ b.
Proof.
  unfold sorted_union. rewrite sort_items_perm, <- elem_of_app, <- (elem_of_remove_dups (a ++ b)). generalize (remove_dups (a ++ b)). clear.
  intros l. rewrite list_elem_of_fmap. split.
  - intros ([s' []] & -> & Hs). apply list_elem_of_In, in_map_iff in Hs as (x & [= ->] & Hs). by apply list_elem_of_In.
  - intros Hs. exists (s, tt). split; [done|]. apply list_elem_of_In, in_map_iff. exists s. split; [done|]. by apply list_elem_of_In.
Qed.

Section proofs.
Context `{FloatText, Unicode, FloatEq}.

Lemma py_eq_str (a b : str) : py_eq (PStr a) (PStr b) = true ↔ a = b.
Proof. cbn. apply bool_decide_eq_true. Qed.

(** A value equals itself with its keys sorted. *)
Lemma py_eq_canon v : plain v = true → py_eq (canon v) v = true.
Proof.
  induction v as [|b|z|f|s|l IH|kvs IH] using pyval_nested_ind; intros Hv; cbn.
  - done.
  - by rewrite Z.eqb_refl.
  - by rewrite Z.eqb_refl.
  - done.
  - by apply bool_decide_eq_true.
  - cbn in Hv. induction IH as [|v l Hl _ IH]; [done|]. cbn in *. apply andb_true_iff in Hv as [Hv Hr].
    by rewrite Hl, IH.
  - cbn in Hv. apply andb_true_iff in Hv as [Hv Hnd]. apply bool_decide_eq_true in Hnd. apply forallb_Forall in Hv.
    apply andb_true_iff. split.
    + apply Nat.eqb_eq. by rewrite (Permutation_length (sort_items_perm _)), length_map.
    + rewrite (forallb_perm _ _ _ (sort_items_perm _)). apply forallb_Forall, Forall_map. cbn [fst snd].
      apply Forall_forall. intros [k v] Hkv. rewrite Forall_forall in Hv, IH. pose proof (Hv _ Hkv) as Hp. cbn in Hp |- *.
      apply andb_true_iff in Hp as [_ Hp].
      rewrite (proj2 (dict_get_elem k v kvs Hnd) Hkv). by apply (IH _ Hkv).
Qed.

(** ** Sources *)

Context `{Glob}.

Lemma path_key_inj p q : path_key p = path_key q → p = q.
Proof.
  revert q. induction p as [|c p IH]; intros [|d q] Heq; try done. cbn in Heq. injection Heq as Hc Hp.
  f_equal; [|by apply IH]. repeat case_match; bool_inv; lia.
Qed.

Lemma elem_of_sorted_glob g (t : tree) p : p ∈ sorted_glob g t ↔ p ∈ t.*1 ∧ glob_matches g p = true.
Proof.
  unfold sorted_glob. rewrite sort_items_perm, list_elem_of_fmap. rewrite (and_comm (p ∈ _)).
  rewrite <- (list_elem_of_filter (λ p, glob_matches g p = true)). generalize (filter (λ p, glob_matches g p = true) t.*1).
  intros l. split.
  - intros ([k q] & -> & Hq). apply list_elem_of_In, in_map_iff in Hq as (x & [= _ ->] & Hx). by apply list_elem_of_In.
  - intros Hp. exists (path_key p, p). split; [done|]. apply list_elem_of_In, in_map_iff. exists p. split; [done|]. by apply list_elem_of_In.
Qed.

Lemma sort_items_unique {A} (l l' : list (str * A)) : NoDup l.*1 → l ≡ₚ l' → sort_items l = sort_items l'.
Proof.
  intros Hnd Hp. apply (StronglySorted_unique_strong item_le); [|apply sort_items_sorted..|by rewrite !sort_items_perm].
  intros [k v] [k' v'] Hx Hy Hxy Hyx. rewrite sort_items_perm in Hx. rewrite sort_items_perm, <- Hp in Hy.
  pose proof (str_leb_antisym _ _ Hxy Hyx) as Hk. cbn in Hk. subst k'. apply dict_get_elem in Hx, Hy; [|done..]. congruence.
Qed.

Lemma sorted_glob_perm g (t t' : tree) : NoDup t.*1 → t ≡ₚ t' → sorted_glob g t = sorted_glob g t'.
Proof.
  intros Hnd Hp. unfold sorted_glob. f_equal. apply sort_items_unique; [|by rewrite Hp].
  rewrite <- list_fmap_compose. apply NoDup_fmap; [intros p q; apply path_key_inj|]. by apply NoDup_filter.
Qed.

(** What was found so far are digests of files of the tree. *)
Definition prov_ok (t : tree) (found : list (str * str)) : Prop :=
  NoDup found.*1 ∧ ∀ p h, dict_get p found = Some h → ∃ b, dict_get p t = Some (Data b) ∧ h = sha256_hex b.

Lemma elem_dict_set {A} q k (v : A) d : q ∈ (dict_set k v d).*1 ↔ q = k ∨ q ∈ d.*1.
Proof.
  rewrite dict_set_keys. case_decide as Hk; [naive_solver|]. rewrite elem_of_app, list_elem_of_singleton. tauto.
Qed.

Lemma provenance_loop_ok max t paths found res :
  provenance_loop max t paths found = Ok res → prov_ok t found →
  prov_ok t res ∧ ∀ p, p ∈ res.*1 ↔ p ∈ found.*1 ∨ (p ∈ paths ∧ p ∈ t.*1).
Proof.
  revert found. induction paths as [|q paths IH]; intros found; cbn [provenance_loop].
  { intros [= <-] Hok. split; [done|]. intros p. rewrite elem_of_nil. tauto. }
  destruct (dict_has q t) eqn:Hq; cbn [negb].
  - case_match; [done|]. intros (b & Hb & Hl)%bind_ok [Hnd Hok]. unfold read_bytes in Hb.
    destruct (dict_get q t) as [[b'|]|] eqn:Hg; try done. simplify_eq. apply dict_has_spec in Hq. apply IH in Hl as [Hr Hk].
    + split; [done|]. intros p. rewrite Hk, elem_dict_set, elem_of_cons. naive_solver.
    + split; [by apply dict_set_NoDup|]. intros p h. rewrite dict_get_set. case_decide; [intros [= <-]; subst; eauto|apply Hok].
  - intros Hl Hok. apply IH in Hl as [Hr Hk]; [|done]. split; [done|]. intros p. rewrite Hk, elem_of_cons.
    assert (q ∉ t.*1) by (rewrite <- dict_has_spec, Hq; done). naive_solver.
Qed.

Lemma provenance_patterns_ok lock t patterns found res :
  result_foldl (provenance_pattern lock t) patterns found = Ok res → prov_ok t found →
  prov_ok t res ∧ ∀ p, p ∈ res.*1 ↔ p ∈ found.*1 ∨ (p ∈ t.*1 ∧ ∃ g, PStr g ∈ patterns ∧ glob_matches g p = true).
Proof.
  revert found. induction patterns as [|g patterns IH]; intros found; cbn [result_foldl].
  { intros [= <-] Hok. split; [done|]. intros p. split; [by left|]. intros [?|(_ & g & Hg & _)]; [done|]. by apply elem_of_nil in Hg. }
  intros (found' & Hf & Hr)%bind_ok Hok. unfold provenance_pattern in Hf. destruct g as [| | | |g| |]; try done.
  apply provenance_loop_ok in Hf as [Hok' Hk]; [|done]. apply IH in Hr as [Hres Hk']; [|done]. split; [done|].
  intros p. rewrite Hk', Hk, elem_of_sorted_glob. setoid_rewrite elem_of_cons. naive_solver.
Qed.

Lemma collect_provenance_ok lock t src :
  collect_provenance lock t = Ok src →
  prov_ok t src ∧ ∀ p, p ∈ src.*1 ↔ p ∈ t.*1 ∧ ∃ g, PStr g ∈ provenance_globs lock ∧ glob_matches g p = true.
Proof.
  unfold collect_provenance. intros (found & Hf & [= <-])%bind_ok. apply provenance_patterns_ok in Hf as [[Hnd Hok] Hk].
  - split; [split|].
    + by rewrite sort_items_perm.
    + intros p h Hp. apply Hok. rewrite <- Hp. apply dict_get_perm; [done|]. by rewrite sort_items_perm.
    + intros p. rewrite sort_items_perm, Hk, elem_of_nil. tauto.
  - split; [constructor|done].
Qed.

Lemma provenance_loop_perm max t t' paths found :
  (∀ p, dict_get p t = dict_get p t') → provenance_loop max t paths found = provenance_loop max t' paths found.
Proof.
  intros Ht. revert found. induction paths as [|p paths IH]; intros found; [done|]. cbn [provenance_loop].
  unfold dict_has, read_bytes. rewrite Ht, !IH. destruct (dict_get p t') as [[]|]; cbn; try case_match; rewrite ?IH; done.
Qed.

Lemma collect_provenance_perm lock t t' : NoDup t.*1 → t ≡ₚ t' → collect_provenance lock t = collect_provenance lock t'.
Proof.
  intros Hnd Hp. unfold collect_provenance. f_equal. generalize (@nil (str * str)).
  induction (provenance_globs lock) as [|g globs IH]; intros found; [done|]. cbn [result_foldl].
  assert (provenance_pattern lock t found g = provenance_pattern lock t' found g) as ->.
  { destruct g as [| | | |g| |]; try done. cbn [provenance_pattern]. rewrite (sorted_glob_perm g t t') by done.
    apply provenance_loop_perm. intros p. by apply dict_get_perm. }
  destruct (provenance_pattern lock t' found g); [apply IH|done].
Qed.

(** ** Artifacts *)

Definition digest_of (lock : Lock) (t : tree) (r : ArtifactResult) : Prop :=
  ∃ b n, dict_get (ar_path r) t = Some (Data b) ∧ raw_sha256 r = Some (sha256_hex b) ∧
    normalize (volatile_json_keys lock) (strip_custom_sections lock) b (ar_kind r) = Ok n ∧
    normalized_sha256 r = Some (sha256_hex n).

Lemma digest_artifact_ok d lock t r :
  digest_artifact d lock t = Ok r →
  item d "path" = Ok (PStr (ar_path r)) ∧
  (ar_state r = DIGESTED ∧ digest_of lock t r ∨
   ar_state r ∈ [MISSING; SKIPPED] ∧ dict_get (ar_path r) t = None ∨ ar_state r ∈ FATAL_STATES).
Proof.
  unfold digest_artifact. intros (rel & Hrel & (kind & Hk & (dd & Hd & Hr)%bind_ok)%bind_ok)%bind_ok. cbv zeta in Hr.
  destruct rel as [| | | |path| |]; try done. destruct (dict_get path t) as [f|] eqn:Hf.
  - case_match; [simplify_eq/=; split; [done|]; right; right; left|]. destruct f as [b|].
    + apply bind_ok in Hr as (n & Hn & [= <-]). split; [done|]. left. split; [done|]. exists b, n. done.
    + simplify_eq/=. split; [done|]. right; right; right; left.
  - simplify_eq/=. split; [done|]. right; left. split; [|done]. case_match; [left|right; left].
Qed.

Lemma fail_on_fatal_ok entries u :
  fail_on_fatal entries = Ok u → Forall (λ r, ar_state r ∉ FATAL_STATES ∧ ar_state r ≠ MISSING) entries.
Proof.
  unfold fail_on_fatal, run_fatal, missing_required. intros Hn%ensure_ok. apply Z.eqb_eq in Hn.
  unfold zlen in Hn. apply Forall_forall. intros r Hr. split; intros Hs.
  - assert (r ∈ filter (λ r, ar_state r ∈ FATAL_STATES) entries) as Hin by (by apply list_elem_of_filter).
    destruct (filter (λ r, ar_state r ∈ FATAL_STATES) entries); [by apply elem_of_nil in Hin|]. cbn in Hn. lia.
  - assert (r ∈ filter (λ r, ar_state r = MISSING) entries) as Hin by (by apply list_elem_of_filter).
    destruct (filter (λ r, ar_state r = MISSING) entries); [by apply elem_of_nil in Hin|]. cbn in Hn. lia.
Qed.

(** The value that stands for a result in a manifest, its keys in any order. *)
Definition entry_of (r : ArtifactResult) (v : pyval) : Prop :=
  ∃ d, v = PDict d ∧ dict_get (lit "path") d = Some (PStr (ar_path r)) ∧
    dict_get (lit "raw_sha256") d = Some (entry_text (raw_sha256 r)) ∧
    dict_get (lit "normalized_sha256") d = Some (entry_text (normalized_sha256 r)).

Lemma to_entry_entry r : entry_of r (to_entry r).
Proof. eexists. split; [reflexivity|]. done. Qed.

Lemma canon_entry_text o : canon (entry_text o) = entry_text o.
Proof. by destruct o. Qed.

Lemma canon_entry r : entry_of r (canon (to_entry r)).
Proof.
  unfold to_entry. rewrite canon_dict. eexists. split; [reflexivity|].
  assert (NoDup (map lit ["path"; "kind"; "role"; "raw_bytes"; "normalized_bytes"; "raw_sha256"; "normalized_sha256"])) as Hnd
    by (by apply (bool_decide_unpack _); vm_compute).
  split_and!; rewrite dict_get_canon by exact Hnd; cbn [dict_get]; repeat (rewrite decide_False by (by vm_compute)).
  all: rewrite decide_True by done; cbn [fmap option_fmap option_map]; by rewrite ?canon_entry_text.
Qed.

(** The last result with a path. *)
Definition last_with (path : str) (rs : list ArtifactResult) : option ArtifactResult :=
  foldl (λ acc r, if decide (ar_path r = path) then Some r else acc) None rs.

Lemma last_with_elem path rs r : last_with path rs = Some r → r ∈ rs ∧ ar_path r = path.
Proof.
  unfold last_with. induction rs as [|x rs IH] using rev_ind; [done|]. rewrite foldl_app. cbn [foldl].
  rewrite elem_of_app, list_elem_of_singleton. case_decide; [intros [= <-]; auto|]. intros Hr. apply IH in Hr. tauto.
Qed.

Lemma last_with_None path rs : last_with path rs = None → ∀ r, r ∈ rs → ar_path r ≠ path.
Proof.
  unfold last_with. induction rs as [|x rs IH] using rev_ind; [by intros _ r ?%elem_of_nil|]. rewrite foldl_app. cbn [foldl].
  case_decide; [done|]. intros Hn r. rewrite elem_of_app, list_elem_of_singleton. intros [Hr| ->]; [by apply IH|done].
Qed.

(** What [entries_by_path] finds under a path is the last entry with it. *)
Lemma entries_by_path_ok key d rs vs :
  dict_get (lit key) d = Some (PList vs) → Forall2 entry_of rs vs →
  ∃ m, entries_by_path key d = Ok m ∧ NoDup m.*1 ∧ ∀ path, option_Forall2 entry_of (last_with path rs) (dict_get path m).
Proof.
  intros Hd Hall. unfold entries_by_path, get_or. rewrite Hd. cbn [from_option id as_tuple]. rewrite bind_Ok.
  unfold last_with. set (f := λ m entry, _).
  assert (∀ (m0 : list (str * pyval)) (acc : str → option ArtifactResult), NoDup m0.*1 → (∀ p, option_Forall2 entry_of (acc p) (dict_get p m0)) →
    ∃ m, result_foldl f vs m0 = Ok m ∧ NoDup m.*1 ∧ ∀ p, option_Forall2 entry_of
      (foldl (λ a r, if decide (ar_path r = p) then Some r else a) (acc p) rs) (dict_get p m)) as Hgen.
  { clear Hd. induction Hall as [|r v rs vs Hrv _ IH]; intros m0 acc Hnd Hacc; [eexists; split; [done|]; done|].
    pose proof Hrv as (dd & -> & Hp & _). cbn [result_foldl]. assert (f m0 (PDict dd) = Ok (dict_set (ar_path r) (PDict dd) m0)) as -> by (unfold f, item; by rewrite Hp).
    rewrite bind_Ok.
    apply (IH (dict_set (ar_path r) (PDict dd) m0) (λ p, if decide (ar_path r = p) then Some r else acc p)).
    - by apply dict_set_NoDup.
    - intros p. rewrite dict_get_set. destruct (decide (p = ar_path r)) as [->|Hne].
      + rewrite decide_True by done. by constructor.
      + rewrite decide_False by congruence. apply Hacc. }
  apply (Hgen [] (λ _, None)); [constructor|]. intros p. constructor.
Qed.

Lemma compare_entry_nil label r r' v v' :
  entry_of r v → entry_of r' v' → is_Some (raw_sha256 r) → is_Some (raw_sha256 r') →
  is_Some (normalized_sha256 r) → is_Some (normalized_sha256 r') →
  compare_entry label v v' = Ok [] ↔ raw_sha256 r = raw_sha256 r' ∧ normalized_sha256 r = normalized_sha256 r'.
Proof.
  intros (d & -> & _ & Hr & Hn) (d' & -> & _ & Hr' & Hn') [a Ha] [a' Ha'] [b Hb] [b' Hb'].
  unfold compare_entry, get_or_none. cbn [as_dict]. rewrite !bind_Ok, Hr, Hn, Hr', Hn', Ha, Ha', Hb, Hb'. cbn [from_option id entry_text].
  destruct (py_eq (PStr b) (PStr b')) eqn:E; [apply py_eq_str in E as ->|]; cbn [negb].
  - destruct (py_eq (PStr a) (PStr a')) eqn:E; [apply py_eq_str in E as ->; done|]. split; [done|].
    intros [[= ->] _]. by rewrite (proj2 (py_eq_str a' a') eq_refl) in E.
  - cbn [short]. rewrite !bind_Ok. split; [done|]. intros [_ [= ->]]. by rewrite (proj2 (py_eq_str b' b') eq_refl) in E.
Qed.

(** ** Comparison *)

Lemma compare_artifacts_nil what unexpected missing e a rs vs rs' vs' :
  dict_get (lit "artifacts") e = Some (PList vs) → Forall2 entry_of rs vs →
  dict_get (lit "artifacts") a = Some (PList vs') → Forall2 entry_of rs' vs' →
  Forall (λ r, is_Some (raw_sha256 r) ∧ is_Some (normalized_sha256 r)) (rs ++ rs') →
  compare_artifacts what unexpected missing e a = Ok [] ↔
  ∀ path, option_Forall2 (λ r r', raw_sha256 r = raw_sha256 r' ∧ normalized_sha256 r = normalized_sha256 r')
    (last_with path rs) (last_with path rs').
Proof.
  intros He Hrs Ha Hrs' Hall. unfold compare_artifacts.
  destruct (entries_by_path_ok _ _ _ _ He Hrs) as (ee & -> & _ & Hee). destruct (entries_by_path_ok _ _ _ _ Ha Hrs') as (ea & -> & _ & Hea).
  rewrite !bind_Ok, collect_nil, Forall_forall.
  assert (∀ path r, last_with path rs = Some r ∨ last_with path rs' = Some r → is_Some (raw_sha256 r) ∧ is_Some (normalized_sha256 r)) as Hsome.
  { intros path r Hr. rewrite Forall_forall in Hall. apply Hall, elem_of_app. destruct Hr as [Hr|Hr]; apply last_with_elem in Hr as [Hr _]; auto. }
  split.
  - intros Hnil path. specialize (Hee path). specialize (Hea path). destruct (decide (path ∈ sorted_union ee.*1 ea.*1)) as [Hp|Hp].
    + apply Hnil in Hp. cbv zeta in Hp. pose proof (Hsome path) as Hs. revert Hp Hee Hea.
      destruct (last_with path rs) as [r|], (last_with path rs') as [r'|], (dict_get path ee) as [v|], (dict_get path ea) as [v'|];
        intros Hp; inversion 1; inversion 1; subst; try done; constructor.
      destruct (Hs r ltac:(auto)), (Hs r' ltac:(auto)). by eapply compare_entry_nil in Hp.
    + rewrite elem_of_sorted_union in Hp. assert (dict_get path ee = None ∧ dict_get path ea = None) as [H1' H2'] by (rewrite !dict_get_None; tauto).
      rewrite H1' in Hee. rewrite H2' in Hea. inversion Hee. inversion Hea. constructor.
  - intros Hsame path Hp. cbv zeta. rewrite elem_of_sorted_union in Hp.
    specialize (Hee path). specialize (Hea path). specialize (Hsame path). pose proof (Hsome path) as Hs. revert Hee Hea.
    destruct (last_with path rs) as [r|], (last_with path rs') as [r'|]; inversion Hsame as [? ? Hrr|]; subst;
      destruct (dict_get path ee) as [v|] eqn:Hv, (dict_get path ea) as [v'|] eqn:Hv'; inversion 1; inversion 1; subst.
    + destruct (Hs r ltac:(auto)), (Hs r' ltac:(auto)). by eapply compare_entry_nil.
    + apply dict_get_None in Hv, Hv'. tauto.
Qed.

(** The provenance section of a document holds these digests. *)
Definition holds_sources (d : list (str * pyval)) (src : list (str * str)) : Prop :=
  ∃ ds, dict_get (lit "provenance") d = Some (PDict ds) ∧ ds.*1 ≡ₚ src.*1 ∧ ∀ p, dict_get p ds = PStr <$> dict_get p src.

Lemma text_keys_dict (d : list (str * pyval)) : text_keys (PDict d) = Ok d.*1.
Proof.
  unfold text_keys. cbn [as_tuple]. rewrite bind_Ok. apply result_mapM_ok. induction d as [|p d IH]; constructor; [done|exact IH].
Qed.

Lemma compare_sources_nil e a src src' :
  holds_sources e src → holds_sources a src' → compare_sources e a = Ok [] ↔ ∀ p, dict_get p src = dict_get p src'.
Proof.
  intros (ds & He & Hk & Hd) (ds' & Ha & Hk' & Hd'). unfold compare_sources, get_or. rewrite He, Ha. cbn [from_option id].
  rewrite !text_keys_dict, !bind_Ok, collect_nil, Forall_forall. cbn [as_dict].
  assert (∀ p, py_eq (get_or_none p ds) (get_or_none p ds') = true ↔ dict_get p src = dict_get p src') as Heq.
  { intros p. unfold get_or_none. rewrite Hd, Hd'. destruct (dict_get p src) as [x|], (dict_get p src') as [y|]; cbn [fmap option_fmap option_map from_option id].
    - rewrite py_eq_str. split; congruence.
    - done.
    - done.
    - done. }
  split.
  - intros Hnil p. destruct (decide (p ∈ sorted_union ds.*1 ds'.*1)) as [Hp|Hp].
    + apply Hnil in Hp. rewrite !bind_Ok in Hp. apply Heq. cbv zeta in Hp. destruct (py_eq _ _); [done|].
      by apply bind_ok in Hp as (? & _ & (? & _ & [=])%bind_ok).
    + rewrite elem_of_sorted_union, Hk, Hk' in Hp. rewrite !(proj2 (dict_get_None _ _)) by tauto. done.
  - intros Hsame p _. rewrite !bind_Ok. cbv zeta. by rewrite (proj2 (Heq p) (Hsame p)).
Qed.

Lemma compare_manifests_nil e a :
  compare_manifests e a = Ok [] ↔
  compare_header "manifest " e a = [] ∧ compare_toolchain e a = Ok [] ∧ compare_policy "artifacts" e a = [] ∧
  compare_sources e a = Ok [] ∧
  compare_artifacts "artifact " ": unexpected, not present in the manifest" ": missing from the rebuilt tree" e a = Ok [].
Proof.
  unfold compare_manifests. rewrite bind_ok. split.
  - intros (tc & -> & (src & -> & (art & -> & Heq)%bind_ok)%bind_ok). apply (f_equal (from_ok [])) in Heq. cbn [from_ok] in Heq.
    apply app_nil in Heq as [-> Heq]. apply app_nil in Heq as [-> Heq]. apply app_nil in Heq as [-> Heq]. apply app_nil in Heq as [-> ->]. done.
  - intros (Hh & Ht & Hp & Hs & Ha). exists []. split; [done|]. rewrite Hs, bind_Ok, Ha, bind_Ok, Hh, Hp. done.
Qed.

(** ** Manifests of a tree *)

(** A manifest as it is read back. *)
Definition stored (m : list (str * pyval)) : list (str * pyval) := sort_items (map (λ p, (p.1, canon p.2)) m).

Definition MANIFEST_KEYS : list str :=
  map lit ["format"; "version"; "toolchain"; "environment"; "normalization_policy_sha256"; "provenance"; "artifacts"; "skipped"].

Lemma manifest_keys_nodup : NoDup MANIFEST_KEYS.
Proof. by apply (bool_decide_unpack _); vm_compute. Qed.

Lemma toolchain_dict lock v : toolchain_section lock = Ok v → ∃ tc, v = PDict tc.
Proof. unfold toolchain_section. intros Htc. repeat (apply bind_ok in Htc as (? & _ & Htc)). injection Htc as <-. eauto. Qed.

Lemma policy_text lock v : normalization_policy_sha256 lock = Ok v → ∃ h, v = PStr h.
Proof. unfold normalization_policy_sha256. intros (x & _ & Hv)%bind_ok. case_match; [|done]. injection Hv as <-. eauto. Qed.

Lemma build_manifest_ok lock t m entries :
  build_manifest lock t = Ok (m, entries) →
  NoDup m.*1 ∧ Forall2 (λ d r, digest_artifact d lock t = Ok r) (lk_artifacts lock) entries ∧
  dict_get (lit "format") m = Some (PStr MANIFEST_FORMAT) ∧ dict_get (lit "version") m = Some (PInt MANIFEST_VERSION) ∧
  (∃ tc, dict_get (lit "toolchain") m = Some (PDict tc)) ∧
  (∃ h, dict_get (lit "normalization_policy_sha256") m = Some (PStr h)) ∧
  (∃ src, collect_provenance lock t = Ok src ∧ dict_get (lit "provenance") m = Some (text_values src)) ∧
  dict_get (lit "artifacts") m = Some (PList (map to_entry (digested entries))).
Proof.
  unfold build_manifest. intros (es & Hes%result_mapM_ok & (tc & Htc & (env & Henv & (pol & Hpol & (src & Hsrc & Heq)%bind_ok)%bind_ok)%bind_ok)%bind_ok)%bind_ok.
  injection Heq as <- <-. split_and!; try done.
  - exact manifest_keys_nodup.
  - destruct (toolchain_dict _ _ Htc) as [d ->]. eauto.
  - destruct (policy_text _ _ Hpol) as [h ->]. eauto.
  - eauto.
Qed.

Lemma dict_get_stored m k : NoDup m.*1 → dict_get k (stored m) = canon <$> dict_get k m.
Proof. intros Hk. by apply dict_get_canon. Qed.

Lemma holds_text_values d src : dict_get (lit "provenance") d = Some (text_values src) → holds_sources d src.
Proof. intros Hd. eexists. split; [exact Hd|]. split; [by rewrite keys_map|]. intros p. apply dict_get_map. Qed.

Lemma holds_stored m src :
  NoDup m.*1 → NoDup src.*1 → dict_get (lit "provenance") m = Some (text_values src) → holds_sources (stored m) src.
Proof.
  intros Hk Hnd Hd. unfold holds_sources. rewrite dict_get_stored, Hd by done. eexists. split; [reflexivity|]. split.
  - by rewrite sort_items_perm, !keys_map.
  - intros p. rewrite dict_get_canon by by rewrite keys_map. rewrite dict_get_map. by destruct (dict_get p src).
Qed.

Lemma digested_results lock t entries :
  Forall2 (λ d r, digest_artifact d lock t = Ok r) (lk_artifacts lock) entries → Forall (digest_of lock t) (digested entries).
Proof.
  intros Hall. apply Forall_forall. intros r [Hs Hr]%list_elem_of_filter.
  apply list_elem_of_lookup in Hr as [i Hi]. destruct (Forall2_lookup_r _ _ _ _ _ Hall Hi) as (d & _ & Hd).
  apply digest_artifact_ok in Hd as (_ & [[_ ?]|[[Hs' _]|Hs']]); [done|..];
    rewrite Hs in Hs'; unfold FATAL_STATES in Hs'; rewrite !elem_of_cons, elem_of_nil in Hs'; naive_solver.
Qed.

Lemma digest_some lock t r : digest_of lock t r → is_Some (raw_sha256 r) ∧ is_Some (normalized_sha256 r).
Proof. intros (b & n & _ & -> & _ & ->). eauto. Qed.

Lemma entries_forall2 rs : Forall2 entry_of rs (map to_entry rs) ∧ Forall2 entry_of rs (map canon (map to_entry rs)).
Proof. split; induction rs; constructor; auto using to_entry_entry, canon_entry. Qed.

(** ** What is pinned *)

Definition same_file (p : str) (t t' : tree) : Prop :=
  match dict_get p t, dict_get p t' with
  | None, None => True
  | Some (Data b), Some (Data b') => b = b' ∨ sha256_collision b b'
  | _, _ => False
  end.

Definition declares (lock : Lock) (p : str) : Prop := ∃ d, d ∈ lk_artifacts lock ∧ item d "path" = Ok (PStr p).
Definition sources (lock : Lock) (p : str) : Prop := ∃ g, PStr g ∈ provenance_globs lock ∧ glob_matches g p = true.

(** The results of a run that was not refused are digests and absent files. *)
Lemma clean_result lock t entries u p :
  Forall2 (λ d r, digest_artifact d lock t = Ok r) (lk_artifacts lock) entries → fail_on_fatal entries = Ok u → declares lock p →
  match dict_get p t with
  | Some (Data b) => ∃ r, last_with p (digested entries) = Some r ∧ raw_sha256 r = Some (sha256_hex b)
  | Some (Unreadable _) => False
  | None => last_with p (digested entries) = None
  end.
Proof.
  intros Hall Hclean (d & Hd & Hp). apply fail_on_fatal_ok in Hclean. pose proof (digested_results _ _ _ Hall) as Hdig.
  assert (∀ r, last_with p (digested entries) = Some r → ∃ b, dict_get p t = Some (Data b) ∧ raw_sha256 r = Some (sha256_hex b)) as Hlast.
  { intros r Hr. apply last_with_elem in Hr as [Hr <-]. rewrite Forall_forall in Hdig. destruct (Hdig r Hr) as (b & n & ? & ? & _). eauto. }
  apply list_elem_of_lookup in Hd as [i Hi]. destruct (Forall2_lookup_l _ _ _ _ _ Hall Hi) as (r & Hr & Hdr).
  apply list_elem_of_lookup_2 in Hr. rewrite Forall_forall in Hclean. destruct (Hclean r Hr) as [Hnf Hnm].
  apply digest_artifact_ok in Hdr as (Hp' & Hst). rewrite Hp in Hp'. injection Hp' as Hp'.
  assert (ar_state r = DIGESTED ∧ digest_of lock t r ∨ dict_get p t = None) as [[Hs (b & n & Hb & _)]|Hn].
  { destruct Hst as [?|[[_ Hn]|?]]; [auto|rewrite Hp'; auto|done]. }
  - rewrite <- Hp' in Hb. rewrite Hb. destruct (last_with p (digested entries)) as [r'|] eqn:Hl.
    + destruct (Hlast r' eq_refl) as (b' & Hb' & Hr'). rewrite Hb in Hb'. simplify_eq. eauto.
    + exfalso. eapply last_with_None; [exact Hl| |by symmetry; exact Hp']. by apply list_elem_of_filter.
  - rewrite Hn. destruct (last_with p (digested entries)) as [r'|] eqn:Hl; [|done].
    destruct (Hlast r' eq_refl) as (b' & Hb' & _). congruence.
Qed.

Lemma same_file_hash p (t t' : tree) b b' :
  dict_get p t = Some (Data b) → dict_get p t' = Some (Data b') → sha256_hex b = sha256_hex b' → same_file p t t'.
Proof. intros Hb Hb' Hh. unfold same_file. rewrite Hb, Hb'. by apply sha256_hex_eq. Qed.

Lemma built_artifacts_nil what unexpected missing lock t t' m entries m' entries' :
  build_manifest lock t = Ok (m, entries) → build_manifest lock t' = Ok (m', entries') →
  compare_artifacts what unexpected missing (stored m) m' = Ok [] ↔
  ∀ path, option_Forall2 (λ r r', raw_sha256 r = raw_sha256 r' ∧ normalized_sha256 r = normalized_sha256 r')
    (last_with path (digested entries)) (last_with path (digested entries')).
Proof.
  intros (Hk & Hall & _ & _ & _ & _ & _ & Hart)%build_manifest_ok (_ & Hall' & _ & _ & _ & _ & _ & Hart')%build_manifest_ok.
  apply (compare_artifacts_nil _ _ _ _ _ _ (map canon (map to_entry (digested entries))) _ (map to_entry (digested entries')));
    [by rewrite dict_get_stored, Hart by done|apply entries_forall2|done|apply entries_forall2|].
  apply Forall_app. split; (eapply Forall_impl; [by apply digested_results|]); intros r; apply digest_some.
Qed.

Lemma manifest_pins_artifacts lock t t' m entries m' entries' u u' p :
  build_manifest lock t = Ok (m, entries) → build_manifest lock t' = Ok (m', entries') →
  fail_on_fatal entries = Ok u → fail_on_fatal entries' = Ok u' → compare_manifests (stored m) m' = Ok [] →
  declares lock p → same_file p t t'.
Proof.
  intros Hm Hm' Hc Hc' Hcmp Hp. apply compare_manifests_nil in Hcmp as (_ & _ & _ & _ & Hcmp).
  apply (built_artifacts_nil _ _ _ _ _ _ _ _ _ _ Hm Hm') with (path := p) in Hcmp.
  apply build_manifest_ok in Hm as (_ & Hall & _). apply build_manifest_ok in Hm' as (_ & Hall' & _).
  pose proof (clean_result _ _ _ _ _ Hall Hc Hp) as Hl. pose proof (clean_result _ _ _ _ _ Hall' Hc' Hp) as Hl'.
  destruct (dict_get p t) as [[b|]|] eqn:Hb; [destruct Hl as (r & Hl & Hr)|done|];
    (destruct (dict_get p t') as [[b'|]|] eqn:Hb'; [destruct Hl' as (r' & Hl' & Hr')|done|]);
    rewrite Hl, Hl' in Hcmp; inversion Hcmp as [? ? [Heq _]|]; subst.
  - apply (same_file_hash _ _ _ _ _ Hb Hb'). congruence.
  - unfold same_file. by rewrite Hb, Hb'.
Qed.

Lemma manifest_pins_sources lock t t' m entries m' entries' p :
  build_manifest lock t = Ok (m, entries) → build_manifest lock t' = Ok (m', entries') →
  compare_manifests (stored m) m' = Ok [] → sources lock p → same_file p t t'.
Proof.
  intros (Hk & _ & _ & _ & _ & _ & (src & Hs & Hsrc) & _)%build_manifest_ok (_ & _ & _ & _ & _ & _ & (src' & Hs' & Hsrc') & _)%build_manifest_ok Hcmp Hp.
  apply collect_provenance_ok in Hs as [[Hnd Hok] Hin]. apply collect_provenance_ok in Hs' as [[_ Hok'] Hin'].
  apply compare_manifests_nil in Hcmp as (_ & _ & _ & Hcmp & _).
  apply (compare_sources_nil _ _ src src' (holds_stored _ _ Hk Hnd Hsrc) (holds_text_values _ _ Hsrc')) with (p := p) in Hcmp.
  specialize (Hin p). specialize (Hin' p). destruct (dict_get p src) as [h|] eqn:Hh.
  - destruct (Hok p h Hh) as (b & Hb & ->). symmetry in Hcmp. destruct (Hok' p _ Hcmp) as (b' & Hb' & Heq). by eapply same_file_hash.
  - symmetry in Hcmp. apply dict_get_None in Hh, Hcmp. unfold same_file.
    rewrite (proj2 (dict_get_None p t)), (proj2 (dict_get_None p t')); [done|..]; intros Hx; tauto.
Qed.

(** ** A manifest against itself *)

Lemma plain_dict_values d : plain (PDict d) = true → NoDup d.*1 ∧ ∀ k v, dict_get k d = Some v → plain v = true.
Proof.
  cbn [plain]. intros [Hv Hnd]%andb_true_iff. apply bool_decide_eq_true in Hnd. split; [done|]. intros k v Hk.
  apply dict_get_elem in Hk; [|done]. apply forallb_Forall in Hv. rewrite Forall_forall in Hv. apply Hv in Hk.
  by apply andb_true_iff in Hk as [_ ?].
Qed.

Lemma toolchain_itself m tc :
  NoDup m.*1 → dict_get (lit "toolchain") m = Some (PDict tc) → plain (PDict tc) = true → compare_toolchain (stored m) m = Ok [].
Proof.
  intros Hk Htc Hp. unfold compare_toolchain, get_or. rewrite dict_get_stored, Htc by done. cbn [fmap option_fmap option_map from_option id].
  rewrite canon_dict. cbn [as_dict]. rewrite bind_Ok. apply collect_nil. rewrite (sort_sorted _ (sort_items_sorted _)), sort_items_perm.
  apply Forall_map, Forall_forall. intros [k v] Hin. cbn [fst snd]. rewrite bind_Ok. destruct (plain_dict_values tc Hp) as [Hnd Hv].
  apply dict_get_elem in Hin; [|done]. unfold differs, get_or_none. rewrite Hin. cbn [from_option id].
  by rewrite py_eq_canon by by apply (Hv k).
Qed.

Lemma manifest_itself lock t m entries :
  build_manifest lock t = Ok (m, entries) → plain (PDict m) = true → compare_manifests (stored m) m = Ok [].
Proof.
  intros Hm Hp. pose proof (built_artifacts_nil "artifact " ": unexpected, not present in the manifest" ": missing from the rebuilt tree"
    _ _ _ _ _ _ _ Hm Hm) as Hart. apply plain_dict_values in Hp as [_ Hp].
  apply build_manifest_ok in Hm as (Hk & _ & Hf & Hv & (tc & Htc) & (h & Hh) & (src & Hs & Hsrc) & _).
  apply collect_provenance_ok in Hs as [[Hnd _] _]. apply compare_manifests_nil. split_and!.
  - unfold compare_header, get_or_none, differs. cbn [map mjoin list_join]. rewrite !dict_get_stored, Hf, Hv by done.
    cbn [fmap option_fmap option_map from_option id canon]. by rewrite (proj2 (py_eq_str _ _) eq_refl).
  - eapply toolchain_itself; [done..|]. by eapply Hp.
  - unfold compare_policy, get_or_none. rewrite !dict_get_stored, Hh by done.
    cbn [fmap option_fmap option_map from_option id canon]. by rewrite (proj2 (py_eq_str _ _) eq_refl).
  - by apply (compare_sources_nil _ _ src src (holds_stored _ _ Hk Hnd Hsrc) (holds_text_values _ _ Hsrc)).
  - apply Hart. intros path. destruct (last_with path (digested entries)); by constructor.
Qed.

(** ** Writing *)

Lemma read_written out text (t t1 t' : tree) :
  write_text out text t = Ok t1 → dict_get out t' = dict_get out t1 →
  (∀ b, utf8_encode text = Some b → utf8_decode b = Some text) → read_text out t' = Ok text ∧ dict_has out t' = true.
Proof.
  unfold write_text. case_match eqn:Hb; [|done]. intros [= <-] Ho Hdec. rewrite dict_get_set, decide_True in Ho by done.
  unfold read_text, read_bytes, dict_has. rewrite Ho. cbn. by rewrite (Hdec _ eq_refl).
Qed.

Lemma read_stored m out (t t1 t' : tree) missing malformed :
  plain (PDict m) = true → write_text out (serialize_manifest m) t = Ok t1 → dict_get out t' = dict_get out t1 →
  read_document out t' missing malformed = Ok (PDict (stored m)).
Proof.
  intros Hp Hw Ho. destruct (read_written _ _ _ _ _ Hw Ho) as [Hr Hhas].
  { destruct (indented_bytes _ Hp) as (b & Hb & Hd). intros b' Hb'. unfold serialize_manifest in *. congruence. }
  unfold read_document. rewrite Hhas, Hr. cbn [negb]. rewrite bind_Ok. unfold serialize_manifest.
  by rewrite json_loads_indented, canon_dict by done.
Qed.

Lemma load_written lock t0 entries m out (t t1 t' : tree) :
  build_manifest lock t0 = Ok (m, entries) → plain (PDict m) = true →
  write_text out (serialize_manifest m) t = Ok t1 → dict_get out t' = dict_get out t1 → load_manifest out t' = Ok (stored m).
Proof.
  intros (Hk & _ & Hf & _)%build_manifest_ok Hp Hw Ho. unfold load_manifest. rewrite (read_stored m out t t1 t') by done.
  rewrite bind_Ok. cbn [as_dict]. rewrite bind_Ok.
  unfold get_or_none. rewrite dict_get_stored, Hf by done. cbn [fmap option_fmap option_map from_option id canon].
  by rewrite (proj2 (py_eq_str _ _) eq_refl).
Qed.

(** Writing a file that is neither an artifact nor a source changes no digest. *)
Lemma sorted_glob_set g out f (t : tree) : glob_matches g out = false → sorted_glob g (dict_set out f t) = sorted_glob g t.
Proof.
  intros Hg. unfold sorted_glob. rewrite dict_set_keys. case_decide; [done|]. rewrite filter_app, filter_cons_False by (by rewrite Hg).
  by rewrite app_nil_r.
Qed.

Lemma provenance_loop_set max out f t paths found :
  out ∉ paths → provenance_loop max (dict_set out f t) paths found = provenance_loop max t paths found.
Proof.
  revert found. induction paths as [|p paths IH]; intros found Hout; [done|]. cbn [provenance_loop].
  rewrite not_elem_of_cons in Hout. destruct Hout as [Hne Hout].
  unfold dict_has, read_bytes. rewrite dict_get_set, decide_False by done. rewrite IH by done.
  destruct (dict_get p t) as [[b|]|]; [|done..]. cbn [negb]. rewrite !bind_Ok. case_match; [done|]. by apply IH.
Qed.

Lemma collect_provenance_set lock out f t : ¬ sources lock out → collect_provenance lock (dict_set out f t) = collect_provenance lock t.
Proof.
  intros Hout. unfold collect_provenance. f_equal. unfold sources in Hout. generalize (@nil (str * str)).
  induction (provenance_globs lock) as [|g globs IH]; intros found; [done|]. cbn [result_foldl].
  assert (provenance_pattern lock (dict_set out f t) found g = provenance_pattern lock t found g) as ->.
  { destruct g as [| | | |g| |]; try done. cbn [provenance_pattern].
    assert (glob_matches g out = false) as Hg.
    { apply not_true_is_false. intros Hg. apply Hout. exists g. split; [by left|done]. }
    rewrite sorted_glob_set by done. apply provenance_loop_set. rewrite elem_of_sorted_glob. rewrite Hg. naive_solver. }
  destruct (provenance_pattern lock t found g); [|done]. apply IH. intros (g' & Hg' & Hm). apply Hout. exists g'. split; [by right|done].
Qed.

Lemma digest_artifact_set d lock out f t :
  item d "path" ≠ Ok (PStr out) → digest_artifact d lock (dict_set out f t) = digest_artifact d lock t.
Proof.
  intros Hne. unfold digest_artifact. destruct (item d "path") as [rel|]; [|done]. rewrite !bind_Ok.
  destruct rel as [| | | |path| |]; try done. assert (path ≠ out) by congruence.
  by rewrite dict_get_set, decide_False by done.
Qed.

Lemma build_manifest_set lock out f t :
  ¬ declares lock out → ¬ sources lock out → build_manifest lock (dict_set out f t) = build_manifest lock t.
Proof.
  intros Hd Hs. unfold build_manifest. rewrite collect_provenance_set by done. f_equal.
  unfold declares in Hd. induction (lk_artifacts lock) as [|d ds IH]; [done|]. cbn [result_mapM].
  rewrite digest_artifact_set by (intros ?; apply Hd; exists d; split; [by left|done]).
  rewrite IH; [done|]. intros (d' & Hd' & ?). apply Hd. exists d'. split; [by right|done].
Qed.

(** * Properties *)

(** The sources of a tree and their digests do not depend on the order in which the file
    system lists its files. *)
Theorem provenance_order_independent lock (t t' : tree) :
  NoDup t.*1 → t ≡ₚ t' → collect_provenance lock t = collect_provenance lock t'.
Proof. apply collect_provenance_perm. Qed.

(** A manifest that was written, to a path that is neither the lock nor an artifact nor a
    source, verifies against the tree it was written from. *)
Theorem written_manifest_verifies lock_path out lock (t : tree) o :
  load_lock lock_path t = Ok lock → command_write lock_path out t = Ok o →
  out ≠ lock_path → ¬ declares lock out → ¬ sources lock out →
  (∀ m entries, build_manifest lock t = Ok (m, entries) → plain (PDict m) = true) →
  command_verify lock_path out (tree_after o) = Ok (Outcome EXIT_OK [] (tree_after o)).
Proof.
  intros Hl Hw Hne Hd Hs Hp. unfold command_write in Hw. rewrite Hl, bind_Ok in Hw.
  apply bind_ok in Hw as ([m entries] & Hm & (u & Hu & (t1 & Ht1 & [= <-])%bind_ok)%bind_ok). cbn [tree_after].
  specialize (Hp m entries Hm). unfold command_verify.
  assert (∃ f, t1 = dict_set out f t) as [f ->] by (unfold write_text in Ht1; case_match; [simplify_eq; eauto|done]).
  assert (load_lock lock_path (dict_set out f t) = Ok lock) as ->.
  { rewrite <- Hl. unfold load_lock, read_document, read_text, read_bytes, dict_has. by rewrite dict_get_set, decide_False by done. }
  rewrite bind_Ok, (load_written lock t entries m out t (dict_set out f t)) by done.
  rewrite bind_Ok, build_manifest_set, Hm, bind_Ok, Hu, bind_Ok by done. by rewrite (manifest_itself lock t m entries).
Qed.

(** C34. A tree that verifies against a manifest has, at every path the lock declares or whose
    digest it records as a source, what the tree had from which the manifest was written:
    the same bytes, or nothing in both, unless two named byte strings collide. *)
Theorem verified_tree_is_pinned lock_path out lock (t t' : tree) o o' :
  load_lock lock_path t = Ok lock → load_lock lock_path t' = Ok lock →
  command_write lock_path out t = Ok o → dict_get out t' = dict_get out (tree_after o) →
  (∀ m entries, build_manifest lock t = Ok (m, entries) → plain (PDict m) = true) →
  command_verify lock_path out t' = Ok o' → exit_code o' = EXIT_OK →
  ∀ p, declares lock p ∨ sources lock p → same_file p t t'.
Proof.
  intros Hl Hl' Hw Ho Hp Hv Hexit p Hdp. unfold command_write in Hw. rewrite Hl, bind_Ok in Hw.
  apply bind_ok in Hw as ([m entries] & Hm & (u & Hu & (t1 & Ht1 & [= <-])%bind_ok)%bind_ok). cbn [tree_after] in Ho.
  unfold command_verify in Hv. rewrite Hl', bind_Ok, (load_written lock t entries m out t t1 t'), bind_Ok in Hv by eauto.
  apply bind_ok in Hv as ([m' entries'] & Hm' & (u' & Hu' & (fs & Hfs & [= <-])%bind_ok)%bind_ok).
  destruct fs as [|x fs]; [|done]. destruct Hdp; [by eapply manifest_pins_artifacts|by eapply manifest_pins_sources].
Qed.

(** A lock without its limits ends the process with the status of drift. *)
Theorem incomplete_lock_looks_like_drift lock_path out (t : tree) raw :
  read_document lock_path t "toolchain lock not found: " "toolchain lock is not valid JSON: " = Ok (PDict raw) →
  dict_get (lit "format") raw = Some (PStr (lit "harpocrates.zk-toolchain-lock")) → dict_get (lit "version") raw = Some (PInt 1) →
  dict_get (lit "limits") raw = None →
  process_status (command_verify lock_path out t) = EXIT_DRIFT.
Proof.
  intros Hr Hf Hv Hl. unfold command_verify, load_lock. rewrite Hr, bind_Ok.
  change (as_dict (PDict raw)) with (Ok (E := tool_exn) raw). rewrite bind_Ok.
  unfold get_or_none. rewrite Hf, Hv. cbn [from_option id]. rewrite (proj2 (py_eq_str _ _) eq_refl).
  cbv zeta. change (py_eq (PInt 1) (PInt 1)) with true. unfold ensure. rewrite !bind_Ok. unfold item. by rewrite Hl.
Qed.
End proofs.

(** * A working tree *)

#[local] Instance sample_floats : FloatText := λ s, PyFloat s s (Err OverflowError) false.
#[local] Existing Instance plain_unicode.
#[local] Instance sample_float_eq : FloatEq := λ _ _, false.

(** Patterns whose parts have stars in them. *)
Fixpoint star_match (p s : str) : bool :=
  match p with
  | [] => bool_decide (s = [])
  | c :: p' => if c =? 42 then (fix go s := star_match p' s || match s with [] => false | _ :: s => go s end) s
               else match s with d :: s => (c =? d) && star_match p' s | [] => false end
  end.

#[local] Instance sample_glob : Glob := λ pattern path,
  let ps := split_on 47 pattern in let qs := split_on 47 path in
  (length ps =? length qs)%nat && forallb (λ x, star_match x.1 x.2) (zip ps qs).

Definition sample_declarations : list pyval :=
  [PDict [(lit "path", PStr (lit "zk/noir/a/target/a.json")); (lit "kind", PStr (lit "json")); (lit "required", PBool true)];
   PDict [(lit "path", PStr (lit "zk/noir/a/target/vk")); (lit "kind", PStr (lit "binary"))]].

Definition sample_raw : list (str * pyval) :=
  [(lit "format", PStr (lit "harpocrates.zk-toolchain-lock")); (lit "version", PInt 1);
   (lit "toolchain", PDict [(lit "nargo", PDict [(lit "version", PStr (lit "1.0"))]);
      (lit "barretenberg", PDict [(lit "version", PStr (lit "0.87"))]);
      (lit "proving_scheme", PStr (lit "ultra_honk")); (lit "oracle_hash", PStr (lit "keccak"))]);
   (lit "environment", PDict [(lit "TZ", PStr (lit "UTC"))]);
   (lit "normalization", PDict [(lit "json", PDict [(lit "volatile_keys", PList [PStr (lit "names")])]);
      (lit "wasm", PDict [(lit "strip_custom_sections", PList [PStr (lit "name")])])]);
   (lit "artifacts", PList sample_declarations);
   (lit "provenance_sources", PDict [(lit "globs", PList [PStr (lit "zk/noir/*/Nargo.toml"); PStr (lit "zk/toolchain.lock.json")])]);
   (lit "limits", PDict [(lit "max_artifact_bytes", PInt 1000); (lit "max_artifacts", PInt 4);
      (lit "max_provenance_files", PInt 8); (lit "max_circuits", PInt 4)])].

Definition sample_lock : Lock :=
  {| raw := sample_raw;
     limits := {| max_artifact_bytes := 1000; max_artifacts := 4; max_provenance_files := 8; max_circuits := 4 |};
     volatile_json_keys := [lit "names"]; strip_custom_sections := [lit "name"]; lk_artifacts := sample_declarations;
     provenance_globs := [PStr (lit "zk/noir/*/Nargo.toml"); PStr (lit "zk/toolchain.lock.json")];
     circuit_root := lit "zk/noir"; package_file := lit "Nargo.toml" |}.

Definition lock_at : str := lit "zk/toolchain.lock.json".
Definition manifest_at : str := lit "zk/artifacts.manifest.json".
Definition json_file (v : pyval) : tree_file := Data (default [] (utf8_encode (print_value true v))).

Definition sample_tree : list (str * tree_file) :=
  [(lock_at, json_file (PDict sample_raw)); (lit "zk/noir/a/Nargo.toml", Data (lit "[package]"));
   (lit "zk/noir/a/target/a.json", json_file (PDict [(lit "names", PInt 3); (lit "bytecode", PStr (lit "H4sI"))]))].

Notation sample_written := (from_ok (Outcome 1 [] []) (command_write lock_at manifest_at sample_tree)).
(** The same tree later, with a file more. *)
Notation sample_later := ((lit "README.md", Data []) :: tree_after sample_written).

Lemma sample_lock_loads : load_lock lock_at sample_tree = Ok sample_lock.
Proof. vm_compute. reflexivity. Qed.

Lemma sample_lock_loads_later : load_lock lock_at sample_later = Ok sample_lock.
Proof. vm_compute. reflexivity. Qed.

Lemma sample_manifest_kept : dict_get manifest_at sample_later = dict_get manifest_at (tree_after sample_written).
Proof. generalize sample_written. intros o. cbn [dict_get]. by rewrite decide_False by done. Qed.

Lemma sample_writes : is_ok (command_write lock_at manifest_at sample_tree) = true.
Proof. vm_compute. reflexivity. Qed.

Lemma sample_plain : plain (PDict (from_ok ([], []) (build_manifest sample_lock sample_tree)).1) = true.
Proof. vm_compute. reflexivity. Qed.

Lemma sample_manifest_plain m entries : build_manifest sample_lock sample_tree = Ok (m, entries) → plain (PDict m) = true.
Proof. intros Hm. pose proof sample_plain as Hp. by rewrite Hm in Hp. Qed.

Lemma sample_verifies : is_ok (command_verify lock_at manifest_at sample_later) = true ∧
  exit_code (from_ok (Outcome 1 [] []) (command_verify lock_at manifest_at sample_later)) = EXIT_OK.
Proof. split; vm_compute; reflexivity. Qed.

Lemma provenance_order_independent_witness :
  collect_provenance sample_lock sample_tree = collect_provenance sample_lock (rev sample_tree).
Proof.
  apply provenance_order_independent; [apply (bool_decide_unpack _); vm_compute; exact I|]. apply Permutation_rev.
Defined.

Lemma written_manifest_verifies_witness :
  command_verify lock_at manifest_at (tree_after sample_written) = Ok (Outcome EXIT_OK [] (tree_after sample_written)).
Proof.
  apply (written_manifest_verifies lock_at manifest_at sample_lock sample_tree).
  - exact sample_lock_loads.
  - apply from_ok_spec. exact sample_writes.
  - intros Heq. discriminate Heq.
  - intros (d & Hd & Hp). unfold sample_lock, sample_declarations in Hd. cbn [lk_artifacts] in Hd.
    rewrite !elem_of_cons in Hd. destruct Hd as [->|[->|Hd%elem_of_nil]]; [discriminate Hp|discriminate Hp|exact Hd].
  - intros (g & Hg & Hm). unfold sample_lock in Hg. cbn [provenance_globs] in Hg.
    rewrite !elem_of_cons in Hg. destruct Hg as [[= ->]|[[= ->]|Hg%elem_of_nil]]; [discriminate Hm|discriminate Hm|exact Hg].
  - exact sample_manifest_plain.
Defined.

Lemma verified_tree_is_pinned_witness : same_file (lit "zk/noir/a/target/a.json") sample_tree sample_later.
Proof.
  apply (verified_tree_is_pinned lock_at manifest_at sample_lock sample_tree sample_later sample_written
    (from_ok (Outcome 1 [] []) (command_verify lock_at manifest_at sample_later))).
  - exact sample_lock_loads.
  - exact sample_lock_loads_later.
  - apply from_ok_spec. exact sample_writes.
  - exact sample_manifest_kept.
  - exact sample_manifest_plain.
  - apply from_ok_spec. exact (proj1 sample_verifies).
  - exact (proj2 sample_verifies).
  - left. eexists. split; [left|]. reflexivity.
Defined.

Lemma incomplete_lock_looks_like_drift_witness :
  process_status (command_verify lock_at manifest_at [(lock_at, json_file (PDict (take 2 sample_raw)))]) = EXIT_DRIFT.
Proof. apply (incomplete_lock_looks_like_drift _ _ _ (take 2 sample_raw)); vm_compute; reflexivity. Defined.
