(* ===== verification/BrowserManifest.v ===== *)
(** The documents beside the artifact manifest, of [zk/tools/artifact_manifest.py]: the
    manifest of the circuits published to the browser, the published provenance of the
    circuit sources, and the check that every circuit is pinned.

    Shown: a build target is derived from exactly the paths of published circuits and never
    leaves the circuit tree; a passed verification means that every published circuit
    normalizes to the same bytes as its build target when both are there; a provenance that
    was written verifies; and the coverage check passes exactly when the packages on disk
    and the declared circuits are the same. *)
From Stdlib Require Import ZArith Lia.
From stdpp Require Import base decidable strings numbers list sorting.
From S2P Require Import Prelude PyStr Json JsonIndent PyVal Codec Sha256 MetadataErrors ArtifactNormal ArtifactManifest.

Open Scope Z_scope.

#[local] Arguments lit _ : simpl never.

Definition BROWSER_MANIFEST_FORMAT : str := lit "harpocrates.zk-browser-artifact-manifest".
Definition PROVENANCE_FORMAT : str := lit "harpocrates.zk-circuit-provenance".
Definition PUBLISHED_ACIR_ROLE : str := lit "published_acir".
Definition ACIR_ROLE : str := lit "acir".

(** [s.endswith(suffix)] *)
Definition ends_in (suffix s : str) : bool := bool_decide (drop (length s - length suffix) s = suffix).

Section browser.
Context `{FloatText, Unicode, FloatEq, Glob}.

(** [entry.get("role") == role] *)
Definition has_role (role : str) (entry : pyval) : result tool_exn bool :=
  d ← as_dict entry; Ok (py_eq (get_or_none (lit "role") d) (PStr role)).

(** The entries that pass a test which may raise. *)
Fixpoint keep (f : pyval → result tool_exn bool) (l : list pyval) : result tool_exn (list pyval) :=
  match l with
  | [] => Ok []
  | x :: l => b ← f x; r ← keep f l; Ok (if (b : bool) then x :: r else r)
  end.

Definition published_acir_declarations (lock : Lock) : result tool_exn (list pyval) := keep (has_role PUBLISHED_ACIR_ROLE) (lk_artifacts lock).

(** * Build targets *)

Definition PUBLIC_PREFIX : str := lit "frontend/public/noir/".

Definition is_stem_char (c : Z) : bool :=
  ((48 <=? c) && (c <=? 57)) || ((65 <=? c) && (c <=? 90)) || ((97 <=? c) && (c <=? 122)) || (c =? 95).

Definition build_target (stem : str) : str := lit "zk/noir/" ++ stem ++ lit "/target/" ++ stem ++ lit ".json".

Definition published_to_build_target (published_path : str) : result tool_exn str :=
  let refuse := Err (BuildError (lit "refusing to derive a build target from path: " ++ repr_str published_path)) in
  if negb (starts_with PUBLIC_PREFIX published_path) || contains (lit "..") published_path then refuse else
  let remainder := drop (length PUBLIC_PREFIX) published_path in
  if bool_decide (47 ∈ remainder) || bool_decide (92 ∈ remainder) || negb (ends_in (lit ".json") remainder) then refuse else
  let stem := take (length remainder - 5) remainder in
  if bool_decide (stem = []) || negb (forallb is_stem_char stem) then refuse
  else Ok (build_target stem).

(** * The browser manifest *)

Definition soften (declaration : pyval) : result tool_exn pyval :=
  d ← as_dict declaration; Ok (PDict (dict_set (lit "required") (PBool false) d)).

Definition build_browser_manifest (lock : Lock) (t : tree) : result tool_exn (list (str * pyval) * list ArtifactResult) :=
  declarations ← published_acir_declarations lock;
  match declarations with
  | [] => fatal "toolchain lock declares no published_acir browser artifacts"
  | _ =>
      entries ← result_mapM (λ d, s ← soften d; digest_artifact s lock t) declarations;
      toolchain ← toolchain_section lock;
      policy ← normalization_policy_sha256 lock;
      Ok ([(lit "format", PStr BROWSER_MANIFEST_FORMAT); (lit "version", PInt MANIFEST_VERSION); (lit "toolchain", toolchain);
           (lit "normalization_policy_sha256", policy);
           (lit "artifacts", PList (map to_entry (digested entries)));
           (lit "skipped", PList (map (λ r, PStr (ar_path r)) (skipped entries)))], entries)
  end.

(** A declaration made for the comparison with the build target. *)
Definition forced_declaration (path : str) (kind : pyval) (role : str) : pyval :=
  PDict [(lit "path", PStr path); (lit "kind", kind); (lit "role", PStr role); (lit "required", PBool true)].

Definition compare_published (lock : Lock) (t : tree) (declaration : pyval) : result tool_exn (list str) :=
  p ← item declaration "path";
  match p with
  | PStr published_path =>
      target_path ← published_to_build_target published_path;
      if negb (dict_has published_path t && dict_has target_path t) then Ok [] else
      d ← as_dict declaration;
      let kind := get_or "kind" (PStr (lit "json")) d in
      published ← digest_artifact (forced_declaration published_path kind PUBLISHED_ACIR_ROLE) lock t;
      target ← digest_artifact (forced_declaration target_path kind ACIR_ROLE) lock t;
      if negb (bool_decide (ar_state published = DIGESTED)) then
        Ok [lit "browser artifact " ++ published_path ++ lit ": unusable state " ++ state_text (ar_state published)]
      else if negb (bool_decide (ar_state target = DIGESTED)) then
        Ok [lit "build target " ++ target_path ++ lit ": unusable state " ++ state_text (ar_state target)]
      else if negb (bool_decide (normalized_sha256 published = normalized_sha256 target)) then
        a ← short (entry_text (normalized_sha256 published)); b ← short (entry_text (normalized_sha256 target));
        Ok [lit "browser artifact " ++ published_path ++ lit ": normalized digest " ++ a ++ lit " disagrees with build target "
            ++ target_path ++ lit " " ++ b]
      else Ok []
  | _ => Err (Escaped AttributeError)
  end.

Definition compare_published_to_targets (lock : Lock) (t : tree) : result tool_exn (list str) :=
  ds ← published_acir_declarations lock; collect (compare_published lock t) ds.

(** A document of a format and version. *)
Definition check_document (path : str) (t : tree) (format : str) (missing malformed other version_of : string) :
    result tool_exn (list (str * pyval)) :=
  v ← read_document path t missing malformed;
  d ← as_dict v;
  ensure (py_eq (get_or_none (lit "format") d) (PStr format)) (BuildError (lit other ++ path));;
  let version := get_or_none (lit "version") d in
  ensure (py_eq version (PInt MANIFEST_VERSION)) (BuildError (lit version_of ++ py_repr version));;
  Ok d.

Definition load_browser_manifest (path : str) (t : tree) : result tool_exn (list (str * pyval)) :=
  check_document path t BROWSER_MANIFEST_FORMAT "browser manifest not found: " "browser manifest is not valid JSON: "
    "not a browser artifact manifest: " "unsupported browser manifest version: ".

Definition compare_browser_manifests (e a : list (str * pyval)) : result tool_exn (list str) :=
  tc ← compare_toolchain e a;
  art ← compare_artifacts "browser artifact " ": unexpected publish, not in the browser manifest"
    ": missing from frontend/public/noir (declared in the browser manifest)" e a;
  Ok (compare_header "browser manifest " e a ++ tc ++ compare_policy "browser artifacts" e a ++ art).

Definition fail_on_fatal_browser (entries : list ArtifactResult) (consequence : string) : result tool_exn unit :=
  ensure (bool_decide (run_fatal entries = []))
    (BuildError (dec_str (zlen (run_fatal entries)) ++ lit " browser artifact(s) in a fatal state; " ++ lit consequence)).

Definition command_write_browser (lock_path output : str) (t : tree) : result tool_exn command_outcome :=
  lock ← load_lock lock_path t;
  '(manifest, entries) ← build_browser_manifest lock t;
  fail_on_fatal_browser entries "browser manifest not written";;
  ensure (negb (bool_decide (digested entries = [])))
    (BuildError (lit "no published browser ACIR found under frontend/public/noir; browser manifest not written"));;
  t' ← write_text output (serialize_manifest manifest) t;
  Ok (Outcome EXIT_OK [] t').

Definition command_verify_browser (lock_path manifest_path : str) (t : tree) : result tool_exn command_outcome :=
  lock ← load_lock lock_path t;
  expected ← load_browser_manifest manifest_path t;
  '(actual, entries) ← build_browser_manifest lock t;
  fail_on_fatal_browser entries "verify aborted";;
  fs ← compare_browser_manifests expected actual;
  gs ← compare_published_to_targets lock t;
  Ok (report (fs ++ gs) t).

(** * Published provenance *)

Definition declared_slot (entry : pyval) : result tool_exn pyval :=
  path ← item entry "path"; kind ← item entry "kind"; d ← as_dict entry;
  Ok (PDict [(lit "path", path); (lit "kind", kind); (lit "role", get_or "role" (PStr (lit "unknown")) d);
             (lit "required", PBool (truthy (get_or "required" (PBool false) d)))]).

Definition build_provenance (lock : Lock) (t : tree) : result tool_exn (list (str * pyval)) :=
  srcs ← collect_provenance lock t;
  ensure (negb (bool_decide (srcs = [])))
    (BuildError (lit "provenance globs matched no circuit sources; provenance not written"));;
  declared ← result_mapM declared_slot (lk_artifacts lock);
  toolchain ← toolchain_section lock;
  environment ← environment_section lock;
  policy ← normalization_policy_sha256 lock;
  Ok [(lit "format", PStr PROVENANCE_FORMAT); (lit "version", PInt MANIFEST_VERSION); (lit "toolchain", toolchain);
      (lit "environment", environment); (lit "normalization_policy_sha256", policy);
      (lit "provenance_globs", PList (provenance_globs lock)); (lit "provenance", text_values srcs);
      (lit "declared_artifacts", PList declared)].

(** [list(document.get("provenance_globs") or [])] *)
Definition globs_of (d : list (str * pyval)) : result tool_exn (list pyval) :=
  let v := get_or_none (lit "provenance_globs") d in if truthy v then as_tuple v else Ok [].

Definition compare_globs (e a : list (str * pyval)) : result tool_exn (list str) :=
  x ← globs_of e; y ← globs_of a;
  Ok (if py_eq (PList x) (PList y) then []
      else [lit "provenance_globs changed; source set is no longer comparable under the same policy"]).

Definition compare_slot (label : str) (before after : pyval) : result tool_exn (list str) :=
  b ← as_dict before; a ← as_dict after;
  Ok (mjoin (map (λ field, differs (label ++ lit "." ++ field) (get_or_none field b) (get_or_none field a))
               [lit "kind"; lit "role"; lit "required"])).

Definition compare_declared (e a : list (str * pyval)) : result tool_exn (list str) :=
  ee ← entries_by_path "declared_artifacts" e; ea ← entries_by_path "declared_artifacts" a;
  collect (λ path,
    let label := lit "declared artifact " ++ path in
    match dict_get path ee, dict_get path ea with
    | None, _ => Ok [label ++ lit ": unexpected, not present in published provenance"]
    | Some _, None => Ok [label ++ lit ": missing from lock-declared artifact set"]
    | Some before, Some after => compare_slot label before after
    end) (sorted_union ee.*1 ea.*1).

Definition compare_provenance (e a : list (str * pyval)) : result tool_exn (list str) :=
  tc ← compare_toolchain e a;
  gl ← compare_globs e a;
  src ← compare_sources e a;
  dec ← compare_declared e a;
  Ok (compare_header "provenance " e a ++ tc ++ compare_policy "provenance" e a ++ gl ++ src ++ dec).

Definition load_provenance (path : str) (t : tree) : result tool_exn (list (str * pyval)) :=
  check_document path t PROVENANCE_FORMAT "circuit provenance not found: " "circuit provenance is not valid JSON: "
    "not a circuit provenance document: " "unsupported circuit provenance version: ".

Definition command_write_provenance (lock_path output : str) (t : tree) : result tool_exn command_outcome :=
  lock ← load_lock lock_path t;
  document ← build_provenance lock t;
  t' ← write_text output (serialize_manifest document) t;
  Ok (Outcome EXIT_OK [] t').

Definition command_verify_provenance (lock_path manifest_path : str) (t : tree) : result tool_exn command_outcome :=
  lock ← load_lock lock_path t;
  expected ← load_provenance manifest_path t;
  actual ← build_provenance lock t;
  fs ← compare_provenance expected actual;
  Ok (report fs t).

(** * Coverage *)

(** The circuit an artifact path names: [<root>/<name>/target/<name>.json]. *)
Definition circuit_of_path (root relative : str) : option str :=
  let prefix := root ++ lit "/" in
  if negb (starts_with prefix relative) then None else
  match split_on 47 (drop (length prefix) relative) with
  | [a; b; c] =>
      if bool_decide (b = lit "target") && ends_in (lit ".json") c then
        let name := take (length c - 5) c in
        if negb (bool_decide (name = [])) && bool_decide (name = a) then Some name else None
      else None
  | _ => None
  end.

Definition declared_circuit_names (lock : Lock) : result tool_exn (list str) :=
  ds ← keep (has_role ACIR_ROLE) (lk_artifacts lock);
  names ← result_mapM (λ entry, d ← as_dict entry; Ok (circuit_of_path (circuit_root lock) (py_str (get_or "path" (PStr []) d)))) ds;
  Ok (remove_dups (omap id names)).

(** [text.splitlines()] *)
Definition line_break (c : Z) : bool :=
  ((10 <=? c) && (c <=? 13)) || ((28 <=? c) && (c <=? 30)) || (c =? 133) || (c =? 8232) || (c =? 8233).

Fixpoint lines_go (line s : str) : list str :=
  match s with
  | [] => match line with [] => [] | _ => [rev line] end
  | 13 :: 10 :: s => rev line :: lines_go [] s
  | c :: s => if line_break c then rev line :: lines_go [] s else lines_go (c :: line) s
  end.
Definition splitlines (s : str) : list str := lines_go [] s.

(** [re.fullmatch] of [type], [=] and the quoted word [lib], with white space around the
    sign; 34 and 39 are the quotes. *)
Definition is_quote (c : Z) : bool := (c =? 34) || (c =? 39).
Definition lib_line (line : str) : bool :=
  starts_with (lit "type") line &&
  match drop_while py_space (drop 4 line) with
  | 61 :: r =>
      match drop_while py_space r with
      | q :: 108 :: 105 :: 98 :: [q'] => is_quote q && is_quote q'
      | _ => false
      end
  | _ => false
  end.

(** [raw_line.split("#", 1)[0].strip()] *)
Definition code_of_line (raw_line : str) : str := py_strip (match partition_on 35 raw_line with Some (a, _) => a | None => raw_line end).

Definition is_library_package (package_toml : str) (t : tree) : result tool_exn bool :=
  match read_text package_toml t with
  | Err FileFailure => Ok false
  | Err e => Err e
  | Ok text => Ok (existsb (λ line, lib_line (code_of_line line)) (splitlines text))
  end.

(** [sorted(base.iterdir())], the directories and files below the base. *)
Definition children (base : str) (t : tree) : list str :=
  let prefix := base ++ lit "/" in
  sorted_union (map (λ p, default [] (head (split_on 47 (drop (length prefix) p)))) (filter (λ p, starts_with prefix p = true) t.*1)) [].

Definition package_toml (lock : Lock) (name : str) : str := circuit_root lock ++ lit "/" ++ name ++ lit "/" ++ package_file lock.

Fixpoint discover_loop (lock : Lock) (t : tree) (names found : list str) : result tool_exn (list str) :=
  match names with
  | [] => Ok found
  | name :: names =>
      if negb (dict_has (package_toml lock name) t) then discover_loop lock t names found else
      lib ← is_library_package (package_toml lock name) t;
      if (lib : bool) then discover_loop lock t names found
      else if max_circuits (limits lock) <=? zlen found
      then Err (BuildError (lit "circuit count exceeds " ++ dec_str (max_circuits (limits lock)) ++ lit "; refusing to continue"))
      else discover_loop lock t names (found ++ [name])
  end.

Definition discover_circuit_packages (lock : Lock) (t : tree) : result tool_exn (list str) :=
  discover_loop lock t (children (circuit_root lock) t) [].

(** [sorted(a - b)] *)
Definition sorted_difference (a b : list str) : list str := sorted_union (filter (λ s, s ∉ b) a) [].

Definition unpinned_finding (lock : Lock) (name : str) : str :=
  lit "circuit " ++ name ++ lit ": package on disk declares no " ++ circuit_root lock ++ lit "/" ++ name ++ lit "/target/" ++ name
  ++ lit ".json artifact; it would be built and digested by nothing".
Definition orphan_finding (lock : Lock) (name : str) : str :=
  lit "circuit " ++ name ++ lit ": declared artifact has no " ++ circuit_root lock ++ lit "/" ++ name ++ lit "/" ++ package_file lock
  ++ lit " package; the pin can never be rebuilt".

Definition check_coverage (lock : Lock) (t : tree) : result tool_exn (list str) :=
  on_disk ← discover_circuit_packages lock t;
  declared ← declared_circuit_names lock;
  Ok (map (unpinned_finding lock) (sorted_difference on_disk declared) ++ map (orphan_finding lock) (sorted_difference declared on_disk)).

Definition command_check_coverage (lock_path : str) (t : tree) : result tool_exn command_outcome :=
  lock ← load_lock lock_path t;
  fs ← check_coverage lock t;
  Ok (report fs t).
End browser.

(** * Lemmas *)

(** ** Texts *)

Lemma starts_with_app_iff p s : starts_with p s = true ↔ ∃ r, s = p ++ r.
Proof.
  unfold starts_with. rewrite bool_decide_eq_true. split.
  - intros Ht. exists (drop (length p) s). rewrite <- Ht at 1. by rewrite take_drop.
  - intros [r ->]. apply take_app_length.
Qed.

Lemma ends_in_spec p s : ends_in p s = true ↔ ∃ r, s = r ++ p.
Proof.
  unfold ends_in. rewrite bool_decide_eq_true. split.
  - intros Hd. exists (take (length s - length p) s). rewrite <- Hd at 2. by rewrite take_drop.
  - intros [r ->]. rewrite length_app. replace (_ - _)%nat with (length r) by lia. apply drop_app_length.
Qed.

Lemma split_on_app sep a b : sep ∉ a → split_on sep (a ++ sep :: b) = a :: split_on sep b.
Proof.
  induction a as [|c a IH]; cbn; [by rewrite Z.eqb_refl|]. rewrite not_elem_of_cons. intros [Hc Ha].
  rewrite IH by done. by destruct (Z.eqb_spec c sep).
Qed.

Lemma split_on_none sep a : sep ∉ a → split_on sep a = [a].
Proof.
  induction a as [|c a IH]; cbn; [done|]. rewrite not_elem_of_cons. intros [Hc Ha]. rewrite IH by done. by destruct (Z.eqb_spec c sep).
Qed.

Lemma split_on_cases (sep : Z) (s : str) : sep ∉ s ∨ ∃ a b, s = a ++ sep :: b ∧ sep ∉ a.
Proof.
  induction s as [|c s IH]; [left; by apply not_elem_of_nil|]. destruct (decide (c = sep)) as [->|Hc].
  - right. exists [], s. split; [done|]. apply not_elem_of_nil.
  - destruct IH as [Hs|(a & b & -> & Ha)]; [left; by apply not_elem_of_cons|]. right. exists (c :: a), b. split; [done|]. by apply not_elem_of_cons.
Qed.

Lemma split_on_cons sep s a ws :
  split_on sep s = a :: ws ↔ sep ∉ a ∧ (ws = [] ∧ s = a ∨ ∃ b, s = a ++ sep :: b ∧ split_on sep b = ws).
Proof.
  destruct (split_on_cases sep s) as [Hs|(x & b & -> & Hx)].
  - rewrite split_on_none by done. split; [intros [= -> <-]; auto|]. intros [Ha [[-> ->]|(b & -> & _)]]; [done|].
    exfalso. apply Hs, elem_of_app. right. left.
  - rewrite split_on_app by done. split; [intros [= -> <-]; eauto 6|]. intros [Ha [[-> Heq]|(b' & Heq & <-)]].
    + exfalso. apply Ha. rewrite <- Heq. apply elem_of_app. right. left.
    + assert (x = a ∧ b = b') as [-> ->]; [|done]. clear -Hx Ha Heq. revert a Ha Heq.
      induction x as [|c x IH]; intros [|d a] Ha Heq; cbn in Heq.
      * by injection Heq as ->.
      * injection Heq as <- _. exfalso. apply Ha. left.
      * injection Heq as -> _. exfalso. apply Hx. left.
      * injection Heq as -> Heq. apply not_elem_of_cons in Hx as [_ Hx], Ha as [_ Ha]. destruct (IH Hx a Ha Heq) as [-> ->]. done.
Qed.

Lemma split_on_three sep s a b c :
  split_on sep s = [a; b; c] ↔ sep ∉ a ∧ sep ∉ b ∧ sep ∉ c ∧ s = a ++ sep :: b ++ sep :: c.
Proof.
  rewrite split_on_cons. split.
  - intros (Ha & [[[=] _]|(r & -> & (Hb & [[[=] _]|(r' & -> & (Hc & [[_ ->]|(? & _ & Hr)])%split_on_cons)])%split_on_cons)]); [done|].
    exfalso. destruct (split_on_cases sep x) as [Hx|(? & ? & -> & Hx)]; [by rewrite split_on_none in Hr|by rewrite split_on_app in Hr].
  - intros (Ha & Hb & Hc & ->). split; [done|]. right. eexists. split; [done|]. by rewrite split_on_app, split_on_none.
Qed.

(** ** Build targets *)

Lemma word_not c d : is_stem_char c = true → d ∈ [46; 47; 92] → c ≠ d.
Proof. unfold is_stem_char. intros Hc Hd ->. rewrite !elem_of_cons, elem_of_nil in Hd. destruct Hd as [->|[->|[->|[]]]]; done. Qed.

Lemma words_free stem d : forallb is_stem_char stem = true → d ∈ [46; 47; 92] → d ∉ stem.
Proof. intros Hs%forallb_Forall Hd Hin. rewrite Forall_forall in Hs. apply Hs in Hin. by apply (word_not d d). Qed.

(** Two dots in a row need two dots. *)
Lemma no_two_dots a b : 46 ∉ a → 46 ∉ b → contains (lit "..") (a ++ 46 :: b) = false.
Proof.
  intros Ha Hb. apply not_true_is_false. intros (x & y & Heq)%contains_spec. change (lit "..") with [46; 46] in Heq.
  assert (∀ l : str, 46 ∉ l → filter (λ c, c = 46) l = []) as Hn.
  { intros l Hl. apply filter_none, Forall_forall. intros c Hc ->. done. }
  apply (f_equal (λ l, length (filter (λ c, c = 46) l))) in Heq. cbn [app] in Heq.
  rewrite !filter_app, filter_cons_True in Heq by done. rewrite (Hn a), (Hn b) in Heq by done.
  rewrite !filter_cons_True in Heq by done. rewrite !length_app in Heq. cbn in Heq. lia.
Qed.

Lemma public_prefix_dots : 46 ∉ PUBLIC_PREFIX.
Proof. apply (bool_decide_unpack _). vm_compute. exact I. Qed.

(** ** Entries kept *)

Lemma keep_ok f l k : keep f l = Ok k → ∀ x, x ∈ k ↔ x ∈ l ∧ f x = Ok true.
Proof.
  revert k. induction l as [|y l IH]; cbn [keep]; intros k.
  { intros [= <-] x. rewrite !elem_of_nil. tauto. }
  intros (b & Hb & (r & Hr & [= <-])%bind_ok)%bind_ok x. specialize (IH r Hr x).
  destruct b; rewrite !elem_of_cons, IH; intuition (subst; congruence || auto).
Qed.

Section proofs.
Context `{FloatText, Unicode, FloatEq, Glob}.

(** ** Coverage *)

Lemma circuit_of_path_ok root relative name :
  circuit_of_path root relative = Some name ↔
  name ≠ [] ∧ 47 ∉ name ∧ relative = root ++ lit "/" ++ name ++ lit "/target/" ++ name ++ lit ".json".
Proof.
  unfold circuit_of_path. split.
  - case_match eqn:Hs; [done|]. apply negb_false_iff, starts_with_app_iff in Hs as [r ->]. rewrite drop_app_length.
    destruct (split_on 47 r) as [|a [|b [|c [|? ?]]]] eqn:Hr; try done. apply split_on_three in Hr as (Ha & Hb & Hc & ->).
    case_match eqn:Hbc; [|done]. apply andb_true_iff in Hbc as [->%bool_decide_eq_true (n & ->)%ends_in_spec].
    rewrite length_app. change (length (lit ".json")) with 5%nat. replace (length n + 5 - 5)%nat with (length n) by lia.
    rewrite take_app_length. case_match eqn:Hn; [|done]. apply andb_true_iff in Hn as [Hne%negb_true_iff ->%bool_decide_eq_true].
    apply bool_decide_eq_false in Hne. intros [= ->]. split_and!; [done|done|]. by rewrite <- !app_assoc.
  - intros (Hne & Hn & ->). rewrite app_assoc, (proj2 (starts_with_app_iff _ _)) by eauto. cbn [negb]. rewrite drop_app_length.
    assert (split_on 47 (name ++ lit "/target/" ++ name ++ lit ".json") = [name; lit "target"; name ++ lit ".json"]) as ->.
    { apply split_on_three. split_and!; [done|apply (bool_decide_unpack _); vm_compute; exact I| |reflexivity].
      rewrite not_elem_of_app. split; [done|]. apply (bool_decide_unpack _); vm_compute; exact I. }
    rewrite bool_decide_eq_true_2, (proj2 (ends_in_spec _ _)) by eauto. cbn [andb]. rewrite length_app.
    change (length (lit ".json")) with 5%nat. replace (length name + 5 - 5)%nat with (length name) by lia. rewrite take_app_length.
    by rewrite bool_decide_eq_false_2, bool_decide_eq_true_2.
Qed.

(** A package on disk that is not a library, and a declared circuit. *)
Definition on_disk (lock : Lock) (t : tree) (name : str) : Prop :=
  47 ∉ name ∧ package_toml lock name ∈ t.*1 ∧ is_library_package (package_toml lock name) t = Ok false.

Definition circuit_declared (lock : Lock) (name : str) : Prop :=
  name ≠ [] ∧ 47 ∉ name ∧ ∃ entry d, entry ∈ lk_artifacts lock ∧ has_role ACIR_ROLE entry = Ok true ∧ entry = PDict d ∧
    py_str (get_or "path" (PStr []) d) = circuit_root lock ++ lit "/" ++ name ++ lit "/target/" ++ name ++ lit ".json".

Lemma declared_names_ok lock names : declared_circuit_names lock = Ok names → ∀ name, name ∈ names ↔ circuit_declared lock name.
Proof.
  unfold declared_circuit_names. intros (ds & Hds & (os & Hos%result_mapM_ok & [= <-])%bind_ok)%bind_ok name.
  pose proof (keep_ok _ _ _ Hds) as Hk. rewrite elem_of_remove_dups, list_elem_of_omap. split.
  - intros (o & Ho & Hn). cbn in Hn. subst o. apply list_elem_of_lookup in Ho as [i Hi].
    destruct (Forall2_lookup_r _ _ _ _ _ Hos Hi) as (entry & He & (d & Hd & [= Hp])%bind_ok). apply list_elem_of_lookup_2, Hk in He as [He Hr].
    destruct entry as [| | | | | |d']; try done. injection Hd as ->. apply circuit_of_path_ok in Hp as (Hne & Hno & Hp).
    split_and!; [done|done|]. exists (PDict d), d. done.
  - intros (Hne & Hno & entry & d & He & Hr & -> & Hp). assert (PDict d ∈ ds) as Hin by (by apply Hk).
    apply list_elem_of_lookup in Hin as [i Hi]. destruct (Forall2_lookup_l _ _ _ _ _ Hos Hi) as (o & Ho & Heq).
    cbn [as_dict] in Heq. rewrite bind_Ok in Heq. injection Heq as <-. eexists. split; [by eapply list_elem_of_lookup_2|].
    by apply circuit_of_path_ok.
Qed.

Lemma discover_loop_ok lock t names found res :
  discover_loop lock t names found = Ok res →
  ∀ n, n ∈ res ↔ n ∈ found ∨ n ∈ names ∧ package_toml lock n ∈ t.*1 ∧ is_library_package (package_toml lock n) t = Ok false.
Proof.
  revert found. induction names as [|m names IH]; intros found; cbn [discover_loop].
  { intros [= <-] n. rewrite elem_of_nil. tauto. }
  destruct (dict_has _ t) eqn:Hh; cbn [negb].
  - intros (lib & Hl & Hr)%bind_ok n. apply dict_has_spec in Hh. destruct lib.
    + rewrite (IH _ Hr), elem_of_cons. intuition (subst; congruence || auto).
    + case_match; [done|]. rewrite (IH _ Hr), elem_of_app, list_elem_of_singleton, elem_of_cons. intuition (subst; auto).
  - intros Hr n. rewrite (IH _ Hr), elem_of_cons. assert (package_toml lock m ∉ t.*1) by (rewrite <- dict_has_spec, Hh; done).
    intuition (subst; done || auto).
Qed.

Lemma head_segment s : 47 ∉ default [] (head (split_on 47 s)).
Proof.
  destruct (split_on_cases 47 s) as [Hs|(a & b & -> & Ha)]; [by rewrite split_on_none|by rewrite split_on_app].
Qed.

Lemma children_ok lock (t : tree) n : package_toml lock n ∈ t.*1 → n ∈ children (circuit_root lock) t ↔ 47 ∉ n.
Proof.
  intros Hp. unfold children. rewrite elem_of_sorted_union, elem_of_nil. split.
  - intros [Hn|[]]. apply list_elem_of_In, in_map_iff in Hn as (p & <- & _). apply head_segment.
  - intros Hn. left. apply list_elem_of_In, in_map_iff. exists (package_toml lock n). unfold package_toml in *. split.
    + rewrite app_assoc, drop_app_length. change (lit "/" ++ package_file lock) with (47 :: package_file lock). by rewrite split_on_app.
    + apply list_elem_of_In, list_elem_of_filter. split; [|done]. apply starts_with_app_iff. rewrite app_assoc. eauto.
Qed.

Lemma sorted_difference_nil a b : sorted_difference a b = [] ↔ ∀ s, s ∈ a → s ∈ b.
Proof.
  unfold sorted_difference. split.
  - intros Hn s Hs. destruct (decide (s ∈ b)) as [Hb|Hb]; [done|]. exfalso.
    assert (s ∈ sorted_union (filter (λ s, s ∉ b) a) []) as Hin by (apply elem_of_sorted_union; left; by apply list_elem_of_filter).
    rewrite Hn in Hin. by apply elem_of_nil in Hin.
  - intros Hs. rewrite filter_none; [done|]. apply Forall_forall. intros s Hin Hb. by apply Hb, Hs.
Qed.

(** ** Published circuits and their build targets *)

Lemma digest_forced path kind role lock t r :
  digest_artifact (forced_declaration path kind role) lock t = Ok r → ar_path r = path ∧ ar_kind r = kind.
Proof.
  unfold digest_artifact, forced_declaration. change (item _ "path") with (Ok (E := tool_exn) (PStr path)).
  change (item _ "kind") with (Ok (E := tool_exn) kind). cbn [as_dict]. rewrite !bind_Ok. cbv zeta.
  destruct (dict_get path t) as [f|]; [|by intros [= <-]]. case_match; [by intros [= <-]|]. destruct f; [|by intros [= <-]].
  by intros (n & _ & [= <-])%bind_ok.
Qed.

(** Two files normalize to the same bytes, or to two that collide. *)
Definition same_normal_form (lock : Lock) (t : tree) (kind : pyval) (p q : str) : Prop :=
  ∃ b b' n n', dict_get p t = Some (Data b) ∧ dict_get q t = Some (Data b') ∧
    normalize (volatile_json_keys lock) (strip_custom_sections lock) b kind = Ok n ∧
    normalize (volatile_json_keys lock) (strip_custom_sections lock) b' kind = Ok n' ∧ (n = n' ∨ sha256_collision n n').

Lemma compare_published_nil lock t d :
  compare_published lock t d = Ok [] →
  ∃ p q kind, item d "path" = Ok (PStr p) ∧ published_to_build_target p = Ok q ∧
    (p ∈ t.*1 → q ∈ t.*1 → same_normal_form lock t kind p q).
Proof.
  unfold compare_published. intros (pv & Hp & Hc)%bind_ok. destruct pv as [| | | |p| |]; try done.
  apply bind_ok in Hc as (q & Hq & Hc). case_match eqn:Hh.
  { exists p, q, PNone. split_and!; [done..|]. rewrite <- !dict_has_spec. intros Hp' Hq'. by rewrite Hp', Hq' in Hh. }
  apply bind_ok in Hc as (dd & _ & Hc). cbv zeta in Hc. set (kind := get_or "kind" _ dd) in *.
  apply bind_ok in Hc as (r & Hr & (r' & Hr' & Hc)%bind_ok). exists p, q, kind. split_and!; [done..|]. intros _ _.
  apply digest_forced in Hr as Hf, Hr' as Hf'. destruct Hf as [Hrp Hrk], Hf' as [Hrp' Hrk'].
  apply digest_artifact_ok in Hr as [_ Hst], Hr' as [_ Hst'].
  destruct (decide (ar_state r = DIGESTED)) as [Hs|Hs]; [|by rewrite bool_decide_eq_false_2 in Hc].
  destruct (decide (ar_state r' = DIGESTED)) as [Hs'|Hs']; [|by rewrite bool_decide_eq_true_2, bool_decide_eq_false_2 in Hc].
  rewrite !bool_decide_eq_true_2 in Hc by done. cbn [negb] in Hc.
  assert (digest_of lock t r ∧ digest_of lock t r') as [(b & n & Hb & _ & Hn & Hd) (b' & n' & Hb' & _ & Hn' & Hd')].
  { rewrite Hs in Hst. rewrite Hs' in Hst'. unfold FATAL_STATES in *. rewrite !elem_of_cons, !elem_of_nil in Hst, Hst'. naive_solver. }
  rewrite Hd, Hd' in Hc. destruct (decide (sha256_hex n = sha256_hex n')) as [Heq|Hne].
  - exists b, b', n, n'. rewrite Hrp, Hrp', Hrk, Hrk' in *. split_and!; [done..|]. by apply sha256_hex_eq.
  - rewrite bool_decide_eq_false_2 in Hc by congruence. done.
Qed.

(** ** Provenance documents *)

Definition with_canon (m : list (str * pyval)) : list (str * pyval) := map (λ p, (p.1, canon p.2)) m.

Lemma dict_set_canon k v m : dict_set k (canon v) (with_canon m) = with_canon (dict_set k v m).
Proof.
  unfold with_canon. induction m as [|[k' v'] m IH]; [done|]. cbn [map dict_set fst snd]. case_decide; cbn [map fst snd]; [done|]. by rewrite IH.
Qed.

(** A plain entry with a path. *)
Definition slot (v : pyval) : Prop := plain v = true ∧ ∃ d p, v = PDict d ∧ dict_get (lit "path") d = Some (PStr p).

(** The declared artifacts of a document that was read back are those of the document. *)
Lemma entries_canon key d vs :
  NoDup d.*1 → dict_get (lit key) d = Some (PList vs) → Forall slot vs →
  ∃ m, entries_by_path key d = Ok m ∧ entries_by_path key (stored d) = Ok (with_canon m) ∧ NoDup m.*1 ∧ Forall (λ p, slot p.2) m.
Proof.
  intros Hnd Hd Hvs. unfold entries_by_path, get_or. rewrite dict_get_stored, Hd by done.
  cbn [fmap option_fmap option_map from_option id canon as_tuple]. rewrite !bind_Ok. set (f := λ m entry, _).
  assert (∀ m0, NoDup m0.*1 → Forall (λ p, slot p.2) m0 → ∃ m, result_foldl f vs m0 = Ok m ∧
    result_foldl f (map canon vs) (with_canon m0) = Ok (with_canon m) ∧ NoDup m.*1 ∧ Forall (λ p, slot p.2) m) as Hgen.
  { clear Hd. induction Hvs as [|v vs Hv _ IH]; intros m0 Hnd0 Hm0; [eexists; split; [done|]; done|].
    pose proof Hv as (Hpl & dd & p & -> & Hp). destruct (plain_dict_values dd Hpl) as [Hndd _].
    assert (f m0 (PDict dd) = Ok (dict_set p (PDict dd) m0)) as Hf by (unfold f, item; by rewrite Hp).
    assert (f (with_canon m0) (canon (PDict dd)) = Ok (with_canon (dict_set p (PDict dd) m0))) as Hf'.
    { unfold f, item. rewrite canon_dict, dict_get_canon, Hp by done. cbn [fmap option_fmap option_map canon]. rewrite bind_Ok.
      by rewrite <- dict_set_canon, canon_dict. }
    cbn [result_foldl map]. rewrite Hf, Hf', !bind_Ok. apply IH; [by apply dict_set_NoDup|].
    apply Forall_forall. intros [k v] Hin. apply dict_get_elem in Hin; [|by apply dict_set_NoDup]. rewrite dict_get_set in Hin.
    case_decide; [by simplify_eq|]. apply dict_get_elem in Hin; [|done]. rewrite Forall_forall in Hm0. by apply Hm0 in Hin. }
  destruct (Hgen []) as (m & Hm & Hm' & Hrest); [constructor..|]. eauto.
Qed.

Lemma differs_canon label v : plain v = true → differs label (canon v) v = [].
Proof. intros Hv. unfold differs. by rewrite py_eq_canon. Qed.

Lemma compare_slot_itself label v : slot v → compare_slot label (canon v) v = Ok [].
Proof.
  intros (Hp & d & _ & -> & _). unfold compare_slot. rewrite canon_dict. cbn [as_dict]. rewrite !bind_Ok. f_equal.
  destruct (plain_dict_values d Hp) as [Hnd Hv]. cbn [map mjoin list_join].
  assert (∀ field l, differs l (get_or_none field (sort_items (map (λ p, (p.1, canon p.2)) d))) (get_or_none field d) = []) as Hf.
  { intros field l. unfold get_or_none. rewrite dict_get_canon by done. destruct (dict_get field d) as [x|] eqn:Hx; [|done].
    cbn [fmap option_fmap option_map from_option id]. eauto using differs_canon. }
  by rewrite !Hf.
Qed.

Definition PROVENANCE_KEYS : list str :=
  map lit ["format"; "version"; "toolchain"; "environment"; "normalization_policy_sha256"; "provenance_globs"; "provenance"; "declared_artifacts"].

Lemma provenance_keys_nodup : NoDup PROVENANCE_KEYS.
Proof. by apply (bool_decide_unpack _); vm_compute. Qed.

Lemma build_provenance_ok lock t d :
  build_provenance lock t = Ok d →
  NoDup d.*1 ∧ dict_get (lit "format") d = Some (PStr PROVENANCE_FORMAT) ∧ dict_get (lit "version") d = Some (PInt MANIFEST_VERSION) ∧
  (∃ tc, dict_get (lit "toolchain") d = Some (PDict tc)) ∧ (∃ h, dict_get (lit "normalization_policy_sha256") d = Some (PStr h)) ∧
  dict_get (lit "provenance_globs") d = Some (PList (provenance_globs lock)) ∧
  (∃ src, collect_provenance lock t = Ok src ∧ dict_get (lit "provenance") d = Some (text_values src)) ∧
  (∃ vs, result_mapM declared_slot (lk_artifacts lock) = Ok vs ∧ dict_get (lit "declared_artifacts") d = Some (PList vs)).
Proof.
  unfold build_provenance. intros (src & Hsrc & (u & _ & (vs & Hvs & (tc & Htc & (env & _ & (pol & Hpol & [= <-])%bind_ok)%bind_ok)%bind_ok)%bind_ok)%bind_ok)%bind_ok.
  destruct (toolchain_dict _ _ Htc) as [d ->]. destruct (policy_text _ _ Hpol) as [h ->].
  split_and!; try done; eauto. exact provenance_keys_nodup.
Qed.

Lemma declared_slots lock vs :
  result_mapM declared_slot (lk_artifacts lock) = Ok vs → (∀ d, d ∈ lk_artifacts lock → ∃ p, item d "path" = Ok (PStr p)) →
  Forall (λ v, plain v = true) vs → Forall slot vs.
Proof.
  intros Hvs%result_mapM_ok Hp Hpl. apply Forall_forall. intros v Hv. rewrite Forall_forall in Hpl. split; [by apply Hpl|].
  apply list_elem_of_lookup in Hv as [i Hi]. destruct (Forall2_lookup_r _ _ _ _ _ Hvs Hi) as (e & He & Hs).
  apply list_elem_of_lookup_2, Hp in He as [p Hep]. unfold declared_slot in Hs. rewrite Hep, bind_Ok in Hs.
  apply bind_ok in Hs as (k & _ & (dd & _ & [= <-])%bind_ok). eauto.
Qed.

Lemma provenance_itself lock t d :
  build_provenance lock t = Ok d → plain (PDict d) = true → (∀ e, e ∈ lk_artifacts lock → ∃ p, item e "path" = Ok (PStr p)) →
  compare_provenance (stored d) d = Ok [].
Proof.
  intros (Hnd & Hf & Hv & (tc & Htc) & (h & Hh) & Hg & (src & Hs & Hsrc) & (vs & Hvs & Hdec))%build_provenance_ok Hp Hpath.
  apply plain_dict_values in Hp as [_ Hp]. apply collect_provenance_ok in Hs as [[Hnds _] _].
  unfold compare_provenance. rewrite (toolchain_itself d tc) by eauto. rewrite bind_Ok.
  assert (compare_globs (stored d) d = Ok []) as ->.
  { unfold compare_globs, globs_of, get_or_none. rewrite dict_get_stored, Hg by done. cbn [fmap option_fmap option_map from_option id canon].
    pose proof (py_eq_canon _ (Hp _ _ Hg)) as Heq. cbn [canon] in Heq. destruct (provenance_globs lock); [done|].
    cbn [truthy as_tuple map]. rewrite !bind_Ok. cbn [map] in Heq. by rewrite Heq. }
  rewrite bind_Ok, (proj2 (compare_sources_nil _ _ src src (holds_stored _ _ Hnd Hnds Hsrc) (holds_text_values _ _ Hsrc))), bind_Ok by done.
  assert (compare_declared (stored d) d = Ok []) as ->.
  { destruct (entries_canon "declared_artifacts" d vs Hnd Hdec) as (m & Hm & Hm' & Hndm & Hslots).
    { eapply declared_slots; [done..|]. apply Hp in Hdec. cbn in Hdec. by apply forallb_Forall. }
    unfold compare_declared. rewrite Hm, Hm', !bind_Ok. apply collect_nil, Forall_forall. intros path Hin.
    cbv zeta. unfold with_canon in *. rewrite keys_map, elem_of_sorted_union in Hin. rewrite dict_get_map.
    destruct (dict_get path m) as [v|] eqn:Hpm; [|apply dict_get_None in Hpm; tauto]. cbn [fmap option_fmap option_map].
    apply compare_slot_itself. apply dict_get_elem in Hpm; [|done]. rewrite Forall_forall in Hslots. by apply Hslots in Hpm. }
  rewrite bind_Ok. f_equal. rewrite !app_nil_r. cbn [app].
  unfold compare_header, compare_policy, get_or_none. cbn [map mjoin list_join]. rewrite !dict_get_stored, Hf, Hv, Hh by done.
  cbn [fmap option_fmap option_map from_option id canon]. unfold differs. by rewrite !(proj2 (py_eq_str _ _) eq_refl).
Qed.

(** * Properties *)

(** A build target is derived from exactly the paths of published circuits, and lies in the
    directory of the circuit with that name. *)
Theorem build_target_exact p q :
  published_to_build_target p = Ok q ↔
  ∃ stem, stem ≠ [] ∧ forallb is_stem_char stem = true ∧ p = PUBLIC_PREFIX ++ stem ++ lit ".json" ∧ q = build_target stem.
Proof.
  unfold published_to_build_target. split.
  - case_match eqn:Hc; [done|]. apply orb_false_iff in Hc as [Hs%negb_false_iff _]. apply starts_with_app_iff in Hs as [r ->].
    rewrite drop_app_length. case_match eqn:Hr; [done|]. apply orb_false_iff in Hr as [_ (stem & ->)%negb_false_iff%ends_in_spec].
    rewrite length_app. change (length (lit ".json")) with 5%nat. replace (length stem + 5 - 5)%nat with (length stem) by lia.
    rewrite take_app_length. case_match eqn:Hw; [done|]. apply orb_false_iff in Hw as [Hne%bool_decide_eq_false Hw%negb_false_iff].
    intros [= <-]. eauto 6.
  - intros (stem & Hne & Hw & -> & ->). pose proof (words_free stem) as Hf. rewrite (proj2 (starts_with_app_iff _ _)) by eauto.
    assert (contains (lit "..") (PUBLIC_PREFIX ++ stem ++ lit ".json") = false) as ->.
    { rewrite app_assoc. apply (no_two_dots (PUBLIC_PREFIX ++ stem) (lit "json")).
      - rewrite not_elem_of_app. split; [apply public_prefix_dots|]. apply Hf; [done|left].
      - apply (bool_decide_unpack _); vm_compute; exact I. }
    cbn [negb orb]. rewrite drop_app_length.
    rewrite bool_decide_eq_false_2 by (rewrite elem_of_app; intros [Hin|Hin];
      [revert Hin; apply Hf; [done|right; left]|revert Hin; apply (bool_decide_unpack _); vm_compute; exact I]).
    rewrite bool_decide_eq_false_2 by (rewrite elem_of_app; intros [Hin|Hin];
      [revert Hin; apply Hf; [done|right; right; left]|revert Hin; apply (bool_decide_unpack _); vm_compute; exact I]).
    rewrite (proj2 (ends_in_spec _ _)) by eauto. cbn [negb orb]. rewrite length_app.
    change (length (lit ".json")) with 5%nat. replace (length stem + 5 - 5)%nat with (length stem) by lia. rewrite take_app_length.
    rewrite bool_decide_eq_false_2, Hw by done. done.
Qed.

(** The coverage check passes exactly when the circuit packages on disk and the circuits the
    lock declares are the same. *)
Theorem coverage_passes_iff lock t fs :
  check_coverage lock t = Ok fs → fs = [] ↔ ∀ name, on_disk lock t name ↔ circuit_declared lock name.
Proof.
  unfold check_coverage. intros (disk & Hd & (decl & Hc & [= <-])%bind_ok)%bind_ok.
  pose proof (declared_names_ok _ _ Hc) as Hdecl.
  assert (∀ name, name ∈ disk ↔ on_disk lock t name) as Hdisk.
  { intros name. unfold discover_circuit_packages in Hd. rewrite (discover_loop_ok _ _ _ _ _ Hd name), elem_of_nil. unfold on_disk.
    destruct (decide (package_toml lock name ∈ t.*1)) as [Hp|Hp]; [rewrite children_ok by done|]; tauto. }
  setoid_rewrite <- Hdisk. setoid_rewrite <- Hdecl. split.
  - intros [H1' H2']%app_nil. apply map_eq_nil in H1', H2'. rewrite sorted_difference_nil in H1', H2'. naive_solver.
  - intros Hsame. rewrite !(proj2 (sorted_difference_nil _ _)) by naive_solver. done.
Qed.

(** When the browser verification passes, every published circuit has a build target, and if
    both files are there they normalize to the same bytes, unless two named byte strings
    collide. *)
Theorem verified_browser_matches_targets lock_path manifest_path lock (t : tree) o d :
  load_lock lock_path t = Ok lock → command_verify_browser lock_path manifest_path t = Ok o → exit_code o = EXIT_OK →
  d ∈ lk_artifacts lock → has_role PUBLISHED_ACIR_ROLE d = Ok true →
  ∃ p q kind, item d "path" = Ok (PStr p) ∧ published_to_build_target p = Ok q ∧
    (p ∈ t.*1 → q ∈ t.*1 → same_normal_form lock t kind p q).
Proof.
  intros Hl Hv Hexit Hd Hrole. unfold command_verify_browser in Hv. rewrite Hl, bind_Ok in Hv.
  apply bind_ok in Hv as (e & _ & ([m entries] & _ & (u & _ & (fs & _ & (gs & Hg & [= <-])%bind_ok)%bind_ok)%bind_ok)%bind_ok).
  destruct (fs ++ gs) as [|x xs] eqn:Hfs; [|done]. apply app_nil in Hfs as [-> ->].
  unfold compare_published_to_targets in Hg. apply bind_ok in Hg as (ds & Hds & Hg%collect_nil).
  assert (d ∈ ds) as Hin by (by apply (keep_ok _ _ _ Hds)). rewrite Forall_forall in Hg. by apply compare_published_nil, Hg.
Qed.

(** A provenance document that was written, to a path that is neither the lock nor a source,
    verifies against the tree it was written from. *)
Theorem written_provenance_verifies lock_path out lock (t : tree) o :
  load_lock lock_path t = Ok lock → command_write_provenance lock_path out t = Ok o → out ≠ lock_path → ¬ sources lock out →
  (∀ e, e ∈ lk_artifacts lock → ∃ p, item e "path" = Ok (PStr p)) →
  (∀ d, build_provenance lock t = Ok d → plain (PDict d) = true) →
  command_verify_provenance lock_path out (tree_after o) = Ok (Outcome EXIT_OK [] (tree_after o)).
Proof.
  intros Hl Hw Hne Hs Hpath Hp. unfold command_write_provenance in Hw. rewrite Hl, bind_Ok in Hw.
  apply bind_ok in Hw as (d & Hd & (t1 & Ht1 & [= <-])%bind_ok). cbn [tree_after]. specialize (Hp d Hd).
  assert (∃ f, t1 = dict_set out f t) as [f ->] by (unfold write_text in Ht1; case_match; [simplify_eq; eauto|done]).
  unfold command_verify_provenance.
  assert (load_lock lock_path (dict_set out f t) = Ok lock) as ->.
  { rewrite <- Hl. unfold load_lock, read_document, read_text, read_bytes, dict_has. by rewrite dict_get_set, decide_False by done. }
  rewrite bind_Ok. unfold load_provenance, check_document. rewrite (read_stored d out t (dict_set out f t)) by done.
  rewrite bind_Ok. cbn [as_dict]. rewrite bind_Ok. pose proof (provenance_itself lock t d Hd Hp Hpath) as Hself.
  apply build_provenance_ok in Hd as Hb. destruct Hb as (Hnd & Hf & Hv & _). unfold get_or_none.
  rewrite !dict_get_stored, Hf, Hv by done. cbn [fmap option_fmap option_map from_option id canon].
  rewrite (proj2 (py_eq_str _ _) eq_refl). change (py_eq (PInt MANIFEST_VERSION) (PInt MANIFEST_VERSION)) with true. cbn [ensure].
  rewrite !bind_Ok. assert (build_provenance lock (dict_set out f t) = Ok d) as ->.
  { rewrite <- Hd. unfold build_provenance. by rewrite collect_provenance_set. }
  by rewrite bind_Ok, Hself.
Qed.
End proofs.

(** * A tree with a circuit, a library and a published circuit *)

#[local] Existing Instances sample_floats plain_unicode sample_float_eq sample_glob.

Definition browser_declarations : list pyval :=
  [PDict [(lit "path", PStr (lit "zk/noir/a/target/a.json")); (lit "kind", PStr (lit "json")); (lit "role", PStr (lit "acir"))];
   PDict [(lit "path", PStr (lit "frontend/public/noir/a.json")); (lit "kind", PStr (lit "json")); (lit "role", PStr (lit "published_acir"))]].

Definition browser_raw : list (str * pyval) := dict_set (lit "artifacts") (PList browser_declarations) sample_raw.

Definition browser_lock : Lock :=
  {| raw := browser_raw; limits := limits sample_lock; volatile_json_keys := volatile_json_keys sample_lock;
     strip_custom_sections := strip_custom_sections sample_lock; lk_artifacts := browser_declarations;
     provenance_globs := provenance_globs sample_lock; circuit_root := lit "zk/noir"; package_file := lit "Nargo.toml" |}.

Definition browser_at : str := lit "zk/browser.artifacts.manifest.json".
Definition provenance_at : str := lit "zk/circuit.provenance.json".

Definition browser_tree : list (str * tree_file) :=
  [(lock_at, json_file (PDict browser_raw)); (lit "zk/noir/a/Nargo.toml", Data (lit "type = 'bin'"));
   (lit "zk/noir/common/Nargo.toml", Data (lit "type = 'lib' # shared"));
   (lit "zk/noir/a/target/a.json", json_file (PDict [(lit "names", PInt 3); (lit "bytecode", PStr (lit "H4sI"))]));
   (lit "frontend/public/noir/a.json", json_file (PDict [(lit "bytecode", PStr (lit "H4sI"))]))].

Notation browser_written := (from_ok (Outcome 1 [] []) (command_write_browser lock_at browser_at browser_tree)).
Notation browser_verified := (from_ok (Outcome 1 [] []) (command_verify_browser lock_at browser_at (tree_after browser_written))).
Notation provenance_written := (from_ok (Outcome 1 [] []) (command_write_provenance lock_at provenance_at browser_tree)).

Lemma browser_lock_loads :
  load_lock lock_at browser_tree = Ok browser_lock ∧ load_lock lock_at (tree_after browser_written) = Ok browser_lock.
Proof. split; vm_compute; reflexivity. Qed.

Lemma browser_runs :
  is_ok (command_write_browser lock_at browser_at browser_tree) = true ∧
  is_ok (command_verify_browser lock_at browser_at (tree_after browser_written)) = true ∧ exit_code browser_verified = EXIT_OK.
Proof. split_and!; vm_compute; reflexivity. Qed.

Lemma provenance_runs : is_ok (command_write_provenance lock_at provenance_at browser_tree) = true.
Proof. vm_compute. reflexivity. Qed.

Lemma browser_plain : plain (PDict (from_ok [] (build_provenance browser_lock browser_tree))) = true.
Proof. vm_compute. reflexivity. Qed.

Lemma browser_provenance_plain d : build_provenance browser_lock browser_tree = Ok d → plain (PDict d) = true.
Proof. intros Hd. pose proof browser_plain as Hp. by rewrite Hd in Hp. Qed.

Lemma coverage_passes_iff_witness : ∀ name, on_disk browser_lock browser_tree name ↔ circuit_declared browser_lock name.
Proof. apply (coverage_passes_iff browser_lock browser_tree []); vm_compute; reflexivity. Defined.

Lemma verified_browser_matches_targets_witness :
  ∃ p q kind, item (PDict [(lit "path", PStr (lit "frontend/public/noir/a.json")); (lit "kind", PStr (lit "json")); (lit "role", PStr (lit "published_acir"))]) "path"
    = Ok (PStr p) ∧ published_to_build_target p = Ok q ∧
    (p ∈ (tree_after browser_written).*1 → q ∈ (tree_after browser_written).*1 → same_normal_form browser_lock (tree_after browser_written) kind p q).
Proof.
  apply (verified_browser_matches_targets lock_at browser_at browser_lock (tree_after browser_written) browser_verified).
  - exact (proj2 browser_lock_loads).
  - apply from_ok_spec. exact (proj1 (proj2 browser_runs)).
  - exact (proj2 (proj2 browser_runs)).
  - right. left.
  - vm_compute. reflexivity.
Defined.

Lemma written_provenance_verifies_witness :
  command_verify_provenance lock_at provenance_at (tree_after provenance_written) = Ok (Outcome EXIT_OK [] (tree_after provenance_written)).
Proof.
  apply (written_provenance_verifies lock_at provenance_at browser_lock browser_tree).
  - exact (proj1 browser_lock_loads).
  - apply from_ok_spec. exact provenance_runs.
  - intros Heq. discriminate Heq.
  - intros (g & Hg & Hm). unfold browser_lock, sample_lock in Hg. cbn [provenance_globs] in Hg.
    rewrite !elem_of_cons in Hg. destruct Hg as [[= ->]|[[= ->]|Hg%elem_of_nil]]; [discriminate Hm|discriminate Hm|exact Hg].
  - intros e He. unfold browser_lock, browser_declarations in He. cbn [lk_artifacts] in He. rewrite !elem_of_cons in He.
    destruct He as [->|[->|He%elem_of_nil]]; [eexists; reflexivity|eexists; reflexivity|destruct He].
  - exact browser_provenance_plain.
Defined.
