(* ===== verification/C2pa.v ===== *)
(** C2PA interoperability: [c2pa.py] and the routes [/api/c2pa/export] and
    [/api/c2pa/import] of [app.py].  A manifest binds the digests of a proof twice, in a named
    assertion and at the top level; importing checks limits, shape and that both agree, and
    compares the binding with what the caller claims.

    A set is iterated in an order that Python does not fix: the class [SetOrder].  The
    recursion limit of [json.loads] is not modelled.

    Shown: what is exported is imported again with the same binding and the same digest; an
    imported binding is well formed and both its copies agree; corroboration reports exactly
    the fields that differ; a refusal names a reason and a place, never content.  Also: a
    digest may end in a newline, a blank generator makes an export that cannot be imported,
    and an import with an empty set of claims answers that they were verified. *)
From Stdlib Require Import ZArith Lia.
From stdpp Require Import base decidable strings numbers list.
From S2P Require Import Prelude PyStr Json JsonIndent PyVal Codec Sha256 MetadataErrors.

Open Scope Z_scope.

#[local] Arguments lit _ : simpl never.

Definition C2PA_HARPOCRATES_MAPPING_VERSION : Z := 1.
Definition MAPPING_LABEL : str := lit "harpocrates.binding/v1".
Definition C2PA_MANIFEST_CLAIM_GENERATOR : str := lit "harpocrates".
Definition C2PA_SPEC_VERSION : str := lit "1.3".
Definition C2PA_MAX_MANIFEST_BYTES : Z := 262144.
Definition MAX_ASSERTION_COUNT : Z := 64.
Definition MAX_ASSERTION_LABEL_LEN : Z := 256.
Definition MAX_ASSERTION_DATA_BYTES : Z := 32768.
Definition MAX_JSON_DEPTH : Z := 16.
Definition SUPPORTED_ALGORITHMS : list str := [lit "sha256"].
Definition REQUIRED_MANIFEST_KEYS : list str := map lit ["claim_generator"; "assertions"; "harpocrates_binding"].
Definition REQUIRED_BINDING_KEYS : list str :=
  map lit ["mapping_version"; "video_hash"; "metadata_hash"; "proof_id"; "tier"; "network"; "contract_id"].
Definition C2PA_TIERS : list str := map lit ["silent"; "source"; "seal"].
Definition BINDING_HASH_FIELDS : list str := map lit ["video_hash"; "metadata_hash"; "proof_id"].
Definition BINDING_TEXT_FIELDS : list str := map lit ["tier"; "network"; "contract_id"].

(** The order in which the two sets of required keys are visited. *)
Class SetOrder := {
  manifest_order : list str;
  binding_order : list str;
  manifest_order_keys : manifest_order ≡ₚ REQUIRED_MANIFEST_KEYS;
  binding_order_keys : binding_order ≡ₚ REQUIRED_BINDING_KEYS;
}.

(** [_HEX32_RE.match(s)]: the dollar sign also matches before a final newline. *)
Definition hex32_re (s : str) : bool :=
  bool_decide (length (take 64 s) = 64%nat) && forallb is_lower_hex (take 64 s) &&
  match drop 64 s with [] => true | [c] => c =? 10 | _ => false end.

Inductive C2paTrustStatus : Type :=
  | SIGNATURE_VALID | SIGNATURE_NOT_CHECKED | TRUST_UNSUPPORTED_ALGORITHM | BINDING_MISMATCH | PARSE_FAILED.

Definition trust_text (s : C2paTrustStatus) : str :=
  lit match s with
      | SIGNATURE_VALID => "signature_valid" | SIGNATURE_NOT_CHECKED => "signature_not_checked"
      | TRUST_UNSUPPORTED_ALGORITHM => "unsupported_algorithm" | BINDING_MISMATCH => "binding_mismatch"
      | PARSE_FAILED => "parse_failed"
      end.

Inductive Reason : Type :=
  | MANIFEST_TOO_LARGE | NOT_JSON | DEPTH_EXCEEDED | NOT_OBJECT | MISSING_KEY | INVALID_TYPE | INVALID_VALUE
  | ASSERTION_COUNT_EXCEEDED | ASSERTION_LABEL_TOO_LONG | ASSERTION_DATA_TOO_LARGE | UNSUPPORTED_ALGORITHM
  | DIGEST_MISMATCH | MAPPING_VERSION_MISMATCH | RECURSION_DETECTED | EMBEDDED_BINDING_MISMATCH
  | EMBEDDED_BINDING_DUPLICATE.

Definition reason_text (r : Reason) : str :=
  lit match r with
      | MANIFEST_TOO_LARGE => "manifest_too_large" | NOT_JSON => "not_json" | DEPTH_EXCEEDED => "depth_exceeded"
      | NOT_OBJECT => "not_object" | MISSING_KEY => "missing_key" | INVALID_TYPE => "invalid_type"
      | INVALID_VALUE => "invalid_value" | ASSERTION_COUNT_EXCEEDED => "assertion_count_exceeded"
      | ASSERTION_LABEL_TOO_LONG => "assertion_label_too_long" | ASSERTION_DATA_TOO_LARGE => "assertion_data_too_large"
      | UNSUPPORTED_ALGORITHM => "unsupported_algorithm" | DIGEST_MISMATCH => "digest_mismatch"
      | MAPPING_VERSION_MISMATCH => "mapping_version_mismatch" | RECURSION_DETECTED => "recursion_detected"
      | EMBEDDED_BINDING_MISMATCH => "embedded_binding_mismatch" | EMBEDDED_BINDING_DUPLICATE => "embedded_binding_duplicate"
      end.

(** [C2paParseError], a [ValueError] with its message, or another exception. *)
Inductive c2pa_exn : Type :=
  | C2paParseError (reason : Reason) (field : option str)
  | C2paValueError (message : str)
  | C2paRaised (e : exn).

Definition c2pa_reject {A} (reason : Reason) (field : str) : result c2pa_exn A := Err (C2paParseError reason (Some field)).

Record C2paHarpocratesBinding := {
  mapping_version : pyval;
  b_video_hash : str;
  b_metadata_hash : str;
  b_proof_id : str;
  b_tier : str;
  b_network : str;
  b_contract_id : str;
}.

Record C2paUnknownAssertion := { ua_label : str; ua_data : pyval; unsupported_semantics : bool }.

Record C2paParsedManifest := {
  claim_generator : str;
  spec_version : option str;
  binding : C2paHarpocratesBinding;
  unknown_assertions : list C2paUnknownAssertion;
  trust_status : C2paTrustStatus;
}.

Record C2paExportedManifest := { ex_manifest : list (str * pyval); ex_digest : str }.

Record C2paHashCorroboration := { corroborated : bool; compared_fields : list str; mismatches : list str }.

(** [getattr(binding, name)] for the compared fields *)
Definition binding_field (b : C2paHarpocratesBinding) (name : str) : str :=
  if decide (name = lit "video_hash") then b_video_hash b
  else if decide (name = lit "metadata_hash") then b_metadata_hash b
  else if decide (name = lit "proof_id") then b_proof_id b
  else if decide (name = lit "tier") then b_tier b
  else if decide (name = lit "network") then b_network b
  else b_contract_id b.

(** [_check_depth(obj, limit, current)] *)
Fixpoint depth_within (limit current : Z) (v : pyval) : bool :=
  (current <=? limit) &&
  match v with
  | PDict kvs => forallb (λ p, depth_within limit (current + 1) p.2) kvs
  | PList l => forallb (depth_within limit (current + 1)) l
  | _ => true
  end.

Section c2pa.
Context `{FloatText, Unicode, SetOrder}.

(** [not isinstance(v, str) or not v.strip()] *)
Definition blank_value (v : pyval) : bool := match v with PStr s => bool_decide (py_strip s = []) | _ => true end.

Definition text_of (v : pyval) : str := match v with PStr s => s | _ => [] end.

Definition valid_hex32 (v : pyval) : bool := match v with PStr s => hex32_re (py_lower s) | _ => false end.

(** The loop over the required keys. *)
Definition require_keys (keys : list str) (prefix : str) (d : list (str * pyval)) : result c2pa_exn unit :=
  match list_find (λ k, dict_has k d = false) keys with
  | Some (_, k) => c2pa_reject MISSING_KEY (prefix ++ k)
  | None => Ok ()
  end.

(** The loop over the digests. *)
Fixpoint check_hashes (prefix : str) (d : list (str * pyval)) (fields : list str) : result c2pa_exn unit :=
  match fields with
  | [] => Ok ()
  | f :: fields =>
      match get_or_none f d with
      | PStr s => if hex32_re (py_lower s) then check_hashes prefix d fields else c2pa_reject INVALID_VALUE (prefix ++ lit "." ++ f)
      | _ => c2pa_reject INVALID_TYPE (prefix ++ lit "." ++ f)
      end
  end.

(** A version as a number: [True] is 1. *)
Definition version_number (v : pyval) : Z :=
  match v with PInt z => z | PBool b => if b then 1 else 0 | _ => 0 end.

(** [isinstance(v, int)] *)
Definition is_int (v : pyval) : bool := match v with PInt _ | PBool _ => true | _ => false end.

Definition parse_binding (raw : pyval) (prefix : str) : result c2pa_exn C2paHarpocratesBinding :=
  match raw with
  | PDict d =>
      require_keys binding_order (prefix ++ lit ".") d;;
      let mv := get_or_none (lit "mapping_version") d in
      if negb (is_int mv) || (version_number mv <? 1) then c2pa_reject INVALID_TYPE (prefix ++ lit ".mapping_version") else
      if negb (version_number mv =? C2PA_HARPOCRATES_MAPPING_VERSION) then c2pa_reject MAPPING_VERSION_MISMATCH (prefix ++ lit ".mapping_version") else
      check_hashes prefix d BINDING_HASH_FIELDS;;
      let tier := get_or_none (lit "tier") d in
      if negb (in_str_tuple tier C2PA_TIERS) then c2pa_reject INVALID_VALUE (prefix ++ lit ".tier") else
      let network := get_or_none (lit "network") d in
      if blank_value network then c2pa_reject INVALID_VALUE (prefix ++ lit ".network") else
      let contract_id := get_or_none (lit "contract_id") d in
      if blank_value contract_id then c2pa_reject INVALID_VALUE (prefix ++ lit ".contract_id") else
      Ok {| mapping_version := mv;
            b_video_hash := py_lower (text_of (get_or_none (lit "video_hash") d));
            b_metadata_hash := py_lower (text_of (get_or_none (lit "metadata_hash") d));
            b_proof_id := py_lower (text_of (get_or_none (lit "proof_id") d));
            b_tier := text_of tier; b_network := py_strip (text_of network); b_contract_id := py_strip (text_of contract_id) |}
  | _ => c2pa_reject INVALID_TYPE prefix
  end.

Definition require_consistent_embedded_binding (top_level assertion : C2paHarpocratesBinding) : result c2pa_exn unit :=
  ensure (version_number (mapping_version top_level) =? version_number (mapping_version assertion))
    (C2paParseError EMBEDDED_BINDING_MISMATCH (Some (lit "mapping_version")));;
  match list_find (λ f, binding_field top_level f ≠ binding_field assertion f) (BINDING_HASH_FIELDS ++ BINDING_TEXT_FIELDS) with
  | Some (_, f) => c2pa_reject EMBEDDED_BINDING_MISMATCH f
  | None => Ok ()
  end.

(** * Parsing *)

Definition place (idx : nat) (rest : string) : str := lit "assertions[" ++ dec_str (Z.of_nat idx) ++ lit "]" ++ lit rest.

(** The loop over the assertions. *)
Fixpoint parse_assertions (idx : nat) (l : list pyval) :
    result c2pa_exn (list C2paUnknownAssertion * list C2paHarpocratesBinding) :=
  match l with
  | [] => Ok ([], [])
  | PDict a :: l =>
      match default (PStr []) (dict_get (lit "label") a) with
      | PStr label =>
          if MAX_ASSERTION_LABEL_LEN <? zlen label then c2pa_reject ASSERTION_LABEL_TOO_LONG (place idx ".label") else
          match utf8_encode (print_value true (PDict a)) with
          | None => c2pa_reject INVALID_TYPE (place idx "")
          | Some b =>
              if MAX_ASSERTION_DATA_BYTES <? zlen b then c2pa_reject ASSERTION_DATA_TOO_LARGE (place idx "") else
              let data := get_or_none (lit "data") a in
              if decide (label = MAPPING_LABEL) then
                bd ← parse_binding data (place idx ".data");
                '(us, bs) ← parse_assertions (S idx) l;
                Ok (us, bd :: bs)
              else
                '(us, bs) ← parse_assertions (S idx) l;
                Ok ({| ua_label := label; ua_data := data; unsupported_semantics := true |} :: us, bs)
          end
      | _ => c2pa_reject INVALID_TYPE (place idx ".label")
      end
  | _ :: _ => c2pa_reject INVALID_TYPE (place idx "")
  end.

Definition check_algorithm (d : list (str * pyval)) : result c2pa_exn unit :=
  match dict_get (lit "alg") d with
  | None => Ok ()
  | Some (PStr alg) => ensure (bool_decide (py_lower alg ∈ SUPPORTED_ALGORITHMS)) (C2paParseError UNSUPPORTED_ALGORITHM (Some (lit "alg")))
  | Some _ => c2pa_reject INVALID_TYPE (lit "alg")
  end.

Definition parse_spec_version (d : list (str * pyval)) : result c2pa_exn (option str) :=
  match dict_get (lit "spec_version") d with
  | None => Ok None
  | Some (PStr s) => Ok (Some s)
  | Some _ => c2pa_reject INVALID_TYPE (lit "spec_version")
  end.

(** After the limits and the JSON: steps 4 to 11. *)
Definition parse_document (data : pyval) : result c2pa_exn C2paParsedManifest :=
  match data with
  | PDict d =>
      require_keys manifest_order [] d;;
      let cg := get_or_none (lit "claim_generator") d in
      if blank_value cg then c2pa_reject INVALID_TYPE (lit "claim_generator") else
      sv ← parse_spec_version d;
      match get_or_none (lit "assertions") d with
      | PList assertions =>
          if MAX_ASSERTION_COUNT <? zlen assertions then c2pa_reject ASSERTION_COUNT_EXCEEDED (lit "assertions") else
          '(unknown, assertion_bindings) ← parse_assertions 0 assertions;
          check_algorithm d;;
          b ← parse_binding (get_or_none (lit "harpocrates_binding") d) (lit "harpocrates_binding");
          match assertion_bindings with
          | [] => Ok ()
          | [b'] => require_consistent_embedded_binding b b'
          | _ => c2pa_reject EMBEDDED_BINDING_DUPLICATE MAPPING_LABEL
          end;;
          Ok {| claim_generator := py_strip (text_of cg); spec_version := sv; binding := b; unknown_assertions := unknown;
                trust_status := SIGNATURE_NOT_CHECKED |}
      | _ => c2pa_reject INVALID_TYPE (lit "assertions")
      end
  | _ => Err (C2paParseError NOT_OBJECT None)
  end.

Definition parse_c2pa_manifest (raw : bytes) : result c2pa_exn C2paParsedManifest :=
  if C2PA_MAX_MANIFEST_BYTES <? zlen raw then Err (C2paParseError MANIFEST_TOO_LARGE None) else
  match json_loads <$> utf8_decode raw with
  | None | Some (Err JSONDecodeError) => Err (C2paParseError NOT_JSON None)
  | Some (Err IntDigitsError) => Err (C2paRaised (ValueError "Exceeds the limit (4300 digits) for integer string conversion"))
  | Some (Ok data) =>
      if negb (depth_within MAX_JSON_DEPTH 0 data) then Err (C2paParseError DEPTH_EXCEEDED None) else parse_document data
  end.

(** A manifest given as text is encoded first. *)
Definition parse_c2pa_text (raw : str) : result c2pa_exn C2paParsedManifest :=
  match utf8_encode raw with
  | Some b => parse_c2pa_manifest b
  | None => Err (C2paRaised UnicodeError)
  end.

(** * Export *)

Definition validate_hex32 (value : pyval) (name : str) : result c2pa_exn unit :=
  ensure (valid_hex32 value) (C2paValueError (name ++ lit " must be a 32-byte lower-case hex string (64 chars)")).

Definition validate_text (value : pyval) (name : str) : result c2pa_exn unit :=
  ensure (negb (blank_value value)) (C2paValueError (name ++ lit " must be a non-empty string")).

(** The binding as it is embedded, twice. *)
Definition embedded_binding (b : C2paHarpocratesBinding) : pyval :=
  PDict [(lit "mapping_version", mapping_version b); (lit "video_hash", PStr (b_video_hash b));
         (lit "metadata_hash", PStr (b_metadata_hash b)); (lit "proof_id", PStr (b_proof_id b)); (lit "tier", PStr (b_tier b));
         (lit "network", PStr (b_network b)); (lit "contract_id", PStr (b_contract_id b))].

Definition manifest_of (generator : str) (b : C2paHarpocratesBinding) : list (str * pyval) :=
  [(lit "claim_generator", PStr generator); (lit "spec_version", PStr C2PA_SPEC_VERSION); (lit "alg", PStr (lit "sha256"));
   (lit "assertions", PList [PDict [(lit "label", PStr MAPPING_LABEL); (lit "data", embedded_binding b)]]);
   (lit "harpocrates_binding", embedded_binding b)].

(** [_canonical_json] *)
Definition c2pa_canonical_json (v : pyval) : result c2pa_exn bytes :=
  match utf8_encode (json_dumps true v) with Some b => Ok b | None => Err (C2paRaised UnicodeError) end.

(** The binding that is written, from values that were validated. *)
Definition exported_binding (video_hash metadata_hash proof_id tier network contract_id : pyval) : C2paHarpocratesBinding :=
  {| mapping_version := PInt C2PA_HARPOCRATES_MAPPING_VERSION; b_video_hash := py_lower (text_of video_hash);
     b_metadata_hash := py_lower (text_of metadata_hash); b_proof_id := py_lower (text_of proof_id); b_tier := text_of tier;
     b_network := py_strip (text_of network); b_contract_id := py_strip (text_of contract_id) |}.

(** [(claim_generator or _C2PA_MANIFEST_CLAIM_GENERATOR).strip()] *)
Definition generator_text (generator : pyval) : result c2pa_exn str :=
  match (if truthy generator then generator else PStr C2PA_MANIFEST_CLAIM_GENERATOR) with
  | PStr s => Ok (py_strip s)
  | _ => Err (C2paRaised AttributeError)
  end.

Definition export_c2pa_manifest (video_hash metadata_hash proof_id tier network contract_id generator : pyval) :
    result c2pa_exn C2paExportedManifest :=
  validate_hex32 video_hash (lit "video_hash");;
  validate_hex32 metadata_hash (lit "metadata_hash");;
  validate_hex32 proof_id (lit "proof_id");;
  allowed ← map_err C2paRaised (in_str_set tier C2PA_TIERS);
  ensure allowed (C2paValueError (lit "tier must be one of ['seal', 'silent', 'source'], got: " ++ py_repr tier));;
  validate_text network (lit "network");;
  validate_text contract_id (lit "contract_id");;
  cg ← generator_text generator;
  let manifest := manifest_of cg (exported_binding video_hash metadata_hash proof_id tier network contract_id) in
  canonical ← c2pa_canonical_json (PDict manifest);
  Ok {| ex_manifest := manifest; ex_digest := sha256_hex canonical |}.

(** Each handler takes its own exception; the escaped text is ASCII, so that encoding it does
    not fail. *)
Definition verify_round_trip (exported : C2paExportedManifest) : result c2pa_exn bool :=
  match (raw ← c2pa_canonical_json (PDict (ex_manifest exported)); parse_c2pa_manifest raw) with
  | Err (C2paParseError _ _) => Ok false
  | Err e => Err e
  | Ok parsed =>
      let b := binding parsed in
      match export_c2pa_manifest (PStr (b_video_hash b)) (PStr (b_metadata_hash b)) (PStr (b_proof_id b)) (PStr (b_tier b))
              (PStr (b_network b)) (PStr (b_contract_id b)) (PStr (claim_generator parsed)) with
      | Err (C2paValueError _) => Ok false
      | Err e => Err e
      | Ok re_exported => Ok (bool_decide (ex_digest re_exported = ex_digest exported))
      end
  end.

(** * Corroboration *)

(** The loop over the fields, with what the caller submitted. *)
Fixpoint corroborate_loop (b : C2paHarpocratesBinding) (submitted : str → pyval) (fields compared missed : list str) :
    result c2pa_exn (list str * list str) :=
  match fields with
  | [] => Ok (compared, missed)
  | f :: fields =>
      match submitted f with
      | PNone => corroborate_loop b submitted fields compared missed
      | supplied =>
          normalised ← (if bool_decide (f ∈ BINDING_HASH_FIELDS)
                        then validate_hex32 supplied f;; Ok (py_lower (text_of supplied))
                        else validate_text supplied f;; Ok (py_strip (text_of supplied)));
          corroborate_loop b submitted fields (compared ++ [f])
            (if decide (normalised = binding_field b f) then missed else missed ++ [f])
      end
  end.

Definition corroborate_binding (parsed : C2paParsedManifest) (submitted : str → pyval) : result c2pa_exn C2paHashCorroboration :=
  '(compared, missed) ← corroborate_loop (binding parsed) submitted (BINDING_HASH_FIELDS ++ BINDING_TEXT_FIELDS) [] [];
  Ok {| corroborated := bool_decide (missed = []); compared_fields := compared; mismatches := missed |}.

(** * The routes *)

(** [errors.ok_response] *)
Definition ok_response (request_id : str) (data : list (str * pyval)) : pyval * Z :=
  (PDict (foldl (λ d p, dict_set p.1 p.2 d) [(lit "ok", PBool true); (lit "request_id", PStr request_id)] data), 200).

Definition validation_error (request_id message : str) (field : option str) : pyval * Z :=
  error_response request_id (lit "VALIDATION_ERROR") message 400 field.

(** An exception that no handler of the route takes. *)
Definition escaped_exn (e : c2pa_exn) : exn :=
  match e with
  | C2paRaised e => e
  | C2paParseError _ _ => RuntimeError "C2paParseError"
  | C2paValueError _ => ValueError "C2PA"
  end.

(** [request.get_json(silent=True) or {}] *)
Definition body_or_empty (json : pyval) : pyval := if truthy json then json else PDict [].

(** [name in body] *)
Definition body_has (name : str) (body : pyval) : result exn bool :=
  match body with
  | PDict d => Ok (dict_has name d)
  | PList l => Ok (existsb (λ v, match v with PStr s => bool_decide (s = name) | _ => false end) l)
  | PStr s => Ok (contains name s)
  | _ => Err (TypeError "argument is not iterable")
  end.

(** [body[name]] for a key that is there *)
Definition body_item (name : str) (body : pyval) : result exn pyval :=
  match body with
  | PDict d => Ok (get_or_none name d)
  | _ => Err (TypeError "indices must be integers")
  end.

(** [body.get(name)] *)
Definition body_get (name : str) (body : pyval) : result exn pyval :=
  match body with
  | PDict d => Ok (get_or_none name d)
  | _ => Err AttributeError
  end.

(** The first of the required fields that is not there. *)
Fixpoint missing_field (names : list str) (body : pyval) : result exn (option str) :=
  match names with
  | [] => Ok None
  | n :: names => here ← body_has n body; if (here : bool) then missing_field names body else Ok (Some n)
  end.

Definition export_note : str :=
  lit "C2PA trust status is independent of Harpocrates on-chain and ZK verification. Do not treat this manifest as a Harpocrates proof.".
Definition import_note : str :=
  lit "C2PA trust status is independent of Harpocrates on-chain and ZK verification. A matching 'expected' block is integrity corroboration only. Corroborate this binding against on-chain records before making any trust decision.".

(** [c2pa_export]; an [Err] leaves the handler and is answered with status 500. *)
Definition c2pa_export (request_id : str) (is_json : bool) (json : pyval) : result exn (pyval * Z) :=
  if negb is_json then Ok (validation_error request_id (lit "JSON body is required") None) else
  let body := body_or_empty json in
  missing ← missing_field (BINDING_HASH_FIELDS ++ BINDING_TEXT_FIELDS) body;
  match missing with
  | Some name => Ok (validation_error request_id (lit "missing required field: " ++ name) None)
  | None =>
      video_hash ← body_item (lit "video_hash") body;
      metadata_hash ← body_item (lit "metadata_hash") body;
      proof_id ← body_item (lit "proof_id") body;
      tier ← body_item (lit "tier") body;
      network ← body_item (lit "network") body;
      contract_id ← body_item (lit "contract_id") body;
      generator ← body_get (lit "claim_generator") body;
      match export_c2pa_manifest video_hash metadata_hash proof_id tier network contract_id generator with
      | Ok exported =>
          Ok (ok_response request_id
                [(lit "manifest", PDict (ex_manifest exported)); (lit "digest", PStr (ex_digest exported));
                 (lit "trust_status", PStr (trust_text SIGNATURE_NOT_CHECKED)); (lit "note", PStr export_note)])
      | Err (C2paValueError message) => Ok (validation_error request_id message None)
      | Err e => Err (escaped_exn e)
      end
  end.

(** What is said of a manifest that does not parse. *)
Definition parse_failure_message (r : Reason) (field : option str) : str :=
  lit "C2PA manifest parse failed: " ++ reason_text r ++
  match field with Some ((_ :: _) as f) => lit " (field: " ++ f ++ lit ")" | _ => [] end.

Definition import_answer (request_id : str) (parsed : C2paParsedManifest) (c : option C2paHashCorroboration) : pyval * Z :=
  let b := binding parsed in
  ok_response request_id
    [(lit "binding", embedded_binding b); (lit "trust_status", PStr (trust_text (trust_status parsed)));
     (lit "hashes_verified", PBool match c with Some c => corroborated c | None => false end);
     (lit "hashes_compared", PList match c with Some c => map PStr (compared_fields c) | None => [] end);
     (lit "unknown_assertions",
       PList (map (λ u, PDict [(lit "label", PStr (ua_label u)); (lit "unsupported_semantics", PBool (unsupported_semantics u))])
                  (unknown_assertions parsed)));
     (lit "note", PStr import_note)].

(** The comparison with what the caller claims, after parsing. *)
Definition import_expected (request_id : str) (parsed : C2paParsedManifest) (expected : pyval) : result exn (pyval * Z) :=
  match expected with
  | PNone => Ok (import_answer request_id parsed None)
  | PDict e =>
      match corroborate_binding parsed (λ f, get_or_none f e) with
      | Ok c =>
          if corroborated c then Ok (import_answer request_id parsed (Some c)) else
          Ok (validation_error request_id
                (lit "submitted hashes do not match the embedded C2PA binding: " ++ join_comma (mismatches c))
                (head (mismatches c)))
      | Err (C2paValueError message) => Ok (validation_error request_id message None)
      | Err e => Err (escaped_exn e)
      end
  | _ => Ok (validation_error request_id (lit "expected must be a JSON object of submitted hashes") None)
  end.

(** The manifest as bytes: an object is written out, a text is encoded. *)
Definition manifest_bytes (request_id : str) (raw : pyval) : result exn ((pyval * Z) + bytes) :=
  match raw with
  | PDict d =>
      Ok match utf8_encode (print_value true (PDict d)) with
         | Some b => inr b
         | None => inl (validation_error request_id (lit "manifest object could not be serialised") None)
         end
  | PStr s => match utf8_encode s with Some b => Ok (inr b) | None => Err UnicodeError end
  | _ => Ok (inl (validation_error request_id (lit "manifest must be a JSON object or string") None))
  end.

Definition c2pa_import (request_id : str) (is_json : bool) (json : pyval) : result exn (pyval * Z) :=
  if negb is_json then Ok (validation_error request_id (lit "JSON body is required") None) else
  let body := body_or_empty json in
  here ← body_has (lit "manifest") body;
  if negb here then Ok (validation_error request_id (lit "missing required field: manifest") None) else
  raw ← body_item (lit "manifest") body;
  m ← manifest_bytes request_id raw;
  match m with
  | inl answer => Ok answer
  | inr b =>
      match parse_c2pa_manifest b with
      | Err (C2paParseError r field) => Ok (validation_error request_id (parse_failure_message r field) None)
      | Err e => Err (escaped_exn e)
      | Ok parsed => expected ← body_get (lit "expected") body; import_expected request_id parsed expected
      end
  end.
End c2pa.

(** * Text facts *)

Lemma drop_while_suffix {A} (p : A → bool) l : ∃ k, drop_while p l = drop k l.
Proof.
  induction l as [|x l [k IH]]; [by exists 0%nat|]. cbn. destruct (p x); [by exists (S k)|by exists 0%nat].
Qed.

Lemma drop_while_head_false {A} (p : A → bool) l x l' : drop_while p l = x :: l' → p x = false.
Proof. induction l as [|y l IH]; [done|]. cbn. destruct (p y) eqn:E; [done|]. by intros [= <- <-]. Qed.

Lemma drop_while_idem {A} (p : A → bool) l : drop_while p (drop_while p l) = drop_while p l.
Proof.
  destruct (drop_while p l) as [|x l'] eqn:E; [done|]. apply drop_while_head_false in E. cbn. by rewrite E.
Qed.

(** Dropping at the end keeps the first character that stays. *)
Lemma drop_while_app_last {A} (p : A → bool) l x : p x = false → ∃ l', drop_while p (l ++ [x]) = l' ++ [x].
Proof.
  intros Hx. induction l as [|y l [l' IH]]; cbn; [exists []; by rewrite Hx|].
  destruct (p y); [by exists l'|by exists (y :: l)].
Qed.

Lemma strip_by_idem p s : strip_by p (strip_by p s) = strip_by p s.
Proof.
  unfold strip_by. set (t := drop_while p s).
  destruct t as [|x t'] eqn:Et; [done|]. apply drop_while_head_false in Et as Hx. cbn [rev].
  destruct (drop_while_app_last p (rev t') x Hx) as [u Hu]. rewrite Hu, rev_app_distr. cbn [rev app].
  rewrite drop_while_none_head by done. cbn [rev]. rewrite rev_involutive, <- Hu, drop_while_idem, Hu, rev_app_distr. done.
Qed.

Lemma Forall_strip_by (P : Z → Prop) p s : Forall P s → Forall P (strip_by p s).
Proof.
  intros Hs. unfold strip_by. apply Forall_rev. destruct (drop_while_suffix p (rev (drop_while p s))) as [k ->].
  apply Forall_drop, Forall_rev. destruct (drop_while_suffix p s) as [j ->]. by apply Forall_drop.
Qed.

Lemma zlen_strip_by p s : zlen (strip_by p s) ≤ zlen s.
Proof.
  unfold strip_by, zlen. rewrite length_rev. destruct (drop_while_suffix p (rev (drop_while p s))) as [k ->].
  rewrite length_drop, length_rev. destruct (drop_while_suffix p s) as [j ->]. rewrite length_drop. lia.
Qed.

Lemma hex32_re_spec s :
  hex32_re s = true ↔
  ∃ h, length h = 64%nat ∧ Forall (λ c, is_lower_hex c = true) h ∧ (s = h ∨ s = h ++ [10]).
Proof.
  unfold hex32_re. rewrite !andb_true_iff, bool_decide_eq_true, forallb_Forall. split.
  - intros [[Hl Hh] Hr]. exists (take 64 s). split; [done|split; [done|]].
    rewrite <- (take_drop 64 s) at 1 3. destruct (drop 64 s) as [|c [|]]; [left; by rewrite app_nil_r| |done].
    apply Z.eqb_eq in Hr as ->. by right.
  - intros (h & Hl & Hh & [->| ->]).
    + rewrite take_ge, drop_ge by lia. done.
    + rewrite take_app_le, drop_app_ge, take_ge by lia. rewrite Hl. done.
Qed.

Lemma hex32_chars s : hex32_re s = true → Forall (λ c, c = 10 ∨ is_lower_hex c = true) s ∧ zlen s ≤ 65.
Proof.
  intros (h & Hl & Hh & Hs)%hex32_re_spec.
  assert (Forall (λ c, c = 10 ∨ is_lower_hex c = true) h) by (eapply Forall_impl; [exact Hh|]; auto).
  unfold zlen. destruct Hs as [->| ->]; [split; [done|lia]|]. rewrite length_app, Forall_app. cbn. split; [auto|lia].
Qed.

Lemma hex32_lower `{Unicode} s : hex32_re s = true → py_lower s = s.
Proof.
  intros [Hs _]%hex32_chars. rewrite py_lower_ascii.
  - induction Hs as [|c s Hc Hs IH]; [done|]. cbn. rewrite IH. f_equal.
    unfold ascii_lower. destruct Hc as [->|Hc]; [done|]. unfold is_lower_hex in Hc. case_match; bool_inv; lia.
  - eapply Forall_impl; [exact Hs|]. cbn. unfold is_lower_hex. intros c [->|Hc]; [done|]. bool_inv; lia.
Qed.

Lemma hex32_scalar s : hex32_re s = true → forallb scalar s = true.
Proof.
  intros [Hs _]%hex32_chars. apply forallb_Forall. eapply Forall_impl; [exact Hs|].
  cbn. intros c [->|Hc]; [done|]. apply scalar_ascii. unfold is_lower_hex in Hc. bool_inv; lia.
Qed.

(** * What is printed is ASCII, and how long it can be *)

Lemma hex4_ascii c : Forall (λ c, c < 128) (hex4 c).
Proof.
  assert (∀ x, hex_digit (x mod 16) < 128) as Hd.
  { intros x. assert (0 ≤ x mod 16 < 16) by (apply Z.mod_pos_bound; lia). unfold hex_digit. case_match; bool_inv; lia. }
  unfold hex4. repeat constructor; apply Hd.
Qed.

Lemma u_escape_ascii c : Forall (λ c, c < 128) (u_escape c) ∧ length (u_escape c) = 6%nat.
Proof. unfold u_escape. split; [|done]. apply Forall_app. split; [by repeat constructor|apply hex4_ascii]. Qed.

Lemma escape_ascii c : Forall (λ c, c < 128) (escape_char true c) ∧ (length (escape_char true c) ≤ 12)%nat.
Proof.
  unfold escape_char. cbn [andb]. repeat case_match; bool_inv; rewrite ?length_app, ?Forall_app;
    repeat match goal with |- context [u_escape ?x] => destruct (u_escape_ascii x) as [? ->]; generalize dependent (u_escape x); intros end;
    rewrite ?Forall_cons, ?Forall_nil; cbn [length]; split_and?; try done; lia.
Qed.

Lemma print_string_ascii s : Forall (λ c, c < 128) (print_string true s) ∧ zlen (print_string true s) ≤ 2 + 12 * zlen s.
Proof.
  unfold print_string. enough (Forall (λ c, c < 128) (s ≫= escape_char true) ∧ zlen (s ≫= escape_char true) ≤ 12 * zlen s) as [Ha Hb].
  { split; [constructor; [lia|]; apply Forall_app; split; [done|constructor; [lia|constructor]]|]. unfold zlen in *. cbn [length]. rewrite length_app. cbn. lia. }
  induction s as [|c s [IH1 IH2]]; [done|]. destruct (escape_ascii c) as [H1 H2]. rewrite bind_cons. split; [by apply Forall_app|].
  unfold zlen in *. rewrite length_app. cbn [length]. lia.
Qed.

(** A bound on the length of the escaped text. *)
Fixpoint size_bound (v : pyval) : Z :=
  match v with
  | PNone => 4
  | PBool _ => 5
  | PInt z => zlen (dec_str z)
  | PFloat f => zlen (fl_json f)
  | PStr s => 2 + 12 * zlen s
  | PList l => 2 + foldr Z.add 0 (map (λ v, 1 + size_bound v) l)
  | PDict kvs => 2 + foldr Z.add 0 (map (λ p, 4 + 12 * zlen p.1 + size_bound p.2) kvs)
  end.

Lemma zlen_join_sep sep (parts : list str) : zlen (join_sep sep parts) ≤ foldr Z.add 0 (map (λ p, 1 + zlen p) parts).
Proof.
  induction parts as [|p [|q parts] IH]; [done|unfold zlen; cbn; lia|].
  change (join_sep sep (p :: q :: parts)) with (p ++ sep :: join_sep sep (q :: parts)).
  cbn [map foldr] in *. unfold zlen in *. rewrite length_app. cbn [length]. lia.
Qed.

Lemma foldr_add_mono {A} (f g : A → Z) l : Forall (λ x, f x ≤ g x) l → foldr Z.add 0 (map f l) ≤ foldr Z.add 0 (map g l).
Proof. induction 1; cbn; lia. Qed.

Lemma print_value_size v : zlen (print_value true v) ≤ size_bound v.
Proof.
  induction v as [|b|z|f|s|l IH|kvs IH] using pyval_nested_ind; cbn [print_value size_bound].
  - by vm_compute.
  - by destruct b; vm_compute.
  - done.
  - done.
  - apply print_string_ascii.
  - unfold zlen at 1. cbn [length]. rewrite length_app. cbn [length].
    pose proof (zlen_join_sep 44 (map (print_value true) l)) as Hj. rewrite map_map in Hj.
    assert (foldr Z.add 0 (map (λ v, 1 + zlen (print_value true v)) l) ≤ foldr Z.add 0 (map (λ v, 1 + size_bound v) l)) as Hm.
    { apply foldr_add_mono. eapply Forall_impl; [exact IH|]. cbn. lia. }
    unfold zlen in *. lia.
  - unfold zlen at 1. cbn [length]. rewrite length_app. cbn [length].
    pose proof (zlen_join_sep 44 (map (λ p, print_string true p.1 ++ 58 :: print_value true p.2) kvs)) as Hj. rewrite map_map in Hj.
    assert (foldr Z.add 0 (map (λ p, 1 + zlen (print_string true p.1 ++ 58 :: print_value true p.2)) kvs)
            ≤ foldr Z.add 0 (map (λ p, 4 + 12 * zlen p.1 + size_bound p.2) kvs)) as Hm.
    { apply foldr_add_mono. eapply Forall_impl; [exact IH|]. intros [k v] Hv. cbn [fst snd] in *.
      destruct (print_string_ascii k) as [_ Hk]. unfold zlen in *. rewrite length_app. cbn [length]. lia. }
    unfold zlen in *. lia.
Qed.

Lemma Forall_join_sep (P : Z → Prop) sep (parts : list str) : P sep → Forall (Forall P) parts → Forall P (join_sep sep parts).
Proof.
  intros Hs. induction 1 as [|p parts Hp Hps IH]; [constructor|]. cbn. destruct parts; [done|].
  apply Forall_app. split; [done|]. by constructor.
Qed.

Lemma print_value_ascii v : plain v = true → Forall (λ c, c < 128) (print_value true v).
Proof.
  induction v as [|b|z|f|s|l IH|kvs IH] using pyval_nested_ind; intros Hv; cbn [print_value].
  - by repeat constructor.
  - destruct b; by repeat constructor.
  - destruct (Z.ltb_spec z 0) as [Hz|Hz].
    + unfold dec_str. rewrite (proj2 (Z.ltb_lt z 0)) by done. constructor; [lia|].
      pose proof (dec_str_digits (- z) ltac:(lia)) as Hd. rewrite dec_str_nonneg in Hd by lia.
      eapply Forall_impl; [exact Hd|]. cbn. lia.
    + eapply Forall_impl; [exact (dec_str_digits z Hz)|]. cbn. lia.
  - done.
  - apply print_string_ascii.
  - constructor; [lia|]. apply Forall_app. split; [|by repeat constructor]. apply Forall_join_sep; [lia|].
    cbn in Hv. apply forallb_Forall in Hv. apply Forall_map. rewrite Forall_forall in *.
    intros x Hx. apply IH; [done|by apply Hv].
  - constructor; [lia|]. apply Forall_app. split; [|by repeat constructor]. apply Forall_join_sep; [lia|].
    cbn in Hv. apply andb_true_iff in Hv as [Hv _]. apply forallb_Forall in Hv. apply Forall_map. rewrite Forall_forall in *.
    intros p Hp. apply Hv in Hp as Hb. apply andb_true_iff in Hb as [_ Hb]. apply Forall_app. split; [apply print_string_ascii|].
    constructor; [lia|]. by apply (IH p).
Qed.

Lemma utf8_ascii_text v : plain v = true → utf8_encode (print_value true v) = Some (print_value true v).
Proof. intros Hv. by apply utf8_encode_ascii, print_value_ascii. Qed.

Lemma c2pa_canonical_plain v : plain v = true → c2pa_canonical_json v = Ok (json_dumps true v).
Proof. intros Hv. unfold c2pa_canonical_json, json_dumps. rewrite utf8_ascii_text; [done|]. by rewrite plain_canon. Qed.

(** * Bindings *)

(** What every accepted binding satisfies. *)
Record binding_ok `{Unicode} (b : C2paHarpocratesBinding) : Prop := {
  ok_version : version_number (mapping_version b) = C2PA_HARPOCRATES_MAPPING_VERSION;
  ok_video_hash : hex32_re (b_video_hash b) = true;
  ok_metadata_hash : hex32_re (b_metadata_hash b) = true;
  ok_proof_id : hex32_re (b_proof_id b) = true;
  ok_tier : b_tier b ∈ C2PA_TIERS;
  ok_network : py_strip (b_network b) = b_network b ∧ b_network b ≠ [];
  ok_contract_id : py_strip (b_contract_id b) = b_contract_id b ∧ b_contract_id b ≠ [];
}.

(** The sorted form of an embedded binding. *)
Lemma canon_embedded b : mapping_version b = PInt 1 →
  canon (embedded_binding b) =
  PDict [(lit "contract_id", PStr (b_contract_id b)); (lit "mapping_version", PInt 1); (lit "metadata_hash", PStr (b_metadata_hash b));
         (lit "network", PStr (b_network b)); (lit "proof_id", PStr (b_proof_id b)); (lit "tier", PStr (b_tier b));
         (lit "video_hash", PStr (b_video_hash b))].
Proof. destruct b; cbn [mapping_version]. intros ->. reflexivity. Qed.

Lemma canon_manifest g b : mapping_version b = PInt 1 →
  canon (PDict (manifest_of g b)) =
  PDict [(lit "alg", PStr (lit "sha256"));
         (lit "assertions", PList [PDict [(lit "data", canon (embedded_binding b)); (lit "label", PStr MAPPING_LABEL)]]);
         (lit "claim_generator", PStr g); (lit "harpocrates_binding", canon (embedded_binding b));
         (lit "spec_version", PStr C2PA_SPEC_VERSION)].
Proof. intros Hv. reflexivity. Qed.

Section proofs.
Context `{FloatText, Unicode, SetOrder}.

Lemma require_keys_ok keys prefix d u : require_keys keys prefix d = Ok u ↔ Forall (λ k, dict_has k d = true) keys.
Proof.
  unfold require_keys. destruct u. destruct (list_find _ keys) as [[i k]|] eqn:E.
  - split; [done|]. apply list_find_Some in E as (Hi & Hk & _). intros Hf.
    rewrite Forall_forall in Hf. apply list_elem_of_lookup_2 in Hi. rewrite Hf in Hk; done.
  - split; [|done]. intros _. apply list_find_None in E. eapply Forall_impl; [exact E|].
    cbn. intros k. by destruct (dict_has k d).
Qed.

Lemma Forall_binding_order (P : str → Prop) : Forall P REQUIRED_BINDING_KEYS → Forall P binding_order.
Proof. by rewrite binding_order_keys. Qed.
Lemma Forall_manifest_order (P : str → Prop) : Forall P REQUIRED_MANIFEST_KEYS → Forall P manifest_order.
Proof. by rewrite manifest_order_keys. Qed.

Lemma check_hashes_ok prefix d fields u :
  check_hashes prefix d fields = Ok u ↔ Forall (λ f, valid_hex32 (get_or_none f d) = true) fields.
Proof.
  destruct u. induction fields as [|f fields IH]; [done|]. cbn [check_hashes]. rewrite Forall_cons, <- IH.
  destruct (get_or_none f d); cbn [valid_hex32]; [naive_solver..| |naive_solver|naive_solver].
  destruct (hex32_re _); naive_solver.
Qed.

Lemma valid_hex32_lower v : valid_hex32 v = true → hex32_re (py_lower (text_of v)) = true.
Proof. by destruct v. Qed.

Lemma nonblank_text v : blank_value v = false → py_strip (py_strip (text_of v)) = py_strip (text_of v) ∧ py_strip (text_of v) ≠ [].
Proof.
  destruct v; cbn [blank_value]; [done..| |done|done]. intros Hb%bool_decide_eq_false. split; [apply strip_by_idem|done].
Qed.

Lemma tier_text v names : in_str_tuple v names = true → text_of v ∈ names.
Proof. destruct v; cbn; [done..| |done|done]. apply bool_decide_eq_true. Qed.

(** A parsed binding is well formed. *)
Lemma parse_binding_ok raw prefix b : parse_binding raw prefix = Ok b → binding_ok b.
Proof.
  unfold parse_binding. destruct raw as [| | | | | |d]; try done. cbv zeta. intros [_ Hp]%seq_ok.
  case_match eqn:Hv; [done|]. case_match eqn:Hm; [done|]. apply seq_ok in Hp as [Hh%check_hashes_ok Hp].
  case_match eqn:Ht; [done|]. case_match eqn:Hn; [done|]. case_match eqn:Hc; [done|]. injection Hp as <-.
  apply negb_false_iff in Hm, Ht. unfold BINDING_HASH_FIELDS in Hh. cbn [map] in Hh. rewrite !Forall_cons in Hh.
  destruct Hh as (Hh1 & Hh2 & Hh3 & _).
  constructor; cbn [mapping_version b_video_hash b_metadata_hash b_proof_id b_tier b_network b_contract_id];
    auto using valid_hex32_lower, nonblank_text, tier_text. lia.
Qed.

Lemma nonblank_str s : py_strip s = s → s ≠ [] → blank_value (PStr s) = false.
Proof. intros Hs Hn. cbn. rewrite Hs. by apply bool_decide_eq_false. Qed.

(** An embedded binding that is well formed is read back. *)
Lemma parse_embedded b prefix :
  binding_ok b → mapping_version b = PInt 1 → parse_binding (canon (embedded_binding b)) prefix = Ok b.
Proof.
  intros [_ Hh1 Hh2 Hh3 Ht [Hn Hn'] [Hc Hc']] Hv. rewrite canon_embedded by done. destruct b as [mv vh mh pid t net cid].
  cbn [mapping_version b_video_hash b_metadata_hash b_proof_id b_tier b_network b_contract_id] in *. subst mv.
  unfold parse_binding. match goal with |- context [require_keys _ _ ?x] => set (d := x) end.
  rewrite (proj2 (require_keys_ok _ _ _ ())) by (apply Forall_binding_order; by repeat constructor). rewrite bind_Ok. cbv zeta.
  change (get_or_none (lit "mapping_version") d) with (PInt 1). change (get_or_none (lit "tier") d) with (PStr t).
  change (get_or_none (lit "network") d) with (PStr net). change (get_or_none (lit "contract_id") d) with (PStr cid).
  change (get_or_none (lit "video_hash") d) with (PStr vh). change (get_or_none (lit "metadata_hash") d) with (PStr mh).
  change (get_or_none (lit "proof_id") d) with (PStr pid).
  assert (check_hashes prefix d BINDING_HASH_FIELDS = Ok ()) as ->.
  { apply check_hashes_ok. unfold BINDING_HASH_FIELDS. cbn [map]. rewrite !Forall_cons, Forall_nil.
    change (get_or_none (lit "video_hash") d) with (PStr vh). change (get_or_none (lit "metadata_hash") d) with (PStr mh).
    change (get_or_none (lit "proof_id") d) with (PStr pid). cbn [valid_hex32]. by rewrite !hex32_lower. }
  rewrite !nonblank_str by done.
  rewrite bind_Ok. cbn [in_str_tuple text_of]. rewrite bool_decide_eq_true_2 by done. rewrite !hex32_lower, Hn, Hc by done. reflexivity.
Qed.
(** How long a manifest can be. *)
Lemma manifest_size g b : binding_ok b → mapping_version b = PInt 1 → zlen (b_network b) + zlen (b_contract_id b) ≤ 2000 → zlen g ≤ 10000 →
  size_bound (PDict [(lit "data", canon (embedded_binding b)); (lit "label", PStr MAPPING_LABEL)]) ≤ MAX_ASSERTION_DATA_BYTES ∧
  size_bound (canon (PDict (manifest_of g b))) ≤ C2PA_MAX_MANIFEST_BYTES.
Proof.
  intros [_ [_ Hh1]%hex32_chars [_ Hh2]%hex32_chars [_ Hh3]%hex32_chars Ht _ _] Hv Hn Hg.
  assert (zlen (b_tier b) ≤ 6).
  { unfold C2PA_TIERS in Ht. cbn [map] in Ht. rewrite !elem_of_cons, elem_of_nil in Ht.
    destruct Ht as [->|[->|[->|[]]]]; by vm_compute. }
  rewrite canon_manifest, canon_embedded by done. cbn [size_bound map foldr fst snd].
  repeat match goal with |- context [zlen (lit ?x)] => let n := eval vm_compute in (zlen (lit x)) in change (zlen (lit x)) with n end.
  change (zlen (dec_str 1)) with 1. change (zlen MAPPING_LABEL) with 22. change (zlen C2PA_SPEC_VERSION) with 3.
  unfold MAX_ASSERTION_DATA_BYTES, C2PA_MAX_MANIFEST_BYTES. lia.
Qed.

Lemma parse_named_assertion x b :
  plain (PDict [(lit "data", x); (lit "label", PStr MAPPING_LABEL)]) = true →
  size_bound (PDict [(lit "data", x); (lit "label", PStr MAPPING_LABEL)]) ≤ MAX_ASSERTION_DATA_BYTES →
  parse_binding x (place 0 ".data") = Ok b →
  parse_assertions 0 [PDict [(lit "data", x); (lit "label", PStr MAPPING_LABEL)]] = Ok ([], [b]).
Proof.
  intros Hp Hs Hb. set (a := PDict _) in *. pose proof (print_value_size a) as Hl. pose proof (utf8_ascii_text a Hp) as Hu.
  unfold a in *. cbn [parse_assertions]. set (d := [_; _]) in *.
  change (default (PStr []) (dict_get (lit "label") d)) with (PStr MAPPING_LABEL). cbv iota.
  change (MAX_ASSERTION_LABEL_LEN <? zlen MAPPING_LABEL) with false. rewrite Hu.
  destruct (Z.ltb_spec MAX_ASSERTION_DATA_BYTES (zlen (print_value true (PDict d)))); [lia|].
  change (get_or_none (lit "data") d) with x. by rewrite decide_True, Hb by done.
Qed.

Lemma consistent_with_itself b : require_consistent_embedded_binding b b = Ok ().
Proof.
  unfold require_consistent_embedded_binding. rewrite Z.eqb_refl. cbn [ensure mbind result_bind].
  rewrite (proj2 (list_find_None _ _)); [done|]. apply Forall_forall. auto.
Qed.

Lemma plain_named d a : plain (PDict d) = true → dict_get (lit "assertions") d = Some (PList [a]) → plain a = true.
Proof.
  cbn [plain]. intros [Hf Hn%bool_decide_eq_true]%andb_true_iff Ha. apply dict_get_elem in Ha; [|done].
  apply forallb_Forall in Hf. rewrite Forall_forall in Hf. apply Hf in Ha. cbn [snd plain forallb] in Ha. by bool_inv.
Qed.

(** A manifest as it is exported is parsed, unless its generator is blank. *)
Lemma parse_document_exported g b : binding_ok b → mapping_version b = PInt 1 → py_strip g = g →
  plain (PDict (manifest_of g b)) = true → zlen (b_network b) + zlen (b_contract_id b) ≤ 2000 → zlen g ≤ 10000 →
  parse_document (canon (PDict (manifest_of g b))) =
  if decide (g = []) then c2pa_reject INVALID_TYPE (lit "claim_generator")
  else Ok {| claim_generator := g; spec_version := Some C2PA_SPEC_VERSION; binding := b; unknown_assertions := [];
             trust_status := SIGNATURE_NOT_CHECKED |}.
Proof.
  intros Hb Hv Hg Hp Hn Hgl. pose proof (manifest_size g b Hb Hv Hn Hgl) as [Hs _].
  rewrite <- plain_canon, canon_manifest in Hp by done. rewrite canon_manifest by done.
  unfold parse_document. match goal with |- context [require_keys _ _ ?x] => set (d := x) end.
  rewrite (proj2 (require_keys_ok _ _ _ ())) by (apply Forall_manifest_order; by repeat constructor). rewrite bind_Ok. cbv zeta.
  change (get_or_none (lit "claim_generator") d) with (PStr g).
  destruct (decide (g = [])) as [->|Hne]; [done|]. rewrite nonblank_str by done.
  change (parse_spec_version d) with (Ok (E:=c2pa_exn) (Some C2PA_SPEC_VERSION)). rewrite bind_Ok.
  change (get_or_none (lit "assertions") d) with (PList [PDict [(lit "data", canon (embedded_binding b)); (lit "label", PStr MAPPING_LABEL)]]).
  change (get_or_none (lit "harpocrates_binding") d) with (canon (embedded_binding b)).
  change (check_algorithm d) with (Ok (E:=c2pa_exn) ()).
  cbv iota. rewrite (parse_named_assertion _ b); [|by apply (plain_named d)|done|by apply parse_embedded].
  rewrite bind_Ok. cbv iota. rewrite bind_Ok, parse_embedded by done. rewrite bind_Ok, consistent_with_itself. cbn [text_of]. by rewrite Hg.
Qed.

(** What an export that succeeds wrote. *)
Lemma export_inv vh mh pid tier net cid gen e :
  export_c2pa_manifest vh mh pid tier net cid gen = Ok e →
  let b := exported_binding vh mh pid tier net cid in
  ∃ g raw, generator_text gen = Ok g ∧ binding_ok b ∧ ex_manifest e = manifest_of g b ∧
    c2pa_canonical_json (PDict (manifest_of g b)) = Ok raw ∧ ex_digest e = sha256_hex raw.
Proof.
  unfold export_c2pa_manifest, validate_hex32, validate_text. cbv zeta. rewrite !seq_ok, !ensure_ok.
  intros (Hh1 & Hh2 & Hh3 & He). apply bind_ok in He as (t & Ht & He). rewrite !seq_ok, !ensure_ok, !negb_true_iff in He.
  destruct He as (-> & Hn & Hc & He). apply bind_ok in He as (g & Hg & He). apply bind_ok in He as (raw & Hr & He).
  injection He as <-. exists g, raw. split_and!; try done.
  constructor; cbn [exported_binding mapping_version b_video_hash b_metadata_hash b_proof_id b_tier b_network b_contract_id];
    auto using valid_hex32_lower, nonblank_text.
  destruct tier; try done. injection Ht as Ht. cbn [text_of]. by apply bool_decide_eq_true in Ht.
Qed.

Lemma generator_stripped gen g : generator_text gen = Ok g → py_strip g = g.
Proof.
  unfold generator_text. destruct (if truthy gen then gen else _); try done. intros [= <-]. apply strip_by_idem.
Qed.

(** The texts are within what JSON and UTF-8 keep, and not too long. *)
Definition modest (net cid : pyval) (g : str) : Prop :=
  forallb scalar (text_of net) = true ∧ forallb scalar (text_of cid) = true ∧ forallb scalar g = true ∧
  zlen (text_of net) + zlen (text_of cid) ≤ 2000 ∧ zlen g ≤ 10000.

Lemma strip_scalar s : forallb scalar s = true → forallb scalar (py_strip s) = true.
Proof. rewrite !forallb_Forall. apply Forall_strip_by. Qed.

Lemma manifest_plain g b : binding_ok b → mapping_version b = PInt 1 →
  forallb scalar g = true → forallb scalar (b_network b) = true → forallb scalar (b_contract_id b) = true →
  plain (PDict (manifest_of g b)) = true.
Proof.
  intros [_ Hh1%hex32_scalar Hh2%hex32_scalar Hh3%hex32_scalar Ht _ _] Hv Hg Hn Hc.
  assert (forallb scalar (b_tier b) = true) as Ht'.
  { unfold C2PA_TIERS in Ht. cbn [map] in Ht. rewrite !elem_of_cons, elem_of_nil in Ht.
    destruct Ht as [->|[->|[->|[]]]]; apply lit_scalar. }
  destruct b as [mv vh mh pid t net cid].
  cbn [mapping_version b_video_hash b_metadata_hash b_proof_id b_tier b_network b_contract_id] in *. subst mv.
  assert (plain (embedded_binding {| mapping_version := PInt 1; b_video_hash := vh; b_metadata_hash := mh; b_proof_id := pid;
             b_tier := t; b_network := net; b_contract_id := cid |}) = true) as Hb.
  { cbn [plain embedded_binding mapping_version b_video_hash b_metadata_hash b_proof_id b_tier b_network b_contract_id forallb fst snd fmap list_fmap].
    rewrite Hh1, Hh2, Hh3, Ht', Hn, Hc, !lit_scalar. reflexivity. }
  unfold manifest_of. cbn [plain forallb fst snd]. rewrite Hb, Hg. unfold MAPPING_LABEL, C2PA_SPEC_VERSION. rewrite !lit_scalar. reflexivity.
Qed.

(** A parsed export: the bytes that were hashed, read again. *)
Lemma parse_exported g b : binding_ok b → mapping_version b = PInt 1 → py_strip g = g →
  forallb scalar g = true → forallb scalar (b_network b) = true → forallb scalar (b_contract_id b) = true →
  zlen (b_network b) + zlen (b_contract_id b) ≤ 2000 → zlen g ≤ 10000 →
  let raw := json_dumps true (PDict (manifest_of g b)) in
  c2pa_canonical_json (PDict (manifest_of g b)) = Ok raw ∧
  parse_c2pa_manifest raw =
    if decide (g = []) then c2pa_reject INVALID_TYPE (lit "claim_generator")
    else Ok {| claim_generator := g; spec_version := Some C2PA_SPEC_VERSION; binding := b; unknown_assertions := [];
               trust_status := SIGNATURE_NOT_CHECKED |}.
Proof.
  intros Hb Hv Hg Hgs Hns Hcs Hn Hgl raw. pose proof (manifest_plain g b Hb Hv Hgs Hns Hcs) as Hp.
  split; [by apply c2pa_canonical_plain|]. pose proof (manifest_size g b Hb Hv Hn Hgl) as [_ Hs].
  assert (zlen raw ≤ C2PA_MAX_MANIFEST_BYTES) as Hl by (etrans; [apply print_value_size|done]).
  unfold parse_c2pa_manifest. destruct (Z.ltb_spec C2PA_MAX_MANIFEST_BYTES (zlen raw)); [lia|].
  assert (utf8_decode raw = Some raw) as ->.
  { apply utf8_decode_encode; [apply (json_dumps_utf8 true _ Hp)|]. apply utf8_ascii_text. by rewrite plain_canon. }
  cbn [fmap option_fmap option_map]. unfold raw. rewrite json_loads_dumps by done.
  rewrite <- (parse_document_exported g b) by done. rewrite canon_manifest, canon_embedded by done. reflexivity.
Qed.

Lemma exported_again g b : binding_ok b → mapping_version b = PInt 1 → py_strip g = g → g ≠ [] →
  plain (PDict (manifest_of g b)) = true →
  export_c2pa_manifest (PStr (b_video_hash b)) (PStr (b_metadata_hash b)) (PStr (b_proof_id b)) (PStr (b_tier b))
    (PStr (b_network b)) (PStr (b_contract_id b)) (PStr g) =
  Ok {| ex_manifest := manifest_of g b; ex_digest := sha256_hex (json_dumps true (PDict (manifest_of g b))) |}.
Proof.
  intros [_ Hh1 Hh2 Hh3 Ht [Hn Hn'] [Hc Hc']] Hv Hg Hne Hp. destruct b as [mv vh mh pid t net cid].
  cbn [mapping_version b_video_hash b_metadata_hash b_proof_id b_tier b_network b_contract_id] in *. subst mv.
  unfold export_c2pa_manifest, validate_hex32, validate_text, exported_binding. cbn [valid_hex32 in_str_set map_err text_of].
  rewrite !hex32_lower, Hh1, Hh2, Hh3, !nonblank_str, Hn, Hc by done. rewrite bool_decide_eq_true_2 by done.
  assert (generator_text (PStr g) = Ok g) as ->.
  { unfold generator_text. cbn [truthy]. destruct g; [done|]. cbn. by f_equal. }
  cbn [ensure negb mbind result_bind]. unfold C2PA_HARPOCRATES_MAPPING_VERSION. by rewrite c2pa_canonical_plain.
Qed.

(** * Exporting and importing *)

(** What is exported is imported again: the canonical bytes hash to the digest of the export,
    they parse, the binding is the one that was written, and the module's own round-trip check
    passes.  The generator must not be blank_value, the texts must be encodable and not too long. *)
Theorem exported_manifest_round_trips vh mh pid tier net cid gen e g :
  export_c2pa_manifest vh mh pid tier net cid gen = Ok e → generator_text gen = Ok g → g ≠ [] → modest net cid g →
  ∃ raw parsed, c2pa_canonical_json (PDict (ex_manifest e)) = Ok raw ∧ ex_digest e = sha256_hex raw ∧
    parse_c2pa_manifest raw = Ok parsed ∧ binding parsed = exported_binding vh mh pid tier net cid ∧
    claim_generator parsed = g ∧ unknown_assertions parsed = [] ∧ verify_round_trip e = Ok true.
Proof.
  intros He Hg Hne (Hns & Hcs & Hgs & Hn & Hgl). apply export_inv in He as (g' & raw & Hg' & Hb & Hm & Hr & Hd).
  assert (g' = g) as -> by congruence. set (b := exported_binding _ _ _ _ _ _) in *.
  pose proof (generator_stripped _ _ Hg) as Hst. pose proof (strip_scalar _ Hns) as Hns'. pose proof (strip_scalar _ Hcs) as Hcs'.
  pose proof (zlen_strip_by py_space (text_of net)). pose proof (zlen_strip_by py_space (text_of cid)).
  destruct (parse_exported g b) as [Hc Hp]; [done..|cbn; unfold py_strip; lia|done|].
  rewrite decide_False in Hp by done. rewrite Hc in Hr. injection Hr as <-. rewrite Hm. eexists _, _. split_and!; [done..|].
  unfold verify_round_trip. rewrite Hm, Hc, bind_Ok, Hp. cbv zeta. cbn [binding claim_generator].
  rewrite exported_again by (done || by apply manifest_plain). cbn [ex_digest]. by rewrite bool_decide_eq_true_2.
Qed.

(** A generator of blanks is exported, stripped to nothing, into a manifest that is refused on
    import. *)
Theorem blank_generator_export_unreadable vh mh pid tier net cid gen e :
  export_c2pa_manifest vh mh pid tier net cid gen = Ok e → generator_text gen = Ok [] → modest net cid [] →
  ∃ raw, c2pa_canonical_json (PDict (ex_manifest e)) = Ok raw ∧
    parse_c2pa_manifest raw = Err (C2paParseError INVALID_TYPE (Some (lit "claim_generator"))) ∧
    verify_round_trip e = Ok false.
Proof.
  intros He Hg (Hns & Hcs & _ & Hn & _). apply export_inv in He as (g' & raw & Hg' & Hb & Hm & Hr & Hd).
  assert (g' = []) as -> by congruence. set (b := exported_binding _ _ _ _ _ _) in *.
  pose proof (strip_scalar _ Hns) as Hns'. pose proof (strip_scalar _ Hcs) as Hcs'.
  pose proof (zlen_strip_by py_space (text_of net)). pose proof (zlen_strip_by py_space (text_of cid)).
  destruct (parse_exported [] b) as [Hc Hp]; [done..|cbn; unfold py_strip; lia|by vm_compute|].
  rewrite decide_True in Hp by done. rewrite Hm. eexists. split_and!; [done..|].
  unfold verify_round_trip. by rewrite Hm, Hc, bind_Ok, Hp.
Qed.

(** The data of an assertion with the name of the binding, and what is kept of any other: its
    label, its data, and the flag that it is not understood. *)
Definition label_of (a : list (str * pyval)) : str := text_of (default (PStr []) (dict_get (lit "label") a)).

Definition named_data (v : pyval) : option pyval :=
  match v with
  | PDict a => if decide (label_of a = MAPPING_LABEL) then Some (get_or_none (lit "data") a) else None
  | _ => None
  end.

Definition other_assertion (v : pyval) : option C2paUnknownAssertion :=
  match v with
  | PDict a =>
      if decide (label_of a = MAPPING_LABEL) then None
      else Some {| ua_label := label_of a; ua_data := get_or_none (lit "data") a; unsupported_semantics := true |}
  | _ => None
  end.

Lemma parse_assertions_inv idx l us bs : parse_assertions idx l = Ok (us, bs) →
  Forall2 (λ data b, ∃ prefix, parse_binding data prefix = Ok b) (omap named_data l) bs ∧
  us = omap other_assertion l ∧ Forall (λ v, ∃ a, v = PDict a) l.
Proof.
  revert idx us bs. induction l as [|v l IH]; intros idx us bs; cbn [parse_assertions]; [by intros [= <- <-]; repeat constructor|].
  destruct v as [| | | | | |a]; try done. cbn [omap list_omap].
  unfold named_data at 1, other_assertion at 1, label_of.
  destruct (default (PStr []) (dict_get (lit "label") a)) as [| | | |label| |]; try done. cbn [text_of].
  case_match; [done|]. case_match; [|done]. case_match; [done|]. cbv zeta. destruct (decide (label = MAPPING_LABEL)) as [->|Hne].
  - intros (b & Hb & Hp)%bind_ok. apply bind_ok in Hp as ([us' bs'] & Hp & Heq). injection Heq as <- <-.
    apply IH in Hp as (Hf & Hu & Hs). split_and!; [|done|by constructor; eauto]. constructor; eauto.
  - intros ([us' bs'] & Hp & Heq)%bind_ok. injection Heq as <- <-.
    apply IH in Hp as (Hf & -> & Hs). split_and!; [done|done|by constructor; eauto].
Qed.

(** The two copies agree on every compared field and on the version. *)
Definition same_binding (a b : C2paHarpocratesBinding) : Prop :=
  version_number (mapping_version a) = version_number (mapping_version b) ∧
  Forall (λ f, binding_field a f = binding_field b f) (BINDING_HASH_FIELDS ++ BINDING_TEXT_FIELDS).

Lemma require_consistent_ok a b u : require_consistent_embedded_binding a b = Ok u → same_binding a b.
Proof.
  unfold require_consistent_embedded_binding. destruct u. rewrite seq_ok, ensure_ok. intros [Hv Hf]. split; [lia|].
  destruct (list_find _ _) as [[i f]|] eqn:E; [done|]. apply list_find_None in E.
  eapply Forall_impl; [exact E|]. cbn. intros f Hff. destruct (decide (binding_field a f = binding_field b f)); tauto.
Qed.

(** C33. What an import accepts: the top-level binding is well formed, at most one assertion carries
    the binding's name and it holds the same binding, every other assertion is kept, in order,
    with its label, its data and the flag that it is not understood, and the trust status is
    never more than unchecked. *)
Theorem imported_binding_agrees raw m : parse_c2pa_manifest raw = Ok m →
  ∃ d assertions, json_loads <$> utf8_decode raw = Some (Ok (PDict d)) ∧
    dict_get (lit "assertions") d = Some (PList assertions) ∧ zlen assertions ≤ MAX_ASSERTION_COUNT ∧
    zlen raw ≤ C2PA_MAX_MANIFEST_BYTES ∧ binding_ok (binding m) ∧
    parse_binding (get_or_none (lit "harpocrates_binding") d) (lit "harpocrates_binding") = Ok (binding m) ∧
    match omap named_data assertions with
    | [] => True
    | [data] => ∃ prefix b, parse_binding data prefix = Ok b ∧ same_binding (binding m) b
    | _ => False
    end ∧
    Forall (λ v, ∃ a, v = PDict a) assertions ∧ unknown_assertions m = omap other_assertion assertions ∧
    trust_status m = SIGNATURE_NOT_CHECKED.
Proof.
  unfold parse_c2pa_manifest. case_match eqn:Hz; [done|]. apply Z.ltb_ge in Hz.
  destruct (json_loads <$> utf8_decode raw) as [[data|[]]|] eqn:Ej; try done. case_match; [done|].
  unfold parse_document. destruct data as [| | | | | |d]; try done. cbv zeta. intros [_ Hp]%seq_ok. case_match; [done|].
  apply bind_ok in Hp as (sv & _ & Hp). destruct (get_or_none (lit "assertions") d) as [| | | | |l|] eqn:Ea; try done.
  case_match eqn:Hl; [done|]. apply Z.ltb_ge in Hl. apply bind_ok in Hp as ([us bs] & Hpa & Hp). apply seq_ok in Hp as [_ Hp].
  apply bind_ok in Hp as (b & Hb & Hp). apply seq_ok in Hp as [Hc Hp]. injection Hp as <-.
  apply parse_assertions_inv in Hpa as (Hf & Hu & Hobj). cbn [binding unknown_assertions trust_status].
  exists d, l. split_and!; eauto using parse_binding_ok.
  - unfold get_or_none in Ea. destruct (dict_get _ d); [by cbn in Ea; subst|done].
  - destruct bs as [|b' [|]]; [|apply require_consistent_ok in Hc|done]; inversion Hf as [|x ? l1 l2 [prefix Hx] Hrest]; subst; [done|].
    inversion Hrest; subst. eauto.
Qed.

(** * Comparing with what the caller claims *)

(** A claimed value as it is compared, or nothing when it is malformed. *)
Definition normalised (f : str) (v : pyval) : option str :=
  if bool_decide (f ∈ BINDING_HASH_FIELDS) then if valid_hex32 v then Some (py_lower (text_of v)) else None
  else if blank_value v then None else Some (py_strip (text_of v)).

Definition claimed (sub : str → pyval) (f : str) : Prop := sub f ≠ PNone.
#[local] Instance claimed_dec sub f : Decision (claimed sub f).
Proof. unfold claimed. destruct (sub f); first [by left|right; intros Hc; by apply Hc]. Defined.

(** What is said of a malformed claim: its name and fixed text. *)
Definition malformed (f : str) : c2pa_exn :=
  C2paValueError (f ++ lit (if bool_decide (f ∈ BINDING_HASH_FIELDS) then " must be a 32-byte lower-case hex string (64 chars)"
                            else " must be a non-empty string")).

Lemma corroborate_step b sub f fields c m : claimed sub f →
  corroborate_loop b sub (f :: fields) c m =
  match normalised f (sub f) with
  | Some n => corroborate_loop b sub fields (c ++ [f]) (if decide (n = binding_field b f) then m else m ++ [f])
  | None => Err (malformed f)
  end.
Proof.
  unfold claimed, normalised, malformed. cbn [corroborate_loop]. unfold validate_hex32, validate_text.
  destruct (sub f) as [| | | |s| |]; [done|..]; intros _; destruct (bool_decide (f ∈ BINDING_HASH_FIELDS)); try done.
  - destruct (valid_hex32 (PStr s)); done.
  - destruct (blank_value (PStr s)); done.
Qed.

Lemma corroborate_skip b sub f fields c m : ¬ claimed sub f →
  corroborate_loop b sub (f :: fields) c m = corroborate_loop b sub fields c m.
Proof. unfold claimed. intros Hn. cbn [corroborate_loop]. destruct (sub f); [done|by destruct Hn..]. Qed.

(** The claims that do not match. *)
Definition differing (b : C2paHarpocratesBinding) (sub : str → pyval) (f : str) : Prop :=
  claimed sub f ∧ normalised f (sub f) ≠ Some (binding_field b f).
#[local] Instance differing_dec b sub f : Decision (differing b sub f).
Proof. unfold differing. apply _. Defined.

Lemma corroborate_loop_ok b sub fields c0 m0 r :
  corroborate_loop b sub fields c0 m0 = Ok r ↔
  Forall (λ f, claimed sub f → normalised f (sub f) ≠ None) fields ∧
  r = (c0 ++ filter (claimed sub) fields, m0 ++ filter (differing b sub) fields).
Proof.
  revert c0 m0. induction fields as [|f fields IH]; intros c0 m0.
  { cbn [corroborate_loop]. rewrite !filter_nil, !app_nil_r. naive_solver. }
  rewrite Forall_cons, !filter_cons. destruct (decide (claimed sub f)) as [Hs|Hn].
  - rewrite corroborate_step by done. destruct (normalised f (sub f)) as [n|] eqn:En; [|naive_solver].
    rewrite IH, <- app_assoc. destruct (decide (n = binding_field b f)) as [->|Hne].
    + rewrite (decide_False (P:=differing b sub f)) by (unfold differing; rewrite En; naive_solver). naive_solver.
    + rewrite (decide_True (P:=differing b sub f)) by (unfold differing; rewrite En; naive_solver). rewrite <- app_assoc. naive_solver.
  - rewrite corroborate_skip, IH by done. rewrite decide_False by (unfold differing; tauto). naive_solver.
Qed.

Lemma corroborate_loop_err b sub fields c0 m0 e :
  corroborate_loop b sub fields c0 m0 = Err e → ∃ f, f ∈ fields ∧ claimed sub f ∧ normalised f (sub f) = None ∧ e = malformed f.
Proof.
  revert c0 m0. induction fields as [|f fields IH]; intros c0 m0; [done|]. destruct (decide (claimed sub f)) as [Hs|Hn].
  - rewrite corroborate_step by done. destruct (normalised f (sub f)) as [n|] eqn:En.
    + intros (f' & Hf & ?)%IH. exists f'. split; [by right|done].
    + intros [= <-]. exists f. split; [by left|done].
  - rewrite corroborate_skip by done. intros (f' & Hf & ?)%IH. exists f'. split; [by right|done].
Qed.

(** Corroboration is exact: the compared fields are those the caller claims, in the fixed order,
    the mismatches are the claimed fields whose normalised value differs from the binding, and
    it agrees when there are none; a refusal is for a claim that is malformed and says no more
    than its name. *)
Theorem corroboration_exact parsed sub :
  let fields := BINDING_HASH_FIELDS ++ BINDING_TEXT_FIELDS in
  match corroborate_binding parsed sub with
  | Ok c =>
      Forall (λ f, claimed sub f → normalised f (sub f) ≠ None) fields ∧
      compared_fields c = filter (claimed sub) fields ∧ mismatches c = filter (differing (binding parsed) sub) fields ∧
      (corroborated c = true ↔ ∀ f, f ∈ fields → claimed sub f → normalised f (sub f) = Some (binding_field (binding parsed) f))
  | Err e => ∃ f, f ∈ fields ∧ claimed sub f ∧ normalised f (sub f) = None ∧ e = malformed f
  end.
Proof.
  intros fields. unfold corroborate_binding. destruct (corroborate_loop _ _ _ _ _) as [[c m]|e] eqn:E.
  - apply corroborate_loop_ok in E as [Hw [= -> ->]]. rewrite bind_Ok. cbn [compared_fields mismatches corroborated].
    change (lit "video_hash" :: lit "metadata_hash" :: lit "proof_id" :: BINDING_TEXT_FIELDS) with fields.
    split_and!; [done..|]. rewrite bool_decide_eq_true. split.
    + intros Hn f Hf Hc. destruct (decide (differing (binding parsed) sub f)) as [Hd|Hd].
      * exfalso. assert (f ∈ filter (differing (binding parsed) sub) fields) as Hin by (by apply list_elem_of_filter).
        rewrite Hn in Hin. by apply elem_of_nil in Hin.
      * unfold differing in Hd. destruct (decide (normalised f (sub f) = Some (binding_field (binding parsed) f))); tauto.
    + intros Hall. destruct (filter _ _) as [|f l] eqn:Ef; [done|].
      assert (f ∈ filter (differing (binding parsed) sub) fields) as Hin by (rewrite Ef; by left).
      apply list_elem_of_filter in Hin as [[Hc Hd] Hin]. destruct Hd. auto.
  - by apply corroborate_loop_err in E.
Qed.

(** * What a refusal says *)

(** The places a refusal can name: fixed names, or an assertion by its number. *)
Definition fixed_places : list str :=
  map lit ["claim_generator"; "spec_version"; "assertions"; "alg"; "harpocrates_binding"; "mapping_version";
           "harpocrates.binding/v1"] ++ REQUIRED_MANIFEST_KEYS ++ BINDING_HASH_FIELDS ++ BINDING_TEXT_FIELDS ++
  map (λ k, lit "harpocrates_binding." ++ k) REQUIRED_BINDING_KEYS.

Definition assertion_suffixes : list str :=
  map lit [""; ".label"; ".data"] ++ map (λ k, lit ".data." ++ k) REQUIRED_BINDING_KEYS.

Definition known_place (f : str) : Prop :=
  f ∈ fixed_places ∨ ∃ i suffix, (i < 64)%nat ∧ suffix ∈ assertion_suffixes ∧
    f = lit "assertions[" ++ dec_str (Z.of_nat i) ++ lit "]" ++ suffix.

Definition says_only (e : c2pa_exn) (ok : str → Prop) : Prop :=
  match e with C2paParseError _ (Some f) => ok f | C2paParseError _ None => True | _ => False end.

Lemma in_binding_order k : k ∈ binding_order ↔ k ∈ REQUIRED_BINDING_KEYS.
Proof. by rewrite binding_order_keys. Qed.
Lemma in_manifest_order k : k ∈ manifest_order ↔ k ∈ REQUIRED_MANIFEST_KEYS.
Proof. by rewrite manifest_order_keys. Qed.

Lemma require_keys_err keys prefix d e : require_keys keys prefix d = Err e → ∃ r k, k ∈ keys ∧ e = C2paParseError r (Some (prefix ++ k)).
Proof.
  unfold require_keys. destruct (list_find _ keys) as [[i k]|] eqn:E; [|done]. intros [= <-].
  apply list_find_Some in E as (Hi & _). apply list_elem_of_lookup_2 in Hi. eauto.
Qed.

Lemma check_hashes_err prefix d fields e :
  check_hashes prefix d fields = Err e → ∃ r f, f ∈ fields ∧ e = C2paParseError r (Some (prefix ++ lit "." ++ f)).
Proof.
  induction fields as [|f fields IH]; cbn [check_hashes]; [done|].
  assert (∀ r, Err (C2paParseError r (Some (prefix ++ lit "." ++ f))) = Err (A:=()) e →
     ∃ r f', f' ∈ f :: fields ∧ e = C2paParseError r (Some (prefix ++ lit "." ++ f'))) as Hhere.
  { intros r [= <-]. exists r, f. split; [by left|done]. }
  destruct (get_or_none f d); try apply Hhere. destruct (hex32_re _); [|apply Hhere].
  intros (r & f' & Hf & ->)%IH. exists r, f'. split; [by right|done].
Qed.

(** A refusal of a binding names the prefix, or one of the required keys under it. *)
Lemma parse_binding_err raw prefix e : parse_binding raw prefix = Err e →
  says_only e (λ f, f = prefix ∨ ∃ k, k ∈ REQUIRED_BINDING_KEYS ∧ f = prefix ++ lit "." ++ k).
Proof.
  assert (∀ k r, k ∈ REQUIRED_BINDING_KEYS →
    says_only (C2paParseError r (Some (prefix ++ lit "." ++ k))) (λ f, f = prefix ∨ ∃ k, k ∈ REQUIRED_BINDING_KEYS ∧ f = prefix ++ lit "." ++ k))
    as Hkey by (intros k r Hk; right; eauto).
  unfold parse_binding. destruct raw as [| | | | | |d]; try (intros [= <-]; by left). cbv zeta.
  intros [He|(u & _ & He)]%bind_err.
  { apply require_keys_err in He as (r & k & Hk & ->). rewrite <- app_assoc. apply Hkey. by apply in_binding_order. }
  case_match; [injection He as <-; apply (Hkey (lit "mapping_version")), (bool_decide_unpack _); by vm_compute|].
  case_match; [injection He as <-; apply (Hkey (lit "mapping_version")), (bool_decide_unpack _); by vm_compute|].
  apply bind_err in He as [He|(u' & _ & He)].
  { apply check_hashes_err in He as (r & k & Hk & ->). apply Hkey. revert k Hk. apply Forall_forall, (bool_decide_unpack _). by vm_compute. }
  case_match; [injection He as <-; apply (Hkey (lit "tier")), (bool_decide_unpack _); by vm_compute|].
  case_match; [injection He as <-; apply (Hkey (lit "network")), (bool_decide_unpack _); by vm_compute|].
  case_match; [injection He as <-; apply (Hkey (lit "contract_id")), (bool_decide_unpack _); by vm_compute|]. done.
Qed.

Lemma known_assertion i suffix : (i < 64)%nat → lit suffix ∈ assertion_suffixes → known_place (place i suffix).
Proof. intros Hi Hs. right. by exists i, (lit suffix). Qed.

Lemma parse_assertions_err idx l e : (idx + length l ≤ 64)%nat → parse_assertions idx l = Err e → says_only e known_place.
Proof.
  assert (∀ i s r, (i < 64)%nat → lit s ∈ assertion_suffixes → Err (C2paParseError r (Some (place i s))) =
      Err (A:=list C2paUnknownAssertion * list C2paHarpocratesBinding) e → says_only e known_place) as Hplace.
  { intros i s r Hi Hs [= <-]. by apply known_assertion. }
  revert idx. induction l as [|v l IH]; intros idx Hl; cbn [parse_assertions]; [done|]. cbn [length] in Hl.
  assert (lit "" ∈ assertion_suffixes ∧ lit ".label" ∈ assertion_suffixes) as [Hs1 Hs2]
    by (split; apply (bool_decide_unpack _); vm_compute; exact I).
  destruct v as [| | | | | |a]; try (apply Hplace; [lia|done]).
  destruct (default _ _) as [| | | |label| |]; try (apply Hplace; [lia|done]).
  case_match; [apply Hplace; [lia|done]|]. case_match; [|apply Hplace; [lia|done]].
  case_match; [apply Hplace; [lia|done]|]. cbv zeta. case_match.
  - intros [He|(bd & _ & He)]%bind_err.
    + apply parse_binding_err in He. destruct e as [r [f|]| |]; cbn [says_only] in *; try done. right.
      destruct He as [->|(k & Hk & ->)].
      * exists idx, (lit ".data"). split_and!; [lia|apply (bool_decide_unpack _); vm_compute; exact I|done].
      * exists idx, (lit ".data." ++ k). split_and!; [lia|apply elem_of_app; right; apply list_elem_of_fmap; eauto|].
        unfold place. rewrite <- !app_assoc. done.
    + apply bind_err in He as [He|([] & _ & He)]; [|done]. apply IH in He; [done|lia].
  - intros [He|([] & _ & He)]%bind_err; [|done]. apply IH in He; [done|lia].
Qed.

Lemma fixed_err {A} (e : c2pa_exn) r (f : string) :
  Err (C2paParseError r (Some (lit f))) = Err (A:=A) e → lit f ∈ fixed_places → says_only e known_place.
Proof. intros [= <-] Hf. by left. Qed.

(** Close a goal with a refusal that names a literal. *)
Local Ltac fixed_name He := apply (fixed_err _ _ _ He), (bool_decide_unpack _); by vm_compute.

Lemma consistent_err a b e : require_consistent_embedded_binding a b = Err e → says_only e known_place.
Proof.
  unfold require_consistent_embedded_binding. intros [He|(u & _ & He)]%bind_err.
  { unfold ensure in He. case_match; [done|]. fixed_name He. }
  destruct (list_find _ _) as [[i f]|] eqn:Ef; [|done]. injection He as <-. left.
  apply list_find_Some in Ef as (Hi & _). apply list_elem_of_lookup_2 in Hi.
  revert f Hi. apply Forall_forall, (bool_decide_unpack _). by vm_compute.
Qed.

Lemma top_binding_err raw e : parse_binding raw (lit "harpocrates_binding") = Err e → says_only e known_place.
Proof.
  intros He%parse_binding_err. destruct e as [r [f|]| |]; cbn [says_only] in *; try done. left.
  destruct He as [->|(k & Hk & ->)]; [apply (bool_decide_unpack _); by vm_compute|].
  unfold fixed_places. rewrite !elem_of_app. do 4 right. apply list_elem_of_fmap. exists k. by rewrite app_assoc.
Qed.

(** A refusal carries nothing of the manifest: a reason of the fixed list and, at most, the name
    of a place, which is one of the fixed names or the number of one of at most 64 assertions. *)
Theorem parse_refusal_is_static raw e : parse_c2pa_manifest raw = Err e →
  e = C2paRaised (ValueError "Exceeds the limit (4300 digits) for integer string conversion") ∨ says_only e known_place.
Proof.
  unfold parse_c2pa_manifest. case_match; [intros [= <-]; by right|].
  destruct (json_loads <$> utf8_decode raw) as [[data|[]]|]; try (intros [= <-]; first [by left|by right]).
  case_match; [intros [= <-]; by right|]. intros He. right. revert He.
  unfold parse_document. destruct data as [| | | | | |d]; try (intros [= <-]; done). cbv zeta.
  intros [He|(u & _ & He)]%bind_err.
  { apply require_keys_err in He as (r & k & Hk & ->). left. apply in_manifest_order in Hk.
    revert k Hk. apply Forall_forall, (bool_decide_unpack _). by vm_compute. }
  case_match; [fixed_name He|]. apply bind_err in He as [He|(sv & _ & He)].
  { unfold parse_spec_version in He. destruct (dict_get _ d) as [[]|]; try done; fixed_name He. }
  destruct (get_or_none (lit "assertions") d) as [| | | | |l|]; try fixed_name He. case_match eqn:Hl; [fixed_name He|].
  apply bind_err in He as [He|([us bs] & _ & He)].
  { apply parse_assertions_err in He; [done|]. apply Z.ltb_ge in Hl. unfold zlen, MAX_ASSERTION_COUNT in Hl. lia. }
  apply bind_err in He as [He|(u' & _ & He)].
  { unfold check_algorithm, ensure in He. destruct (dict_get _ d) as [[]|]; try case_match; try done; fixed_name He. }
  apply bind_err in He as [He|(b & _ & He)]; [by apply top_binding_err in He|].
  apply bind_err in He as [He|(u2 & _ & He)]; [|done].
  destruct bs as [|b' [|]]; [done|by apply consistent_err in He|fixed_name He].
Qed.


(** * The routes *)

(** The values a caller claims, under the names of the fields. *)
Definition claims (vh mh pid tier net cid : pyval) : list (str * pyval) :=
  [(lit "video_hash", vh); (lit "metadata_hash", mh); (lit "proof_id", pid); (lit "tier", tier); (lit "network", net);
   (lit "contract_id", cid)].

Lemma tier_strip t : t ∈ C2PA_TIERS → py_strip t = t ∧ t ≠ [].
Proof.
  unfold C2PA_TIERS. cbn [map]. rewrite !elem_of_cons, elem_of_nil. intros [->|[->|[->|[]]]]; (split; [|done]); apply strip_by_none;
    apply (bool_decide_unpack _); by vm_compute.
Qed.

Lemma export_valid vh mh pid tier net cid gen e : export_c2pa_manifest vh mh pid tier net cid gen = Ok e →
  valid_hex32 vh = true ∧ valid_hex32 mh = true ∧ valid_hex32 pid = true ∧ (∃ t, tier = PStr t ∧ t ∈ C2PA_TIERS) ∧
  blank_value net = false ∧ blank_value cid = false.
Proof.
  unfold export_c2pa_manifest, validate_hex32, validate_text. rewrite !seq_ok, !ensure_ok.
  intros (Hh1 & Hh2 & Hh3 & He). apply bind_ok in He as (t & Ht & He). rewrite !seq_ok, !ensure_ok, !negb_true_iff in He.
  destruct He as (-> & Hn & Hc & _). split_and!; try done. destruct tier; try done. injection Ht as Ht%bool_decide_eq_true. eauto.
Qed.

(** Claims that were exported corroborate a manifest with the exported binding. *)
Lemma corroborate_exported parsed vh mh pid tier net cid gen e :
  export_c2pa_manifest vh mh pid tier net cid gen = Ok e → binding parsed = exported_binding vh mh pid tier net cid →
  corroborate_binding parsed (λ f, get_or_none f (claims vh mh pid tier net cid)) =
  Ok {| corroborated := true; compared_fields := BINDING_HASH_FIELDS ++ BINDING_TEXT_FIELDS; mismatches := [] |}.
Proof.
  intros (Hh1 & Hh2 & Hh3 & (t & -> & Ht) & Hn & Hc)%export_valid Hb. destruct (tier_strip t Ht) as [Hts Hte].
  set (sub := λ f, get_or_none f _). set (xb := exported_binding _ _ _ _ _ _) in *.
  assert (∀ f v, sub f = v → v ≠ PNone → normalised f v = Some (binding_field xb f) →
    claimed sub f ∧ ¬ differing xb sub f ∧ normalised f (sub f) ≠ None) as Hgo.
  { intros f v <- Hcl Hnm. unfold differing. rewrite Hnm. split_and!; [done|tauto|done]. }
  assert (∀ v, valid_hex32 v = true → v ≠ PNone) as Hhex by (by intros []). assert (∀ v, blank_value v = false → v ≠ PNone) as Htxt by (by intros []).
  assert (Forall (λ f, claimed sub f ∧ ¬ differing xb sub f ∧ normalised f (sub f) ≠ None) (BINDING_HASH_FIELDS ++ BINDING_TEXT_FIELDS)) as Hall.
  { unfold BINDING_HASH_FIELDS, BINDING_TEXT_FIELDS. cbn [map app]. rewrite !Forall_cons, Forall_nil. refine (conj _ (conj _ (conj _ (conj _ (conj _ (conj _ I)))))).
    - apply (Hgo _ vh); [done|auto|]. change ((if valid_hex32 vh then Some (py_lower (text_of vh)) else None) = Some (py_lower (text_of vh))). by rewrite Hh1.
    - apply (Hgo _ mh); [done|auto|]. change ((if valid_hex32 mh then Some (py_lower (text_of mh)) else None) = Some (py_lower (text_of mh))). by rewrite Hh2.
    - apply (Hgo _ pid); [done|auto|]. change ((if valid_hex32 pid then Some (py_lower (text_of pid)) else None) = Some (py_lower (text_of pid))). by rewrite Hh3.
    - apply (Hgo _ (PStr t)); [done|done|]. change ((if blank_value (PStr t) then None else Some (py_strip t)) = Some t). by rewrite nonblank_str, Hts.
    - apply (Hgo _ net); [done|auto|]. change ((if blank_value net then None else Some (py_strip (text_of net))) = Some (py_strip (text_of net))). by rewrite Hn.
    - apply (Hgo _ cid); [done|auto|]. change ((if blank_value cid then None else Some (py_strip (text_of cid))) = Some (py_strip (text_of cid))). by rewrite Hc. }
  unfold corroborate_binding. rewrite Hb. rewrite (proj2 (corroborate_loop_ok xb sub _ [] [] (BINDING_HASH_FIELDS ++ BINDING_TEXT_FIELDS, []))); [done|].
  rewrite !app_nil_l. split; [eapply Forall_impl; [exact Hall|]; naive_solver|]. f_equal; symmetry.
  - apply filter_all. eapply Forall_impl; [exact Hall|]. naive_solver.
  - apply filter_none. eapply Forall_impl; [exact Hall|]. naive_solver.
Qed.

(** C32. An export whose generator is not blank, whose network, contract and generator hold no
    surrogates and whose sizes are modest (network and contract at most 2000 characters together,
    generator at most 10000), submitted to the import route as text together with the values it
    was made from, is accepted with every field compared and verified; the digests may be in
    either case.  (With a blank generator the parser refuses the export.) *)
Theorem exported_evidence_imports rid vh mh pid tier net cid gen e g :
  export_c2pa_manifest vh mh pid tier net cid gen = Ok e → generator_text gen = Ok g → g ≠ [] → modest net cid g →
  ∃ parsed, binding parsed = exported_binding vh mh pid tier net cid ∧
    c2pa_import rid true (PDict [(lit "manifest", PStr (json_dumps true (PDict (ex_manifest e))));
                                 (lit "expected", PDict (claims vh mh pid tier net cid))]) =
    Ok (import_answer rid parsed
          (Some {| corroborated := true; compared_fields := BINDING_HASH_FIELDS ++ BINDING_TEXT_FIELDS; mismatches := [] |})).
Proof.
  intros He Hg Hne (Hns & Hcs & Hgs & Hn & Hgl). pose proof He as (g' & raw & Hg' & Hb & Hm & Hr & Hd)%export_inv.
  assert (g' = g) as -> by congruence. set (b := exported_binding _ _ _ _ _ _) in *.
  pose proof (generator_stripped _ _ Hg) as Hst. pose proof (strip_scalar _ Hns) as Hns'. pose proof (strip_scalar _ Hcs) as Hcs'.
  pose proof (zlen_strip_by py_space (text_of net)). pose proof (zlen_strip_by py_space (text_of cid)).
  destruct (parse_exported g b) as [_ Hp]; [done..|cbn; unfold py_strip; lia|done|]. rewrite decide_False in Hp by done.
  eexists. split; [|rewrite Hm; set (text := json_dumps true _) in *; unfold c2pa_import; cbn [negb]].
  2: { change (body_or_empty _) with (PDict [(lit "manifest", PStr text); (lit "expected", PDict (claims vh mh pid tier net cid))]).
    set (body := PDict _). change (body_has (lit "manifest") body) with (Ok (E:=exn) true).
    change (body_item (lit "manifest") body) with (Ok (E:=exn) (PStr text)).
    change (body_get (lit "expected") body) with (Ok (E:=exn) (PDict (claims vh mh pid tier net cid))).
    rewrite bind_Ok. cbn [negb]. rewrite bind_Ok. cbn [manifest_bytes].
    assert (utf8_encode text = Some text) as -> by (apply utf8_ascii_text; rewrite plain_canon; by apply manifest_plain).
    rewrite bind_Ok, Hp, bind_Ok. unfold import_expected. erewrite corroborate_exported by done. cbn [corroborated]. done. }
  done.
Qed.

(** A set of claims that names none of the six fields is answered as verified, with nothing
    compared. *)
Theorem empty_claims_count_as_verified rid parsed e :
  Forall (λ f, dict_get f e = None) (BINDING_HASH_FIELDS ++ BINDING_TEXT_FIELDS) →
  import_expected rid parsed (PDict e) =
  Ok (import_answer rid parsed (Some {| corroborated := true; compared_fields := []; mismatches := [] |})).
Proof.
  intros Hn. unfold import_expected, corroborate_binding.
  assert (∀ f, f ∈ BINDING_HASH_FIELDS ++ BINDING_TEXT_FIELDS → ¬ claimed (λ f, get_or_none f e) f) as Hc.
  { intros f Hf. unfold claimed, get_or_none. rewrite Forall_forall in Hn. rewrite Hn by done. cbn [default from_option id]. tauto. }
  rewrite (proj2 (corroborate_loop_ok _ _ _ [] [] ([], []))); [done|]. rewrite !app_nil_l.
  split; [apply Forall_forall; naive_solver|]. f_equal; symmetry; apply filter_none, Forall_forall; unfold differing; naive_solver.
Qed.

End proofs.

(** * Witnesses *)

#[local] Instance sample_floats : FloatText := λ s, PyFloat s s (Err OverflowError) false.
#[local] Existing Instance plain_unicode.
#[local] Instance sample_order : SetOrder :=
  {| manifest_order := REQUIRED_MANIFEST_KEYS; binding_order := REQUIRED_BINDING_KEYS;
     manifest_order_keys := reflexivity _; binding_order_keys := reflexivity _ |}.

Definition sample_hash : pyval := PStr (lit "AB00cdef0123456789abcdef0123456789abcdef0123456789abcdef01234567").
Notation sample_run := (export_c2pa_manifest sample_hash sample_hash sample_hash (PStr (lit "seal"))
  (PStr (lit " Test SDF Network ; September 2015 ")) (PStr (lit "CAAA"))).
Notation sample_export gen := (from_ok {| ex_manifest := []; ex_digest := [] |} (sample_run gen)).

Lemma sample_export_ok : is_ok (sample_run PNone) = true ∧ is_ok (sample_run (PStr (lit "  "))) = true.
Proof. split; vm_compute; reflexivity. Qed.

Lemma sample_modest g : forallb scalar g = true → zlen g ≤ 100 →
  modest (PStr (lit " Test SDF Network ; September 2015 ")) (PStr (lit "CAAA")) g.
Proof. intros Hg Hl. unfold modest. split_and!; [by vm_compute|by vm_compute|done|by vm_compute|lia]. Qed.

Lemma exported_manifest_round_trips_witness :
  ∃ raw parsed, c2pa_canonical_json (PDict (ex_manifest (sample_export PNone))) = Ok raw ∧
    ex_digest (sample_export PNone) = sha256_hex raw ∧ parse_c2pa_manifest raw = Ok parsed ∧
    binding parsed = exported_binding sample_hash sample_hash sample_hash (PStr (lit "seal"))
      (PStr (lit " Test SDF Network ; September 2015 ")) (PStr (lit "CAAA")) ∧
    claim_generator parsed = lit "harpocrates" ∧ unknown_assertions parsed = [] ∧ verify_round_trip (sample_export PNone) = Ok true.
Proof.
  apply (exported_manifest_round_trips sample_hash sample_hash sample_hash (PStr (lit "seal"))
    (PStr (lit " Test SDF Network ; September 2015 ")) (PStr (lit "CAAA")) PNone (sample_export PNone) (lit "harpocrates")).
  - apply from_ok_spec. exact (proj1 sample_export_ok).
  - vm_compute. reflexivity.
  - discriminate.
  - apply sample_modest; [reflexivity|discriminate].
Defined.

Lemma blank_generator_export_unreadable_witness :
  ∃ raw, c2pa_canonical_json (PDict (ex_manifest (sample_export (PStr (lit "  "))))) = Ok raw ∧
    parse_c2pa_manifest raw = Err (C2paParseError INVALID_TYPE (Some (lit "claim_generator"))) ∧
    verify_round_trip (sample_export (PStr (lit "  "))) = Ok false.
Proof.
  apply (blank_generator_export_unreadable sample_hash sample_hash sample_hash (PStr (lit "seal"))
    (PStr (lit " Test SDF Network ; September 2015 ")) (PStr (lit "CAAA")) (PStr (lit "  "))).
  - apply from_ok_spec. exact (proj2 sample_export_ok).
  - vm_compute. reflexivity.
  - apply sample_modest; [reflexivity|discriminate].
Defined.

Lemma exported_evidence_imports_witness :
  ∃ parsed, binding parsed = exported_binding sample_hash sample_hash sample_hash (PStr (lit "seal"))
      (PStr (lit " Test SDF Network ; September 2015 ")) (PStr (lit "CAAA")) ∧
    c2pa_import (lit "r") true
      (PDict [(lit "manifest", PStr (json_dumps true (PDict (ex_manifest (sample_export PNone)))));
              (lit "expected", PDict (claims sample_hash sample_hash sample_hash (PStr (lit "seal"))
                 (PStr (lit " Test SDF Network ; September 2015 ")) (PStr (lit "CAAA"))))]) =
    Ok (import_answer (lit "r") parsed
          (Some {| corroborated := true; compared_fields := BINDING_HASH_FIELDS ++ BINDING_TEXT_FIELDS; mismatches := [] |})).
Proof.
  apply (exported_evidence_imports (lit "r") sample_hash sample_hash sample_hash (PStr (lit "seal"))
    (PStr (lit " Test SDF Network ; September 2015 ")) (PStr (lit "CAAA")) PNone (sample_export PNone) (lit "harpocrates")).
  - apply from_ok_spec. exact (proj1 sample_export_ok).
  - vm_compute. reflexivity.
  - discriminate.
  - apply sample_modest; [reflexivity|discriminate].
Defined.

(** The canonical bytes of the sample export. *)
Definition sample_manifest : bytes := Eval vm_compute in json_dumps true (PDict (ex_manifest (sample_export PNone))).
Notation sample_parsed := (from_ok {| claim_generator := []; spec_version := None; unknown_assertions := []; trust_status := PARSE_FAILED;
  binding := exported_binding PNone PNone PNone PNone PNone PNone |} (parse_c2pa_manifest sample_manifest)).

Lemma sample_parses : is_ok (parse_c2pa_manifest sample_manifest) = true.
Proof. vm_compute. reflexivity. Qed.

Lemma imported_binding_agrees_witness :
  binding_ok (binding sample_parsed) ∧ (∃ assertions, unknown_assertions sample_parsed = omap other_assertion assertions) ∧
  trust_status sample_parsed = SIGNATURE_NOT_CHECKED.
Proof.
  destruct (imported_binding_agrees sample_manifest sample_parsed) as (d & l & _ & _ & _ & _ & Hb & _ & _ & _ & Hu & Ht).
  - apply from_ok_spec. exact sample_parses.
  - split; [exact Hb|split; [exists l; exact Hu|exact Ht]].
Defined.

Lemma parse_refusal_is_static_witness :
  C2paParseError NOT_OBJECT None = C2paRaised (ValueError "Exceeds the limit (4300 digits) for integer string conversion") ∨
  says_only (C2paParseError NOT_OBJECT None) known_place.
Proof. apply (parse_refusal_is_static (lit "[]")). vm_compute. reflexivity. Defined.

Lemma empty_claims_count_as_verified_witness :
  import_expected (lit "r") sample_parsed (PDict [(lit "videoHash", sample_hash)]) =
  Ok (import_answer (lit "r") sample_parsed (Some {| corroborated := true; compared_fields := []; mismatches := [] |})).
Proof. apply (empty_claims_count_as_verified (lit "r") sample_parsed [(lit "videoHash", sample_hash)]). repeat constructor. Defined.

(** A digest may be followed by a newline: both the exporter and the parser take it. *)
Example newline_digest_accepted :
  let h := PStr (lit "0123456789abcdef0123456789abcdef0123456789abcdef0123456789abcdef" ++ [10]) in
  valid_hex32 h = true ∧ is_ok (export_c2pa_manifest h h h (PStr (lit "seal")) (PStr (lit "n")) (PStr (lit "c")) PNone) = true.
Proof. split; vm_compute; reflexivity. Qed.

(** Two routes let an exception through: a tier that is a list, a generator that is a number,
    and a manifest text with a lone surrogate. *)
Example c2pa_routes_raise :
  let body tier gen := PDict (claims sample_hash sample_hash sample_hash tier (PStr (lit "n")) (PStr (lit "c")) ++ [(lit "claim_generator", gen)]) in
  c2pa_export (lit "r") true (body (PList []) PNone) = Err (TypeError "unhashable type") ∧
  c2pa_export (lit "r") true (body (PStr (lit "seal")) (PInt 5)) = Err AttributeError ∧
  c2pa_import (lit "r") true (PDict [(lit "manifest", PStr [55296])]) = Err UnicodeError.
Proof. split_and!; vm_compute; reflexivity. Qed.
