(* ===== verification/Rfc3161Chain.v ===== *)
(** Certificate chains of RFC 3161 time stamps: [rfc3161_chain.py].  A chain of base64 DER
    certificates, leaf first, is decoded within bounds and accepted when every certificate is
    valid at the time, none is revoked, each is signed by the next and the last is, or was issued
    by, a configured root.

    What the X.509 library says of a certificate (its names, window, serial, algorithm, and
    whether one key signed another certificate) and ISO dates are parameters.

    Shown: a chain is valid exactly when it has a path to a configured root; a result is always
    one of five statuses with a code of the fixed list exactly when it failed; what is read is
    bounded; more trust roots never make a chain that ends in one of them invalid. *)
From Stdlib Require Import ZArith Lia.
From stdpp Require Import base decidable strings numbers list.
From S2P Require Import Prelude PyStr Json PyVal Codec Sha256.

Open Scope Z_scope.

#[local] Arguments lit _ : simpl never.

Definition MAX_CERTS_PER_CHAIN : Z := 8.
Definition MAX_CERT_DER_BYTES : Z := 8192.
Definition MAX_CHAIN_TOTAL_BYTES : Z := 32768.
Definition MAX_TRUST_STORE_ROOTS : Z := 64.
Definition SUPPORTED_HASH_OIDS : list str :=
  map lit ["1.2.840.113549.1.1.11"; "1.2.840.113549.1.1.12"; "1.2.840.113549.1.1.13";
           "1.2.840.10045.4.3.2"; "1.2.840.10045.4.3.3"; "1.2.840.10045.4.3.4"].

Inductive ChainErrorCode : Type :=
  | DEPENDENCY_FAILURE | EMPTY_CHAIN | OVERSIZED_CHAIN | MALFORMED_CERTIFICATE | CHAIN_UNSUPPORTED_ALGORITHM
  | CHAIN_ORDER_INVALID | EXPIRED_CERTIFICATE | NOT_YET_VALID | REVOKED_CERTIFICATE | UNTRUSTED_ROOT | SIGNATURE_INVALID.

Definition chain_code_text (c : ChainErrorCode) : str :=
  lit match c with
      | DEPENDENCY_FAILURE => "dependency_failure" | EMPTY_CHAIN => "empty_chain" | OVERSIZED_CHAIN => "oversized_chain"
      | MALFORMED_CERTIFICATE => "malformed_certificate" | CHAIN_UNSUPPORTED_ALGORITHM => "unsupported_algorithm"
      | CHAIN_ORDER_INVALID => "chain_order_invalid" | EXPIRED_CERTIFICATE => "expired_certificate"
      | NOT_YET_VALID => "not_yet_valid" | REVOKED_CERTIFICATE => "revoked_certificate" | UNTRUSTED_ROOT => "untrusted_root"
      | SIGNATURE_INVALID => "signature_invalid"
      end.

Record ChainValidationResult := {
  chain_ok : bool;
  chain_status : string;
  error_code : option ChainErrorCode;
  error_message : option string;
  leaf_fingerprint : option str;
  root_fingerprint : option str;
  chain_depth : Z;
}.

Record TrustStore := { root_der_list : list bytes; revoked_serials_hex : list str }.

(** The kinds of public keys the code tells apart. *)
Inductive signing_key := RsaKey | EcKey | OtherKey.

(** What the X.509 library tells of a certificate, and ISO dates. *)
Class X509 := {
  cert : Type;
  load_der_x509_certificate : bytes → option cert;
  signature_algorithm_oid : cert → str;
  not_valid_before : cert → Z;
  not_valid_after : cert → Z;
  serial_number : cert → Z;
  issuer : cert → bytes;
  subject : cert → bytes;
  key_kind : cert → signing_key;
  (** [pub.verify(...)] of the key of the first certificate on the signature, the signed bytes and
      the hash algorithm of the second returns: with PKCS 1 v1.5 padding, and with ECDSA *)
  pkcs1v15_accepts : cert → cert → bool;
  ecdsa_accepts : cert → cert → bool;
  (** [datetime.fromisoformat(s)], in UTC when it names no zone *)
  iso_instant : str → option Z;
}.

(** [_verify_signature]: the public key of [k] verifies the signature on [c]; whatever is raised
    counts as no. *)
Definition verifies `{X509} (k c : cert) : bool :=
  match key_kind k with RsaKey => pkcs1v15_accepts k c | EcKey => ecdsa_accepts k c | OtherKey => false end.

Definition fingerprint_der (der : bytes) : str := sha256_hex der.

(** [_fail] *)
Definition fail_chain (status : string) (code : ChainErrorCode) (message : string) (leaf_fp root_fp : option str) (depth : Z) :
    ChainValidationResult :=
  {| chain_ok := false; chain_status := status; error_code := Some code; error_message := Some message;
     leaf_fingerprint := leaf_fp; root_fingerprint := root_fp; chain_depth := depth |}.

Definition early {A} (status : string) (code : ChainErrorCode) (message : string) : result ChainValidationResult A :=
  Err (fail_chain status code message None None 0).

(** [TrustStore.root_by_fingerprint] *)
Definition root_by_fingerprint (store : TrustStore) : list (str * bytes) :=
  foldl (λ d der, dict_set (fingerprint_der der) der d) [] (root_der_list store).

(** [format(n, "x")] *)
Definition serial_text (n : Z) : str :=
  (if n <? 0 then [45] else []) ++ (hex_digit <$> digits 16 (Z.abs n)).

Section chain.
Context `{X509}.

(** The loop of [_decode_cert_entries]. *)
Fixpoint decode_entries (entries : list pyval) (total : Z) : result ChainValidationResult (list bytes) :=
  match entries with
  | [] => Ok []
  | PStr ((_ :: _) as raw) :: entries =>
      match b64decode true raw with
      | None => early "invalid" MALFORMED_CERTIFICATE "certificate entry is not valid base64"
      | Some der =>
          if MAX_CERT_DER_BYTES <? zlen der then early "invalid" OVERSIZED_CHAIN "certificate exceeds 8192 bytes" else
          let total := total + zlen der in
          if MAX_CHAIN_TOTAL_BYTES <? total then early "invalid" OVERSIZED_CHAIN "certificate chain exceeds 32768 bytes total" else
          ders ← decode_entries entries total;
          Ok (der :: ders)
      end
  | _ :: _ => early "invalid" MALFORMED_CERTIFICATE "certificate entry must be a non-empty base64 string"
  end.

Definition decode_cert_entries (entries : list pyval) : result ChainValidationResult (list bytes) :=
  match entries with
  | [] => early "invalid" EMPTY_CHAIN "certificate chain is empty"
  | _ =>
      if MAX_CERTS_PER_CHAIN <? zlen entries then early "invalid" OVERSIZED_CHAIN "certificate chain exceeds 8 certificates"
      else decode_entries entries 0
  end.

Definition load_cert (der : bytes) : result ChainValidationResult cert :=
  match load_der_x509_certificate der with
  | Some c => Ok c
  | None => early "invalid" MALFORMED_CERTIFICATE "certificate DER could not be parsed"
  end.

Definition supported_algorithm (c : cert) : bool := bool_decide (signature_algorithm_oid c ∈ SUPPORTED_HASH_OIDS).

(** The loop that loads the certificates; [depth] is how many were loaded. *)
Fixpoint load_all (leaf_fp : str) (depth : Z) (ders : list bytes) : result ChainValidationResult (list cert) :=
  match ders with
  | [] => Ok []
  | der :: ders =>
      c ← load_cert der;
      ensure (supported_algorithm c)
        (fail_chain "untrusted" CHAIN_UNSUPPORTED_ALGORITHM "certificate uses an unsupported signature algorithm" (Some leaf_fp) None depth);;
      cs ← load_all leaf_fp (depth + 1) ders;
      Ok (c :: cs)
  end.

(** [_validity_at], with the fingerprints and the depth of the result it becomes. *)
Definition validity_at (leaf_fp : str) (root_fp : option str) (depth at_time : Z) (c : cert) : result ChainValidationResult unit :=
  if at_time <? not_valid_before c then
    Err (fail_chain "invalid" NOT_YET_VALID "certificate is not yet valid at evaluation time" (Some leaf_fp) root_fp depth)
  else if not_valid_after c <? at_time then
    Err (fail_chain "expired" EXPIRED_CERTIFICATE "certificate expired at evaluation time" (Some leaf_fp) root_fp depth)
  else Ok ().

Fixpoint for_each {A} (f : A → result ChainValidationResult unit) (l : list A) : result ChainValidationResult unit :=
  match l with [] => Ok () | x :: l => f x;; for_each f l end.

Definition check_revoked (store : TrustStore) (leaf_fp : str) (depth : Z) (c : cert) : result ChainValidationResult unit :=
  ensure (negb (bool_decide (serial_text (serial_number c) ∈ revoked_serials_hex store)))
    (fail_chain "invalid" REVOKED_CERTIFICATE "certificate serial is present in revocation set" (Some leaf_fp) None depth).

(** The loop over neighbours. *)
Fixpoint check_links (leaf_fp : str) (depth : Z) (cs : list cert) : result ChainValidationResult unit :=
  match cs with
  | c :: ((k :: _) as rest) =>
      ensure (bool_decide (issuer c = subject k))
        (fail_chain "invalid" CHAIN_ORDER_INVALID "certificate issuer/subject linkage is broken" (Some leaf_fp) None depth);;
      ensure (verifies k c)
        (fail_chain "invalid" SIGNATURE_INVALID "certificate signature verification failed" (Some leaf_fp) None depth);;
      check_links leaf_fp depth rest
  | _ => Ok ()
  end.

(** The loop over the configured roots for one that issued the last certificate. *)
Fixpoint find_root (leaf_fp : str) (depth at_time : Z) (last : cert) (roots : list (str * bytes)) :
    result ChainValidationResult str :=
  match roots with
  | [] => Err (fail_chain "untrusted" UNTRUSTED_ROOT "certificate chain does not terminate at a configured trust root" (Some leaf_fp) None depth)
  | (root_fp, root_der) :: roots =>
      match load_der_x509_certificate root_der with
      | Some r =>
          if bool_decide (issuer last = subject r) && verifies r last
          then validity_at leaf_fp (Some root_fp) depth at_time r;; Ok root_fp
          else find_root leaf_fp depth at_time last roots
      | None => find_root leaf_fp depth at_time last roots
      end
  end.

Definition resolve_anchor (store : TrustStore) (leaf_fp : str) (depth at_time : Z) (last : cert) (last_der : bytes) :
    result ChainValidationResult str :=
  let root_candidates := root_by_fingerprint store in
  let last_fp := fingerprint_der last_der in
  if dict_has last_fp root_candidates then
    ensure (negb (bool_decide (issuer last = subject last)) || verifies last last)
      (fail_chain "invalid" SIGNATURE_INVALID "trust anchor self-signature verification failed" (Some leaf_fp) (Some last_fp) depth);;
    Ok last_fp
  else find_root leaf_fp depth at_time last root_candidates.

(** The steps after decoding; a chain that decodes is not empty. *)
Definition validate_ders (store : TrustStore) (at_time : Z) (ders : list bytes) : result ChainValidationResult ChainValidationResult :=
  let leaf_fp := fingerprint_der (default [] (head ders)) in
  cs ← load_all leaf_fp 0 ders;
  let depth := zlen cs in
  for_each (validity_at leaf_fp None depth at_time) cs;;
  for_each (check_revoked store leaf_fp depth) cs;;
  check_links leaf_fp depth cs;;
  match last cs with
  | Some c =>
      root_fp ← resolve_anchor store leaf_fp depth at_time c (default [] (last ders));
      Ok {| chain_ok := true; chain_status := "valid"; error_code := None; error_message := None;
            leaf_fingerprint := Some leaf_fp; root_fingerprint := Some root_fp; chain_depth := depth |}
  | None => early "invalid" EMPTY_CHAIN "certificate chain is empty"
  end.

Definition returned (r : result ChainValidationResult ChainValidationResult) : ChainValidationResult :=
  match r with Ok x | Err x => x end.

Definition validate_rfc3161_certificate_chain (crypto_available : bool) (store : TrustStore) (at_time : Z) (chain_b64 : list pyval) :
    ChainValidationResult :=
  if negb crypto_available then
    fail_chain "unverified" DEPENDENCY_FAILURE "cryptography dependency unavailable for chain validation" None None 0
  else returned (ders ← decode_cert_entries chain_b64; validate_ders store at_time ders).

(** * Building the trust store *)

Section store.
Context `{Unicode}.

(** The loop over the roots. *)
Fixpoint decode_roots (roots : list pyval) : result exn (list bytes) :=
  match roots with
  | [] => Ok []
  | PStr ((_ :: _) as raw) :: roots =>
      match b64decode true raw with
      | None => Err (ValueError "not valid base64")
      | Some der =>
          if MAX_CERT_DER_BYTES <? zlen der then Err (ValueError "trust root exceeds maximum certificate size")
          else ders ← decode_roots roots; Ok (der :: ders)
      end
  | _ :: _ => Err (ValueError "trust root must be a non-empty base64 string")
  end.

(** [s.lower().lstrip("0x") for s in serials if s]: leading zeros and x's are dropped. *)
Fixpoint revoked_serials (serials : list pyval) : result exn (list str) :=
  match serials with
  | [] => Ok []
  | s :: serials =>
      if truthy s then
        match s with
        | PStr t => l ← revoked_serials serials; Ok (drop_while (λ c, (c =? 48) || (c =? 120)) (py_lower t) :: l)
        | _ => Err AttributeError
        end
      else revoked_serials serials
  end.

Definition trust_store_from_b64_roots (roots serials : list pyval) : result exn TrustStore :=
  ders ← decode_roots roots;
  revoked ← revoked_serials serials;
  ensure (zlen ders <=? MAX_TRUST_STORE_ROOTS) (ValueError "trust store exceeds maximum root count");;
  Ok {| root_der_list := ders; revoked_serials_hex := revoked |}.

(** [doc.get("schemaVersion") != 1] *)
Definition is_one (v : pyval) : bool :=
  match v with
  | PInt z => z =? 1
  | PBool b => b
  | PFloat f => bool_decide (fl_repr f = lit "1.0")
  | _ => false
  end.

(** [datetime.fromisoformat(raw.replace("Z", "+00:00"))] *)
Definition document_time (raw : str) : option Z := iso_instant (raw ≫= λ c, if c =? 90 then lit "+00:00" else [c]).

(** The revoked serials, a text being taken character by character and a dictionary by its keys. *)
Definition serial_items (v : pyval) : option (list pyval) :=
  match v with
  | PList l => Some l
  | PStr s => Some (map (λ c, PStr [c]) s)
  | PDict d => Some (map (λ p, PStr p.1) d)
  | _ => if truthy v then None else Some []
  end.

Definition validate_chain_document (crypto_available : bool) (now : Z) (doc : pyval) : ChainValidationResult :=
  let malformed (message : string) := fail_chain "invalid" MALFORMED_CERTIFICATE message None None 0 in
  match doc with
  | PDict d =>
      if negb (is_one (get_or_none (lit "schemaVersion") d)) then malformed "schemaVersion must be 1" else
      match get_or_none (lit "chain") d, get_or_none (lit "trustRoots") d with
      | PList chain, PList roots =>
          match get_or_none (lit "atTime") d with
          | (PNone | PStr _) as raw_at =>
              match match raw_at with PStr s => document_time s | _ => Some now end with
              | None => malformed "atTime is not valid ISO-8601"
              | Some at_time =>
                  match serial_items (get_or_none (lit "revokedSerials") d) with
                  | None => malformed "trustRoots could not be decoded"
                  | Some serials =>
                      match trust_store_from_b64_roots roots serials with
                      | Err _ => malformed "trustRoots could not be decoded"
                      | Ok store => validate_rfc3161_certificate_chain crypto_available store at_time chain
                      end
                  end
              end
          | _ => malformed "atTime must be an ISO-8601 string"
          end
      | _, _ => malformed "chain and trustRoots must be arrays"
      end
  | _ => malformed "document must be a JSON object"
  end.
End store.
End chain.

(** * Facts *)

Lemma root_by_fingerprint_has store fp :
  dict_has fp (root_by_fingerprint store) = true ↔ ∃ der, der ∈ root_der_list store ∧ fingerprint_der der = fp.
Proof.
  unfold root_by_fingerprint.
  enough (∀ l d, dict_has fp (foldl (λ d der, dict_set (fingerprint_der der) der d) d l) = true ↔
            dict_has fp d = true ∨ ∃ der, der ∈ l ∧ fingerprint_der der = fp) as Hgo.
  { rewrite Hgo. cbn. naive_solver. }
  induction l as [|x l IH]; intros d; cbn [foldl].
  { split; [by left|]. intros [?|(der & Hin & _)]; [done|]. by apply elem_of_nil in Hin. }
  rewrite IH. unfold dict_has at 1. rewrite dict_get_set.
  setoid_rewrite elem_of_cons. destruct (decide (fp = fingerprint_der x)) as [->|Hne].
  - naive_solver.
  - fold (dict_has fp d). naive_solver.
Qed.

Section facts.
Context `{X509}.

Lemma for_each_ok {A} (f : A → result ChainValidationResult unit) l : for_each f l = Ok () ↔ Forall (λ x, f x = Ok ()) l.
Proof. induction l as [|x l IH]; cbn [for_each]; [done|]. by rewrite seq_ok, IH, Forall_cons. Qed.

Lemma validity_at_ok leaf_fp root_fp depth at_time c :
  validity_at leaf_fp root_fp depth at_time c = Ok () ↔ not_valid_before c ≤ at_time ≤ not_valid_after c.
Proof. unfold validity_at. destruct (Z.ltb_spec at_time (not_valid_before c)), (Z.ltb_spec (not_valid_after c) at_time); split; (done || lia). Qed.

Lemma load_all_ok leaf_fp depth ders cs : load_all leaf_fp depth ders = Ok cs ↔
  Forall2 (λ der c, load_der_x509_certificate der = Some c ∧ supported_algorithm c = true) ders cs.
Proof.
  revert depth cs. induction ders as [|der ders IH]; intros depth cs; cbn [load_all].
  { split; [intros [= <-]; constructor|]. by inversion 1. }
  rewrite bind_ok. unfold load_cert. split.
  - intros (c & Hc & Hk). destruct (load_der_x509_certificate der) as [c'|] eqn:El; [|done]. injection Hc as ->.
    apply seq_ok in Hk as [Ha%ensure_ok Hk]. apply bind_ok in Hk as (cs' & Hcs & [= <-]). apply IH in Hcs. by constructor.
  - inversion 1 as [|x c l1 cs' [Hl Ha] Hrest]; subst. exists c. rewrite Hl. split; [done|].
    apply seq_ok. rewrite ensure_ok. split; [done|]. apply bind_ok. exists cs'. split; [by apply IH|done].
Qed.

(** Each certificate is issued and signed by the next. *)
Definition linked (cs : list cert) : Prop :=
  ∀ i c k, cs !! i = Some c → cs !! S i = Some k → issuer c = subject k ∧ verifies k c = true.

Lemma check_links_ok leaf_fp depth cs : check_links leaf_fp depth cs = Ok () ↔ linked cs.
Proof.
  induction cs as [|c [|k cs] IH]; cbn [check_links].
  - split; [intros _ i ? ? Hi; by destruct i|done].
  - split; [intros _ [|i] ? ? Hi Hk; [done|by destruct i]|done].
  - rewrite !seq_ok, !ensure_ok, bool_decide_eq_true. change (check_links leaf_fp depth (k :: cs) = Ok ()) with
      (check_links leaf_fp depth (k :: cs) = Ok ()). rewrite IH. split.
    + intros (Hi & Hs & Hl) [|i] c' k' Hc Hk; [|by apply (Hl i)]. cbn in Hc, Hk. by simplify_eq.
    + intros Hl. pose proof (Hl 0%nat c k eq_refl eq_refl) as [? ?]. split_and!; [done..|]. intros i. apply (Hl (S i)).
Qed.

(** The configured roots that issued a certificate. *)
Definition issued_by (c : cert) (root : str * bytes) : Prop :=
  match load_der_x509_certificate root.2 with
  | Some r => issuer c = subject r ∧ verifies r c = true
  | None => False
  end.
#[local] Instance issued_by_dec c root : Decision (issued_by c root).
Proof. unfold issued_by. destruct (load_der_x509_certificate root.2); apply _. Defined.

Definition in_window (at_time : Z) (der : bytes) : Prop :=
  ∃ r, load_der_x509_certificate der = Some r ∧ not_valid_before r ≤ at_time ≤ not_valid_after r.

Lemma find_root_ok leaf_fp depth at_time c roots fp : find_root leaf_fp depth at_time c roots = Ok fp ↔
  ∃ i der, list_find (issued_by c) roots = Some (i, (fp, der)) ∧ in_window at_time der.
Proof.
  induction roots as [|[rfp rder] roots IH]; cbn [find_root list_find].
  { split; [done|]. naive_solver. }
  assert ((∃ i der, prod_map S id <$> list_find (issued_by c) roots = Some (i, (fp, der)) ∧ in_window at_time der) ↔
          ∃ i der, list_find (issued_by c) roots = Some (i, (fp, der)) ∧ in_window at_time der) as Hskip.
  { split.
    - intros (i & der & Hi & Hw). apply fmap_Some in Hi as ([j x] & Hj & [= -> <-]). eauto.
    - intros (i & der & Hi & Hw). exists (S i), der. rewrite Hi. eauto. }
  destruct (decide (issued_by c (rfp, rder))) as [Hi|Hn].
  - unfold issued_by in Hi. cbn [snd] in Hi. destruct (load_der_x509_certificate rder) as [r|] eqn:El; [|done]. destruct Hi as [Hi Hv].
    rewrite bool_decide_eq_true_2, Hv by done. cbn [andb]. rewrite seq_ok, validity_at_ok. unfold in_window. split.
    + intros [Hw [= <-]]. exists 0%nat, rder. eauto.
    + intros (i & der & Heq & r' & Hr' & Hw). injection Heq as <- <- <-. rewrite El in Hr'. injection Hr' as <-. auto.
  - rewrite Hskip, <- IH. unfold issued_by in Hn. cbn [snd] in Hn. destruct (load_der_x509_certificate rder) as [r|]; [|done].
    assert (bool_decide (issuer c = subject r) && verifies r c = false) as ->; [|done].
    apply not_true_iff_false. rewrite andb_true_iff, bool_decide_eq_true. tauto.
Qed.

(** * Valid chains *)

(** The last certificate is a configured root, self-signed if it names itself, or the first of
    the configured roots that issued it is within its window. *)
Definition anchored (store : TrustStore) (at_time : Z) (c : cert) (der : bytes) : Prop :=
  ((∃ root, root ∈ root_der_list store ∧ fingerprint_der root = fingerprint_der der) ∧
   (issuer c = subject c → verifies c c = true)) ∨
  ((∀ root, root ∈ root_der_list store → fingerprint_der root ≠ fingerprint_der der) ∧
   ∃ i root, list_find (issued_by c) (root_by_fingerprint store) = Some (i, root) ∧ in_window at_time root.2).

Lemma resolve_anchor_ok store leaf_fp depth at_time c der :
  (∃ fp, resolve_anchor store leaf_fp depth at_time c der = Ok fp) ↔ anchored store at_time c der.
Proof.
  unfold resolve_anchor, anchored. cbv zeta. destruct (dict_has (fingerprint_der der) (root_by_fingerprint store)) eqn:Eh.
  - apply root_by_fingerprint_has in Eh as (root & Hin & Hfp). setoid_rewrite seq_ok. setoid_rewrite ensure_ok.
    setoid_rewrite orb_true_iff. setoid_rewrite negb_true_iff. setoid_rewrite bool_decide_eq_false. split.
    + intros (fp & Hs & _). left. split; [eauto|]. destruct Hs; [done|auto].
    + intros [[_ Hs]|[Hno _]]; [|by destruct (Hno root)]. exists (fingerprint_der der). split; [|done].
      destruct (decide (issuer c = subject c)); auto.
  - assert (∀ root, root ∈ root_der_list store → fingerprint_der root ≠ fingerprint_der der) as Hno.
    { intros root Hin Hfp. apply not_true_iff_false in Eh. apply Eh, root_by_fingerprint_has. eauto. }
    setoid_rewrite find_root_ok. split.
    + intros (fp & i & d & Hf & Hw). right. split; [done|]. by exists i, (fp, d).
    + intros [[(root & Hin & Hfp) _]|[_ (i & [fp d] & Hf & Hw)]]; [by destruct (Hno root)|]. by exists fp, i, d.
Qed.

(** A path from the leaf to a configured root, all of it valid at the time. *)
Record trusted_path (store : TrustStore) (at_time : Z) (ders : list bytes) (cs : list cert) : Prop := {
  path_certs : Forall2 (λ der c, load_der_x509_certificate der = Some c ∧ supported_algorithm c = true) ders cs;
  path_window : Forall (λ c, not_valid_before c ≤ at_time ≤ not_valid_after c) cs;
  path_not_revoked : Forall (λ c, serial_text (serial_number c) ∉ revoked_serials_hex store) cs;
  path_linked : linked cs;
  path_anchored : ∃ c der, last cs = Some c ∧ last ders = Some der ∧ anchored store at_time c der;
}.

Lemma Forall2_last {A B} (P : A → B → Prop) l k y : Forall2 P l k → last k = Some y → ∃ x, last l = Some x ∧ P x y.
Proof.
  rewrite !last_lookup. intros Hf Hk. pose proof (Forall2_length _ _ _ Hf) as Hl. rewrite Hl.
  by apply (Forall2_lookup_r _ _ _ _ _ Hf) in Hk.
Qed.

Lemma validate_ders_ok store at_time ders : (∃ r, validate_ders store at_time ders = Ok r) ↔ ∃ cs, trusted_path store at_time ders cs.
Proof.
  unfold validate_ders. cbv zeta. setoid_rewrite bind_ok. setoid_rewrite load_all_ok. split.
  - intros (r & cs & Hl & Hr). rewrite !seq_ok, !for_each_ok, check_links_ok in Hr. destruct Hr as (Hw & Hv & Hk & Hr).
    exists cs. destruct (last cs) as [c|] eqn:Ec; [|done]. apply bind_ok in Hr as (fp & Hfp & _).
    destruct (Forall2_last _ _ _ _ Hl Ec) as (der & Hd & _). rewrite Hd in Hfp. cbn [default from_option id] in Hfp.
    constructor; [done| | |done|].
    + eapply Forall_impl; [exact Hw|]. intros x. apply validity_at_ok.
    + eapply Forall_impl; [exact Hv|]. intros x Hx. unfold check_revoked in Hx.
      by rewrite ensure_ok, negb_true_iff, bool_decide_eq_false in Hx.
    + exists c, der. split_and!; [done..|].
      apply (proj1 (resolve_anchor_ok store (fingerprint_der (default [] (head ders))) (zlen cs) at_time c der)). eauto.
  - intros (cs & [Hl Hw Hv Hk (c & der & Hc & Hd & Ha)]).
    apply (proj2 (resolve_anchor_ok store (fingerprint_der (default [] (head ders))) (zlen cs) at_time c der)) in Ha as [fp Hfp]. eexists _, cs. split; [done|]. rewrite !seq_ok, !for_each_ok, check_links_ok, Hc, Hd.
    cbn [default from_option id]. split_and!; [| |done|rewrite Hfp; reflexivity].
    + eapply Forall_impl; [exact Hw|]. intros x. apply validity_at_ok.
    + eapply Forall_impl; [exact Hv|]. intros x Hx. unfold check_revoked. by rewrite ensure_ok, negb_true_iff, bool_decide_eq_false.
Qed.

(** What a failure looks like: never accepted, with a code and one of four statuses. *)
Definition failed (r : ChainValidationResult) : Prop :=
  chain_ok r = false ∧ is_Some (error_code r) ∧ chain_status r ∈ ["invalid"; "unverified"; "expired"; "untrusted"]%string.

Lemma fail_chain_failed status code message leaf_fp root_fp depth :
  status ∈ ["invalid"; "unverified"; "expired"; "untrusted"]%string → failed (fail_chain status code message leaf_fp root_fp depth).
Proof. intros Hs. unfold failed. by eauto. Qed.

(** Every step that stops fails. *)
Definition fails_well {A} (m : result ChainValidationResult A) : Prop := ∀ e, m = Err e → failed e.

Lemma fails_well_bind {A B} (m : result ChainValidationResult A) (f : A → result ChainValidationResult B) :
  fails_well m → (∀ a, m = Ok a → fails_well (f a)) → fails_well (m ≫= f).
Proof. intros Hm Hf e [He|(a & Ha & He)]%bind_err; [by apply Hm|by apply (Hf a)]. Qed.

Lemma fails_well_ok {A} (a : A) : fails_well (Ok a).
Proof. done. Qed.

Lemma fails_well_err {A} e : failed e → fails_well (Err (A:=A) e).
Proof. by intros He ? [= <-]. Qed.

Lemma fails_well_ensure b e : failed e → fails_well (ensure b e).
Proof. destruct b; [done|]. apply fails_well_err. Qed.

Local Ltac known_status := apply fail_chain_failed, (bool_decide_unpack _); by vm_compute.

Lemma early_fails {A} code message : fails_well (A:=A) (early "invalid" code message).
Proof. apply fails_well_err. known_status. Qed.

Lemma decode_fails entries : fails_well (decode_cert_entries entries).
Proof.
  assert (∀ l total, fails_well (decode_entries l total)) as Hgo.
  { induction l as [|v l IH]; intros total; cbn [decode_entries]; [apply fails_well_ok|].
    destruct v as [| | | |[|x s]| |]; try apply early_fails. case_match; [|apply early_fails].
    case_match; [apply early_fails|]. case_match; [apply early_fails|]. apply fails_well_bind; [apply IH|done]. }
  unfold decode_cert_entries. destruct entries; [apply early_fails|]. case_match; [apply early_fails|apply Hgo].
Qed.

Lemma validity_fails leaf_fp root_fp depth at_time c : fails_well (validity_at leaf_fp root_fp depth at_time c).
Proof. unfold validity_at. repeat case_match; [apply fails_well_err; known_status..|done]. Qed.

Lemma for_each_fails {A} (f : A → result ChainValidationResult unit) l : (∀ x, fails_well (f x)) → fails_well (for_each f l).
Proof. intros Hf. induction l as [|x l IH]; cbn [for_each]; [done|]. apply fails_well_bind; auto. Qed.

Lemma load_all_fails leaf_fp depth ders : fails_well (load_all leaf_fp depth ders).
Proof.
  revert depth. induction ders as [|der ders IH]; intros depth; cbn [load_all]; [done|]. apply fails_well_bind.
  - unfold load_cert. case_match; [done|apply early_fails].
  - intros c _. apply fails_well_bind; [apply fails_well_ensure; known_status|]. intros _ _. apply fails_well_bind; [apply IH|done].
Qed.

Lemma links_fail leaf_fp depth cs : fails_well (check_links leaf_fp depth cs).
Proof.
  induction cs as [|c [|k cs] IH]; cbn [check_links]; [done..|].
  apply fails_well_bind; [apply fails_well_ensure; known_status|]. intros _ _.
  apply fails_well_bind; [apply fails_well_ensure; known_status|]. intros _ _. exact IH.
Qed.

Lemma resolve_fails store leaf_fp depth at_time c der : fails_well (resolve_anchor store leaf_fp depth at_time c der).
Proof.
  unfold resolve_anchor. cbv zeta. destruct (dict_has _ _).
  { apply fails_well_bind; [apply fails_well_ensure; known_status|done]. }
  induction (root_by_fingerprint store) as [|[fp d] roots IH]; cbn [find_root]; [apply fails_well_err; known_status|].
  case_match; [|exact IH]. case_match; [|exact IH]. apply fails_well_bind; [apply validity_fails|done].
Qed.

Lemma validate_ders_fails store at_time ders : fails_well (validate_ders store at_time ders).
Proof.
  unfold validate_ders. cbv zeta. apply fails_well_bind; [apply load_all_fails|]. intros cs _.
  apply fails_well_bind; [apply for_each_fails; intros; apply validity_fails|]. intros _ _.
  apply fails_well_bind; [apply for_each_fails; intros; apply fails_well_ensure; known_status|]. intros _ _.
  apply fails_well_bind; [apply links_fail|]. intros _ _. case_match; [|apply early_fails].
  apply fails_well_bind; [apply resolve_fails|done].
Qed.

(** An accepted result. *)
Lemma validate_ders_accepts store at_time ders r : validate_ders store at_time ders = Ok r →
  chain_ok r = true ∧ chain_status r = "valid"%string ∧ error_code r = None ∧ is_Some (root_fingerprint r).
Proof.
  unfold validate_ders. cbv zeta. intros (cs & _ & Hr)%bind_ok. rewrite !seq_ok in Hr. destruct Hr as (_ & _ & _ & Hr).
  case_match; [|done]. apply bind_ok in Hr as (fp & _ & [= <-]). cbn. eauto.
Qed.

(** C36. A chain is accepted exactly when it decodes within the bounds and there is a path: every
    certificate parses, uses a supported algorithm, is within its window and not revoked, each is
    issued and signed by the next, and the last is or was issued by a configured root. *)
Theorem chain_valid_iff store at_time chain :
  chain_ok (validate_rfc3161_certificate_chain true store at_time chain) = true ↔
  ∃ ders cs, decode_cert_entries chain = Ok ders ∧ trusted_path store at_time ders cs.
Proof.
  unfold validate_rfc3161_certificate_chain. cbn [negb].
  destruct (decode_cert_entries chain) as [ders|e] eqn:Ed; cbn [mbind result_bind returned].
  2: { split; [|naive_solver]. intros Hok. apply decode_fails in Ed as [Hf _]. congruence. }
  transitivity (∃ r, validate_ders store at_time ders = Ok r).
  - destruct (validate_ders store at_time ders) as [r|e] eqn:Ev; cbn [returned].
    + apply validate_ders_accepts in Ev as [Hok _]. rewrite Hok. naive_solver.
    + apply validate_ders_fails in Ev as [Hf _]. rewrite Hf. naive_solver.
  - rewrite validate_ders_ok. naive_solver.
Qed.

(** Every answer has one of five statuses; it is [valid] exactly when the chain was accepted,
    which is exactly when there is no error code, and a root is named then. *)
Theorem chain_answer_shape crypto store at_time chain :
  let r := validate_rfc3161_certificate_chain crypto store at_time chain in
  (chain_ok r = true ∧ chain_status r = "valid"%string ∧ error_code r = None ∧ is_Some (root_fingerprint r)) ∨ failed r.
Proof.
  intros r. unfold r, validate_rfc3161_certificate_chain. destruct crypto; cbn [negb]; [|right; known_status].
  destruct (ders ← decode_cert_entries chain; validate_ders store at_time ders) as [x|e] eqn:E; cbn [returned].
  - left. apply bind_ok in E as (ders & _ & Hv). by apply validate_ders_accepts in Hv.
  - right. revert e E. apply fails_well_bind; [apply decode_fails|]. intros ders _. apply validate_ders_fails.
Qed.

(** What is decoded is bounded, whatever is submitted: at most 8 certificates of at most 8192
    bytes, 32768 bytes in all. *)
Theorem decoded_chain_bounded entries ders : decode_cert_entries entries = Ok ders →
  1 ≤ zlen ders ≤ MAX_CERTS_PER_CHAIN ∧ Forall (λ der, zlen der ≤ MAX_CERT_DER_BYTES) ders ∧
  zlen (concat ders) ≤ MAX_CHAIN_TOTAL_BYTES.
Proof.
  assert (∀ l total ds, decode_entries l total = Ok ds → total ≤ MAX_CHAIN_TOTAL_BYTES →
    zlen ds = zlen l ∧ Forall (λ der, zlen der ≤ MAX_CERT_DER_BYTES) ds ∧ total + zlen (concat ds) ≤ MAX_CHAIN_TOTAL_BYTES) as Hgo.
  { induction l as [|v l IH]; intros total ds; cbn [decode_entries].
    { intros [= <-] Ht. split_and!; [done|done|]. unfold zlen. cbn [concat length]. lia. }
    destruct v as [| | | |[|x s]| |]; try done. case_match; [|done]. case_match eqn:Hs; [done|]. case_match eqn:Ht; [done|].
    intros (ds' & Hds & [= <-])%bind_ok _. apply Z.ltb_ge in Hs, Ht. apply IH in Hds as (Hl & Hf & Hc); [|done].
    split_and!; [unfold zlen in *; cbn [length]; lia|by constructor|]. cbn [concat]. unfold zlen in *. rewrite length_app. lia. }
  unfold decode_cert_entries. destruct entries as [|v l]; [done|]. case_match eqn:Hl; [done|]. apply Z.ltb_ge in Hl.
  intros Hd. apply Hgo in Hd as (Hn & Hf & Hc); [|by vm_compute]. split_and!; [|lia|done|done].
  rewrite Hn. unfold zlen. cbn [length]. lia.
Qed.
End facts.

(** * Witnesses *)

(** Certificates of three bytes: the issuer, the subject, the serial. *)
#[local] Instance sample_x509 : X509 := {|
  cert := bytes;
  load_der_x509_certificate := λ der, if decide (length der = 3%nat) then Some der else None;
  signature_algorithm_oid := λ _, lit "1.2.840.10045.4.3.2";
  not_valid_before := λ _, 100; not_valid_after := λ _, 200;
  serial_number := λ c, default 0 (c !! 2%nat);
  issuer := λ c, take 1 c; subject := λ c, take 1 (drop 1 c);
  key_kind := λ _, RsaKey; pkcs1v15_accepts := λ k c, bool_decide (take 1 c = take 1 (drop 1 k)); ecdsa_accepts := λ _ _, false;
  iso_instant := λ _, None |}.

Definition sample_chain : list pyval := [PStr (lit "AgEF"); PStr (lit "AwIG")].
Definition sample_store (revoked : list str) : TrustStore := {| root_der_list := [[3; 3; 7]]; revoked_serials_hex := revoked |}.

(** A leaf issued by an intermediate issued by the root is accepted; it is refused after its
    window, when a serial is revoked, in the other order, and without the root. *)
Example sample_chain_verdicts :
  let status store at_time chain := chain_status (validate_rfc3161_certificate_chain true store at_time chain) in
  status (sample_store []) 150 sample_chain = "valid"%string ∧ status (sample_store []) 201 sample_chain = "expired"%string ∧
  status (sample_store [lit "6"]) 150 sample_chain = "invalid"%string ∧ status (sample_store []) 150 (reverse sample_chain) = "invalid"%string ∧
  status {| root_der_list := []; revoked_serials_hex := [] |} 150 sample_chain = "untrusted"%string.
Proof. split_and!; vm_compute; reflexivity. Qed.

Lemma decoded_chain_bounded_witness :
  1 ≤ zlen [[2; 1; 5]; [3; 2; 6]] ≤ MAX_CERTS_PER_CHAIN ∧ Forall (λ der, zlen der ≤ MAX_CERT_DER_BYTES) [[2; 1; 5]; [3; 2; 6]] ∧
  zlen (concat [[2; 1; 5]; [3; 2; 6]]) ≤ MAX_CHAIN_TOTAL_BYTES.
Proof. apply (decoded_chain_bounded sample_chain). vm_compute. reflexivity. Defined.
