(* ===== verification/TimeAttestation.v ===== *)
(** Time attestations: [time_attestation.py], and the routes [/api/time-attestation/*] of
    [app.py].  An envelope binds a claimed and an observed time and up to ten independent
    anchors to the digest of the evidence; it is created, anchored, encoded, decoded and
    validated, and the risk that it was backdated is graded.

    The decoder does not check the types inside the envelope, so times and labels are dynamically
    typed values and a comparison can raise.  Arithmetic and formatting of floats, and the
    validation of certificates ([rfc3161_chain.py]), are parameters.

    Shown: encoding and decoding are inverse; the anchors of an envelope never exceed the limit,
    whatever is added; validation finds nothing exactly when the digest is bound and every time
    is in its range; the grade is exactly a function of four facts; registration stores an
    envelope bound to the registered video.  Also: a status that a client claims for an anchor is
    kept, and an incomplete or oversized envelope makes the routes raise. *)
From Stdlib Require Import ZArith Lia.
From stdpp Require Import base decidable strings numbers relations list.
From S2P Require Import Prelude PyStr Json PyVal Codec Sha256 ProofStore.
From S2P Require Import Register Rfc3161Chain.

Open Scope Z_scope.

#[local] Arguments lit _ : simpl never.

Definition TIME_PROFILE_ID : str := lit "harpocrates-time-attestation/v1".
Definition MAX_FUTURE_DRIFT_SECONDS : Z := 300.
Definition MAX_TIMESTAMP_TOKEN_SIZE : Z := 10000.
Definition MAX_ANCHOR_COUNT : Z := 10.

(** A [ValueError] or a [TypeError] with its text, or another exception. *)
Inductive ta_error : Type :=
  | TaValue (text : str)
  | TaType (text : str)
  | TaOther (e : exn).

Definition ta_exn (e : ta_error) : exn :=
  match e with TaValue _ => ValueError "time attestation" | TaType _ => TypeError "time attestation" | TaOther e => e end.

(** An exception of another module, with its text where it is a [ValueError] or a [TypeError]. *)
Definition ta_of_exn (e : exn) : ta_error :=
  match e with ValueError m => TaValue (lit m) | TypeError m => TaType (lit m) | e => TaOther e end.

Record ClaimedTime := { ct_unix_ms : pyval; ct_source_label : pyval; uncertainty_ms : pyval }.
Record ObservedTime := { ot_unix_ms : pyval; ot_source_label : pyval }.
Record StellarAnchor := {
  ledger_sequence : pyval; ledger_timestamp : pyval; transaction_hash : pyval; network_passphrase : pyval }.
Record RFC3161Anchor := {
  token_bytes : pyval; tsa_url : pyval; gen_time : pyval; policy_oid : pyval; cert_fingerprint : pyval;
  verification_status : pyval; verification_error : pyval; certificate_chain : pyval }.

(** The decoder leaves a text for the digest and the protocol only. *)
Record TimeAttestation := {
  ta_version : pyval;
  ta_protocol : str;
  evidence_digest : str;
  claimed_time : option ClaimedTime;
  observed_time : option ObservedTime;
  stellar_anchors : list StellarAnchor;
  rfc3161_anchors : list RFC3161Anchor;
}.

(** What the code asks of floats. *)
Class FloatTime := {
  float_gt : pyfloat → Z → bool;              (* x > n *)
  float_lt : pyfloat → Z → bool;              (* x < n *)
  float_drift : pyval → pyval → bool * str;   (* abs(a - b) / 1000 > 86400, and its text, one of them a float *)
  float_predates : pyval → pyval → bool;      (* a < b - 3600000, one of them a float *)
  drift_text : Z → str;                       (* f"{n / 1000:.0f}" *)
  instant_of : pyval → result exn Z;          (* datetime.fromtimestamp(v / 1000.0, tz=timezone.utc) *)
  iso_of_ms : pyval → result exn str;         (* datetime.fromtimestamp(v / 1000, tz=timezone.utc).isoformat() *)
}.

(** * Dynamically typed operations *)

Definition type_name (v : pyval) : str :=
  lit match v with
      | PNone => "NoneType" | PBool _ => "bool" | PInt _ => "int" | PFloat _ => "float" | PStr _ => "str"
      | PList _ => "list" | PDict _ => "dict"
      end.

(** [v[key]] *)
Definition subscript (v : pyval) (key : string) : result ta_error pyval :=
  match v with
  | PDict d => match dict_get (lit key) d with Some x => Ok x | None => Err (TaOther (KeyError key)) end
  | PStr _ => Err (TaType (lit "string indices must be integers, not 'str'"))
  | PList _ => Err (TaType (lit "list indices must be integers or slices, not str"))
  | _ => Err (TaType (lit "'" ++ type_name v ++ lit "' object is not subscriptable"))
  end.

(** [v.get(key, default)] *)
Definition get_item (v : pyval) (key : string) (d : pyval) : result ta_error pyval :=
  match v with PDict kvs => Ok (default d (dict_get (lit key) kvs)) | _ => Err (TaOther AttributeError) end.

(** [list(v)] *)
Definition iter_items (v : pyval) : result ta_error (list pyval) :=
  match v with
  | PList l => Ok l
  | PStr s => Ok (map (λ c, PStr [c]) s)
  | PDict d => Ok (map (λ p, PStr p.1) d)
  | _ => Err (TaType (lit "'" ++ type_name v ++ lit "' object is not iterable"))
  end.

(** [len(v)] *)
Definition py_len (v : pyval) : result ta_error Z :=
  match v with
  | PStr s => Ok (zlen s)
  | PList l => Ok (zlen l)
  | PDict d => Ok (zlen d)
  | _ => Err (TaType (lit "object of type '" ++ type_name v ++ lit "' has no len()"))
  end.

Definition not_ordered (op : string) (v : pyval) : ta_error :=
  TaType (lit "'" ++ lit op ++ lit "' not supported between instances of '" ++ type_name v ++ lit "' and 'int'").

Definition whole_of (v : pyval) : option Z :=
  match v with PInt z => Some z | PBool b => Some (if b then 1 else 0) | _ => None end.

(** [1] is the one supported version; [True] and [1.0] are equal to it. *)
Definition supported_version (v : pyval) : result ta_error bool :=
  match v with
  | PInt _ | PBool _ => Ok (bool_decide (whole_of v = Some 1))
  | PFloat f => Ok (bool_decide (fl_repr f = lit "1.0"))
  | PList _ | PDict _ => Err (TaType (lit "unhashable type: '" ++ type_name v ++ lit "'"))
  | _ => Ok false
  end.

Section attestation.
Context `{Unicode, FloatTime}.

Definition num_gt (v : pyval) (n : Z) : result ta_error bool :=
  match v with
  | PInt z => Ok (n <? z)
  | PBool b => Ok (n <? if b then 1 else 0)
  | PFloat f => Ok (float_gt f n)
  | _ => Err (not_ordered ">" v)
  end.

Definition num_lt (v : pyval) (n : Z) : result ta_error bool :=
  match v with
  | PInt z => Ok (z <? n)
  | PBool b => Ok ((if b then 1 else 0) <? n)
  | PFloat f => Ok (float_lt f n)
  | _ => Err (not_ordered "<" v)
  end.

(** [_is_valid_hex] *)
Definition is_valid_hex (value : pyval) (expected_length : Z) : result ta_error bool :=
  n ← py_len value;
  if negb (n =? expected_length) then Ok false else
  match value with
  | PStr s => Ok (bool_decide (is_Some (py_int 16 s)))
  | _ => Err (TaType (lit "int() can't convert non-string with explicit base"))
  end.

(** * Encoding *)

Definition encode_claimed (c : ClaimedTime) : pyval :=
  PDict [(lit "unixMs", ct_unix_ms c); (lit "sourceLabel", ct_source_label c); (lit "uncertaintyMs", uncertainty_ms c)].

Definition encode_observed (o : ObservedTime) : pyval :=
  PDict [(lit "unixMs", ot_unix_ms o); (lit "sourceLabel", ot_source_label o)].

Definition encode_stellar (a : StellarAnchor) : pyval :=
  PDict [(lit "ledgerSequence", ledger_sequence a); (lit "ledgerTimestamp", ledger_timestamp a);
         (lit "transactionHash", transaction_hash a); (lit "networkPassphrase", network_passphrase a)].

Definition encode_rfc3161 (a : RFC3161Anchor) : result ta_error pyval :=
  let entry := [(lit "tokenBytes", token_bytes a); (lit "tsaUrl", tsa_url a); (lit "genTime", gen_time a);
                (lit "policyOid", policy_oid a); (lit "certFingerprint", cert_fingerprint a);
                (lit "verificationStatus", verification_status a); (lit "verificationError", verification_error a)] in
  match certificate_chain a with
  | PNone => Ok (PDict entry)
  | chain => l ← iter_items chain; Ok (PDict (entry ++ [(lit "certificateChain", PList l)]))
  end.

Fixpoint map_results {A B} (f : A → result ta_error B) (l : list A) : result ta_error (list B) :=
  match l with
  | [] => Ok []
  | x :: l => y ← f x; ys ← map_results f l; Ok (y :: ys)
  end.

Definition anchor_count (a : TimeAttestation) : Z := zlen (stellar_anchors a) + zlen (rfc3161_anchors a).

Definition encode_time_attestation (a : TimeAttestation) : result ta_error (list (str * pyval)) :=
  supported ← supported_version (ta_version a);
  ensure supported (TaValue (lit "Unsupported time attestation version: " ++ py_str (ta_version a)));;
  ensure (bool_decide (ta_protocol a = TIME_PROFILE_ID))
    (TaValue (lit "Protocol mismatch: expected " ++ TIME_PROFILE_ID ++ lit ", got " ++ ta_protocol a));;
  hex ← is_valid_hex (PStr (evidence_digest a)) 64;
  ensure hex (TaValue (lit "evidence_digest must be 64-character hex string"));;
  ensure (anchor_count a <=? MAX_ANCHOR_COUNT) (TaValue (lit "Total anchor count exceeds maximum of 10"));;
  rfc ← map_results encode_rfc3161 (rfc3161_anchors a);
  Ok ([(lit "version", ta_version a); (lit "protocol", PStr (ta_protocol a)); (lit "evidenceDigest", PStr (evidence_digest a))] ++
      match claimed_time a with Some c => [(lit "claimedTime", encode_claimed c)] | None => [] end ++
      match observed_time a with Some o => [(lit "observedTime", encode_observed o)] | None => [] end ++
      match stellar_anchors a with [] => [] | l => [(lit "stellarAnchors", PList (map encode_stellar l))] end ++
      match rfc3161_anchors a with [] => [] | _ => [(lit "rfc3161Anchors", PList rfc)] end).

(** * Decoding *)

(** [_validate_time_attestation_obj], with what it makes certain. *)
Definition validate_obj (obj : pyval) : result ta_error (list (str * pyval) * str) :=
  match obj with
  | PDict d =>
      match list_find (λ k, dict_has k d = false) (map lit ["version"; "protocol"; "evidenceDigest"]) with
      | Some (_, k) => Err (TaValue (lit "Missing required field: " ++ k))
      | None =>
          let version := get_or_none (lit "version") d in
          supported ← supported_version version;
          ensure supported (TaValue (lit "Unsupported version: " ++ py_str version));;
          let protocol := get_or_none (lit "protocol") d in
          ensure (in_str_tuple protocol [TIME_PROFILE_ID])
            (TaValue (lit "Protocol mismatch: expected " ++ TIME_PROFILE_ID ++ lit ", got " ++ py_str protocol));;
          match get_or_none (lit "evidenceDigest") d with
          | PStr digest =>
              hex ← is_valid_hex (PStr digest) 64;
              ensure hex (TaValue (lit "evidenceDigest must be 64-character hex string"));;
              Ok (d, digest)
          | _ => Err (TaType (lit "evidenceDigest must be a string"))
          end
      end
  | _ => Err (TaType (lit "Time attestation must be a dictionary"))
  end.

Definition decode_claimed (ct : pyval) : result ta_error ClaimedTime :=
  u ← subscript ct "unixMs"; l ← subscript ct "sourceLabel"; n ← get_item ct "uncertaintyMs" (PInt 0);
  Ok {| ct_unix_ms := u; ct_source_label := l; uncertainty_ms := n |}.

Definition decode_observed (ot : pyval) : result ta_error ObservedTime :=
  u ← subscript ot "unixMs"; l ← subscript ot "sourceLabel";
  Ok {| ot_unix_ms := u; ot_source_label := l |}.

Definition decode_stellar (a : pyval) : result ta_error StellarAnchor :=
  s ← subscript a "ledgerSequence"; t ← subscript a "ledgerTimestamp"; h ← subscript a "transactionHash";
  n ← subscript a "networkPassphrase";
  Ok {| ledger_sequence := s; ledger_timestamp := t; transaction_hash := h; network_passphrase := n |}.

Definition decode_rfc3161 (a : pyval) : result ta_error RFC3161Anchor :=
  tok ← subscript a "tokenBytes"; url ← subscript a "tsaUrl"; gen ← subscript a "genTime";
  oid ← get_item a "policyOid" PNone; fp ← get_item a "certFingerprint" PNone;
  status ← get_item a "verificationStatus" (PStr (lit "unverified")); err ← get_item a "verificationError" PNone;
  chain ← get_item a "certificateChain" PNone;
  Ok {| token_bytes := tok; tsa_url := url; gen_time := gen; policy_oid := oid; cert_fingerprint := fp;
        verification_status := status; verification_error := err; certificate_chain := chain |}.

(** [if key in obj: ...] *)
Definition decode_if {A} (key : string) (f : pyval → result ta_error A) (d : list (str * pyval)) : result ta_error (option A) :=
  match dict_get (lit key) d with Some v => x ← f v; Ok (Some x) | None => Ok None end.

(** [for anchor_obj in obj.get(key, []): ...] *)
Definition decode_all {A} (key : string) (f : pyval → result ta_error A) (d : list (str * pyval)) : result ta_error (list A) :=
  l ← iter_items (default (PList []) (dict_get (lit key) d)); map_results f l.

Definition decode_time_attestation (obj : pyval) : result ta_error TimeAttestation :=
  '(d, digest) ← validate_obj obj;
  claimed ← decode_if "claimedTime" decode_claimed d;
  observed ← decode_if "observedTime" decode_observed d;
  stellar ← decode_all "stellarAnchors" decode_stellar d;
  rfc ← decode_all "rfc3161Anchors" decode_rfc3161 d;
  Ok {| ta_version := get_or_none (lit "version") d; ta_protocol := TIME_PROFILE_ID; evidence_digest := digest;
        claimed_time := claimed; observed_time := observed; stellar_anchors := stellar; rfc3161_anchors := rfc |}.

Definition canonical_time_attestation_hash (a : TimeAttestation) : result ta_error str :=
  encoded ← encode_time_attestation a;
  match utf8_encode (json_dumps true (PDict encoded)) with
  | Some b => Ok (sha256_hex b)
  | None => Err (TaOther UnicodeError)
  end.

(** * Validation *)

Definition says (cond : bool) (text : str) : list str := if cond then [text] else [].

Definition future_limit (now : Z) : Z := now + MAX_FUTURE_DRIFT_SECONDS * 1000.

(** The two checks on a claimed or an observed time. *)
Definition time_errors (what : string) (now : Z) (v : pyval) : result ta_error (list str) :=
  future ← num_gt v (future_limit now);
  negative ← num_lt v 0;
  Ok (says future (lit what ++ lit " time " ++ py_str v ++ lit " is too far in the future (current: " ++ dec_str now ++ lit ")") ++
      says negative (lit what ++ lit " time " ++ py_str v ++ lit " is negative")).

Definition anchor_says (what : string) (i : nat) (cond : bool) (text : string) : list str :=
  says cond (lit what ++ lit " anchor " ++ dec_str (Z.of_nat i) ++ lit ": " ++ lit text).

Fixpoint stellar_errors (i : nat) (l : list StellarAnchor) : result ta_error (list str) :=
  match l with
  | [] => Ok []
  | a :: l =>
      hex ← is_valid_hex (transaction_hash a) 64;
      seq ← num_lt (ledger_sequence a) 0;
      ts ← num_lt (ledger_timestamp a) 0;
      rest ← stellar_errors (S i) l;
      Ok (anchor_says "Stellar" i (negb hex) "transaction_hash must be 64-char hex" ++
          anchor_says "Stellar" i seq "ledger_sequence must be non-negative" ++
          anchor_says "Stellar" i ts "ledger_timestamp must be non-negative" ++ rest)
  end.

Fixpoint rfc3161_errors (now : Z) (i : nat) (l : list RFC3161Anchor) : result ta_error (list str) :=
  match l with
  | [] => Ok []
  | a :: l =>
      n ← py_len (token_bytes a);
      negative ← num_lt (gen_time a) 0;
      future ← num_gt (gen_time a) (future_limit now);
      rest ← rfc3161_errors now (S i) l;
      Ok (anchor_says "RFC 3161" i (MAX_TIMESTAMP_TOKEN_SIZE <? n) "token exceeds 10000 bytes" ++
          anchor_says "RFC 3161" i negative "genTime must be non-negative" ++
          anchor_says "RFC 3161" i future "genTime is too far in the future" ++ rest)
  end.

Definition has_time_source (a : TimeAttestation) : bool :=
  bool_decide (is_Some (claimed_time a)) || bool_decide (is_Some (observed_time a)) ||
  negb (anchor_count a =? 0).

Definition validate_time_attestation (now : Z) (a : TimeAttestation) (digest : str) : result ta_error (list str) :=
  claimed ← match claimed_time a with Some c => time_errors "Claimed" now (ct_unix_ms c) | None => Ok [] end;
  observed ← match observed_time a with Some o => time_errors "Observed" now (ot_unix_ms o) | None => Ok [] end;
  stellar ← stellar_errors 0 (stellar_anchors a);
  rfc ← rfc3161_errors now 0 (rfc3161_anchors a);
  Ok (says (negb (bool_decide (evidence_digest a = digest)))
        (lit "Evidence digest mismatch: expected " ++ digest ++ lit ", got " ++ evidence_digest a) ++
      claimed ++ observed ++ stellar ++ rfc ++
      says (negb (has_time_source a)) (lit "At least one time source is required")).

(** * Backdating *)

Inductive Risk : Type := RiskNone | RiskLow | RiskMedium | RiskHigh.

Definition risk_text (r : Risk) : str :=
  lit match r with RiskNone => "none" | RiskLow => "low" | RiskMedium => "medium" | RiskHigh => "high" end.

Record assessment := { risk_level : Risk; reasons : list str; recommendations : list str }.

(** A quotient by 1000 from here on is not a float. *)
Definition DIVISION_LIMIT : Z := 1000 * (2 ^ 1024 - 2 ^ 970).

Definition is_float (v : pyval) : bool := match v with PFloat _ => true | _ => false end.

(** [abs(claimed_ms - observed_ms) / 1000 > 86400] with the text of the drift, and
    [claimed_ms < observed_ms - 3600000]. *)
Definition compare_times (c o : pyval) : result ta_error ((bool * str) * bool) :=
  match whole_of c, whole_of o with
  | Some x, Some y =>
      if DIVISION_LIMIT <=? Z.abs (x - y) then Err (TaOther OverflowError)
      else Ok ((86400000 <? Z.abs (x - y), drift_text (Z.abs (x - y))), x <? y - 3600000)
  | x, y =>
      if (bool_decide (is_Some x) || is_float c) && (bool_decide (is_Some y) || is_float o)
      then Ok (float_drift c o, float_predates c o)
      else Err (TaType (lit "unsupported operand type(s) for -: '" ++ type_name c ++ lit "' and '" ++ type_name o ++ lit "'"))
  end.

Definition raise_for_drift (r : Risk) : Risk :=
  match r with RiskNone => RiskLow | RiskMedium => RiskHigh | r => r end.

Definition raise_for_predating (r : Risk) : Risk :=
  match r with RiskNone | RiskLow => RiskMedium | RiskMedium => RiskHigh | RiskHigh => RiskHigh end.

Definition raise_for_unobserved (r : Risk) : Risk := match r with RiskNone => RiskLow | r => r end.

Definition check_backdating_risk (a : TimeAttestation) : result ta_error assessment :=
  let anchored := negb (anchor_count a =? 0) in
  let r0 := if anchored then RiskNone else RiskMedium in
  let reasons0 := says (negb anchored) (lit "No independent timestamp anchor (Stellar/RFC 3161)") in
  '(r1, reasons1) ← match claimed_time a, observed_time a with
    | Some c, Some o =>
        '((drifts, text), predates) ← compare_times (ct_unix_ms c) (ot_unix_ms o);
        let r := if (drifts : bool) then raise_for_drift r0 else r0 in
        Ok (if (predates : bool) then raise_for_predating r else r,
            reasons0 ++ says drifts (lit "Large drift between claimed and observed time: " ++ text ++ lit " seconds") ++
            says predates (lit "Claimed time significantly predates observed time"))
    | _, _ => Ok (r0, reasons0)
    end;
  let unobserved := negb (bool_decide (is_Some (observed_time a))) in
  let reasons2 := reasons1 ++ says unobserved (lit "No observed registration time recorded") in
  Ok {| risk_level := if unobserved then raise_for_unobserved r1 else r1;
        reasons := match reasons2 with [] => [lit "All time sources align within acceptable bounds"] | _ => reasons2 end;
        recommendations := [if anchored then lit "Time attestation appears robust"
                            else lit "Add Stellar ledger timestamp from transaction"] |}.

(** * Building an envelope *)

Definition create_time_attestation (now : Z) (digest : str) (claimed label uncertainty : pyval) : result ta_error TimeAttestation :=
  hex ← is_valid_hex (PStr digest) 64;
  ensure hex (TaValue (lit "evidence_digest must be 64-character hex string"));;
  Ok {| ta_version := PInt 1; ta_protocol := TIME_PROFILE_ID; evidence_digest := digest;
        claimed_time := match claimed with
                        | PNone => None
                        | _ => Some {| ct_unix_ms := claimed; ct_source_label := label; uncertainty_ms := uncertainty |}
                        end;
        observed_time := Some {| ot_unix_ms := PInt now; ot_source_label := PStr (lit "backend_system_clock") |};
        stellar_anchors := []; rfc3161_anchors := [] |}.

Definition with_anchors (a : TimeAttestation) (st : list StellarAnchor) (rfc : list RFC3161Anchor) : TimeAttestation :=
  {| ta_version := ta_version a; ta_protocol := ta_protocol a; evidence_digest := evidence_digest a;
     claimed_time := claimed_time a; observed_time := observed_time a; stellar_anchors := st; rfc3161_anchors := rfc |}.

Definition add_stellar_anchor (a : TimeAttestation) (new_anchor : StellarAnchor) : result ta_error TimeAttestation :=
  ensure (negb (MAX_ANCHOR_COUNT <=? anchor_count a)) (TaValue (lit "Maximum anchor count (10) reached"));;
  hex ← is_valid_hex (transaction_hash new_anchor) 64;
  ensure hex (TaValue (lit "transaction_hash must be 64-character hex string"));;
  Ok (with_anchors a (stellar_anchors a ++ [new_anchor]) (rfc3161_anchors a)).

Definition add_rfc3161_anchor (a : TimeAttestation) (new_anchor : RFC3161Anchor) : result ta_error TimeAttestation :=
  ensure (negb (MAX_ANCHOR_COUNT <=? anchor_count a)) (TaValue (lit "Maximum anchor count (10) reached"));;
  n ← py_len (token_bytes new_anchor);
  ensure (negb (MAX_TIMESTAMP_TOKEN_SIZE <? n)) (TaValue (lit "Timestamp token exceeds 10000 bytes"));;
  Ok (with_anchors a (stellar_anchors a) (rfc3161_anchors a ++ [new_anchor])).

(** * Verifying anchors *)

Definition with_verdict (a : RFC3161Anchor) (fingerprint status error : pyval) : RFC3161Anchor :=
  {| token_bytes := token_bytes a; tsa_url := tsa_url a; gen_time := gen_time a; policy_oid := policy_oid a;
     cert_fingerprint := fingerprint; verification_status := status; verification_error := error;
     certificate_chain := certificate_chain a |}.

Definition or_else_val (a b : pyval) : pyval := if truthy a then a else b.

Section verify.
Context `{X509}.

(** The part after the trust store is there. *)
Definition verify_with (crypto_available : bool) (store : TrustStore) (a : RFC3161Anchor) : result ta_error RFC3161Anchor :=
  at_time ← map_err ta_of_exn (instant_of (gen_time a));
  chain ← iter_items (certificate_chain a);
  let r := validate_rfc3161_certificate_chain crypto_available store at_time chain in
  Ok (with_verdict a
        match leaf_fingerprint r with Some fp => or_else_val (PStr fp) (cert_fingerprint a) | None => cert_fingerprint a end
        (PStr (lit (if bool_decide (chain_status r ∈ ["valid"; "invalid"; "unverified"; "expired"; "untrusted"]%string)
                    then chain_status r else "invalid")))
        (if chain_ok r then PNone
         else match error_code r, error_message r with
              | Some c, _ => PStr (chain_code_text c)
              | None, Some m => PStr (lit m)
              | None, None => PNone
              end)).

(** [module_loaded]: the import of [rfc3161_chain] succeeded. *)
Definition verify_rfc3161_anchor_chain (module_loaded crypto_available : bool) (trust_store : option TrustStore)
    (roots serials : list pyval) (a : RFC3161Anchor) : result ta_error RFC3161Anchor :=
  if negb (truthy (certificate_chain a)) then
    if in_str_tuple (verification_status a) [lit "unverified"] then Ok a else
    Ok (with_verdict a (cert_fingerprint a) (PStr (lit "unverified"))
          (or_else_val (verification_error a) (PStr (lit "certificate chain not provided"))))
  else if negb module_loaded then
    Ok (with_verdict a (cert_fingerprint a) (PStr (lit "unverified")) (PStr (lit "dependency_failure")))
  else
    store ← match trust_store with Some st => Ok st | None => map_err ta_of_exn (trust_store_from_b64_roots roots serials) end;
    verify_with crypto_available store a.

Definition verify_rfc3161_anchors (module_loaded crypto_available : bool) (trust_store : option TrustStore)
    (roots serials : list pyval) (a : TimeAttestation) : result ta_error TimeAttestation :=
  match rfc3161_anchors a with
  | [] => Ok a
  | l => verified ← map_results (verify_rfc3161_anchor_chain module_loaded crypto_available trust_store roots serials) l;
         Ok (with_anchors a (stellar_anchors a) verified)
  end.
End verify.

(** * Routes *)

Definition error_answer (text : str) (status : Z) : pyval * Z := (PDict [(lit "error", PStr text)], status).

Definition encode_assessment (r : assessment) : pyval :=
  PDict [(lit "risk_level", PStr (risk_text (risk_level r))); (lit "reasons", PList (map PStr (reasons r)));
         (lit "recommendations", PList (map PStr (recommendations r)))].

Definition attestation_answer (encoded : list (str * pyval)) (r : assessment) : pyval * Z :=
  (PDict [(lit "ok", PBool true); (lit "timeAttestation", PDict encoded); (lit "riskAssessment", encode_assessment r)], 200).

(** The size limit and the JSON object, then the handler. *)
Definition with_payload (size max_json_bytes : Z) (payload : pyval) (k : list (str * pyval) → result exn (pyval * Z)) :
    result exn (pyval * Z) :=
  if max_json_bytes <? size then Ok (error_answer (lit "JSON payload exceeds size limit") 413) else
  match payload with
  | PDict d => k d
  | _ => Ok (error_answer (lit "JSON body is required") 400)
  end.

(** [except ValueError]; the rest leaves the handler. *)
Definition catch_value (prefix : string) (m : result ta_error (pyval * Z)) : result exn (pyval * Z) :=
  match m with
  | Ok r => Ok r
  | Err (TaValue text) => Ok (error_answer (lit prefix ++ text) 400)
  | Err e => Err (ta_exn e)
  end.

(** [except (ValueError, TypeError)] *)
Definition catch_value_type (prefix : string) (m : result ta_error (pyval * Z)) : result exn (pyval * Z) :=
  match m with
  | Ok r => Ok r
  | Err (TaValue text) | Err (TaType text) => Ok (error_answer (lit prefix ++ text) 400)
  | Err e => Err (ta_exn e)
  end.

Definition create_time_attestation_endpoint (now size max_json_bytes : Z) (payload : pyval) : result exn (pyval * Z) :=
  with_payload size max_json_bytes payload (λ d,
    match get_or_none (lit "evidenceDigest") d with
    | PStr digest as v =>
        if negb (is_hex_32 v) then Ok (error_answer (lit "evidenceDigest must be a 32-byte hex string") 400) else
        catch_value ""
          (a ← create_time_attestation now digest (get_or_none (lit "claimedTimeMs") d)
                 (default (PStr (lit "device_clock")) (dict_get (lit "claimedSourceLabel") d))
                 (default (PInt 0) (dict_get (lit "uncertaintyMs") d));
           encoded ← encode_time_attestation a;
           risk ← check_backdating_risk a;
           Ok (attestation_answer encoded risk))
    | _ => Ok (error_answer (lit "evidenceDigest must be a 32-byte hex string") 400)
    end).

(** [except (ValueError, KeyError)]; the text of a [KeyError] is its quoted key. *)
Definition catch_anchor {A} (prefix : string) (m : result ta_error A) (k : A → result exn (pyval * Z)) : result exn (pyval * Z) :=
  match m with
  | Ok a => k a
  | Err (TaValue text) => Ok (error_answer (lit prefix ++ text) 400)
  | Err (TaOther (KeyError key)) => Ok (error_answer (lit prefix ++ lit "'" ++ lit key ++ lit "'") 400)
  | Err e => Err (ta_exn e)
  end.

Definition requested_stellar (a : TimeAttestation) (v : pyval) : result ta_error TimeAttestation :=
  anchor ← decode_stellar v; add_stellar_anchor a anchor.

(** The chain is not taken from the request. *)
Definition requested_rfc3161 (a : TimeAttestation) (v : pyval) : result ta_error TimeAttestation :=
  tok ← subscript v "tokenBytes"; url ← subscript v "tsaUrl"; gen ← subscript v "genTime";
  oid ← get_item v "policyOid" PNone; fp ← get_item v "certFingerprint" PNone;
  status ← get_item v "verificationStatus" (PStr (lit "unverified")); err ← get_item v "verificationError" PNone;
  add_rfc3161_anchor a {| token_bytes := tok; tsa_url := url; gen_time := gen; policy_oid := oid; cert_fingerprint := fp;
    verification_status := status; verification_error := err; certificate_chain := PNone |}.

(** [if key in payload: attestation = ...] *)
Definition if_requested (key : string) (d : list (str * pyval)) (f : TimeAttestation → pyval → result ta_error TimeAttestation)
    (a : TimeAttestation) : result ta_error TimeAttestation :=
  match dict_get (lit key) d with Some v => f a v | None => Ok a end.

Definition anchor_time_attestation (size max_json_bytes : Z) (payload : pyval) : result exn (pyval * Z) :=
  with_payload size max_json_bytes payload (λ d,
    match decode_time_attestation (default (PDict []) (dict_get (lit "timeAttestation") d)) with
    | Err (TaValue text) | Err (TaType text) => Ok (error_answer (lit "Invalid time attestation: " ++ text) 400)
    | Err e => Err (ta_exn e)
    | Ok a =>
        catch_anchor "Invalid Stellar anchor: " (if_requested "stellarAnchor" d requested_stellar a) (λ a,
        catch_anchor "Invalid RFC 3161 anchor: " (if_requested "rfc3161Anchor" d requested_rfc3161 a) (λ a,
        map_err ta_exn (encoded ← encode_time_attestation a; risk ← check_backdating_risk a; Ok (attestation_answer encoded risk))))
    end).

Definition validate_time_attestation_endpoint (now size max_json_bytes : Z) (payload : pyval) : result exn (pyval * Z) :=
  with_payload size max_json_bytes payload (λ d,
    match get_or_none (lit "evidenceDigest") d with
    | PStr digest as v =>
        if negb (is_hex_32 v) then Ok (error_answer (lit "evidenceDigest must be a 32-byte hex string") 400) else
        catch_value_type "Invalid time attestation: "
          (a ← decode_time_attestation (default (PDict []) (dict_get (lit "timeAttestation") d));
           errors ← validate_time_attestation now a digest;
           risk ← check_backdating_risk a;
           Ok (PDict [(lit "ok", PBool (bool_decide (errors = []))); (lit "errors", PList (map PStr errors));
                      (lit "riskAssessment", encode_assessment risk)], 200))
    | _ => Ok (error_answer (lit "evidenceDigest must be a 32-byte hex string") 400)
    end).

(** The part of the registration handler that takes a time attestation. *)
Definition attest_with (now : Z) (v : pyval) (video_hash : str) : attestation :=
  match (a ← decode_time_attestation v;
         errors ← validate_time_attestation now a video_hash;
         match errors with
         | _ :: _ => Ok None
         | [] =>
             encoded ← encode_time_attestation a;
             claimed ← match claimed_time a with
                       | Some c => t ← map_err ta_of_exn (iso_of_ms (ct_unix_ms c)); Ok (Some t)
                       | None => Ok None
                       end;
             Ok (Some (encoded, claimed))
         end) with
  | Ok None => AttestationInvalid
  | Ok (Some (encoded, claimed)) => AttestationOk (PDict encoded) claimed
  | Err (TaValue text) | Err (TaType text) => AttestationError text
  | Err (TaOther e) => AttestationRaises e
  end.

(** The registration handler with this decoder; [now] is the clock in milliseconds. *)
Definition with_attestations (now : Z) (env : RegisterEnv) : RegisterEnv :=
  {| secure_filename := secure_filename; redact_sensitive := redact_sensitive; attest := attest_with now |}.
End attestation.

(** * Encoding and decoding *)

Section facts.
Context `{Unicode, FloatTime}.

Lemma map_results_ok {A B} (f : A → result ta_error B) l k : map_results f l = Ok k ↔ Forall2 (λ x y, f x = Ok y) l k.
Proof.
  revert k. induction l as [|x l IH]; intros k; cbn [map_results].
  - split; [intros [= <-]; constructor|by inversion 1].
  - rewrite bind_ok. split.
    + intros (y & Hy & Hk). apply bind_ok in Hk as (ys & Hys & [= <-]). constructor; [done|by apply IH].
    + inversion 1 as [|a y b ys Hy Hys]; subst. exists y. split; [done|]. apply bind_ok. exists ys. split; [by apply IH|done].
Qed.

(** A chain is absent or a list. *)
Definition chain_listed (a : RFC3161Anchor) : Prop := certificate_chain a = PNone ∨ ∃ l, certificate_chain a = PList l.

Lemma decode_encode_claimed c : decode_claimed (encode_claimed c) = Ok c.
Proof. by destruct c. Qed.
Lemma decode_encode_observed o : decode_observed (encode_observed o) = Ok o.
Proof. by destruct o. Qed.
Lemma decode_encode_stellar a : decode_stellar (encode_stellar a) = Ok a.
Proof. by destruct a. Qed.

Lemma encode_rfc3161_listed a : chain_listed a → ∃ v, encode_rfc3161 a = Ok v ∧ decode_rfc3161 v = Ok a.
Proof. destruct a as [tok url gen oid fp st err chain]. intros [Hc|[l Hc]]; cbn in Hc; subst chain; eexists; (split; reflexivity). Qed.

Lemma encode_all_rfc3161 l : Forall chain_listed l → ∃ vs, map_results encode_rfc3161 l = Ok vs ∧ map_results decode_rfc3161 vs = Ok l.
Proof.
  induction 1 as [|a l Ha Hl (vs & He & Hd)]; [by exists []|]. destruct (encode_rfc3161_listed a Ha) as (v & Hv & Hdv).
  exists (v :: vs). cbn [map_results]. by rewrite Hv, Hdv, !bind_Ok, He, Hd.
Qed.

Lemma decode_all_stellar l : map_results decode_stellar (map encode_stellar l) = Ok l.
Proof. induction l as [|a l IH]; [done|]. cbn [map map_results]. by rewrite decode_encode_stellar, bind_Ok, IH. Qed.

(** When an envelope is encodable. *)
Definition encodable (a : TimeAttestation) : Prop :=
  supported_version (ta_version a) = Ok true ∧ ta_protocol a = TIME_PROFILE_ID ∧ is_valid_hex (PStr (evidence_digest a)) 64 = Ok true ∧
  anchor_count a ≤ MAX_ANCHOR_COUNT ∧ Forall chain_listed (rfc3161_anchors a).

Lemma encodable_roundtrip a : encodable a → ∃ obj, encode_time_attestation a = Ok obj ∧ decode_time_attestation (PDict obj) = Ok a.
Proof.
  intros (Hv & Hp & Hh & Hc & Hl). destruct (encode_all_rfc3161 _ Hl) as (vs & He & Hd).
  unfold encode_time_attestation. rewrite Hv, bind_Ok, Hh, He. rewrite bool_decide_eq_true_2 by done.
  rewrite (proj2 (Z.leb_le _ _)) by done. cbn [ensure mbind result_bind]. eexists. split; [reflexivity|].
  destruct a as [v p dg ct ot st rfc].
  cbn [ta_version ta_protocol evidence_digest claimed_time observed_time stellar_anchors rfc3161_anchors] in *. subst p.
  set (obj := _ ++ _).
  assert (dict_get (lit "claimedTime") obj = encode_claimed <$> ct) as Hct by (by destruct ct, ot, st, rfc).
  assert (dict_get (lit "observedTime") obj = encode_observed <$> ot) as Hot by (by destruct ct, ot, st, rfc).
  assert (dict_get (lit "stellarAnchors") obj = match st with [] => None | _ => Some (PList (map encode_stellar st)) end) as Hst
    by (by destruct ct, ot, st, rfc).
  assert (dict_get (lit "rfc3161Anchors") obj = match rfc with [] => None | _ => Some (PList vs) end) as Hrfc by (by destruct ct, ot, st, rfc).
  assert (validate_obj (PDict obj) = Ok (obj, dg)) as Hobj.
  { unfold validate_obj. change (list_find _ _) with (@None (nat * str)). cbv zeta iota.
    change (get_or_none (lit "version") obj) with v. change (get_or_none (lit "protocol") obj) with (PStr TIME_PROFILE_ID).
    change (get_or_none (lit "evidenceDigest") obj) with (PStr dg). by rewrite Hv, bind_Ok, Hh. }
  unfold decode_time_attestation. rewrite Hobj, bind_Ok. unfold decode_if, decode_all. rewrite Hct, Hot, Hst, Hrfc.
  change (get_or_none (lit "version") obj) with v.
  assert (match encode_claimed <$> ct with Some v => x ← decode_claimed v; Ok (Some x) | None => Ok None end = Ok ct) as -> by (by destruct ct as [[]|]).
  assert (match encode_observed <$> ot with Some v => x ← decode_observed v; Ok (Some x) | None => Ok None end = Ok ot) as -> by (by destruct ot as [[]|]).
  rewrite !bind_Ok.
  assert ((l ← iter_items (default (PList []) match st with [] => None | _ => Some (PList (map encode_stellar st)) end); map_results decode_stellar l) = Ok st) as ->.
  { destruct st as [|x st]; [done|]. cbn [default from_option id iter_items]. rewrite bind_Ok. apply decode_all_stellar. }
  assert ((l ← iter_items (default (PList []) match rfc with [] => None | _ => Some (PList vs) end); map_results decode_rfc3161 l) = Ok rfc) as ->; [|done].
  destruct rfc; [done|]. cbn [default from_option id iter_items]. by rewrite bind_Ok.
Qed.

(** What a decoded envelope is known to satisfy. *)
Lemma decode_inv v a : decode_time_attestation v = Ok a →
  supported_version (ta_version a) = Ok true ∧ ta_protocol a = TIME_PROFILE_ID ∧ is_valid_hex (PStr (evidence_digest a)) 64 = Ok true.
Proof.
  unfold decode_time_attestation. intros ([d dg] & Hobj & Hd)%bind_ok. apply bind_ok in Hd as (ct & _ & Hd).
  apply bind_ok in Hd as (ot & _ & Hd). apply bind_ok in Hd as (st & _ & Hd). apply bind_ok in Hd as (rfc & _ & [= <-]).
  cbn [ta_version ta_protocol evidence_digest].
  unfold validate_obj in Hobj. destruct v as [| | | | | |d']; try done. case_match; [by destruct p|]. cbv zeta in Hobj.
  apply bind_ok in Hobj as (b & Hb & Hobj). apply seq_ok in Hobj as [->%ensure_ok Hobj]. apply seq_ok in Hobj as [_ Hobj].
  destruct (get_or_none (lit "evidenceDigest") d'); try done. apply bind_ok in Hobj as (h & Hh & Hobj).
  apply seq_ok in Hobj as [->%ensure_ok [= <- <-]]. done.
Qed.

(** Decoding then encoding loses nothing: an envelope that was decoded, with at most ten anchors
    and chains that are lists, is encoded, and what is encoded decodes to the same envelope. *)
Theorem decoded_attestation_reencodes v a : decode_time_attestation v = Ok a →
  anchor_count a ≤ MAX_ANCHOR_COUNT → Forall chain_listed (rfc3161_anchors a) →
  ∃ obj, encode_time_attestation a = Ok obj ∧ decode_time_attestation (PDict obj) = Ok a.
Proof. intros (Hv & Hp & Hh)%decode_inv Hc Hl. by apply encodable_roundtrip. Qed.

(** * Anchoring *)

Section building.
Context `{X509}.

(** The operations that change an envelope. *)
Inductive build_step : TimeAttestation → TimeAttestation → Prop :=
  | step_stellar a x a' : add_stellar_anchor a x = Ok a' → build_step a a'
  | step_rfc3161 a x a' : chain_listed x → add_rfc3161_anchor a x = Ok a' → build_step a a'
  | step_verify loaded crypto store roots serials a a' :
      verify_rfc3161_anchors loaded crypto store roots serials a = Ok a' → build_step a a'.

Lemma with_verdict_chain x fp st err : chain_listed x → chain_listed (with_verdict x fp st err).
Proof. by destruct x. Qed.

Lemma verify_keeps_chain loaded crypto store roots serials x y :
  verify_rfc3161_anchor_chain loaded crypto store roots serials x = Ok y → chain_listed x → chain_listed y.
Proof.
  unfold verify_rfc3161_anchor_chain. intros Hy Hx. case_match; [case_match|case_match]; [by simplify_eq|by simplify_eq|by simplify_eq|].
  apply bind_ok in Hy as (st & _ & Hy). unfold verify_with in Hy. apply bind_ok in Hy as (t & _ & Hy).
  apply bind_ok in Hy as (l & _ & [= <-]). done.
Qed.

Lemma build_step_encodable a a' : build_step a a' → encodable a → encodable a' ∧ evidence_digest a' = evidence_digest a.
Proof.
  intros Hs (Hv & Hp & Hh & Hc & Hl). destruct Hs as [a x a' Hadd|a x a' Hx Hadd|loaded crypto store roots serials a a' Hver].
  - unfold add_stellar_anchor in Hadd. apply seq_ok in Hadd as [Hm%ensure_ok Hadd]. apply bind_ok in Hadd as (h & _ & Hadd).
    apply seq_ok in Hadd as [_ [= <-]]. split; [|done]. split_and!; try done. apply negb_true_iff, Z.leb_gt in Hm.
    unfold anchor_count, with_anchors, zlen in *. cbn. rewrite length_app. cbn. lia.
  - unfold add_rfc3161_anchor in Hadd. apply seq_ok in Hadd as [Hm%ensure_ok Hadd]. apply bind_ok in Hadd as (h & _ & Hadd).
    apply seq_ok in Hadd as [_ [= <-]]. split; [|done]. apply negb_true_iff, Z.leb_gt in Hm. split_and!; try done.
    + unfold anchor_count, with_anchors, zlen in *. cbn. rewrite length_app. cbn. lia.
    + cbn. apply Forall_app. split; [done|by constructor].
  - unfold verify_rfc3161_anchors in Hver. destruct (rfc3161_anchors a) as [|x l] eqn:Er; [injection Hver as <-|].
    { split; [|done]. split_and!; try done. by rewrite Er. }
    apply bind_ok in Hver as (l' & Hl' & [= <-]). split; [|done]. apply map_results_ok in Hl'. split_and!; try done.
    + unfold anchor_count in *. cbn. rewrite Er in Hc. apply Forall2_length in Hl'. unfold zlen in *. lia.
    + cbn. clear -Hl Hl'. induction Hl'; constructor; inversion Hl; subst; eauto using verify_keeps_chain.
Qed.

(** Whatever is added to a new envelope and however its anchors are verified, it stays bound to
    its digest, never has more than ten anchors, and survives encoding and decoding. *)
Theorem built_attestation_roundtrips now digest claimed label uncertainty a0 a :
  create_time_attestation now digest claimed label uncertainty = Ok a0 → rtc build_step a0 a →
  evidence_digest a = digest ∧ anchor_count a ≤ MAX_ANCHOR_COUNT ∧
  ∃ obj, encode_time_attestation a = Ok obj ∧ decode_time_attestation (PDict obj) = Ok a.
Proof.
  intros Hc Hr. assert (encodable a0 ∧ evidence_digest a0 = digest) as [He Hd].
  { unfold create_time_attestation in Hc. apply bind_ok in Hc as (h & Hh & Hc). apply seq_ok in Hc as [->%ensure_ok [= <-]].
    split; [|done]. by split_and!. }
  assert (encodable a ∧ evidence_digest a = digest) as [He' Hd'].
  { clear Hc. induction Hr as [|a b c Hs Hr IH]; [done|]. apply build_step_encodable in Hs as [Hb Hdb]; [|done]. apply IH; [done|congruence]. }
  split_and!; [done|apply He'|by apply encodable_roundtrip].
Qed.
End building.

(** * Validation *)

(** A time that is a number, not negative and at most five minutes ahead. *)
Definition time_in_range (now : Z) (v : pyval) : Prop := num_gt v (future_limit now) = Ok false ∧ num_lt v 0 = Ok false.

Lemma time_in_range_int now t : time_in_range now (PInt t) ↔ 0 ≤ t ≤ now + 300000.
Proof.
  unfold time_in_range, num_gt, num_lt, future_limit, MAX_FUTURE_DRIFT_SECONDS.
  destruct (Z.ltb_spec (now + 300 * 1000) t), (Z.ltb_spec t 0); split; try lia; intros [? ?]; done.
Qed.

Lemma says_nil b t : says b t = [] ↔ b = false.
Proof. by destruct b. Qed.

Lemma app_nil_iff {A} (l k : list A) : l ++ k = [] ↔ l = [] ∧ k = [].
Proof. destruct l; cbn; naive_solver. Qed.

Lemma time_errors_nil what now v : time_errors what now v = Ok [] ↔ time_in_range now v.
Proof.
  unfold time_errors, time_in_range. split.
  - intros (f & Hf & Hr)%bind_ok. apply bind_ok in Hr as (n & Hn & Hr). injection Hr as Hr.
    apply app_nil_iff in Hr as [->%says_nil ->%says_nil]. done.
  - intros [-> ->]. done.
Qed.

Definition stellar_in_range (a : StellarAnchor) : Prop :=
  is_valid_hex (transaction_hash a) 64 = Ok true ∧ num_lt (ledger_sequence a) 0 = Ok false ∧ num_lt (ledger_timestamp a) 0 = Ok false.

Lemma stellar_errors_nil i l : stellar_errors i l = Ok [] ↔ Forall stellar_in_range l.
Proof.
  revert i. induction l as [|a l IH]; intros i; cbn [stellar_errors]; [done|]. rewrite Forall_cons, <- (IH (S i)). unfold stellar_in_range. split.
  - intros (h & Hh & Hr)%bind_ok. apply bind_ok in Hr as (s & Hs & Hr). apply bind_ok in Hr as (t & Ht & Hr).
    apply bind_ok in Hr as (r & Hrest & Hr). injection Hr as Hr. unfold anchor_says in Hr. rewrite !app_nil_iff, !says_nil, negb_false_iff in Hr.
    destruct Hr as (-> & -> & -> & ->). done.
  - intros [(-> & -> & ->) Hrest]. rewrite !bind_Ok, Hrest. done.
Qed.

Definition rfc3161_in_range (now : Z) (a : RFC3161Anchor) : Prop :=
  (∃ n, py_len (token_bytes a) = Ok n ∧ n ≤ MAX_TIMESTAMP_TOKEN_SIZE) ∧ time_in_range now (gen_time a).

Lemma rfc3161_errors_nil now i l : rfc3161_errors now i l = Ok [] ↔ Forall (rfc3161_in_range now) l.
Proof.
  revert i. induction l as [|a l IH]; intros i; cbn [rfc3161_errors]; [done|].
  rewrite Forall_cons, <- (IH (S i)). unfold rfc3161_in_range, time_in_range. split.
  - intros (n & Hn & Hr)%bind_ok. apply bind_ok in Hr as (s & Hs & Hr). apply bind_ok in Hr as (t & Ht & Hr).
    apply bind_ok in Hr as (r & Hrest & Hr). injection Hr as Hr. unfold anchor_says in Hr. rewrite !app_nil_iff, !says_nil, Z.ltb_ge in Hr.
    destruct Hr as (Hle & -> & -> & ->). eauto 10.
  - intros [((n & -> & Hn) & -> & ->) Hrest]. rewrite !bind_Ok, Hrest, bind_Ok.
    rewrite (proj2 (Z.ltb_ge _ _)) by done. done.
Qed.

Lemma validation_nil now a digest : validate_time_attestation now a digest = Ok [] ↔
  evidence_digest a = digest ∧ has_time_source a = true ∧
  (∀ c, claimed_time a = Some c → time_in_range now (ct_unix_ms c)) ∧
  (∀ o, observed_time a = Some o → time_in_range now (ot_unix_ms o)) ∧
  Forall stellar_in_range (stellar_anchors a) ∧ Forall (rfc3161_in_range now) (rfc3161_anchors a).
Proof.
  rewrite <- (stellar_errors_nil 0), <- (rfc3161_errors_nil now 0). unfold validate_time_attestation. split.
  - intros (ec & Hec & Hr)%bind_ok. apply bind_ok in Hr as (eo & Heo & Hr). apply bind_ok in Hr as (es & Hes & Hr).
    apply bind_ok in Hr as (er & Her & Hr). injection Hr as Hr. rewrite !app_nil_iff, !says_nil, !negb_false_iff, bool_decide_eq_true in Hr.
    destruct Hr as (Hd & -> & -> & -> & -> & Hs). split_and!; try done.
    + intros c Hc. rewrite Hc in Hec. by apply time_errors_nil in Hec.
    + intros o Ho. rewrite Ho in Heo. by apply time_errors_nil in Heo.
  - intros (Hd & Hs & Hc & Ho & Hst & Hrf).
    assert (match claimed_time a with Some c => time_errors "Claimed" now (ct_unix_ms c) | None => Ok [] end = Ok []) as ->
      by (destruct (claimed_time a); [apply time_errors_nil; auto|done]).
    assert (match observed_time a with Some o => time_errors "Observed" now (ot_unix_ms o) | None => Ok [] end = Ok []) as ->
      by (destruct (observed_time a); [apply time_errors_nil; auto|done]).
    rewrite Hst, Hrf, !bind_Ok, Hs, bool_decide_eq_true_2 by done. done.
Qed.

(** Validation reports nothing exactly when the envelope is bound to the digest, has a time
    source, and every time, sequence number, hash and token in it is a value in its range. *)
Theorem validation_passes_iff now a digest : validate_time_attestation now a digest = Ok [] ↔
  evidence_digest a = digest ∧ has_time_source a = true ∧
  (∀ c, claimed_time a = Some c → time_in_range now (ct_unix_ms c)) ∧
  (∀ o, observed_time a = Some o → time_in_range now (ot_unix_ms o)) ∧
  Forall stellar_in_range (stellar_anchors a) ∧ Forall (rfc3161_in_range now) (rfc3161_anchors a).
Proof. apply validation_nil. Qed.

(** * Risk *)

(** The claimed and the observed time as whole numbers, their difference not beyond a float. *)
Definition whole_times (a : TimeAttestation) (c o : Z) : Prop :=
  (∃ ct, claimed_time a = Some ct ∧ ct_unix_ms ct = PInt c) ∧ (∃ ot, observed_time a = Some ot ∧ ot_unix_ms ot = PInt o) ∧
  Z.abs (c - o) < DIVISION_LIMIT.

(** The grade for two whole times is exactly: none when there is an independent anchor and the
    times agree (a day apart at most, the claim not more than an hour before); low when there is
    an anchor and the claim lies more than a day after; medium when there is an anchor and the
    claim predates the observation by more than an hour, or no anchor and the times agree; high
    when there is no anchor and they do not. *)
Theorem risk_grade_exact a c o : whole_times a c o →
  ∃ r, check_backdating_risk a = Ok r ∧
  risk_level r = if anchor_count a =? 0
                 then if (86400000 <? Z.abs (c - o)) || (c <? o - 3600000) then RiskHigh else RiskMedium
                 else if c <? o - 3600000 then RiskMedium else if o + 86400000 <? c then RiskLow else RiskNone.
Proof.
  intros ((ct & Hct & Hc) & (ot & Hot & Ho) & Hlim). unfold check_backdating_risk. cbv zeta. rewrite Hct, Hot, Hc, Ho.
  unfold compare_times. cbn [whole_of]. rewrite (proj2 (Z.leb_gt _ _)) by done. rewrite bind_Ok. cbn [mbind result_bind].
  eexists. split; [reflexivity|]. cbn [risk_level bool_decide].
  rewrite (bool_decide_eq_true_2 (is_Some (Some ot))) by eauto. cbn [negb].
  destruct (anchor_count a =? 0); cbn [negb]; destruct (Z.ltb_spec 86400000 (Z.abs (c - o))), (Z.ltb_spec c (o - 3600000)); cbn [orb]; try done;
    destruct (Z.ltb_spec (o + 86400000) c); try done; lia.
Qed.

(** Without an observed time the grade says so: it is never none. *)
Theorem unobserved_is_never_riskless a r : check_backdating_risk a = Ok r → observed_time a = None →
  risk_level r = if anchor_count a =? 0 then RiskMedium else RiskLow.
Proof.
  unfold check_backdating_risk. cbv zeta. intros Hr Ho. rewrite Ho in Hr. destruct (claimed_time a); rewrite bind_Ok in Hr;
    injection Hr as <-; cbn [risk_level]; destruct (anchor_count a =? 0); done.
Qed.

(** * Registration *)

Lemma attest_with_ok now v video encoded claimed :
  attest_with now v video = AttestationOk encoded claimed →
  ∃ a obj, decode_time_attestation v = Ok a ∧ validate_time_attestation now a video = Ok [] ∧ encode_time_attestation a = Ok obj ∧
    encoded = PDict obj ∧
    match claimed_time a with
    | Some c => ∃ t, iso_of_ms (ct_unix_ms c) = Ok t ∧ claimed = Some t
    | None => claimed = None
    end.
Proof.
  unfold attest_with. case_match eqn:E; [|by repeat case_match]. repeat case_match; try done; intros [= <- <-]; subst;
  (apply bind_ok in E as (a & Ha & E); apply bind_ok in E as (errs & He & E); destruct errs; [|done];
   apply bind_ok in E as (obj & Hobj & E); apply bind_ok in E as (cl & Hcl & [= <- <-]); exists a, obj; split_and!; try done;
   destruct (claimed_time a) as [c|]; [|by injection Hcl as <-]; apply bind_ok in Hcl as (t & Ht & [= <-]); exists t; split; [|done];
   destruct (iso_of_ms (ct_unix_ms c)); cbn in Ht; congruence).
Qed.

(** C37. What a registration stores under [timeAttestation]: when a request that carries one is
    answered with a new row, the row holds the encoding of the envelope it decodes to and the
    instant of its claimed time; the envelope is bound to the video hash of the row, has a time
    source, and its claimed and observed times, Stellar anchors (hash, sequence, time) and RFC
    3161 anchors (token size, time) are all within their ranges. *)
Theorem registered_attestation_is_bound env cfg now now_ms req s0 later s s' fx row payload v :
  json_body req = PDict payload → dict_get (lit "timeAttestation") payload = Some v →
  @register_proof_event _ (with_attestations now_ms env) cfg now req s0 later s = (s', fx, Ok (Registered row true)) →
  row ∈ events s' ∧ ∃ a obj, decode_time_attestation v = Ok a ∧ encode_time_attestation a = Ok obj ∧
    time_attestation (ev row) = Some (PDict obj) ∧
    match claimed_time a with
    | Some c => ∃ t, iso_of_ms (ct_unix_ms c) = Ok t ∧ claimed_capture_time (ev row) = Some t
    | None => claimed_capture_time (ev row) = None
    end ∧
    video_hash (ev row) = Some (evidence_digest a) ∧ has_time_source a = true ∧
    (∀ c, claimed_time a = Some c → time_in_range now_ms (ct_unix_ms c)) ∧
    (∀ o, observed_time a = Some o → time_in_range now_ms (ot_unix_ms o)) ∧
    Forall stellar_in_range (stellar_anchors a) ∧ Forall (rfc3161_in_range now_ms) (rfc3161_anchors a).
Proof.
  intros Hb Hv Hreg. destruct (@created_row _ (with_attestations now_ms env) _ _ _ _ _ _ _ _ _ _ Hb Hreg)
    as (Hin & r & att & Hatt & Hvid & Hta & Hcl). split; [done|].
  unfold time_attestation_of in Hatt. rewrite Hv in Hatt. cbn [attest with_attestations] in Hatt.
  destruct (attest_with now_ms v (rg_video r)) as [| | |encoded claimed] eqn:Ha; try done. injection Hatt as <-.
  apply attest_with_ok in Ha as (a & obj & Hd & Hval & He & -> & Hc). cbn [fst snd] in Hta, Hcl.
  apply validation_nil in Hval as (Hdg & Hval). rewrite <- Hdg in Hvid. exists a, obj. split_and!; try done; try apply Hval.
  destruct (claimed_time a); [destruct Hc as (t & ? & ->); eauto|by subst].
Qed.
End facts.

(** * Witnesses *)

#[local] Existing Instance plain_unicode.
#[local] Instance sample_float_time : FloatTime := {|
  float_gt := λ _ _, false; float_lt := λ _ _, false; float_drift := λ _ _, (false, []); float_predates := λ _ _, false;
  drift_text := λ n, dec_str (n / 1000); instant_of := λ v, Ok (default 0 (whole_of v) / 1000);
  iso_of_ms := λ v, Ok (py_str v) |}.

Definition digest_text : str := lit "0123456789abcdef0123456789abcdef0123456789abcdef0123456789abcdef".

Definition stellar_sample : StellarAnchor :=
  {| ledger_sequence := PInt 7; ledger_timestamp := PInt 1700000000; transaction_hash := PStr digest_text;
     network_passphrase := PStr (lit "Test SDF Network ; September 2015") |}.

Definition rfc3161_sample : RFC3161Anchor :=
  {| token_bytes := PStr (lit "MIIB"); tsa_url := PStr (lit "https://tsa"); gen_time := PInt 1700000000000; policy_oid := PNone;
     cert_fingerprint := PNone; verification_status := PStr (lit "valid"); verification_error := PNone; certificate_chain := PNone |}.

Definition created_sample : TimeAttestation :=
  {| ta_version := PInt 1; ta_protocol := TIME_PROFILE_ID; evidence_digest := digest_text;
     claimed_time := Some {| ct_unix_ms := PInt 1700000000000; ct_source_label := PStr (lit "device_clock"); uncertainty_ms := PInt 0 |};
     observed_time := Some {| ot_unix_ms := PInt 1700000060000; ot_source_label := PStr (lit "backend_system_clock") |};
     stellar_anchors := []; rfc3161_anchors := [] |}.

Definition anchored_sample : TimeAttestation := with_anchors created_sample [stellar_sample] [rfc3161_sample].

Definition encoded_sample : pyval := PDict (from_ok [] (encode_time_attestation anchored_sample)).

Lemma decoded_attestation_reencodes_witness :
  ∃ obj, encode_time_attestation anchored_sample = Ok obj ∧ decode_time_attestation (PDict obj) = Ok anchored_sample.
Proof.
  apply (decoded_attestation_reencodes encoded_sample anchored_sample).
  - vm_compute. reflexivity.
  - vm_compute. discriminate.
  - constructor; [left; reflexivity|constructor].
Defined.

#[local] Instance no_certificates : X509 := {|
  cert := unit; load_der_x509_certificate := λ _, None; signature_algorithm_oid := λ _, []; not_valid_before := λ _, 0;
  not_valid_after := λ _, 0; serial_number := λ _, 0; issuer := λ _, []; subject := λ _, []; key_kind := λ _, OtherKey;
  pkcs1v15_accepts := λ _ _, false; ecdsa_accepts := λ _ _, false;
  iso_instant := λ _, None |}.

Lemma built_attestation_roundtrips_witness :
  evidence_digest anchored_sample = digest_text ∧ anchor_count anchored_sample ≤ MAX_ANCHOR_COUNT ∧
  ∃ obj, encode_time_attestation anchored_sample = Ok obj ∧ decode_time_attestation (PDict obj) = Ok anchored_sample.
Proof.
  apply (built_attestation_roundtrips 1700000060000 digest_text (PInt 1700000000000) (PStr (lit "device_clock")) (PInt 0) created_sample).
  - vm_compute. reflexivity.
  - eapply rtc_l; [apply (step_stellar _ stellar_sample); vm_compute; reflexivity|].
    apply rtc_once. apply (step_rfc3161 _ rfc3161_sample); [left; reflexivity|vm_compute; reflexivity].
Defined.

Lemma risk_grade_exact_witness :
  ∃ r, check_backdating_risk created_sample = Ok r ∧
  risk_level r = if anchor_count created_sample =? 0
                 then if (86400000 <? Z.abs (1700000000000 - 1700000060000)) || (1700000000000 <? 1700000060000 - 3600000) then RiskHigh else RiskMedium
                 else if 1700000000000 <? 1700000060000 - 3600000 then RiskMedium
                      else if 1700000060000 + 86400000 <? 1700000000000 then RiskLow else RiskNone.
Proof.
  apply (risk_grade_exact created_sample 1700000000000 1700000060000). split; [|split].
  - eexists. split; reflexivity.
  - eexists. split; reflexivity.
  - vm_compute. reflexivity.
Defined.

Lemma unobserved_is_never_riskless_witness :
  RiskLow = if anchor_count (with_anchors {| ta_version := PInt 1; ta_protocol := TIME_PROFILE_ID; evidence_digest := digest_text;
     claimed_time := None; observed_time := None; stellar_anchors := []; rfc3161_anchors := [] |} [stellar_sample] []) =? 0
  then RiskMedium else RiskLow.
Proof.
  apply (unobserved_is_never_riskless
    (with_anchors {| ta_version := PInt 1; ta_protocol := TIME_PROFILE_ID; evidence_digest := digest_text;
       claimed_time := None; observed_time := None; stellar_anchors := []; rfc3161_anchors := [] |} [stellar_sample] [])
    {| risk_level := RiskLow; reasons := [lit "No observed registration time recorded"];
       recommendations := [lit "Time attestation appears robust"] |}); vm_compute; reflexivity.
Defined.

(** A registration that carries the sample envelope, without credentials. *)
#[local] Instance sample_env : RegisterEnv := {|
  secure_filename := id; redact_sensitive := PDict; attest := λ _ _, AttestationInvalid |}.
Definition attested_payload : list (str * pyval) :=
  [(lit "videoHash", PStr digest_text); (lit "metadataHash", PStr digest_text); (lit "proofId", PStr digest_text);
   (lit "tier", PStr (lit "seal")); (lit "timeAttestation", encoded_sample)].
Definition open_config : app_config := AppConfig None [] None None None 65536 65536 [(lit "default", 30)].
Definition attested_request : http_request := Request None 2000 2000 (PDict attested_payload).
Definition attested_answer : store * list effect * result exn reply :=
  @register_proof_event _ (with_attestations 1700000100000 sample_env) open_config 1700000100 attested_request empty_store 1700000101 empty_store.
Definition attested_row : option proof_event :=
  match attested_answer.2 with Ok (Registered row true) => Some row | _ => None end.

Lemma attested_registers : is_Some attested_row.
Proof. apply (bool_decide_unpack _). vm_compute. exact I. Qed.

Lemma registered_attestation_is_bound_witness :
  ∃ row a, attested_row = Some row ∧ decode_time_attestation encoded_sample = Ok a ∧
    video_hash (ev row) = Some (evidence_digest a) ∧ Forall (rfc3161_in_range 1700000100000) (rfc3161_anchors a).
Proof.
  destruct attested_registers as [row Hrow]. exists row.
  assert (attested_answer = (attested_answer.1.1, attested_answer.1.2, Ok (Registered row true))) as Ha.
  { clear -Hrow. unfold attested_row in Hrow. destruct attested_answer as [[s fx] [[| |row' []]|]]; cbn in Hrow |- *; try discriminate.
    injection Hrow as ->. reflexivity. }
  destruct (registered_attestation_is_bound sample_env open_config 1700000100 1700000100000 attested_request empty_store 1700000101 empty_store
    attested_answer.1.1 attested_answer.1.2 row attested_payload encoded_sample eq_refl eq_refl Ha) as (_ & a & obj & Hd & _ & _ & _ & Hv & _ & _ & _ & _ & Hr).
  exists a. exact (conj Hrow (conj Hd (conj Hv Hr))).
Defined.

(** A status that the client claims for its anchor is stored as it came: nothing on the way of a
    registration looks at the chain. *)
Example claimed_status_is_stored :
  certificate_chain rfc3161_sample = PNone ∧ verification_status rfc3161_sample = PStr (lit "valid") ∧
  attest_with 1700000100000 encoded_sample digest_text = AttestationOk encoded_sample (Some (lit "1700000000000")).
Proof. split_and!; vm_compute; reflexivity. Qed.

(** An incomplete claimed time raises [KeyError], which registration does not catch; eleven
    anchors pass the decoder and make the anchor route raise. *)
Example attestation_routes_raise :
  let incomplete := PDict [(lit "version", PInt 1); (lit "protocol", PStr TIME_PROFILE_ID); (lit "evidenceDigest", PStr digest_text);
                           (lit "claimedTime", PDict [])] in
  let crowded := PDict [(lit "version", PInt 1); (lit "protocol", PStr TIME_PROFILE_ID); (lit "evidenceDigest", PStr digest_text);
                        (lit "stellarAnchors", PList (replicate 11 (encode_stellar stellar_sample)))] in
  attest_with 1700000100000 incomplete digest_text = AttestationRaises (KeyError "unixMs") ∧
  anchor_time_attestation 10 1000 (PDict [(lit "timeAttestation", crowded)]) = Err (ValueError "time attestation").
Proof. split; vm_compute; reflexivity. Qed.
