(* ===== verification/CaptureAttestation.v ===== *)
(** Capture-device attestations: [capture_attestation.py].  A record of application identity,
    trust level, nonce, device commitment and evidence digest is validated when it is built,
    encoded to and decoded from a JSON object, hashed, and checked against the evidence and the
    device key.

    The decoder hands the fields on as they came, so they are dynamically typed until the record
    validates them.

    Shown: a record that decodes is encoded, and decodes to the same record up to optional fields
    that are empty; the canonical hash and the evidence digest determine what they were computed
    from, unless SHA-256 collides; a commitment that was made for a nonce and a key is accepted,
    and one accepted commitment belongs to one nonce. *)
From Stdlib Require Import ZArith Lia.
From stdpp Require Import base decidable strings numbers list.
From S2P Require Import Prelude PyStr Json PyVal Codec Sha256 Webhook.
From S2P Require Import RegisterAuth Register Rfc3161Chain TimeAttestation.

Open Scope Z_scope.

#[local] Arguments lit _ : simpl never.

Definition CAPTURE_PROFILE_ID : str := lit "harpocrates-capture-attestation/v1".
Definition VALID_TIME_SOURCES : list str := map lit ["hardware_clock"; "ntp_synchronized"; "platform_clock"].
Definition VALID_PRIVACY_SCOPES : list str := map lit ["per_session"; "per_relying_party"; "per_device_group"].

Record AppIdentity := { package_name : pyval; version_code : pyval; build_fingerprint : pyval; signing_digest : pyval }.
Record SecureTime := { st_unix_ms : pyval; st_source : pyval; drift_ms : pyval }.
Record CameraPipeline := { sensor_orientation : pyval; has_watermark : bool; claimed_integrity : pyval }.

Record CaptureAttestation := {
  ca_version : pyval;
  trust_level : pyval;
  capture_nonce : pyval;
  app_identity : AppIdentity;
  device_commitment : pyval;
  privacy_scope : pyval;
  evidence_digest_binding : pyval;
  secure_time : option SecureTime;
  camera_pipeline : option CameraPipeline;
  platform_claims : pyval;
}.

(** [_is_hex32] *)
Definition is_hex32 (value : pyval) : bool :=
  match value with PStr s => (zlen s =? 64) && forallb is_lower_hex s | _ => false end.

(** [v in {0, 1, 2, 3, 4}]; a float is equal to a whole number when its text says so. *)
Definition valid_trust_level (v : pyval) : result ta_error bool :=
  match v with
  | PInt z => Ok ((0 <=? z) && (z <=? 4))
  | PBool _ => Ok true
  | PFloat f => Ok (bool_decide (fl_repr f ∈ map lit ["0.0"; "-0.0"; "1.0"; "2.0"; "3.0"; "4.0"]))
  | PList _ | PDict _ => Err (TaType (lit "unhashable type: '" ++ type_name v ++ lit "'"))
  | _ => Ok false
  end.

(** [v in names] for a set of texts *)
Definition in_text_set (v : pyval) (names : list str) : result ta_error bool :=
  match v with
  | PStr s => Ok (bool_decide (s ∈ names))
  | PList _ | PDict _ => Err (TaType (lit "unhashable type: '" ++ type_name v ++ lit "'"))
  | _ => Ok false
  end.

Definition text_value (v : pyval) : str := match v with PStr s => s | _ => [] end.

Section capture.
Context `{Unicode}.

(** [_validate_attestation] *)
Definition validate_attestation (a : CaptureAttestation) : result ta_error unit :=
  supported ← supported_version (ca_version a);
  ensure supported (TaValue (lit "Unsupported attestation version: " ++ py_str (ca_version a)));;
  level ← valid_trust_level (trust_level a);
  ensure level (TaValue (lit "Invalid trust level: " ++ py_str (trust_level a)));;
  ensure (is_hex32 (capture_nonce a)) (TaValue (lit "capture_nonce must be a 32-byte hex string"));;
  ensure (is_hex32 (device_commitment a)) (TaValue (lit "device_commitment must be a 32-byte hex string"));;
  ensure (is_hex32 (evidence_digest_binding a)) (TaValue (lit "evidence_digest_binding must be a 32-byte hex string"));;
  scope ← in_text_set (privacy_scope a) VALID_PRIVACY_SCOPES;
  ensure scope (TaValue (lit "Invalid privacy scope: " ++ py_str (privacy_scope a)));;
  match secure_time a with
  | Some t =>
      source ← in_text_set (st_source t) VALID_TIME_SOURCES;
      ensure source (TaValue (lit "Invalid time source: " ++ py_str (st_source t)))
  | None => Ok ()
  end.

(** [CaptureAttestation(...)]: the record is validated when it is built. *)
Definition capture_post_init (a : CaptureAttestation) : result ta_error CaptureAttestation := validate_attestation a;; Ok a.

(** * Encoding *)

(** [v.lower()] of a text *)
Definition lower_value (v : pyval) : result ta_error pyval :=
  match v with PStr s => Ok (PStr (py_lower s)) | _ => Err (TaOther AttributeError) end.

(** The identity, its optional fields left out when they are empty. *)
Definition encode_identity (i : AppIdentity) : result ta_error (list (str * pyval)) :=
  digest ← (if truthy (signing_digest i) then d ← lower_value (signing_digest i); Ok [(lit "signingDigest", d)] else Ok []);
  Ok ([(lit "packageName", package_name i); (lit "versionCode", version_code i)] ++
      (if truthy (build_fingerprint i) then [(lit "buildFingerprint", build_fingerprint i)] else []) ++ digest).

Definition encode_secure_time (t : SecureTime) : pyval :=
  PDict [(lit "unixMs", st_unix_ms t); (lit "source", st_source t); (lit "driftMs", drift_ms t)].

Definition not_none (key : string) (v : pyval) : list (str * pyval) :=
  match v with PNone => [] | _ => [(lit key, v)] end.

Definition encode_camera (c : CameraPipeline) : pyval :=
  PDict (not_none "sensorOrientation" (sensor_orientation c) ++ [(lit "hasWatermark", PBool (has_watermark c))] ++
         not_none "claimedIntegrity" (claimed_integrity c)).

Definition encode_attestation (a : CaptureAttestation) : result ta_error (list (str * pyval)) :=
  validate_attestation a;;
  identity ← encode_identity (app_identity a);
  Ok ([(lit "version", ca_version a); (lit "profile", PStr CAPTURE_PROFILE_ID); (lit "trustLevel", trust_level a);
       (lit "captureNonce", PStr (py_lower (text_value (capture_nonce a)))); (lit "appIdentity", PDict identity);
       (lit "deviceCommitment", PStr (py_lower (text_value (device_commitment a)))); (lit "privacyScope", privacy_scope a);
       (lit "evidenceDigestBinding", PStr (py_lower (text_value (evidence_digest_binding a))))] ++
      match secure_time a with Some t => [(lit "secureTime", encode_secure_time t)] | None => [] end ++
      match camera_pipeline a with Some c => [(lit "cameraPipeline", encode_camera c)] | None => [] end ++
      (if truthy (platform_claims a) then [(lit "platformClaims", platform_claims a)] else [])).

(** * Decoding *)

(** [_validate_attestation_obj], with what it makes certain. *)
Definition validate_attestation_obj (obj : pyval) : result ta_error (list (str * pyval) * list (str * pyval)) :=
  match obj with
  | PDict d =>
      ensure (in_str_tuple (get_or_none (lit "profile") d) [CAPTURE_PROFILE_ID])
        (TaValue (lit "attestation profile must be " ++ CAPTURE_PROFILE_ID));;
      let version := get_or_none (lit "version") d in
      supported ← supported_version version;
      ensure supported (TaValue (lit "Unsupported attestation version: " ++ py_str version));;
      match list_find (λ k, dict_has k d = false)
              (map lit ["trustLevel"; "captureNonce"; "appIdentity"; "deviceCommitment"; "privacyScope"; "evidenceDigestBinding"]) with
      | Some (_, k) => Err (TaValue (lit "attestation missing required field: " ++ k))
      | None =>
          match get_or_none (lit "appIdentity") d with
          | PDict i =>
              ensure (dict_has (lit "packageName") i) (TaValue (lit "appIdentity.packageName is required"));;
              ensure (dict_has (lit "versionCode") i) (TaValue (lit "appIdentity.versionCode is required"));;
              Ok (d, i)
          | _ => Err (TaValue (lit "appIdentity must be a JSON object"))
          end
      end
  | _ => Err (TaType (lit "attestation object must be a JSON object"))
  end.

Definition decode_secure_time (data : pyval) : result ta_error (option SecureTime) :=
  match data with
  | PNone => Ok None
  | PDict _ =>
      u ← subscript data "unixMs"; s ← subscript data "source"; m ← subscript data "driftMs";
      Ok (Some {| st_unix_ms := u; st_source := s; drift_ms := m |})
  | _ => Err (TaValue (lit "secureTime must be a JSON object"))
  end.

Definition decode_camera_pipeline (data : pyval) : option CameraPipeline :=
  match data with
  | PDict d =>
      Some {| sensor_orientation := get_or_none (lit "sensorOrientation") d;
              has_watermark := truthy (default (PBool false) (dict_get (lit "hasWatermark") d));
              claimed_integrity := get_or_none (lit "claimedIntegrity") d |}
  | _ => None
  end.

Definition decode_attestation (obj : pyval) : result ta_error CaptureAttestation :=
  '(d, i) ← validate_attestation_obj obj;
  time ← decode_secure_time (get_or_none (lit "secureTime") d);
  capture_post_init
    {| ca_version := get_or_none (lit "version") d; trust_level := get_or_none (lit "trustLevel") d;
       capture_nonce := get_or_none (lit "captureNonce") d;
       app_identity := {| package_name := get_or_none (lit "packageName") i; version_code := get_or_none (lit "versionCode") i;
                          build_fingerprint := get_or_none (lit "buildFingerprint") i;
                          signing_digest := get_or_none (lit "signingDigest") i |};
       device_commitment := get_or_none (lit "deviceCommitment") d; privacy_scope := get_or_none (lit "privacyScope") d;
       evidence_digest_binding := get_or_none (lit "evidenceDigestBinding") d; secure_time := time;
       camera_pipeline := decode_camera_pipeline (get_or_none (lit "cameraPipeline") d);
       platform_claims := default (PDict []) (dict_get (lit "platformClaims") d) |}.

(** * Hashes and commitments *)

Definition canonical_attestation_hash (a : CaptureAttestation) : result ta_error str :=
  encoded ← encode_attestation a;
  match utf8_encode (json_dumps true (PDict encoded)) with
  | Some b => Ok (sha256_hex b)
  | None => Err (TaOther UnicodeError)
  end.

Definition verify_evidence_binding (a : CaptureAttestation) (evidence_payload : bytes) : bool :=
  bool_decide (text_value (evidence_digest_binding a) = sha256_hex evidence_payload).

(** [bytes.fromhex] of a text that is not hex raises [ValueError]. *)
Definition make_device_commitment (nonce : str) (key : bytes) : result ta_error str :=
  match bytes_fromhex nonce with
  | Some n => Ok (bytes_hex (hmac_sha256 key n))
  | None => Err (TaValue (lit "non-hexadecimal number found in fromhex() arg"))
  end.

Definition verify_device_commitment (a : CaptureAttestation) (key : bytes) : result ta_error bool :=
  expected ← make_device_commitment (text_value (capture_nonce a)) key;
  Ok (bool_decide (text_value (device_commitment a) = expected)).
End capture.

(** * Encoding and decoding *)

Section facts.
Context `{Unicode, FloatText}.

Lemma is_hex32_text v : is_hex32 v = true → ∃ s, v = PStr s ∧ length s = 64%nat ∧ Forall (λ c, is_lower_hex c = true) s.
Proof.
  destruct v; cbn [is_hex32]; try done. rewrite andb_true_iff, forallb_Forall. intros [Hl Hf]. exists s. split_and!; [done| |done].
  unfold zlen in Hl. lia.
Qed.

Lemma lower_hex_fixed s : Forall (λ c, is_lower_hex c = true) s → py_lower s = s.
Proof.
  intros Hs. rewrite py_lower_ascii.
  - induction Hs as [|c s Hc Hs IH]; [done|]. cbn. rewrite IH. f_equal.
    unfold ascii_lower. unfold is_lower_hex in Hc. case_match; bool_inv; lia.
  - eapply Forall_impl; [exact Hs|]. cbn. unfold is_lower_hex. intros c Hc. bool_inv; lia.
Qed.

Lemma hex32_encoded v : is_hex32 v = true → PStr (py_lower (text_value v)) = v.
Proof. intros (s & -> & _ & Hs)%is_hex32_text. cbn [text_value]. by rewrite lower_hex_fixed. Qed.

(** A record with its optional fields as the decoder gives them. *)
Definition tidy (a : CaptureAttestation) : CaptureAttestation :=
  {| ca_version := ca_version a; trust_level := trust_level a; capture_nonce := capture_nonce a;
     app_identity := {| package_name := package_name (app_identity a); version_code := version_code (app_identity a);
       build_fingerprint := if truthy (build_fingerprint (app_identity a)) then build_fingerprint (app_identity a) else PNone;
       signing_digest := if truthy (signing_digest (app_identity a)) then PStr (py_lower (text_value (signing_digest (app_identity a)))) else PNone |};
     device_commitment := device_commitment a; privacy_scope := privacy_scope a; evidence_digest_binding := evidence_digest_binding a;
     secure_time := secure_time a; camera_pipeline := camera_pipeline a;
     platform_claims := if truthy (platform_claims a) then platform_claims a else PDict [] |}.

Lemma decode_encode_camera c : decode_camera_pipeline (encode_camera c) = Some c.
Proof. destruct c as [so hw ci]. destruct so, ci; by destruct hw. Qed.

Lemma decode_encode_time t : decode_secure_time (encode_secure_time t) = Ok (Some t).
Proof. by destruct t. Qed.

Lemma encode_identity_inv i e : encode_identity i = Ok e →
  get_or_none (lit "packageName") e = package_name i ∧ dict_has (lit "packageName") e = true ∧
  get_or_none (lit "versionCode") e = version_code i ∧ dict_has (lit "versionCode") e = true ∧
  get_or_none (lit "buildFingerprint") e = (if truthy (build_fingerprint i) then build_fingerprint i else PNone) ∧
  get_or_none (lit "signingDigest") e = (if truthy (signing_digest i) then PStr (py_lower (text_value (signing_digest i))) else PNone).
Proof.
  unfold encode_identity. destruct i as [p v b s]. cbn [package_name version_code build_fingerprint signing_digest].
  intros (d & Hd & [= <-])%bind_ok. destruct (truthy s).
  - apply bind_ok in Hd as (x & Hx & [= <-]). destruct s; try done. injection Hx as <-. destruct (truthy b); by split_and!.
  - injection Hd as <-. destruct (truthy b); by split_and!.
Qed.

(** An encoded record decodes, to the same record up to optional fields that are empty. *)
Lemma encoded_attestation_decodes a obj : encode_attestation a = Ok obj → decode_attestation (PDict obj) = Ok (tidy a).
Proof.
  unfold encode_attestation. intros [Hv He]%seq_ok. apply bind_ok in He as (i & Hi & [= <-]).
  pose proof (encode_identity_inv _ _ Hi) as (Hp1 & Hp2 & Hc1 & Hc2 & Hb & Hs).
  pose proof Hv as Hv'. unfold validate_attestation in Hv'. apply bind_ok in Hv' as (b & Hsv & Hv'). apply seq_ok in Hv' as [->%ensure_ok Hv'].
  apply bind_ok in Hv' as (l & _ & Hv'). apply seq_ok in Hv' as [_ Hv']. rewrite !seq_ok, !ensure_ok in Hv'.
  destruct Hv' as (Hn%hex32_encoded & Hd%hex32_encoded & He%hex32_encoded & _).
  rewrite Hn, Hd, He. destruct a as [v tl nc ai dc ps eb st cp pc].
  cbn [ca_version trust_level capture_nonce app_identity device_commitment privacy_scope evidence_digest_binding secure_time camera_pipeline
       platform_claims] in *.
  match goal with |- decode_attestation (PDict ?x) = _ => set (obj := x) end.
  assert (get_or_none (lit "secureTime") obj = match st with Some t => encode_secure_time t | None => PNone end) as Hst
    by (destruct st, cp; unfold obj; by destruct (truthy pc)).
  assert (get_or_none (lit "cameraPipeline") obj = match cp with Some t => encode_camera t | None => PNone end) as Hcp
    by (destruct st, cp; unfold obj; by destruct (truthy pc)).
  assert (default (PDict []) (dict_get (lit "platformClaims") obj) = if truthy pc then pc else PDict []) as Hpc
    by (destruct st, cp; unfold obj; by destruct (truthy pc)).
  assert (validate_attestation_obj (PDict obj) = Ok (obj, i)) as Ho.
  { unfold validate_attestation_obj. change (get_or_none (lit "profile") obj) with (PStr CAPTURE_PROFILE_ID).
    change (get_or_none (lit "version") obj) with v. cbn [in_str_tuple]. rewrite bool_decide_eq_true_2 by (by left).
    cbv zeta. rewrite Hsv. cbn [ensure mbind result_bind]. change (list_find _ _) with (@None (nat * str)). cbv iota.
    change (get_or_none (lit "appIdentity") obj) with (PDict i). cbv iota. by rewrite Hp2, Hc2. }
  unfold decode_attestation. rewrite Ho, bind_Ok, Hst, Hcp, Hpc, Hp1, Hc1, Hb, Hs.
  assert (decode_secure_time match st with Some t => encode_secure_time t | None => PNone end = Ok st) as -> by (by destruct st as [[]|]).
  assert (decode_camera_pipeline match cp with Some t => encode_camera t | None => PNone end = cp) as ->
    by (destruct cp; [apply decode_encode_camera|done]).
  rewrite bind_Ok. unfold capture_post_init. apply seq_ok. split; [exact Hv|reflexivity].
Qed.

(** A record that was decoded is valid, and encodes when its signing digest is a text or empty. *)
Lemma decoded_attestation_valid v a : decode_attestation v = Ok a → validate_attestation a = Ok ().
Proof.
  unfold decode_attestation. intros ([d i] & _ & Ha)%bind_ok. apply bind_ok in Ha as (t & _ & Ha).
  unfold capture_post_init in Ha. apply seq_ok in Ha as [Hv [= <-]]. exact Hv.
Qed.

(** Decoding then encoding keeps the record: what was decoded is encoded, and decodes to the same
    record, but for optional fields that are empty and are left out. *)
Theorem capture_attestation_reencodes v a : decode_attestation v = Ok a →
  (truthy (signing_digest (app_identity a)) = true → ∃ s, signing_digest (app_identity a) = PStr s) →
  ∃ obj, encode_attestation a = Ok obj ∧ decode_attestation (PDict obj) = Ok (tidy a).
Proof.
  intros Hv%decoded_attestation_valid Hs.
  assert (∃ obj, encode_attestation a = Ok obj) as [obj Ho].
  { unfold encode_attestation. rewrite Hv. cbn [mbind result_bind]. unfold encode_identity.
    destruct (truthy (signing_digest (app_identity a))); [destruct Hs as [s ->]; [done|]|]; by eexists. }
  exists obj. split; [done|]. by apply encoded_attestation_decodes.
Qed.

(** Records with the same canonical hash have the same encoding, whatever the order of its keys,
    unless SHA-256 collides on the two canonical texts. *)
Theorem canonical_hash_determines a a' obj obj' h :
  encode_attestation a = Ok obj → encode_attestation a' = Ok obj' → plain (PDict obj) = true → plain (PDict obj') = true →
  canonical_attestation_hash a = Ok h → canonical_attestation_hash a' = Ok h →
  canon (PDict obj) = canon (PDict obj') ∨ ∃ b b', sha256_collision b b'.
Proof.
  intros He He' Hp Hp'. unfold canonical_attestation_hash. rewrite He, He', !bind_Ok.
  destruct (json_dumps_utf8 true _ Hp) as [[b Hb] _], (json_dumps_utf8 true _ Hp') as [[b' Hb'] _]. rewrite Hb, Hb'.
  intros [= <-] [= Heq]. symmetry in Heq. apply sha256_hex_eq in Heq as [->|Hc]; [left; by eapply json_bytes_inj|right; eauto].
Qed.

(** * Bindings *)

Lemma hex_val_lower c d : is_lower_hex c = true → hex_val c = Some d → hex_digit d = c.
Proof. unfold is_lower_hex, hex_val, hex_digit. intros Hc Hd. repeat case_match; bool_inv; simplify_eq; lia. Qed.

(** Lower-case hex is what its bytes are printed as. *)
Lemma fromhex_lower s b : Forall (λ c, is_lower_hex c = true) s → bytes_fromhex s = Some b → bytes_hex b = s.
Proof.
  revert b. induction s as [s IH] using (induction_ltof1 _ (@length Z)). unfold ltof in IH. intros b Hs Hb.
  destruct s as [|c [|d s]]; cbn in Hb; [by injection Hb as <-| |].
  - apply Forall_cons in Hs as [Hc _]. unfold is_lower_hex in Hc. case_match; [bool_inv; lia|done].
  - apply Forall_cons in Hs as [Hc Hs]. apply Forall_cons in Hs as [Hd Hs]. pose proof Hc as Hc'. unfold is_lower_hex in Hc'.
    case_match; [bool_inv; lia|]. destruct (hex_val c) as [h|] eqn:Eh; [|done]. destruct (hex_val d) as [l|] eqn:El; [|done]. cbn in Hb.
    destruct (bytes_fromhex s) as [t|] eqn:Et; [|done]. cbn in Hb. injection Hb as <-.
    pose proof (IH s ltac:(cbn; lia) t Hs Et) as IHs. rewrite bytes_hex_cons, IHs.
    pose proof (hex_val_range _ _ Eh). pose proof (hex_val_range _ _ El).
    replace ((h * 16 + l) / 16) with h by (symmetry; rewrite Z.div_add_l, Z.div_small by lia; lia).
    replace ((h * 16 + l) mod 16) with l by (symmetry; rewrite Z.add_comm, Z.mod_add, Z.mod_small by lia; lia).
    by rewrite (hex_val_lower c h), (hex_val_lower d l).
Qed.

Lemma fromhex_hex32 v : is_hex32 v = true → ∃ n, bytes_fromhex (text_value v) = Some n ∧ bytes_hex n = text_value v.
Proof.
  intros (s & -> & Hl & Hs)%is_hex32_text. cbn [text_value].
  destruct (fromhex_total s) as [n Hn]; [by apply lower_hex_is_hex, forallb_Forall|by exists 32%nat|].
  exists n. split; [done|]. by apply fromhex_lower.
Qed.

Lemma validated_hex a : validate_attestation a = Ok () →
  is_hex32 (capture_nonce a) = true ∧ is_hex32 (device_commitment a) = true ∧ is_hex32 (evidence_digest_binding a) = true.
Proof.
  unfold validate_attestation. intros (b & _ & Hv)%bind_ok. apply seq_ok in Hv as [_ Hv]. apply bind_ok in Hv as (l & _ & Hv).
  rewrite !seq_ok, !ensure_ok in Hv. tauto.
Qed.

(** A commitment made for the nonce of a record and a key is well formed and accepted for that
    key; under one key, records that carry the same accepted commitment carry the same nonce,
    unless SHA-256 collides. *)
Theorem device_commitment_binds a a' key : validate_attestation a = Ok () → validate_attestation a' = Ok () →
  (∃ c, make_device_commitment (text_value (capture_nonce a)) key = Ok c ∧ is_hex32 (PStr c) = true ∧
        verify_device_commitment a key = Ok (bool_decide (text_value (device_commitment a) = c))) ∧
  (verify_device_commitment a key = Ok true → verify_device_commitment a' key = Ok true →
   device_commitment a = device_commitment a' → capture_nonce a = capture_nonce a' ∨ ∃ b b', sha256_collision b b').
Proof.
  intros (Hn & Hd & _)%validated_hex (Hn' & Hd' & _)%validated_hex.
  destruct (fromhex_hex32 _ Hn) as (n & En & Bn), (fromhex_hex32 _ Hn') as (n' & En' & Bn').
  apply is_hex32_text in Hn as (t & Et & _), Hn' as (t' & Et' & _), Hd as (c & Ec & _), Hd' as (c' & Ec' & _).
  rewrite Et, Et', Ec, Ec' in *. cbn [text_value] in *. unfold verify_device_commitment, make_device_commitment.
  rewrite Et, Et', Ec, Ec'. cbn [text_value]. rewrite En, En', !bind_Ok. split.
  - eexists. split; [done|]. split.
    + cbn [is_hex32]. unfold hmac_sha256. change (bytes_hex (sha256 ?x)) with (sha256_hex x). unfold zlen. rewrite length_sha256_hex.
      apply forallb_Forall, sha256_hex_lower.
    + done.
  - intros [= Hc%bool_decide_eq_true] [= Hc'%bool_decide_eq_true] [= ->].
    rewrite Hc in Hc'. apply sha256_hex_eq in Hc' as [Ho|Hcol]; [|eauto]. unfold hmac_outer in Ho. apply app_inv_head in Ho.
    destruct (decide (hmac_inner key n = hmac_inner key n')) as [Hi|Hi]; [|right; eexists _, _; split; [exact Hi|exact Ho]].
    left. unfold hmac_inner in Hi. apply app_inv_head in Hi. by rewrite <- Bn, <- Bn', Hi.
Qed.

(** One record binds one piece of evidence, unless SHA-256 collides. *)
Theorem evidence_binding_is_unique a p p' :
  verify_evidence_binding a p = true → verify_evidence_binding a p' = true → p = p' ∨ sha256_collision p p'.
Proof.
  unfold verify_evidence_binding. rewrite !bool_decide_eq_true. intros Hp Hp'. apply sha256_hex_eq. congruence.
Qed.
End facts.

(** * Witnesses *)

#[local] Existing Instance plain_unicode.
#[local] Instance sample_floats : FloatText := λ s, PyFloat s s (Err OverflowError) false.

Definition sample_nonce : str := lit "0123456789abcdef0123456789abcdef0123456789abcdef0123456789abcdef".
Definition sample_key : bytes := [1; 2; 3].
Definition sample_evidence : bytes := [7; 7].

Definition sample_capture (commitment evidence : str) : CaptureAttestation :=
  {| ca_version := PInt 1; trust_level := PInt 2; capture_nonce := PStr sample_nonce;
     app_identity := {| package_name := PStr (lit "app"); version_code := PStr (lit "7"); build_fingerprint := PStr [];
                        signing_digest := PNone |};
     device_commitment := PStr commitment; privacy_scope := PStr (lit "per_session"); evidence_digest_binding := PStr evidence;
     secure_time := Some {| st_unix_ms := PInt 5; st_source := PStr (lit "hardware_clock"); drift_ms := PInt 0 |};
     camera_pipeline := Some {| sensor_orientation := PNone; has_watermark := true; claimed_integrity := PStr (lit "raw_sensor") |};
     platform_claims := PDict [] |}.

Notation sample_record := (sample_capture sample_nonce sample_nonce).
Notation sample_object := (from_ok [] (encode_attestation sample_record)).

Lemma capture_attestation_reencodes_witness :
  ∃ obj, encode_attestation (tidy sample_record) = Ok obj ∧ decode_attestation (PDict obj) = Ok (tidy (tidy sample_record)).
Proof.
  apply (capture_attestation_reencodes (PDict sample_object)).
  - vm_compute. reflexivity.
  - vm_compute. discriminate.
Defined.

Notation sample_hash_text := (from_ok [] (canonical_attestation_hash sample_record)).

Lemma sample_hash_ok : is_ok (canonical_attestation_hash sample_record) = true.
Proof. vm_compute. reflexivity. Qed.

Lemma canonical_hash_determines_witness :
  canon (PDict sample_object) = canon (PDict sample_object) ∨ ∃ b b', sha256_collision b b'.
Proof.
  apply (canonical_hash_determines sample_record sample_record sample_object sample_object sample_hash_text).
  - vm_compute. reflexivity.
  - vm_compute. reflexivity.
  - vm_compute. reflexivity.
  - vm_compute. reflexivity.
  - apply from_ok_spec. exact sample_hash_ok.
  - apply from_ok_spec. exact sample_hash_ok.
Defined.

Lemma sample_valid : validate_attestation sample_record = Ok ().
Proof. vm_compute. reflexivity. Qed.

Lemma device_commitment_binds_witness :
  ∃ c, make_device_commitment sample_nonce sample_key = Ok c ∧ is_hex32 (PStr c) = true ∧
    verify_device_commitment sample_record sample_key = Ok (bool_decide (text_value (device_commitment sample_record) = c)).
Proof. exact (proj1 (device_commitment_binds sample_record sample_record sample_key sample_valid sample_valid)). Defined.

Lemma sample_binding : verify_evidence_binding (sample_capture sample_nonce (sha256_hex sample_evidence)) sample_evidence = true.
Proof. apply bool_decide_eq_true. reflexivity. Qed.

Lemma evidence_binding_is_unique_witness : sample_evidence = sample_evidence ∨ sha256_collision sample_evidence sample_evidence.
Proof.
  apply (evidence_binding_is_unique (sample_capture sample_nonce (sha256_hex sample_evidence))); exact sample_binding.
Defined.

(** Claims about the camera and the signing digest are not checked against the values the module
    lists, a camera that is not an object is dropped, and an incomplete time raises [KeyError]. *)
Example unchecked_capture_claims :
  let obj time camera := PDict [(lit "version", PInt 1); (lit "profile", PStr CAPTURE_PROFILE_ID); (lit "trustLevel", PBool true);
    (lit "captureNonce", PStr sample_nonce);
    (lit "appIdentity", PDict [(lit "packageName", PNone); (lit "versionCode", PNone); (lit "signingDigest", PStr (lit "not hex"))]);
    (lit "deviceCommitment", PStr sample_nonce); (lit "privacyScope", PStr (lit "per_session"));
    (lit "evidenceDigestBinding", PStr sample_nonce); (lit "secureTime", time); (lit "cameraPipeline", camera)] in
  is_ok (decode_attestation (obj PNone (PDict [(lit "claimedIntegrity", PStr (lit "anything"))]))) = true ∧
  is_ok (decode_attestation (obj PNone (PInt 5))) = true ∧
  decode_attestation (obj (PDict []) PNone) = Err (TaOther (KeyError "unixMs")).
Proof. split_and!; vm_compute; reflexivity. Qed.
