(* ===== verification/TraceFields.v ===== *)
(** Trace fields: [trace_fields.py], the identifiers a request is correlated by in the logs.
    Identifiers from headers are taken only when they are short and plain, a [traceparent] only
    as a whole, and identifiers in a path are replaced text_before it is logged.

    Random identifiers are arguments.  [str.isalnum] above ASCII is the parameter of [Logging.v].

    Shown: an identifier that is taken is made of at most 128 plain ASCII characters and is taken
    unchanged again; the [traceparent] of a request parses back to the identifiers it was made
    of; a sanitized path has no segment that looks like an identifier, and sanitizing again
    changes nothing; merging into an event keeps what the event says and drops a path that is
    not the sanitized one.  Also: a correlation identifier can trip the module's own check. *)
From Stdlib Require Import ZArith Lia.
From stdpp Require Import base decidable strings numbers list.
From S2P Require Import Prelude PyStr Json PyVal Codec Sha256 MetadataErrors Logging.

Open Scope Z_scope.

#[local] Arguments lit _ : simpl never.

Definition TRACE_FIELDS_SCHEMA_VERSION : str := lit "harpocrates-trace-v1".
Definition MAX_OPAQUE_ID_BYTES : Z := 128.
Definition TRACE_SAFE_WORDS : list str :=
  map lit ["proof"; "video"; "embed"; "extract"; "upload"; "api"; "health"; "metrics"; "ready"; "readiness"; "stego"; "noir"; "schemas";
           "verify"; "register"; "aggregate"; "internal"; "public"; "status"; "version"; "webhook"; "workspace"; "lineage"; "events"].

(** * Character classes *)

Definition is_alpha_num (c : Z) : bool := (48 <=? c) && (c <=? 57) || (65 <=? c) && (c <=? 90) || (97 <=? c) && (c <=? 122).
(** [[A-Za-z0-9._:@+/-]] *)
Definition is_opaque (c : Z) : bool := is_alpha_num c || bool_decide (c ∈ lit "._:@+/-").
(** [[A-Za-z0-9+/\-_]] *)
Definition is_b64_char (c : Z) : bool := is_alpha_num c || bool_decide (c ∈ lit "+/-_").

(** A pattern from [^] to [$] matches the text, or the text without a final newline. *)
Definition dollar (p : str → bool) (s : str) : bool :=
  p s || match last s with Some 10 => p (take (length s - 1) s) | _ => false end.

Definition opaque_id_re : str → bool := dollar (λ s, (1 <=? zlen s) && (zlen s <=? 128) && forallb is_opaque s).

(** Hex groups of the given lengths, separated by dashes. *)
Fixpoint hex_groups (lengths : list nat) (s : str) : bool :=
  match lengths with
  | [] => bool_decide (s = [])
  | [n] => bool_decide (length s = n) && forallb is_hex s
  | n :: lengths =>
      bool_decide (length (take n s) = n) && forallb is_hex (take n s) &&
      match drop n s with c :: s' => (c =? 45) && hex_groups lengths s' | [] => false end
  end.

Definition uuid_seg_re : str → bool := dollar (hex_groups [8; 4; 4; 4; 12]%nat).
Definition hex_long_re : str → bool := dollar (λ s, (16 <=? zlen s) && forallb is_hex s).
Definition digits_long_re : str → bool := dollar (λ s, (7 <=? zlen s) && forallb is_digit s).
(** At least 41 characters of the class, then at most three equals signs. *)
Definition b64_long_re : str → bool :=
  dollar (λ s, let '(body, pad) := span is_b64_char s in (41 <=? zlen body) && (zlen pad <=? 3) && forallb (λ c, c =? 61) pad).

(** The length of [s.encode("utf-8", "replace")]: a surrogate becomes a question mark. *)
Definition utf8_replace (s : str) : bytes := s ≫= λ c, default [63] (utf8_char c).

Section trace.
Context `{Unicode, Alnum}.

(** [trace_domain_tag] of a text *)
Definition trace_domain_tag (value : str) : str := lit "v1:" ++ take 16 (sha256_hex (utf8_replace value)).

(** The values that look like secrets. *)
Definition looks_secret (candidate : str) : bool :=
  let lowered := py_lower candidate in
  starts_with (lit "eyj") lowered || contains (lit "begin ") lowered || contains (lit "private") lowered.

Definition normalize_opaque_id (value : pyval) : option str :=
  match value with
  | PStr value =>
      let candidate := py_strip value in
      if bool_decide (candidate = []) then None else
      if MAX_OPAQUE_ID_BYTES <? zlen (utf8_replace candidate) then None else
      if negb (opaque_id_re candidate) then None else
      if looks_secret candidate then None else Some candidate
  | _ => None
  end.

Record Traceparent := { tp_version : str; tp_trace_id : str; tp_span_id : str; tp_trace_flags : str }.

(** [_TRACEPARENT_RE] matches four hex groups in either case. *)
Definition traceparent_re : str → bool := dollar (hex_groups [2; 32; 16; 2]%nat).

Definition parse_traceparent (header : pyval) : option Traceparent :=
  match header with
  | PStr header =>
      let raw := py_strip header in
      if bool_decide (raw = []) || (MAX_OPAQUE_ID_BYTES <? zlen (utf8_replace raw)) then None else
      if negb (traceparent_re raw) then None else
      let version := py_lower (take 2 raw) in
      let trace_id := py_lower (take 32 (drop 3 raw)) in
      let span_id := py_lower (take 16 (drop 36 raw)) in
      let flags := py_lower (take 2 (drop 53 raw)) in
      if negb (bool_decide (version = lit "00")) then None else
      if bool_decide (trace_id = replicate 32 48) || bool_decide (span_id = replicate 16 48) then None else
      Some {| tp_version := version; tp_trace_id := trace_id; tp_span_id := span_id; tp_trace_flags := flags |}
  | _ => None
  end.

(** A path segment that looks like an identifier. *)
Definition identifier_like (seg : str) : bool :=
  uuid_seg_re seg || hex_long_re seg || digits_long_re seg || b64_long_re seg ||
  ((16 <=? zlen seg) && forallb isalnum seg && negb (bool_decide (py_lower seg ∈ TRACE_SAFE_WORDS))).

Definition ID_MARK : str := lit "{id}".

(** The loop over the segments, with what was processed in order. *)
Fixpoint process_segments (processed segments : list str) : list str :=
  match segments with
  | [] => processed
  | seg :: segments =>
      if bool_decide (seg = []) then process_segments processed segments
      else if identifier_like seg then
        if bool_decide (last processed = Some ID_MARK) then process_segments processed segments
        else process_segments (processed ++ [ID_MARK]) segments
      else process_segments (processed ++ [seg]) segments
  end.

(** The part of a text before a character. *)
Definition text_before (c : Z) (s : str) : str := default [] (head (split_on c s)).

Definition trace_sanitize_endpoint_pattern (path : str) : str :=
  let cleaned := text_before 35 (text_before 63 path) in
  if bool_decide (cleaned = []) then lit "/" else
  let segments := split_on 47 cleaned in
  let is_absolute := bool_decide (head segments = Some []) in
  let processed := process_segments [] (if is_absolute then tail segments else segments) in
  match processed with
  | [] => lit "/"
  | _ => if is_absolute then 47 :: join_sep 47 processed else join_sep 47 processed
  end.

(** [_header_get]: the first of the names that has a value. *)
Definition lower_map (headers : list (str * pyval)) : list (str * pyval) :=
  foldl (λ d p, dict_set (py_lower p.1) p.2 d) [] headers.

Fixpoint first_header (m : list (str * pyval)) (names : list str) : option str :=
  match names with
  | [] => None
  | n :: names =>
      match get_or_none (py_lower n) m with
      | PNone => first_header m names
      | v => Some (py_str v)
      end
  end.

Definition header_get (headers : option (list (str * pyval))) (names : list string) : pyval :=
  match headers ≫= λ h, first_header (lower_map h) (map lit names) with Some s => PStr s | None => PNone end.

(** [a or b] for an optional identifier *)
Definition or_given (a : option str) (b : str) : str := match a with Some ((_ :: _) as s) => s | _ => b end.

Definition hex_of_length (n : nat) (s : str) : bool := bool_decide (length s = n) && forallb is_hex s.

(** The identifiers when there is no [traceparent]. *)
Definition fallback_trace_id (x_trace : option str) (rid : str) : str :=
  match x_trace with
  | Some ((_ :: _) as x) => if hex_of_length 32 x then py_lower x else take 32 (sha256_hex (utf8_replace x))
  | _ => take 32 (sha256_hex (utf8_replace rid))
  end.

Definition fallback_span_id (x_span : option str) (fresh_span : str) : str :=
  match x_span with
  | Some ((_ :: _) as x) => if hex_of_length 16 x then py_lower x else fresh_span
  | _ => fresh_span
  end.

(** [if v: fields[key] = v] *)
Definition if_text (key : string) (v : option str) : list (str * pyval) :=
  match v with Some ((_ :: _) as s) => [(lit key, PStr s)] | _ => [] end.

(** [build_trace_fields]; [fresh_uuid] and [fresh_span] are the random identifiers of the call. *)
Definition build_trace_fields (fresh_uuid fresh_span : str) (headers : option (list (str * pyval))) (request_id : pyval)
    (method route path : option str) : list (str * pyval) :=
  let rid := or_given (normalize_opaque_id request_id) fresh_uuid in
  let traceparent := parse_traceparent (header_get headers ["traceparent"]) in
  let x_trace := normalize_opaque_id (header_get headers ["X-Trace-ID"; "X-Trace-Id"]) in
  let x_span := normalize_opaque_id (header_get headers ["X-Span-ID"; "X-Span-Id"]) in
  let x_corr := normalize_opaque_id (header_get headers ["X-Correlation-ID"; "X-Correlation-Id"; "X-Correlation-Id"]) in
  let '(trace_id, parent, flags, span_id) :=
    match traceparent with
    | Some t => (tp_trace_id t, Some (tp_span_id t), tp_trace_flags t, fresh_span)
    | None => (fallback_trace_id x_trace rid, None, lit "01", fallback_span_id x_span fresh_span)
    end in
  let correlation_id := or_given x_corr rid in
  let endpoint := trace_sanitize_endpoint_pattern (or_given path (or_given route (lit "/"))) in
  [(lit "trace_schema", PStr TRACE_FIELDS_SCHEMA_VERSION); (lit "request_id", PStr rid); (lit "trace_id", PStr (py_lower trace_id));
   (lit "span_id", PStr (py_lower span_id)); (lit "correlation_id", PStr correlation_id);
   (lit "correlation_id_tag", PStr (trace_domain_tag correlation_id)); (lit "request_id_tag", PStr (trace_domain_tag rid));
   (lit "endpoint_pattern", PStr endpoint); (lit "trace_flags", PStr flags)] ++
  if_text "parent_span_id" parent ++ if_text "method" method ++ if_text "route" route.

Definition lower_hex_of_length (n : nat) (s : str) : bool := bool_decide (length s = n) && forallb is_lower_hex s.

Definition format_traceparent (fields : list (str * pyval)) : option str :=
  let flags := get_or_none (lit "trace_flags") fields in
  let flags := py_str (if truthy flags then flags else PStr (lit "01")) in
  match get_or_none (lit "trace_id") fields, get_or_none (lit "span_id") fields with
  | PStr trace_id, PStr span_id =>
      if negb (lower_hex_of_length 32 trace_id) then None else
      if negb (lower_hex_of_length 16 span_id) then None else
      let flags := if lower_hex_of_length 2 flags then flags else lit "01" in
      Some (lit "00-" ++ trace_id ++ 45 :: span_id ++ 45 :: flags)
  | _, _ => None
  end.

Definition TRACE_KEYS : list str :=
  map lit ["trace_schema"; "request_id"; "trace_id"; "span_id"; "parent_span_id"; "correlation_id"; "correlation_id_tag"; "request_id_tag";
           "endpoint_pattern"; "trace_flags"; "method"; "route"].

(** [==] on the two values that are compared: a path and a pattern are texts or absent. *)
Definition same_text (a b : pyval) : bool :=
  match a, b with PStr x, PStr y => bool_decide (x = y) | PNone, PNone => true | _, _ => false end.

Definition merge_trace_into_event (event fields : list (str * pyval)) : list (str * pyval) :=
  let defaults := foldl (λ d k, match get_or_none k fields with PNone => d | v => dict_set k v d end) [] TRACE_KEYS in
  let merged := foldl (λ d p, dict_set p.1 p.2 d) defaults event in
  match dict_get (lit "endpoint_pattern") merged, dict_get (lit "path") merged with
  | Some pattern, Some path => if same_text path pattern then merged else dict_del (lit "path") merged
  | _, _ => merged
  end.

Definition ALLOWED_TRACE_KEYS : list str := TRACE_KEYS ++ map lit ["status"; "duration_ms"; "event"; "path"].

(** [value.lstrip().startswith("-----BEGIN")] *)
Definition is_pem (v : pyval) : bool :=
  match v with PStr s => starts_with (lit "-----BEGIN") (drop_while py_space s) | _ => false end.

(** The loop over the fields; a JSON value is not raw bytes. *)
Fixpoint assert_trace_fields_privacy_safe (fields : list (str * pyval)) : result exn unit :=
  match fields with
  | [] => Ok ()
  | (key, value) :: fields =>
      ensure (bool_decide (key ∈ ALLOWED_TRACE_KEYS)) (ValueError "non-allowlisted trace field key");;
      ensure (negb (is_pem value)) (ValueError "trace fields must not contain PEM material");;
      assert_trace_fields_privacy_safe fields
  end.
End trace.

(** * Identifiers *)

Section facts.
Context `{Unicode, Alnum}.

Lemma is_alpha_num_ascii c : is_alpha_num c = true → 48 ≤ c ≤ 122.
Proof. unfold is_alpha_num. intros Hc. bool_inv; lia. Qed.

Lemma opaque_char c : is_opaque c = true → 33 ≤ c < 128.
Proof.
  unfold is_opaque. rewrite orb_true_iff, bool_decide_eq_true. intros [Hc%is_alpha_num_ascii|Hc]; [lia|].
  revert c Hc. apply Forall_forall, (bool_decide_unpack _). by vm_compute.
Qed.

Lemma ascii_not_space c : 33 ≤ c < 128 → py_space c = false.
Proof. intros Hc. unfold py_space. rewrite (proj2 (Z.ltb_lt c 128)) by lia. apply not_true_iff_false. intros Hs. bool_inv; lia. Qed.

Lemma strip_plain s : Forall (λ c, 33 ≤ c < 128) s → py_strip s = s.
Proof. intros Hs. apply strip_by_none. eapply Forall_impl; [exact Hs|]. apply ascii_not_space. Qed.

Lemma utf8_replace_ascii s : Forall (λ c, 33 ≤ c < 128) s → utf8_replace s = s.
Proof.
  unfold utf8_replace. induction 1 as [|c s Hc Hs IH]; [done|]. rewrite bind_cons, IH.
  unfold utf8_char. by rewrite (proj2 (Z.ltb_lt c 128)) by lia.
Qed.

(** A pattern up to the dollar, on a text that does not end in a newline. *)
Lemma dollar_plain p s : Forall (λ c, 33 ≤ c < 128) s → dollar p s = p s.
Proof.
  intros Hs. unfold dollar. destruct (last s) as [c|] eqn:El; [|by rewrite orb_false_r].
  apply last_Some_elem_of in El. rewrite Forall_forall in Hs. apply Hs in El. destruct c as [|c|c]; try lia.
  destruct (decide (Zpos c = 10)); [lia|]. by repeat case_match; rewrite ?orb_false_r.
Qed.

Lemma reverse_rev (l : str) : reverse l = rev l.
Proof. unfold reverse. symmetry. apply rev_alt. Qed.

Lemma strip_ends s c : last (py_strip s) = Some c → py_space c = false.
Proof.
  unfold py_strip, strip_by. rewrite <- reverse_rev, last_reverse. intros Hh.
  destruct (drop_while py_space (rev (drop_while py_space s))) as [|x l] eqn:E; [done|]. injection Hh as ->.
  clear -E. induction (rev (drop_while py_space s)) as [|y k IH]; [done|]. cbn in E. destruct (py_space y) eqn:Ey; [auto|by injection E as ->].
Qed.

Lemma dollar_stripped p s : dollar p (py_strip s) = p (py_strip s).
Proof.
  unfold dollar. destruct (last (py_strip s)) as [c|] eqn:El; [|by rewrite orb_false_r]. apply strip_ends in El.
  destruct (decide (c = 10)) as [->|Hc]; [done|]. destruct c as [|c|c]; try by rewrite orb_false_r.
  by repeat case_match; rewrite ?orb_false_r.
Qed.

Lemma normalize_inv v s : normalize_opaque_id v = Some s →
  1 ≤ zlen s ≤ 128 ∧ Forall (λ c, is_opaque c = true) s ∧ looks_secret s = false.
Proof.
  unfold normalize_opaque_id. destruct v as [| | | |t| |]; try done. cbv zeta. case_match; [done|]. case_match; [done|].
  case_match eqn:Hre; [done|]. case_match eqn:Hs; [done|]. intros [= <-]. apply negb_false_iff in Hre.
  unfold opaque_id_re in Hre. rewrite dollar_stripped, !andb_true_iff, forallb_Forall in Hre. destruct Hre as [[Hz1 Hz2] Hz3].
  split_and!; [lia|lia|done|done].
Qed.

(** An identifier that is taken has at most 128 characters, all of them plain ASCII, does not
    look like a secret, and is taken as it is when it comes back. *)
Theorem opaque_id_is_plain v s : normalize_opaque_id v = Some s →
  1 ≤ zlen s ≤ 128 ∧ Forall (λ c, is_opaque c = true ∧ 33 ≤ c < 128) s ∧ looks_secret s = false ∧ normalize_opaque_id (PStr s) = Some s.
Proof.
  intros (Hl & Ho & Hsec)%normalize_inv.
  assert (Forall (λ c, 33 ≤ c < 128) s) as Ha by (eapply Forall_impl; [exact Ho|]; apply opaque_char).
  split_and!; [lia|lia| |done|].
  - eapply Forall_impl; [exact Ho|]. cbn. intros c Hc. split; [done|]. by apply opaque_char.
  - unfold normalize_opaque_id. cbv zeta. rewrite strip_plain, utf8_replace_ascii by done.
    rewrite bool_decide_eq_false_2 by (intros ->; unfold zlen in Hl; cbn [length] in Hl; lia). unfold MAX_OPAQUE_ID_BYTES. rewrite (proj2 (Z.ltb_ge _ _)) by lia.
    assert (opaque_id_re s = true) as ->; [|by rewrite Hsec]. unfold opaque_id_re. rewrite dollar_plain by done.
    rewrite !andb_true_iff, forallb_Forall. split_and!; [lia|lia|done].
Qed.

(** * The traceparent header *)

Lemma lower_hex_spec n s : lower_hex_of_length n s = true ↔ length s = n ∧ Forall (λ c, is_lower_hex c = true) s.
Proof. unfold lower_hex_of_length. by rewrite andb_true_iff, bool_decide_eq_true, forallb_Forall. Qed.

Lemma lower_hex_char c : is_lower_hex c = true → is_hex c = true ∧ 33 ≤ c < 128 ∧ c ≠ 45 ∧ ascii_lower c = c.
Proof.
  intros Hc. unfold is_lower_hex in Hc. split_and!.
  - unfold is_hex. apply bool_decide_eq_true. unfold hex_val. repeat case_match; eauto; bool_inv; lia.
  - bool_inv; lia.
  - bool_inv; lia.
  - bool_inv; lia.
  - unfold ascii_lower. case_match; bool_inv; lia.
Qed.

Lemma lower_hex_lower s : Forall (λ c, is_lower_hex c = true) s → py_lower s = s.
Proof.
  intros Hs. rewrite py_lower_ascii.
  - induction Hs as [|c s Hc Hs IH]; [done|]. cbn. rewrite IH. f_equal. by apply lower_hex_char.
  - eapply Forall_impl; [exact Hs|]. intros c Hc. apply lower_hex_char in Hc. lia.
Qed.

Lemma lower_hex_is_hex_all s : Forall (λ c, is_lower_hex c = true) s → forallb is_hex s = true.
Proof. intros Hs. apply forallb_Forall. eapply Forall_impl; [exact Hs|]. intros c Hc. by apply lower_hex_char. Qed.

(** A header with the four groups in lower case is parsed into them. *)
Lemma parse_lower_traceparent tid sid fl : lower_hex_of_length 32 tid = true → lower_hex_of_length 16 sid = true →
  lower_hex_of_length 2 fl = true → tid ≠ replicate 32 48 → sid ≠ replicate 16 48 →
  parse_traceparent (PStr (lit "00-" ++ tid ++ 45 :: sid ++ 45 :: fl)) =
  Some {| tp_version := lit "00"; tp_trace_id := tid; tp_span_id := sid; tp_trace_flags := fl |}.
Proof.
  rewrite !lower_hex_spec. intros [Lt Ht] [Ls Hs] [Lf Hf] Hnt Hns. set (raw := _ ++ _).
  assert (Forall (λ c, 33 ≤ c < 128) raw) as Ha.
  { unfold raw. assert (∀ x, Forall (λ c, is_lower_hex c = true) x → Forall (λ c, 33 ≤ c < 128) x) as Hx.
    { intros x Hx. eapply Forall_impl; [exact Hx|]. intros c Hc. apply lower_hex_char in Hc. tauto. }
    change (lit "00-") with [48; 48; 45]. repeat first [apply Forall_app; split|apply Forall_cons; split]; auto; lia. }
  assert (take 2 raw = lit "00" ∧ take 32 (drop 3 raw) = tid ∧ take 16 (drop 36 raw) = sid ∧ take 2 (drop 53 raw) = fl) as (E1 & E2 & E3 & E4).
  { unfold raw. split_and!; [done| | |].
    - change (take 32 (tid ++ 45 :: sid ++ 45 :: fl) = tid). by apply take_app_length'.
    - change (take 16 (drop 33 (tid ++ 45 :: sid ++ 45 :: fl)) = sid). rewrite drop_app_ge, Lt by lia. by apply take_app_length'.
    - change (take 2 (drop 50 (tid ++ 45 :: sid ++ 45 :: fl)) = fl). rewrite drop_app_ge, Lt by lia.
      change (take 2 (drop 17 (sid ++ 45 :: fl)) = fl). rewrite drop_app_ge, Ls by lia. cbn [Nat.sub drop]. apply take_ge. lia. }
  assert (traceparent_re raw = true) as Hre.
  { unfold traceparent_re. rewrite dollar_plain by done. cbn [hex_groups]. rewrite E1.
    change (drop 2 raw) with (45 :: tid ++ 45 :: sid ++ 45 :: fl). cbv iota.
    rewrite (take_app_length' tid), (drop_app_length' tid), (take_app_length' sid), (drop_app_length' sid) by done.
    rewrite !lower_hex_is_hex_all by (done || (apply (bool_decide_unpack _); by vm_compute)). rewrite Lt, Ls, Lf. done. }
  assert (zlen raw = 55) as Hl by (unfold raw, zlen; rewrite !length_app; cbn [length]; rewrite length_app; cbn [length]; rewrite Lt, Ls, Lf; done).
  unfold parse_traceparent. cbv zeta. rewrite strip_plain, utf8_replace_ascii, Hre, Hl by done.
  rewrite bool_decide_eq_false_2 by done. cbn [orb negb]. rewrite E1, E2, E3, E4.
  rewrite (lower_hex_lower tid), (lower_hex_lower sid), (lower_hex_lower fl) by done.
  change (py_lower (lit "00")) with (lit "00"). rewrite (bool_decide_eq_true_2 (lit "00" = lit "00")) by done. cbn [negb].
  by rewrite !bool_decide_eq_false_2.
Qed.

(** The header of a request parses back to the identifiers and flags it was made of, in whatever
    way they were chosen, as long as the identifiers are not all zeros. *)
Theorem traceparent_round_trips fields t tid sid : format_traceparent fields = Some t →
  dict_get (lit "trace_id") fields = Some (PStr tid) → dict_get (lit "span_id") fields = Some (PStr sid) →
  tid ≠ replicate 32 48 → sid ≠ replicate 16 48 →
  ∃ fl, parse_traceparent (PStr t) = Some {| tp_version := lit "00"; tp_trace_id := tid; tp_span_id := sid; tp_trace_flags := fl |} ∧
    (∀ x, dict_get (lit "trace_flags") fields = Some (PStr x) → lower_hex_of_length 2 x = true → fl = x).
Proof.
  intros Hf Ht Hs Hnt Hns. unfold format_traceparent in Hf. cbv zeta in Hf. unfold get_or_none in Hf. rewrite Ht, Hs in Hf.
  cbn [default from_option id] in Hf. case_match eqn:Et; [done|]. case_match eqn:Es; [done|]. injection Hf as <-.
  apply negb_false_iff in Et, Es. set (fl := if lower_hex_of_length 2 _ then _ else _). exists fl. split.
  - apply parse_lower_traceparent; [done|done| |done|done]. unfold fl. case_match eqn:E; [done|by vm_compute].
  - intros x Hx Hx2. unfold fl. rewrite Hx. cbn [default from_option id].
    assert (truthy (PStr x) = true) as -> by (cbn; apply negb_true_iff, bool_decide_eq_false; intros ->; done). cbn [py_str]. by rewrite Hx2.
Qed.

Lemma sha_prefix n m : (n ≤ 64)%nat → lower_hex_of_length n (take n (sha256_hex m)) = true.
Proof.
  intros Hn. apply lower_hex_spec. split; [rewrite length_take, length_sha256_hex; lia|]. apply Forall_take, sha256_hex_lower.
Qed.

Lemma hex_lower_is_lower s : Forall (λ c, is_hex c = true) s → Forall (λ c, is_lower_hex c = true) (py_lower s) ∧ length (py_lower s) = length s.
Proof.
  intros Hs. assert (∀ c, is_hex c = true → c < 128 ∧ is_lower_hex (ascii_lower c) = true) as Hc.
  { intros c Hc. unfold is_hex in Hc. apply bool_decide_eq_true in Hc as [d Hd]. unfold hex_val in Hd. unfold is_lower_hex, ascii_lower.
    repeat case_match; bool_inv; try done; split; lia. }
  rewrite py_lower_ascii by (eapply Forall_impl; [exact Hs|]; intros c Hx; by apply Hc).
  rewrite length_fmap. split; [|done]. apply Forall_fmap. eapply Forall_impl; [exact Hs|]. intros c Hx. by apply Hc.
Qed.

Lemma hex_of_length_lower n s : hex_of_length n s = true → lower_hex_of_length n (py_lower s) = true.
Proof.
  unfold hex_of_length. rewrite andb_true_iff, bool_decide_eq_true, forallb_Forall, lower_hex_spec.
  intros [Hl Hs]. destruct (hex_lower_is_lower s Hs) as [? ->]. done.
Qed.

Lemma lower_hex_twice n s : lower_hex_of_length n s = true → lower_hex_of_length n (py_lower s) = true.
Proof. intros Hs. pose proof (proj1 (lower_hex_spec n s) Hs) as [_ Hf]. by rewrite lower_hex_lower. Qed.

Lemma hex_groups_cons n m l s : hex_groups (n :: m :: l) s = true →
  hex_of_length n (take n s) = true ∧ ∃ s', drop n s = 45 :: s' ∧ hex_groups (m :: l) s' = true.
Proof.
  cbn [hex_groups]. rewrite !andb_true_iff. intros [[Hl Hh] Hd]. split; [unfold hex_of_length; by rewrite Hl, Hh|].
  destruct (drop n s) as [|c s']; [done|]. apply andb_true_iff in Hd as [Hc Hg]. apply Z.eqb_eq in Hc as ->. eauto.
Qed.

Lemma parse_traceparent_inv h t : parse_traceparent h = Some t →
  lower_hex_of_length 32 (tp_trace_id t) = true ∧ lower_hex_of_length 16 (tp_span_id t) = true ∧ lower_hex_of_length 2 (tp_trace_flags t) = true.
Proof.
  unfold parse_traceparent. destruct h as [| | | |header| |]; try done. cbv zeta. case_match; [done|].
  case_match eqn:Hre; [done|]. case_match; [done|]. case_match; [done|]. intros [= <-]. cbn [tp_trace_id tp_span_id tp_trace_flags].
  apply negb_false_iff in Hre. unfold traceparent_re in Hre. rewrite dollar_stripped in Hre. set (raw := py_strip header) in *.
  apply hex_groups_cons in Hre as (_ & s1 & D1 & Hre). apply hex_groups_cons in Hre as (G2 & s2 & D2 & Hre).
  apply hex_groups_cons in Hre as (G3 & s3 & D3 & Hre). cbn [hex_groups] in Hre.
  assert (drop 3 raw = s1) as E1 by (change 3%nat with (2 + 1)%nat; by rewrite <- drop_drop, D1).
  assert (drop 36 raw = s2) as E2 by (change 36%nat with (3 + (32 + 1))%nat; by rewrite <- !drop_drop, E1, D2).
  assert (drop 53 raw = s3) as E3 by (change 53%nat with (36 + (16 + 1))%nat; by rewrite <- !drop_drop, E2, D3).
  rewrite E1, E2, E3. split_and!; [by apply hex_of_length_lower..|].
  apply hex_of_length_lower. rewrite take_ge; [done|]. apply andb_true_iff in Hre as [Hl%bool_decide_eq_true _]. lia.
Qed.

Lemma fallback_trace_lower x rid : lower_hex_of_length 32 (fallback_trace_id x rid) = true.
Proof.
  unfold fallback_trace_id. destruct x as [[|c x]|]; try (apply sha_prefix; lia).
  case_match eqn:E; [by apply hex_of_length_lower|apply sha_prefix; lia].
Qed.

Lemma fallback_span_lower x fresh : lower_hex_of_length 16 fresh = true → lower_hex_of_length 16 (fallback_span_id x fresh) = true.
Proof.
  intros Hf. unfold fallback_span_id. destruct x as [[|c x]|]; try done. case_match eqn:E; [by apply hex_of_length_lower|done].
Qed.

(** Every request has a [traceparent]: whatever its headers say, the identifiers that are chosen
    are lower-case hex of the right lengths. *)
Theorem every_request_has_traceparent fresh_uuid fresh_span headers request_id method route path :
  lower_hex_of_length 16 fresh_span = true →
  ∃ t, format_traceparent (build_trace_fields fresh_uuid fresh_span headers request_id method route path) = Some t.
Proof.
  intros Hf. unfold build_trace_fields. cbv zeta.
  destruct (match parse_traceparent _ with Some _ => _ | None => _ end) as [[[tid parent] fl] sid] eqn:E.
  assert (lower_hex_of_length 32 tid = true ∧ lower_hex_of_length 16 sid = true) as [Ht Hs].
  { destruct (parse_traceparent _) as [t|] eqn:Ep; injection E as <- <- <- <-.
    - apply parse_traceparent_inv in Ep. tauto.
    - auto using fallback_trace_lower, fallback_span_lower. }
  unfold format_traceparent. cbv zeta. match goal with |- context [get_or_none (lit "trace_id") ?x] => set (fields := x) end.
  change (get_or_none (lit "trace_id") fields) with (PStr (py_lower tid)). change (get_or_none (lit "span_id") fields) with (PStr (py_lower sid)).
  cbv iota. rewrite !lower_hex_twice by done. cbn [negb]. eauto.
Qed.

(** * Paths *)

(** A segment that is kept: not empty, without separators, and not like an identifier. *)
Definition kept (seg : str) : Prop := seg ≠ [] ∧ identifier_like seg = false ∧ 47 ∉ seg ∧ 63 ∉ seg ∧ 35 ∉ seg.

Lemma id_mark_kept : kept ID_MARK.
Proof.
  split_and!; first [done|apply (bool_decide_unpack _); by vm_compute].
Qed.

Lemma process_kept segments acc : Forall kept acc → Forall (λ g, 47 ∉ g ∧ 63 ∉ g ∧ 35 ∉ g) segments → Forall kept (process_segments acc segments).
Proof.
  revert acc. induction segments as [|g l IH]; intros acc Ha Hs; cbn [process_segments]; [done|].
  apply Forall_cons in Hs as [Hg Hs]. case_match eqn:Eb; [by apply IH|]. apply bool_decide_eq_false in Eb.
  case_match eqn:Ei; [case_match; [by apply IH|]|]; (apply IH; [|done]); apply Forall_app; (split; [done|]); apply Forall_singleton.
  - apply id_mark_kept.
  - unfold kept. tauto.
Qed.

Lemma process_fixed segments acc : Forall kept segments → process_segments acc segments = acc ++ segments.
Proof.
  revert acc. induction segments as [|g l IH]; intros acc Hs; cbn [process_segments]; [by rewrite app_nil_r|].
  apply Forall_cons in Hs as [(Hne & Hi & _) Hs]. rewrite bool_decide_eq_false_2, Hi, IH by done. by rewrite <- app_assoc.
Qed.

Lemma split_on_free sep s : Forall (λ g, sep ∉ g) (split_on sep s).
Proof.
  induction s as [|c s IH]; cbn [split_on]; [repeat constructor; apply not_elem_of_nil|]. destruct (Z.eqb_spec c sep) as [->|Hne].
  - constructor; [apply not_elem_of_nil|done].
  - destruct (split_on sep s) as [|w ws]; [repeat constructor; rewrite elem_of_cons, elem_of_nil; naive_solver|].
    apply Forall_cons in IH as [Hw Hws]. constructor; [rewrite elem_of_cons; naive_solver|done].
Qed.

Lemma split_on_sub sep c s : c ∉ s → Forall (λ g, c ∉ g) (split_on sep s).
Proof.
  induction s as [|x s IH]; cbn [split_on]; [intros _; repeat constructor; apply not_elem_of_nil|].
  rewrite elem_of_cons. intros Hc. assert (Forall (λ g, c ∉ g) (split_on sep s)) as Hf by (apply IH; tauto).
  case_match; [constructor; [apply not_elem_of_nil|done]|].
  destruct (split_on sep s) as [|w ws]; [repeat constructor; rewrite elem_of_cons, elem_of_nil; tauto|].
  apply Forall_cons in Hf as [Hw Hws]. constructor; [rewrite elem_of_cons; tauto|done].
Qed.

Lemma before_free c s : c ∉ text_before c s.
Proof.
  unfold text_before. pose proof (split_on_free c s) as Hf. destruct (split_on c s); [apply not_elem_of_nil|].
  by apply Forall_cons in Hf as [Hw _].
Qed.

Lemma before_sub c x s : x ∉ s → x ∉ text_before c s.
Proof.
  intros Hx%(split_on_sub c). unfold text_before. destruct (split_on c s); [apply not_elem_of_nil|]. by apply Forall_cons in Hx as [Hw _].
Qed.

Lemma split_one_free sep s : sep ∉ s → split_on sep s = [s].
Proof.
  induction s as [|c s IH]; [done|]. rewrite elem_of_cons. intros Hs. cbn [split_on]. destruct (Z.eqb_spec c sep); [naive_solver|].
  rewrite IH; [done|tauto].
Qed.

Lemma before_whole c s : c ∉ s → text_before c s = s.
Proof. intros Hc. unfold text_before. by rewrite split_one_free. Qed.

Lemma split_app_sep sep a b : sep ∉ a → split_on sep (a ++ sep :: b) = a :: split_on sep b.
Proof.
  induction a as [|c a IH]; intros Ha; cbn [app split_on]; [by rewrite Z.eqb_refl|]. rewrite elem_of_cons in Ha.
  destruct (Z.eqb_spec c sep); [naive_solver|]. rewrite IH; [done|tauto].
Qed.

Lemma trace_split_join (l : list str) : l ≠ [] → Forall (λ g, 47 ∉ g) l → split_on 47 (join_sep 47 l) = l.
Proof.
  induction l as [|g [|h l] IH]; intros Hne Hl; [done| |]; apply Forall_cons in Hl as [Hg Hl].
  - by apply split_one_free.
  - change (join_sep 47 (g :: h :: l)) with (g ++ 47 :: join_sep 47 (h :: l)). rewrite split_app_sep, IH by done. done.
Qed.

Lemma join_free x (l : list str) : x ≠ 47 → Forall (λ g, x ∉ g) l → x ∉ join_sep 47 l.
Proof.
  intros Hx. induction 1 as [|g l Hg Hl IH]; [apply not_elem_of_nil|]. cbn [join_sep]. destruct l; [done|].
  rewrite elem_of_app, elem_of_cons. naive_solver.
Qed.

(** The segments a sanitized path is made of, and whether it starts with a slash. *)
Lemma trace_sanitize_shape path : ∃ (absolute : bool) l, Forall kept l ∧
  trace_sanitize_endpoint_pattern path = match l with [] => lit "/" | _ => if absolute then 47 :: join_sep 47 l else join_sep 47 l end.
Proof.
  unfold trace_sanitize_endpoint_pattern. cbv zeta. case_match; [by exists true, []|]. set (cleaned := text_before 35 (text_before 63 path)) in *.
  set (absolute := bool_decide _). exists absolute, (process_segments [] (if absolute then tail (split_on 47 cleaned) else split_on 47 cleaned)).
  split; [|done]. apply process_kept; [constructor|].
  assert (Forall (λ g, 47 ∉ g ∧ 63 ∉ g ∧ 35 ∉ g) (split_on 47 cleaned)) as Hall.
  { rewrite !Forall_and. split_and!; [apply split_on_free|apply split_on_sub, before_sub, before_free|apply split_on_sub, before_free]. }
  destruct absolute; [|done]. by destruct Hall.
Qed.

(** A path made of segments that are kept is left as it is. *)
Lemma sanitize_fixed (absolute : bool) l : l ≠ [] → Forall kept l →
  let p := if absolute then 47 :: join_sep 47 l else join_sep 47 l in trace_sanitize_endpoint_pattern p = p.
Proof.
  intros Hne Hl p.
  assert (Forall (λ g, 47 ∉ g) l ∧ Forall (λ g, 63 ∉ g) l ∧ Forall (λ g, 35 ∉ g) l) as (H47 & H63 & H35).
  { split_and!; (eapply Forall_impl; [exact Hl|]); unfold kept; tauto. }
  assert (63 ∉ p ∧ 35 ∉ p) as [P63 P35].
  { pose proof (join_free 63 l ltac:(lia) H63). pose proof (join_free 35 l ltac:(lia) H35).
    unfold p. destruct absolute; [|done]. rewrite !elem_of_cons. split; (intros [Hx|Hx]; [lia|done]). }
  assert (split_on 47 p = if absolute then [] :: l else l) as Hsp.
  { unfold p. destruct absolute; [|by apply trace_split_join]. cbn [split_on]. rewrite Z.eqb_refl. by rewrite trace_split_join. }
  assert (p ≠ []) as Hp.
  { intros Hp. rewrite Hp in Hsp. destruct absolute; [by destruct l|]. destruct l as [|g l]; [done|]. cbn in Hsp. injection Hsp as <- <-.
    apply Forall_cons in Hl as [(Hg & _) _]. done. }
  unfold trace_sanitize_endpoint_pattern. cbv zeta. rewrite (before_whole 63 p), (before_whole 35 p) by done.
  rewrite bool_decide_eq_false_2, Hsp by done.
  assert (bool_decide (head (if absolute then [] :: l else l) = Some []) = absolute) as ->.
  { destruct absolute; [by apply bool_decide_eq_true|]. apply bool_decide_eq_false. destruct l as [|g l]; [done|]. cbn. intros [= ->].
    apply Forall_cons in Hl as [(Hg & _) _]. done. }
  assert (process_segments [] (if absolute then tail (if absolute then [] :: l else l) else if absolute then [] :: l else l) = l) as ->
    by (destruct absolute; cbn [tail]; by rewrite process_fixed).
  unfold p. by destruct l.
Qed.

(** Sanitizing leaves no segment that looks like an identifier, no query and no fragment, and
    sanitizing again changes nothing. *)
Theorem sanitized_path_has_no_identifiers path :
  let p := trace_sanitize_endpoint_pattern path in
  Forall (λ seg, seg = [] ∨ identifier_like seg = false ∧ 63 ∉ seg ∧ 35 ∉ seg) (split_on 47 p) ∧ trace_sanitize_endpoint_pattern p = p.
Proof.
  intros p. destruct (trace_sanitize_shape path) as (absolute & l & Hl & Hp). fold p in Hp. rewrite Hp.
  destruct l as [|g l]; [split; [repeat constructor; auto|by vm_compute]|]. split.
  2: { by apply (sanitize_fixed absolute (g :: l)). }
  assert (Forall (λ g, 47 ∉ g) (g :: l)) as H47 by (eapply Forall_impl; [exact Hl|]; unfold kept; tauto).
  assert (Forall (λ seg, seg = [] ∨ identifier_like seg = false ∧ 63 ∉ seg ∧ 35 ∉ seg) (g :: l)) as Hk
    by (eapply Forall_impl; [exact Hl|]; unfold kept; naive_solver).
  destruct absolute; [cbn [split_on]; rewrite Z.eqb_refl; constructor; [by left|]|]; by rewrite trace_split_join.
Qed.

(** * Merging *)

Lemma foldl_set_get (event : list (str * pyval)) d k : NoDup event.*1 →
  dict_get k (foldl (λ d p, dict_set p.1 p.2 d) d event) = match dict_get k event with Some v => Some v | None => dict_get k d end.
Proof.
  revert d. induction event as [|[x v] event IH]; intros d Hn; [done|]. cbn [foldl fst snd] in *. apply NoDup_cons in Hn as [Hx Hn].
  rewrite IH by done. cbn [dict_get fst snd]. rewrite dict_get_set. destruct (decide (k = x)) as [->|Hk]; [|done].
  cbn [fst] in Hx. apply dict_get_None in Hx. by rewrite Hx.
Qed.

(** What an event says stays, the fields only add to it, and a path stays only where it is the
    sanitized one. *)
Theorem merged_event_keeps_its_own event fields k : NoDup event.*1 →
  let merged := merge_trace_into_event event fields in
  (k ≠ lit "path" → ∀ v, dict_get k event = Some v → dict_get k merged = Some v) ∧
  (∀ pattern path, dict_get (lit "endpoint_pattern") merged = Some (PStr pattern) → dict_get (lit "path") merged = Some (PStr path) → path = pattern).
Proof.
  intros Hn merged. unfold merged, merge_trace_into_event. cbv zeta.
  set (all := foldl (λ d p, dict_set p.1 p.2 d) _ event).
  assert (∀ x v, dict_get x event = Some v → dict_get x all = Some v) as Hall.
  { intros x v Hx. unfold all. by rewrite foldl_set_get, Hx. }
  split.
  - intros Hk v Hv. apply Hall in Hv. repeat case_match; try done. by rewrite dict_get_del, decide_False.
  - intros pattern path. destruct (dict_get (lit "endpoint_pattern") all) as [pat|] eqn:Ee; [|congruence].
    destruct (dict_get (lit "path") all) as [pth|] eqn:Ep; [|congruence]. destruct (same_text pth pat) eqn:Es.
    + rewrite Ee, Ep. intros [= ->] [= ->]. by apply bool_decide_eq_true in Es.
    + intros _. rewrite dict_get_del. by rewrite decide_True.
Qed.
End facts.

(** * Witnesses *)

#[local] Existing Instance plain_unicode.
#[local] Instance no_alnum : Alnum := λ _, false.

Lemma opaque_id_is_plain_witness :
  1 ≤ zlen (lit "req-1") ≤ 128 ∧ Forall (λ c, is_opaque c = true ∧ 33 ≤ c < 128) (lit "req-1") ∧ looks_secret (lit "req-1") = false ∧
  normalize_opaque_id (PStr (lit "req-1")) = Some (lit "req-1").
Proof. apply (opaque_id_is_plain (PStr (lit " req-1 "))). vm_compute. reflexivity. Defined.

Definition sample_fields : list (str * pyval) :=
  build_trace_fields (lit "uuid") (lit "00f067aa0ba902b7") (Some [(lit "X-Trace-Id", PStr (lit "4BF92F3577B34DA6A3CE929D0E0E4736"))])
    PNone None None (Some (lit "/api/proof/1234567")).

Lemma traceparent_round_trips_witness :
  ∃ fl, parse_traceparent (PStr (lit "00-4bf92f3577b34da6a3ce929d0e0e4736-00f067aa0ba902b7-01")) =
    Some {| tp_version := lit "00"; tp_trace_id := lit "4bf92f3577b34da6a3ce929d0e0e4736"; tp_span_id := lit "00f067aa0ba902b7"; tp_trace_flags := fl |} ∧
    (∀ x, dict_get (lit "trace_flags") sample_fields = Some (PStr x) → lower_hex_of_length 2 x = true → fl = x).
Proof. apply (traceparent_round_trips sample_fields); [vm_compute; reflexivity..|discriminate|discriminate]. Defined.

Lemma every_request_has_traceparent_witness :
  ∃ t, format_traceparent (build_trace_fields (lit "u") (lit "00f067aa0ba902b7") None PNone None None None) = Some t.
Proof. apply (every_request_has_traceparent (lit "u") (lit "00f067aa0ba902b7")). vm_compute. reflexivity. Defined.

Lemma merged_event_keeps_its_own_witness :
  let merged := merge_trace_into_event [(lit "path", PStr (lit "/api/proof/1234567"))] sample_fields in
  (lit "event" ≠ lit "path" → ∀ v, dict_get (lit "event") [(lit "path", PStr (lit "/api/proof/1234567"))] = Some v →
   dict_get (lit "event") merged = Some v) ∧
  (∀ pattern path, dict_get (lit "endpoint_pattern") merged = Some (PStr pattern) → dict_get (lit "path") merged = Some (PStr path) → path = pattern).
Proof.
  apply (merged_event_keeps_its_own [(lit "path", PStr (lit "/api/proof/1234567"))] sample_fields (lit "event")).
  repeat constructor. intros Hin. apply elem_of_nil in Hin. exact Hin.
Defined.

(** A correlation identifier is taken that the module's own check refuses, and a trace identifier
    of zeros is taken from [X-Trace-ID] though it is refused in a [traceparent]. *)
Example unsafe_trace_identifiers :
  assert_trace_fields_privacy_safe
    (build_trace_fields (lit "u") (lit "00f067aa0ba902b7") (Some [(lit "X-Correlation-ID", PStr (lit "-----BEGIN"))]) PNone None None None) =
    Err (ValueError "trace fields must not contain PEM material") ∧
  dict_get (lit "trace_id") (build_trace_fields (lit "u") (lit "00f067aa0ba902b7") (Some [(lit "X-Trace-ID", PStr (replicate 32 48))]) PNone None None None) =
    Some (PStr (replicate 32 48)).
Proof. split; vm_compute; reflexivity. Qed.
