(* ===== verification/Workspace.v ===== *)
(** The encrypted workspace: [workspace.py].  Files of a temporary directory are kept encrypted
    under a key that lives as long as the workspace; a local HTTP server hands tools the
    decrypted content of the files that were announced and takes files from them.

    AES in counter mode is the parameter [keystream]: what is written is the exclusive or with
    it.  The file system is the parameter [locate], which says what a path names, so that two
    paths may name one file (through [..], links, or the letter case); contents are a map from
    files.  The server thread runs one request at a time.  Reading a stream returns as many bytes as were asked for while there are some.

    Shown: encrypting chunk by chunk is encrypting at once, with the given size the first bytes
    only; what was written is read back, whatever was done to other files; paths that differ in
    [.] and repeated slashes are the same; the server never
    answers a file that was not announced; after closing nothing is left and nothing works.
    Also: an upload may name a path outside of the directory. *)
From Stdlib Require Import ZArith Lia.
From stdpp Require Import base decidable strings numbers list gmap.
From S2P Require Import Prelude PyStr Json Sha256.

Open Scope Z_scope.

#[local] Arguments lit _ : simpl never.

(** [keystream key nonce i] is byte [i] of the AES-CTR stream. *)
Class AesCtr := keystream : bytes → bytes → nat → Z.

(** What the operating system finds at a path: nothing that can be opened (a directory on the way
    is missing, or the name is not one), a directory, or the file of a real path, which exists
    when it has a content. *)
Inductive located := Nowhere | Folder | File (real : str).
Class Files := locate : str → located.

Record workspace := {
  ws_key : option bytes;
  ws_path : str;
  allowed_files : list str;
  disk : gmap str bytes;
}.

Definition CHUNK : Z := 65536.

(** [open] that fails with an [OSError] *)
Definition OpenError : exn := RuntimeError "OSError".

Section workspace.
Context `{AesCtr} `{Files}.

(** [encryptor.update(chunk)] at a position of the stream; decrypting is the same. *)
Definition xor_at (key nonce : bytes) (off : nat) (chunk : bytes) : bytes :=
  imap (λ i x, Z.lxor x (keystream key nonce (off + i))) chunk.

(** The loop of [_encrypt_stream]. *)
Fixpoint encrypt_loop (fuel : nat) (key nonce src : bytes) (size : option Z) (bytes_read : nat) : bytes :=
  match fuel with
  | O => []
  | S fuel =>
      let chunk_size := match size with Some n => Z.min CHUNK (n - Z.of_nat bytes_read) | None => CHUNK end in
      if chunk_size <=? 0 then [] else
      match take (Z.to_nat chunk_size) src with
      | [] => []
      | chunk => xor_at key nonce bytes_read chunk ++
                 encrypt_loop fuel key nonce (drop (length chunk) src) size (bytes_read + length chunk)
      end
  end.

(** [_encrypt_stream]: the file is opened, then the nonce and the encrypted bytes are written; the
    source ends after [length src] bytes, so that many rounds are enough. *)
Definition encrypt_stream (nonce src : bytes) (dest_path : str) (size : option Z) (w : workspace) : result exn workspace :=
  match ws_key w with
  | None => Err (RuntimeError "Workspace is closed")
  | Some key =>
      match locate dest_path with
      | File real =>
          Ok {| ws_key := ws_key w; ws_path := ws_path w; allowed_files := allowed_files w;
                disk := <[real := nonce ++ encrypt_loop (S (length src)) key nonce src size 0]> (disk w) |}
      | _ => Err OpenError
      end
  end.

(** The loop of [_decrypt_stream]. *)
Fixpoint decrypt_loop (fuel : nat) (key nonce src : bytes) (off : nat) : bytes :=
  match fuel with
  | O => []
  | S fuel =>
      match take (Z.to_nat CHUNK) src with
      | [] => []
      | chunk => xor_at key nonce off chunk ++ decrypt_loop fuel key nonce (drop (length chunk) src) (off + length chunk)
      end
  end.

(** [filepath.exists()], with what [open(filepath, "rb")] then finds: [None] for a directory. *)
Definition existing (path : str) (w : workspace) : option (option bytes) :=
  match locate path with Nowhere => None | Folder => Some None | File real => Some <$> disk w !! real end.

Definition decrypt_stream (found : option bytes) (w : workspace) : result exn bytes :=
  match ws_key w, found with
  | None, _ => Err (RuntimeError "Workspace is closed")
  | Some key, None => Err OpenError
  | Some key, Some content =>
      let body := drop 16 content in Ok (decrypt_loop (S (length body)) key (take 16 content) body 0)
  end.

(** A [Path]: its root (POSIX keeps exactly two leading slashes), and its parts without empty ones
    and single dots. *)
Definition path_root (s : str) : str :=
  match s with 47 :: 47 :: 47 :: _ => [47] | 47 :: 47 :: _ => [47; 47] | 47 :: _ => [47] | _ => [] end.
Definition path_parts (s : str) : list str := filter (λ c, c ≠ [] ∧ c ≠ [46]) (split_on 47 s).

(** [self.path / filename]: an absolute name replaces the directory. *)
Definition file_path (w : workspace) (filename : str) : str :=
  match path_root filename with
  | [] => path_root (ws_path w) ++ join_sep 47 (path_parts (ws_path w) ++ path_parts filename)
  | root => root ++ join_sep 47 (path_parts filename)
  end.

(** [__init__] and [__enter__]: a new directory with no files, a random key. *)
Definition new_workspace (key : bytes) (tmp_dir : str) (disk0 : gmap str bytes) : workspace :=
  {| ws_key := Some key; ws_path := tmp_dir; allowed_files := []; disk := disk0 |}.

Definition allow (filename : str) (w : workspace) : workspace :=
  {| ws_key := ws_key w; ws_path := ws_path w; allowed_files := filename :: allowed_files w; disk := disk w |}.

Definition get_url (port : Z) (filename : str) (w : workspace) : str * workspace :=
  (lit "http://127.0.0.1:" ++ dec_str port ++ 47 :: filename, allow filename w).

Definition write_encrypted (nonce : bytes) (filename : str) (stream : bytes) (size : option Z) (w : workspace) : result exn workspace :=
  encrypt_stream nonce stream (file_path w filename) size (allow filename w).

Definition read_decrypted (filename : str) (w : workspace) : result exn bytes :=
  match existing (file_path w filename) w with
  | None => Err (KeyError "FileNotFoundError")
  | Some found => decrypt_stream found w
  end.

Definition workspace_sha256 (filename : str) (w : workspace) : result exn str :=
  content ← read_decrypted filename w; Ok (sha256_hex content).

(** [self.path.strip("/")] of a request *)
Definition request_name (target : str) : str := strip_by (λ c, c =? 47) target.

(** [do_GET]: the status and the body, which is empty when opening fails after the status was
    sent; a closed workspace ends the connection. *)
Definition do_GET (target : str) (w : workspace) : Z * bytes :=
  let filename := request_name target in
  if negb (bool_decide (filename ∈ allowed_files w)) then (404, []) else
  match existing (file_path w filename) w with
  | None => (404, [])
  | Some found => (200, from_ok [] (decrypt_stream found w))
  end.

(** [do_PUT] with the length of the body, when it was given. *)
Definition do_PUT (nonce : bytes) (target : str) (content_length : option Z) (body : bytes) (w : workspace) : Z * workspace :=
  let filename := request_name target in
  let w := allow filename w in
  match encrypt_stream nonce body (file_path w filename) content_length w with
  | Ok w' => (201, w')
  | Err _ => (500, w)
  end.

(** The files under the directory, whose path is a real one. *)
Definition inside (w : workspace) (p : str) : bool := starts_with (ws_path w ++ [47]) p.

(** [__exit__]: the directory is removed, where nothing prevents it ([ignore_errors]), and the key
    is gone. *)
Definition close (w : workspace) : workspace :=
  {| ws_key := None; ws_path := ws_path w; allowed_files := allowed_files w;
     disk := filter (λ p, inside w p.1 = false) (disk w) |}.

(** What can happen to a workspace; the nonce of a write is random. *)
Inductive ws_step : workspace → workspace → Prop :=
  | step_url port f w : ws_step w (get_url port f w).2
  | step_write nonce f data size w w' : length nonce = 16%nat → write_encrypted nonce f data size w = Ok w' → ws_step w w'
  | step_put nonce target n body w : length nonce = 16%nat → ws_step w (do_PUT nonce target n body w).2
  | step_close w : ws_step w (close w).

(** * Chunks *)

Lemma xor_at_app key nonce off a b : xor_at key nonce off (a ++ b) = xor_at key nonce off a ++ xor_at key nonce (off + length a) b.
Proof.
  unfold xor_at. rewrite imap_app. f_equal. apply imap_ext. intros i x _. by rewrite Nat.add_assoc.
Qed.

Lemma length_xor_at key nonce off a : length (xor_at key nonce off a) = length a.
Proof. apply length_imap. Qed.

Lemma xor_at_twice key nonce off a : xor_at key nonce off (xor_at key nonce off a) = a.
Proof.
  unfold xor_at. apply list_eq. intros i. rewrite !list_lookup_imap. destruct (a !! i) as [x|]; cbn; [|done].
  f_equal. by rewrite Z.lxor_assoc, Z.lxor_nilpotent, Z.lxor_0_r.
Qed.

(** How much of the source is written. *)
Definition limited (size : option Z) (done : nat) (src : bytes) : bytes :=
  match size with Some n => take (Z.to_nat (n - Z.of_nat done)) src | None => src end.

Lemma encrypt_loop_spec fuel key nonce src size off : (length src < fuel)%nat →
  encrypt_loop fuel key nonce src size off = xor_at key nonce off (limited size off src).
Proof.
  revert src off. induction fuel as [|fuel IH]; intros src off Hf; [lia|]. cbn [encrypt_loop]. cbv zeta.
  set (cs := match size with Some n => _ | None => _ end). destruct (Z.leb_spec cs 0) as [Hz|Hz].
  { unfold limited. destruct size as [n|]; [|unfold cs, CHUNK in Hz; lia]. unfold cs, CHUNK in Hz.
    replace (Z.to_nat (n - Z.of_nat off)) with 0%nat by lia. done. }
  destruct (take (Z.to_nat cs) src) as [|x chunk] eqn:Et.
  { assert (src = []) as ->.
    { destruct src as [|y src]; [done|]. exfalso. replace (Z.to_nat cs) with (S (Z.to_nat (cs - 1))) in Et by lia. done. }
    unfold limited. destruct size; [by rewrite take_nil|done]. }
  set (c := x :: chunk) in *. assert (src = c ++ drop (length c) src) as Hsrc.
  { rewrite <- (take_drop (Z.to_nat cs) src) at 1. rewrite Et. f_equal.
    assert (length c = Nat.min (Z.to_nat cs) (length src)) as Hl by (rewrite <- Et; apply length_take).
    destruct (decide (Z.to_nat cs ≤ length src)%nat); [f_equal; lia|]. rewrite !drop_ge by lia. done. }
  assert (1 ≤ length c)%nat by (cbn; lia). pose proof (f_equal length Et) as Hlen. rewrite length_take in Hlen.
  rewrite IH by (rewrite length_drop; lia). rewrite <- xor_at_app. f_equal. unfold limited. destruct size as [n|]; [|by rewrite <- Hsrc].
  rewrite Hsrc at 2. assert (Z.of_nat (length c) ≤ n - Z.of_nat off) as Hn.
  { unfold cs in *. lia. }
  rewrite take_app_ge by lia. f_equal. f_equal. lia.
Qed.

Lemma decrypt_loop_spec fuel key nonce src off : (length src < fuel)%nat → decrypt_loop fuel key nonce src off = xor_at key nonce off src.
Proof.
  intros Hf. change (xor_at key nonce off src) with (xor_at key nonce off (limited None off src)).
  rewrite <- (encrypt_loop_spec fuel key nonce src None off Hf). revert src off Hf.
  induction fuel as [|fuel IH]; intros src off Hf; [done|]. cbn [decrypt_loop encrypt_loop]. cbv zeta.
  change (CHUNK <=? 0) with false. cbv iota. destruct (take (Z.to_nat CHUNK) src) as [|x chunk] eqn:Et; [done|].
  f_equal. apply IH. destruct src as [|y src]; [by rewrite take_nil in Et|]. rewrite length_drop. cbn in *. lia.
Qed.

(** Encrypting chunk by chunk is encrypting the source at once: the first [size] bytes of it
    when a size is given, nothing when it is not positive, and all of it otherwise. *)
Theorem chunked_encryption_is_whole key nonce src size :
  encrypt_loop (S (length src)) key nonce src size 0 =
  xor_at key nonce 0 (match size with Some n => take (Z.to_nat n) src | None => src end).
Proof.
  rewrite encrypt_loop_spec by lia. unfold limited. destruct size as [n|]; [|done]. by rewrite Z.sub_0_r.
Qed.

(** * Reading back *)

Lemma decrypt_encrypted key nonce data : length nonce = 16%nat →
  decrypt_loop (S (length (drop 16 (nonce ++ xor_at key nonce 0 data)))) key (take 16 (nonce ++ xor_at key nonce 0 data))
    (drop 16 (nonce ++ xor_at key nonce 0 data)) 0 = data.
Proof.
  intros Hn. rewrite (take_app_length' nonce), (drop_app_length' nonce) by done. rewrite decrypt_loop_spec by lia. apply xor_at_twice.
Qed.

(** A file holds a plain text. *)
Definition holds (w : workspace) (real : str) (data : bytes) : Prop :=
  ∃ key nonce, ws_key w = Some key ∧ length nonce = 16%nat ∧ disk w !! real = Some (nonce ++ xor_at key nonce 0 data).

Lemma holds_read w f real data : locate (file_path w f) = File real → holds w real data → read_decrypted f w = Ok data.
Proof.
  intros Hf (key & nonce & Hk & Hn & Hd). unfold read_decrypted, existing, decrypt_stream. rewrite Hf, Hd, Hk. cbn [fmap option_fmap option_map].
  cbv zeta. f_equal. by apply decrypt_encrypted.
Qed.

Lemma encrypt_stream_inv nonce src p size w w' : encrypt_stream nonce src p size w = Ok w' →
  ∃ key real, locate p = File real ∧ ws_key w = Some key ∧ ws_key w' = Some key ∧ ws_path w' = ws_path w ∧
    allowed_files w' = allowed_files w ∧
    disk w' = <[real := nonce ++ xor_at key nonce 0 (match size with Some n => take (Z.to_nat n) src | None => src end)]> (disk w).
Proof.
  unfold encrypt_stream. destruct (ws_key w) as [key|] eqn:Ek; [|done]. destruct (locate p) as [| |real]; [done..|].
  rewrite encrypt_loop_spec by lia. intros [= <-]. exists key, real. cbn [ws_key ws_path allowed_files disk]. unfold limited.
  split_and!; try done. destruct size as [n|]; [by rewrite Z.sub_0_r|done].
Qed.

(** The steps that leave a file alone: anything but closing and writing to a path that names it. *)
Inductive leaves (real : str) : workspace → workspace → Prop :=
  | leaves_url port f w : leaves real w (get_url port f w).2
  | leaves_write nonce f data size w w' :
      locate (file_path w f) ≠ File real → write_encrypted nonce f data size w = Ok w' → leaves real w w'
  | leaves_put nonce target n body w :
      locate (file_path w (request_name target)) ≠ File real → leaves real w (do_PUT nonce target n body w).2.

Lemma file_path_eq w w' f : ws_path w' = ws_path w → file_path w' f = file_path w f.
Proof. intros Hp. unfold file_path. by rewrite Hp. Qed.

Lemma encrypt_leaves nonce src p size w w' real data :
  encrypt_stream nonce src p size w = Ok w' → locate p ≠ File real → ws_path w' = ws_path w ∧ (holds w real data → holds w' real data).
Proof.
  intros (key & real' & Hl & Hk & Hk' & Hp & _ & Hd)%encrypt_stream_inv Hne. split; [done|].
  intros (key' & nonce' & Hk2 & Hn & Hd2). exists key, nonce'. rewrite Hd, lookup_insert_ne by congruence.
  split_and!; [done|done|congruence].
Qed.

Lemma leaves_holds real w w' data : leaves real w w' → ws_path w' = ws_path w ∧ (holds w real data → holds w' real data).
Proof.
  intros Hl. destruct Hl as [port f w|nonce f d size w w' Hne Hw|nonce target n body w Hne]; [done| |].
  - unfold write_encrypted in Hw. by apply (encrypt_leaves _ _ _ _ _ _ real data) in Hw.
  - unfold do_PUT. cbv zeta. destruct (encrypt_stream _ _ _ _ _) as [w'|e] eqn:Hw; cbn [snd]; [|done].
    by apply (encrypt_leaves _ _ _ _ _ _ real data) in Hw.
Qed.

(** C38. What was written is read back under the same name, the first bytes of it when a size was
    given, whatever was announced, and whatever was written or uploaded under names whose paths
    are another file, in between; its hash is the hash of that. *)
Theorem written_file_is_read_back nonce f real data size w w1 w2 :
  length nonce = 16%nat → locate (file_path w f) = File real → write_encrypted nonce f data size w = Ok w1 → rtc (leaves real) w1 w2 →
  let stored := match size with Some n => take (Z.to_nat n) data | None => data end in
  read_decrypted f w2 = Ok stored ∧ workspace_sha256 f w2 = Ok (sha256_hex stored).
Proof.
  intros Hn Hf Hw Hr stored. unfold write_encrypted in Hw. apply encrypt_stream_inv in Hw as (key & real' & Hl & Hk & Hk' & Hp & _ & Hd).
  cbn [allow ws_path disk ws_key] in *. assert (real' = real) as -> by congruence.
  assert (holds w1 real stored) as H1. { exists key, nonce. split_and!; [done|done|]. rewrite Hd. by rewrite lookup_insert_eq. }
  assert (ws_path w2 = ws_path w ∧ holds w2 real stored) as [Hp2 H2].
  { revert Hp H1. clear Hd Hk'. induction Hr as [x|x y z Hlv Hr IH]; intros Hp Hh; [done|].
    apply (leaves_holds _ _ _ stored) in Hlv as [Hpy Hy]. apply IH; [congruence|auto]. }
  apply (holds_read w2 f) in H2; [|by rewrite (file_path_eq w)]. unfold workspace_sha256. by rewrite H2.
Qed.

(** Names that [Path] reads alike are one file: a name and the same name after [./]. *)
Lemma dot_is_the_same_path w f : path_root f = [] → file_path w (lit "./" ++ f) = file_path w f.
Proof.
  intros Hr. unfold file_path. change (path_root (lit "./" ++ f)) with (@nil Z). rewrite Hr.
  assert (path_parts (lit "./" ++ f) = path_parts f) as ->; [|done].
  unfold path_parts. change (lit "./" ++ f) with (46 :: 47 :: f). cbn [split_on Z.eqb Pos.eqb]. by rewrite filter_cons_False by tauto.
Qed.

(** * The server *)

(** The server answers content only for a name that was announced, written or uploaded under, and
    only of a file that is there (of a directory, nothing). *)
Theorem server_answers_announced_only target w body : do_GET target w = (200, body) →
  request_name target ∈ allowed_files w ∧
  (body = [] ∨ ∃ real content, locate (file_path w (request_name target)) = File real ∧ disk w !! real = Some content ∧
     decrypt_stream (Some content) w = Ok body).
Proof.
  unfold do_GET. cbv zeta. case_match eqn:Ha; [done|]. apply negb_false_iff, bool_decide_eq_true in Ha.
  unfold existing. destruct (locate _) as [| |real]; [done| |].
  - intros [= <-]. split; [done|]. left. unfold decrypt_stream. by case_match.
  - destruct (disk w !! real) as [c|] eqn:Ed; cbn [fmap option_fmap option_map]; [|done]. intros [= <-]. split; [done|].
    destruct (decrypt_stream (Some c) w) eqn:Hdec; cbn [from_ok]; [right; eauto|by left].
Qed.

(** * Closing *)

(** After closing, whatever is called afterwards, no file of the directory is left, and writing,
    reading and hashing fail. *)
Theorem closed_workspace_is_empty w w' : rtc ws_step (close w) w' →
  ws_key w' = None ∧ (∀ p, inside w p = true → disk w' !! p = None) ∧
  (∀ nonce f data size, write_encrypted nonce f data size w' = Err (RuntimeError "Workspace is closed")) ∧
  (∀ f, ¬ is_ok (read_decrypted f w') = true).
Proof.
  intros Hr. assert (ws_path w' = ws_path w ∧ ws_key w' = None ∧ ∀ p, inside w p = true → disk w' !! p = None) as (Hp & Hk & Hd).
  { assert (ws_path (close w) = ws_path w ∧ ws_key (close w) = None ∧ ∀ p, inside w p = true → disk (close w) !! p = None) as Hclosed.
    { split_and!; [done|done|]. intros p Hp. cbn. apply map_lookup_filter_None. right. intros x _. cbn. by rewrite Hp. }
    revert Hclosed. generalize (close w) Hr. clear Hr. intros w0 Hr. induction Hr as [x|x y z Hs Hr IH]; intros (Hp & Hk & Hd); [done|]. apply IH.
    destruct Hs as [port f x|nonce f data size x x' Hn Hw|nonce target n body x Hn|x].
    - done.
    - unfold write_encrypted, encrypt_stream in Hw. cbn [allow ws_key] in Hw. by rewrite Hk in Hw.
    - unfold do_PUT. cbv zeta. unfold encrypt_stream. cbn [allow ws_key]. by rewrite Hk.
    - split_and!; [done|done|]. intros p Hin. cbn. apply map_lookup_filter_None. left. auto. }
  split_and!; [done|done| |].
  - intros nonce f data size. unfold write_encrypted, encrypt_stream. cbn [allow ws_key]. by rewrite Hk.
  - intros f. unfold read_decrypted, decrypt_stream. rewrite Hk. by case_match.
Qed.
End workspace.

(** * Witnesses *)

#[local] Instance sample_ctr : AesCtr := λ key nonce i, Z.of_nat i mod 256.

(** A file system without links in which every directory on the way exists: [..] is resolved. *)
Definition climb (done : list str) (part : str) : list str :=
  if bool_decide (part = [46; 46]) then take (length done - 1) done else done ++ [part].
#[local] Instance sample_tree : Files := λ p,
  let real := 47 :: join_sep 47 (foldl climb [] (path_parts p)) in
  if bool_decide (real = lit "/tmp/ws") then Folder else File real.

Definition sample_nonce16 : bytes := replicate 16 1.
Definition sample_space : workspace := new_workspace [9] (lit "/tmp/ws") ∅.
Definition space_with (name : string) (w : workspace) : workspace := from_ok w (write_encrypted sample_nonce16 (lit name) [1; 2; 3] (Some 2) w).

Lemma written_file_is_read_back_witness :
  read_decrypted (lit "a") (space_with "d/../b" (space_with "a" sample_space)) = Ok [1; 2] ∧
  workspace_sha256 (lit "a") (space_with "d/../b" (space_with "a" sample_space)) = Ok (sha256_hex [1; 2]).
Proof.
  apply (written_file_is_read_back sample_nonce16 (lit "a") (lit "/tmp/ws/a") [1; 2; 3] (Some 2) sample_space
    (space_with "a" sample_space)).
  - reflexivity.
  - vm_compute. reflexivity.
  - vm_compute. reflexivity.
  - apply rtc_once. apply (leaves_write _ sample_nonce16 (lit "d/../b") [1; 2; 3] (Some 2)); [vm_compute; discriminate|vm_compute; reflexivity].
Defined.

Lemma server_answers_announced_only_witness :
  request_name (lit "/a") ∈ allowed_files (space_with "a" sample_space) ∧
  ([1; 2] = [] ∨ ∃ real content, locate (file_path (space_with "a" sample_space) (request_name (lit "/a"))) = File real ∧
     disk (space_with "a" sample_space) !! real = Some content ∧ decrypt_stream (Some content) (space_with "a" sample_space) = Ok [1; 2]).
Proof. apply (server_answers_announced_only (lit "/a") (space_with "a" sample_space) [1; 2]). vm_compute. reflexivity. Defined.

Lemma closed_workspace_is_empty_witness :
  ws_key (close (space_with "a" sample_space)) = None ∧
  (∀ p, inside (space_with "a" sample_space) p = true → disk (close (space_with "a" sample_space)) !! p = None) ∧
  (∀ nonce f data size, write_encrypted nonce f data size (close (space_with "a" sample_space)) = Err (RuntimeError "Workspace is closed")) ∧
  (∀ f, ¬ is_ok (read_decrypted f (close (space_with "a" sample_space))) = true).
Proof. apply (closed_workspace_is_empty (space_with "a" sample_space)). apply rtc_refl. Defined.

(** An upload under another spelling of a name overwrites the file; the name itself need not have
    been announced under that spelling. *)
Example respelled_upload_overwrites :
  let '(status, w) := do_PUT sample_nonce16 (lit "/.//d/../a") None [5] (space_with "a" sample_space) in
  status = 201 ∧ read_decrypted (lit "a") w = Ok [5].
Proof. vm_compute. done. Qed.

(** An upload announces its own name, so the server takes any, parent directories included; an
    announced directory is answered 200 with nothing. *)
Example upload_outside_directory :
  let '(status, w) := do_PUT sample_nonce16 (lit "/../x") None [5] sample_space in
  status = 201 ∧ is_Some (disk w !! lit "/tmp/x") ∧ do_GET (lit "/../x") w = (200, [5]) ∧
  do_GET (lit "/.") (allow (lit ".") w) = (200, []).
Proof. vm_compute. eauto. Qed.
