(* ===== verification/Ddl.v ===== *)
(** The data definition statements of PostgreSQL that the migrations use, read from their text:
    [CREATE TABLE IF NOT EXISTS], [ALTER TABLE ... ADD COLUMN IF NOT EXISTS] and
    [CREATE [UNIQUE] INDEX IF NOT EXISTS].

    A schema is what [information_schema] shows of it: the columns of every table with their
    [udt_name], and the names of the indexes.  Rows, defaults and constraints other than foreign
    keys are left out; the statements neither read nor change rows.  Statements of another form
    are refused, so that a script that runs was read in full.

    Shown: a script only ever extends a schema, and a script that ran can run again, at once or
    after other scripts, without changing anything. *)
From Stdlib Require Import ZArith Lia.
From stdpp Require Import base decidable strings numbers list gmap.
From S2P Require Import Prelude PyStr.

Open Scope Z_scope.

#[local] Arguments lit _ : simpl never.

(** * Reading a script *)

Inductive token : Type :=
  | Word (w : str)
  | Quoted (s : str)
  | Punct (c : Z).

#[export] Instance token_eq_dec : EqDecision token.
Proof. solve_decision. Defined.

Definition sql_word_char (c : Z) : bool :=
  (97 <=? c) && (c <=? 122) || (65 <=? c) && (c <=? 90) || (48 <=? c) && (c <=? 57) || (c =? 95).

(** The word that was read so far, in lower case: names and keywords are folded. *)
Definition flush (w : str) : list token :=
  match w with [] => [] | _ => [Word (map ascii_lower (reverse w))] end.

(** [quoted] is the text of an open string, [w] the word being read, both in reverse. *)
Fixpoint tokens_go (quoted : option str) (w s : str) : list token :=
  match s with
  | [] => flush w
  | c :: s =>
      match quoted with
      | Some q => if c =? 39 then Quoted (reverse q) :: tokens_go None [] s else tokens_go (Some (c :: q)) [] s
      | None =>
          if sql_word_char c then tokens_go None (c :: w) s else
          flush w ++
          if c =? 39 then tokens_go (Some []) [] s
          else if c_space c then tokens_go None [] s
          else Punct c :: tokens_go None [] s
      end
  end.

Definition tokens (s : str) : list token := tokens_go None [] s.

(** Split at a punctuation mark outside of parentheses; empty pieces are kept. *)
Fixpoint split_tokens (sep depth : Z) (piece l : list token) : list (list token) :=
  match l with
  | [] => [reverse piece]
  | Punct c :: l =>
      if (c =? sep) && (depth =? 0) then reverse piece :: split_tokens sep depth [] l
      else split_tokens sep (if c =? 40 then depth + 1 else if c =? 41 then depth - 1 else depth) (Punct c :: piece) l
  | t :: l => split_tokens sep depth (t :: piece) l
  end.

(** What is between an open parenthesis and its match, and what follows. *)
Fixpoint parenthesised (depth : Z) (inside l : list token) : option (list token * list token) :=
  match l with
  | [] => None
  | Punct c :: l =>
      if c =? 41 then
        if depth =? 0 then Some (reverse inside, l) else parenthesised (depth - 1) (Punct c :: inside) l
      else parenthesised (if c =? 40 then depth + 1 else depth) (Punct c :: inside) l
  | t :: l => parenthesised depth (t :: inside) l
  end.

Definition words (l : list string) : list token := map (λ w, Word (lit w)) l.

(** The rest after the given tokens. *)
Fixpoint expect (p l : list token) : option (list token) :=
  match p, l with
  | [], _ => Some l
  | t :: p, u :: l => if bool_decide (t = u) then expect p l else None
  | _ :: _, [] => None
  end.

(** * Statements *)

Record column := {
  col_name : str;
  col_udt : str;
  col_references : option (str * str);
}.

Inductive statement : Type :=
  | CreateTable (table : str) (cols : list column)
  | AddColumn (table col udt : str)
  | CreateIndex (index table : str) (cols : list str).

(** [udt_name] of the types the scripts use. *)
Definition udt_names : list (str * str) :=
  [(lit "bigserial", lit "int8"); (lit "serial", lit "int4"); (lit "bigint", lit "int8");
   (lit "integer", lit "int4"); (lit "text", lit "text"); (lit "jsonb", lit "jsonb");
   (lit "boolean", lit "bool"); (lit "timestamptz", lit "timestamptz")].

(** A type and what follows it; an array type is named after its elements with an underscore. *)
Definition read_type (l : list token) : option (str * list token) :=
  match l with
  | Word ty :: Punct 91 :: Punct 93 :: l => u ← dict_get ty udt_names; Some (95 :: u, l)
  | Word ty :: l => u ← dict_get ty udt_names; Some (u, l)
  | _ => None
  end.

(** [REFERENCES table(column)] among the constraints of a column. *)
Fixpoint read_references (l : list token) : option (str * str) :=
  match l with
  | [] => None
  | _ :: l' =>
      match expect (words ["references"]) l with
      | Some (Word t :: Punct 40 :: Word c :: Punct 41 :: _) => Some (t, c)
      | _ => read_references l'
      end
  end.

(** An item of a table definition; [Some None] is a constraint of the table. *)
Definition read_item (l : list token) : option (option column) :=
  match l with
  | Word w :: rest =>
      if bool_decide (w ∈ [lit "primary"; lit "unique"; lit "check"]) then Some None else
      '(u, rest) ← read_type rest;
      Some (Some {| col_name := w; col_udt := u; col_references := read_references rest |})
  | _ => None
  end.

Definition read_name (l : list token) : option str := match l with [Word w] => Some w | _ => None end.

(** The columns of an index, each a name with an order or not. *)
Definition read_index_column (l : list token) : option str :=
  match l with
  | Word w :: rest => if bool_decide (rest ∈ [[]; words ["asc"]; words ["desc"]]) then Some w else None
  | _ => None
  end.

Definition read_create_table (l : list token) : option statement :=
  match l with
  | Word t :: Punct 40 :: l =>
      '(inside, rest) ← parenthesised 0 [] l;
      items ← mapM read_item (split_tokens 44 0 [] inside);
      if bool_decide (rest = []) then Some (CreateTable t (omap id items)) else None
  | _ => None
  end.

Definition read_add_column (l : list token) : option statement :=
  match l with
  | Word t :: l =>
      l ← expect (words ["add"; "column"; "if"; "not"; "exists"]) l;
      match l with
      | Word c :: l => '(u, _) ← read_type l; Some (AddColumn t c u)
      | _ => None
      end
  | _ => None
  end.

Definition read_create_index (l : list token) : option statement :=
  match l with
  | Word i :: Word o :: Word t :: Punct 40 :: l =>
      if negb (bool_decide (o = lit "on")) then None else
      '(inside, rest) ← parenthesised 0 [] l;
      cols ← mapM read_index_column (split_tokens 44 0 [] inside);
      if bool_decide (rest = []) || bool_decide (is_Some (expect (words ["where"]) rest))
      then Some (CreateIndex i t cols) else None
  | _ => None
  end.

Definition read_statement (l : list token) : option statement :=
  match expect (words ["create"; "table"; "if"; "not"; "exists"]) l,
        expect (words ["alter"; "table"]) l,
        expect (words ["create"; "index"; "if"; "not"; "exists"]) l,
        expect (words ["create"; "unique"; "index"; "if"; "not"; "exists"]) l with
  | Some l, _, _, _ => read_create_table l
  | _, Some l, _, _ => read_add_column l
  | _, _, Some l, _ => read_create_index l
  | _, _, _, Some l => read_create_index l
  | _, _, _, _ => None
  end.

Definition read_script (s : str) : option (list statement) :=
  mapM read_statement (filter (λ l, l ≠ []) (split_tokens 59 0 [] (tokens s))).

(** * Running a script *)

Record schema := {
  tables : gmap str (gmap str str);
  indexes : gset str;
}.

Definition empty_schema : schema := {| tables := ∅; indexes := ∅ |}.

(** Tables and indexes share one name space. *)
Definition relation_exists (n : str) (s : schema) : bool :=
  bool_decide (is_Some (tables s !! n)) || bool_decide (n ∈ indexes s).

Definition has_column (t c : str) (s : schema) : bool :=
  match tables s !! t with Some cols => bool_decide (is_Some (cols !! c)) | None => false end.

Definition reference_exists (s : schema) (c : column) : bool :=
  match col_references c with Some (t, k) => has_column t k s | None => true end.

Definition column_map (cols : list column) : gmap str str :=
  list_to_map (map (λ c, (col_name c, col_udt c)) cols).

Definition set_table (t : str) (cols : gmap str str) (s : schema) : schema :=
  {| tables := <[t := cols]> (tables s); indexes := indexes s |}.

(** One statement; [None] is an error of the database. *)
Definition run_statement (s : schema) (d : statement) : option schema :=
  match d with
  | CreateTable t cols =>
      if relation_exists t s then Some s else
      if bool_decide (NoDup (map col_name cols)) && forallb (reference_exists s) cols
      then Some (set_table t (column_map cols) s) else None
  | AddColumn t c u =>
      match tables s !! t with
      | None => None
      | Some cols => if bool_decide (is_Some (cols !! c)) then Some s else Some (set_table t (<[c := u]> cols) s)
      end
  | CreateIndex i t cols =>
      if negb (forallb (λ c, has_column t c s) cols) then None else
      if negb (bool_decide (is_Some (tables s !! t))) then None else
      if relation_exists i s then Some s
      else Some {| tables := tables s; indexes := {[i]} ∪ indexes s |}
  end.

Fixpoint run_statements (ds : list statement) (s : schema) : option schema :=
  match ds with [] => Some s | d :: ds => s ← run_statement s d; run_statements ds s end.

(** [cur.execute(sql)] and the commit: the statements of a script are one transaction. *)
Definition execute (sql : str) (s : schema) : option schema :=
  ds ← read_script sql; run_statements ds s.

(** * Extension *)

(** [s'] has every table, column and index of [s], with the same types. *)
Definition extends (s s' : schema) : Prop :=
  (∀ t cols, tables s !! t = Some cols → ∃ cols', tables s' !! t = Some cols' ∧ cols ⊆ cols') ∧
  indexes s ⊆ indexes s'.

#[export] Instance extends_preorder : PreOrder extends.
Proof.
  split.
  - intros s. split; [|done]. intros t cols Hc. by exists cols.
  - intros s1 s2 s3 [Ht1 Hi1] [Ht2 Hi2]. split; [|by etrans].
    intros t cols Hc. destruct (Ht1 _ _ Hc) as (cols2 & Hc2 & ?).
    destruct (Ht2 _ _ Hc2) as (cols3 & ? & ?). exists cols3. split; [done|by etrans].
Qed.

Lemma relation_exists_extends n s s' : extends s s' → relation_exists n s = true → relation_exists n s' = true.
Proof.
  intros [Ht Hi]. unfold relation_exists. rewrite !orb_true_iff, !bool_decide_eq_true.
  intros [[cols Hc]|Hn]; [left|right; set_solver].
  destruct (Ht _ _ Hc) as (cols' & ? & _). by exists cols'.
Qed.

Lemma has_column_extends t c s s' : extends s s' → has_column t c s = true → has_column t c s' = true.
Proof.
  intros [Ht _]. unfold has_column. destruct (tables s !! t) as [cols|] eqn:Hc; [|done].
  destruct (Ht _ _ Hc) as (cols' & -> & Hsub). rewrite !bool_decide_eq_true.
  intros [u Hu]. exists u. by eapply lookup_weaken.
Qed.

Lemma table_extends t s s' : extends s s' → is_Some (tables s !! t) → is_Some (tables s' !! t).
Proof. intros [Ht _] [cols Hc]. destruct (Ht _ _ Hc) as (cols' & ? & _). by exists cols'. Qed.

Lemma extends_set_table t cols s :
  (∀ old, tables s !! t = Some old → old ⊆ cols) → extends s (set_table t cols s).
Proof.
  intros Hold. split; [|done]. intros t' old Ht'. cbn [set_table tables].
  destruct (decide (t = t')) as [<-|Hne].
  - exists cols. split; [apply lookup_insert_eq|auto].
  - exists old. by rewrite lookup_insert_ne.
Qed.

Lemma run_statement_extends s d s' : run_statement s d = Some s' → extends s s'.
Proof.
  destruct d as [t cols|t c u|i t cols]; cbn [run_statement].
  - destruct (relation_exists t s) eqn:Hr; [by intros [= <-]|].
    destruct (_ && _); [|done]. intros [= <-]. apply extends_set_table. intros old Hold.
    exfalso. revert Hr. unfold relation_exists. by rewrite Hold, bool_decide_true.
  - destruct (tables s !! t) as [old|] eqn:Ht; [|done].
    destruct (decide (is_Some (old !! c))) as [Hs|Hn]; [rewrite bool_decide_true by done|rewrite bool_decide_false by done]; intros [= <-]; [done|].
    apply extends_set_table. rewrite Ht. intros ? [= <-]. apply insert_subseteq, eq_None_not_Some, Hn.
  - destruct (negb _); [done|]. destruct (negb _); [done|].
    destruct (relation_exists i s); intros [= <-]; [done|]. split; [|set_solver].
    intros t' old ?. by exists old.
Qed.

(** A statement that ran has nothing to do in any extension of what it left. *)
Lemma run_statement_settled s d s1 s2 :
  run_statement s d = Some s1 → extends s1 s2 → run_statement s2 d = Some s2.
Proof.
  intros Hrun Hext. pose proof (run_statement_extends _ _ _ Hrun) as H01.
  destruct d as [t cols|t c u|i t cols]; cbn [run_statement] in *.
  - rewrite (relation_exists_extends t s1 s2); [done..|].
    destruct (relation_exists t s) eqn:Hr; [by eapply relation_exists_extends|].
    destruct (_ && _); [|done]. injection Hrun as <-.
    unfold relation_exists. cbn. by rewrite lookup_insert_eq, bool_decide_true.
  - assert (has_column t c s1 = true) as Hcol.
    { unfold has_column. destruct (tables s !! t) as [old|] eqn:Ht; [|done].
      destruct (bool_decide _) eqn:Hb in Hrun; injection Hrun as <-; [by rewrite Ht|].
      cbn. rewrite lookup_insert_eq, lookup_insert_eq. by apply bool_decide_true. }
    pose proof (has_column_extends _ _ _ _ Hext Hcol) as Hcol2. unfold has_column in Hcol2.
    destruct (tables s2 !! t); [|done]. by rewrite Hcol2.
  - destruct (forallb _ cols) eqn:Hcols; [cbn [negb] in Hrun|done].
    destruct (bool_decide (is_Some (tables s !! t))) eqn:Ht; [cbn [negb] in Hrun|done].
    assert (extends s s2) as H02 by (by etrans).
    replace (forallb _ cols) with true.
    2:{ symmetry. rewrite forallb_forall in Hcols |- *. intros x Hx. by apply (has_column_extends t x s), Hcols. }
    rewrite (bool_decide_true (is_Some (tables s2 !! t))) by (apply (table_extends t s); [done|by apply bool_decide_eq_true in Ht]).
    cbn [negb]. rewrite (relation_exists_extends i s1 s2); [done..|].
    destruct (relation_exists i s) eqn:Hr; injection Hrun as <-; [done|].
    unfold relation_exists. cbn. rewrite orb_true_iff, !bool_decide_eq_true. right. set_solver.
Qed.

Lemma run_statements_settled ds s s1 :
  run_statements ds s = Some s1 →
  extends s s1 ∧ (∀ s2, extends s1 s2 → run_statements ds s2 = Some s2).
Proof.
  revert s. induction ds as [|d ds IH]; intros s; cbn [run_statements]; [intros [= <-]; by split|].
  rewrite bind_Some. intros (s' & Hd & Hds). destruct (IH _ Hds) as [Hext Hset].
  pose proof (run_statement_extends _ _ _ Hd). split; [by etrans|].
  intros s2 H2. rewrite (run_statement_settled s d s' s2) by (done || by etrans). by apply Hset.
Qed.

Lemma execute_extends sql s s1 : execute sql s = Some s1 → extends s s1.
Proof. unfold execute. rewrite bind_Some. intros (ds & _ & Hr). by apply (run_statements_settled ds). Qed.

(** Every migration script can run again: once it ran, running it in any later schema succeeds
    and changes nothing. *)
Lemma execute_settled sql s s1 s2 : execute sql s = Some s1 → extends s1 s2 → execute sql s2 = Some s2.
Proof.
  unfold execute. rewrite bind_Some. intros (ds & -> & Hr) Hext. cbn.
  by apply (run_statements_settled ds s s1).
Qed.
