(* ===== verification/Migration.v ===== *)
(** Database migrations: [migration.py].  The ledger [schema_migrations] records every migration
    that ran with a digest of its SQL; at start the digests are compared with the code, then the
    pending migrations run in order, each in a transaction of its own before its ledger row is
    written in another.

    The SQL is the text of the source, read and run by [Ddl.execute].  The database is reachable;
    what fails is a script.  The functions take the list [MIGRATIONS] as an argument, so that
    releases with different lists can be compared; the instance is [MIGRATIONS] below.

    Shown: the digest check passes exactly for ledgers of this code, and fails closed; a run that
    was interrupted between any two commits, or an upgrade that skips releases, ends in the same
    database; a second run changes nothing; and what drift detection reports.  A database that was
    created by these very migrations is reported as drifted. *)
From Stdlib Require Import ZArith Lia.
From stdpp Require Import base decidable strings numbers sorting list gmap.
From S2P Require Import Prelude PyStr Sha256 Ddl.

Open Scope Z_scope.

#[local] Arguments lit _ : simpl never.

(** * The ledger *)

Record migration := {
  m_id : Z;
  m_name : str;
  m_sql : str;
}.

Record ledger_row := {
  row_name : str;
  row_checksum : str;
}.

Record database := {
  db_schema : schema;
  ledger : gmap Z ledger_row;
}.

Record checksum_issue := {
  migration_id : Z;
  issue_name : str;
  issue_kind : str;
  issue_expected : option str;
  issue_recorded : option str;
}.

Inductive migration_error : Type :=
  | MigrationChecksumError (issues : list checksum_issue)
  | DatabaseError
  | UnicodeEncodeError.

Definition migrations_table_sql : str := lit "
                CREATE TABLE IF NOT EXISTS schema_migrations (
                    id SERIAL PRIMARY KEY,
                    migration_id INTEGER NOT NULL UNIQUE,
                    name TEXT NOT NULL,
                    applied_at TIMESTAMPTZ NOT NULL DEFAULT now(),
                    checksum TEXT NOT NULL
                );
                ".

Definition with_schema (d : database) (s : schema) : database := {| db_schema := s; ledger := ledger d |}.

(** [execute] and commit; a failing script is rolled back. *)
Definition execute_on (sql : str) (d : database) : option database :=
  with_schema d <$> execute sql (db_schema d).

Definition ensure_migrations_table (d : database) : option database := execute_on migrations_table_sql d.

(** [ON CONFLICT (migration_id) DO NOTHING] *)
Definition record_migration (id : Z) (name checksum : str) (d : database) : database :=
  match ledger d !! id with
  | Some _ => d
  | None => {| db_schema := db_schema d;
               ledger := <[id := {| row_name := name; row_checksum := checksum |}]> (ledger d) |}
  end.

Definition compute_checksum (sql : str) : result migration_error str :=
  match utf8_encode sql with Some b => Ok (sha256_hex b) | None => Err UnicodeEncodeError end.

(** * Digest verification *)

Section verification.
Context `{Unicode}.

(** [{migration.id: migration for migration in MIGRATIONS}] *)
Definition catalog (ms : list migration) : gmap Z migration :=
  foldl (λ c m, <[m_id m := m]> c) ∅ ms.

(** One round of the loop of [_verify_records]. *)
Definition verify_row (ms : list migration) (ir : Z * ledger_row) : result migration_error (option checksum_issue) :=
  let '(id, row) := ir in
  let recorded := py_strip (row_checksum row) in
  match catalog ms !! id with
  | None => Ok (Some {| migration_id := id; issue_name := row_name row; issue_kind := lit "unknown_migration";
                        issue_expected := None;
                        issue_recorded := if bool_decide (recorded = []) then None else Some recorded |})
  | Some m =>
      expected ← compute_checksum (m_sql m);
      Ok (if bool_decide (recorded = []) then
            Some {| migration_id := id; issue_name := m_name m; issue_kind := lit "missing_checksum";
                    issue_expected := Some expected; issue_recorded := None |}
          else if negb (bool_decide (recorded = expected)) then
            Some {| migration_id := id; issue_name := m_name m; issue_kind := lit "checksum_mismatch";
                    issue_expected := Some expected; issue_recorded := Some recorded |}
          else None)
  end.

(** The rows by increasing id. *)
Definition by_id (a b : Z * ledger_row) : Prop := a.1 ≤ b.1.

#[export] Instance by_id_dec : RelDecision by_id.
Proof. intros a b. unfold by_id. apply _. Defined.

Definition sorted_rows (records : gmap Z ledger_row) : list (Z * ledger_row) :=
  merge_sort by_id (map_to_list records).

Definition verify_records (ms : list migration) (records : gmap Z ledger_row) : result migration_error (list checksum_issue) :=
  found ← result_mapM (verify_row ms) (sorted_rows records); Ok (omap (M:=list) id found).

Definition verify_migration_checksums (url : option str) (ms : list migration) (d : database) :
    database * result migration_error (list checksum_issue) :=
  if bool_decide (default [] url = []) then (d, Ok []) else
  match ensure_migrations_table d with
  | None => (d, Err DatabaseError)
  | Some d => (d, verify_records ms (ledger d))
  end.

Definition checksum_enforcement (env : option str) : str :=
  let raw := match env with Some (_ :: _ as v) => v | _ => lit "enforce" end in
  let mode := py_lower (py_strip raw) in
  if bool_decide (mode ∈ [lit "enforce"; lit "warn"]) then mode else lit "enforce".

(** * Running migrations *)

Record report_entry := {
  r_id : Z;
  r_name : str;
  r_action : str;
  r_status : str;
}.

Definition entry_of (m : migration) (action status : str) : report_entry :=
  {| r_id := m_id m; r_name := m_name m; r_action := action; r_status := status |}.

(** The status of a migration that was applied before. *)
Definition skipped_status (issue_by_id : gmap Z checksum_issue) (m : migration) : str :=
  match issue_by_id !! m_id m with Some i => issue_kind i | None => lit "verified" end.

(** The loop over the list: [applied] is the ledger as it was read before. *)
Fixpoint apply_pending (applied : gset Z) (issue_by_id : gmap Z checksum_issue) (ms : list migration)
    (d : database) (results : list report_entry) : database * result migration_error (list report_entry) :=
  match ms with
  | [] => (d, Ok results)
  | m :: ms =>
      if bool_decide (m_id m ∈ applied) then
        apply_pending applied issue_by_id ms d
          (results ++ [entry_of m (lit "skipped") (skipped_status issue_by_id m)])
      else
      match compute_checksum (m_sql m) with
      | Err e => (d, Err e)
      | Ok checksum =>
          match execute_on (m_sql m) d with
          | None => (d, Err DatabaseError)
          | Some d => apply_pending applied issue_by_id ms (record_migration (m_id m) (m_name m) checksum d)
                        (results ++ [entry_of m (lit "applied") (lit "verified")])
          end
      end
  end.

Definition issues_by_id (issues : list checksum_issue) : gmap Z checksum_issue :=
  foldl (λ c i, <[migration_id i := i]> c) ∅ issues.

Record environment := {
  DATABASE_URL : option str;
  MIGRATION_CHECKSUM_ENFORCEMENT : option str;
}.

Definition enforced (env : environment) (enforce_checksums : option bool) : bool :=
  match enforce_checksums with
  | None => bool_decide (checksum_enforcement (MIGRATION_CHECKSUM_ENFORCEMENT env) = lit "enforce")
  | Some b => b
  end.

Definition run_migrations (env : environment) (enforce_checksums : option bool) (ms : list migration) (d : database) :
    database * result migration_error (list report_entry) :=
  if bool_decide (default [] (DATABASE_URL env) = []) then (d, Ok []) else
  match ensure_migrations_table d with
  | None => (d, Err DatabaseError)
  | Some d =>
      match verify_records ms (ledger d) with
      | Err e => (d, Err e)
      | Ok issues =>
          if negb (bool_decide (issues = [])) && enforced env enforce_checksums
          then (d, Err (MigrationChecksumError issues))
          else apply_pending (dom (ledger d)) (issues_by_id issues) ms d []
      end
  end.
End verification.

(** * The migrations of the source *)

Definition migration_1 : migration := {|
  m_id := 1;
  m_name := lit "create proof_events table";
  m_sql := lit "
        CREATE TABLE IF NOT EXISTS proof_events (
            id BIGSERIAL PRIMARY KEY,
            event_type TEXT NOT NULL,
            file_name TEXT,
            video_hash TEXT,
            metadata_hash TEXT,
            proof_id TEXT,
            tier TEXT,
            embedded_hash TEXT,
            metadata JSONB,
            created_at TIMESTAMPTZ NOT NULL DEFAULT now()
        );
        CREATE INDEX IF NOT EXISTS proof_events_video_hash_idx
            ON proof_events (video_hash);
        CREATE INDEX IF NOT EXISTS proof_events_proof_id_idx
            ON proof_events (proof_id);
        " |}.

Definition migration_2 : migration := {|
  m_id := 2;
  m_name := lit "create lineage_events table";
  m_sql := lit "
        CREATE TABLE IF NOT EXISTS lineage_events (
            id BIGSERIAL PRIMARY KEY,
            manifest_digest TEXT NOT NULL UNIQUE,
            manifest JSONB NOT NULL,
            actor_address TEXT NOT NULL,
            parent_proof_ids TEXT[] NOT NULL,
            created_at TIMESTAMPTZ NOT NULL DEFAULT now()
        );
        CREATE INDEX IF NOT EXISTS lineage_events_actor_idx
            ON lineage_events (actor_address);
        " |}.

Definition migration_3 : migration := {|
  m_id := 3;
  m_name := lit "add tx tracking columns to proof_events";
  m_sql := lit "
        ALTER TABLE proof_events ADD COLUMN IF NOT EXISTS tx_hash TEXT;
        ALTER TABLE proof_events ADD COLUMN IF NOT EXISTS tx_status TEXT;
        ALTER TABLE proof_events ADD COLUMN IF NOT EXISTS source_address TEXT;
        ALTER TABLE proof_events ADD COLUMN IF NOT EXISTS contract_id TEXT;
        CREATE INDEX IF NOT EXISTS proof_events_tx_hash_idx
            ON proof_events (tx_hash);
        " |}.

Definition migration_4 : migration := {|
  m_id := 4;
  m_name := lit "add idempotency key to proof_events";
  m_sql := lit "
        ALTER TABLE proof_events ADD COLUMN IF NOT EXISTS idempotency_key TEXT;
        CREATE UNIQUE INDEX IF NOT EXISTS proof_events_idempotency_key_idx
            ON proof_events (idempotency_key)
            WHERE idempotency_key IS NOT NULL;
        " |}.

Definition migration_5 : migration := {|
  m_id := 5;
  m_name := lit "create blobs and tenant_blob_refs tables";
  m_sql := lit "
        CREATE TABLE IF NOT EXISTS blobs (
            content_hash TEXT PRIMARY KEY,
            encrypted_dek TEXT NOT NULL,
            size_bytes BIGINT NOT NULL,
            storage_path TEXT NOT NULL,
            created_at TIMESTAMPTZ NOT NULL DEFAULT now()
        );
        CREATE TABLE IF NOT EXISTS tenant_blob_refs (
            tenant_id TEXT NOT NULL,
            content_hash TEXT NOT NULL REFERENCES blobs(content_hash) ON DELETE CASCADE,
            ref_count INTEGER NOT NULL DEFAULT 1,
            created_at TIMESTAMPTZ NOT NULL DEFAULT now(),
            updated_at TIMESTAMPTZ NOT NULL DEFAULT now(),
            PRIMARY KEY (tenant_id, content_hash)
        );
        " |}.

Definition migration_6 : migration := {|
  m_id := 6;
  m_name := lit "create webhook tables";
  m_sql := lit "
        CREATE TABLE IF NOT EXISTS webhook_subscriptions (
            id BIGSERIAL PRIMARY KEY,
            url TEXT NOT NULL,
            secret_key TEXT NOT NULL,
            is_active BOOLEAN NOT NULL DEFAULT true,
            created_at TIMESTAMPTZ NOT NULL DEFAULT now()
        );
        CREATE TABLE IF NOT EXISTS webhook_deliveries (
            id BIGSERIAL PRIMARY KEY,
            subscription_id BIGINT NOT NULL REFERENCES webhook_subscriptions(id) ON DELETE CASCADE,
            event_id BIGINT NOT NULL REFERENCES proof_events(id) ON DELETE CASCADE,
            status TEXT NOT NULL DEFAULT 'pending',
            retry_count INTEGER NOT NULL DEFAULT 0,
            next_retry_at TIMESTAMPTZ NOT NULL DEFAULT now(),
            lease_expires_at TIMESTAMPTZ,
            last_response_code INTEGER,
            created_at TIMESTAMPTZ NOT NULL DEFAULT now(),
            updated_at TIMESTAMPTZ NOT NULL DEFAULT now()
        );
        CREATE INDEX IF NOT EXISTS webhook_deliveries_status_idx
            ON webhook_deliveries (status, next_retry_at);
        " |}.

Definition migration_7 : migration := {|
  m_id := 7;
  m_name := lit "create proof_history_events table";
  m_sql := lit "
        CREATE TABLE IF NOT EXISTS proof_history_events (
            id BIGSERIAL PRIMARY KEY,
            proof_id TEXT NOT NULL,
            action TEXT NOT NULL,
            actor TEXT,
            reason_code INTEGER NOT NULL,
            contract_id TEXT,
            tx_hash TEXT,
            tx_status TEXT,
            created_at TIMESTAMPTZ NOT NULL DEFAULT now()
        );
        CREATE INDEX IF NOT EXISTS proof_history_events_proof_id_idx
            ON proof_history_events (proof_id);
        " |}.

Definition migration_8 : migration := {|
  m_id := 8;
  m_name := lit "add time attestation columns to proof_events";
  m_sql := lit "
        ALTER TABLE proof_events ADD COLUMN IF NOT EXISTS time_attestation JSONB;
        ALTER TABLE proof_events ADD COLUMN IF NOT EXISTS claimed_capture_time TIMESTAMPTZ;
        ALTER TABLE proof_events ADD COLUMN IF NOT EXISTS retention_class TEXT;
        ALTER TABLE proof_events ADD COLUMN IF NOT EXISTS expires_at TIMESTAMPTZ;
        ALTER TABLE proof_events ADD COLUMN IF NOT EXISTS legal_hold BOOLEAN NOT NULL DEFAULT false;
        CREATE INDEX IF NOT EXISTS proof_events_claimed_capture_time_idx
            ON proof_events (claimed_capture_time);
        " |}.

Definition migration_9 : migration := {|
  m_id := 9;
  m_name := lit "create idempotency_records table";
  m_sql := lit "
        CREATE TABLE IF NOT EXISTS idempotency_records (
            id SERIAL PRIMARY KEY,
            request_digest TEXT NOT NULL,
            request_type TEXT NOT NULL,
            created_at TIMESTAMPTZ NOT NULL DEFAULT now(),
            expires_at TIMESTAMPTZ NOT NULL,
            status TEXT NOT NULL CHECK (status IN ('PENDING', 'COMPLETED', 'FAILED')),
            response_payload JSONB,
            error_payload JSONB,
            UNIQUE (request_digest, request_type)
        );
        " |}.

Definition migration_10 : migration := {|
  m_id := 10;
  m_name := lit "add composite cursor index to proof_events";
  m_sql := lit "
        CREATE INDEX IF NOT EXISTS proof_events_cursor_idx
            ON proof_events (id DESC, created_at DESC);
        " |}.

Definition migration_11 : migration := {|
  m_id := 11;
  m_name := lit "create proof event deletion receipts";
  m_sql := lit "
        CREATE TABLE IF NOT EXISTS deletion_receipts (
            id BIGSERIAL PRIMARY KEY,
            event_id BIGINT NOT NULL,
            proof_id TEXT,
            video_hash TEXT,
            metadata_hash TEXT,
            deleted_at TIMESTAMPTZ NOT NULL DEFAULT now()
        );
        CREATE INDEX IF NOT EXISTS deletion_receipts_event_id_idx
            ON deletion_receipts (event_id);
        " |}.

Definition migration_12 : migration := {|
  m_id := 12;
  m_name := lit "add event_index to proof_events and create indexer_state";
  m_sql := lit "
        ALTER TABLE proof_events ADD COLUMN IF NOT EXISTS event_index INTEGER;
        CREATE UNIQUE INDEX IF NOT EXISTS proof_events_tx_hash_event_index_idx
            ON proof_events (tx_hash, event_index)
            WHERE tx_hash IS NOT NULL AND event_index IS NOT NULL;
        CREATE TABLE IF NOT EXISTS indexer_state (
            id TEXT PRIMARY KEY,
            cursor TEXT NOT NULL,
            ledger BIGINT,
            updated_at TIMESTAMPTZ NOT NULL DEFAULT now()
        );
        " |}.

Definition MIGRATIONS : list migration :=
  [migration_1; migration_2; migration_3; migration_4; migration_5; migration_6; migration_7;
   migration_8; migration_9; migration_10; migration_11; migration_12].

(** * Drift detection *)

Definition EXPECTED_TABLES : list (str * list (str * str)) :=
  [
   (lit "proof_events",
    [(lit "id", lit "bigint"); (lit "event_type", lit "text");
     (lit "file_name", lit "text"); (lit "video_hash", lit "text");
     (lit "metadata_hash", lit "text"); (lit "proof_id", lit "text");
     (lit "tier", lit "text"); (lit "embedded_hash", lit "text");
     (lit "metadata", lit "jsonb"); (lit "created_at", lit "timestamp with time zone");
     (lit "tx_hash", lit "text"); (lit "tx_status", lit "text");
     (lit "source_address", lit "text"); (lit "contract_id", lit "text");
     (lit "idempotency_key", lit "text"); (lit "time_attestation", lit "jsonb");
     (lit "claimed_capture_time", lit "timestamp with time zone"); (lit "retention_class", lit "text");
     (lit "expires_at", lit "timestamp with time zone"); (lit "legal_hold", lit "boolean");
     (lit "event_index", lit "integer")]);
   (lit "lineage_events",
    [(lit "id", lit "bigint"); (lit "manifest_digest", lit "text");
     (lit "manifest", lit "jsonb"); (lit "actor_address", lit "text");
     (lit "parent_proof_ids", lit "text"); (lit "created_at", lit "timestamp with time zone")]);
   (lit "blobs",
    [(lit "content_hash", lit "text"); (lit "encrypted_dek", lit "text");
     (lit "size_bytes", lit "bigint"); (lit "storage_path", lit "text");
     (lit "created_at", lit "timestamp with time zone")]);
   (lit "tenant_blob_refs",
    [(lit "tenant_id", lit "text"); (lit "content_hash", lit "text");
     (lit "ref_count", lit "integer"); (lit "created_at", lit "timestamp with time zone");
     (lit "updated_at", lit "timestamp with time zone")]);
   (lit "webhook_subscriptions",
    [(lit "id", lit "bigint"); (lit "url", lit "text");
     (lit "secret_key", lit "text"); (lit "is_active", lit "boolean");
     (lit "created_at", lit "timestamp with time zone")]);
   (lit "webhook_deliveries",
    [(lit "id", lit "bigint"); (lit "subscription_id", lit "bigint");
     (lit "event_id", lit "bigint"); (lit "status", lit "text");
     (lit "retry_count", lit "integer"); (lit "next_retry_at", lit "timestamp with time zone");
     (lit "lease_expires_at", lit "timestamp with time zone"); (lit "last_response_code", lit "integer");
     (lit "created_at", lit "timestamp with time zone"); (lit "updated_at", lit "timestamp with time zone")]);
   (lit "proof_history_events",
    [(lit "id", lit "bigint"); (lit "proof_id", lit "text");
     (lit "action", lit "text"); (lit "actor", lit "text");
     (lit "reason_code", lit "integer"); (lit "contract_id", lit "text");
     (lit "tx_hash", lit "text"); (lit "tx_status", lit "text");
     (lit "created_at", lit "timestamp with time zone")]);
   (lit "idempotency_records",
    [(lit "id", lit "integer"); (lit "request_digest", lit "text");
     (lit "request_type", lit "text"); (lit "created_at", lit "timestamp with time zone");
     (lit "expires_at", lit "timestamp with time zone"); (lit "status", lit "text");
     (lit "response_payload", lit "jsonb"); (lit "error_payload", lit "jsonb")]);
   (lit "schema_migrations",
    [(lit "id", lit "integer"); (lit "migration_id", lit "integer");
     (lit "name", lit "text"); (lit "applied_at", lit "timestamp with time zone");
     (lit "checksum", lit "text")]);
   (lit "deletion_receipts",
    [(lit "id", lit "bigint"); (lit "event_id", lit "bigint");
     (lit "proof_id", lit "text"); (lit "video_hash", lit "text");
     (lit "metadata_hash", lit "text"); (lit "deleted_at", lit "timestamp with time zone")]);
   (lit "indexer_state",
    [(lit "id", lit "text"); (lit "cursor", lit "text");
     (lit "ledger", lit "bigint"); (lit "updated_at", lit "timestamp with time zone")])].

Record drift_entry := {
  table_name : str;
  drift_issue : str;
  drift_detail : str;
}.

Definition type_alias : list (str * str) :=
  [(lit "int4", lit "integer"); (lit "int8", lit "bigint"); (lit "bool", lit "boolean");
   (lit "timestamp", lit "timestamp without time zone");
   (lit "timestamptz", lit "timestamp with time zone");
   (lit "varchar", lit "character varying")].

Definition alias_of (ty : str) : str := default ty (dict_get ty type_alias).

Definition types_match (actual expected : str) : bool := bool_decide (alias_of actual = alias_of expected).

(** The body of the loop over the expected columns of a table that is there. *)
Definition column_drift (t : str) (actual_cols : gmap str str) (expected : str * str) : list drift_entry :=
  let '(col, expected_type) := expected in
  match actual_cols !! col with
  | None => [{| table_name := t; drift_issue := lit "missing_column";
                drift_detail := lit "Expected column '" ++ t ++ lit "." ++ col ++ lit "' does not exist" |}]
  | Some actual_type =>
      if types_match actual_type expected_type then [] else
      [{| table_name := t; drift_issue := lit "type_mismatch";
          drift_detail := lit "Column '" ++ t ++ lit "." ++ col ++ lit "' has type '" ++ actual_type ++
                          lit "', expected '" ++ expected_type ++ lit "'" |}]
  end.

(** The body of the loop over the expected tables. *)
Definition table_drift (s : schema) (expected : str * list (str * str)) : list drift_entry :=
  let '(t, expected_cols) := expected in
  match tables s !! t with
  | None => [{| table_name := t; drift_issue := lit "missing_table";
                drift_detail := lit "Expected table '" ++ t ++ lit "' does not exist" |}]
  | Some actual_cols => expected_cols ≫= column_drift t actual_cols
  end.

Definition detect_drift (url : option str) (s : schema) : list drift_entry :=
  if bool_decide (default [] url = []) then [] else EXPECTED_TABLES ≫= table_drift s.

(** * Facts *)

(** A database with nothing in it, and the environment of a server. *)
Definition fresh : database := {| db_schema := empty_schema; ledger := ∅ |}.
Definition server_env : environment :=
  {| DATABASE_URL := Some (lit "postgresql://db"); MIGRATION_CHECKSUM_ENFORCEMENT := None |}.

Lemma bind_nil_iff {A B} (f : A → list B) l : l ≫= f = [] ↔ ∀ x, x ∈ l → f x = [].
Proof.
  rewrite <-Forall_forall. induction l as [|x l IH]; [done|]. cbn. by rewrite app_nil, IH, Forall_cons.
Qed.

(** ** Digest verification *)

Section facts.
Context `{Unicode}.

Lemma catalog_app ms m : catalog (ms ++ [m]) = <[m_id m := m]> (catalog ms).
Proof. unfold catalog. by rewrite foldl_app. Qed.

Lemma catalog_inv ms i m : catalog ms !! i = Some m → m ∈ ms ∧ m_id m = i.
Proof.
  induction ms as [|m' ms IH] using rev_ind; [done|].
  rewrite catalog_app, lookup_insert_Some, elem_of_app, list_elem_of_singleton. naive_solver.
Qed.

Lemma catalog_lookup ms m : NoDup (map m_id ms) → m ∈ ms → catalog ms !! m_id m = Some m.
Proof.
  induction ms as [|m' ms IH] using rev_ind; [set_solver|].
  rewrite map_app, NoDup_app, catalog_app, elem_of_app, list_elem_of_singleton. cbn [map].
  intros (Hnd & Hdis & _) [Hm| ->]; [|by rewrite lookup_insert_eq].
  rewrite lookup_insert_ne; [by apply IH|].
  intros He. apply (Hdis (m_id m)); [by apply (list_elem_of_fmap_2 m_id)|]. rewrite He. set_solver.
Qed.

Lemma elem_of_sorted_rows records x : x ∈ sorted_rows records ↔ records !! x.1 = Some x.2.
Proof. unfold sorted_rows. rewrite merge_sort_Permutation. destruct x. by rewrite elem_of_map_to_list. Qed.

Lemma mapM_is_ok {E A B} (f : A → result E B) l :
  is_ok (result_mapM f l) = true ↔ Forall (λ x, is_ok (f x) = true) l.
Proof.
  induction l as [|x l IH]; [done|]. cbn [result_mapM]. rewrite Forall_cons, <-IH.
  destruct (f x); [|naive_solver]. cbn. destruct (result_mapM f l); naive_solver.
Qed.

Lemma mapM_finds_nothing {E A B} (f : A → result E (option B)) l :
  (found ← result_mapM f l; Ok (omap (M:=list) id found)) = Ok [] ↔ Forall (λ x, f x = Ok None) l.
Proof.
  induction l as [|x l IH]; [done|]. cbn [result_mapM]. rewrite Forall_cons, <-IH.
  destruct (f x) as [[b|]|e]; [| |naive_solver]; destruct (result_mapM f l); cbn; intuition congruence.
Qed.

(** A row that records the digest of a migration of the list. *)
Definition row_intact (ms : list migration) (i : Z) (row : ledger_row) : Prop :=
  ∃ m, catalog ms !! i = Some m ∧ compute_checksum (m_sql m) = Ok (py_strip (row_checksum row)).

Lemma checksum_nonempty sql c : compute_checksum sql = Ok c → c ≠ [].
Proof.
  unfold compute_checksum. destruct (utf8_encode sql) as [b|]; [|done]. intros [= <-] He.
  pose proof (length_sha256_hex b) as Hl. by rewrite He in Hl.
Qed.

Lemma verify_row_intact ms i row : verify_row ms (i, row) = Ok None ↔ row_intact ms i row.
Proof.
  unfold verify_row, row_intact. destruct (catalog ms !! i) as [m|]; [|split; [done|by intros (? & ? & _)]].
  transitivity (compute_checksum (m_sql m) = Ok (py_strip (row_checksum row))).
  2:{ split; [by exists m|]. by intros (? & [= <-] & ?). }
  destruct (compute_checksum (m_sql m)) as [c|e] eqn:Hc; [|done]. cbn. apply checksum_nonempty in Hc.
  destruct (decide (py_strip (row_checksum row) = [])) as [Hn|Hn];
    [rewrite bool_decide_true by done|rewrite bool_decide_false by done].
  - split; [done|]. congruence.
  - destruct (decide (py_strip (row_checksum row) = c)) as [He|He];
      [rewrite bool_decide_true by done|rewrite bool_decide_false by done]; cbn; split; congruence.
Qed.

Lemma verify_nil ms records :
  verify_records ms records = Ok [] ↔ map_Forall (row_intact ms) records.
Proof.
  unfold verify_records. rewrite mapM_finds_nothing, Forall_forall. split.
  - intros Hf i row Hr. apply verify_row_intact, Hf. by apply elem_of_sorted_rows.
  - intros Hf [i row] Hr. apply verify_row_intact, Hf. by apply elem_of_sorted_rows in Hr.
Qed.

(** Verification itself fails only on a text that cannot be encoded. *)
Definition encodable (ms : list migration) (i : Z) : Prop :=
  ∀ m, catalog ms !! i = Some m → is_ok (compute_checksum (m_sql m)) = true.

Lemma verify_returns ms records :
  is_ok (verify_records ms records) = true ↔ map_Forall (λ i _, encodable ms i) records.
Proof.
  transitivity (is_ok (result_mapM (verify_row ms) (sorted_rows records)) = true).
  { unfold verify_records. by destruct (result_mapM _ _). }
  rewrite mapM_is_ok, Forall_forall.
  assert (∀ i row, is_ok (verify_row ms (i, row)) = true ↔ encodable ms i) as Hrow.
  { intros i row. unfold verify_row, encodable. destruct (catalog ms !! i) as [m|]; [|by split].
    transitivity (is_ok (compute_checksum (m_sql m)) = true); [by destruct (compute_checksum (m_sql m))|].
    split; [by intros ? ? [= <-]|auto]. }
  split; [intros Hf i row Hr; apply (Hrow i row), Hf; by apply elem_of_sorted_rows|].
  intros Hf [i row] Hr. apply Hrow, (Hf i row). by apply elem_of_sorted_rows in Hr.
Qed.

Lemma checksum_stripped sql c : compute_checksum sql = Ok c → py_strip c = c.
Proof.
  unfold compute_checksum. destruct (utf8_encode sql) as [b|]; [|done]. intros [= <-].
  apply strip_by_none. eapply Forall_impl; [apply sha256_hex_lower|]. cbn. intros x Hx.
  unfold is_lower_hex in Hx. unfold py_space. destruct (Z.ltb_spec x 128); lia.
Qed.

Lemma row_intact_own ms m c :
  NoDup (map m_id ms) → m ∈ ms → compute_checksum (m_sql m) = Ok c →
  row_intact ms (m_id m) {| row_name := m_name m; row_checksum := c |}.
Proof.
  intros Hnd Hm Hc. exists m. split; [by apply catalog_lookup|]. cbn [row_checksum]. by rewrite (checksum_stripped _ _ Hc).
Qed.

(** ** Runs and interruptions *)

Lemma execute_on_ledger sql d d1 : execute_on sql d = Some d1 → ledger d1 = ledger d.
Proof. unfold execute_on. rewrite fmap_Some. by intros (s & _ & ->). Qed.

Lemma execute_on_extends sql d d1 : execute_on sql d = Some d1 → extends (db_schema d) (db_schema d1).
Proof. unfold execute_on. rewrite fmap_Some. intros (s & Hs & ->). by eapply execute_extends. Qed.

Lemma execute_on_settled sql d d1 d2 :
  execute_on sql d = Some d1 → extends (db_schema d1) (db_schema d2) → execute_on sql d2 = Some d2.
Proof.
  unfold execute_on. rewrite fmap_Some. intros (s & Hs & ->) Hext. cbn in Hext.
  rewrite (execute_settled _ _ _ _ Hs Hext). by destruct d2.
Qed.

Lemma record_schema i n c d : db_schema (record_migration i n c d) = db_schema d.
Proof. unfold record_migration. by destruct (ledger d !! i). Qed.

Lemma record_lookup i n c d j :
  ledger (record_migration i n c d) !! j =
  match ledger d !! j with
  | Some row => Some row
  | None => if bool_decide (i = j) then Some {| row_name := n; row_checksum := c |} else None
  end.
Proof.
  unfold record_migration. destruct (ledger d !! i) eqn:Hi; cbn.
  - destruct (ledger d !! j) eqn:Hj; [done|]. rewrite bool_decide_false by congruence. done.
  - destruct (decide (i = j)) as [<-|Hne]; [by rewrite lookup_insert_eq, Hi, bool_decide_true|].
    rewrite lookup_insert_ne, bool_decide_false by done. by destruct (ledger d !! j).
Qed.

Lemma record_dom i n c d : dom (ledger (record_migration i n c d)) = {[i]} ∪ dom (ledger d).
Proof.
  apply set_eq. intros j. rewrite elem_of_union, elem_of_singleton, !elem_of_dom, record_lookup.
  destruct (ledger d !! j); [naive_solver|]. case_bool_decide; naive_solver.
Qed.

(** What the loop commits before it stops, for whatever reason: nothing more, the script of the
    next migration, or the script and its ledger row and then more. *)
Inductive commits (applied : gset Z) : list migration → database → database → Prop :=
  | commits_stop ms d : commits applied ms d d
  | commits_skip m ms d d' :
      m_id m ∈ applied → commits applied ms d d' → commits applied (m :: ms) d d'
  | commits_script m ms d d' :
      m_id m ∉ applied → execute_on (m_sql m) d = Some d' → commits applied (m :: ms) d d'
  | commits_row m ms c d d1 d' :
      m_id m ∉ applied → compute_checksum (m_sql m) = Ok c → execute_on (m_sql m) d = Some d1 →
      commits applied ms (record_migration (m_id m) (m_name m) c d1) d' →
      commits applied (m :: ms) d d'.

(** The databases a run may leave when its process dies between two commits. *)
Definition interrupted (ms : list migration) (d d' : database) : Prop :=
  d' = d ∨ ∃ d0, ensure_migrations_table d = Some d0 ∧ commits (dom (ledger d0)) ms d0 d'.

Lemma commits_extends applied ms d d' : commits applied ms d d' → extends (db_schema d) (db_schema d').
Proof.
  induction 1 as [| |m ms d d' _ He|m ms c d d1 d' _ _ He _ IH]; [done|done|by eapply execute_on_extends|].
  apply execute_on_extends in He. rewrite record_schema in IH. by etrans.
Qed.

(** Rows are never changed, and the new ones are those of the list. *)
Lemma commits_rows applied ms d d' i :
  commits applied ms d d' →
  match ledger d' !! i with
  | Some row => ledger d !! i = Some row ∨
      ∃ m c, m ∈ ms ∧ m_id m = i ∧ compute_checksum (m_sql m) = Ok c ∧ row = {| row_name := m_name m; row_checksum := c |}
  | None => ledger d !! i = None
  end.
Proof.
  induction 1 as [ms d|m ms d d' _ _ IH|m ms d d' _ He|m ms c d d1 d' _ Hc He _ IH].
  - destruct (ledger d !! i); auto.
  - destruct (ledger d' !! i); [|done]. destruct IH as [?|(m' & c & ? & ?)]; [auto|].
    right. exists m', c. split; [by right|done].
  - rewrite (execute_on_ledger _ _ _ He). destruct (ledger d !! i); auto.
  - rewrite record_lookup, (execute_on_ledger _ _ _ He) in IH.
    destruct (ledger d' !! i) as [row|], (ledger d !! i) as [row0|]; try (case_bool_decide); try done.
    all: destruct IH as [?|(m' & c' & ? & ?)]; [simplify_eq; eauto|]; try (by right; exists m', c'; split; [right|]).
    right. exists m, c. split; [left|done].
Qed.

Lemma commits_dom applied ms d d' : commits applied ms d d' → dom (ledger d) ⊆ dom (ledger d').
Proof.
  intros Hc i. rewrite !elem_of_dom. intros [row Hr]. pose proof (commits_rows _ _ _ _ i Hc) as Hi.
  destruct (ledger d' !! i); [done|congruence].
Qed.

(** The database the loop ends in, and that it ends. *)
Definition ends_in {A} (p : database * result migration_error A) (d : database) : Prop :=
  p.1 = d ∧ is_ok p.2 = true.

(** The loop depends on [applied] for the ids of the list only, and on the issues not at all. *)
Lemma apply_agrees ap ap' iss iss' ms d res res' df :
  (∀ m, m ∈ ms → m_id m ∈ ap ↔ m_id m ∈ ap') →
  ends_in (apply_pending ap iss ms d res) df → ends_in (apply_pending ap' iss' ms d res') df.
Proof.
  revert d res res'. induction ms as [|m ms IH]; intros d res res' Hap; cbn [apply_pending]; [done|].
  assert (∀ m, m ∈ ms → m_id m ∈ ap ↔ m_id m ∈ ap') as Hap' by (intros; apply Hap; by right).
  rewrite (bool_decide_ext (m_id m ∈ ap) (m_id m ∈ ap')) by (apply Hap; by left).
  case_bool_decide; [by apply IH|].
  destruct (compute_checksum (m_sql m)); [|by intros [_ ?]].
  destruct (execute_on (m_sql m) d); [|by intros [_ ?]]. by apply IH.
Qed.

(** [applied] is what the ledger says of the migrations still to come. *)
Definition ledger_known (applied : gset Z) (ms : list migration) (d : database) : Prop :=
  ∀ m, m ∈ ms → m_id m ∈ applied ↔ m_id m ∈ dom (ledger d).

Lemma ledger_known_record applied m ms c d d1 :
  NoDup (map m_id (m :: ms)) → execute_on (m_sql m) d = Some d1 → ledger_known applied (m :: ms) d →
  ledger_known applied ms (record_migration (m_id m) (m_name m) c d1).
Proof.
  intros Hnd He Hk m' Hm'. rewrite record_dom, (execute_on_ledger _ _ _ He), (Hk m') by (by right).
  rewrite elem_of_union, elem_of_singleton. split; [auto|]. intros [Heq|]; [|done].
  exfalso. cbn [map] in Hnd. apply NoDup_cons in Hnd as [Hn _]. apply Hn. rewrite <-Heq.
  by apply (list_elem_of_fmap_2 m_id).
Qed.

Lemma commits_completes ap ms d d' iss iss' res res' df :
  NoDup (map m_id ms) → ledger_known ap ms d → commits ap ms d d' →
  ends_in (apply_pending ap iss ms d res) df →
  ends_in (apply_pending (dom (ledger d')) iss' ms d' res') df.
Proof.
  intros Hnd Hk Hc. revert Hnd Hk res res'.
  induction Hc as [ms d|m ms d d' Hm Hc IH|m ms d d' Hm He|m ms c d d1 d' Hm Hck He Hc IH]; intros Hnd Hk res res'.
  - by apply apply_agrees.
  - cbn [apply_pending]. rewrite (bool_decide_true (m_id m ∈ ap)) by done.
    rewrite bool_decide_true by (eapply commits_dom, Hk; [done|left|done]).
    apply IH; [by apply NoDup_cons in Hnd as [_ ?]|]. intros m' ?. apply Hk. by right.
  - cbn [apply_pending]. rewrite (bool_decide_false (m_id m ∈ ap)) by done.
    pose proof (ledger_known_record ap m ms) as Hrec.
    rewrite bool_decide_false by (rewrite (execute_on_ledger _ _ _ He); rewrite <-(Hk m); [done|left]).
    destruct (compute_checksum (m_sql m)) as [c|]; [|by intros [_ ?]].
    rewrite He, (execute_on_settled _ _ _ _ He) by done. apply apply_agrees.
    intros m' Hm'. rewrite (Hk m'), (execute_on_ledger _ _ _ He) by (by right). done.
  - cbn [apply_pending]. rewrite (bool_decide_false (m_id m ∈ ap)), Hck, He by done.
    rewrite bool_decide_true by (eapply commits_dom; [done|]; rewrite record_dom; set_solver).
    apply IH; [by apply NoDup_cons in Hnd as [_ ?]|]. by apply (ledger_known_record _ _ _ _ d).
Qed.

Definition configured (env : environment) : Prop := default [] (DATABASE_URL env) ≠ [].

(** A run that ends has created the ledger and verified it. *)
Lemma run_inv env enf ms d df :
  configured env → ends_in (run_migrations env enf ms d) df →
  ∃ d0 issues, ensure_migrations_table d = Some d0 ∧ verify_records ms (ledger d0) = Ok issues ∧
    (enforced env enf = true → issues = []) ∧
    ends_in (apply_pending (dom (ledger d0)) (issues_by_id issues) ms d0 []) df.
Proof.
  intros Hcf. unfold run_migrations. rewrite bool_decide_false by done.
  destruct (ensure_migrations_table d) as [d0|]; [|by intros [_ ?]].
  destruct (verify_records ms (ledger d0)) as [issues|] eqn:Hv; [|by intros [_ ?]].
  destruct (bool_decide (issues = []) ) eqn:Hb; cbn [negb andb].
  - apply bool_decide_eq_true in Hb. intros ?. exists d0, issues. by split_and!.
  - destruct (enforced env enf); cbn; [by intros [_ ?]|]. intros ?. exists d0, issues. by split_and!.
Qed.

Lemma run_intro env enf ms d d0 issues df :
  configured env → ensure_migrations_table d = Some d0 → verify_records ms (ledger d0) = Ok issues →
  (enforced env enf = true → issues = []) →
  ends_in (apply_pending (dom (ledger d0)) (issues_by_id issues) ms d0 []) df →
  ends_in (run_migrations env enf ms d) df.
Proof.
  intros Hcf He Hv Henf. unfold run_migrations. rewrite bool_decide_false, He, Hv by done.
  destruct (enforced env enf); [rewrite Henf by done|rewrite andb_false_r]; done.
Qed.

(** What was committed verifies as what was there before did. *)
Lemma commits_verify ap ms d d' issues (enf : bool) :
  NoDup (map m_id ms) → commits ap ms d d' → verify_records ms (ledger d) = Ok issues →
  (enf = true → issues = []) →
  ∃ issues', verify_records ms (ledger d') = Ok issues' ∧ (enf = true → issues' = []).
Proof.
  intros Hnd Hc Hv Henf.
  assert (is_ok (verify_records ms (ledger d')) = true) as Hok.
  { apply verify_returns. intros i row Hr. pose proof (commits_rows _ _ _ _ i Hc) as Hi. rewrite Hr in Hi.
    destruct Hi as [Hi|(m & c & Hm & <- & Hck & _)].
    - assert (is_ok (verify_records ms (ledger d)) = true) as Hd by (by rewrite Hv).
      rewrite verify_returns in Hd. by apply (Hd i row).
    - intros m'. rewrite (catalog_lookup ms m) by done. intros [= <-]. by rewrite Hck. }
  destruct (verify_records ms (ledger d')) as [issues'|] eqn:Hv'; [|done]. exists issues'. split; [done|].
  intros He. rewrite (Henf He) in Hv. enough (verify_records ms (ledger d') = Ok []) by congruence.
  apply verify_nil. rewrite verify_nil in Hv. intros i row Hr.
  pose proof (commits_rows _ _ _ _ i Hc) as Hi. rewrite Hr in Hi.
  destruct Hi as [Hi|(m & c & Hm & <- & Hck & ->)]; [by apply Hv|by apply row_intact_own].
Qed.

Lemma interrupted_completes env enf ms d d' df :
  NoDup (map m_id ms) → configured env → interrupted ms d d' →
  ends_in (run_migrations env enf ms d) df → ends_in (run_migrations env enf ms d') df.
Proof.
  intros Hnd Hcf [->|(d0 & He & Hc)] Hrun; [done|].
  destruct (run_inv _ _ _ _ _ Hcf Hrun) as (d0' & issues & He' & Hv & Henf & Ha).
  rewrite He in He'. injection He' as <-.
  destruct (commits_verify _ _ _ _ _ _ Hnd Hc Hv Henf) as (issues' & Hv' & Henf').
  apply (run_intro env enf ms d' d' issues'); [done| |done..|].
  - eapply execute_on_settled; [exact He|]. by eapply commits_extends.
  - eapply commits_completes; [done| |exact Hc|exact Ha]. by intros m _.
Qed.

Lemma apply_commits ap iss ms ms' d res df :
  ends_in (apply_pending ap iss ms d res) df → commits ap (ms ++ ms') d df.
Proof.
  revert d res. induction ms as [|m ms IH]; intros d res; cbn [apply_pending app].
  - intros [<- _]. constructor.
  - case_bool_decide; [intros; eapply commits_skip; eauto|].
    destruct (compute_checksum (m_sql m)) as [c|] eqn:Hc; [|by intros [_ ?]].
    destruct (execute_on (m_sql m) d) as [d1|] eqn:He; [|by intros [_ ?]].
    intros Ha. eapply commits_row; eauto.
Qed.

Lemma apply_records ap iss ms d res df m :
  dom (ledger d) ⊆ dom (ledger df) → ap ⊆ dom (ledger df) →
  ends_in (apply_pending ap iss ms d res) df → m ∈ ms → m_id m ∈ dom (ledger df).
Proof.
  intros Hd Hap. revert d res Hd. induction ms as [|m' ms IH]; intros d res Hd; cbn [apply_pending]; [set_solver|].
  case_bool_decide as Hm.
  { intros Ha [-> |]%elem_of_cons; [set_solver|]. by eapply IH. }
  destruct (compute_checksum (m_sql m')) as [c|]; [|by intros [_ ?]].
  destruct (execute_on (m_sql m') d) as [d1|] eqn:He; [|by intros [_ ?]]. intros Ha Hin.
  assert (dom (ledger (record_migration (m_id m') (m_name m') c d1)) ⊆ dom (ledger df)) as Hdom.
  { eapply commits_dom, (apply_commits _ _ ms []). exact Ha. }
  apply elem_of_cons in Hin as [-> |]; [|by eapply IH]. apply Hdom. rewrite record_dom. set_solver.
Qed.

Lemma apply_all_skipped ap iss ms d res :
  (∀ m, m ∈ ms → m_id m ∈ ap) →
  apply_pending ap iss ms d res =
  (d, Ok (res ++ map (λ m, entry_of m (lit "skipped") (skipped_status iss m)) ms)).
Proof.
  revert res. induction ms as [|m ms IH]; intros res Hin; cbn [apply_pending map]; [by rewrite app_nil_r|].
  rewrite bool_decide_true by (apply Hin; left). rewrite IH by (intros; apply Hin; by right).
  by rewrite <-app_assoc.
Qed.

(** What a finished run leaves: the ledger of the list, of which nothing remains to be done. *)
Lemma run_leaves env enf ms ms' d df :
  configured env → ends_in (run_migrations env enf ms d) df →
  interrupted (ms ++ ms') d df ∧ (∀ m, m ∈ ms → m_id m ∈ dom (ledger df)).
Proof.
  intros Hcf Hrun. destruct (run_inv _ _ _ _ _ Hcf Hrun) as (d0 & issues & He & _ & _ & Ha).
  pose proof (apply_commits _ _ ms ms' _ _ _ Ha) as Hc. split.
  - right. by exists d0.
  - intros m. by eapply apply_records; [by eapply commits_dom|by eapply commits_dom|].
Qed.

Lemma ends_in_pair {A} (p : database * result migration_error A) d : ends_in p d ↔ ∃ a, p = (d, Ok a).
Proof.
  split; [|by intros [a ->]]. destruct p as [d' [a|e]]; intros [<- Hok]; [by exists a|done].
Qed.

(** C14. A run of the migrations that was interrupted between any two commits, also between the
    script of a migration and its ledger row, is completed by the next run: it ends in the very
    database the undisturbed run ends in. *)
Theorem interrupted_run_completes env enf ms d d' df rep :
  NoDup (map m_id ms) → configured env → interrupted ms d d' →
  run_migrations env enf ms d = (df, Ok rep) → ∃ rep', run_migrations env enf ms d' = (df, Ok rep').
Proof.
  intros Hnd Hcf Hi Hrun. apply ends_in_pair. eapply interrupted_completes; [done..|]. by rewrite Hrun.
Qed.

(** C39. Releases may be skipped: a database that ran an older list of migrations, then the longer
    one, ends where the longer list alone ends. *)
Theorem skipped_releases_agree env enf ms ms' d d1 df rep1 rep :
  NoDup (map m_id (ms ++ ms')) → configured env →
  run_migrations env enf ms d = (d1, Ok rep1) → run_migrations env enf (ms ++ ms') d = (df, Ok rep) →
  ∃ rep', run_migrations env enf (ms ++ ms') d1 = (df, Ok rep').
Proof.
  intros Hnd Hcf H1 H2. apply ends_in_pair. eapply (interrupted_completes _ _ _ d); [done..| |by rewrite H2].
  eapply (run_leaves env enf ms ms'); [done|]. by rewrite H1.
Qed.

(** With enforcement, once a run returned, the ledger verifies and the next run changes
    nothing: it reports every migration as skipped and verified. *)
Theorem second_run_changes_nothing env enf ms d df rep :
  NoDup (map m_id ms) → configured env → enforced env enf = true →
  run_migrations env enf ms d = (df, Ok rep) →
  verify_records ms (ledger df) = Ok [] ∧
  run_migrations env enf ms df = (df, Ok (map (λ m, entry_of m (lit "skipped") (lit "verified")) ms)).
Proof.
  intros Hnd Hcf Henf Hrun. assert (ends_in (run_migrations env enf ms d) df) as Hend by (by rewrite Hrun).
  destruct (run_inv _ _ _ _ _ Hcf Hend) as (d0 & issues & He & Hv & Hi & Ha).
  pose proof (apply_commits _ _ ms [] _ _ _ Ha) as Hc. rewrite app_nil_r in Hc.
  destruct (commits_verify _ _ _ _ _ true Hnd Hc Hv) as (issues' & Hv' & Hn); [auto|].
  rewrite (Hn eq_refl) in Hv'. split; [done|].
  unfold run_migrations. rewrite bool_decide_false by done.
  assert (ensure_migrations_table df = Some df) as ->.
  { eapply execute_on_settled; [exact He|]. by eapply commits_extends. }
  rewrite Hv'. rewrite bool_decide_true by done. cbn [negb andb].
  apply apply_all_skipped, (run_leaves env enf ms [] d df Hcf Hend).
Qed.

(** C40. Fail closed: with enforcement, a ledger with one row that is not a digest of this code's
    migrations stops the run before anything but the ledger table was touched. *)
Theorem tampered_ledger_stops_run env enf ms d i row :
  configured env → enforced env enf = true → ledger d !! i = Some row → ¬ row_intact ms i row →
  let '(d', r) := run_migrations env enf ms d in
  is_ok r = false ∧ (d' = d ∨ ensure_migrations_table d = Some d') ∧ ledger d' = ledger d.
Proof.
  intros Hcf Henf Hrow Hbad. unfold run_migrations. rewrite bool_decide_false, Henf by done.
  destruct (ensure_migrations_table d) as [d0|] eqn:He; [|auto].
  pose proof (execute_on_ledger _ _ _ He) as Hl. rewrite Hl.
  destruct (verify_records ms (ledger d)) as [issues|] eqn:Hv; [|auto].
  rewrite bool_decide_false; [by cbn; split_and!; [|right|]|]. intros ->. apply verify_nil in Hv. by apply Hbad, Hv.
Qed.

(** The digest check passes exactly for ledgers whose every row names a migration of the code
    and records the digest of its SQL. *)
Theorem verification_passes_iff_intact url ms d d0 :
  url ≠ [] → ensure_migrations_table d = Some d0 →
  verify_migration_checksums (Some url) ms d = (d0, Ok []) ↔ map_Forall (row_intact ms) (ledger d).
Proof.
  intros Hu He. unfold verify_migration_checksums. rewrite bool_decide_false by done. rewrite He.
  pose proof (execute_on_ledger _ _ _ He) as Hl. rewrite <-Hl, <-verify_nil. split; congruence.
Qed.
End facts.

(** ** Drift *)

(** No drift is reported exactly when every expected table is there and every expected column
    has a type of the same name or an alias of it. *)
Theorem drift_free_iff url s :
  url ≠ [] →
  detect_drift (Some url) s = [] ↔
  ∀ t cols, (t, cols) ∈ EXPECTED_TABLES → ∃ actual, tables s !! t = Some actual ∧
    ∀ c ty, (c, ty) ∈ cols → ∃ a, actual !! c = Some a ∧ types_match a ty = true.
Proof.
  intros Hu. unfold detect_drift. rewrite bool_decide_false by done. rewrite bind_nil_iff.
  split; intros Hd.
  - intros t cols Hin. specialize (Hd _ Hin). cbn in Hd. destruct (tables s !! t) as [actual|]; [|done].
    exists actual. split; [done|]. rewrite bind_nil_iff in Hd. intros c ty Hc. specialize (Hd _ Hc). cbn in Hd.
    destruct (actual !! c) as [a|]; [|done]. exists a. by destruct (types_match a ty).
  - intros [t cols] Hin. destruct (Hd _ _ Hin) as (actual & Ht & Hcols). cbn. rewrite Ht.
    apply bind_nil_iff. intros [c ty] Hc. destruct (Hcols _ _ Hc) as (a & Ha & Hm). cbn. by rewrite Ha, Hm.
Qed.

(** * The migrations of the source *)

Lemma migration_ids : map m_id MIGRATIONS = [1; 2; 3; 4; 5; 6; 7; 8; 9; 10; 11; 12].
Proof. done. Qed.

Lemma migration_ids_unique : NoDup (map m_id MIGRATIONS).
Proof. rewrite migration_ids. apply (bool_decide_unpack _). by vm_compute. Qed.

#[local] Existing Instance plain_unicode.

Lemma server_configured : configured server_env.
Proof. done. Qed.

(** The database of a first start. *)
Definition migrated : database := (run_migrations server_env None MIGRATIONS fresh).1.

Lemma first_start_runs : is_ok (run_migrations server_env None MIGRATIONS fresh).2 = true.
Proof. by vm_compute. Qed.

Lemma first_start : ∃ rep, run_migrations server_env None MIGRATIONS fresh = (migrated, Ok rep).
Proof. apply ends_in_pair. split; [done|apply first_start_runs]. Qed.

(** The very database these migrations create is reported as drifted: [parent_proof_ids] is an
    array, whose [udt_name] is [_text], where [text] is expected.  It is the one report. *)
Theorem created_database_is_reported :
  detect_drift (DATABASE_URL server_env) (db_schema migrated) =
  [{| table_name := lit "lineage_events"; drift_issue := lit "type_mismatch";
      drift_detail := lit "Column 'lineage_events.parent_proof_ids' has type '_text', expected 'text'" |}].
Proof. by vm_compute. Qed.

(** In warning mode a ledger row of no known migration appears nowhere in the report. *)
Example unknown_row_is_not_reported :
  let d := {| db_schema := empty_schema;
              ledger := {[99 := {| row_name := lit "later"; row_checksum := lit "00" |}]} |} in
  match run_migrations server_env (Some false) MIGRATIONS d with
  | (d', Ok rep) => map r_id rep = map m_id MIGRATIONS ∧
                    forallb (λ e, bool_decide (r_status e = lit "verified")) rep = true ∧
                    is_Some (ledger d' !! 99)
  | _ => False
  end.
Proof. vm_compute. repeat split. by eexists. Qed.

(** A first start that died after the script of the first migration, before its ledger row. *)
Definition started : database := default fresh (ensure_migrations_table fresh).
Definition crashed : database := default fresh (execute_on (m_sql migration_1) started).

Lemma crashed_interrupted : interrupted MIGRATIONS fresh crashed.
Proof.
  right. exists started. split; [by vm_compute|]. apply commits_script; [|by vm_compute].
  apply (bool_decide_unpack _). by vm_compute.
Qed.

Lemma interrupted_run_completes_witness :
  ∃ rep', run_migrations server_env None MIGRATIONS crashed = (migrated, Ok rep').
Proof.
  destruct first_start as [rep Hr].
  exact (interrupted_run_completes server_env None MIGRATIONS fresh crashed migrated rep
           migration_ids_unique server_configured crashed_interrupted Hr).
Defined.

(** An older release with the first two migrations. *)
Definition older_database : database := (run_migrations server_env None (take 2 MIGRATIONS) fresh).1.

Lemma older_start : ∃ rep, run_migrations server_env None (take 2 MIGRATIONS) fresh = (older_database, Ok rep).
Proof. apply ends_in_pair. split; [done|by vm_compute]. Qed.

Lemma skipped_releases_agree_witness :
  ∃ rep', run_migrations server_env None (take 2 MIGRATIONS ++ drop 2 MIGRATIONS) older_database = (migrated, Ok rep').
Proof.
  destruct older_start as [rep1 H1], first_start as [rep Hr].
  exact (skipped_releases_agree server_env None (take 2 MIGRATIONS) (drop 2 MIGRATIONS) fresh older_database migrated rep1 rep
           migration_ids_unique server_configured H1 Hr).
Defined.

Lemma second_run_changes_nothing_witness :
  verify_records MIGRATIONS (ledger migrated) = Ok [] ∧
  run_migrations server_env None MIGRATIONS migrated =
  (migrated, Ok (map (λ m, entry_of m (lit "skipped") (lit "verified")) MIGRATIONS)).
Proof.
  destruct first_start as [rep Hr].
  apply (second_run_changes_nothing server_env None MIGRATIONS fresh migrated rep);
    [exact migration_ids_unique|exact server_configured|by vm_compute|exact Hr].
Defined.

(** A ledger whose row of the first migration was changed. *)
Definition tampered : database :=
  {| db_schema := empty_schema; ledger := {[1 := {| row_name := lit "create"; row_checksum := lit "00" |}]} |}.

Lemma tampered_not_intact : ¬ row_intact MIGRATIONS 1 {| row_name := lit "create"; row_checksum := lit "00" |}.
Proof.
  rewrite <-verify_row_intact. intros Hv. apply (f_equal (λ r, match r with Ok None => true | _ => false end)) in Hv.
  by vm_compute in Hv.
Qed.

Lemma tampered_ledger_stops_run_witness :
  let '(d', r) := run_migrations server_env None MIGRATIONS tampered in
  is_ok r = false ∧ (d' = tampered ∨ ensure_migrations_table tampered = Some d') ∧ ledger d' = ledger tampered.
Proof.
  apply (tampered_ledger_stops_run server_env None MIGRATIONS tampered 1 {| row_name := lit "create"; row_checksum := lit "00" |});
    [exact server_configured|by vm_compute|by vm_compute|exact tampered_not_intact].
Defined.

Lemma verification_passes_iff_intact_witness :
  verify_migration_checksums (Some (lit "postgresql://db")) MIGRATIONS tampered =
    (default tampered (ensure_migrations_table tampered), Ok []) ↔
  map_Forall (row_intact MIGRATIONS) (ledger tampered).
Proof. apply verification_passes_iff_intact; [done|by vm_compute]. Defined.

Lemma drift_free_iff_witness :
  detect_drift (Some (lit "postgresql://db")) empty_schema = [] ↔
  ∀ t cols, (t, cols) ∈ EXPECTED_TABLES → ∃ actual, tables empty_schema !! t = Some actual ∧
    ∀ c ty, (c, ty) ∈ cols → ∃ a, actual !! c = Some a ∧ types_match a ty = true.
Proof. apply drift_free_iff. done. Defined.
