(* ===== verification/HttpSecurity.v ===== *)
(** Origins and response headers: [http_security.py], the hook of [app.py] that refuses
    cross-origin requests, and the headers every response gets.

    Tables of code points above 127 are the parameters [Unicode] and [Digits].  Header names are
    compared without regard to case, as the header maps of the server do.

    Shown: the exact shape of a normalised origin and that normalising is idempotent; an origin is
    let through exactly when it is the normal form of an entry of the list; every response carries
    the four security headers and keeps the values its handler chose.  Also: an origin whose port
    is a digit that is no decimal is not refused but raises. *)
From Stdlib Require Import ZArith Lia.
From stdpp Require Import base decidable strings numbers list.
From S2P Require Import Prelude PyStr MetadataErrors JobQueue C2pa.

Open Scope Z_scope.

#[local] Arguments lit _ : simpl never.

(** * Text *)

(** [s.partition(sep)]: the text before and after the first [sep]. *)
Fixpoint split_first (sep s : str) : option (str * str) :=
  if starts_with sep s then Some ([], drop (length sep) s) else
  match s with
  | [] => None
  | c :: s => match split_first sep s with Some (a, b) => Some (c :: a, b) | None => None end
  end.

(** [s.count(sep)], which counts from left to right without overlap; every find drops a character. *)
Fixpoint count_go (fuel : nat) (sep s : str) : Z :=
  match fuel with
  | O => 0
  | S fuel => match split_first sep s with Some (_, rest) => 1 + count_go fuel sep rest | None => 0 end
  end.
Definition count_sub (sep s : str) : Z := count_go (S (length s)) sep s.

(** [host.rpartition(":")[2]] of a text with a colon *)
Definition last_part (sep : Z) (s : str) : str :=
  match partition_on sep (reverse s) with Some (a, _) => reverse a | None => s end.

(** * Origins *)

Section origins.
Context `{Unicode} `{Digits}.

(** The port of a host: [int(port)] raises for digits that are no decimals. *)
Definition port_refused (host : str) : result exn bool :=
  if negb (bool_decide (58 ∈ host)) then Ok false else
  let port := last_part 58 host in
  if bool_decide (port = []) || negb (isdigit port) then Ok true else
  match py_int 10 port with
  | None => Err (ValueError "invalid literal for int()")
  | Some n => Ok (negb ((1 <=? n) && (n <=? 65535)))
  end.

Definition contains_any (chars s : str) : bool := existsb (λ c, bool_decide (c ∈ s)) chars.

Definition normalize_origin (origin : option str) : result exn (option str) :=
  match origin with
  | None | Some [] => Ok None
  | Some origin =>
      let candidate := py_lower (py_strip origin) in
      if bool_decide (candidate = []) || contains_any (lit "?#") candidate then Ok None else
      if negb (count_sub (lit "://") candidate =? 1) then Ok None else
      match split_first (lit "://") candidate with
      | None => Ok None
      | Some (scheme, host) =>
          if bool_decide (scheme = []) || bool_decide (host = []) then Ok None else
          if contains_any (lit "/?#") host then Ok None else
          if bool_decide (64 ∈ host) then Ok None else
          refused ← port_refused host;
          Ok (if refused : bool then None else Some candidate)
      end
  end.

(** Membership in the set of the normalised entries; all of them are normalised. *)
Definition is_origin_allowed (origin : option str) (allowed_origins : list str) : result exn bool :=
  if bool_decide (lit "*" ∈ allowed_origins) then Ok true else
  canonical ← normalize_origin origin;
  match canonical with
  | None => Ok false
  | Some c =>
      entries ← result_mapM (λ entry, normalize_origin (Some entry)) allowed_origins;
      Ok (bool_decide (Some c ∈ entries))
  end.

Definition CORS_EXEMPT_PATHS : list str := [lit "/health"; lit "/ready"; lit "/metrics"].

(** [enforce_cors_origins]: [None] lets the request through. *)
Definition enforce_cors_origins (request_id : str) (cors_origins : list str) (path : str) (origin : option str) :
    result exn (option (pyval * Z)) :=
  if bool_decide (origin = None) || bool_decide (path ∈ CORS_EXEMPT_PATHS) then Ok None else
  allowed ← is_origin_allowed origin cors_origins;
  if allowed : bool then Ok None else
  Ok (Some (error_response request_id (lit "FORBIDDEN_ORIGIN") (lit "request origin is not allowed") 403 None)).

Definition CORS_METHODS : list str := [lit "GET"; lit "POST"; lit "OPTIONS"].

Definition CORS_ALLOW_HEADERS : list str :=
  [lit "Content-Type"; lit "Authorization"; lit "X-Request-ID"; lit "X-Trace-ID"; lit "X-Correlation-ID";
   lit "X-Span-ID"; lit "traceparent"; lit "X-Metrics-Token"; lit "X-Harpocrates-Retention-Class"].

Definition is_cors_method_allowed (method : option str) : bool :=
  match method with
  | None | Some [] => false
  | Some m => bool_decide (py_upper m ∈ CORS_METHODS)
  end.

Definition is_cors_request_header_allowed (header_name : option str) : bool :=
  match header_name with
  | None | Some [] => false
  | Some h => bool_decide (py_lower (py_strip h) ∈ map py_lower CORS_ALLOW_HEADERS)
  end.

(** * Response headers *)

Definition headers := list (str * str).

Definition same_header (a b : str) : bool := bool_decide (py_lower a = py_lower b).

Fixpoint header (name : str) (h : headers) : option str :=
  match h with
  | [] => None
  | (k, v) :: h => if same_header name k then Some v else header name h
  end.

(** [headers.setdefault(name, value)] *)
Definition setdefault (name value : str) (h : headers) : headers :=
  match header name h with Some _ => h | None => h ++ [(name, value)] end.

(** [headers[name] = value]: the first line of that name is replaced and the others are removed. *)
Fixpoint set_header (name value : str) (h : headers) : headers :=
  match h with
  | [] => [(name, value)]
  | (k, v) :: h =>
      if same_header name k then (name, value) :: List.filter (λ kv, negb (same_header name kv.1)) h
      else (k, v) :: set_header name value h
  end.

Definition SECURITY_HEADERS : list (str * str) :=
  [(lit "X-Content-Type-Options", lit "nosniff"); (lit "Referrer-Policy", lit "no-referrer");
   (lit "Cross-Origin-Resource-Policy", lit "same-site"); (lit "Cache-Control", lit "no-store")].

Definition apply_security_headers (enabled : bool) (h : headers) : headers :=
  if enabled then foldl (λ h nv, setdefault nv.1 nv.2 h) h SECURITY_HEADERS else h.

(** The fields of the trace that are sent back, and the release of the server. *)
Record response_context := {
  trace_id : option str;
  correlation_id : option str;
  span_id : option str;
  trace_parent : option str;
  security_headers_enabled : bool;
  release_id : str;
  release_network : str;
}.

(** [if value: response.headers[name] = value] *)
Definition set_if (name : str) (value : option str) (h : headers) : headers :=
  match value with Some ((_ :: _) as v) => set_header name v h | _ => h end.

(** What [process_response] does to the headers. *)
Definition process_headers (c : response_context) (h : headers) : headers :=
  let h := set_if (lit "X-Trace-ID") (trace_id c) h in
  let h := set_if (lit "X-Correlation-ID") (correlation_id c) h in
  let h := set_if (lit "X-Span-ID") (span_id c) h in
  let h := set_if (lit "traceparent") (trace_parent c) h in
  let h := apply_security_headers (security_headers_enabled c) h in
  let h := setdefault (lit "X-Harpocrates-Release") (release_id c) h in
  setdefault (lit "X-Harpocrates-Network") (release_network c) h.
End origins.

(** * Facts *)

Section facts.
Context `{Unicode} `{Digits}.

(** ** Text *)

Lemma split_first_spec sep s a b : split_first sep s = Some (a, b) → s = a ++ sep ++ b.
Proof.
  revert a b. induction s as [|c s IH]; intros a b; cbn [split_first]; unfold starts_with; case_bool_decide as Hs.
  - intros [= <- <-]. rewrite <-Hs at 1. by rewrite take_drop.
  - done.
  - intros [= <- <-]. cbn [app]. rewrite <-Hs at 1. by rewrite take_drop.
  - destruct (split_first sep s) as [[a' b']|]; [|done]. intros [= <- <-]. by rewrite (IH a' b').
Qed.

Lemma split_first_none sep s : split_first sep s = None → contains sep s = false.
Proof.
  induction s as [|c s IH]; cbn [split_first contains]; destruct (starts_with sep _) eqn:Hs; try done.
  destruct (split_first sep s) as [[a b]|]; [done|]. intros _. cbn. by apply IH.
Qed.

(** One occurrence, and none after it. *)
Lemma count_one sep s : sep ≠ [] → count_sub sep s = 1 →
  ∃ a b, split_first sep s = Some (a, b) ∧ contains sep b = false.
Proof.
  intros Hsep. unfold count_sub. cbn [count_go]. destruct (split_first sep s) as [[a b]|] eqn:Hs; [|done].
  intros Hc. exists a, b. split; [done|]. apply split_first_none.
  apply split_first_spec in Hs. destruct (length s) as [|n] eqn:Hl.
  - destruct s; [|done]. symmetry in Hs. apply app_nil in Hs as [_ Hs]. by apply app_nil in Hs as [? _].
  - cbn [count_go] in Hc. destruct (split_first sep b) as [[? ?]|]; [|done].
    assert (0 ≤ count_go n sep l0); [|lia]. clear. revert l0. induction n as [|n IH]; intros l0; cbn; [done|].
    destruct (split_first sep l0) as [[? ?]|]; [|done]. specialize (IH l1). lia.
Qed.

Lemma contains_any_false chars s : contains_any chars s = false ↔ ∀ c, c ∈ chars → c ∉ s.
Proof.
  unfold contains_any. rewrite <-not_true_iff_false, existsb_exists. split.
  - intros Hn c Hc Hs. apply Hn. exists c. by rewrite bool_decide_eq_true, <-list_elem_of_In.
  - intros Hn (c & Hc & Hs). rewrite bool_decide_eq_true in Hs. apply list_elem_of_In in Hc. by apply (Hn c).
Qed.

(** ** Origins *)

(** A host with no port, or with one in range. *)
Definition port_ok (host : str) : Prop :=
  58 ∉ host ∨ ∃ n, py_int 10 (last_part 58 host) = Some n ∧ 1 ≤ n ≤ 65535.

Lemma port_accepted host : port_refused host = Ok false → port_ok host.
Proof.
  unfold port_refused, port_ok. destruct (decide (58 ∈ host)) as [Hin|Hout].
  - rewrite (bool_decide_true (58 ∈ host)) by done. cbn [negb]. destruct (_ || _); [done|].
    destruct (py_int 10 (last_part 58 host)) as [n|]; [|done]. intros [= Hr]. right. exists n. split; [done|lia].
  - by left.
Qed.

Definition candidate_of (o : str) : str := py_lower (py_strip o).

(** What is accepted of a candidate. *)
Record origin_shape (c scheme host : str) : Prop := {
  os_text : c = scheme ++ lit "://" ++ host;
  os_scheme : scheme ≠ [];
  os_host : host ≠ [];
  os_plain : ∀ x, x ∈ lit "/?#@" → x ∉ host;
  os_once : contains (lit "://") host = false;
  os_port : port_ok host;
}.

Lemma normalize_some o c :
  normalize_origin (Some o) = Ok (Some c) → c = candidate_of o ∧ ∃ scheme host, origin_shape c scheme host.
Proof.
  destruct o as [|x o]; [done|]. unfold normalize_origin. fold (candidate_of (x :: o)).
  set (cand := candidate_of (x :: o)). cbv zeta.
  destruct (bool_decide (cand = []) || contains_any (lit "?#") cand) eqn:H1; [done|].
  destruct (count_sub (lit "://") cand =? 1) eqn:Hcount; [cbn [negb]|done].
  apply Z.eqb_eq, count_one in Hcount as (scheme & host & Hsplit & Honce); [|done]. rewrite Hsplit.
  destruct (bool_decide (scheme = []) || bool_decide (host = [])) eqn:H2; [done|].
  destruct (contains_any (lit "/?#") host) eqn:H3; [done|]. destruct (decide (64 ∈ host)) as [H4|H4];
    [by rewrite (bool_decide_true (64 ∈ host))|rewrite (bool_decide_false (64 ∈ host)) by done].
  rewrite bind_ok. intros (refused & Hport & [= Hc]). destruct refused; [done|]. injection Hc as <-.
  split; [done|]. exists scheme, host. apply orb_false_iff in H2 as [Hs Hh].
  rewrite bool_decide_eq_false in Hs, Hh. rewrite contains_any_false in H3.
  split; [by apply split_first_spec in Hsplit|done|done| |done|by apply port_accepted].
  intros y Hy. change (lit "/?#@") with (lit "/?#" ++ [64]) in Hy.
  apply elem_of_app in Hy as [Hy| ->%list_elem_of_singleton]; [by apply H3|done].
Qed.

(** Lower case and blanks do not interfere. *)
Lemma ascii_candidate o : Forall (λ c, 0 ≤ c < 128) o → Forall (λ c, 0 ≤ c < 128) (candidate_of o).
Proof.
  intros Ho. unfold candidate_of, py_strip. pose proof (Forall_strip_by _ py_space o Ho) as Hs.
  rewrite py_lower_ascii by (eapply Forall_impl; [exact Hs|]; cbn; lia).
  apply Forall_fmap. eapply Forall_impl; [exact Hs|]. cbn. intros c Hc. unfold ascii_lower. destruct (_ && _) eqn:E; lia.
Qed.

Lemma drop_while_fmap {A B} (f : A → B) p q l :
  Forall (λ x, q (f x) = p x) l → drop_while q (f <$> l) = f <$> drop_while p l.
Proof. induction 1 as [|x l Hx Hl IH]; [done|]. cbn. rewrite Hx. by destruct (p x). Qed.

Lemma strip_by_fmap (f : Z → Z) p l : Forall (λ x, p (f x) = p x) l → strip_by p (f <$> l) = f <$> strip_by p l.
Proof.
  intros Hl. assert (∀ k, rev (f <$> k) = f <$> rev k) as Hrev by (intros; symmetry; apply map_rev).
  unfold strip_by. rewrite (drop_while_fmap f p p l), Hrev by done.
  rewrite (drop_while_fmap f p p); [by rewrite Hrev|].
  apply Forall_rev. destruct (drop_while_suffix p l) as [k ->]. by apply Forall_drop.
Qed.

Lemma ascii_lower_twice c : ascii_lower (ascii_lower c) = ascii_lower c.
Proof.
  unfold ascii_lower. destruct ((65 <=? c) && (c <=? 90)) eqn:E; [|by rewrite E].
  destruct ((65 <=? c + 32) && (c + 32 <=? 90)) eqn:E2; lia.
Qed.

Lemma candidate_twice o : Forall (λ c, 0 ≤ c < 128) o → candidate_of (candidate_of o) = candidate_of o.
Proof.
  intros Ho. pose proof (Forall_strip_by _ py_space o Ho) as Hs. unfold candidate_of, py_strip.
  assert (∀ s, Forall (λ c, 0 ≤ c < 128) s → py_lower s = ascii_lower <$> s) as Hl.
  { intros s Hss. apply py_lower_ascii. eapply Forall_impl; [exact Hss|]. cbn. lia. }
  rewrite (Hl (strip_by py_space o)) by done. rewrite strip_by_fmap, strip_by_idem.
  - rewrite Hl; [|apply Forall_fmap; eapply Forall_impl; [exact Hs|]; cbn; intros c Hc; unfold ascii_lower; destruct (_ && _) eqn:E; lia].
    rewrite <-list_fmap_compose. apply list_fmap_ext. intros k c Hc. apply ascii_lower_twice.
  - eapply Forall_impl; [exact Hs|]. cbn. intros c Hc. unfold py_space, ascii_lower.
    destruct ((65 <=? c) && (c <=? 90)) eqn:E; [|done].
    destruct (Z.ltb_spec (c + 32) 128), (Z.ltb_spec c 128); lia.
Qed.

(** A normalised origin is a scheme and a host and nothing else: no path, query, fragment or
    credentials, a port in range if there is one; and normalising it again changes nothing. *)
Theorem normalized_origin_is_canonical o c :
  Forall (λ x, 0 ≤ x < 128) o → normalize_origin (Some o) = Ok (Some c) →
  (∃ scheme host, origin_shape c scheme host) ∧ normalize_origin (Some c) = Ok (Some c).
Proof.
  intros Ho Hn. destruct (normalize_some _ _ Hn) as [Hc Hshape]. split; [done|].
  assert (candidate_of c = c) as Hcc by (rewrite Hc; by apply candidate_twice).
  assert (o ≠ []) as Hne by (by intros ->). assert (c ≠ []) as Hcne.
  { destruct Hshape as (sc & host & Hs). rewrite (os_text _ _ _ Hs). pose proof (os_scheme _ _ _ Hs).
    by destruct sc. }
  destruct o as [|x o]; [done|]. destruct c as [|y c]; [done|]. unfold normalize_origin in *.
  fold (candidate_of (x :: o)) in Hn. fold (candidate_of (y :: c)). rewrite Hcc. by rewrite <-Hc in Hn.
Qed.

(** Without a wildcard, a cross-origin request reaches its handler exactly when its origin
    and an entry of the list have the same normal form; otherwise it is answered 403. *)
Theorem foreign_origin_is_refused rid allowed path origin r :
  lit "*" ∉ allowed → path ∉ CORS_EXEMPT_PATHS →
  enforce_cors_origins rid allowed path (Some origin) = Ok r →
  (r = None ∧ ∃ entry c, entry ∈ allowed ∧ normalize_origin (Some origin) = Ok (Some c) ∧
                normalize_origin (Some entry) = Ok (Some c)) ∨
  (snd <$> r = Some 403 ∧ ¬ ∃ entry c, entry ∈ allowed ∧ normalize_origin (Some origin) = Ok (Some c) ∧
                normalize_origin (Some entry) = Ok (Some c)).
Proof.
  intros Hw Hp. unfold enforce_cors_origins, is_origin_allowed.
  rewrite (bool_decide_false (Some origin = None)), (bool_decide_false (path ∈ _)), (bool_decide_false (lit "*" ∈ _)) by done.
  cbn [orb]. destruct (normalize_origin (Some origin)) as [[c|]|e] eqn:Ho; [| |done].
  2:{ intros [= <-]. right. split; [done|]. by intros (? & ? & _ & ? & _). }
  rewrite !bind_Ok. destruct (result_mapM _ allowed) as [entries|e] eqn:Hm; [|done]. rewrite !bind_Ok.
  assert (Some c ∈ entries ↔ ∃ entry, entry ∈ allowed ∧ normalize_origin (Some entry) = Ok (Some c)) as Hin.
  { clear Ho Hw. revert entries Hm. induction allowed as [|e al IH]; intros entries; cbn [result_mapM].
    { intros [= <-]. split; [by intros ?%elem_of_nil|]. by intros (? & ?%elem_of_nil & _). }
    rewrite bind_ok. intros (y & Hy & Hr). apply bind_ok in Hr as (ys & Hys & [= <-]).
    rewrite elem_of_cons, (IH _ Hys). setoid_rewrite elem_of_cons. split.
    - intros [<-|(? & ? & ?)]; eauto.
    - intros (? & [-> |] & ?); [left; congruence|eauto]. }
  case_bool_decide as Hc; intros [= <-]; [left|right].
  - split; [done|]. apply Hin in Hc as (entry & ? & ?). by exists entry, c.
  - split; [done|]. intros (entry & c' & ? & [= <-] & ?). apply Hc, Hin. by exists entry.
Qed.

(** ** Response headers *)

Lemma header_same a b h : same_header a b = true → header a h = header b h.
Proof.
  unfold same_header. rewrite bool_decide_eq_true. intros Hab.
  induction h as [|[k v] h IH]; [done|]. cbn [header]. unfold same_header. by rewrite Hab, IH.
Qed.

Lemma header_app name h h' :
  header name (h ++ h') = match header name h with Some v => Some v | None => header name h' end.
Proof. induction h as [|[k v] h IH]; [done|]. cbn. by destruct (same_header name k). Qed.

Lemma header_setdefault name n v h :
  header name (setdefault n v h) =
  match header name h with Some x => Some x | None => if same_header name n then Some v else None end.
Proof.
  unfold setdefault. destruct (header n h) as [x|] eqn:Hn.
  - destruct (header name h) eqn:Hname; [done|]. destruct (same_header name n) eqn:Hs; [|done].
    rewrite (header_same _ _ _ Hs) in Hname. congruence.
  - rewrite header_app. cbn. done.
Qed.

Lemma header_filter name n h : same_header name n = false →
  header name (List.filter (λ kv, negb (same_header n kv.1)) h) = header name h.
Proof.
  intros Hs. induction h as [|[k v] h IH]; [done|]. cbn [header List.filter fst].
  destruct (same_header n k) eqn:Hk; cbn [negb].
  - rewrite IH.
    destruct (same_header name k) eqn:Hnk; [|done]. exfalso. revert Hs Hk Hnk. unfold same_header.
    rewrite bool_decide_eq_false, !bool_decide_eq_true. congruence.
  - cbn [header]. by rewrite IH.
Qed.

Lemma header_set name n v h :
  header name (set_header n v h) = if same_header name n then Some v else header name h.
Proof.
  induction h as [|[k x] h IH]; [done|]. cbn [set_header]. destruct (same_header n k) eqn:Hk; cbn [header].
  - destruct (same_header name n) eqn:Hn; [done|]. rewrite header_filter by done.
    destruct (same_header name k) eqn:Hnk; [|done]. exfalso. revert Hn Hk Hnk. unfold same_header.
    rewrite bool_decide_eq_false, !bool_decide_eq_true. congruence.
  - rewrite IH. destruct (same_header name k) eqn:Hnk; [|done].
    destruct (same_header name n) eqn:Hn; [|done]. exfalso. revert Hn Hk Hnk. unfold same_header.
    rewrite bool_decide_eq_false, !bool_decide_eq_true. congruence.
Qed.

Lemma header_set_if name n v h : same_header name n = false → header name (set_if n v h) = header name h.
Proof. intros Hs. destruct v as [[|x v]|]; [done| |done]. cbn [set_if]. by rewrite header_set, Hs. Qed.

Definition TRACE_HEADERS : list str := [lit "X-Trace-ID"; lit "X-Correlation-ID"; lit "X-Span-ID"; lit "traceparent"].

Lemma header_trace name c h :
  Forall (λ n, same_header name n = false) TRACE_HEADERS →
  header name (set_if (lit "traceparent") (trace_parent c)
    (set_if (lit "X-Span-ID") (span_id c)
    (set_if (lit "X-Correlation-ID") (correlation_id c)
    (set_if (lit "X-Trace-ID") (trace_id c) h)))) = header name h.
Proof.
  unfold TRACE_HEADERS. rewrite !Forall_cons. intros (H1 & H2 & H3 & H4 & _). by rewrite !header_set_if.
Qed.

(** The defaults fill what is missing. *)
Lemma header_defaults name l h :
  header name (foldl (λ h nv, setdefault nv.1 nv.2 h) h l) =
  match header name h with Some x => Some x | None => header name l end.
Proof.
  revert h. induction l as [|[n v] l IH]; intros h; cbn [foldl header]; [by destruct (header name h)|].
  rewrite IH, header_setdefault. cbn [fst snd]. by destruct (header name h), (same_header name n).
Qed.

(** Every response carries the security headers when they are enabled, each with the value
    its handler chose or else the default; and no header of a handler is lost or changed but the
    four that identify the trace. *)
Theorem response_headers_are_completed c h :
  (security_headers_enabled c = true →
   Forall (λ nv, header nv.1 (process_headers c h) = Some (default nv.2 (header nv.1 h))) SECURITY_HEADERS) ∧
  (∀ name v, header name h = Some v → Forall (λ n, same_header name n = false) TRACE_HEADERS →
   header name (process_headers c h) = Some v).
Proof.
  split.
  - intros He. unfold process_headers, apply_security_headers. rewrite He. apply Forall_forall. intros [n v] Hin.
    cbn [fst snd]. rewrite !header_setdefault, header_defaults.
    assert (Forall (λ m, same_header n m = false) TRACE_HEADERS ∧ header n SECURITY_HEADERS = Some v) as [Ht Hv].
    { revert Hin. unfold SECURITY_HEADERS. rewrite !elem_of_cons, elem_of_nil.
      intros [[= -> ->]|[[= -> ->]|[[= -> ->]|[[= -> ->]|[]]]]]; (split; [repeat constructor|]; by vm_compute). }
    rewrite (header_trace n c h Ht), Hv. by destruct (header n h).
  - intros name v Hh Ht. unfold process_headers. rewrite !header_setdefault.
    unfold apply_security_headers. destruct (security_headers_enabled c);
      [rewrite header_defaults|]; by rewrite header_trace, Hh.
Qed.
End facts.

(** * Witnesses *)

#[local] Existing Instance plain_unicode.

(** The superscript digits are digits, but no decimals. *)
#[local] Instance superscripts : Digits := λ c, bool_decide (c ∈ [178; 179; 185]).

Lemma normalized_origin_is_canonical_witness :
  (∃ scheme host, origin_shape (lit "https://app.example.com:8443") scheme host) ∧
  normalize_origin (Some (lit "https://app.example.com:8443")) = Ok (Some (lit "https://app.example.com:8443")).
Proof.
  apply (normalized_origin_is_canonical (lit " HTTPS://App.example.com:8443 ")); [|by vm_compute].
  apply (bool_decide_unpack _). by vm_compute.
Defined.

Lemma foreign_origin_is_refused_witness :
  let allowed := [lit "https://app.example.com"] in
  let origin := lit "https://app.example.com/evil" in
  let r := Some (error_response (lit "r") (lit "FORBIDDEN_ORIGIN") (lit "request origin is not allowed") 403 None) in
  (r = None ∧ ∃ entry c, entry ∈ allowed ∧ normalize_origin (Some origin) = Ok (Some c) ∧
                normalize_origin (Some entry) = Ok (Some c)) ∨
  (snd <$> r = Some 403 ∧ ¬ ∃ entry c, entry ∈ allowed ∧ normalize_origin (Some origin) = Ok (Some c) ∧
                normalize_origin (Some entry) = Ok (Some c)).
Proof.
  apply (foreign_origin_is_refused (lit "r") [lit "https://app.example.com"] (lit "/api/verify") (lit "https://app.example.com/evil"));
    [apply (bool_decide_unpack _); by vm_compute|apply (bool_decide_unpack _); by vm_compute|by vm_compute].
Defined.

(** An origin whose port is a superscript two is not refused: the hook raises. *)
Example superscript_port_raises :
  enforce_cors_origins (lit "r") [lit "https://app.example.com"] (lit "/api/verify") (Some (lit "https://app.example.com:" ++ [178])) =
  Err (ValueError "invalid literal for int()").
Proof. by vm_compute. Qed.
