(* ===== verification/ProofRoutes.v ===== *)
(** Proof routes of [app.py]: batch verification, the history of a proof, and the two routes that
    generate Silent Witness proofs.

    The handlers are modelled behind admission and idempotency, which are components of their own;
    the proof generator of Noir is the parameter [generate].  Each item of a batch reads the
    database by itself, so that every item has a store of its own, or fails.

    Shown: a batch is answered item by item; the status of a proof is exact when it is asked for
    by its id; a revocation the indexer stores is seen that way and, as it names no video, never
    when the video is asked for; twenty-five newer events of a video hide its status; what was
    posted to a history is listed by it; and the Silent Witness route never succeeds. *)
From Stdlib Require Import ZArith Lia.
From stdpp Require Import base decidable strings numbers list.
From S2P Require Import Prelude PyStr MetadataErrors Lineage ProofStore Webhook ChainIndexer.

Open Scope Z_scope.

#[local] Arguments lit _ : simpl never.

(** * Batch verification *)

Inductive item_answer : Type :=
  | MalformedItem (echo : option (pyval * pyval)) (error : str)
  | ItemStatus (video_hash proof_id : pyval) (status : str) (events : list proof_event)
  | DependencyFailure (video_hash proof_id : pyval) (error : str).

Definition PROOF_EVENTS_DEFAULT_LIMIT : Z := 25.

Definition has_tx_status (st : string) (e : proof_event) : bool := bool_decide (tx_status (ev e) = Some (lit st)).

Definition is_revoked (e : proof_event) : bool :=
  has_tx_status "revoked" e || bool_decide (event_type (ev e) = lit "revoke").

(** The status of the events that were found. *)
Definition events_status (events : list proof_event) : str :=
  match events with
  | [] => lit "not_found"
  | _ =>
      if existsb is_revoked events then lit "revoked"
      else if existsb (has_tx_status "confirmed") events then lit "verified"
      else if existsb (has_tx_status "failed") events then lit "failed"
      else lit "pending"
  end.

(** A hash that passed the check is not empty. *)
Definition given (v : pyval) : option str := match v with PStr s => Some s | _ => None end.

(** The events of an item. *)
Definition item_events (video proof : option str) (s : store) : list proof_event :=
  match video with
  | Some vh =>
      let events := (find_proof_events_by_video vh PROOF_EVENTS_DEFAULT_LIMIT None s).1 in
      match proof with
      | Some pid => filter (λ e, proof_id (ev e) = Some pid) events
      | None => events
      end
  | None => match proof with Some pid => find_proof_events_by_proof_id pid s | None => [] end
  end.

Section batch.
Context `{Unicode} `{Columns}.

(** [value is not None and not is_hex_32(value)] *)
Definition bad_hash (v : pyval) : bool := match v with PNone => false | _ => negb (app_is_hex_32 v) end.

(** One round of the loop; [read] is what the database answers. *)
Definition verify_item (read : result str store) (item : pyval) : item_answer :=
  match item with
  | PDict item =>
      let video := get_or_none (lit "videoHash") item in
      let proof := get_or_none (lit "proofId") item in
      if bad_hash video then MalformedItem (Some (video, proof)) (lit "invalid videoHash") else
      if bad_hash proof then MalformedItem (Some (video, proof)) (lit "invalid proofId") else
      if negb (truthy video) && negb (truthy proof)
      then MalformedItem None (lit "must provide videoHash or proofId") else
      match read with
      | Err e => DependencyFailure video proof e
      | Ok s => let events := item_events (given video) (given proof) s in
                ItemStatus video proof (events_status events) events
      end
  | _ => MalformedItem None (lit "item must be a JSON object")
  end.

Inductive batch_answer : Type :=
  | BatchRefused (status : Z) (error : str)
  | BatchAnswered (results : list (Z * item_answer)).

(** The loop: the results with the index of their items. *)
Fixpoint verify_items (reads : Z → result str store) (idx : Z) (proofs : list pyval) (results : list (Z * item_answer)) :
    list (Z * item_answer) :=
  match proofs with
  | [] => results
  | item :: proofs => verify_items reads (idx + 1) proofs (results ++ [(idx, verify_item (reads idx) item)])
  end.

Definition verify_batch (json_size max_json_bytes max_batch_size : Z) (reads : Z → result str store) (payload : pyval) : batch_answer :=
  if max_json_bytes <? json_size then BatchRefused 413 (lit "JSON payload exceeds size limit") else
  match payload with
  | PDict d =>
      match get_or_none (lit "proofs") d with
      | PList proofs =>
          if max_batch_size <? zlen proofs
          then BatchRefused 413 (lit "batch size exceeds limit of " ++ dec_str max_batch_size)
          else BatchAnswered (verify_items reads 0 proofs [])
      | _ => BatchRefused 400 (lit "JSON body with a 'proofs' array is required")
      end
  | _ => BatchRefused 400 (lit "JSON body with a 'proofs' array is required")
  end.

(** * Proof history *)

Inductive history_answer : Type :=
  | HistoryRefused (status : Z) (error : str)
  | HistoryListed (events : list history_event)
  | HistoryRecorded (id created_at : Z)
  | HistoryRaises (e : exn).

(** [GET /api/proofs/history/<proof_id>]; an offset that is no [bigint] is refused by the database. *)
Definition proof_history (proof_id : str) (limit offset : option str) (s : store) : history_answer :=
  if negb (app_is_hex_32 (PStr proof_id)) then HistoryRefused 400 (lit "proof_id must be a 32-byte hex string") else
  match py_int 10 (default (lit "50") limit), py_int 10 (default (lit "0") offset) with
  | Some parsed_limit, Some parsed_offset =>
      if 2 ^ 63 <=? parsed_offset then HistoryRaises (ValueError "bigint out of range")
      else HistoryListed (list_proof_history_events s proof_id parsed_limit parsed_offset)
  | _, _ => HistoryRefused 400 (lit "limit and offset must be integers")
  end.

(** An [INTEGER] column; a boolean is an [int] to the handler, not to the database. *)
Definition integer_column (v : pyval) : result exn Z :=
  match v with PInt z => int4 z | _ => Err (TypeError "column is of type integer") end.

Definition is_python_int (v : pyval) : bool := match v with PInt _ | PBool _ => true | _ => false end.

(** [POST /api/proofs/history] *)
Definition register_proof_history_event (payload : pyval) (now : Z) (s : store) : store * history_answer :=
  match payload with
  | PDict d =>
      let get k := get_or_none (lit k) d in
      if negb (app_is_hex_32 (get "proofId")) then (s, HistoryRefused 400 (lit "proofId must be a 32-byte hex string")) else
      match get "action" with
      | PStr ((_ :: _) as action) =>
          if negb (is_python_int (get "reasonCode")) then (s, HistoryRefused 400 (lit "reasonCode is required")) else
          match (text_column (PStr action);; actor ← text_column (get "actor"); reason ← integer_column (get "reasonCode");
                 contract ← text_column (get "contractId"); tx ← text_column (get "txHash");
                 Ok (actor, reason, contract, tx)) with
          | Err e => (s, HistoryRaises e)
          | Ok (actor, reason, contract, tx) =>
              let '(s, row) := insert_proof_history_event s (λ id,
                HistoryEvent id (default [] (given (get "proofId"))) action actor reason contract tx None now) in
              (s, HistoryRecorded (he_id row) (he_created_at row))
          end
      | _ => (s, HistoryRefused 400 (lit "action is required"))
      end
  | _ => (s, HistoryRefused 400 (lit "JSON body is required"))
  end.

(** * Silent Witness proofs *)

Definition FIELD_MODULUS : Z := 21888242871839275222246405745257275088548364400416034343698204186575808495617.

(** [str.isdecimal], of a text that is not empty *)
Definition isdecimal (s : str) : bool :=
  forallb (λ c, if c <? 128 then (48 <=? c) && (c <=? 57) else bool_decide (is_Some (digit_tbl c))) s.

(** [int(value)] refuses more than 4300 digits. *)
Definition is_field_decimal (v : pyval) : result exn bool :=
  match v with
  | PStr s =>
      if bool_decide (s = []) || negb (isdecimal s) then Ok false else
      match py_int 10 s with
      | None => Err (ValueError "Exceeds the limit (4300 digits) for integer string conversion")
      | Some n => Ok ((0 <? n) && (n <? FIELD_MODULUS))
      end
  | _ => Ok false
  end.

Inductive noir_answer : Type :=
  | NoirReply (body : pyval) (status : Z)
  | NoirRaises (name : string).

(** [except RuntimeError] around the generator; other exceptions leave the handler. *)
Definition noir_error (e : exn) : string :=
  match e with
  | ValueError _ => "ValueError" | TypeError _ => "TypeError" | KeyError _ => "KeyError" | RuntimeError _ => "RuntimeError"
  | IndexError => "IndexError" | OverflowError => "OverflowError" | AttributeError => "AttributeError"
  | AssertionError => "AssertionError" | UnicodeError => "UnicodeError" | UnboundLocalError => "UnboundLocalError"
  end.

Definition plain_error (message : str) (status : Z) : noir_answer := NoirReply (PDict [(lit "error", PStr message)]) status.

Definition coded_error (request_id : str) (code message : str) (status : Z) : noir_answer :=
  let '(body, status) := error_response request_id code message status None in NoirReply body status.

(** [if not is_field_decimal(value): return answer] *)
Definition require_field (v : pyval) (refusal : noir_answer) (k : noir_answer) : noir_answer :=
  match is_field_decimal v with
  | Err e => NoirRaises (noir_error e)
  | Ok false => refusal
  | Ok true => k
  end.

(** [payload.get(key, default)] *)
Definition get_default (key : string) (dflt : pyval) (d : list (str * pyval)) : pyval := default dflt (dict_get (lit key) d).

(** [isinstance(epoch, int) and epoch >= 0]; booleans are integers. *)
Definition epoch_ok (v : pyval) : bool := match v with PInt z => 0 <=? z | PBool _ => true | _ => false end.

(** [POST /api/noir/silent-witness].  The answer names [job_id], which nothing defines. *)
Definition silent_witness_proof (request_id : str) (json_size max_json_bytes : Z) (noir_worker_enabled : bool)
    (generate : pyval → pyval → pyval → pyval → pyval → result exn pyval) (payload : pyval) : noir_answer :=
  if max_json_bytes <? json_size then plain_error (lit "JSON payload exceeds size limit") 413 else
  if negb noir_worker_enabled then coded_error request_id (lit "NOT_FOUND") (lit "local Noir worker is disabled") 404 else
  let invalid message := coded_error request_id (lit "VALIDATION_ERROR") (lit message) 400 in
  match payload with
  | PDict d =>
      let get k := get_or_none (lit k) d in
      if negb (app_is_hex_32 (get "videoHash")) then invalid "videoHash must be a 32-byte hex string"%string else
      require_field (get "credentialSecret") (invalid "credentialSecret must be a decimal field string"%string) (
      require_field (get "nullifierSecret") (invalid "nullifierSecret must be a decimal field string"%string) (
      let scope := get_default "verifierScope" (PStr (lit "0")) d in
      require_field scope (plain_error (lit "verifierScope must be a decimal field string") 400) (
      let epoch := get_default "epoch" (PInt 0) d in
      if negb (epoch_ok epoch) then plain_error (lit "epoch must be a non-negative integer") 400 else
      match generate (get "videoHash") (get "credentialSecret") (get "nullifierSecret") scope epoch with
      | Err (RuntimeError _) => coded_error request_id (lit "INTERNAL_ERROR") (lit "Noir proof generation failed") 500
      | Err e => NoirRaises (noir_error e)
      | Ok _ => NoirRaises "NameError"
      end)))
  | _ => invalid "JSON body is required"%string
  end.

Definition AGGREGATION_LIMIT : Z := 8.

(** The first video hash that is not one, with its index. *)
Fixpoint first_bad_hash (i : Z) (l : list pyval) : option Z :=
  match l with
  | [] => None
  | v :: l => if app_is_hex_32 v then first_bad_hash (i + 1) l else Some i
  end.

(** [POST /api/noir/silent-witness/aggregate] *)
Definition silent_witness_aggregate (json_size max_json_bytes : Z) (noir_worker_enabled : bool)
    (generate : list pyval → pyval → pyval → result exn pyval) (error_text : exn → str) (payload : pyval) : noir_answer :=
  if max_json_bytes <? json_size then plain_error (lit "JSON payload exceeds size limit") 413 else
  if negb noir_worker_enabled then plain_error (lit "local Noir worker is disabled") 404 else
  match payload with
  | PDict d =>
      let get k := get_or_none (lit k) d in
      match get "videoHashes" with
      | PList ((_ :: _) as hashes) =>
          if AGGREGATION_LIMIT <? zlen hashes
          then plain_error (lit "videoHashes exceeds maximum aggregation size (" ++ dec_str AGGREGATION_LIMIT ++ lit ")") 400 else
          match first_bad_hash 0 hashes with
          | Some i => plain_error (lit "videoHashes[" ++ dec_str i ++ lit "] must be a 32-byte hex string") 400
          | None =>
              require_field (get "credentialSecret") (plain_error (lit "credentialSecret must be a decimal field string") 400) (
              require_field (get "nullifierSecret") (plain_error (lit "nullifierSecret must be a decimal field string") 400) (
              match generate hashes (get "credentialSecret") (get "nullifierSecret") with
              | Ok proof => NoirReply (PDict [(lit "ok", PBool true); (lit "proof", proof)]) 200
              | Err ((ValueError _ | RuntimeError _ | UnicodeError) as e) => plain_error (error_text e) 500
              | Err e => NoirRaises (noir_error e)
              end))
          end
      | _ => plain_error (lit "videoHashes must be a non-empty array") 400
      end
  | _ => plain_error (lit "JSON body is required") 400
  end.
End batch.

(** * Facts *)

(** The first page of a listing. *)
Lemma page_rows p limit s :
  (page_of p limit None s).1 =
  take (Z.to_nat (clamp_proof_events_limit limit)) (filter (λ e, p e = true) (rev (events s))).
Proof.
  unfold page_of, select_desc. set (n := clamp_proof_events_limit limit).
  assert (1 ≤ n) by (unfold n, clamp_proof_events_limit; lia).
  assert (filter (λ e, p e && before None e = true) (rev (events s)) = filter (λ e, p e = true) (rev (events s))) as ->.
  { apply list_filter_iff. intros e. cbn [before]. by rewrite andb_true_r. }
  set (l := filter _ (rev (events s))). replace (Z.to_nat (n + 1)) with (S (Z.to_nat n)) by lia.
  destruct (Z.ltb_spec n (zlen (take (S (Z.to_nat n)) l))) as [Hlt|Hge]; cbn [fst].
  - rewrite take_take. f_equal. lia.
  - unfold zlen in Hge. rewrite length_take in Hge. rewrite !take_ge; [done|lia|lia].
Qed.

(** The newest twenty-five events of a video. *)
Definition video_events (vh : str) (s : store) : list proof_event :=
  filter (λ e, video_hash (ev e) = Some vh) (rev (events s)).

Lemma item_events_video vh pid s :
  item_events (Some vh) pid s =
  match pid with
  | Some p => filter (λ e, proof_id (ev e) = Some p) (take 25 (video_events vh s))
  | None => take 25 (video_events vh s)
  end.
Proof.
  unfold item_events, find_proof_events_by_video. rewrite page_rows.
  replace (Z.to_nat (clamp_proof_events_limit PROOF_EVENTS_DEFAULT_LIMIT)) with 25%nat by (by vm_compute).
  assert (filter (λ e, bool_decide (video_hash (ev e) = Some vh) = true) (rev (events s)) = video_events vh s) as ->; [|done].
  apply list_filter_iff. intros e. by rewrite bool_decide_eq_true.
Qed.

Section facts.
Context `{Unicode} `{Columns}.

Lemma verify_items_spec reads idx proofs results :
  verify_items reads idx proofs results =
  results ++ imap (λ i item, (idx + Z.of_nat i, verify_item (reads (idx + Z.of_nat i)) item)) proofs.
Proof.
  revert idx results. induction proofs as [|item proofs IH]; intros idx results; cbn [verify_items imap]; [by rewrite app_nil_r|].
  rewrite IH, <-app_assoc. cbn. rewrite Z.add_0_r. do 2 f_equal. apply imap_ext. intros i x _. cbn.
  replace (idx + 1 + Z.of_nat i) with (idx + Z.of_nat (S i)) by lia. done.
Qed.

(** A batch within its limits is answered item by item: as many results as items, in their
    order, each depending on its own item and its own reading of the database; a longer one is
    refused before the database is read. *)
Theorem batch_answers_each_item json_size max_json max_batch reads d proofs :
  json_size ≤ max_json → dict_get (lit "proofs") d = Some (PList proofs) →
  match verify_batch json_size max_json max_batch reads (PDict d) with
  | BatchAnswered results =>
      zlen proofs ≤ max_batch ∧ length results = length proofs ∧
      ∀ i item, proofs !! i = Some item → results !! i = Some (Z.of_nat i, verify_item (reads (Z.of_nat i)) item)
  | BatchRefused status _ => max_batch < zlen proofs ∧ status = 413
  end.
Proof.
  intros Hj Hd. unfold verify_batch, get_or_none. rewrite Hd. destruct (Z.ltb_spec max_json json_size); [lia|].
  cbn [from_option id]. destruct (Z.ltb_spec max_batch (zlen proofs)); [by split|].
  rewrite verify_items_spec. cbn [app]. split; [done|]. rewrite length_imap. split; [done|].
  intros i item Hi. by rewrite list_lookup_imap, Hi.
Qed.

Lemma existsb_false {A} (p : A → bool) l : existsb p l = false ↔ ∀ x, x ∈ l → p x = false.
Proof.
  rewrite <-not_true_iff_false, existsb_exists. split.
  - intros Hn x Hx. apply not_true_iff_false. intros Hp. apply Hn. exists x. by rewrite <-list_elem_of_In.
  - intros Hf (x & Hx & Hp). apply list_elem_of_In in Hx. rewrite (Hf x Hx) in Hp. done.
Qed.

Lemma existsb_true {A} (p : A → bool) l : existsb p l = true ↔ ∃ x, x ∈ l ∧ p x = true.
Proof. rewrite existsb_exists. by setoid_rewrite <-list_elem_of_In. Qed.

(** The four statuses by what is among the events. *)
Lemma events_status_spec l :
  (events_status l = lit "not_found" ↔ l = []) ∧
  (events_status l = lit "revoked" ↔ ∃ e, e ∈ l ∧ is_revoked e = true) ∧
  (events_status l = lit "verified" ↔
    (∃ e, e ∈ l ∧ has_tx_status "confirmed" e = true) ∧ ∀ e, e ∈ l → is_revoked e = false).
Proof.
  rewrite <-existsb_true, <-existsb_true, <-existsb_false. unfold events_status. destruct l as [|x l].
  { by split_and!; split; intros Hx; first [done|by vm_compute in Hx|by destruct Hx]. }
  destruct (existsb is_revoked (x :: l)), (existsb (has_tx_status "confirmed") (x :: l)),
    (existsb (has_tx_status "failed") (x :: l)).
  all: by split_and!; split; intros Hx; first [done|by vm_compute in Hx|by destruct Hx].
Qed.

Lemma found_by_proof pid s e : e ∈ item_events None (Some pid) s ↔ e ∈ events s ∧ proof_id (ev e) = Some pid.
Proof.
  cbn [item_events]. unfold find_proof_events_by_proof_id.
  rewrite list_elem_of_filter, list_elem_of_In, <-in_rev, <-list_elem_of_In. tauto.
Qed.

(** C16. Asked for by its id, a proof is reported revoked exactly when the store has a revocation
    of it, and verified exactly when it has a confirmed event of it and no revocation. *)
Theorem batch_status_by_proof_is_exact pid s :
  zlen pid = 64 → is_Some (py_int 16 pid) →
  ∃ st evs, verify_item (Ok s) (PDict [(lit "proofId", PStr pid)]) = ItemStatus PNone (PStr pid) st evs ∧
    (st = lit "revoked" ↔ ∃ e, e ∈ events s ∧ proof_id (ev e) = Some pid ∧ is_revoked e = true) ∧
    (st = lit "verified" ↔
      (∃ e, e ∈ events s ∧ proof_id (ev e) = Some pid ∧ has_tx_status "confirmed" e = true) ∧
      ∀ e, e ∈ events s → proof_id (ev e) = Some pid → is_revoked e = false).
Proof.
  intros Hl Hi. exists (events_status (item_events None (Some pid) s)), (item_events None (Some pid) s).
  destruct (events_status_spec (item_events None (Some pid) s)) as (_ & Hr & Hv). setoid_rewrite found_by_proof in Hr.
  setoid_rewrite found_by_proof in Hv. split.
  - unfold verify_item, get_or_none. change (dict_get (lit "videoHash") _) with (@None pyval).
    change (dict_get (lit "proofId") _) with (Some (PStr pid)). cbn [from_option id bad_hash app_is_hex_32 truthy given].
    rewrite Hl. rewrite bool_decide_true by done. cbn. destruct pid; [done|]. done.
  - rewrite Hr, Hv. split; [naive_solver|]. naive_solver.
Qed.

(** ** Revocations of the indexer *)

(** What ingesting an event does to the store: nothing, or one more row that names no video. *)
Lemma ingest_decoded_store now c d c' created :
  ingest_decoded now c d = Ok (c', created) →
  if created : bool
  then ∃ row, events (db c') = events (db c) ++ [row] ∧ video_hash (ev row) = None ∧
       proof_id (ev row) = dc_proof d ∧ tx_status (ev row) = Some (dc_status d) ∧ event_type (ev row) = dc_type d
  else db c' = db c.
Proof.
  unfold ingest_decoded. intros ([contract idx] & _ & Hr)%bind_ok.
  unfold insert_indexed_proof_event in Hr. destruct (find_indexed (dc_tx d) idx (db c)) as [row|]; cbn in Hr.
  - by injection Hr as <- <-.
  - injection Hr as <- <-. cbn. by eexists.
Qed.

Lemma video_events_other s s' row vh :
  events s' = events s ++ [row] → video_hash (ev row) = None → video_events vh s' = video_events vh s.
Proof.
  intros Hev Hv. unfold video_events. rewrite Hev, rev_app_distr. cbn [rev app].
  rewrite filter_cons_False; [done|]. by rewrite Hv.
Qed.

(** C15. A revocation the chain indexer has newly stored makes its proof revoked for those who ask
    by the id of the proof; for those who ask by the video, with the id or without it, nothing
    changes, because the stored revocation names no video. *)
Theorem indexed_revocation_is_seen_by_id_only now c c' d pid vh asked :
  ingest_decoded now c d = Ok (c', true) → dc_proof d = Some pid → dc_status d = lit "revoked" →
  events_status (item_events None (Some pid) (db c')) = lit "revoked" ∧
  item_events (Some vh) asked (db c') = item_events (Some vh) asked (db c).
Proof.
  intros Hi Hp Hst. apply ingest_decoded_store in Hi as (row & Hev & Hv & Hrp & Hrs & _). split.
  - apply events_status_spec. exists row. rewrite found_by_proof, Hev, Hrp, Hp.
    split; [split; [|done]; apply elem_of_app; right; by apply list_elem_of_singleton|].
    unfold is_revoked, has_tx_status. rewrite Hrs, Hst. by rewrite bool_decide_true.
  - rewrite !item_events_video. by rewrite (video_events_other _ _ _ vh Hev Hv).
Qed.

(** An event that decides nothing, as every extraction of a video leaves one. *)
Definition undecided (e : proof_event) : Prop :=
  is_revoked e = false ∧ has_tx_status "confirmed" e = false ∧ has_tx_status "failed" e = false.

(** A video whose twenty-five newest events decide nothing is reported pending, whatever was
    confirmed, failed or revoked before. *)
Theorem busy_video_is_reported_pending vh s old recent :
  events s = old ++ recent → Forall (λ e, video_hash (ev e) = Some vh ∧ undecided e) recent → (25 ≤ length recent)%nat →
  events_status (item_events (Some vh) None s) = lit "pending".
Proof.
  intros Hev Hre Hlen. rewrite item_events_video. unfold video_events. rewrite Hev, rev_app_distr, filter_app.
  assert (filter (λ e, video_hash (ev e) = Some vh) (rev recent) = rev recent) as ->.
  { apply filter_all. apply Forall_rev. eapply Forall_impl; [exact Hre|]. by intros e [? _]. }
  rewrite take_app_le by (by rewrite length_rev).
  assert (Forall undecided (take 25 (rev recent))) as Hu.
  { apply Forall_take, Forall_rev. eapply Forall_impl; [exact Hre|]. by intros e [_ ?]. }
  assert (length (take 25 (rev recent)) = 25%nat) as Hl by (rewrite length_take, length_rev; lia).
  destruct (take 25 (rev recent)) as [|e l]; [done|]. unfold events_status. rewrite Forall_forall in Hu.
  rewrite !(proj2 (existsb_false _ (e :: l))); [done| | |]; intros x Hx; by apply Hu in Hx as (? & ? & ?).
Qed.

(** ** History *)

(** What is posted to the history of a proof is listed by it: the recorded event is the last
    of the listing from where the earlier ones end. *)
Theorem posted_history_is_listed payload now s s' id at_ pid :
  register_proof_history_event payload now s = (s', HistoryRecorded id at_) →
  payload = PDict pid → ∃ proof h,
    get_or_none (lit "proofId") pid = PStr proof ∧ he_id h = id ∧ he_proof_id h = proof ∧ he_created_at h = at_ ∧
    list_proof_history_events s' proof 50 (zlen (filter (λ h, he_proof_id h = proof) (history s))) = [h].
Proof.
  intros Hr ->. unfold register_proof_history_event in Hr.
  destruct (app_is_hex_32 (get_or_none (lit "proofId") pid)) eqn:Hh; [cbn [negb] in Hr|done].
  destruct (get_or_none (lit "proofId") pid) as [| | | |proof| |] eqn:Hp; try done.
  destruct (get_or_none (lit "action") pid) as [| | | |[|a0 action]| |]; try done.
  destruct (is_python_int (get_or_none (lit "reasonCode") pid)); [cbn [negb] in Hr|done].
  destruct (_ ≫= _) as [[[[actor reason] contract] tx]|] in Hr; [|done].
  cbn in Hr. injection Hr as <- <- <-. exists proof, (HistoryEvent (next_history s) proof (a0 :: action) actor reason contract tx None now).
  split_and!; try done. unfold list_proof_history_events. cbn [history].
  rewrite filter_app. rewrite (Z.max_r 0) by (unfold zlen; lia). unfold zlen. rewrite Nat2Z.id.
  rewrite drop_app_length. by rewrite filter_cons_True.
Qed.

(** ** Silent Witness *)

Lemma require_field_inv v refusal k body status :
  require_field v refusal k = NoirReply body status → refusal = NoirReply body status ∨ k = NoirReply body status.
Proof. unfold require_field. destruct (is_field_decimal v) as [[]|]; auto. done. Qed.

(** The Silent Witness route never succeeds: whatever the request and the generator, it
    answers an error or raises; when a proof was generated it raises [NameError]. *)
Theorem silent_witness_never_succeeds rid json_size max_json enabled generate payload body status :
  silent_witness_proof rid json_size max_json enabled generate payload = NoirReply body status → 400 ≤ status.
Proof.
  unfold silent_witness_proof. cbv zeta.
  destruct (max_json <? json_size); [intros [= _ <-]; lia|]. destruct enabled; cbn [negb]; [|intros [= _ <-]; lia].
  destruct payload; try (intros [= _ <-]; lia).
  destruct (app_is_hex_32 _); cbn [negb]; [|intros [= _ <-]; lia].
  intros [[= _ <-]|Hr]%require_field_inv; [lia|]. apply require_field_inv in Hr as [[= _ <-]|Hr]; [lia|].
  apply require_field_inv in Hr as [[= _ <-]|Hr]; [lia|].
  destruct (epoch_ok _); cbn [negb] in Hr; [|injection Hr as _ <-; lia].
  destruct (generate _ _ _ _ _) as [|[]]; try done. injection Hr as _ <-. lia.
Qed.

(** A request that leaves the verifier scope to its default is refused: the default is zero,
    which the check of field elements does not take. *)
Theorem default_scope_is_refused rid json_size max_json generate d :
  json_size ≤ max_json → dict_get (lit "verifierScope") d = None →
  app_is_hex_32 (get_or_none (lit "videoHash") d) = true →
  is_field_decimal (get_or_none (lit "credentialSecret") d) = Ok true →
  is_field_decimal (get_or_none (lit "nullifierSecret") d) = Ok true →
  silent_witness_proof rid json_size max_json true generate (PDict d) =
    plain_error (lit "verifierScope must be a decimal field string") 400.
Proof.
  intros Hj Hs Hv Hc Hn. unfold silent_witness_proof. destruct (Z.ltb_spec max_json json_size); [lia|].
  cbn [negb]. cbv zeta. rewrite Hv. cbn [negb]. unfold require_field at 1. rewrite Hc. unfold require_field at 1. rewrite Hn.
  unfold get_default. rewrite Hs. by vm_compute.
Qed.

(** The generator is given between one and eight hashes, each of them 32 bytes in hex. *)
Theorem aggregated_batch_is_bounded json_size max_json enabled generate error_text payload proof :
  silent_witness_aggregate json_size max_json enabled generate error_text payload =
    NoirReply (PDict [(lit "ok", PBool true); (lit "proof", proof)]) 200 →
  ∃ hashes c n, generate hashes c n = Ok proof ∧ 1 ≤ zlen hashes ≤ AGGREGATION_LIMIT ∧
    Forall (λ v, app_is_hex_32 v = true) hashes ∧ is_field_decimal c = Ok true ∧ is_field_decimal n = Ok true.
Proof.
  unfold silent_witness_aggregate. cbv zeta.
  destruct (max_json <? json_size); [done|]. destruct enabled; cbn [negb]; [|done]. destruct payload as [| | | | | |d]; try done.
  destruct (get_or_none (lit "videoHashes") d) as [| | | | |[|h hs]|]; try done.
  destruct (Z.ltb_spec AGGREGATION_LIMIT (zlen (h :: hs))) as [|Hle]; [done|].
  destruct (first_bad_hash 0 (h :: hs)) eqn:Hb; [done|]. unfold require_field.
  destruct (is_field_decimal (get_or_none (lit "credentialSecret") d)) as [[]|] eqn:Hc; try done.
  destruct (is_field_decimal (get_or_none (lit "nullifierSecret") d)) as [[]|] eqn:Hn; try done.
  destruct (generate _ _ _) as [p|[]] eqn:Hg; try done. intros [= ->].
  eexists _, _, _. split; [exact Hg|]. split; [unfold zlen in *; cbn in *; lia|]. split; [|done].
  clear -Hb. revert Hb. generalize (h :: hs) 0. intros l. induction l as [|v l IH]; intros z; cbn; [constructor|].
  destruct (app_is_hex_32 v) eqn:Hv; [|done]. intros Hr. constructor; [done|by eapply IH].
Qed.
End facts.

(** * Witnesses *)

#[local] Existing Instance plain_unicode.
#[local] Existing Instance sample_columns.

Definition some_proof : str := lit hex_a.

Lemma batch_answers_each_item_witness :
  match verify_batch 10 100 5 (λ _, Ok empty_store) (PDict [(lit "proofs", PList [PNone; PDict [(lit "proofId", PStr some_proof)]])]) with
  | BatchAnswered results =>
      2 ≤ 5 ∧ length results = 2%nat ∧
      ∀ i item, [PNone; PDict [(lit "proofId", PStr some_proof)]] !! i = Some item →
        results !! i = Some (Z.of_nat i, verify_item (Ok empty_store) item)
  | BatchRefused status _ => 5 < 2 ∧ status = 413
  end.
Proof.
  apply (batch_answers_each_item 10 100 5 (λ _, Ok empty_store) _ [PNone; PDict [(lit "proofId", PStr some_proof)]]);
    [lia|by vm_compute].
Defined.

(** A revocation as the indexer decodes it. *)
Definition decoded_revocation : DecodedLifecycleEvent :=
  Decoded (lit "revoke") (Some some_proof) (lit "t") 0 PNone (lit "revoked") PNone PNone.
Definition chain0 : chain_state := Chain empty_store (Hooks [] [] 1) None.
Definition revoked_chain : chain_state * bool := from_ok (chain0, false) (ingest_decoded 5 chain0 decoded_revocation).

Lemma batch_status_by_proof_is_exact_witness :
  ∃ st evs, verify_item (Ok (db revoked_chain.1)) (PDict [(lit "proofId", PStr some_proof)]) = ItemStatus PNone (PStr some_proof) st evs ∧
    (st = lit "revoked" ↔ ∃ e, e ∈ events (db revoked_chain.1) ∧ proof_id (ev e) = Some some_proof ∧ is_revoked e = true) ∧
    (st = lit "verified" ↔
      (∃ e, e ∈ events (db revoked_chain.1) ∧ proof_id (ev e) = Some some_proof ∧ has_tx_status "confirmed" e = true) ∧
      ∀ e, e ∈ events (db revoked_chain.1) → proof_id (ev e) = Some some_proof → is_revoked e = false).
Proof.
  apply batch_status_by_proof_is_exact; [done|]. apply (bool_decide_unpack _). by vm_compute.
Defined.

Lemma indexed_revocation_is_seen_by_id_only_witness :
  events_status (item_events None (Some some_proof) (db revoked_chain.1)) = lit "revoked" ∧
  item_events (Some (lit "v")) (Some some_proof) (db revoked_chain.1) = item_events (Some (lit "v")) (Some some_proof) (db chain0).
Proof.
  apply (indexed_revocation_is_seen_by_id_only 5 chain0 revoked_chain.1 decoded_revocation); by vm_compute.
Defined.

Definition extraction (vh : str) : proof_event :=
  ProofEvent 1 (EventData (lit "extract") None (Some vh) None None None None None None None None None None None None None None None) false 0.

Lemma busy_video_is_reported_pending_witness :
  events_status (item_events (Some (lit "v")) None
    (set_events empty_store (events (db revoked_chain.1) ++ replicate 25 (extraction (lit "v"))))) = lit "pending".
Proof.
  apply (busy_video_is_reported_pending _ _ (events (db revoked_chain.1)) (replicate 25 (extraction (lit "v")))).
  - done.
  - apply Forall_replicate. by vm_compute.
  - by rewrite length_replicate.
Defined.

Definition history_post : list (str * pyval) :=
  [(lit "proofId", PStr some_proof); (lit "action", PStr (lit "revoked")); (lit "reasonCode", PInt 3)].

Lemma posted_history_is_listed_witness : ∃ proof h,
  get_or_none (lit "proofId") history_post = PStr proof ∧ he_id h = 1 ∧ he_proof_id h = proof ∧ he_created_at h = 9 ∧
  list_proof_history_events (register_proof_history_event (PDict history_post) 9 empty_store).1 proof 50
    (zlen (filter (λ h, he_proof_id h = proof) (history empty_store))) = [h].
Proof.
  apply (posted_history_is_listed (PDict history_post) 9 empty_store _ 1 9 history_post); [by vm_compute|done].
Defined.

Lemma silent_witness_never_succeeds_witness : 400 ≤ 400.
Proof.
  apply (silent_witness_never_succeeds (lit "r") 0 10 true (λ _ _ _ _ _, Ok PNone) PNone
    (error_response (lit "r") (lit "VALIDATION_ERROR") (lit "JSON body is required") 400 None).1). done.
Defined.

Definition witness_request : list (str * pyval) :=
  [(lit "videoHash", PStr some_proof); (lit "credentialSecret", PStr (lit "7")); (lit "nullifierSecret", PStr (lit "9"))].

(** With a scope, a generated proof ends in [NameError]. *)
Example generated_proof_is_lost :
  silent_witness_proof (lit "r") 0 10 true (λ _ _ _ _ _, Ok PNone)
    (PDict (witness_request ++ [(lit "verifierScope", PStr (lit "1"))])) = NoirRaises "NameError".
Proof. by vm_compute. Qed.

Lemma default_scope_is_refused_witness :
  silent_witness_proof (lit "r") 0 10 true (λ _ _ _ _ _, Ok PNone) (PDict witness_request) =
  plain_error (lit "verifierScope must be a decimal field string") 400.
Proof. apply default_scope_is_refused; [lia|by vm_compute..]. Defined.

Lemma aggregated_batch_is_bounded_witness :
  ∃ hashes c n, (λ (_ : list pyval) (_ _ : pyval), Ok (E := exn) PNone) hashes c n = Ok PNone ∧ 1 ≤ zlen hashes ≤ AGGREGATION_LIMIT ∧
    Forall (λ v, app_is_hex_32 v = true) hashes ∧ is_field_decimal c = Ok true ∧ is_field_decimal n = Ok true.
Proof.
  apply (aggregated_batch_is_bounded 0 10 true (λ _ _ _, Ok PNone) (λ _, [])
    (PDict [(lit "videoHashes", PList [PStr some_proof]); (lit "credentialSecret", PStr (lit "7")); (lit "nullifierSecret", PStr (lit "9"))])).
  by vm_compute.
Defined.
