(* ===== verification/ServiceRoutes.v ===== *)
(** Service routes of [app.py] and what is behind them: credential schemas and the input check of
    selective disclosure ([schema.py]), verification of capture attestations, dependency probes
    ([readiness.py]), the metrics route and the download of a job's output.

    The schema directory is a list of parsed files in the order of their names, [None] for one
    that cannot be read or is no JSON.  A probe that does not end in time answers [None].

    Shown: the input check accepts exactly what its fields allow, with what [int(_, 16)] takes for
    hex; a schema is found exactly when a file has its hash; the listing's ETag binds the hashes;
    a capture attestation is valid exactly for its evidence and device; readiness is the
    conjunction of the critical dependencies, and recent results are not probed again; metrics are
    served only to holders of the token; and which jobs have an output. *)
From Stdlib Require Import ZArith Lia.
From stdpp Require Import base decidable strings numbers list sorting.
From S2P Require Import Prelude PyStr Json Sha256 MetadataErrors Receipt Lineage Consent JobQueue.
From S2P Require Import C2pa TimeAttestation CaptureAttestation.

Open Scope Z_scope.

#[local] Arguments lit _ : simpl never.

(** * Schemas *)

Section schemas.
Context `{Unicode}.

Definition canonicalize_hex (value : pyval) : str :=
  match value with
  | PStr s =>
      let s := py_strip (py_lower s) in
      match py_int 16 s with Some _ => s | None => [] end
  | _ => []
  end.

Definition canonicalize_hex_length (value : pyval) (expected_len : Z) : option str :=
  let canonical := canonicalize_hex value in
  if bool_decide (canonical = []) then None
  else if zlen canonical =? expected_len then Some canonical else None.

(** [path.glob] in order; what is no object is left out. *)
Definition discover_schemas (files : list (option pyval)) : list (list (str * pyval)) :=
  omap (λ f, match f with Some (PDict d) => Some d | _ => None end) files.

(** [schema.get(key, "")] *)
Definition get_text (key : string) (d : list (str * pyval)) : pyval := default (PStr []) (dict_get (lit key) d).

Fixpoint find_schema (target : str) (schemas : list (list (str * pyval))) : option (list (str * pyval)) :=
  match schemas with
  | [] => None
  | s :: schemas =>
      if bool_decide (canonicalize_hex (get_text "schemaHash" s) = target) then Some s else find_schema target schemas
  end.

Definition resolve_schema (files : list (option pyval)) (schema_hash : str) : option (list (str * pyval)) :=
  let target := canonicalize_hex (PStr schema_hash) in
  if bool_decide (target = []) then None else find_schema target (discover_schemas files).

(** The first missing field in alphabetical order. *)
Definition first_missing (body : list (str * pyval)) : option string :=
  head (List.filter (λ k, negb (dict_has (lit k) body)) ["proof"; "publicInputs"; "schemaHash"]%string).

Definition validate_selective_disclosure_input (body : list (str * pyval)) : option str :=
  match first_missing body with
  | Some k => Some (lit "missing required field: " ++ lit k)
  | None =>
      if bool_decide (canonicalize_hex_length (get_text "schemaHash" body) 64 = None)
      then Some (lit "schemaHash must be a 64-char hex string") else
      if bool_decide (canonicalize_hex_length (get_text "publicInputs" body) 704 = None)
      then Some (lit "publicInputs must be a 704-char hex string (352 bytes)") else
      let proof := canonicalize_hex (get_text "proof" body) in
      if bool_decide (proof = []) || (zlen proof <? 2) then Some (lit "proof must be a non-empty hex string")
      else None
  end.

(** ** Routes *)

Inductive schema_answer : Type :=
  | SchemaRefused (status : Z) (error : str)
  | NotModified (etag : option str)
  | SchemaList (schemas : list (list (str * pyval))) (etag : str)
  | SchemaFound (schema : list (str * pyval)) (etag : str)
  | SchemaRaises (e : exn).

Definition quoted (s : str) : str := 34 :: s ++ [34].

(** The hashes that are not empty; [sorted] and [join] raise for what is no text. *)
Definition listed_hashes (schemas : list (list (str * pyval))) : result exn (list str) :=
  let hashes := List.filter truthy (map (get_text "schemaHash") schemas) in
  hashes ← result_mapM (λ v, match v with PStr s => Ok s | _ => Err (TypeError "expected str instance") end) hashes;
  Ok (merge_sort str_le hashes).

Definition list_etag (hashes : list str) : result exn str :=
  match utf8_encode (mjoin hashes) with Some b => Ok (quoted (sha256_hex b)) | None => Err UnicodeError end.

(** [GET /api/schemas] *)
Definition list_schemas (files : list (option pyval)) (if_none_match : option str) : schema_answer :=
  let schemas := discover_schemas files in
  match (hashes ← listed_hashes schemas; list_etag hashes) with
  | Err e => SchemaRaises e
  | Ok etag => if bool_decide (if_none_match = Some etag) then NotModified None else SchemaList schemas etag
  end.

(** [GET /api/schemas/<schema_hash>] *)
Definition get_schema (files : list (option pyval)) (schema_hash : str) (if_none_match : option str) : schema_answer :=
  if negb (app_is_hex_32 (PStr schema_hash)) then SchemaRefused 400 (lit "schemaHash must be a 32-byte hex string") else
  match resolve_schema files schema_hash with
  | None => SchemaRefused 404 (lit "schema not found")
  | Some schema =>
      let etag := quoted (py_lower schema_hash) in
      if bool_decide (if_none_match = Some etag) then NotModified (Some etag) else SchemaFound schema etag
  end.

Inductive disclosure_answer : Type :=
  | DisclosureRefused (status : Z) (error : str)
  | DisclosureReceiptRefused (e : receipt_error)
  | DisclosureAccepted (receipt : option VerificationReceiptInput).

(** [POST /api/verify/selective-disclosure] *)
Definition verify_selective_disclosure (json_size max_json_bytes : Z) (now : str) (payload : pyval) : disclosure_answer :=
  if max_json_bytes <? json_size then DisclosureRefused 413 (lit "JSON payload exceeds size limit") else
  match payload with
  | PDict body =>
      match validate_selective_disclosure_input body with
      | Some err => DisclosureRefused 400 err
      | None =>
          match get_or_none (lit "receiptContext") body with
          | PNone => DisclosureAccepted None
          | PDict context =>
              match build_verification_receipt now context unverified with
              | Ok r => DisclosureAccepted (Some r)
              | Err e => DisclosureReceiptRefused e
              end
          | _ => DisclosureRefused 400 (lit "receiptContext must be a JSON object")
          end
      end
  | _ => DisclosureRefused 400 (lit "JSON body is required")
  end.

(** * Capture attestations *)

Inductive capture_answer : Type :=
  | CaptureRefused (message : str)
  | CaptureTooLarge
  | CaptureRaises (e : exn)
  | CaptureChecked (valid : bool) (attestation_hash : str) (checks : list (str * bool)).

(** [except (ValueError, TypeError, KeyError, AttributeError)] and, of the digest, the first two;
    [UnicodeError] is a [ValueError]. *)
Definition decoding_caught (e : ta_error) : bool :=
  match ta_exn e with ValueError _ | UnicodeError | TypeError _ | KeyError _ | AttributeError => true | _ => false end.
Definition hashing_caught (e : ta_error) : bool :=
  match ta_exn e with ValueError _ | UnicodeError | TypeError _ => true | _ => false end.

(** [payload.get(a)], and [payload.get(b)] when that is [None] *)
Definition get_either (a b : string) (d : list (str * pyval)) : pyval :=
  match get_or_none (lit a) d with PNone => get_or_none (lit b) d | v => v end.

(** [bytes.fromhex] of the key, then the commitment; what they raise is a failed check. *)
Definition device_check (a : CaptureAttestation) (device_key : str) : bool :=
  match bytes_fromhex device_key with
  | None => false
  | Some key => match verify_device_commitment a key with Ok b => b | Err _ => false end
  end.

(** [POST /api/capture-attestation/verify] *)
Definition verify_capture_attestation (json_size max_json_bytes : Z) (payload : pyval) : capture_answer :=
  if max_json_bytes <? json_size then CaptureTooLarge else
  match payload with
  | PDict d =>
      match get_or_none (lit "attestation") d with
      | PNone => CaptureRefused (lit "attestation is required")
      | PDict raw =>
          match get_either "evidence_digest" "evidenceDigest" d with
          | PNone => CaptureRefused (lit "evidence_digest is required")
          | digest =>
              if negb (app_is_hex_32 digest) then CaptureRefused (lit "evidence_digest must be a 32-byte hex string") else
              let device_key := get_either "device_key" "deviceKey" d in
              if match device_key with PNone => false | k => negb (app_is_hex_32 k) end
              then CaptureRefused (lit "device_key must be a 32-byte hex string") else
              match decode_attestation (PDict raw) with
              | Err e => if decoding_caught e then CaptureRefused (lit "malformed attestation payload") else CaptureRaises (ta_exn e)
              | Ok decoded =>
                  match canonical_attestation_hash decoded with
                  | Err e => if hashing_caught e then CaptureRefused (lit "malformed attestation payload") else CaptureRaises (ta_exn e)
                  | Ok hash =>
                      let checks :=
                        (lit "evidence_binding",
                         bool_decide (py_lower (text_value (evidence_digest_binding decoded)) = py_lower (text_value digest))) ::
                        match device_key with
                        | PStr k => [(lit "device_commitment", device_check decoded k)]
                        | _ => []
                        end in
                      CaptureChecked (forallb snd checks) hash checks
                  end
              end
          end
      | _ => CaptureRefused (lit "attestation must be a JSON object")
      end
  | _ => CaptureRefused (lit "JSON body is required")
  end.
End schemas.

(** * Readiness *)

Record ProbeResult := { pr_ok : bool; pr_status : str; pr_timestamp : Z }.

Record Dependency := { dep_name : str; critical : bool; ok_status : str; fail_status : str }.

Record readiness := { deps : list Dependency; probe_cache : list (str * ProbeResult) }.

Definition add_dependency (d : Dependency) (r : readiness) : readiness :=
  {| deps := deps r ++ [d];
     probe_cache := dict_set (dep_name d) {| pr_ok := false; pr_status := lit "initializing"; pr_timestamp := 0 |} (probe_cache r) |}.

(** [_run_probe]: what the check answers, [None] when it raises, at a time. *)
Definition run_probe (d : Dependency) (answer : option bool) (now : Z) : ProbeResult :=
  match answer with
  | Some ok => {| pr_ok := ok; pr_status := if ok then ok_status d else fail_status d; pr_timestamp := now |}
  | None => {| pr_ok := false; pr_status := lit "error"; pr_timestamp := now |}
  end.

(** Times and the time to live in the same unit; [ttl] is [cache_ttl_seconds]. *)
Definition is_stale (ttl now : Z) (r : readiness) (d : Dependency) : bool :=
  match dict_get (dep_name d) (probe_cache r) with
  | None => true
  | Some res => ttl <? now - pr_timestamp res
  end.

(** The results of the probes that ended in time; the others keep what was known. *)
Definition store_results (outcomes : str → option ProbeResult) (to_run : list Dependency) (cache : list (str * ProbeResult)) :
    list (str * ProbeResult) :=
  foldl (λ c d, match outcomes (dep_name d) with Some res => dict_set (dep_name d) res c | None => c end) cache to_run.

(** [check]: [outcomes] are the results of the probes of this call. *)
Definition check_readiness (ttl now : Z) (outcomes : str → option ProbeResult) (r : readiness) :
    readiness * result exn (bool * list (str * str)) :=
  let to_run := List.filter (is_stale ttl now r) (deps r) in
  let cache := store_results outcomes to_run (probe_cache r) in
  let r := {| deps := deps r; probe_cache := cache |} in
  (r, answer ← result_foldl (λ (acc : bool * list (str * str)) d,
        match dict_get (dep_name d) cache with
        | None => Err (KeyError "dependency")
        | Some res => Ok (acc.1 && negb (critical d && negb (pr_ok res)), dict_set (dep_name d) (pr_status res) acc.2)
        end) (deps r) (true, []); Ok answer).

(** * Metrics and downloads *)

Inductive metrics_answer : Type := MetricsDisabled | MetricsUnauthorized | MetricsServed.

Section metrics.
Context `{Unicode}.

(** The route; both candidates are compared in full. *)
Definition metrics_route (enabled : bool) (metrics_token : option str) (authorization x_metrics_token : option str) :
    result exn metrics_answer :=
  if negb enabled then Ok MetricsDisabled else
  match metrics_token with
  | Some ((_ :: _) as expected) =>
      let header := default [] authorization in
      let token := if starts_with (lit "Bearer ") header then py_strip (drop 7 header) else [] in
      let custom := py_strip (default [] x_metrics_token) in
      match utf8_encode token, utf8_encode custom, utf8_encode expected with
      | Some t, Some c, Some e =>
          Ok (if bool_decide (t = e) || bool_decide (c = e) then MetricsServed else MetricsUnauthorized)
      | _, _, _ => Err UnicodeError
      end
  | _ => Ok MetricsServed
  end.

Inductive download_answer : Type :=
  | JobNotFound | OutputPurged | NoOutput
  | Downloaded (content : bytes) (etag : str)
  | DownloadRaises (e : exn).

(** [result.get("embedded_hash")], or the hash of the file. *)
Definition output_etag (result_ : pyval) (content : bytes) : result exn str :=
  match result_ with
  | PNone => Ok (sha256_hex content)
  | PDict d =>
      match get_or_none (lit "embedded_hash") d with
      | PStr ((_ :: _) as h) => Ok h
      | v => if truthy v then Err (TypeError "etag") else Ok (sha256_hex content)
      end
  | _ => Err AttributeError
  end.

(** [GET /api/jobs/<id>/download]: [output] is the file of the job, when there is one. *)
Definition download_job_result (id : Z) (output : option bytes) (q : queue) : download_answer :=
  match get_job id q with
  | None => JobNotFound
  | Some j =>
      if purged j then OutputPurged else
      if negb (bool_decide (jb_type j = lit "embed")) || negb (bool_decide (status j = completed)) then NoOutput else
      match output with
      | None => OutputPurged
      | Some content =>
          match output_etag (job_result j) content with
          | Ok etag => Downloaded content etag
          | Err e => DownloadRaises e
          end
      end
  end.
End metrics.

(** * Facts *)

Section facts.
Context `{Unicode}.

(** ** Schemas *)

Lemma hex_length_spec v n : 0 < n → canonicalize_hex_length v n = None ↔ zlen (canonicalize_hex v) ≠ n.
Proof.
  intros Hn. unfold canonicalize_hex_length. case_bool_decide as He.
  - rewrite He. split; [intros _; unfold zlen; cbn; lia|done].
  - destruct (Z.eqb_spec (zlen (canonicalize_hex v)) n); by split.
Qed.

(** The input check of selective disclosure accepts exactly the bodies that have the three
    fields with canonical forms of 64, of 704 and of at least two characters. *)
Theorem disclosure_input_accepted_iff body :
  validate_selective_disclosure_input body = None ↔
  (∀ k, k ∈ [lit "proof"; lit "publicInputs"; lit "schemaHash"] → dict_has k body = true) ∧
  zlen (canonicalize_hex (get_text "schemaHash" body)) = 64 ∧
  zlen (canonicalize_hex (get_text "publicInputs" body)) = 704 ∧
  2 ≤ zlen (canonicalize_hex (get_text "proof" body)).
Proof.
  unfold validate_selective_disclosure_input, first_missing. cbn [List.filter].
  setoid_rewrite elem_of_cons. setoid_rewrite elem_of_cons. setoid_rewrite elem_of_cons. setoid_rewrite elem_of_nil.
  destruct (dict_has (lit "proof") body) eqn:H1; cbn [negb head];
    [|split; [done|]; intros [Hk _]; rewrite (Hk (lit "proof")) in H1 by auto; done].
  destruct (dict_has (lit "publicInputs") body) eqn:H2; cbn [negb head];
    [|split; [done|]; intros [Hk _]; rewrite (Hk (lit "publicInputs")) in H2 by auto; done].
  destruct (dict_has (lit "schemaHash") body) eqn:H3; cbn [negb head];
    [|split; [done|]; intros [Hk _]; rewrite (Hk (lit "schemaHash")) in H3 by auto; done].
  case_bool_decide as Hs; rewrite (hex_length_spec _ 64) in Hs by lia; [split; [done|]; by intros (_ & ? & _)|].
  case_bool_decide as Hp; rewrite (hex_length_spec _ 704) in Hp by lia; [split; [done|]; by intros (_ & _ & ? & _)|].
  set (proof := canonicalize_hex (get_text "proof" body)).
  destruct (bool_decide (proof = []) || (zlen proof <? 2)) eqn:Hq.
  - split; [done|]. intros (_ & _ & _ & Hl). apply orb_true_iff in Hq as [Hq|Hq]; [|lia].
    apply bool_decide_eq_true in Hq. rewrite Hq in Hl. unfold zlen in Hl. cbn in Hl. lia.
  - apply orb_false_iff in Hq as [_ Hq]. split; [|done]. intros _.
    split; [by intros k [->|[->|[->|[]]]]|]. split; [lia|]. split; lia.
Qed.

Lemma find_schema_spec target schemas :
  match find_schema target schemas with
  | Some s => s ∈ schemas ∧ canonicalize_hex (get_text "schemaHash" s) = target
  | None => ∀ s, s ∈ schemas → canonicalize_hex (get_text "schemaHash" s) ≠ target
  end.
Proof.
  induction schemas as [|s l IH]; cbn [find_schema]; [by intros s ?%elem_of_nil|].
  case_bool_decide as Hs; [split; [left|done]|]. destruct (find_schema target l).
  - split; [right|]; apply IH.
  - intros s' [-> |]%elem_of_cons; [done|by apply IH].
Qed.

(** A schema is answered exactly when a readable file declares its hash, up to case and
    surrounding blanks; what is answered is such a schema. *)
Theorem schema_found_iff files h inm :
  app_is_hex_32 (PStr h) = true → canonicalize_hex (PStr h) ≠ [] →
  match get_schema files h inm with
  | SchemaFound s etag => s ∈ discover_schemas files ∧ canonicalize_hex (get_text "schemaHash" s) = canonicalize_hex (PStr h) ∧
                          etag = quoted (py_lower h) ∧ inm ≠ Some etag
  | NotModified etag => etag = Some (quoted (py_lower h)) ∧ inm = etag
  | SchemaRefused st _ => st = 404 ∧ ∀ s, s ∈ discover_schemas files →
                          canonicalize_hex (get_text "schemaHash" s) ≠ canonicalize_hex (PStr h)
  | _ => False
  end.
Proof.
  intros Hh Hne. unfold get_schema, resolve_schema. rewrite Hh. cbn [negb]. rewrite bool_decide_false by done.
  pose proof (find_schema_spec (canonicalize_hex (PStr h)) (discover_schemas files)) as Hf.
  destruct (find_schema _ _) as [s|]; [|by split].
  case_bool_decide; [by split|]. by destruct Hf.
Qed.

Lemma mjoin_inj (n : nat) (l l' : list str) :
  (0 < n)%nat → Forall (λ s, length s = n) l → Forall (λ s, length s = n) l' → mjoin l = mjoin l' → l = l'.
Proof.
  intros Hn Hl. revert l'. induction Hl as [|s l Hs Hl IH]; intros l' Hl'; destruct Hl' as [|s' l' Hs' Hl']; cbn; intros He.
  - done.
  - exfalso. apply (f_equal length) in He. rewrite length_app in He. cbn in He. lia.
  - exfalso. apply (f_equal length) in He. rewrite length_app in He. cbn in He. lia.
  - apply app_inj_1 in He as [-> He]; [|lia]. f_equal. by apply IH.
Qed.

(** The ETag of the listing binds the hashes it lists: two listings of 64-character hashes
    with the same ETag list the same hashes, or SHA-256 has a collision. *)
Theorem listing_etag_binds l l' etag :
  Forall (λ s, length s = 64%nat) l → Forall (λ s, length s = 64%nat) l' →
  Forall code_point (mjoin l) → Forall code_point (mjoin l') →
  list_etag l = Ok etag → list_etag l' = Ok etag → l = l' ∨ ∃ b b', sha256_collision b b'.
Proof.
  intros Hl Hl' Hc Hc'. unfold list_etag.
  destruct (utf8_encode (mjoin l)) as [b|] eqn:Hb; [|done]. destruct (utf8_encode (mjoin l')) as [b'|] eqn:Hb'; [|done].
  intros [= <-] [= He]. apply app_inj_2 in He as [He _]; [|done].
  destruct (sha256_hex_eq _ _ He) as [->|Hcol]; [left|right; by eexists _, _].
  apply (mjoin_inj 64); [lia|done..|]. apply utf8_encode_inj; [done..| |congruence]. by rewrite Hb.
Qed.

(** ** Capture attestations *)

(** A capture attestation is valid exactly when it is bound to the digest that was given and,
    where a device key was given, its commitment is the one of that key. *)
Theorem capture_valid_iff json_size max_json d valid hash checks :
  verify_capture_attestation json_size max_json (PDict d) = CaptureChecked valid hash checks →
  ∃ a digest, decode_attestation (get_or_none (lit "attestation") d) = Ok a ∧
    get_either "evidence_digest" "evidenceDigest" d = PStr digest ∧ canonical_attestation_hash a = Ok hash ∧
    (valid = true ↔
      py_lower (text_value (evidence_digest_binding a)) = py_lower digest ∧
      ∀ k, get_either "device_key" "deviceKey" d = PStr k → device_check a k = true).
Proof.
  unfold verify_capture_attestation. destruct (max_json <? json_size); [done|].
  destruct (get_or_none (lit "attestation") d) as [| | | | | |raw]; try done.
  set (dk := get_either "device_key" "deviceKey" d).
  destruct (get_either "evidence_digest" "evidenceDigest" d) as [| | | |digest| |]; try done.
  destruct (app_is_hex_32 (PStr digest)) eqn:Hd; [cbn [negb]|done]. cbv zeta.
  destruct (match dk with PNone => false | k => negb (app_is_hex_32 k) end) eqn:Hk; [done|].
  destruct (decode_attestation (PDict raw)) as [a|e] eqn:Ha; [|by destruct (decoding_caught e)].
  destruct (canonical_attestation_hash a) as [h|e] eqn:Hh; [|by destruct (hashing_caught e)].
  intros [= <- <- _]. exists a, digest. split_and!; [done..|].
  destruct dk as [| | | |k| |]; cbn [forallb snd]; rewrite ?andb_true_r, ?andb_true_iff, bool_decide_eq_true; cbn [text_value].
  all: split; [intros Hv; split; [tauto|by intros k' [= ->]; tauto]|intros [Hv Hf]; auto].
Qed.

(** ** Readiness *)

Lemma NoDup_fmap_elem {A B} (f : A → B) l x y : NoDup (map f l) → x ∈ l → y ∈ l → f x = f y → x = y.
Proof.
  intros Hnd Hx Hy He. apply list_elem_of_lookup in Hx as [i Hi]. apply list_elem_of_lookup in Hy as [j Hj].
  assert (i = j) as ->; [|congruence].
  eapply (NoDup_lookup (f <$> l)); [exact Hnd|rewrite list_lookup_fmap, Hi; done|rewrite list_lookup_fmap, Hj; by rewrite He].
Qed.

Lemma store_results_get outcomes l cache n :
  dict_get n (store_results outcomes l cache) =
  match (if bool_decide (n ∈ map dep_name l) then outcomes n else None) with
  | Some res => Some res
  | None => dict_get n cache
  end.
Proof.
  unfold store_results. revert cache. induction l as [|d l IH]; intros cache; cbn [foldl map]; [done|].
  rewrite IH. destruct (decide (n = dep_name d)) as [->|Hne].
  - rewrite (bool_decide_true (dep_name d ∈ _ :: _)) by left.
    destruct (outcomes (dep_name d)) as [res|]; [|by case_bool_decide].
    rewrite dict_get_set, decide_True by done. by case_bool_decide.
  - rewrite (bool_decide_ext (n ∈ dep_name d :: _) (n ∈ map dep_name l)) by (rewrite elem_of_cons; tauto).
    destruct (outcomes (dep_name d)); [|done]. by rewrite dict_get_set, decide_False.
Qed.

(** The loop that builds the answer, when every dependency has a result. *)
Lemma answer_loop cache l (acc : bool * list (str * str)) :
  Forall (λ d, is_Some (dict_get (dep_name d) cache)) l →
  ∃ sts, result_foldl (λ (acc : bool * list (str * str)) d,
        match dict_get (dep_name d) cache with
        | None => Err (KeyError "dependency")
        | Some res => Ok (acc.1 && negb (critical d && negb (pr_ok res)), dict_set (dep_name d) (pr_status res) acc.2)
        end) l acc =
    Ok (acc.1 && forallb (λ d, negb (critical d && negb (match dict_get (dep_name d) cache with Some res => pr_ok res | None => false end))) l, sts).
Proof.
  intros Hl. revert acc. induction Hl as [|d l [res Hd] Hl IH]; intros acc; cbn [result_foldl forallb].
  - exists acc.2. rewrite andb_true_r. by destruct acc.
  - rewrite Hd. rewrite bind_Ok. destruct (IH (acc.1 && negb (critical d && negb (pr_ok res)), dict_set (dep_name d) (pr_status res) acc.2)) as [sts ->].
    exists sts. cbn [fst]. by rewrite andb_assoc.
Qed.

(** Names are distinct, and every dependency has a result: first of all "initializing". *)
Record readiness_ok (r : readiness) : Prop := {
  ro_names : NoDup (map dep_name (deps r));
  ro_known : Forall (λ d, is_Some (dict_get (dep_name d) (probe_cache r))) (deps r);
}.

Lemma add_dependency_ok d r :
  readiness_ok r → dep_name d ∉ map dep_name (deps r) → readiness_ok (add_dependency d r).
Proof.
  intros [Hn Hk] Hnew. split; cbn [add_dependency deps probe_cache].
  - rewrite map_app. apply NoDup_app. split_and!; [done| |apply NoDup_singleton].
    intros x Hx ->%list_elem_of_singleton. done.
  - apply Forall_app. split.
    + eapply Forall_impl; [exact Hk|]. cbn. intros d' Hd'. rewrite dict_get_set. by case_decide.
    + constructor; [|done]. rewrite dict_get_set, decide_True by done. done.
Qed.

(** A readiness check always answers, and says ready exactly when the result of every critical
    dependency is good.  A result is the one known before unless that was older than the time to
    live and the new probe ended in time: recent results are not probed again, and a probe that
    hangs keeps what was known. *)
Theorem readiness_is_critical_conjunction ttl now outcomes r :
  readiness_ok r →
  ∃ r' ok sts, check_readiness ttl now outcomes r = (r', Ok (ok, sts)) ∧ readiness_ok r' ∧
    (ok = true ↔ ∀ d, d ∈ deps r → critical d = true →
       ∃ res, dict_get (dep_name d) (probe_cache r') = Some res ∧ pr_ok res = true) ∧
    (∀ d, d ∈ deps r → dict_get (dep_name d) (probe_cache r') =
       match (if is_stale ttl now r d then outcomes (dep_name d) else None) with
       | Some res => Some res
       | None => dict_get (dep_name d) (probe_cache r)
       end).
Proof.
  intros [Hn Hk]. unfold check_readiness. cbn [deps].
  set (to_run := List.filter (is_stale ttl now r) (deps r)).
  set (cache := store_results outcomes to_run (probe_cache r)).
  assert (∀ d, d ∈ deps r → dict_get (dep_name d) cache =
    match (if is_stale ttl now r d then outcomes (dep_name d) else None) with
    | Some res => Some res | None => dict_get (dep_name d) (probe_cache r) end) as Hget.
  { intros d Hd. unfold cache. rewrite store_results_get. destruct (is_stale ttl now r d) eqn:Hs.
    - rewrite bool_decide_true; [done|]. apply (list_elem_of_fmap_2 dep_name). unfold to_run.
      by rewrite list_elem_of_In, filter_In, <-list_elem_of_In.
    - rewrite bool_decide_false; [done|]. intros (d' & He & Hin)%list_elem_of_fmap_1. unfold to_run in Hin.
      rewrite list_elem_of_In, filter_In, <-list_elem_of_In in Hin. destruct Hin as [Hin Hs'].
      rewrite (NoDup_fmap_elem dep_name (deps r) d d') in Hs by done. congruence. }
  assert (Forall (λ d, is_Some (dict_get (dep_name d) cache)) (deps r)) as Hknown.
  { apply Forall_forall. intros d Hd. rewrite Hget by done. rewrite Forall_forall in Hk.
    destruct (if is_stale ttl now r d then _ else _); [done|by apply Hk]. }
  destruct (answer_loop cache (deps r) (true, []) Hknown) as [sts ->]. rewrite bind_Ok. cbn [fst andb].
  eexists _, _, sts. split; [reflexivity|]. cbn [probe_cache]. split; [by split|]. split; [|done].
  rewrite forallb_forall. setoid_rewrite <-list_elem_of_In. rewrite Forall_forall in Hknown. split.
  - intros Hf d Hd Hc. destruct (Hknown d Hd) as [res Hr]. exists res. split; [done|].
    specialize (Hf d Hd). rewrite Hc, Hr in Hf. by destruct (pr_ok res).
  - intros Hf d Hd. destruct (critical d) eqn:Hc; [|done]. destruct (Hf d Hd Hc) as (res & -> & ->). done.
Qed.

(** ** Metrics and downloads *)

(** With a token configured, metrics are served exactly to requests that carry it, as bearer
    token or in the header of its own. *)
Theorem metrics_need_the_token expected authorization x r :
  expected ≠ [] → Forall code_point expected →
  Forall code_point (default [] authorization) → Forall code_point (default [] x) →
  metrics_route true (Some expected) authorization x = Ok r →
  r = MetricsServed ↔
  (starts_with (lit "Bearer ") (default [] authorization) = true ∧ py_strip (drop 7 (default [] authorization)) = expected) ∨
  py_strip (default [] x) = expected.
Proof.
  intros Hne He Ha Hx. unfold metrics_route. cbn [negb]. destruct expected as [|e0 expected]; [done|].
  cbv zeta. set (tok := if starts_with _ _ then _ else _). set (cus := py_strip (default [] x)).
  assert (Forall code_point tok ∧ Forall code_point cus) as [Ht Hc].
  { split; [|by apply Forall_strip_by]. unfold tok. destruct (starts_with _ _); [|done].
    apply Forall_strip_by. by apply Forall_drop. }
  destruct (utf8_encode tok) as [t|] eqn:Et; [|done]. destruct (utf8_encode cus) as [c|] eqn:Ec; [|done].
  destruct (utf8_encode (e0 :: expected)) as [e|] eqn:Ee; [|done]. intros [= <-].
  assert (∀ s b, Forall code_point s → utf8_encode s = Some b → b = e ↔ s = e0 :: expected) as Hinj.
  { intros s b Hs Hb. split; [intros ->|congruence]. apply utf8_encode_inj; [done..|by rewrite Hb|congruence]. }
  transitivity (tok = e0 :: expected ∨ cus = e0 :: expected).
  - rewrite <-(Hinj tok t), <-(Hinj cus c) by done.
    destruct (decide (t = e)), (decide (c = e)); repeat first [rewrite bool_decide_true by done|rewrite bool_decide_false by done]; cbn; tauto || (split; [done|intros [?|?]; done]).
  - unfold tok. destruct (starts_with _ _); [naive_solver|]. split; [by intros [?|?]; [|right]|intros [[? _]|?]; [done|by right]].
Qed.

(** An output is sent exactly for completed embedding jobs that were not purged and still
    have their file. *)
Theorem download_iff id output q :
  (∃ content etag, download_job_result id output q = Downloaded content etag) ↔
  ∃ j content etag, get_job id q = Some j ∧ purged j = false ∧ jb_type j = lit "embed" ∧ status j = completed ∧
    output = Some content ∧ output_etag (job_result j) content = Ok etag.
Proof.
  unfold download_job_result. destruct (get_job id q) as [j|]; [|split; [by intros (? & ? & ?)|by intros (? & ? & ? & ? & _)]].
  destruct (purged j) eqn:Hp; [split; [by intros (? & ? & ?)|]; intros (j' & ? & ? & [= <-] & ? & _); congruence|].
  destruct (decide (jb_type j = lit "embed")) as [Ht|Ht]; [rewrite (bool_decide_true (jb_type j = _)) by done|
    rewrite (bool_decide_false (jb_type j = _)) by done; split; [by intros (? & ? & ?)|by intros (j' & ? & ? & [= <-] & _ & ? & _)]].
  destruct (decide (status j = completed)) as [Hs|Hs]; [rewrite (bool_decide_true (status j = _)) by done|
    rewrite (bool_decide_false (status j = _)) by done; split; [by intros (? & ? & ?)|by intros (j' & ? & ? & [= <-] & _ & _ & ? & _)]].
  cbn [negb orb]. destruct output as [content|]; [|split; [by intros (? & ? & ?)|by intros (? & ? & ? & _ & _ & _ & _ & ? & _)]].
  destruct (output_etag (job_result j) content) as [etag|e] eqn:He.
  - split; [|by intros _; exists content, etag]. intros _. by exists j, content, etag.
  - split; [by intros (? & ? & ?)|]. intros (j' & c & et & [= <-] & _ & _ & _ & [= <-] & ?). congruence.
Qed.
End facts.

(** * Witnesses *)

#[local] Existing Instance plain_unicode.

(** Underscores, a sign and a prefix are hex to the input check. *)
Example loose_hex_is_accepted :
  validate_selective_disclosure_input
    [(lit "schemaHash", PStr (lit "-0x_" ++ replicate 60 48)); (lit "publicInputs", PStr (replicate 704 48)); (lit "proof", PStr (lit "+1"))] = None.
Proof. by vm_compute. Qed.

Definition schema_file (h : string) : option pyval := Some (PDict [(lit "schemaHash", PStr (lit h))]).

Lemma schema_found_iff_witness :
  match get_schema [None; schema_file hex_a] (lit hex_a) None with
  | SchemaFound s etag => s ∈ discover_schemas [None; schema_file hex_a] ∧
      canonicalize_hex (get_text "schemaHash" s) = canonicalize_hex (PStr (lit hex_a)) ∧
      etag = quoted (py_lower (lit hex_a)) ∧ None ≠ Some etag
  | NotModified etag => etag = Some (quoted (py_lower (lit hex_a))) ∧ None = etag
  | SchemaRefused st _ => st = 404 ∧ ∀ s, s ∈ discover_schemas [None; schema_file hex_a] →
      canonicalize_hex (get_text "schemaHash" s) ≠ canonicalize_hex (PStr (lit hex_a))
  | _ => False
  end.
Proof. apply schema_found_iff; by vm_compute. Defined.

Lemma hex_a_etag : is_ok (list_etag [lit hex_a]) = true.
Proof. by vm_compute. Qed.

Lemma listing_etag_binds_witness : [lit hex_a] = [lit hex_a] ∨ ∃ b b', sha256_collision b b'.
Proof.
  apply (listing_etag_binds [lit hex_a] [lit hex_a] (from_ok [] (list_etag [lit hex_a])));
    [repeat constructor|repeat constructor|apply (bool_decide_unpack _); by vm_compute|apply (bool_decide_unpack _); by vm_compute
    |apply from_ok_spec; exact hex_a_etag|apply from_ok_spec; exact hex_a_etag].
Defined.

Definition database_dep : Dependency :=
  {| dep_name := lit "database"; critical := true; ok_status := lit "connected"; fail_status := lit "not_configured" |}.
Definition sample_readiness : readiness := add_dependency database_dep {| deps := []; probe_cache := [] |}.

Lemma sample_readiness_ok : readiness_ok sample_readiness.
Proof. apply add_dependency_ok; [split; constructor|]. by intros ?%elem_of_nil. Qed.

(** The database answers. *)
Definition good_probe (n : str) : option ProbeResult := Some (run_probe database_dep (Some true) 10).

Lemma readiness_is_critical_conjunction_witness :
  ∃ r' ok sts, check_readiness 5 10 good_probe sample_readiness = (r', Ok (ok, sts)) ∧ readiness_ok r' ∧
    (ok = true ↔ ∀ d, d ∈ deps sample_readiness → critical d = true →
       ∃ res, dict_get (dep_name d) (probe_cache r') = Some res ∧ pr_ok res = true) ∧
    (∀ d, d ∈ deps sample_readiness → dict_get (dep_name d) (probe_cache r') =
       match (if is_stale 5 10 sample_readiness d then good_probe (dep_name d) else None) with
       | Some res => Some res
       | None => dict_get (dep_name d) (probe_cache sample_readiness)
       end).
Proof. apply readiness_is_critical_conjunction. exact sample_readiness_ok. Defined.

Lemma metrics_need_the_token_witness :
  MetricsServed = MetricsServed ↔
  (starts_with (lit "Bearer ") (lit "Bearer t") = true ∧ py_strip (drop 7 (lit "Bearer t")) = lit "t") ∨
  py_strip [] = lit "t".
Proof.
  apply (metrics_need_the_token (lit "t") (Some (lit "Bearer t")) None);
    [done|apply (bool_decide_unpack _); by vm_compute|apply (bool_decide_unpack _); by vm_compute|constructor|by vm_compute].
Defined.

Definition capture_request : list (str * pyval) :=
  [(lit "attestation", PDict (from_ok [] (encode_attestation (sample_capture sample_nonce sample_nonce))));
   (lit "evidenceDigest", PStr sample_nonce)].

Definition is_checked (a : capture_answer) : bool := match a with CaptureChecked _ _ _ => true | _ => false end.

Lemma capture_request_is_checked : is_checked (verify_capture_attestation 0 10 (PDict capture_request)) = true.
Proof. by vm_compute. Qed.

Lemma capture_request_checked : ∃ valid hash checks,
  verify_capture_attestation 0 10 (PDict capture_request) = CaptureChecked valid hash checks.
Proof.
  pose proof capture_request_is_checked as Hc.
  destruct (verify_capture_attestation 0 10 (PDict capture_request)) as [| | |valid hash checks]; try done. by exists valid, hash, checks.
Qed.

Lemma capture_valid_iff_witness : ∃ (valid : bool) hash a digest,
  decode_attestation (get_or_none (lit "attestation") capture_request) = Ok a ∧
  get_either "evidence_digest" "evidenceDigest" capture_request = PStr digest ∧ canonical_attestation_hash a = Ok hash ∧
  (valid = true ↔
    py_lower (text_value (evidence_digest_binding a)) = py_lower digest ∧
    ∀ k, get_either "device_key" "deviceKey" capture_request = PStr k → device_check a k = true).
Proof.
  destruct capture_request_checked as (valid & hash & checks & Hc). exists valid, hash.
  exact (capture_valid_iff 0 10 capture_request valid hash checks Hc).
Defined.
