(* ===== verification/Manage.v ===== *)
(** The operator's command line: [manage.py].  The commands migrate and check the database,
    compare its schema, purge expired events and reconcile registrations; each ends in an exit
    code and a payload.

    The arguments are parsed: [argparse] has refused malformed ones.  The reconciliation is an
    argument, its report is handed through.  Payloads are the values that are printed.

    Shown: what each exit code means; a check that finds nothing makes the next migration a
    formality; the purge ends, counts what it deleted and leaves nothing expired, with a batch
    size the store allows.  With a larger one it stops after one batch, whatever is left. *)
From Stdlib Require Import ZArith Lia.
From stdpp Require Import base decidable strings numbers list gmap.
From S2P Require Import Prelude PyStr Ddl Migration ProofStore.

Open Scope Z_scope.

#[local] Arguments lit _ : simpl never.

Definition MANAGE_EXIT_OK : Z := 0.
Definition EXIT_PROBLEMS : Z := 1.
Definition EXIT_NOT_CONFIGURED : Z := 3.
Definition EXIT_ERROR : Z := 4.

(** What a command prints. *)
Inductive payload : Type :=
  | CheckPayload (ok : bool) (checksum_issues : list checksum_issue) (pending : list (Z * str))
  | MigratePayload (ok : bool) (applied : Z) (migrations : list report_entry)
  | ChecksumErrorPayload (checksum_issues : list checksum_issue)
  | DriftPayload (ok : bool) (drift : list drift_entry)
  | DryRunPayload (expired : Z)
  | RetentionPayload (batch_size batches deleted : Z)
  | ReconcilePayload (ok : bool)
  | NotConfiguredPayload
  | ErrorPayload.

Section commands.
Context `{Unicode}.

(** [_cmd_migrate --check] *)
Definition cmd_migrate_check (env : environment) (ms : list migration) (d : database) : database * result migration_error (Z * payload) :=
  match verify_migration_checksums (DATABASE_URL env) ms d with
  | (d, Err e) => (d, Err e)
  | (d, Ok issues) =>
      let pending := map (λ m, (m_id m, m_name m)) (List.filter (λ m, negb (bool_decide (m_id m ∈ dom (ledger d)))) ms) in
      let ok := bool_decide (issues = []) in
      (d, Ok (if ok then MANAGE_EXIT_OK else EXIT_PROBLEMS, CheckPayload ok issues pending))
  end.

(** [_cmd_migrate]; a failed verification is a result, other exceptions leave the command. *)
Definition cmd_migrate (env : environment) (ms : list migration) (d : database) : database * result migration_error (Z * payload) :=
  match run_migrations env None ms d with
  | (d, Err (MigrationChecksumError issues)) => (d, Ok (EXIT_PROBLEMS, ChecksumErrorPayload issues))
  | (d, Err e) => (d, Err e)
  | (d, Ok results) =>
      let mismatched := List.filter (λ r, negb (bool_decide (r_status r = lit "verified"))) results in
      let ok := bool_decide (mismatched = []) in
      let applied := zlen (List.filter (λ r, bool_decide (r_action r = lit "applied")) results) in
      (d, Ok (if ok then MANAGE_EXIT_OK else EXIT_PROBLEMS, MigratePayload ok applied results))
  end.

Definition cmd_drift (env : environment) (d : database) : Z * payload :=
  let drifts := detect_drift (DATABASE_URL env) (db_schema d) in
  let ok := bool_decide (drifts = []) in
  (if ok then MANAGE_EXIT_OK else EXIT_PROBLEMS, DriftPayload ok drifts).
End commands.

(** The loop of [_cmd_retention]: one instant of the clock per batch; [None] when it needs more. *)
Fixpoint retention_loop (clock : list Z) (batch_size batches deleted : Z) (s : store) : option (store * Z * Z) :=
  match clock with
  | [] => None
  | now :: clock =>
      let '(s, rs) := purge_expired_events now batch_size s in
      let batches := batches + 1 in
      let deleted := deleted + zlen rs in
      if zlen rs <? batch_size then Some (s, batches, deleted) else retention_loop clock batch_size batches deleted s
  end.

(** [_cmd_retention]; [default_size] is the configured batch size. *)
Definition cmd_retention (dry_run : bool) (batch_size : option Z) (default_size now : Z) (clock : list Z) (s : store) :
    option (store * (Z * payload)) :=
  if dry_run then Some (s, (MANAGE_EXIT_OK, DryRunPayload (count_expired_events now s))) else
  let batch_size := default default_size batch_size in
  match retention_loop clock batch_size 0 0 s with
  | None => None
  | Some (s, batches, deleted) => Some (s, (MANAGE_EXIT_OK, RetentionPayload batch_size batches deleted))
  end.

(** [_cmd_reconcile]: [report_ok] is the entry ["ok"] of the report. *)
Definition cmd_reconcile (report_ok : option bool) : Z * payload := (MANAGE_EXIT_OK, ReconcilePayload (default true report_ok)).

(** [main] after the arguments were parsed: the handler's answer, or what it raised. *)
Definition main_exit {E} (env : environment) (handled : result E (Z * payload)) : Z * payload :=
  if bool_decide (default [] (DATABASE_URL env) = []) then (EXIT_NOT_CONFIGURED, NotConfiguredPayload) else
  match handled with Ok r => r | Err _ => (EXIT_ERROR, ErrorPayload) end.

(** * Facts *)

Section facts.
Context `{Unicode}.

Lemma main_exit_configured {E} env (handled : result E (Z * payload)) :
  configured env → main_exit env handled = match handled with Ok r => r | Err _ => (EXIT_ERROR, ErrorPayload) end.
Proof. intros Hc. unfold main_exit. by rewrite bool_decide_false. Qed.

(** [migrate] exits with zero exactly when the run returned and every migration it reports is
    verified, and with one exactly when digests differ, whether they stopped the run or not. *)
Theorem migrate_exit_codes env ms d :
  configured env →
  let '(d', r) := run_migrations env None ms d in
  (cmd_migrate env ms d).1 = d' ∧
  ((main_exit env (cmd_migrate env ms d).2).1 = MANAGE_EXIT_OK ↔
    ∃ rep, r = Ok rep ∧ Forall (λ e, r_status e = lit "verified") rep) ∧
  ((main_exit env (cmd_migrate env ms d).2).1 = EXIT_PROBLEMS ↔
    (∃ issues, r = Err (MigrationChecksumError issues)) ∨
    ∃ rep, r = Ok rep ∧ ¬ Forall (λ e, r_status e = lit "verified") rep).
Proof.
  intros Hc. unfold cmd_migrate. destruct (run_migrations env None ms d) as [d' [rep|e]].
  - cbn [fst snd]. split; [done|]. rewrite main_exit_configured by done. cbn [fst].
    set (bad := List.filter _ rep).
    assert (bad = [] ↔ Forall (λ e, r_status e = lit "verified") rep) as Hbad.
    { unfold bad. clear. induction rep as [|e rep IH]; [done|]. cbn [List.filter]. rewrite Forall_cons, <-IH.
      destruct (decide (r_status e = lit "verified")) as [He|He];
        [rewrite (bool_decide_true (r_status e = _)) by done; tauto|rewrite (bool_decide_false (r_status e = _)) by done; cbn; intuition congruence]. }
    destruct (decide (bad = [])) as [Hb|Hb]; [rewrite bool_decide_true by done|rewrite bool_decide_false by done]; rewrite Hbad in Hb.
    + split; split; [by exists rep|done|done|]. intros [[? ?]|(? & [= <-] & ?)]; done.
    + split; split; [done| |by right; exists rep|done]. by intros (? & [= <-] & ?).
  - destruct e as [issues| |]; cbn [fst snd]; rewrite main_exit_configured by done; cbn [fst].
    + split; [done|]. split; split; [done|by intros (? & ? & _)|by left; exists issues|done].
    + split; [done|]. split; split; [done|by intros (? & ? & _)|done|by intros [[? ?]|(? & ? & _)]].
    + split; [done|]. split; split; [done|by intros (? & ? & _)|done|by intros [[? ?]|(? & ? & _)]].
Qed.

Lemma filter_nil_iff {A} (p : A → bool) l : List.filter p l = [] ↔ ∀ x, x ∈ l → p x = false.
Proof.
  induction l as [|x l IH]; cbn; [split; [by intros _ ? ?%elem_of_nil|done]|].
  destruct (p x) eqn:Hp; [split; [done|intros Hf; rewrite Hf in Hp by left; done]|].
  rewrite IH. split; [intros Hf y [-> |]%elem_of_cons; auto|intros Hf y Hy; apply Hf; by right].
Qed.

(** When [migrate --check] exits with zero and lists nothing pending, [migrate] has nothing to
    do: it changes nothing and exits with zero. *)
Theorem clean_check_means_no_migration env ms d d' issues :
  configured env →
  cmd_migrate_check env ms d = (d', Ok (MANAGE_EXIT_OK, CheckPayload true issues [])) →
  ∃ rep, cmd_migrate env ms d' = (d', Ok (MANAGE_EXIT_OK, MigratePayload true 0 rep)).
Proof.
  intros Hc. unfold cmd_migrate_check, verify_migration_checksums. rewrite bool_decide_false by done.
  destruct (ensure_migrations_table d) as [d0|] eqn:He; [|done].
  destruct (verify_records ms (ledger d0)) as [iss|] eqn:Hv; [|done]. intros [= <- _ Hok <- Hp].
  apply bool_decide_eq_true in Hok as ->. apply map_eq_nil in Hp. rewrite filter_nil_iff in Hp.
  unfold cmd_migrate, run_migrations. rewrite bool_decide_false by done.
  assert (ensure_migrations_table d0 = Some d0) as -> by (by eapply execute_on_settled).
  rewrite Hv. rewrite (bool_decide_true ([] = [])) by done. cbn [negb andb].
  rewrite apply_all_skipped.
  2:{ intros m Hm. specialize (Hp m Hm). apply negb_false_iff, bool_decide_eq_true in Hp. done. }
  cbn [app]. eexists. f_equal. f_equal.
  assert (∀ l, List.filter (λ r, negb (bool_decide (r_status r = lit "verified")))
    (map (λ m, entry_of m (lit "skipped") (skipped_status (issues_by_id []) m)) l) = []) as ->.
  { intros l. apply filter_nil_iff. by intros x (m & -> & _)%list_elem_of_fmap_1. }
  assert (∀ l, List.filter (λ r, bool_decide (r_action r = lit "applied"))
    (map (λ m, entry_of m (lit "skipped") (skipped_status (issues_by_id []) m)) l) = []) as ->.
  { intros l. apply filter_nil_iff. by intros x (m & -> & _)%list_elem_of_fmap_1. }
  done.
Qed.
End facts.

(** ** Retention *)

Lemma retention_loop_counts clock b n k s s' n' k' :
  retention_loop clock b n k s = Some (s', n', k') → k' - k = zlen (receipts s') - zlen (receipts s).
Proof.
  revert n k s. induction clock as [|now clock IH]; intros n k s; cbn [retention_loop]; [done|].
  pose proof (purge_page now b s) as Hp. destruct (purge_expired_events now b s) as [s1 rs].
  destruct Hp as (_ & _ & Hr & _). assert (zlen (receipts s1) = zlen (receipts s) + zlen rs) as Hz.
  { rewrite Hr. unfold zlen. rewrite length_app. lia. }
  case_match; [intros [= <- <- <-]; lia|]. intros Hl. apply IH in Hl. lia.
Qed.

(** The purge of an operator ends, and prints the number of receipts it left; with a batch
    size the store allows, nothing that had expired when it began is left. *)
Theorem operator_purge_drains s clock b t0 :
  store_ok s → 1 ≤ b ≤ RETENTION_BATCH_MAX_SIZE →
  Forall (λ t, t0 ≤ t) clock → (length (events s) < length clock)%nat →
  ∃ s' batches deleted,
    cmd_retention false (Some b) 0 0 clock s = Some (s', (MANAGE_EXIT_OK, RetentionPayload b batches deleted)) ∧
    deleted = zlen (receipts s') - zlen (receipts s) ∧ Forall (λ e, expired t0 e = false) (events s').
Proof.
  intros Hok Hb Hclock Hlen. unfold cmd_retention. cbn [from_option id].
  enough (∃ s' n k, retention_loop clock b 0 0 s = Some (s', n, k) ∧ Forall (λ e, expired t0 e = false) (events s')) as (s' & n & k & Hl & Hf).
  { exists s', n, k. rewrite Hl. split; [done|]. split; [|done]. apply retention_loop_counts in Hl. lia. }
  generalize 0 at 1 as n0. generalize 0 as k0. revert s Hok Hlen.
  induction Hclock as [|now clock Hnow Hclock IH]; intros s Hok Hlen k0 n0; [cbn in Hlen; lia|].
  cbn [retention_loop]. pose proof (purge_page now b s) as Hp. pose proof (purge_ok now b s Hok) as Hok'.
  destruct (purge_expired_events now b s) as [s1 rs1]. destruct Hp as (Hev & _ & _ & Hids). cbn [fst] in *.
  assert (zlen rs1 = zlen (page_gone now b s)) as Hzl.
  { apply (f_equal length) in Hids. rewrite !length_fmap in Hids. unfold zlen. lia. }
  destruct (Z.ltb_spec (zlen rs1) b) as [Hshort|Hfull].
  - eexists _, _, _. split; [done|]. apply Forall_forall. intros e He.
    rewrite Hev in He. apply purge_events in He as [He Hn]; [|done]. rewrite short_page in Hn by (done || lia).
    destruct (expired t0 e) eqn:Hexp; [|done]. exfalso. apply Hn, list_elem_of_filter.
    split; [|done]. eapply expired_mono; [|exact Hexp]. lia.
  - apply IH; [done|]. assert (length (events s1) < length (events s))%nat; [|cbn in Hlen; lia].
    destruct (page_gone now b s) as [|e l] eqn:Hg; [unfold zlen in *; cbn in *; lia|]. rewrite Hev.
    apply (length_filter_lt _ _ e); [|intros Hn; apply Hn; by left].
    eapply elem_of_sublist; [|apply (page_gone_sub now b s)]. rewrite Hg. by left.
Qed.

(** With a batch size above the maximum of the store, the purge of an operator stops after one
    batch, however many events are left: a batch never has as many receipts as were asked for. *)
Theorem oversized_batch_stops_early s now clock b :
  RETENTION_BATCH_MAX_SIZE < b →
  cmd_retention false (Some b) 0 0 (now :: clock) s =
  Some ((purge_expired_events now b s).1, (MANAGE_EXIT_OK, RetentionPayload b 1 (zlen (purge_expired_events now b s).2))) ∧
  zlen (purge_expired_events now b s).2 ≤ RETENTION_BATCH_MAX_SIZE.
Proof.
  intros Hb. assert (zlen (purge_expired_events now b s).2 ≤ RETENTION_BATCH_MAX_SIZE) as Hle.
  { pose proof (purge_page now b s) as Hp. destruct (purge_expired_events now b s) as [s1 rs1].
    destruct Hp as (_ & _ & _ & Hids). cbn [snd]. apply (f_equal length) in Hids. rewrite !length_fmap in Hids.
    unfold zlen. rewrite Hids. unfold page_gone. rewrite length_take. unfold RETENTION_BATCH_MAX_SIZE in *. lia. }
  split; [|done]. unfold cmd_retention. cbn [from_option id retention_loop].
  destruct (purge_expired_events now b s) as [s1 rs1]. cbn [fst snd] in *.
  destruct (Z.ltb_spec (zlen rs1) b); [done|lia].
Qed.

(** * Witnesses *)

#[local] Existing Instance plain_unicode.

Lemma migrate_exit_codes_witness :
  let '(d', r) := run_migrations server_env None MIGRATIONS tampered in
  (cmd_migrate server_env MIGRATIONS tampered).1 = d' ∧
  ((main_exit server_env (cmd_migrate server_env MIGRATIONS tampered).2).1 = MANAGE_EXIT_OK ↔
    ∃ rep, r = Ok rep ∧ Forall (λ e, r_status e = lit "verified") rep) ∧
  ((main_exit server_env (cmd_migrate server_env MIGRATIONS tampered).2).1 = EXIT_PROBLEMS ↔
    (∃ issues, r = Err (MigrationChecksumError issues)) ∨
    ∃ rep, r = Ok rep ∧ ¬ Forall (λ e, r_status e = lit "verified") rep).
Proof. apply migrate_exit_codes. exact server_configured. Defined.

(** A list of no migrations on a fresh database. *)
Lemma clean_check_means_no_migration_witness :
  ∃ rep, cmd_migrate server_env [] started = (started, Ok (MANAGE_EXIT_OK, MigratePayload true 0 rep)).
Proof.
  apply (clean_check_means_no_migration server_env [] fresh started []); [exact server_configured|by vm_compute].
Defined.

Lemma operator_purge_drains_witness :
  ∃ s' batches deleted,
    cmd_retention false (Some 1) 0 0 [10; 11; 12] sample_store = Some (s', (MANAGE_EXIT_OK, RetentionPayload 1 batches deleted)) ∧
    deleted = zlen (receipts s') - zlen (receipts sample_store) ∧ Forall (λ e, expired 10 e = false) (events s').
Proof.
  apply operator_purge_drains.
  - exact sample_store_ok.
  - by vm_compute.
  - repeat constructor; by vm_compute.
  - vm_compute. repeat constructor.
Defined.

Lemma oversized_batch_stops_early_witness :
  cmd_retention false (Some 5001) 0 0 [10] sample_store =
  Some ((purge_expired_events 10 5001 sample_store).1,
        (MANAGE_EXIT_OK, RetentionPayload 5001 1 (zlen (purge_expired_events 10 5001 sample_store).2))) ∧
  zlen (purge_expired_events 10 5001 sample_store).2 ≤ RETENTION_BATCH_MAX_SIZE.
Proof. apply oversized_batch_stops_early. by vm_compute. Defined.

(** [drift] exits with one on the database that [migrate] has just created. *)
Example drift_after_migrate : (cmd_drift server_env migrated).1 = EXIT_PROBLEMS.
Proof. by vm_compute. Qed.
